(* ===== verification/_CoqProject ===== *)
-Q . S2P
Prelude.v
State.v
RefGrp.v
RefGrpTheorems.v
Wp.v
Ref.v
Cache.v
Core.v
Add.v
Del.v
Base.v
Iter.v
Sub.v
NoCstr.v
Inv.v
PosLemmas.v
SpareLemmas.v
SplitLemmas.v
CacheLemmas.v
AddLemmas.v
StringLemmas.v
AddSpec.v
AddOps.v
AddTheorems.v
BaseTheorems.v
DelLemmas.v
DelSpec.v
DelTheorems.v
Edits.v
IterLemmas.v
InPlace.v
DelAtomic.v
SubSpec.v
Spn.v
IovecSpec.v
SpnSpec.v
SpnTheorems.v
World.v
Frame.v
WorldInv.v
AddVstr.v
AddVstrSpec.v
Life.v
LifeSpec.v
WorldOps.v
Cmp.v
CmpSpec.v
Srch.v
SrchSpec.v
SrchRev.v
SrchCase.v
Parse.v
ParseSpec.v
ParseIp.v
Demo.v
WorldDemo.v
SrchTheorems.v
ParseTheorems.v
Split.v
Conv.v
Export.v
SplitSpec.v
SplitTheorems.v
Data.v
ExportTheorems.v
StringTheorems.v
WorldTheorems.v
Fmt.v
FmtUsr.v
FmtParse.v
Puts.v
FmtSpec.v
FmtRead.v
FmtText.v
FmtTheorems.v
Netstr.v
NetstrSpec.v
FmtTable.v
Mov.v
MovTheorems.v
