(* ===== verification/Prelude.v ===== *)
(** * Vstr: a vectored string library, modelled and verified.

    Vstr keeps a string as a list of nodes.  A node holds bytes in a buffer of
    its own (BUF), points to memory of the caller (PTR), shares memory by a
    reference count (REF), or stands for a length without data (NON).  Strings
    take their nodes from the spare lists of a configuration and give them
    back, and they keep three caches: the node last looked up, the vector of
    the nodes for writev, and a contiguous copy for C.

    ** The model: data and memory

    - Prelude: machine integers with their wrap-around ([u16], [u28], [u32],
      [u64]) and lists indexed by [Z].
    - State: the structs of include/vstr-def.h as records and inductive types;
      the memory (allocations, pointers into them, reference counts) and the
      monad [M] of an operation on one string: state, and [None] for undefined
      behaviour (an access outside an allocation, a NULL node).
      [st_content] is what a string means: the list of its characters, where
      [None] is a character of NON data.
    - World: several strings in one memory, the monad [W], and [on_string],
      an operation [M] on one of them.  Life: making and freeing strings and
      configurations (src/vstr.c), and src/vstr_dup.c.

    ** The model: the functions, a definition per function under its name

    - RefGrp: the groups in which src/vstr_ref.c allocates references, as a
      state of its own with the references given out.  Ref: the other
      functions of src/vstr_ref.c.
    - Cache, Core, Add, Del, Base: src/vstr_cache.c, src/vstr.c,
      src/vstr_add.c, src/vstr_del.c with the inline parts in
      include/vstr-inline.h and include/vstr-nx-inline.h.  The macros
      VSTR__ADD_BEG, _MID and _END, of which the functions of vstr_add.c are
      made, are definitions over a record [add_op] of what differs between
      them.  AddVstr: vstr_add_vstr, on a world.
    - Iter: the iterator and the loops made with it, over the body of the loop.
      Spn: src/vstr_spn.c and the searches for one character.  Srch:
      src/vstr_srch.c, src/vstr_srch_case.c.  Cmp: src/vstr_cmp.c, whose
      comparisons are one loop over a record [comparison].
    - Sub: src/vstr_sub.c.  Mov: src/vstr_mov.c.  Conv: src/vstr_conv.c.
      Split: src/vstr_split.c and src/vstr_sect.c.  Export:
      src/vstr_export.c and src/vstr_cstr.c.
    - Parse: src/vstr_parse.c.  Netstr: src/vstr_add_netstr.c and
      src/vstr_parse_netstr.c.
    - Data: src/vstr_data.c.
    - Fmt, FmtParse, FmtUsr: src/vstr_add_fmt.c and src/vstr_fmt.c.  The
      variable arguments are a list of typed values; a format is read into
      specifications, which take their arguments and are written one by one,
      as in vstr__add_vfmt.

    ** The proofs

    - Wp: total-correctness rules for [M].  Inv: the invariant [wf] of a
      string: the nodes are within their memory, no two nodes or spare nodes
      share a buffer, no pointer leads into the memory of the string,
      references are counted and what they free is not in use, lengths and
      numbers agree, the cached position is right.  It has a class [Others] of
      what other strings own, so that every theorem on one string holds beside
      others.  Frame, WorldInv: the invariant of a world, and that a step of
      one string is a step of the world that leaves the other strings as they
      are.
    - PosLemmas, SpareLemmas, SplitLemmas, CacheLemmas, StringLemmas,
      AddLemmas, AddSpec, AddOps, DelLemmas, DelSpec, IterLemmas, IovecSpec,
      SpnSpec, SrchSpec, SrchRev, SrchCase, CmpSpec, ParseSpec, ParseIp,
      SplitSpec, SubSpec, InPlace, DelAtomic, AddVstrSpec, LifeSpec, Puts,
      FmtSpec, FmtRead, FmtText, NetstrSpec: a contract per operation.
    - The interfaces: [AddOp] (AddSpec), an addition, with its instances in
      AddOps; [Comparison] (CmpSpec); [Separator] (SplitSpec), the sets and
      the strings that split; [BaseProp] (NoCstr), a property of strings that
      programs leave as it is; [Others] (Inv).
    - Edits: additions and deletions as edits of a list of characters.
      WorldOps: the library as one machine whose instructions make, edit,
      copy and free strings.
    - Demo, WorldDemo: strings and a world to instantiate the theorems on.
    - AddTheorems, BaseTheorems, DelTheorems, SpnTheorems, StringTheorems,
      SrchTheorems, ParseTheorems, SplitTheorems, ExportTheorems,
      WorldTheorems, RefGrpTheorems, Data, FmtTheorems, FmtTable, NetstrSpec,
      MovTheorems: the theorems.

    ** What the theorems show

    - One string.  The additions, deletions and substitutions are total on
      well formed strings, keep [wf], have the effect on the characters that
      their names say, refuse positions outside the string without a change,
      and when memory runs out keep the characters; sequences of them refine
      sequences of list edits.  A substitution by an addition and a deletion
      is atomic, since the deletion needs no memory (DelAtomic).
    - Nodes and caches.  The node of a position found by a shortcut or the
      cache is the one a scan finds.  The I/O vector made on demand describes
      the nodes.  Splitting a node and moving its bytes keep the characters.
    - Reading.  The spans, searches, comparisons, parsers, splits and exports
      give what their definitions on lists of characters give, and change
      nothing but the cached position; the backward functions do so without
      an I/O vector and with one that describes the nodes, which they need.  The text of a number parses as the
      number, a netstring as its data, sections join to what was split.
    - Several strings.  Adding one string to another inserts the characters
      and leaves the other as it is, whatever they share; moving takes them
      out of the other; freeing a string gives back its nodes and references
      ([given_up]) and nothing else; making and freeing count the users of
      configurations; the machine of all of it keeps the
      invariant of the world and refines a map from strings to lists of
      characters ([library_refines]).
    - References.  Groups of references free a group exactly when nothing in
      it is in use, and can always be drained.
    - Formatted output.  vstr_add_sysfmt adds the text its format and
      arguments stand for, or nothing; the table of the names of a user is a
      map, and the format found for a text is the one of the shortest name
      that is looked at.

    ** Choices

    - An allocation fails or not as the list [h_malloc] of the heap says, so
      every theorem covers every pattern of failures.
    - Addresses are never used again; a freed block is gone from the memory.
      Arrays on the stack and string literals are allocations of their own
      ([local_array]).  What the memory of a reference or an export holds
      when it is new is a parameter (the class [Junk] of Ref); the buffers of
      nodes and arrays start with zeros, but are written before they are read.
    - Loops over nodes are structural on the list of nodes or have the number
      of the nodes or characters as fuel; the theorems show it never runs out.
    - Asserts of the debug build are left out where the code goes on without
      them; the checks of ASSERT_RET are the early returns they are in the
      release build.
    - memcmp returns the difference of the first bytes that differ, as
      vstr_wrap_memcmp does for short data; memchr and the like are their
      definitions in the C standard.  Integers have the sizes of 64-bit Linux;
      HAVE_ASCII_ALPHA of the configured header is an argument of the parsers.
    - What is not under src/, or is there but not modelled, is an argument of
      the functions that use it: the formatting of floating point numbers
      (vstr_dbl), the functions of a user that format, strerror, and the
      conversion of buffers to references (vstr__convert_buf_ref and
      vstr__add_all_ref) for two of the types of vstr_add_vstr.
    - The theorems ask that 32-bit counters do not overflow ([room],
      [add_room]) and, where the code relies on it, that data added by pointer
      or by reference fits one node of VSTR_MAX_NODE_ALL bytes: the findings
      of the manifest say what the code does otherwise.

    ** Not modelled

    The shortcuts over files and system calls (vstr_sc*.c: all of it is
    reading, writing and mapping of files, and registering formatters), user
    caches, the getters and setters of vstr_cntl.c but for the options that
    the operations use, vstr_add_iovec_buf, vstr_export_ref, IPv6
    addresses, the portability replacements (fix.c, vstr_dbl), the examples
    and tests.  vstr_conv has no theorems, and vstr_mov within one string
    has none but examples of what it does on concrete strings. *)
From Stdlib Require Import ZArith Lia ZifyBool.
From stdpp Require Import base tactics list numbers option gmap.
#[global] Open Scope Z_scope.

(** ** Machine integers: the widths of the C types, wrap-around written out *)

Definition u16 (z : Z) : Z := z mod 65536.
Definition u28 (z : Z) : Z := z mod 268435456.
Definition u32 (z : Z) : Z := z mod 4294967296.
Definition u64 (z : Z) : Z := z mod 18446744073709551616.
Definition SIZE_MAX : Z := 18446744073709551615.
Definition UINT_MAX : Z := 4294967295.

Lemma u16_id z : 0 ≤ z < 65536 → u16 z = z.
Proof. apply Z.mod_small. Qed.
Lemma u28_id z : 0 ≤ z < 268435456 → u28 z = z.
Proof. apply Z.mod_small. Qed.
Lemma u32_id z : 0 ≤ z < 4294967296 → u32 z = z.
Proof. apply Z.mod_small. Qed.
Lemma u64_id z : 0 ≤ z ≤ SIZE_MAX → u64 z = z.
Proof. intros H. apply Z.mod_small. unfold SIZE_MAX in H. lia. Qed.
Lemma u64_range z : 0 ≤ u64 z ≤ SIZE_MAX.
Proof. unfold u64, SIZE_MAX. pose proof (Z.mod_pos_bound z 18446744073709551616). lia. Qed.
Lemma u32_range z : 0 ≤ u32 z ≤ UINT_MAX.
Proof. unfold u32, UINT_MAX. pose proof (Z.mod_pos_bound z 4294967296). lia. Qed.

(** ** Lists indexed by [Z] *)

Abbreviation zlen l := (Z.of_nat (length l)) (only parsing).
Definition ztake {A} (n : Z) (l : list A) : list A := take (Z.to_nat n) l.
Definition zdrop {A} (n : Z) (l : list A) : list A := drop (Z.to_nat n) l.
Definition zrep {A} (n : Z) (x : A) : list A := replicate (Z.to_nat n) x.
(** Overwrite [xs] at offset [n] of [l] (the caller checks the bounds). *)
Definition zwrite {A} (n : Z) (xs l : list A) : list A :=
  ztake n l ++ xs ++ zdrop (n + zlen xs) l.

Section zlists.
Context {A : Type}.
Implicit Types (l k : list A) (n m : Z).

Lemma length_ztake n l : zlen (ztake n l) = Z.max 0 (Z.min n (zlen l)).
Proof. unfold ztake. rewrite length_take. lia. Qed.
Lemma length_zdrop n l : zlen (zdrop n l) = Z.max 0 (zlen l - Z.max 0 n).
Proof. unfold zdrop. rewrite length_drop. lia. Qed.
Lemma length_zrep n (x : A) : zlen (zrep n x) = Z.max 0 n.
Proof. unfold zrep. rewrite length_replicate. lia. Qed.
Lemma length_zwrite n l k :
  0 ≤ n → n + zlen k ≤ zlen l → zlen (zwrite n k l) = zlen l.
Proof.
  intros. unfold zwrite. rewrite !length_app, !Nat2Z.inj_add, length_ztake, length_zdrop. lia.
Qed.

Lemma ztake_0 n l : n ≤ 0 → ztake n l = [].
Proof. intros. unfold ztake. replace (Z.to_nat n) with 0%nat by lia. done. Qed.
Lemma zdrop_0 n l : n ≤ 0 → zdrop n l = l.
Proof. intros. unfold zdrop. replace (Z.to_nat n) with 0%nat by lia. done. Qed.
Lemma ztake_all n l : zlen l ≤ n → ztake n l = l.
Proof. intros. apply take_ge. lia. Qed.
Lemma zdrop_all n l : zlen l ≤ n → zdrop n l = [].
Proof. intros. apply drop_ge. lia. Qed.
Lemma ztake_zdrop n l : ztake n l ++ zdrop n l = l.
Proof. apply take_drop. Qed.
Lemma ztake_ztake n m l : ztake n (ztake m l) = ztake (Z.min n m) l.
Proof. unfold ztake. rewrite take_take. f_equal. lia. Qed.
Lemma zdrop_zdrop n m l : 0 ≤ n → 0 ≤ m → zdrop n (zdrop m l) = zdrop (m + n) l.
Proof. intros. unfold zdrop. rewrite drop_drop. f_equal. lia. Qed.
Lemma ztake_zdrop_comm n m l :
  0 ≤ n → 0 ≤ m → ztake n (zdrop m l) = zdrop m (ztake (m + n) l).
Proof.
  intros. unfold ztake, zdrop. rewrite take_drop_commute. repeat f_equal. lia.
Qed.
Lemma zdrop_ztake n m l : 0 ≤ m ≤ n → zdrop m (ztake n l) = ztake (n - m) (zdrop m l).
Proof. intros. rewrite ztake_zdrop_comm by lia. do 2 f_equal. lia. Qed.
Lemma ztake_app n l k : ztake n (l ++ k) = ztake n l ++ ztake (n - zlen l) k.
Proof. unfold ztake. rewrite take_app. f_equal. f_equal. lia. Qed.
Lemma zdrop_app n l k : zdrop n (l ++ k) = zdrop n l ++ zdrop (n - zlen l) k.
Proof. unfold zdrop. rewrite drop_app. f_equal. f_equal. lia. Qed.
Lemma ztake_app_l n l k : n ≤ zlen l → ztake n (l ++ k) = ztake n l.
Proof. intros. rewrite ztake_app, (ztake_0 (n - _)), app_nil_r by lia. done. Qed.
Lemma ztake_app_r n l k : zlen l ≤ n → ztake n (l ++ k) = l ++ ztake (n - zlen l) k.
Proof. intros. rewrite ztake_app, (ztake_all n l) by lia. done. Qed.
Lemma zdrop_app_l n l k : n ≤ zlen l → zdrop n (l ++ k) = zdrop n l ++ k.
Proof. intros. rewrite zdrop_app, (zdrop_0 (n - _)) by lia. done. Qed.
Lemma zdrop_app_r n l k : zlen l ≤ n → zdrop n (l ++ k) = zdrop (n - zlen l) k.
Proof. intros. rewrite zdrop_app, (zdrop_all n l) by lia. done. Qed.
Lemma ztake_app_len l k : ztake (zlen l) (l ++ k) = l.
Proof. rewrite ztake_app_l, ztake_all by lia. done. Qed.
Lemma zdrop_app_len l k : zdrop (zlen l) (l ++ k) = k.
Proof. rewrite zdrop_app_r, zdrop_0 by lia. done. Qed.
Lemma ztake_zrep n m (x : A) : ztake n (zrep m x) = zrep (Z.min n m) x.
Proof. unfold ztake, zrep. rewrite take_replicate. f_equal. lia. Qed.
Lemma zdrop_zrep n m (x : A) : 0 ≤ n → zdrop n (zrep m x) = zrep (m - n) x.
Proof. intros. unfold zdrop, zrep. rewrite drop_replicate. f_equal. lia. Qed.
Lemma zrep_app n m (x : A) : 0 ≤ n → 0 ≤ m → zrep n x ++ zrep m x = zrep (n + m) x.
Proof. intros. unfold zrep. rewrite <- replicate_add. f_equal. lia. Qed.
Lemma ztake_fmap {B} (f : A → B) n l : ztake n (f <$> l) = f <$> ztake n l.
Proof. unfold ztake. by rewrite fmap_take. Qed.
Lemma zdrop_fmap {B} (f : A → B) n l : zdrop n (f <$> l) = f <$> zdrop n l.
Proof. unfold zdrop. by rewrite fmap_drop. Qed.
Lemma zrep_fmap {B} (f : A → B) n (x : A) : f <$> zrep n x = zrep n (f x).
Proof. unfold zrep. by rewrite fmap_replicate. Qed.

(** Reading back below, inside and above an overwritten range. *)
Lemma ztake_zwrite_below n m k l :
  0 ≤ m ≤ n → n ≤ zlen l → ztake m (zwrite n k l) = ztake m l.
Proof.
  intros. unfold zwrite. rewrite ztake_app_l by (rewrite length_ztake; lia).
  rewrite ztake_ztake. f_equal. lia.
Qed.
Lemma ztake_zwrite_end n k l :
  0 ≤ n ≤ zlen l → ztake (n + zlen k) (zwrite n k l) = ztake n l ++ k.
Proof.
  intros. unfold zwrite. rewrite app_assoc.
  assert (zlen (ztake n l ++ k) = n + zlen k) as <-.
  { rewrite length_app, Nat2Z.inj_add, length_ztake. lia. }
  apply ztake_app_len.
Qed.
Lemma zwrite_0 k l : zlen k ≤ zlen l → zwrite 0 k l = k ++ zdrop (zlen k) l.
Proof. intros. unfold zwrite. by rewrite ztake_0 by lia. Qed.
Lemma zwrite_nil n l : zwrite n [] l = l.
Proof. unfold zwrite. cbn. by rewrite Z.add_0_r, ztake_zdrop. Qed.
(** Overwriting a middle part, after dropping, and once more right behind *)
Lemma zwrite_app n k l1 l2 l3 :
  0 ≤ n → n + zlen k ≤ zlen l2 → zwrite (zlen l1 + n) k (l1 ++ l2 ++ l3) = l1 ++ zwrite n k l2 ++ l3.
Proof.
  intros. unfold zwrite. rewrite (ztake_app_r (zlen l1 + n)) by lia. rewrite (zdrop_app_r _ l1) by lia.
  replace (zlen l1 + n - zlen l1) with n by lia.
  replace (zlen l1 + n + zlen k - zlen l1) with (n + zlen k) by lia.
  rewrite ztake_app_l, zdrop_app_l by lia. by rewrite <- !app_assoc.
Qed.
Lemma zdrop_zwrite u n k l : 0 ≤ u ≤ n → n ≤ zlen l → zdrop u (zwrite n k l) = zwrite (n - u) k (zdrop u l).
Proof.
  intros. unfold zwrite. rewrite zdrop_app_l by (rewrite length_ztake; lia).
  rewrite zdrop_ztake, zdrop_zdrop by lia. do 2 f_equal. f_equal. lia.
Qed.
Lemma zwrite_zwrite n k1 k2 l :
  0 ≤ n → n + zlen k1 + zlen k2 ≤ zlen l → zwrite (n + zlen k1) k2 (zwrite n k1 l) = zwrite n (k1 ++ k2) l.
Proof.
  intros. unfold zwrite at 1. rewrite ztake_zwrite_end by lia. unfold zwrite. rewrite <- !app_assoc. do 3 f_equal.
  assert (Hn : zlen (ztake n l) = n) by (rewrite length_ztake; lia).
  rewrite (zdrop_app_r _ (ztake n l)), Hn by lia. rewrite (zdrop_app_r _ k1), zdrop_zdrop by lia.
  f_equal. rewrite length_app. lia.
Qed.
End zlists.

Create HintDb vstr discriminated.
Create Rewrite HintDb vlen.
#[export] Hint Rewrite @length_app @length_fmap @length_cons @length_nil @length_take
  @length_drop @length_replicate : vlen.
#[export] Hint Rewrite @length_ztake @length_zdrop @length_zrep : vlen.

(** ** Automation *)

(** Length arithmetic: push [length] through the list operations, then [lia]. *)
Ltac zl := repeat (rewrite ?length_ztake, ?length_zdrop, ?length_zrep, ?length_app,
    ?length_fmap, ?length_cons, ?length_nil, ?Nat2Z.inj_add, ?Nat2Z.inj_succ in * ); lia.
