(* ===== verification/State.v ===== *)
(** * The data of the library: nodes, strings, configurations, caches and the
    memory they point into (include/vstr-def.h), the monad in which the
    operations run, and the abstraction of a string to its bytes. *)
From Stdlib Require Import ZArith Lia ZifyBool.
From stdpp Require Import base tactics list numbers option gmap.
From S2P Require Import Prelude.

(** ** Memory

    An allocation is a positive; a [char *] is an allocation and an offset in
    it.  The buffer of a [Vstr_node_buf] is the allocation that bears the
    address of the node, so a pointer into the buffer of a node is
    [Ptr (nd_addr node) off]. *)
Record pointer := Ptr { p_blk : positive; p_off : Z }.
#[export] Instance pointer_eq_dec : EqDecision pointer.
Proof. solve_decision. Defined.

Definition ptr_add (p : pointer) (n : Z) : pointer := Ptr (p_blk p) (p_off p + n).

Abbreviation memory := (gmap positive (list Z)).

(** Reading or writing outside an allocation is undefined ([None]). *)
Definition load (m : memory) (p : pointer) (n : Z) : option (list Z) :=
  blk ← m !! p_blk p;
  if decide (0 ≤ p_off p ∧ 0 ≤ n ∧ p_off p + n ≤ zlen blk)
  then Some (ztake n (zdrop (p_off p) blk)) else None.

Definition store (m : memory) (p : pointer) (bs : list Z) : option memory :=
  blk ← m !! p_blk p;
  if decide (0 ≤ p_off p ∧ p_off p + zlen bs ≤ zlen blk)
  then Some (<[p_blk p := zwrite (p_off p) bs blk]> m) else None.

(** ** Shared references (struct Vstr_ref) *)
Inductive ref_func :=
| vstr_ref_cb_free_nothing
| vstr_ref_cb_free_ref
| vstr_ref_cb_free_ptr
| vstr_ref_cb_free_ptr_ref.
#[export] Instance ref_func_eq_dec : EqDecision ref_func.
Proof. solve_decision. Defined.

Record Vstr_ref := mkRef { r_func : ref_func; r_ptr : pointer; r_ref : Z }.
#[export] Instance Vstr_ref_eq_dec : EqDecision Vstr_ref.
Proof. solve_decision. Defined.

(** ** Nodes *)
Inductive node_type := NODE_BUF | NODE_NON | NODE_PTR | NODE_REF.
#[export] Instance node_type_eq_dec : EqDecision node_type.
Proof. solve_decision. Defined.

Inductive node_body :=
| Node_buf
| Node_non
| Node_ptr (ptr : pointer)
| Node_ref (ref : positive) (off : Z).
#[export] Instance node_body_eq_dec : EqDecision node_body.
Proof. solve_decision. Defined.

Record Vstr_node := mkNode { nd_addr : positive; nd_len : Z; nd_body : node_body }.
#[export] Instance Vstr_node_eq_dec : EqDecision Vstr_node.
Proof. solve_decision. Defined.

Definition nd_type (nd : Vstr_node) : node_type :=
  match nd_body nd with
  | Node_buf => NODE_BUF | Node_non => NODE_NON
  | Node_ptr _ => NODE_PTR | Node_ref _ _ => NODE_REF
  end.
Definition nd_set_len (n : Z) (nd : Vstr_node) : Vstr_node := mkNode (nd_addr nd) n (nd_body nd).
Definition nd_set_body (b : node_body) (nd : Vstr_node) : Vstr_node := mkNode (nd_addr nd) (nd_len nd) b.

Definition VSTR_MAX_NODE_BUF : Z := 0xFFFF.
Definition VSTR_MAX_NODE_ALL : Z := 0xFFFFFFF.

(** ** Caches *)
Record cache_data_pos := mkPos { cp_pos : Z; cp_num : Z; cp_node : option positive }.
Record iovec := mkIov { iov_base : option pointer; iov_len : Z }.
#[export] Instance iovec_eq_dec : EqDecision iovec.
Proof. solve_decision. Defined.
Record cache_data_iovec :=
  mkVec { cv_v : list iovec; cv_t : list node_type; cv_off : Z; cv_sz : Z }.
Record cache_data_cstr :=
  mkCstr { cc_pos : Z; cc_len : Z; cc_ref : option positive; cc_sz : Z; cc_off : Z }.
(** The data pointers of the three internal caches; [None] is a NULL one. *)
Record Vstr_cache :=
  mkCache { c_pos : option cache_data_pos; c_vec : option cache_data_iovec;
            c_cstr : option cache_data_cstr }.

(** ** Configurations: a spare list per node type, with its count *)
Record spare := mkSpare { sp_nodes : list positive; sp_num : Z }.
Record Vstr_conf := mkConf {
  spare_buf : spare; spare_non : spare; spare_ptr : spare; spare_ref : spare;
  buf_sz : Z; iov_min_alloc : Z; iov_min_offset : Z;
  malloc_bad : bool; split_buf_del : bool }.

Definition get_spare (t : node_type) (c : Vstr_conf) : spare :=
  match t with NODE_BUF => spare_buf c | NODE_NON => spare_non c
             | NODE_PTR => spare_ptr c | NODE_REF => spare_ref c end.
Definition set_spare (t : node_type) (sp : spare) (c : Vstr_conf) : Vstr_conf :=
  match c with
  | mkConf b n p r sz ma mo mb sd =>
    match t with
    | NODE_BUF => mkConf sp n p r sz ma mo mb sd
    | NODE_NON => mkConf b sp p r sz ma mo mb sd
    | NODE_PTR => mkConf b n sp r sz ma mo mb sd
    | NODE_REF => mkConf b n p sp sz ma mo mb sd
    end
  end.
Definition set_buf_sz (v : Z) (c : Vstr_conf) : Vstr_conf :=
  match c with mkConf b n p r _ ma mo mb sd => mkConf b n p r v ma mo mb sd end.
Definition set_malloc_bad (v : bool) (c : Vstr_conf) : Vstr_conf :=
  match c with mkConf b n p r sz ma mo _ sd => mkConf b n p r sz ma mo v sd end.

(** ** Strings.  The list from [beg] to [end] is [b_nodes]; [grpalloc_cache]
    says which caches are part of the allocation of the string. *)
Inductive grpalloc_type := GRPALLOC_NONE | GRPALLOC_POS | GRPALLOC_IOVEC | GRPALLOC_CSTR.
#[export] Instance grpalloc_type_eq_dec : EqDecision grpalloc_type.
Proof. solve_decision. Defined.
Definition grpalloc_num (g : grpalloc_type) : Z :=
  match g with GRPALLOC_NONE => 0 | GRPALLOC_POS => 1 | GRPALLOC_IOVEC => 2 | GRPALLOC_CSTR => 3 end.

Record Vstr_base := mkBase {
  b_nodes : list Vstr_node; b_len : Z; b_num : Z; b_used : Z;
  iovec_upto_date : bool; cache_available : bool; cache_internal : bool;
  node_buf_used : bool; node_non_used : bool; node_ptr_used : bool; node_ref_used : bool;
  grpalloc_cache : grpalloc_type;
  b_cache : Vstr_cache }.

Definition b_set_nodes v b := match b with
  mkBase _ l n u i a c bu no pt re g ca => mkBase v l n u i a c bu no pt re g ca end.
Definition b_set_len v b := match b with
  mkBase ns _ n u i a c bu no pt re g ca => mkBase ns v n u i a c bu no pt re g ca end.
Definition b_set_num v b := match b with
  mkBase ns l _ u i a c bu no pt re g ca => mkBase ns l v u i a c bu no pt re g ca end.
Definition b_set_used v b := match b with
  mkBase ns l n _ i a c bu no pt re g ca => mkBase ns l n v i a c bu no pt re g ca end.
Definition b_set_iovec_upto_date v b := match b with
  mkBase ns l n u _ a c bu no pt re g ca => mkBase ns l n u v a c bu no pt re g ca end.
Definition b_set_cache_internal v b := match b with
  mkBase ns l n u i a _ bu no pt re g ca => mkBase ns l n u i a v bu no pt re g ca end.
Definition b_set_cache v b := match b with
  mkBase ns l n u i a c bu no pt re g _ => mkBase ns l n u i a c bu no pt re g v end.
Definition b_set_flag (t : node_type) (v : bool) (b : Vstr_base) : Vstr_base := match b with
  mkBase ns l n u i a c bu no pt re g ca =>
  match t with
  | NODE_BUF => mkBase ns l n u i a c v no pt re g ca
  | NODE_NON => mkBase ns l n u i a c bu v pt re g ca
  | NODE_PTR => mkBase ns l n u i a c bu no v re g ca
  | NODE_REF => mkBase ns l n u i a c bu no pt v g ca
  end end.
Definition node_used (t : node_type) (b : Vstr_base) : bool :=
  match t with NODE_BUF => node_buf_used b | NODE_NON => node_non_used b
             | NODE_PTR => node_ptr_used b | NODE_REF => node_ref_used b end.

Definition c_set_pos v c := match c with mkCache _ w s => mkCache v w s end.
Definition c_set_vec v c := match c with mkCache p _ s => mkCache p v s end.
Definition c_set_cstr v c := match c with mkCache p w _ => mkCache p w v end.

(** ** The state of an operation on a string: the heap, the configuration of
    the string and the string.  [h_malloc] is the outcome of the coming
    allocations (an exhausted list allocates), [h_next] a fresh address. *)
Record heap := mkHeap {
  h_mem : memory; h_refs : gmap positive Vstr_ref; h_next : positive; h_malloc : list bool }.
Record St := mkSt { s_heap : heap; s_conf : Vstr_conf; s_base : Vstr_base }.

Definition h_set_mem v h := match h with mkHeap _ r n m => mkHeap v r n m end.
Definition h_set_refs v h := match h with mkHeap me _ n m => mkHeap me v n m end.
Definition on_heap (f : heap → heap) (s : St) : St := mkSt (f (s_heap s)) (s_conf s) (s_base s).
Definition on_conf (f : Vstr_conf → Vstr_conf) (s : St) : St := mkSt (s_heap s) (f (s_conf s)) (s_base s).
Definition on_base (f : Vstr_base → Vstr_base) (s : St) : St := mkSt (s_heap s) (s_conf s) (f (s_base s)).

(** ** The monad: state and undefined behaviour ([None]) *)
Definition M (A : Type) : Type := St → option (A * St).
#[export] Instance M_ret : MRet M := λ A a s, Some (a, s).
#[export] Instance M_bind : MBind M := λ A B f m s,
  match m s with None => None | Some (a, s') => f a s' end.

Definition undef {A} : M A := λ _, None.
Definition gets {A} (f : St → A) : M A := λ s, Some (f s, s).
Definition modify (f : St → St) : M () := λ s, Some (tt, f s).
Definition of_option {A} (o : option A) : M A := λ s, match o with Some a => Some (a, s) | None => None end.
Definition get_base : M Vstr_base := gets s_base.
Definition get_conf : M Vstr_conf := gets s_conf.
Definition get_heap : M heap := gets s_heap.
Definition upd_base (f : Vstr_base → Vstr_base) : M () := modify (on_base f).
Definition upd_conf (f : Vstr_conf → Vstr_conf) : M () := modify (on_conf f).
Definition upd_heap (f : heap → heap) : M () := modify (on_heap f).
Definition when (c : bool) (m : M ()) : M () := if c then m else mret tt.

(** [VSTR__MK]: the outcome of the next allocation and, if it succeeds, its address. *)
Definition malloc : M (option positive) := λ s,
  match s_heap s with mkHeap me r n m =>
    match m with
    | false :: m' => Some (None, on_heap (λ _, mkHeap me r n m') s)
    | true :: m' => Some (Some n, on_heap (λ _, mkHeap me r (Pos.succ n) m') s)
    | [] => Some (Some n, on_heap (λ _, mkHeap me r (Pos.succ n) []) s)
    end
  end.

Definition mem_load (p : pointer) (n : Z) : M (list Z) :=
  h ← get_heap; of_option (load (h_mem h) p n).
Definition mem_store (p : pointer) (bs : list Z) : M () :=
  h ← get_heap; m ← of_option (store (h_mem h) p bs); upd_heap (h_set_mem m).
(** memcpy and memmove between two allocations (or within one). *)
Definition mem_move (dst src : pointer) (n : Z) : M () :=
  bs ← mem_load src n; mem_store dst bs.

(** A [Vstr_node *] into the string is the index of the node. *)
Definition node_at (i : nat) : M Vstr_node := b ← get_base; of_option (b_nodes b !! i).
Definition upd_node (i : nat) (f : Vstr_node → Vstr_node) : M () :=
  nd ← node_at i; upd_base (λ b, b_set_nodes (<[i := f nd]> (b_nodes b)) b).

(** ** Reading a node (vstr_export__node_ptr, include/vstr-inline.h) *)
Definition vstr_export__node_ptr (rs : gmap positive Vstr_ref) (nd : Vstr_node)
    : option (option pointer) :=
  match nd_body nd with
  | Node_buf => Some (Some (Ptr (nd_addr nd) 0))
  | Node_ptr p => Some (Some p)
  | Node_ref r off => ref ← rs !! r; Some (Some (ptr_add (r_ptr ref) off))
  | Node_non => Some None
  end.
Definition node_ptr (nd : Vstr_node) : M (option pointer) :=
  h ← get_heap; of_option (vstr_export__node_ptr (h_refs h) nd).

(** ** Abstraction: the bytes a string denotes; [None] is a byte of a NON node *)
Definition byte_or_non : Type := option Z.

Definition node_bytes (h : heap) (nd : Vstr_node) : list byte_or_non :=
  match vstr_export__node_ptr (h_refs h) nd with
  | Some (Some p) => match load (h_mem h) p (nd_len nd) with
                     | Some bs => Some <$> bs
                     | None => []
                     end
  | Some None => zrep (nd_len nd) None
  | None => []
  end.
Definition chain_bytes (h : heap) (ns : list Vstr_node) : list byte_or_non :=
  concat (node_bytes h <$> ns).
Definition content (h : heap) (b : Vstr_base) : list byte_or_non :=
  zdrop (b_used b) (chain_bytes h (b_nodes b)).
Definition st_content (s : St) : list byte_or_non := content (s_heap s) (s_base s).

Fixpoint sum_len (ns : list Vstr_node) : Z :=
  match ns with [] => 0 | nd :: ns => nd_len nd + sum_len ns end.
