(* ===== verification/RefGrp.v ===== *)
(** * Groups of references (vstr__ref_grp_make, _add, _free and the callbacks
    vstr__ref_cb_free_grp_ref_0x00 .. 0x29 of src/vstr_ref.c; vstr_ref_add and
    vstr_ref_del of include/vstr-inline.h on their references).

    A group is one allocation with VSTR__REF_GRP_MAKE_SZ references in it,
    which are handed out in order.  A configuration holds the current group.
    The group is freed when all that was handed out is given up and the
    configuration does not hold it.  The state is that of the groups alone: the
    function of the group, which is called for each reference given up, is
    known by the log of its calls. *)
From Stdlib Require Import ZArith Lia ZifyBool.
From stdpp Require Import base tactics list numbers option gmap.
From S2P Require Import Prelude State.

Definition VSTR__REF_GRP_MAKE_SZ : Z := 42.

(** A reference is the group it is in and its place: the callback finds the
    group from the address of the reference and the place. *)
Record grp_handle := mkHandle { gh_grp : positive; gh_off : nat }.
#[export] Instance grp_handle_eq_dec : EqDecision grp_handle.
Proof. solve_decision. Defined.
#[export] Program Instance grp_handle_countable : Countable grp_handle :=
  inj_countable' (λ h, (gh_grp h, gh_off h)) (λ x, mkHandle x.1 x.2) _.
Next Obligation. by intros []. Qed.

(** [func] of a reference is NULL when the reference was given up: [None]. *)
Record grp_ref := mkGrpRef { gr_ptr : pointer; gr_ref : Z }.
Record Vstr_ref_grp_ptr := mkGrp {
  gp_make_num : Z; gp_free_num : Z; gp_flag_ref : bool; gp_refs : list (option grp_ref) }.

(** The groups that are allocated, the group of the configuration and the
    calls of the function of the group *)
Record Groups := mkGroups {
  g_grps : gmap positive Vstr_ref_grp_ptr; g_next : positive; g_cur : option positive; g_log : list pointer }.

Definition g_set_grps v g := mkGroups v (g_next g) (g_cur g) (g_log g).
Definition g_set_cur v g := mkGroups (g_grps g) (g_next g) v (g_log g).
Definition gp_set_refs v p := mkGrp (gp_make_num p) (gp_free_num p) (gp_flag_ref p) v.

(** [None]: memory that is not allocated is used *)
Definition G (A : Type) : Type := Groups → option (A * Groups).
#[export] Instance G_ret : MRet G := λ A a g, Some (a, g).
#[export] Instance G_bind : MBind G := λ A B f m g,
  match m g with None => None | Some (a, g') => f a g' end.
Definition gget {A} (f : Groups → A) : G A := λ g, Some (f g, g).
Definition gupd (f : Groups → Groups) : G () := λ g, Some (tt, f g).
Definition gundef {A} : G A := λ _, None.
Definition gsome {A} (o : option A) : G A := λ g, (λ a, (a, g)) <$> o.

Definition grp_at (a : positive) : G Vstr_ref_grp_ptr := gs ← gget g_grps; gsome (gs !! a).
Definition grp_put (a : positive) (p : Vstr_ref_grp_ptr) : G () := gupd (λ g, g_set_grps (<[a := p]> (g_grps g)) g).
Definition grp_free (a : positive) : G () := gupd (λ g, g_set_grps (delete a (g_grps g)) g).

(** [ok]: the allocation succeeds *)
Definition vstr__ref_grp_make (ok : bool) : G (option positive) :=
  if negb ok then mret None
  else
    a ← gget g_next;
    gupd (λ g, mkGroups (<[a := mkGrp 0 0 true (replicate (Z.to_nat VSTR__REF_GRP_MAKE_SZ) None)]> (g_grps g))
                        (Pos.succ a) (g_cur g) (g_log g));;
    mret (Some a).

Definition vstr__ref_grp_free (parent : option positive) : G () :=
  match parent with
  | None => mret tt
  | Some a =>
    p ← grp_at a;
    if decide (gp_make_num p = 0) then grp_free a
    else grp_put a (mkGrp (gp_make_num p) (gp_free_num p) false (gp_refs p))
  end.

(** The reference that is handed out; [ok]: a group can be allocated *)
Definition grp_hand_out (a : positive) (ptr : pointer) : G (option grp_handle) :=
  p ← grp_at a;
  let i := Z.to_nat (gp_make_num p) in
  grp_put a (mkGrp (gp_make_num p + 1) (gp_free_num p) (gp_flag_ref p) (<[i := Some (mkGrpRef ptr 1)]> (gp_refs p)));;
  mret (Some (mkHandle a i)).
Definition vstr__ref_grp_add (ok : bool) (ptr : pointer) : G (option grp_handle) :=
  cur ← gget g_cur;
  a ← gsome cur;
  p ← grp_at a;
  if decide (gp_make_num p = VSTR__REF_GRP_MAKE_SZ) then
    tmp ← vstr__ref_grp_make ok;
    match tmp with
    | None => mret None
    | Some a' => vstr__ref_grp_free (Some a);; gupd (g_set_cur (Some a'));; grp_hand_out a' ptr
    end
  else grp_hand_out a ptr.

(** What vstr__chg_node_buf_ref and vstr_export_ref do: the first group is made
    when it is needed. *)
Definition grp_ref_make (ok1 ok2 : bool) (ptr : pointer) : G (option grp_handle) :=
  cur ← gget g_cur;
  match cur with
  | Some _ => vstr__ref_grp_add ok2 ptr
  | None =>
    tmp ← vstr__ref_grp_make ok1;
    match tmp with
    | None => mret None
    | Some a => gupd (g_set_cur (Some a));; vstr__ref_grp_add ok2 ptr
    end
  end.

(** while (!refs[scan].func) { --make_num; --free_num; --scan; } *)
Fixpoint grp_trim (fuel : nat) (p : Vstr_ref_grp_ptr) (scan : Z) : option Vstr_ref_grp_ptr :=
  if decide (scan < 0) then None
  else
    slot ← gp_refs p !! Z.to_nat scan;
    match slot, fuel with
    | Some _, _ => Some p
    | None, O => None
    | None, S fuel => grp_trim fuel (mkGrp (gp_make_num p - 1) (gp_free_num p - 1) (gp_flag_ref p) (gp_refs p)) (scan - 1)
    end.

Definition vstr__ref_cb_free_grp_main (a : positive) (off : nat) (ptr : pointer) : G () :=
  gupd (λ g, mkGroups (g_grps g) (g_next g) (g_cur g) (g_log g ++ [ptr]));;
  p ← grp_at a;
  let p := mkGrp (gp_make_num p) (gp_free_num p + 1) (gp_flag_ref p) (<[off := None]> (gp_refs p)) in
  if decide (gp_free_num p = gp_make_num p) then
    if negb (gp_flag_ref p) then grp_free a
    else grp_put a (mkGrp 0 0 (gp_flag_ref p) (gp_refs p))
  else
    p ← gsome (grp_trim (Z.to_nat (gp_make_num p)) p (gp_make_num p - 1));
    grp_put a p.

Definition grp_ref_at (h : grp_handle) : G grp_ref :=
  p ← grp_at (gh_grp h); slot ← gsome (gp_refs p !! gh_off h); gsome slot.
Definition grp_ref_put (h : grp_handle) (r : grp_ref) : G () :=
  p ← grp_at (gh_grp h); grp_put (gh_grp h) (gp_set_refs (<[gh_off h := Some r]> (gp_refs p)) p).

(** vstr_ref_add and vstr_ref_del *)
Definition grp_ref_add (h : grp_handle) : G () :=
  r ← grp_ref_at h; grp_ref_put h (mkGrpRef (gr_ptr r) (u32 (gr_ref r + 1))).
Definition grp_ref_del (h : grp_handle) : G () :=
  r ← grp_ref_at h;
  let n := u32 (gr_ref r - 1) in
  grp_ref_put h (mkGrpRef (gr_ptr r) n);;
  if decide (n = 0) then vstr__ref_cb_free_grp_main (gh_grp h) (gh_off h) (gr_ptr r) else mret tt.

(** vstr__del_conf gives up the group of the configuration. *)
Definition grp_conf_free : G () :=
  cur ← gget g_cur; vstr__ref_grp_free cur;; gupd (g_set_cur None).

Definition groups_init : Groups := mkGroups ∅ 1 None [].
