(* ===== verification/RefGrpTheorems.v ===== *)
(** * Groups of references: their invariant, and that nothing in use is freed
    and nothing is left over.

    The theorems on groups of references. *)
From Stdlib Require Import ZArith Lia ZifyBool.
From stdpp Require Import base tactics list numbers option gmap relations.
From S2P Require Import Prelude State RefGrp.

(** ** One group *)
Definition count_none {A} (l : list (option A)) : Z := zlen (filter (λ x, x = None) l).
Lemma count_none_app {A} (l k : list (option A)) : count_none (l ++ k) = count_none l + count_none k.
Proof. unfold count_none. rewrite filter_app, length_app. lia. Qed.
Lemma count_none_cons {A} (x : option A) l : count_none (x :: l) = (if decide (x = None) then 1 else 0) + count_none l.
Proof. unfold count_none. rewrite filter_cons. case_decide; [cbn; lia|done]. Qed.
Lemma count_none_nonneg {A} (l : list (option A)) : 0 ≤ count_none l ≤ zlen l.
Proof. induction l as [|x l IH]; [done|]. rewrite count_none_cons. cbn [length]. case_decide; lia. Qed.
Lemma count_none_snoc {A} n (l : list (option A)) x :
  l !! n = Some x → count_none (take (S n) l) = count_none (take n l) + if decide (x = None) then 1 else 0.
Proof.
  intros H. rewrite (take_S_r _ _ _ H), count_none_app, count_none_cons. change (count_none (@nil (option A))) with 0. lia.
Qed.
Lemma count_none_insert {A} n i (l : list (option A)) x y : (i < n)%nat → l !! i = Some x →
  count_none (take n (<[i := y]> l)) = count_none (take n l) - (if decide (x = None) then 1 else 0) + (if decide (y = None) then 1 else 0).
Proof.
  intros Hi Hl. pose proof (lookup_lt_Some _ _ _ Hl) as Hlt.
  rewrite insert_take_drop by done. rewrite <- (take_drop_middle _ _ _ Hl) at 3.
  rewrite !take_app, !length_take. replace (i `min` length l)%nat with i by lia.
  rewrite (take_ge (take i l)) by (rewrite length_take; lia).
  replace (n - i)%nat with (S (n - S i)) by lia. cbn [take].
  rewrite !count_none_app, !count_none_cons. lia.
Qed.
(** As many are given up as were handed out: none is in use. *)
Lemma count_none_all {A} (l : list (option A)) : count_none l = zlen l → ∀ x, x ∈ l → x = None.
Proof.
  induction l as [|y l IH]; intros H x; [by intros ?%elem_of_nil|]. rewrite count_none_cons in H. cbn [length] in H.
  pose proof (count_none_nonneg l). case_decide; [|lia]. rewrite elem_of_cons. intros [->|Hx]; [done|]. apply IH; [lia|done].
Qed.

(** All but that the last reference handed out is in use *)
Record gp_pre (p : Vstr_ref_grp_ptr) : Prop := {
  gk_len : zlen (gp_refs p) = VSTR__REF_GRP_MAKE_SZ;
  gk_make : 0 ≤ gp_make_num p ≤ VSTR__REF_GRP_MAKE_SZ;
  gk_free : gp_free_num p = count_none (take (Z.to_nat (gp_make_num p)) (gp_refs p));
  gk_above : ∀ i r, gp_refs p !! i = Some (Some r) → Z.of_nat i < gp_make_num p;
  gk_count : ∀ i r, gp_refs p !! i = Some (Some r) → 1 ≤ gr_ref r ≤ UINT_MAX }.
Record gp_ok (p : Vstr_ref_grp_ptr) : Prop := {
  gk_pre : gp_pre p;
  gk_last : gp_make_num p ≠ 0 → ∃ r, gp_refs p !! Z.to_nat (gp_make_num p - 1) = Some (Some r) }.

Lemma grp_trim_spec fuel : ∀ p, gp_pre p → gp_free_num p < gp_make_num p → gp_make_num p ≤ Z.of_nat fuel →
  ∃ p', grp_trim fuel p (gp_make_num p - 1) = Some p' ∧ gp_ok p' ∧ gp_refs p' = gp_refs p ∧
    gp_flag_ref p' = gp_flag_ref p ∧ 0 < gp_make_num p'.
Proof.
  induction fuel as [|fuel IH]; intros p [H1 H2 H3 H4 H5] Hlive Hf.
  all: set (i := Z.to_nat (gp_make_num p - 1)).
  all: pose proof (count_none_nonneg (take (Z.to_nat (gp_make_num p)) (gp_refs p))) as Hn.
  { lia. }
  destruct (lookup_lt_is_Some_2 (gp_refs p) i ltac:(unfold i; lia)) as [slot Hs].
  cbn [grp_trim]. rewrite decide_False by lia. fold i. rewrite Hs. cbn.
  destruct slot as [r|].
  - exists p. split_and!; try done; [|lia]. split; [done|]. intros _. by exists r.
  - pose proof (count_none_snoc i (gp_refs p) None Hs) as Hc. replace (S i) with (Z.to_nat (gp_make_num p)) in Hc by (unfold i; lia).
    rewrite decide_True in Hc by done.
    destruct (IH (mkGrp (gp_make_num p - 1) (gp_free_num p - 1) (gp_flag_ref p) (gp_refs p))) as (p'&E&Hok&Hr&Hfl&Hm).
    + split; cbn; [done|lia| |..].
      * fold i. lia.
      * intros j r Hj. specialize (H4 _ _ Hj). destruct (decide (j = i)) as [->|]; [congruence|]. unfold i in *. lia.
      * exact H5.
    + cbn. lia.
    + cbn. lia.
    + cbn in *. exists p'. by rewrite E.
Qed.

(** ** The groups, the references in use and what was handed out *)
Abbreviation ledger := (gmap grp_handle (pointer * Z)).
Record Held := mkHeld { hd_groups : Groups; hd_live : ledger; hd_made : list pointer }.

(** What the users do; [groups_step] leaves out the calls that are undefined. *)
Inductive groups_step : Held → Held → Prop :=
| gs_make g L made ok1 ok2 ptr h g' : grp_ref_make ok1 ok2 ptr g = Some (Some h, g') →
    groups_step (mkHeld g L made) (mkHeld g' (<[h := (ptr, 1)]> L) (ptr :: made))
| gs_make_fail g L made ok1 ok2 ptr g' : grp_ref_make ok1 ok2 ptr g = Some (None, g') →
    groups_step (mkHeld g L made) (mkHeld g' L made)
| gs_add g L made h p n g' : L !! h = Some (p, n) → n < UINT_MAX → grp_ref_add h g = Some (tt, g') →
    groups_step (mkHeld g L made) (mkHeld g' (<[h := (p, n + 1)]> L) made)
| gs_del g L made h p n g' : L !! h = Some (p, n) → grp_ref_del h g = Some (tt, g') →
    groups_step (mkHeld g L made) (mkHeld g' (if decide (n = 1) then delete h L else <[h := (p, n - 1)]> L) made)
| gs_free g L made g' : grp_conf_free g = Some (tt, g') →
    groups_step (mkHeld g L made) (mkHeld g' L made).
Definition groups_reachable : Held → Prop := rtc groups_step (mkHeld groups_init ∅ []).

Definition live_ptrs (L : ledger) : list pointer := (λ x, x.2.1) <$> map_to_list L.

Record held_ok (s : Held) : Prop := {
  ho_ok : ∀ a p, g_grps (hd_groups s) !! a = Some p → (a < g_next (hd_groups s))%positive ∧ gp_ok p;
  ho_flag : ∀ a p, g_grps (hd_groups s) !! a = Some p → gp_flag_ref p = true ↔ g_cur (hd_groups s) = Some a;
  ho_used : ∀ a p, g_grps (hd_groups s) !! a = Some p → gp_flag_ref p = false → 0 < gp_make_num p;
  ho_cur : ∀ a, g_cur (hd_groups s) = Some a → is_Some (g_grps (hd_groups s) !! a);
  ho_live : ∀ h ptr n, hd_live s !! h = Some (ptr, n) ↔
    ∃ p, g_grps (hd_groups s) !! gh_grp h = Some p ∧ gp_refs p !! gh_off h = Some (Some (mkGrpRef ptr n));
  ho_log : hd_made s ≡ₚ g_log (hd_groups s) ++ live_ptrs (hd_live s) }.

Lemma held_ok_init : held_ok (mkHeld groups_init ∅ []).
Proof.
  split; cbn; try done.
  intros h ptr n. split; [done|]. by intros (p&?&_).
Qed.

Lemma live_ptrs_insert L h ptr n : L !! h = None → live_ptrs (<[h := (ptr, n)]> L) ≡ₚ ptr :: live_ptrs L.
Proof. intros Hh. exact (fmap_Permutation (λ x : grp_handle * (pointer * Z), x.2.1) _ _ (map_to_list_insert L h (ptr, n) Hh)). Qed.
Lemma live_ptrs_delete L h ptr n : L !! h = Some (ptr, n) → live_ptrs L ≡ₚ ptr :: live_ptrs (delete h L).
Proof.
  intros Hh. rewrite <- (insert_delete_id L h (ptr, n) Hh) at 1. apply live_ptrs_insert, lookup_delete_eq.
Qed.
Lemma live_ptrs_update L h ptr n m : L !! h = Some (ptr, n) → live_ptrs (<[h := (ptr, m)]> L) ≡ₚ live_ptrs L.
Proof.
  intros Hh. rewrite <- insert_delete_eq, live_ptrs_insert by apply lookup_delete_eq. symmetry. by eapply live_ptrs_delete.
Qed.

(** ** The operations *)

(** Group [a] changes from [p] to [p'], and what is in use with it. *)
Lemma held_put g L made a p p' L' log' made' :
  held_ok (mkHeld g L made) → g_grps g !! a = Some p → gp_ok p' → gp_flag_ref p' = gp_flag_ref p →
  (gp_flag_ref p' = false → 0 < gp_make_num p') →
  (∀ h, gh_grp h ≠ a → L' !! h = L !! h) →
  (∀ off ptr n, L' !! mkHandle a off = Some (ptr, n) ↔ gp_refs p' !! off = Some (Some (mkGrpRef ptr n))) →
  made' ≡ₚ log' ++ live_ptrs L' →
  held_ok (mkHeld (mkGroups (<[a := p']> (g_grps g)) (g_next g) (g_cur g) log') L' made').
Proof.
  intros [H1 H2 H3 H4 H5 H6] Ha Hok Hfl Hus Ho Hl Hlog. cbn in *. split; cbn; [..|done].
  - intros b q. rewrite lookup_insert. case_decide as E; [|by apply H1]. subst b. intros [= <-]. split; [by eapply H1|done].
  - intros b q. rewrite lookup_insert. case_decide as E; [|by apply H2]. subst b. intros [= <-]. rewrite Hfl. by apply H2.
  - intros b q. rewrite lookup_insert. case_decide as E; [|by apply H3]. intros [= <-]. done.
  - intros b Hb. rewrite lookup_insert. case_decide; [done|]. by apply H4.
  - intros [b off] ptr n. cbn. rewrite lookup_insert. case_decide as E.
    + subst b. rewrite Hl. split; [intros H; by exists p'|]. by intros (q&[= <-]&H).
    + rewrite Ho by (cbn; congruence). apply H5.
Qed.

Lemma held_ref g L made h ptr n :
  held_ok (mkHeld g L made) → L !! h = Some (ptr, n) →
  ∃ p, g_grps g !! gh_grp h = Some p ∧ gp_ok p ∧ gp_refs p !! gh_off h = Some (Some (mkGrpRef ptr n)) ∧ 1 ≤ n ≤ UINT_MAX ∧
    Z.of_nat (gh_off h) < gp_make_num p.
Proof.
  intros H Hh. destruct (proj1 (ho_live _ H h ptr n) Hh) as (p&Hp&Hr). cbn in Hp.
  destruct (ho_ok _ H _ _ Hp) as [_ Hok]. exists p. split_and!; try done.
  - apply (gk_count _ (gk_pre _ Hok) _ _ Hr).
  - apply (gk_count _ (gk_pre _ Hok) _ _ Hr).
  - apply (gk_above _ (gk_pre _ Hok) _ _ Hr).
Qed.

(** Writing over a reference in use *)
Lemma gp_ok_update p i r r' : gp_ok p → gp_refs p !! i = Some (Some r) → 1 ≤ gr_ref r' ≤ UINT_MAX →
  gp_ok (gp_set_refs (<[i := Some r']> (gp_refs p)) p).
Proof.
  intros [[H1 H2 H3 H4 H5] H6] Hi Hr. pose proof (lookup_lt_Some _ _ _ Hi) as Hlt.
  assert (Hs : ∀ j x, <[i := Some r']> (gp_refs p) !! j = Some (Some x) → j = i ∧ x = r' ∨ j ≠ i ∧ gp_refs p !! j = Some (Some x)).
  { intros j x. destruct (decide (j = i)) as [->|]; [rewrite list_lookup_insert_eq by done|rewrite list_lookup_insert_ne by done]; [|by right].
    intros [= ->]. by left. }
  split; [split|]; cbn.
  - by rewrite length_insert.
  - done.
  - rewrite H3. specialize (H4 _ _ Hi). rewrite (count_none_insert _ i _ (Some r) (Some r')) by (lia || done).
    rewrite !decide_False by done. lia.
  - intros j x [[-> _]|[_ Hj]]%Hs; [by eapply H4|by eapply H4].
  - intros j x [[_ ->]|[_ Hj]]%Hs; [done|by eapply H5].
  - intros Hm. destruct (H6 Hm) as [x Hx]. destruct (decide (Z.to_nat (gp_make_num p - 1) = i)) as [->|].
    + exists r'. by rewrite list_lookup_insert_eq.
    + exists x. by rewrite list_lookup_insert_ne.
Qed.

Lemma grp_ref_at_run g L made h ptr n :
  held_ok (mkHeld g L made) → L !! h = Some (ptr, n) → grp_ref_at h g = Some (mkGrpRef ptr n, g).
Proof.
  intros H Hh. destruct (held_ref _ _ _ _ _ _ H Hh) as (p&Hp&_&Hr&_). unfold grp_ref_at, grp_at, mbind, G_bind, gget, gsome.
  rewrite Hp. cbn. by rewrite Hr.
Qed.

Lemma grp_ref_put_spec g L made h ptr n m :
  held_ok (mkHeld g L made) → L !! h = Some (ptr, n) → 1 ≤ m ≤ UINT_MAX →
  ∃ g', grp_ref_put h (mkGrpRef ptr m) g = Some (tt, g') ∧ held_ok (mkHeld g' (<[h := (ptr, m)]> L) made).
Proof.
  intros H Hh Hm. destruct (held_ref _ _ _ _ _ _ H Hh) as (p&Hp&Hok&Hr&Hn&Hlt).
  unfold grp_ref_put, grp_at, grp_put, gupd, mbind, G_bind, gget, gsome. rewrite Hp. cbn. eexists. split; [done|].
  pose proof (lookup_lt_Some _ _ _ Hr) as Hl.
  eapply held_put; [exact H|exact Hp|by eapply gp_ok_update|done|cbn; by eapply (ho_used _ H)| | |].
  - intros k Hk. apply lookup_insert_ne. intros <-. done.
  - intros off q c. cbn. destruct h as [a i]. cbn in *. rewrite lookup_insert. case_decide as E.
    + injection E as <-. rewrite list_lookup_insert_eq by done. split; by intros [= -> ->].
    + rewrite list_lookup_insert_ne by congruence. rewrite (ho_live _ H (mkHandle a off)). cbn.
      split; [by intros (?&?&?); simplify_eq|by eauto].
  - rewrite (live_ptrs_update _ _ _ _ _ Hh). exact (ho_log _ H).
Qed.

Lemma grp_ref_add_spec g L made h ptr n :
  held_ok (mkHeld g L made) → L !! h = Some (ptr, n) → n < UINT_MAX →
  ∃ g', grp_ref_add h g = Some (tt, g') ∧ held_ok (mkHeld g' (<[h := (ptr, n + 1)]> L) made).
Proof.
  intros H Hh Hn. destruct (held_ref _ _ _ _ _ _ H Hh) as (_&_&_&_&Hn1&_). unfold grp_ref_add, mbind, G_bind.
  rewrite (grp_ref_at_run _ _ _ _ _ _ H Hh). cbn [gr_ptr gr_ref]. unfold UINT_MAX in *. rewrite u32_id by lia.
  apply grp_ref_put_spec with (n := n); [done|done|unfold UINT_MAX; lia].
Qed.

(** Giving up the last use *)
Lemma free_main_spec g L made h ptr n :
  held_ok (mkHeld g L made) → L !! h = Some (ptr, n) →
  ∃ g', vstr__ref_cb_free_grp_main (gh_grp h) (gh_off h) ptr g = Some (tt, g') ∧ held_ok (mkHeld g' (delete h L) made) ∧
    g_log g' = g_log g ++ [ptr] ∧ g_cur g' = g_cur g.
Proof.
  intros H Hh. destruct (held_ref _ _ _ _ _ _ H Hh) as (p&Hp&Hok&Hr&Hn&Hlt). destruct h as [a i]. cbn in *.
  pose proof (lookup_lt_Some _ _ _ Hr) as Hl. destruct Hok as [[H1 H2 H3 H4 H5] H6].
  assert (Hlog : made ≡ₚ (g_log g ++ [ptr]) ++ live_ptrs (delete (mkHandle a i) L)).
  { rewrite <- app_assoc. cbn. rewrite <- (live_ptrs_delete _ _ _ _ Hh). exact (ho_log _ H). }
  assert (Hother : ∀ h, gh_grp h ≠ a → delete (mkHandle a i) L !! h = L !! h).
  { intros h Hne. apply lookup_delete_ne. intros <-. done. }
  set (p1 := mkGrp (gp_make_num p) (gp_free_num p + 1) (gp_flag_ref p) (<[i := None]> (gp_refs p))).
  assert (Hslot : ∀ off q c, delete (mkHandle a i) L !! mkHandle a off = Some (q, c) ↔ gp_refs p1 !! off = Some (Some (mkGrpRef q c))).
  { intros off q c. cbn. rewrite lookup_delete. case_decide as E.
    - injection E as <-. rewrite list_lookup_insert_eq by done. done.
    - rewrite list_lookup_insert_ne by congruence. rewrite (ho_live _ H (mkHandle a off)). cbn.
      split; [by intros (?&?&?); simplify_eq|by eauto]. }
  assert (Hp1 : gp_pre p1).
  { split; cbn; [by rewrite length_insert|done| |..].
    - rewrite (count_none_insert _ i _ _ None) by (lia || exact Hr). rewrite decide_False, decide_True by done. lia.
    - intros j r Hj. destruct (decide (j = i)) as [->|]; [by rewrite list_lookup_insert_eq in Hj|].
      rewrite list_lookup_insert_ne in Hj by done. by eapply H4.
    - intros j r Hj. destruct (decide (j = i)) as [->|]; [by rewrite list_lookup_insert_eq in Hj|].
      rewrite list_lookup_insert_ne in Hj by done. by eapply H5. }
  unfold vstr__ref_cb_free_grp_main, grp_at, grp_put, grp_free, gupd, mbind, G_bind, gget, gsome. cbn. rewrite Hp. cbn.
  pose proof (count_none_nonneg (take (Z.to_nat (gp_make_num p)) (gp_refs p1))) as Hcn.
  case_decide as Eall.
  - (* all were given up *)
    assert (Hempty : ∀ j r, gp_refs p1 !! j ≠ Some (Some r)).
    { intros j r Hj. pose proof (gk_above _ Hp1 _ _ Hj) as Hlt'. cbn in Hlt'.
      pose proof (gk_free _ Hp1) as Hf. cbn in Hf. rewrite Eall in Hf.
      assert (Some r = None); [|done].
      eapply (count_none_all (take (Z.to_nat (gp_make_num p)) (gp_refs p1))).
      - rewrite length_take. change (gp_refs p1) with (<[i := None]> (gp_refs p)). rewrite length_insert. lia.
      - eapply list_elem_of_lookup_2. rewrite lookup_take_Some. split; [exact Hj|lia]. }
    destruct (gp_flag_ref p) eqn:Ef; cbn.
    + eexists. split; [done|]. split; [|done]. eapply (held_put g L made a p); [exact H|exact Hp| |by rewrite Ef|done|done|exact Hslot|done].
      split; [|done]. split; cbn; [apply Hp1|unfold VSTR__REF_GRP_MAKE_SZ; lia|done| |].
      * intros j r Hj. by destruct (Hempty j r).
      * intros j r Hj. by destruct (Hempty j r).
    + eexists. split; [done|]. split; [|done]. destruct H as [G1 G2 G3 G4 G5 G6]. cbn in *. split; cbn; [..|done].
      * intros b q Hb. apply lookup_delete_Some in Hb as [_ Hb]. by eapply G1.
      * intros b q Hb. apply lookup_delete_Some in Hb as [_ Hb]. by eapply G2.
      * intros b q Hb. apply lookup_delete_Some in Hb as [_ Hb]. by eapply G3.
      * intros b Hb. rewrite lookup_delete_ne; [by apply G4|]. intros <-. specialize (G2 _ _ Hp). rewrite Ef in G2. discriminate (proj2 G2 Hb).
      * intros [b off] q c. cbn. destruct (decide (b = a)) as [->|Hne].
        -- rewrite Hslot. split; [intros Hj; by destruct (Hempty off (mkGrpRef q c))|].
           intros (?&Hd&_). by rewrite lookup_delete_eq in Hd.
        -- rewrite Hother by done. rewrite (G5 (mkHandle b off)). cbn. by rewrite lookup_delete_ne.
  - destruct (grp_trim_spec (Z.to_nat (gp_make_num p)) p1 Hp1) as (p2&E2&Hok2&Hr2&Hf2&Hm2).
    { pose proof (gk_free _ Hp1) as Hf. cbn in *. rewrite length_take, length_insert in Hcn. lia. }
    { cbn. lia. }
    fold p1. change (gp_make_num p) with (gp_make_num p1) at 2. rewrite E2. cbn. eexists. split; [done|]. split; [|done].
    eapply (held_put g L made a p); [exact H|exact Hp|exact Hok2|by rewrite Hf2|done|done| |done]. intros off q c. by rewrite Hr2.
Qed.

(** The count that became 0 is not looked at. *)
Lemma free_main_put h x y g p ptr : g_grps g !! gh_grp h = Some p → gp_refs p !! gh_off h = Some y →
  (grp_ref_put h x;; vstr__ref_cb_free_grp_main (gh_grp h) (gh_off h) ptr) g =
  vstr__ref_cb_free_grp_main (gh_grp h) (gh_off h) ptr g.
Proof.
  intros Hp Hy. destruct h as [a i]. cbn in *. pose proof (lookup_lt_Some _ _ _ Hy) as Hl.
  unfold grp_ref_put, vstr__ref_cb_free_grp_main, grp_at, grp_put, grp_free, gupd, mbind, G_bind, gget, gsome, g_set_grps.
  cbn. rewrite Hp. cbn. rewrite lookup_insert_eq. cbn. rewrite list_insert_insert_eq.
  case_decide.
  - destruct (gp_flag_ref p); cbn; rewrite ?insert_insert_eq, ?delete_insert_eq; done.
  - destruct (grp_trim _ _ _); cbn; [|done]. by rewrite insert_insert_eq.
Qed.

Lemma grp_ref_del_spec g L made h ptr n :
  held_ok (mkHeld g L made) → L !! h = Some (ptr, n) →
  ∃ g', grp_ref_del h g = Some (tt, g') ∧
    held_ok (mkHeld g' (if decide (n = 1) then delete h L else <[h := (ptr, n - 1)]> L) made) ∧ g_cur g' = g_cur g.
Proof.
  intros H Hh. destruct (held_ref _ _ _ _ _ _ H Hh) as (p&Hp&Hok&Hr&Hn&Hlt).
  unfold grp_ref_del, mbind, G_bind. rewrite (grp_ref_at_run _ _ _ _ _ _ H Hh). cbn [gr_ptr gr_ref].
  unfold UINT_MAX in Hn. rewrite u32_id by lia.
  destruct (decide (n = 1)) as [->|Hn1].
  - rewrite (decide_True (P := 1 - 1 = 0)) by done.
    pose proof (free_main_put h (mkGrpRef ptr 0) _ g p ptr Hp Hr) as E. unfold mbind, G_bind in E.
    change (1 - 1) with 0. rewrite E. destruct (free_main_spec _ _ _ _ _ _ H Hh) as (g'&E'&Hok'&_&Hc). by exists g'.
  - destruct (grp_ref_put_spec g L made h ptr n (n - 1) H Hh ltac:(unfold UINT_MAX; lia)) as (g'&E&Hok'). rewrite E.
    rewrite (decide_False (P := n - 1 = 0)) by lia. exists g'. split; [done|]. split; [done|].
    unfold grp_ref_put, grp_at, grp_put, gupd, mbind, G_bind, gget, gsome in E. rewrite Hp in E. by injection E as <-.
Qed.

(** The configuration gives up its group. *)
Definition dropped (g : Groups) (a : positive) (p : Vstr_ref_grp_ptr) : gmap positive Vstr_ref_grp_ptr :=
  if decide (gp_make_num p = 0) then delete a (g_grps g)
  else <[a := mkGrp (gp_make_num p) (gp_free_num p) false (gp_refs p)]> (g_grps g).
Lemma held_dropped g L made a p :
  held_ok (mkHeld g L made) → g_cur g = Some a → g_grps g !! a = Some p →
  held_ok (mkHeld (mkGroups (dropped g a p) (g_next g) None (g_log g)) L made).
Proof.
  intros [G1 G2 G3 G4 G5 G6] Hc Hp. cbn in *. destruct (G1 _ _ Hp) as [Hlt [[H1 H2 H3 H4 H5] H6]].
  assert (Hne : ∀ b q, g_grps g !! b = Some q → b ≠ a → gp_flag_ref q = false).
  { intros b q Hb Hba. destruct (gp_flag_ref q) eqn:E; [|done]. apply (G2 _ _ Hb) in E. congruence. }
  unfold dropped. case_decide as Em; split; cbn; try done.
  - intros b q [_ Hb]%lookup_delete_Some. by eapply G1.
  - intros b q [Hba Hb]%lookup_delete_Some. rewrite (Hne _ _ Hb) by done. done.
  - intros b q [_ Hb]%lookup_delete_Some. by eapply G3.
  - intros [b off] q c. rewrite (G5 (mkHandle b off)). cbn. rewrite lookup_delete. case_decide as E; [subst b|done].
    split; [|by intros (?&?&_)]. intros (p'&Hp'&Hr). simplify_eq. specialize (H4 _ _ Hr). lia.
  - intros b q. rewrite lookup_insert. case_decide as E; [|by apply G1]. subst b. intros [= <-]. split; [done|].
    split; [split|]; done.
  - intros b q. rewrite lookup_insert. case_decide as E; [by intros [= <-]|]. intros Hb. by rewrite (Hne _ _ Hb).
  - intros b q. rewrite lookup_insert. case_decide as E; [intros [= <-] _; cbn; lia|by apply G3].
  - intros [b off] q c. rewrite (G5 (mkHandle b off)). cbn. rewrite lookup_insert. case_decide as E; [subst b|done].
    split; [intros (p'&Hp'&Hr); simplify_eq; by eexists|intros (p'&Hp'&Hr); simplify_eq; by exists p].
Qed.

(** A new group for a configuration that has none *)
Definition fresh_grp : Vstr_ref_grp_ptr := mkGrp 0 0 true (replicate (Z.to_nat VSTR__REF_GRP_MAKE_SZ) None).
Lemma held_fresh g L made :
  held_ok (mkHeld g L made) → g_cur g = None →
  held_ok (mkHeld (mkGroups (<[g_next g := fresh_grp]> (g_grps g)) (Pos.succ (g_next g)) (Some (g_next g)) (g_log g)) L made).
Proof.
  intros [G1 G2 G3 G4 G5 G6] Hc. cbn in *.
  assert (Hnew : g_grps g !! g_next g = None).
  { destruct (g_grps g !! g_next g) as [p|] eqn:E; [|done]. destruct (G1 _ _ E). lia. }
  assert (Hnone : ∀ j r, gp_refs fresh_grp !! j ≠ Some (Some r)).
  { intros j r Hj. cbn [gp_refs fresh_grp] in Hj. by apply lookup_replicate in Hj as [? _]. }
  split; cbn; try done.
  - intros b q. rewrite lookup_insert. case_decide as E.
    + subst b. intros [= <-]. split; [lia|]. split; [|done]. split; try done.
      * intros j r Hj. by destruct (Hnone j r).
      * intros j r Hj. by destruct (Hnone j r).
    + intros Hb. destruct (G1 _ _ Hb). split; [lia|done].
  - intros b q. rewrite lookup_insert. case_decide as E; [by intros [= <-]; subst b|]. intros Hb. rewrite (G2 _ _ Hb), Hc.
    split; [done|]. by intros [= ?].
  - intros b q. rewrite lookup_insert. case_decide as E; [by intros [= <-]|by apply G3].
  - intros b [= <-]. by rewrite lookup_insert_eq.
  - intros [b off] q c. rewrite (G5 (mkHandle b off)). cbn. rewrite lookup_insert. case_decide as E; [|done]. subst b.
    rewrite Hnew. split; [by intros (?&?&_)|]. intros (p'&[= <-]&Hr). by destruct (Hnone off (mkGrpRef q c)).
Qed.

Lemma hand_out_spec g L made a p ptr :
  held_ok (mkHeld g L made) → g_cur g = Some a → g_grps g !! a = Some p → gp_make_num p < VSTR__REF_GRP_MAKE_SZ →
  ∃ h g', grp_hand_out a ptr g = Some (Some h, g') ∧ L !! h = None ∧ held_ok (mkHeld g' (<[h := (ptr, 1)]> L) (ptr :: made)).
Proof.
  intros H Hc Hp Hlt. destruct (ho_ok _ H _ _ Hp) as [_ [[H1 H2 H3 H4 H5] H6]]. set (i := Z.to_nat (gp_make_num p)) in *.
  assert (Hi : (i < length (gp_refs p))%nat) by (unfold i; lia).
  assert (Hnone : gp_refs p !! i = Some None).
  { destruct (lookup_lt_is_Some_2 _ _ Hi) as [[r|] Hr]; [|done]. specialize (H4 _ _ Hr). unfold i in H4. lia. }
  assert (HL : L !! mkHandle a i = None).
  { destruct (L !! mkHandle a i) as [[q c]|] eqn:E; [|done]. apply (ho_live _ H) in E as (p'&Hp'&Hr). cbn in *. congruence. }
  unfold grp_hand_out, grp_at, grp_put, gupd, mbind, G_bind, gget, gsome. rewrite Hp. cbn. fold i.
  eexists _, _. split; [done|]. split; [done|].
  eapply (held_put g L made a p); [exact H|exact Hp| |done|cbn; lia| | |].
  - split; [split|]; cbn.
    + by rewrite length_insert.
    + lia.
    + replace (Z.to_nat (gp_make_num p + 1)) with (S i) by (unfold i; lia).
      rewrite (count_none_snoc i _ (Some (mkGrpRef ptr 1))) by by apply list_lookup_insert_eq.
      rewrite take_insert_ge by done. rewrite decide_False by done. lia.
    + intros j r Hj. destruct (decide (j = i)) as [->|]; [lia|]. rewrite list_lookup_insert_ne in Hj by done.
      specialize (H4 _ _ Hj). lia.
    + intros j r Hj. destruct (decide (j = i)) as [->|].
      * rewrite list_lookup_insert_eq in Hj by done. injection Hj as <-. cbn. unfold UINT_MAX. lia.
      * rewrite list_lookup_insert_ne in Hj by done. by eapply H5.
    + intros _. exists (mkGrpRef ptr 1). replace (gp_make_num p + 1 - 1) with (gp_make_num p) by lia. by apply list_lookup_insert_eq.
  - intros h Hne. apply lookup_insert_ne. intros <-. done.
  - intros off q c. cbn. rewrite lookup_insert. case_decide as E.
    + injection E as <-. rewrite list_lookup_insert_eq by done. split; by intros [= -> ->].
    + rewrite list_lookup_insert_ne by congruence. rewrite (ho_live _ H (mkHandle a off)). cbn.
      split; [by intros (?&?&?); simplify_eq|by eauto].
  - rewrite (live_ptrs_insert _ _ _ _ HL). cbn. rewrite <- Permutation_middle. f_equiv. exact (ho_log _ H).
Qed.

(** A call that makes a reference: it is defined, and the reference is a new one. *)
Definition made_or_not (L : ledger) (made : list pointer) (ptr : pointer) (o : option grp_handle) (g' : Groups) : Prop :=
  match o with
  | Some h => L !! h = None ∧ held_ok (mkHeld g' (<[h := (ptr, 1)]> L) (ptr :: made))
  | None => held_ok (mkHeld g' L made)
  end.
Lemma vstr__ref_grp_add_spec g L made ok ptr a :
  held_ok (mkHeld g L made) → g_cur g = Some a →
  ∃ o g', vstr__ref_grp_add ok ptr g = Some (o, g') ∧ made_or_not L made ptr o g'.
Proof.
  intros H Hc. destruct (ho_cur _ H _ Hc) as [p Hp]. cbn in Hp.
  unfold vstr__ref_grp_add, mbind, G_bind, gget, gsome. rewrite Hc. cbn. unfold grp_at at 1, mbind, G_bind, gget, gsome.
  rewrite Hp. cbn. case_decide as Em.
  2:{ destruct (ho_ok _ H _ _ Hp) as [_ [[_ Hm _ _ _] _]].
      destruct (hand_out_spec _ _ _ _ _ ptr H Hc Hp ltac:(lia)) as (h&g'&E&HL&Hok). by exists (Some h), g'. }
  destruct ok; [|by exists None, g].
  unfold vstr__ref_grp_make, vstr__ref_grp_free, grp_at, grp_put, gupd, mbind, G_bind, gget, gsome. cbn [negb mret G_ret g_grps g_next g_cur g_log].
  destruct (ho_ok _ H _ _ Hp) as [Hlt _]. cbn in Hlt. rewrite lookup_insert_ne by (intros E; lia). rewrite Hp. cbn.
  rewrite decide_False by (rewrite Em; done). cbn.
  pose proof (held_fresh _ _ _ (held_dropped _ _ _ _ _ H Hc Hp) eq_refl) as Hf.
  unfold dropped in Hf. rewrite decide_False in Hf by (rewrite Em; done). cbn in Hf.
  rewrite insert_insert_ne in Hf by (intros E; lia).
  eapply (hand_out_spec _ _ _ (g_next g) fresh_grp ptr) in Hf as (h&g'&E&HL&Hok); [exists (Some h), g'; split; [exact E|done]|done| |done].
  cbn. rewrite lookup_insert_ne by (intros E; lia). apply lookup_insert_eq.
Qed.
Lemma grp_ref_make_spec g L made ok1 ok2 ptr :
  held_ok (mkHeld g L made) → ∃ o g', grp_ref_make ok1 ok2 ptr g = Some (o, g') ∧ made_or_not L made ptr o g'.
Proof.
  intros H. unfold grp_ref_make, mbind, G_bind, gget. destruct (g_cur g) as [a|] eqn:Hc; [by eapply vstr__ref_grp_add_spec|].
  destruct ok1; [|by exists None, g]. unfold vstr__ref_grp_make, gupd, mbind, G_bind, gget. cbn [negb mret G_ret].
  exact (vstr__ref_grp_add_spec _ L made ok2 ptr (g_next g) (held_fresh _ _ _ H Hc) eq_refl).
Qed.
Lemma grp_conf_free_spec g L made :
  held_ok (mkHeld g L made) → ∃ g', grp_conf_free g = Some (tt, g') ∧ held_ok (mkHeld g' L made) ∧ g_cur g' = None.
Proof.
  intros H. unfold grp_conf_free, vstr__ref_grp_free, grp_at, grp_put, grp_free, gupd, mbind, G_bind, gget, gsome.
  destruct (g_cur g) as [a|] eqn:Hc; cbn.
  - destruct (ho_cur _ H _ Hc) as [p Hp]. cbn in Hp. rewrite Hp. cbn.
    pose proof (held_dropped _ _ _ _ _ H Hc Hp) as Hd. unfold dropped in Hd.
    case_decide; cbn; eexists; (split; [done|]); (split; [exact Hd|done]).
  - eexists. split; [done|]. split; [|done]. unfold g_set_cur. rewrite <- Hc. by destruct g.
Qed.

Lemma groups_step_ok s s' : groups_step s s' → held_ok s → held_ok s'.
Proof.
  intros Hs H. destruct Hs as [g L made ok1 ok2 ptr h g' E|g L made ok1 ok2 ptr g' E|g L made h p n g' Hh Hn E|g L made h p n g' Hh E|g L made g' E].
  - destruct (grp_ref_make_spec g L made ok1 ok2 ptr H) as (o&g2&E2&Ho). rewrite E in E2. injection E2 as <- <-. apply Ho.
  - destruct (grp_ref_make_spec g L made ok1 ok2 ptr H) as (o&g2&E2&Ho). rewrite E in E2. injection E2 as <- <-. exact Ho.
  - destruct (grp_ref_add_spec g L made h p n H Hh Hn) as (g2&E2&Ho). rewrite E in E2. by injection E2 as <-.
  - destruct (grp_ref_del_spec g L made h p n H Hh) as (g2&E2&Ho&_). rewrite E in E2. by injection E2 as <-.
  - destruct (grp_conf_free_spec g L made H) as (g2&E2&Ho&_). rewrite E in E2. by injection E2 as <-.
Qed.
Lemma groups_reachable_ok s : groups_reachable s → held_ok s.
Proof.
  unfold groups_reachable. intros Hs. assert (Hi : held_ok (mkHeld groups_init ∅ [])) by exact held_ok_init.
  revert Hi. induction Hs as [x|x y z Hxy _ IH]; [done|]. intros Hx. by apply IH, (groups_step_ok x).
Qed.

(** C35: however references of groups are made, taken and given up, in any
    order and with any allocation failing, and the configuration given up at
    any time: every reference in use is in a group that is still allocated and
    shows its data and its count, so that taking and giving it up are defined;
    making one is, too, and gives a reference that is not in use; and the
    function of the group was called once for each that was given up. *)
Theorem groups_safe g L made :
  groups_reachable (mkHeld g L made) →
  (∀ h ptr n, L !! h = Some (ptr, n) → grp_ref_at h g = Some (mkGrpRef ptr n, g) ∧ 1 ≤ n ∧
     (n < UINT_MAX → ∃ g', grp_ref_add h g = Some (tt, g')) ∧ ∃ g', grp_ref_del h g = Some (tt, g')) ∧
  (∀ ok1 ok2 ptr, ∃ o g', grp_ref_make ok1 ok2 ptr g = Some (o, g') ∧ ∀ h, o = Some h → L !! h = None) ∧
  (∃ g', grp_conf_free g = Some (tt, g')) ∧ made ≡ₚ g_log g ++ live_ptrs L.
Proof.
  intros H%groups_reachable_ok. split_and!.
  - intros h ptr n Hh. destruct (held_ref _ _ _ _ _ _ H Hh) as (_&_&_&_&Hn&_).
    split; [by eapply grp_ref_at_run|]. split; [lia|]. split.
    + intros Hm. destruct (grp_ref_add_spec _ _ _ _ _ _ H Hh Hm) as (g'&E&_). by exists g'.
    + destruct (grp_ref_del_spec _ _ _ _ _ _ H Hh) as (g'&E&_). by exists g'.
  - intros ok1 ok2 ptr. destruct (grp_ref_make_spec _ _ _ ok1 ok2 ptr H) as (o&g'&E&Ho). exists o, g'. split; [done|].
    intros h ->. apply Ho.
  - destruct (grp_conf_free_spec _ _ _ H) as (g'&E&_). by exists g'.
  - exact (ho_log _ H).
Qed.

(** Two references made, the first taken again *)
Definition run_g {A} (m : G A) (g : Groups) : Groups := match m g with Some (_, g') => g' | None => g end.
Definition demo_groups1 : Groups := run_g (grp_ref_make true true (Ptr 5 0)) groups_init.
Definition demo_groups2 : Groups := run_g (grp_ref_make true true (Ptr 6 0)) demo_groups1.
Definition demo_groups3 : Groups := run_g (grp_ref_add (mkHandle 1 0)) demo_groups2.
Definition demo_live : ledger :=
  <[mkHandle 1 0 := (Ptr 5 0, 2)]> (<[mkHandle 1 1 := (Ptr 6 0, 1)]> (<[mkHandle 1 0 := (Ptr 5 0, 1)]> ∅)).
Lemma demo_groups_reachable : groups_reachable (mkHeld demo_groups3 demo_live [Ptr 6 0; Ptr 5 0]).
Proof.
  eapply rtc_l; [apply (gs_make groups_init ∅ [] true true (Ptr 5 0) (mkHandle 1 0) demo_groups1); by vm_compute|].
  eapply rtc_l; [apply (gs_make _ _ _ true true (Ptr 6 0) (mkHandle 1 1) demo_groups2); by vm_compute|].
  eapply rtc_l; [apply (gs_add _ _ _ (mkHandle 1 0) (Ptr 5 0) 1 demo_groups3); by vm_compute|]. apply rtc_refl.
Qed.
Lemma groups_safe_witness :
  (∀ h ptr n, demo_live !! h = Some (ptr, n) → grp_ref_at h demo_groups3 = Some (mkGrpRef ptr n, demo_groups3) ∧ 1 ≤ n ∧
     (n < UINT_MAX → ∃ g', grp_ref_add h demo_groups3 = Some (tt, g')) ∧ ∃ g', grp_ref_del h demo_groups3 = Some (tt, g')) ∧
  (∀ ok1 ok2 ptr, ∃ o g', grp_ref_make ok1 ok2 ptr demo_groups3 = Some (o, g') ∧ ∀ h, o = Some h → demo_live !! h = None) ∧
  (∃ g', grp_conf_free demo_groups3 = Some (tt, g')) ∧ [Ptr 6 0; Ptr 5 0] ≡ₚ g_log demo_groups3 ++ live_ptrs demo_live.
Proof. apply (groups_safe demo_groups3 demo_live [Ptr 6 0; Ptr 5 0]). exact demo_groups_reachable. Defined.

(** ** Nothing is left over *)

(** A group that is not the configuration's is there for a reference in use. *)
Lemma group_used g L made a p :
  held_ok (mkHeld g L made) → g_grps g !! a = Some p → g_cur g ≠ Some a → ∃ off v, L !! mkHandle a off = Some v.
Proof.
  intros H Hp Hc. assert (Hf : gp_flag_ref p = false).
  { destruct (gp_flag_ref p) eqn:E; [|done]. by apply (ho_flag _ H _ _ Hp) in E. }
  pose proof (ho_used _ H _ _ Hp Hf) as Hm. destruct (ho_ok _ H _ _ Hp) as [_ [_ Hl]].
  destruct (Hl ltac:(lia)) as [[ptr n] Hr]. eexists _, (ptr, n). apply (ho_live _ H). by exists p.
Qed.

(** A reference can be given up as often as it was taken. *)
Lemma give_up_all n : ∀ g L made h ptr, held_ok (mkHeld g L made) → L !! h = Some (ptr, Z.of_nat n) → (0 < n)%nat →
  ∃ g', rtc groups_step (mkHeld g L made) (mkHeld g' (delete h L) made) ∧ held_ok (mkHeld g' (delete h L) made) ∧ g_cur g' = g_cur g.
Proof.
  induction n as [|n IH]; intros g L made h ptr H Hh Hn; [lia|].
  destruct (grp_ref_del_spec _ _ _ _ _ _ H Hh) as (g1&E&Hok&Hc).
  pose proof (gs_del g L made h ptr _ g1 Hh E) as Hs. case_decide as E1.
  - exists g1. split; [by apply rtc_once|done].
  - replace (Z.of_nat (S n) - 1) with (Z.of_nat n) in Hok, Hs by lia.
    destruct (IH g1 _ made h ptr Hok (lookup_insert_eq _ _ _) ltac:(lia)) as (g2&Hr&Hok2&Hc2).
    rewrite delete_insert_eq in Hr, Hok2. exists g2. split; [by eapply rtc_l|]. split; [done|congruence].
Qed.

(** C36: whatever has been done, the configuration and the references in use
    can be given up, and then no group is allocated and the function of the
    group was called once for every reference that was made. *)
Theorem groups_drain s :
  groups_reachable s → ∃ s', rtc groups_step s s' ∧ hd_live s' = ∅ ∧ hd_made s' = hd_made s ∧
    g_grps (hd_groups s') = ∅ ∧ hd_made s' ≡ₚ g_log (hd_groups s').
Proof.
  intros H%groups_reachable_ok. destruct s as [g L made]. destruct (grp_conf_free_spec _ _ _ H) as (g0&E&H0&Hc0).
  assert (Hd : ∀ m g L, size L = m → held_ok (mkHeld g L made) → g_cur g = None →
    ∃ g', rtc groups_step (mkHeld g L made) (mkHeld g' ∅ made) ∧ held_ok (mkHeld g' ∅ made) ∧ g_cur g' = None).
  { clear. intros m. induction m as [|m IH]; intros g L Hm H Hc.
    - apply map_size_empty_inv in Hm as ->. by exists g.
    - destruct (map_choose L) as (h&[ptr n]&Hh); [by intros ->|].
      destruct (held_ref _ _ _ _ _ _ H Hh) as (_&_&_&_&Hn&_).
      destruct (give_up_all (Z.to_nat n) g L made h ptr H) as (g1&Hr&H1&Hc1); [by rewrite Z2Nat.id by lia|lia|].
      destruct (IH g1 (delete h L)) as (g2&Hr2&H2&Hc2); [rewrite map_size_delete_Some by eauto; lia|done|congruence|].
      exists g2. split; [by etrans|done]. }
  destruct (Hd _ g0 L eq_refl H0 Hc0) as (g'&Hr&H'&Hc'). exists (mkHeld g' ∅ made). split_and!; try done.
  - eapply rtc_l; [|exact Hr]. by apply gs_free.
  - cbn. apply map_empty. intros a. destruct (g_grps g' !! a) as [p|] eqn:Ep; [|done].
    destruct (group_used _ _ _ _ _ H' Ep) as (off&v&Hv); [by rewrite Hc'|done].
  - cbn. pose proof (ho_log _ H') as Hl. cbn in Hl. rewrite Hl at 1. unfold live_ptrs. rewrite map_to_list_empty. by rewrite app_nil_r.
Qed.
Lemma groups_drain_witness : ∃ s', rtc groups_step (mkHeld demo_groups3 demo_live [Ptr 6 0; Ptr 5 0]) s' ∧ hd_live s' = ∅ ∧
  hd_made s' = [Ptr 6 0; Ptr 5 0] ∧ g_grps (hd_groups s') = ∅ ∧ hd_made s' ≡ₚ g_log (hd_groups s').
Proof. apply (groups_drain (mkHeld demo_groups3 demo_live [Ptr 6 0; Ptr 5 0])). exact demo_groups_reachable. Defined.
