(* ===== verification/Wp.v ===== *)
(** * Total-correctness reasoning for the monad of the operations.

    [wp m s Q]: run from [s], [m] is defined (no invalid access, no dangling
    pointer, no missing node) and its result and final state satisfy [Q]. *)
From Stdlib Require Import ZArith Lia ZifyBool.
From stdpp Require Import base tactics list numbers option gmap.
From S2P Require Import Prelude State.

Definition wp {A} (m : M A) (s : St) (Q : A → St → Prop) : Prop :=
  match m s with Some (a, s') => Q a s' | None => False end.

Section wp.
Context {A B : Type}.
Implicit Types (s : St).

Lemma wp_ret (a : A) s Q : Q a s → wp (mret a) s Q.
Proof. done. Qed.
Lemma wp_bind (m : M A) (f : A → M B) s Q :
  wp m s (λ a s', wp (f a) s' Q) → wp (m ≫= f) s Q.
Proof. unfold wp, mbind, M_bind. destruct (m s) as [[a s']|]; done. Qed.
Lemma wp_unbind (m : M A) (f : A → M B) s Q :
  wp (m ≫= f) s Q → wp m s (λ a s', wp (f a) s' Q).
Proof. unfold wp, mbind, M_bind. destruct (m s) as [[a s']|]; done. Qed.
Lemma wp_mono (m : M A) s (P Q : A → St → Prop) :
  wp m s P → (∀ a s', P a s' → Q a s') → wp m s Q.
Proof. unfold wp. destruct (m s) as [[a s']|]; auto. Qed.
Lemma wp_gets (f : St → A) s Q : Q (f s) s → wp (gets f) s Q.
Proof. done. Qed.
Lemma wp_modify f s Q : Q tt (f s) → wp (modify f) s Q.
Proof. done. Qed.
Lemma wp_of_option (o : option A) a s Q : o = Some a → Q a s → wp (of_option o) s Q.
Proof. intros ->. done. Qed.
Lemma wp_eq (m : M A) a s s' Q : m s = Some (a, s') → Q a s' → wp m s Q.
Proof. unfold wp. by intros ->. Qed.
Lemma wp_run (m : M A) s Q :
  wp m s Q ↔ ∃ a s', m s = Some (a, s') ∧ Q a s'.
Proof.
  unfold wp. destruct (m s) as [[a s']|]; [|by split; [|intros (?&?&?&?)]].
  split; [eauto|]. by intros (?&?&[= <- <-]&?).
Qed.
End wp.

Lemma wp_conj {A} (m : M A) s (P Q : A → St → Prop) : wp m s P → wp m s Q → wp m s (λ a s', P a s' ∧ Q a s').
Proof. unfold wp. destruct (m s) as [[a s']|]; tauto. Qed.
Lemma wp_when (c : bool) (m : M ()) s Q :
  (c = true → wp m s Q) → (c = false → Q tt s) → wp (when c m) s Q.
Proof. destruct c; cbn; auto. Qed.

(** Cut a program after its third operation. *)
Lemma wp_cut {A B} (e : M ()) (f : M A) (g : A → M ()) (k : A → M B) s Q :
  wp (e;; x ← f; g x;; mret x) s (λ x s', wp (k x) s' Q) → wp (e;; x ← f; g x;; k x) s Q.
Proof.
  unfold wp, mbind, M_bind, mret, M_ret. destruct (e s) as [[? s1]|]; [|done].
  destruct (f s1) as [[x s2]|]; [|done]. by destruct (g x s2) as [[? s3]|].
Qed.

(** One step of a program: expose the head operation and its postcondition. *)
Ltac wp_step :=
  lazymatch goal with
  | |- wp (mbind _ _) _ _ => apply wp_bind
  | |- wp (mret _) _ _ => apply wp_ret
  | |- wp get_base _ _ => apply wp_gets
  | |- wp get_conf _ _ => apply wp_gets
  | |- wp get_heap _ _ => apply wp_gets
  | |- wp (gets _) _ _ => apply wp_gets
  | |- wp (upd_base _) _ _ => apply wp_modify
  | |- wp (upd_conf _) _ _ => apply wp_modify
  | |- wp (upd_heap _) _ _ => apply wp_modify
  | |- wp (modify _) _ _ => apply wp_modify
  | |- wp (let _ := _ in _) _ _ => cbv zeta
  | |- wp (match ?x with _ => _ end) _ _ => first [progress cbn beta iota | fail 1]
  end.
Ltac wp_steps := repeat (wp_step; cbn beta).
Tactic Notation "wp_apply" uconstr(H) := eapply wp_mono; [eapply H|]; cbn beta.
