(* ===== verification/Ref.v ===== *)
(** * Reference counted data (src/vstr_ref.c and the inline vstr_ref_add and
    vstr_ref_del of include/vstr-inline.h).

    A [Vstr_ref] is an entry of [h_refs]; the buffer that
    [vstr_ref_make_malloc] allocates behind the structure is the memory block
    with the number of the reference. *)
From Stdlib Require Import ZArith Lia ZifyBool.
From stdpp Require Import base tactics list numbers option gmap.
From S2P Require Import Prelude State Wp.

Definition ref_at (r : positive) : M Vstr_ref := h ← get_heap; of_option (h_refs h !! r).
Definition ref_put (r : positive) (v : Vstr_ref) : M () :=
  upd_heap (λ h, h_set_refs (<[r := v]> (h_refs h)) h).

(** free(ref->ptr): only the start of an allocation can be freed. *)
Definition free_mem (p : pointer) : M () :=
  h ← get_heap;
  if decide (p_off p = 0 ∧ is_Some (h_mem h !! p_blk p))
  then upd_heap (λ h, h_set_mem (delete (p_blk p) (h_mem h)) h) else undef.
(** free(ref), with the buffer behind it if there is one. *)
Definition free_ref (r : positive) : M () :=
  upd_heap (λ h, h_set_refs (delete r (h_refs h)) (h_set_mem (delete r (h_mem h)) h)).

Definition vstr_ref_cb (f : ref_func) (r : positive) (v : Vstr_ref) : M () :=
  match f with
  | vstr_ref_cb_free_nothing => mret tt
  | vstr_ref_cb_free_ref => free_ref r
  | vstr_ref_cb_free_ptr => free_mem (r_ptr v)
  | vstr_ref_cb_free_ptr_ref => free_mem (r_ptr v);; free_ref r
  end.

Definition vstr_ref_add (r : positive) : M positive :=
  v ← ref_at r;
  ref_put r (mkRef (r_func v) (r_ptr v) (u32 (r_ref v + 1)));; mret r.

Definition vstr_ref_del (tmp : option positive) : M () :=
  match tmp with
  | None => mret tt
  | Some r =>
    v ← ref_at r;
    let v' := mkRef (r_func v) (r_ptr v) (u32 (r_ref v - 1)) in
    ref_put r v';;
    if decide (r_ref v' = 0) then vstr_ref_cb (r_func v') r v' else mret tt
  end.

Definition vstr_ref_make_ptr (ptr : pointer) (func : ref_func) : M (option positive) :=
  ref ← malloc;
  match ref with
  | None => mret None
  | Some r => ref_put r (mkRef func ptr 1);; mret (Some r)
  end.

(** What new memory holds is not known: the byte at an offset of an allocation *)
Class Junk := junk : positive → Z → Z.
Definition junk_bytes {JK : Junk} (a : positive) (n : Z) : list Z := (λ i, junk a (Z.of_nat i)) <$> seq 0 (Z.to_nat n).
Lemma length_junk_bytes {JK : Junk} a n : zlen (junk_bytes a n) = Z.max 0 n.
Proof. unfold junk_bytes. rewrite length_fmap, length_seq. lia. Qed.

Definition vstr_ref_make_malloc {JK : Junk} (len : Z) : M (option positive) :=
  ref ← malloc;
  match ref with
  | None => mret None
  | Some r =>
    upd_heap (λ h, h_set_mem (<[r := junk_bytes r len]> (h_mem h)) h);;
    ref_put r (mkRef vstr_ref_cb_free_ref (Ptr r 0) 1);; mret (Some r)
  end.

Definition vstr_ref_make_memdup {JK : Junk} (ptr : pointer) (len : Z) : M (option positive) :=
  ref ← vstr_ref_make_malloc len;
  match ref with
  | None => mret None
  | Some r => mem_move (Ptr r 0) ptr len;; mret (Some r)
  end.
