(* ===== verification/Cache.v ===== *)
(** * The internal caches of a string (src/vstr_cache.c, and the iovec helpers
    of include/vstr-nx-inline.h, src/vstr_add.c and src/vstr_del.c). *)
From Stdlib Require Import ZArith Lia ZifyBool.
From stdpp Require Import base tactics list numbers option gmap.
From S2P Require Import Prelude State Wp Ref.

Inductive cache_type := CACHE_NOTHING | CACHE_ADD | CACHE_DEL | CACHE_SUB | CACHE_FREE.
#[export] Instance cache_type_eq_dec : EqDecision cache_type.
Proof. solve_decision. Defined.

Definition vstr_sc_posdiff (beg_pos end_pos : Z) : Z := u64 (u64 (end_pos - beg_pos) + 1).
Definition vstr_sc_poslast (beg_pos diff_pos : Z) : Z := u64 (beg_pos + u64 (diff_pos - 1)).

(** ** Position cache *)
Definition vstr__cache_pos_cb (pos : Z) (type : cache_type) (data : cache_data_pos)
    : option cache_data_pos :=
  if decide (type = CACHE_FREE) then None
  else match cp_node data with
  | None => Some data
  | Some _ =>
    if decide (type = CACHE_ADD ∧ cp_pos data ≤ pos) then Some data
    else if decide (type = CACHE_DEL ∧ cp_pos data < pos) then Some data
    else if decide (type = CACHE_SUB) then Some data
    else Some (mkPos (cp_pos data) (cp_num data) None)
  end.

(** ** C string cache; the effect on the reference is [vstr_ref_del] in [cache_cstr_run] *)
Definition vstr__cache_cstr_cb (pos len : Z) (type : cache_type) (data : cache_data_cstr)
    : option cache_data_cstr :=
  let end_pos := vstr_sc_poslast pos len in
  let data_end_pos := vstr_sc_poslast (cc_pos data) (cc_len data) in
  let kill := mkCstr (cc_pos data) 0 (cc_ref data) (cc_sz data) (cc_off data) in
  if decide (type = CACHE_FREE) then None
  else if decide (cc_ref data = None ∨ cc_len data = 0) then Some data
  else if decide (data_end_pos < pos) then Some data
  else if decide (type = CACHE_ADD) then
    if decide (data_end_pos = pos) then Some data
    else if decide (pos < cc_pos data)
    then Some (mkCstr (u64 (cc_pos data + len)) (cc_len data) (cc_ref data) (cc_sz data) (cc_off data))
    else Some kill
  else if decide (end_pos < cc_pos data) then
    if decide (type = CACHE_DEL)
    then Some (mkCstr (u64 (cc_pos data - len)) (cc_len data) (cc_ref data) (cc_sz data) (cc_off data))
    else Some data
  else if decide (type = CACHE_DEL ∧ end_pos < data_end_pos) then
    let d := vstr_sc_posdiff (cc_pos data) end_pos in
    Some (mkCstr pos (u64 (cc_len data - d)) (cc_ref data) (cc_sz data) (u64 (cc_off data + d)))
  else Some kill.

Definition upd_cache (f : Vstr_cache → Vstr_cache) : M () :=
  upd_base (λ b, b_set_cache (f (b_cache b)) b).

(** ** Running the callbacks (vstr__cache_cbs with no user cache).  The iovec
    callback only acts on CACHE_FREE, and is not called for a vector that is
    part of the string. *)
Definition vstr__cache_cbs (pos len : Z) (type : cache_type) : M () :=
  b ← get_base;
  match c_pos (b_cache b) with
  | None => mret tt
  | Some data =>
    if decide (type = CACHE_NOTHING) then mret tt
    else upd_cache (c_set_pos (vstr__cache_pos_cb pos type data))
  end;;
  when (bool_decide (type = CACHE_FREE ∧ grpalloc_num (grpalloc_cache b) < 2)) (upd_cache (c_set_vec None));;
  match c_cstr (b_cache b) with
  | None => mret tt
  | Some data =>
    when (bool_decide (type = CACHE_FREE)) (vstr_ref_del (cc_ref data));;
    if decide (type = CACHE_NOTHING) then mret tt
    else upd_cache (c_set_cstr (vstr__cache_cstr_cb pos len type data))
  end;;
  b' ← get_base;
  match c_cstr (b_cache b') with
  | None => upd_base (b_set_cache_internal true)
  | Some _ => mret tt
  end.

Definition vstr__cache_run (pos len : Z) (type : cache_type) : M () :=
  b ← get_base;
  if cache_available b then vstr__cache_cbs pos len type else mret tt.
Definition vstr__cache_del (pos len : Z) : M () := vstr__cache_run pos len CACHE_DEL.
Definition vstr__cache_add (pos len : Z) : M () := vstr__cache_run pos len CACHE_ADD.
Definition vstr_cache_cb_sub (pos len : Z) : M () := vstr__cache_run pos len CACHE_SUB.

(** vstr_cache_get(base, 1): the position cache, if there is one *)
Definition cache_get_pos (b : Vstr_base) : option cache_data_pos :=
  if cache_available b then c_pos (b_cache b) else None.
(** vstr_cache_get(base, 3) *)
Definition cache_get_cstr (b : Vstr_base) : option cache_data_cstr :=
  if cache_available b then c_cstr (b_cache b) else None.

(** vstr_cache__pos: remember a node; the code asserts that an available cache
    has position data *)
Definition vstr_cache__pos (node : positive) (pos num : Z) : M bool :=
  b ← get_base;
  if negb (cache_available b) then mret false
  else match c_pos (b_cache b) with
  | Some _ => upd_cache (c_set_pos (Some (mkPos pos num (Some node))));; mret true
  | None => undef
  end.

(** ** The I/O vector cache.  Entry [num] (from 1) is slot [off + num - 1]. *)
Definition upd_vec (f : cache_data_iovec → cache_data_iovec) : M () :=
  b ← get_base;
  match c_vec (b_cache b) with
  | None => undef
  | Some vec => upd_cache (c_set_vec (Some (f vec)))
  end.
Definition vec_set (n : Z) (fv : iovec → iovec) (ft : node_type → node_type)
    (vec : cache_data_iovec) : cache_data_iovec :=
  mkVec (alter fv (Z.to_nat n) (cv_v vec)) (alter ft (Z.to_nat n) (cv_t vec))
        (cv_off vec) (cv_sz vec).
Definition vec_set_off (off : Z) (vec : cache_data_iovec) : cache_data_iovec :=
  mkVec (cv_v vec) (cv_t vec) off (cv_sz vec).
Definition iov_grow (n : Z) (v : iovec) : iovec := mkIov (iov_base v) (iov_len v + n).

Definition vstr__cache_iovec_reset_node (node : Vstr_node) (num : Z) : M () :=
  b ← get_base;
  if negb (iovec_upto_date b) then mret tt
  else
    p ← node_ptr node;
    let u := if decide (num = 1) then b_used b else 0 in
    upd_vec (λ vec, vec_set (cv_off vec + num - 1)
      (λ _, mkIov ((λ q, ptr_add q u) <$> p) (nd_len node - u)) (λ _, nd_type node) vec).

Definition vstr__cache_iovec_add_end (node : Vstr_node) (len : Z) : M () :=
  tmp ← node_ptr node;
  b ← get_base;
  upd_vec (λ vec, vec_set (cv_off vec + b_num b - 1)
    (λ _, mkIov tmp len) (λ _, nd_type node) vec).

Definition vstr__cache_iovec_add_beg (node : Vstr_node) (len : Z) : M () :=
  tmp ← node_ptr node;
  upd_vec (λ vec, vec_set_off (cv_off vec - 1) vec);;
  upd_vec (λ vec, vec_set (cv_off vec) (λ _, mkIov tmp len) (λ _, nd_type node) vec).

Definition vstr__cache_iovec_add_node_end (num len : Z) : M () :=
  b ← get_base;
  if negb (iovec_upto_date b) then mret tt
  else upd_vec (λ vec, vec_set (num + cv_off vec - 1) (iov_grow len) id vec).

Definition vstr__cache_iovec_maybe_add (node : Vstr_node) (at_end : bool) (len : Z) : M () :=
  b ← get_base;
  if negb (iovec_upto_date b) then mret tt
  else match c_vec (b_cache b) with
  | None => undef
  | Some vec =>
    if decide (at_end = true ∧ b_num b ≤ cv_sz vec - cv_off vec)
    then vstr__cache_iovec_add_end node len
    else if decide (at_end = false ∧ cv_off vec ≠ 0)
    then vstr__cache_iovec_add_beg node len
    else upd_base (b_set_iovec_upto_date false)
  end.

Definition vstr__cache_iovec_reset : M () :=
  b ← get_base; c ← get_conf;
  match c_vec (b_cache b) with
  | Some vec =>
    if decide (cache_available b = true ∧ cv_sz vec ≠ 0) then
      upd_base (b_set_iovec_upto_date true);;
      upd_vec (vec_set_off (if decide (iov_min_offset c < cv_sz vec) then iov_min_offset c else 0))
    else mret tt
  | None => mret tt
  end.

Definition vstr__cache_iovec_del_node_end (num len : Z) : M () :=
  b ← get_base;
  if negb (iovec_upto_date b) then mret tt
  else upd_vec (λ vec, vec_set (num + cv_off vec - 1) (iov_grow (- len)) id vec).

Definition vstr__cache_iovec_del_node_beg (node : Vstr_node) (num len : Z) : M () :=
  b ← get_base;
  if negb (iovec_upto_date b) then mret tt
  else upd_vec (λ vec, vec_set (num + cv_off vec - 1)
    (λ v, mkIov (if decide (nd_type node = NODE_NON) then iov_base v
                 else (λ q, ptr_add q len) <$> iov_base v) (iov_len v - len)) id vec).

Definition vstr__cache_iovec_del_beg (num : Z) : M () :=
  b ← get_base;
  if negb (iovec_upto_date b) then mret tt
  else upd_vec (λ vec, vec_set_off (cv_off vec + num) vec).
