(* ===== verification/Core.v ===== *)
(** * Nodes of a string: spare nodes, finding the node of a position, splitting
    and normalising nodes (src/vstr.c, include/vstr-inline.h,
    include/vstr-nx-inline.h and the spare node options of src/vstr_cntl.c). *)
From Stdlib Require Import ZArith Lia ZifyBool.
From stdpp Require Import base tactics list numbers option gmap.
From S2P Require Import Prelude State Wp Ref Cache.

(** ** Spare nodes *)

(** vstr__make_spare_node: the buffer of a BUF node comes with it *)
Definition vstr__make_spare_node (type : node_type) : M bool :=
  c ← get_conf;
  node ← malloc;
  match node with
  | None => upd_conf (set_malloc_bad true);; mret false
  | Some a =>
    (if decide (type = NODE_BUF)
     then upd_heap (λ h, h_set_mem (<[a := zrep (buf_sz c) 0]> (h_mem h)) h) else mret tt);;
    upd_conf (λ c, let sp := get_spare type c in
      set_spare type (mkSpare (a :: sp_nodes sp) (u32 (sp_num sp + 1))) c);;
    mret true
  end.

(** vstr_make_spare_nodes: how many of the [num] nodes could be made *)
Fixpoint vstr_make_spare_nodes (type : node_type) (num : nat) : M Z :=
  match num with
  | O => mret 0
  | S num' =>
    ok ← vstr__make_spare_node type;
    if (ok : bool) then count ← vstr_make_spare_nodes type num'; mret (count + 1) else mret 0
  end.

Definition vstr__free_spare_node (type : node_type) : M bool :=
  c ← get_conf;
  let sp := get_spare type c in
  match sp_nodes sp with
  | [] => mret false
  | a :: rest =>
    upd_conf (set_spare type (mkSpare rest (u32 (sp_num sp - 1))));;
    upd_heap (λ h, h_set_mem (delete a (h_mem h)) h);;
    mret true
  end.

Fixpoint vstr_free_spare_nodes (type : node_type) (num : nat) : M Z :=
  match num with
  | O => mret 0
  | S num' =>
    ok ← vstr__free_spare_node type;
    if (ok : bool) then count ← vstr_free_spare_nodes type num'; mret (count + 1) else mret 0
  end.

(** vstr_cntl_conf(conf, VSTR_CNTL_CONF_SET_NUM_SPARE_x, val) *)
Definition cntl_conf_set_num_spare (type : node_type) (val : Z) : M bool :=
  c ← get_conf;
  let spare_num := sp_num (get_spare type c) in
  if decide (val = spare_num) then mret true
  else if decide (spare_num < val) then
    num ← vstr_make_spare_nodes type (Z.to_nat (val - spare_num));
    mret (bool_decide (num = val - spare_num))
  else
    vstr_free_spare_nodes type (Z.to_nat (spare_num - val));; mret true.

(** vstr_cntl_conf(conf, VSTR_CNTL_CONF_SET_NUM_RANGE_SPARE_x, val_min, val_max) *)
Definition cntl_conf_set_num_range_spare (type : node_type) (val_min val_max : Z) : M bool :=
  c ← get_conf;
  let spare_num := sp_num (get_spare type c) in
  if decide (spare_num < val_min) then cntl_conf_set_num_spare type val_min
  else if decide (val_max < spare_num) then cntl_conf_set_num_spare type val_max
  else mret true.

(** Take the first spare node: [--spare_num; beg = spare_beg; spare_beg = beg->next] *)
Definition pop_spare (type : node_type) : M positive :=
  c ← get_conf;
  let sp := get_spare type c in
  match sp_nodes sp with
  | [] => undef
  | a :: rest => upd_conf (set_spare type (mkSpare rest (u32 (sp_num sp - 1))));; mret a
  end.

(** vstr__relink_nodes: a run of nodes of one type goes to the front of its spare list *)
Definition vstr__relink_nodes (type : node_type) (run : list Vstr_node) (num : Z) : M () :=
  upd_conf (λ c, let sp := get_spare type c in
    set_spare type (mkSpare ((nd_addr <$> run) ++ sp_nodes sp) (u32 (sp_num sp + num))) c).

(** ** The node of a position *)

Fixpoint scan_pos (nodes : list Vstr_node) (i : nat) (pos num : Z) : option (nat * Z * Z) :=
  match nodes with
  | [] => None
  | nd :: rest =>
    if decide (nd_len nd < pos) then scan_pos rest (S i) (pos - nd_len nd) (num + 1)
    else Some (i, pos, num)
  end.

(** The index of the node at an address *)
Definition node_index (a : positive) (nodes : list Vstr_node) : option nat :=
  fst <$> list_find (λ nd, nd_addr nd = a) nodes.

Definition vstr_base__pos (pos : Z) (cache : bool) : M (nat * Z * Z) :=
  b ← get_base;
  let orig_pos := pos in
  let pos := u64 (pos + b_used b) in
  match head (b_nodes b), last (b_nodes b) with
  | Some beg, Some end_ =>
    if decide (pos ≤ nd_len beg) then mret (0%nat, pos, 1)
    else
      let before_end := u64 (b_len b - nd_len end_) in
      if decide (before_end < orig_pos)
      then mret (pred (length (b_nodes b)), orig_pos - before_end, b_num b)
      else
        '(i, pos, num) ← match cache_get_pos b with
          | Some data =>
            match cp_node data with
            | Some a =>
              if decide (cp_pos data ≤ orig_pos) then
                i ← of_option (node_index a (b_nodes b));
                mret (i, orig_pos - cp_pos data + 1, cp_num data)
              else mret (0%nat, pos, 1)
            | None => mret (0%nat, pos, 1)
            end
          | None => mret (0%nat, pos, 1)
          end;
        '(i, pos, num) ← of_option (scan_pos (drop i (b_nodes b)) i pos num);
        when cache (scan ← node_at i;
                    vstr_cache__pos (nd_addr scan) (orig_pos - pos + 1) num;; mret tt);;
        mret (i, pos, num)
  | _, _ => undef
  end.

(** vstr__base_ptr_pos: no shortcut and no cache *)
Definition vstr__base_ptr_pos (pos : Z) : M (nat * Z * Z) :=
  b ← get_base;
  of_option (scan_pos (b_nodes b) 0 (u64 (pos + b_used b)) 1).

(** ** Normalising and splitting nodes *)

Definition vstr__base_zero_used : M () :=
  b ← get_base;
  if decide (b_used b = 0) then mret tt
  else
    beg ← node_at 0;
    let len := u28 (nd_len beg - b_used b) in
    upd_node 0 (nd_set_len len);;
    mem_move (Ptr (nd_addr beg) 0) (Ptr (nd_addr beg) (b_used b)) len;;
    upd_base (b_set_used 0).

(** vstr__base_split_node; [false] when a spare node could not be made *)
Definition vstr__base_split_node (i : nat) (pos : Z) : M bool :=
  node ← node_at i;
  ok ← cntl_conf_set_num_range_spare (nd_type node) 1 UINT_MAX;
  if negb ok then mret false
  else
    beg ← pop_spare (nd_type node);
    body ← match nd_body node with
      | Node_buf =>
        mem_move (Ptr beg 0) (Ptr (nd_addr node) pos) (nd_len node - pos);; mret Node_buf
      | Node_non => mret Node_non
      | Node_ptr p => mret (Node_ptr (ptr_add p pos))
      | Node_ref r off => r' ← vstr_ref_add r; mret (Node_ref r' (u32 (off + pos)))
      end;
    upd_base (λ b, b_set_num (u32 (b_num b + 1)) b);;
    upd_base (b_set_iovec_upto_date false);;
    upd_base (λ b, b_set_nodes
      (take i (b_nodes b) ++ nd_set_len pos node ::
       mkNode beg (u28 (nd_len node - pos)) body :: drop (S i) (b_nodes b)) b);;
    mret true.

(** ** Reading one character (vstr_export_chr): 0 for NON data *)
Definition vstr_export_chr (pos : Z) : M Z :=
  '(i, pos, _) ← vstr_base__pos pos true;
  nd ← node_at i;
  p ← node_ptr nd;
  match p with
  | None => mret 0
  | Some p => bs ← mem_load (ptr_add p (pos - 1)) 1; of_option (head bs)
  end.

(** ** The validity check of the debug build (vstr__check_real_nodes and
    vstr__check_spare_nodes), without the caches *)
Definition vstr__check_real_nodes (b : Vstr_base) : bool :=
  (bool_decide (b_used b = 0) || match head (b_nodes b) with
      | Some beg => bool_decide (b_used b < nd_len beg ∧ nd_type beg = NODE_BUF)
      | None => false end) &&
  bool_decide ((length (b_nodes b) ≤ 1)%nat ∨ 1 < b_num b) &&
  forallb (λ nd, bool_decide (nd_len nd ≠ 0) && node_used (nd_type nd) b) (b_nodes b) &&
  bool_decide (sum_len (b_nodes b) - b_used b = b_len b ∧ zlen (b_nodes b) = b_num b).
Definition vstr__check_spare_nodes (c : Vstr_conf) : bool :=
  forallb (λ t, bool_decide (sp_num (get_spare t c) = zlen (sp_nodes (get_spare t c))))
    [NODE_BUF; NODE_NON; NODE_PTR; NODE_REF].
