(* ===== verification/Add.v ===== *)
(** * Adding data to a string (src/vstr_add.c and the inline fast paths of
    include/vstr-inline.h). *)
From Stdlib Require Import ZArith Lia ZifyBool.
From stdpp Require Import base tactics list numbers option gmap.
From S2P Require Import Prelude State Wp Ref Cache Core.

Definition vstr__add_setup_pos (pos : Z) : M (option (nat * Z * Z)) :=
  '(scan, pos, num) ← vstr_base__pos pos true;
  nd ← node_at scan;
  if decide (pos = nd_len nd) then mret (Some (scan, pos, num))
  else
    ok ← vstr__base_split_node scan pos;
    mret (if (ok : bool) then Some (scan, pos, num) else None).

(** The add functions are one text, held together by the macros
    VSTR__ADD_BEG, VSTR__ADD_MID and VSTR__ADD_END.  [add_op] is what differs:
    the node type, the largest node, when the data continues the node before
    the position and how it is written there, how a new node is filled, and
    how the cursor over the data moves after each of the two. *)
Record add_op (C : Type) := mkAddOp {
  op_type : node_type;
  op_max : Vstr_conf → Z;
  op_continues : C → Vstr_node → Z → bool;
  op_extend : C → Vstr_node → Z → M ();
  op_extended : C → Z → C;
  op_fill : C → positive → Z → M node_body;
  op_filled : C → Z → Z → C }.
Arguments mkAddOp {C}. Arguments op_type {C}. Arguments op_max {C}. Arguments op_continues {C}.
Arguments op_extend {C}. Arguments op_extended {C}. Arguments op_fill {C}. Arguments op_filled {C}.

Section add.
Context {C : Type} (op : add_op C).

(** VSTR__ADD_BEG: [None] is the early return of FALSE; otherwise the node
    before the position, if there is one *)
Definition VSTR__ADD_BEG (pos len : Z) : M (option (option (nat * Z * Z))) :=
  b ← get_base;
  c ← get_conf;
  setup ← (if decide (pos ≠ 0 ∧ b_len b ≠ 0) then
             r ← vstr__add_setup_pos pos;
             mret (match r with None => None | Some x => Some (Some x) end)
           else mret (Some None));
  match setup with
  | None => mret None
  | Some scan =>
    need ← match scan with
           | None => mret true
           | Some (i, p, _) =>
             nd ← node_at i;
             mret (bool_decide (op_type op ≠ NODE_BUF ∨ nd_type nd ≠ NODE_BUF ∨
                                p ≠ nd_len nd ∨ u32 (buf_sz c - nd_len nd) < len))
           end;
    ok ← (if (need : bool)
          then let max := op_max op c in
               cntl_conf_set_num_range_spare (op_type op)
                 (u32 (len / max + (if decide (len mod max = 0) then 0 else 1))) UINT_MAX
          else mret true);
    mret (if (ok : bool) then Some scan else None)
  end.

(** Data that continues the node before the position: how much was taken *)
Definition vstr__add_extend (cur : C) (i : nat) (p num len : Z) : M Z :=
  c ← get_conf;
  nd ← node_at i;
  if decide (op_continues op cur nd p = true ∧ nd_len nd < op_max op c) then
    let tmp := Z.min (op_max op c - nd_len nd) len in
    op_extend op cur nd tmp;;
    upd_node i (λ nd, nd_set_len (u28 (nd_len nd + tmp)) nd);;
    vstr__cache_iovec_add_node_end num tmp;;
    upd_base (λ b, b_set_len (u64 (b_len b + tmp)) b);;
    mret tmp
  else mret 0.

(** The loop of VSTR__ADD_MID and VSTR__ADD_END over the spare nodes: the
    nodes filled and the spare nodes left *)
Fixpoint vstr__add_loop (cur : C) (at_end : bool) (len : Z) (spares : list positive)
    : M (list Vstr_node * list positive) :=
  match spares with
  | [] => undef
  | a :: rest =>
    c ← get_conf;
    let tmp := Z.min (op_max op c) len in
    upd_base (λ b, b_set_num (u32 (b_num b + 1)) (b_set_flag (op_type op) true b));;
    body ← op_fill op cur a tmp;
    let nd := mkNode a (u28 tmp) body in
    vstr__cache_iovec_maybe_add nd at_end tmp;;
    if decide (len - tmp = 0) then mret ([nd], rest)
    else
      '(nds, rest') ← vstr__add_loop (op_filled op cur len tmp) at_end (len - tmp) rest;
      mret (nd :: nds, rest')
  end.

(** VSTR__ADD_MID and VSTR__ADD_END *)
Definition VSTR__ADD_MID_END (cur : C) (scan : option nat) (pos len orig_pos orig_len : Z)
    : M bool :=
  b ← get_base;
  let at_end := bool_decide (pos ≠ 0 ∨ b_len b = 0) in
  (match scan with
   | Some i => when (bool_decide (S i ≠ length (b_nodes b)))
                    (upd_base (b_set_iovec_upto_date false))
   | None => if decide (b_len b = 0) then mret tt else vstr__base_zero_used
   end);;
  b ← get_base;
  c ← get_conf;
  upd_base (b_set_len (u64 (b_len b + len)));;
  '(nds, rest) ← vstr__add_loop cur at_end len (sp_nodes (get_spare (op_type op) c));
  upd_conf (λ c, set_spare (op_type op)
    (mkSpare rest (u32 (sp_num (get_spare (op_type op) c) - zlen nds))) c);;
  upd_base (b_set_nodes
    match scan with
    | Some i => take (S i) (b_nodes b) ++ nds ++ drop (S i) (b_nodes b)
    | None => nds ++ (if decide (b_len b = 0) then [] else b_nodes b)
    end);;
  vstr__cache_add orig_pos orig_len;;
  mret true.

Definition vstr__add (cur : C) (pos len : Z) : M bool :=
  scan ← VSTR__ADD_BEG pos len;
  match scan with
  | None => mret false
  | Some None => VSTR__ADD_MID_END cur None pos len pos len
  | Some (Some (i, p, num)) =>
    tmp ← vstr__add_extend cur i p num len;
    if decide (tmp ≠ 0 ∧ len - tmp = 0) then vstr__cache_add pos len;; mret true
    else VSTR__ADD_MID_END (if decide (tmp = 0) then cur else op_extended op cur tmp)
           (Some i) pos (len - tmp) pos len
  end.
End add.

(** ** The operations *)

Definition add_buf_op : add_op pointer :=
  mkAddOp NODE_BUF buf_sz
    (λ _ nd p, bool_decide (nd_type nd = NODE_BUF ∧ p = nd_len nd))
    (λ buffer nd tmp, mem_move (Ptr (nd_addr nd) (nd_len nd)) buffer tmp)
    (λ buffer tmp, ptr_add buffer tmp)
    (λ buffer a tmp, mem_move (Ptr a 0) buffer tmp;; mret Node_buf)
    (λ buffer _ tmp, ptr_add buffer tmp).

Definition add_rep_chr_op : add_op Z :=
  mkAddOp NODE_BUF buf_sz
    (λ _ nd p, bool_decide (nd_type nd = NODE_BUF ∧ p = nd_len nd))
    (λ chr nd tmp, mem_store (Ptr (nd_addr nd) (nd_len nd)) (zrep tmp chr))
    (λ chr _, chr)
    (λ chr a tmp, mem_store (Ptr a 0) (zrep tmp chr);; mret Node_buf)
    (λ chr _ _, chr).

(** The pointer is not moved past the bytes that extended the node before. *)
Definition add_ptr_op : add_op pointer :=
  mkAddOp NODE_PTR (λ _, VSTR_MAX_NODE_ALL)
    (λ ptr nd p, match nd_body nd with
       | Node_ptr q => bool_decide (ptr_add q (nd_len nd) = ptr ∧ p = nd_len nd)
       | _ => false end)
    (λ _ _ _, mret tt)
    (λ ptr _, ptr)
    (λ ptr a tmp, mret (Node_ptr ptr))
    (λ ptr _ tmp, ptr_add ptr tmp).

Definition add_non_op : add_op () :=
  mkAddOp NODE_NON (λ _, VSTR_MAX_NODE_ALL)
    (λ _ nd p, bool_decide (nd_type nd = NODE_NON))
    (λ _ _ _, mret tt)
    (λ _ _, tt)
    (λ _ _ _, mret Node_non)
    (λ _ _ _, tt).

(** The offset moves by the length that is left, not by the length of the node. *)
Definition add_ref_op (ref : positive) : add_op Z :=
  mkAddOp NODE_REF (λ _, VSTR_MAX_NODE_ALL)
    (λ off nd p, match nd_body nd with
       | Node_ref r o => bool_decide (r = ref ∧ u32 (o + nd_len nd) = off ∧ p = nd_len nd)
       | _ => false end)
    (λ _ _ _, mret tt)
    (λ off _, off)
    (λ off a tmp, r ← vstr_ref_add ref; mret (Node_ref r (u32 off)))
    (λ off len _, u64 (off + len)).

Definition vstr_extern_inline_add_buf (pos : Z) (buffer : pointer) (len : Z) : M bool :=
  b ← get_base;
  if decide (len = 0 ∨ b_len b < pos) then mret false
  else vstr__add add_buf_op buffer pos len.

Definition vstr_extern_inline_add_rep_chr (pos : Z) (chr len : Z) : M bool :=
  b ← get_base;
  if decide (len = 0 ∨ b_len b < pos) then mret false
  else vstr__add add_rep_chr_op chr pos len.

Definition vstr_add_ptr (pos : Z) (ptr : pointer) (len : Z) : M bool :=
  b ← get_base;
  if decide (b_len b < pos) then mret false
  else if decide (len = 0) then mret true
  else vstr__add add_ptr_op ptr pos len.

Definition vstr_add_non (pos len : Z) : M bool :=
  b ← get_base;
  if decide (b_len b < pos) then mret false
  else if decide (len = 0) then mret true
  else vstr__add add_non_op tt pos len.

Definition vstr_add_ref (pos : Z) (ref : positive) (off len : Z) : M bool :=
  b ← get_base;
  if decide (b_len b < pos) then mret false
  else if decide (len = 0) then mret true
  else vstr__add (add_ref_op ref) off pos len.

(** ** The inline fast path: the data fits the last node, a BUF node *)
Definition vstr__add_inline (write : Vstr_node → M ()) (slow : M bool) (pos len : Z) : M bool :=
  b ← get_base; c ← get_conf;
  if decide (b_len b < pos) then mret false
  else if decide (len = 0) then mret true
  else match last (b_nodes b) with
  | Some scan =>
    if decide (b_len b ≠ 0 ∧ pos = b_len b ∧ nd_type scan = NODE_BUF ∧
               len ≤ u32 (buf_sz c - nd_len scan) ∧
               (cache_available b = false ∨ cache_internal b = true))
    then
      write scan;;
      upd_node (pred (length (b_nodes b))) (λ nd, nd_set_len (u28 (nd_len nd + len)) nd);;
      upd_base (λ b, b_set_len (u64 (b_len b + len)) b);;
      vstr__cache_iovec_add_node_end (b_num b) len;;
      mret true
    else slow
  | None => slow
  end.

Definition vstr_add_buf (pos : Z) (buffer : pointer) (len : Z) : M bool :=
  vstr__add_inline (λ scan, mem_move (Ptr (nd_addr scan) (nd_len scan)) buffer len)
    (vstr_extern_inline_add_buf pos buffer len) pos len.

Definition vstr_add_rep_chr (pos chr len : Z) : M bool :=
  vstr__add_inline (λ scan, mem_store (Ptr (nd_addr scan) (nd_len scan)) (zrep len chr))
    (vstr_extern_inline_add_rep_chr pos chr len) pos len.
