(* ===== verification/Del.v ===== *)
(** * Deleting data from a string (src/vstr_del.c and the inline fast paths of
    include/vstr-inline.h). *)
From Stdlib Require Import ZArith Lia ZifyBool.
From stdpp Require Import base tactics list numbers option gmap.
From S2P Require Import Prelude State Wp Ref Cache Core.

(** vstr__del_node: free the resources of a node *)
Definition vstr__del_node (nd : Vstr_node) : M () :=
  match nd_body nd with
  | Node_ref r _ => vstr_ref_del (Some r)
  | _ => mret tt
  end.

(** vstr__del_beg_cleanup: [*scan] is [num] nodes after [beg], and the nodes
    before it have one type *)
Definition vstr__del_beg_cleanup (num : nat) (base_update : bool) : M () :=
  if decide (num = 0%nat) then mret tt
  else
    b ← get_base;
    beg ← of_option (head (b_nodes b));
    vstr__relink_nodes (nd_type beg) (take num (b_nodes b)) (Z.of_nat num);;
    upd_base (b_set_nodes (drop num (b_nodes b)));;
    when base_update
      (upd_base (λ b, b_set_num (u32 (b_num b - Z.of_nat num)) b);;
       vstr__cache_iovec_del_beg (Z.of_nat num)).

(** The type of the nodes from [beg] on, after the nodes before were relinked *)
Definition del_beg_restart (num : nat) (base_update : bool) : M node_type :=
  vstr__del_beg_cleanup num base_update;;
  b ← get_base;
  beg ← of_option (head (b_nodes b));
  mret (nd_type beg).

Fixpoint vstr__del_all_loop (scan : list Vstr_node) (num : nat) (type : node_type) : M nat :=
  match scan with
  | [] => mret num
  | nd :: scan' =>
    '(num, type) ← (if decide (nd_type nd = type) then mret (num, type)
                    else type ← del_beg_restart num false; mret (0%nat, type));
    vstr__del_node nd;;
    vstr__del_all_loop scan' (S num) type
  end.

Definition vstr__del_all : M () :=
  b ← get_base;
  let orig_len := b_len b in
  beg ← of_option (head (b_nodes b));
  upd_base (b_set_len 0);;
  num ← vstr__del_all_loop (b_nodes b) 0 (nd_type beg);
  vstr__del_beg_cleanup num false;;
  upd_base (λ b, b_set_num 0 (b_set_used 0 b));;
  upd_base (λ b, b_set_flag NODE_BUF false (b_set_flag NODE_NON false
                   (b_set_flag NODE_PTR false (b_set_flag NODE_REF false b))));;
  vstr__cache_iovec_reset;;
  vstr__cache_del 1 orig_len.

(** Drop [len] bytes, fewer than it has, from the start of the node *)
Definition node_drop (len : Z) (nd : Vstr_node) : Vstr_node :=
  mkNode (nd_addr nd) (u28 (nd_len nd - len))
    match nd_body nd with
    | Node_ptr p => Node_ptr (ptr_add p len)
    | Node_ref r off => Node_ref r (u32 (off + len))
    | body => body
    end.

(** The loop of vstr__del_beg: nodes to relink and the length left *)
Fixpoint vstr__del_beg_loop (scan : list Vstr_node) (num : nat) (type : node_type) (len : Z)
    : M (nat * Z) :=
  if decide (len ≤ 0) then mret (num, len)
  else match scan with
  | [] => undef
  | nd :: scan' =>
    '(num, type) ← (if decide (nd_type nd = type) then mret (num, type)
                    else type ← del_beg_restart num true; mret (0%nat, type));
    if decide (len < nd_len nd) then
      (if decide (nd_type nd = NODE_BUF) then upd_base (b_set_used (u16 len))
       else upd_node num (node_drop len));;
      mret (num, len)
    else
      vstr__del_node nd;;
      vstr__del_beg_loop scan' (S num) type (len - nd_len nd)
  end.

Definition vstr__del_beg (len : Z) : M () :=
  b ← get_base;
  let orig_len := len in
  beg ← of_option (head (b_nodes b));
  upd_base (b_set_len (u64 (b_len b - len)));;
  if decide (b_used b ≠ 0 ∧ len < nd_len beg - b_used b) then
    upd_base (b_set_used (u16 (b_used b + len)));;
    vstr__cache_iovec_del_node_beg beg 1 len;;
    vstr__cache_del 1 orig_len
  else
    '(num, len) ← (if decide (b_used b ≠ 0) then
        upd_base (b_set_used 0);;
        vstr__del_beg_loop (tail (b_nodes b)) 1 NODE_BUF (len - (nd_len beg - b_used b))
      else vstr__del_beg_loop (b_nodes b) 0 (nd_type beg) len);
    vstr__del_beg_cleanup num true;;
    (if decide (len ≠ 0) then
       beg ← node_at 0; vstr__cache_iovec_del_node_beg beg 1 len
     else mret tt);;
    vstr__cache_del 1 orig_len.

(** The loop over the nodes deleted whole after the position: runs of one type
    are relinked together (vstr__del_end_cleanup) *)
Fixpoint vstr__del_end_loop (pscan : list Vstr_node) (len : Z) (run : list Vstr_node)
    (type : node_type) (del_nodes : Z) : M (list Vstr_node * Z * Z) :=
  let finish := vstr__relink_nodes type run (zlen run);;
                mret (pscan, len, del_nodes + zlen run) in
  match pscan with
  | nd :: pscan' =>
    if decide (nd_len nd ≤ len) then
      vstr__del_node nd;;
      if decide (nd_type nd = type)
      then vstr__del_end_loop pscan' (len - nd_len nd) (run ++ [nd]) type del_nodes
      else
        vstr__relink_nodes type run (zlen run);;
        vstr__del_end_loop pscan' (len - nd_len nd) [nd] (nd_type nd) (del_nodes + zlen run)
    else finish
  | [] => finish
  end.

(** The two memmoves of the iovec cache over the entries of deleted nodes *)
Definition vec_close_gap (dst src num : Z) (vec : cache_data_iovec) : cache_data_iovec :=
  let mv {A} (l : list A) :=
    zwrite (cv_off vec + dst) (ztake (num - src) (zdrop (cv_off vec + src) l)) l in
  mkVec (mv (cv_v vec)) (mv (cv_t vec)) (cv_off vec) (cv_sz vec).

(** fix_last_node: [len] bytes go from the start of node [i] *)
Definition vstr__del_fix_last_node (i : nat) (saved_num len : Z) : M () :=
  scan ← node_at i;
  (if decide (nd_type scan = NODE_BUF)
   then mem_move (Ptr (nd_addr scan) 0) (Ptr (nd_addr scan) len) (nd_len scan - len)
   else mret tt);;
  upd_node i (node_drop len);;
  scan' ← node_at i;
  vstr__cache_iovec_reset_node scan' (saved_num + 1).

(** Delete from the middle of one node: node [i] keeps [pos] bytes, loses [len] *)
Definition vstr__del_middle (i : nat) (num pos len : Z) : M bool :=
  scan ← node_at i;
  c ← get_conf;
  ok ← match nd_type scan with
    | NODE_NON => mret true
    | NODE_BUF =>
      if split_buf_del c then vstr__base_split_node i (pos + len)
      else
        mem_move (Ptr (nd_addr scan) pos) (Ptr (nd_addr scan) (pos + len))
                 (nd_len scan - (pos + len));;
        mret true
    | _ => vstr__base_split_node i (pos + len)
    end;
  if (ok : bool) then
    upd_node i (λ nd, nd_set_len (u28 (nd_len nd - len)) nd);;
    vstr__cache_iovec_del_node_end num len;;
    mret true
  else mret false.

Definition vstr_extern_inline_del (pos len : Z) : M bool :=
  b ← get_base;
  let orig_pos := pos in
  let orig_len := len in
  if negb (bool_decide (pos ≠ 0 ∧ pos ≤ b_len b ∧ vstr_sc_poslast pos len ≤ b_len b))
  then mret false
  else if decide (pos ≤ 1) then
    if decide (b_len b ≤ len) then vstr__del_all;; mret true
    else vstr__del_beg len;; mret true
  else
    let pos := pos - 1 in
    let len := if decide (b_len b ≤ u64 (pos + len)) then b_len b - pos else len in
    '(i, pos, num) ← vstr_base__pos pos false;
    upd_base (b_set_len (u64 (b_len b - len)));;
    scan ← node_at i;
    let tmp := nd_len scan - pos in
    if decide (pos ≠ nd_len scan ∧ len < tmp) then
      ok ← vstr__del_middle i num pos len;
      if (ok : bool) then vstr__cache_del orig_pos orig_len;; mret true
      else upd_base (λ b, b_set_len (u64 (b_len b + len)) b);; mret false
    else
      len ← (if decide (pos ≠ nd_len scan) then
               vstr__cache_iovec_del_node_end num tmp;;
               upd_node i (nd_set_len pos);;
               mret (len - tmp)
             else mret len);
      if decide (len = 0) then vstr__cache_del orig_pos orig_len;; mret true
      else
        b ← get_base;
        match drop (S i) (b_nodes b) with
        | [] => undef
        | scan :: rest =>
          (if decide (len < nd_len scan) then vstr__del_fix_last_node (S i) num len
           else
             vstr__del_node scan;;
             '(scan', len, del_nodes) ←
                vstr__del_end_loop rest (len - nd_len scan) [scan] (nd_type scan) 0;
             when (iovec_upto_date b)
               (upd_vec (vec_close_gap num (num + del_nodes) (b_num b)));;
             upd_base (λ b, b_set_num (u32 (b_num b - del_nodes)) b);;
             upd_base (λ b, b_set_nodes (take (S i) (b_nodes b) ++ scan') b);;
             match scan' with
             | [] => mret tt
             | _ => if decide (len ≠ 0) then vstr__del_fix_last_node (S i) num len else mret tt
             end);;
          vstr__cache_del orig_pos orig_len;; mret true
        end.

(** ** The inline fast paths *)

(** pdata->node = NULL *)
Definition cache_pos_forget : M () :=
  b ← get_base;
  match cache_get_pos b with
  | Some data => upd_cache (c_set_pos (Some (mkPos (cp_pos data) (cp_num data) None)))
  | None => mret tt
  end.

Definition upd_cstr_cache (f : cache_data_cstr → cache_data_cstr) : M () :=
  b ← get_base;
  match cache_get_cstr b with
  | Some cdata =>
    if decide (cc_ref cdata ≠ None ∧ cc_len cdata ≠ 0)
    then upd_cache (c_set_cstr (Some (f cdata))) else mret tt
  | None => mret tt
  end.

Definition cstr_del_beg (pos len : Z) (cdata : cache_data_cstr) : cache_data_cstr :=
  let data_end_pos := vstr_sc_poslast (cc_pos cdata) (cc_len cdata) in
  let end_pos := vstr_sc_poslast 1 len in
  let d := vstr_sc_posdiff (cc_pos cdata) end_pos in
  if decide (end_pos < cc_pos cdata)
  then mkCstr (u64 (cc_pos cdata - len)) (cc_len cdata) (cc_ref cdata) (cc_sz cdata) (cc_off cdata)
  else if decide (data_end_pos ≤ end_pos)
  then mkCstr (cc_pos cdata) 0 (cc_ref cdata) (cc_sz cdata) (cc_off cdata)
  else mkCstr pos (u64 (cc_len cdata - d)) (cc_ref cdata) (cc_sz cdata) (u64 (cc_off cdata + d)).

Definition cstr_del_end (pos : Z) (cdata : cache_data_cstr) : cache_data_cstr :=
  if decide (pos ≤ vstr_sc_poslast (cc_pos cdata) (cc_len cdata))
  then mkCstr (cc_pos cdata) 0 (cc_ref cdata) (cc_sz cdata) (cc_off cdata) else cdata.

(** Delete from the beginning, in one node *)
Definition vstr_del_inline_beg (pos len : Z) : M () :=
  scan ← node_at 0;
  upd_base (λ b, b_set_len (u64 (b_len b - len)) b);;
  (if decide (nd_type scan = NODE_BUF)
   then upd_base (λ b, b_set_used (u16 (b_used b + len)) b)
   else upd_node 0 (node_drop len));;
  upd_cstr_cache (cstr_del_beg pos len);;
  vstr__cache_iovec_del_node_beg scan 1 len;;
  cache_pos_forget.

(** Delete from the end, in one node *)
Definition vstr_del_inline_end (pos len : Z) : M () :=
  b ← get_base;
  upd_base (λ b, b_set_len (u64 (b_len b - len)) b);;
  upd_node (pred (length (b_nodes b))) (λ nd, nd_set_len (u28 (nd_len nd - len)) nd);;
  upd_cstr_cache (cstr_del_end pos);;
  vstr__cache_iovec_del_node_end (b_num b) len;;
  cache_pos_forget.

Definition vstr_del (pos len : Z) : M bool :=
  b ← get_base;
  if decide (b_len b < pos ∧ len ≠ 0) then mret false
  else if decide (len = 0) then mret true
  else if negb (bool_decide (cache_available b = false ∨ cache_internal b = true))
  then vstr_extern_inline_del pos len
  else match head (b_nodes b), last (b_nodes b) with
  | Some beg, Some end_ =>
    let end_len := if decide (length (b_nodes b) = 1%nat) then nd_len end_ + b_used b
                   else nd_len end_ in
    if decide (pos = 1 ∧ u64 (len + b_used b) < nd_len beg)
    then vstr_del_inline_beg pos len;; mret true
    else if decide (u64 (b_len b - (end_len - 1)) < pos ∧ len = vstr_sc_posdiff pos (b_len b))
    then vstr_del_inline_end pos len;; mret true
    else vstr_extern_inline_del pos len
  | _, _ => undef
  end.
