(* ===== verification/Base.v ===== *)
(** * Making strings and the I/O vector on demand (what vstr_make_base
    does to a string, vstr__init_base, vstr__cache_iovec_valid and vstr__cache_iovec_alloc of
    src/vstr.c and src/vstr_cache.c).

    The group allocation of the configuration is the argument [grpalloc]; the
    spare strings of the configuration are in Life. *)
From Stdlib Require Import ZArith Lia ZifyBool.
From stdpp Require Import base tactics list numbers option gmap.
From S2P Require Import Prelude State Wp Ref Cache Core.

(** Uninitialised members read as zero here; the code never reads them. *)
Definition empty_base (g : grpalloc_type) (cache : Vstr_cache) : Vstr_base :=
  mkBase [] 0 0 0 false (bool_decide (g ≠ GRPALLOC_NONE)) true false false false false g cache.

Definition alloc_ok : M bool := a ← malloc; mret (bool_decide (is_Some a)).

(** The allocations of vstr__make_base_cache in their order; the first failure ends it *)
Fixpoint alloc_all (n : nat) : M bool :=
  match n with
  | O => mret true
  | S n => ok ← alloc_ok; if (ok : bool) then alloc_all n else mret false
  end.

Definition vec_fresh (sz off : Z) : cache_data_iovec :=
  mkVec (zrep sz (mkIov None 0)) (zrep sz NODE_BUF) off sz.

Definition vstr__make_base_cache (grpalloc : grpalloc_type) : M (option Vstr_base) :=
  c ← get_conf;
  match grpalloc with
  | GRPALLOC_NONE =>
    ok ← alloc_all 1;
    mret (if (ok : bool) then Some (empty_base grpalloc (mkCache None None None)) else None)
  | GRPALLOC_POS =>
    ok ← alloc_all 2;
    mret (if (ok : bool) then Some (empty_base grpalloc (mkCache (Some (mkPos 0 0 None)) None None)) else None)
  | _ =>
    ok ← alloc_all 4;
    let vec := vec_fresh (1 + iov_min_alloc c + iov_min_offset c) (iov_min_offset c) in
    let cstr := if decide (grpalloc = GRPALLOC_CSTR) then Some (mkCstr 0 0 None 0 0) else None in
    mret (if (ok : bool)
          then Some (empty_base grpalloc (mkCache (Some (mkPos 0 0 None)) (Some vec) cstr)) else None)
  end.

(** The cache data of a spare string, which vstr_free_base has set to NULL, is
    the data in its allocation again. *)
Definition spare_caches (grpalloc : grpalloc_type) (base : Vstr_base) : Vstr_base :=
  let pos := c_set_pos (Some (mkPos 0 0 None)) in
  match grpalloc with
  | GRPALLOC_NONE => base
  | GRPALLOC_CSTR => b_set_cache (pos (c_set_cstr (Some (mkCstr 0 0 None 0 0)) (b_cache base))) base
  | _ => b_set_cache (pos (b_cache base)) base
  end.

Definition vstr__init_base : M () :=
  c ← get_conf;
  upd_base (λ b, b_set_nodes [] (b_set_len 0 (b_set_num 0 (b_set_used 0
    (b_set_iovec_upto_date false (b_set_flag NODE_BUF false (b_set_flag NODE_NON false
    (b_set_flag NODE_PTR false (b_set_flag NODE_REF false b)))))))));;
  b ← get_base;
  when (cache_available b && bool_decide (2 ≤ grpalloc_num (grpalloc_cache b)))
    (upd_vec (vec_set_off (iov_min_offset c));;
     upd_base (b_set_iovec_upto_date true)).

(** vstr_make_base, given the spare string it takes, if there is one: the new
    string is the string of the state *)
Definition make_base (grpalloc : grpalloc_type) (spare : option Vstr_base) : M bool :=
  base ← match spare with
    | Some b => mret (Some (spare_caches grpalloc b))
    | None => vstr__make_base_cache grpalloc
    end;
  match base with
  | None => upd_conf (set_malloc_bad true);; mret false
  | Some b => upd_base (λ _, b);; vstr__init_base;; mret true
  end.

(** ** The I/O vector on demand *)

Definition vstr__cache_iovec_memmove (num min_offset : Z) (vec : cache_data_iovec) : cache_data_iovec :=
  let mv {A} (l : list A) := zwrite min_offset (ztake num (zdrop (cv_off vec) l)) l in
  mkVec (mv (cv_v vec)) (mv (cv_t vec)) min_offset (cv_sz vec).

(** realloc keeps the entries; the new ones are undefined, zero here *)
Definition vec_realloc (sz : Z) (vec : cache_data_iovec) : cache_data_iovec :=
  mkVec (ztake sz (cv_v vec) ++ zrep (sz - cv_sz vec) (mkIov None 0))
        (ztake sz (cv_t vec) ++ zrep (sz - cv_sz vec) NODE_BUF) (cv_off vec) sz.

(** The vector, its entries and its types; vstr_cache_set may make the array of
    the caches longer as well, whose failure is a failure of the first. *)
Definition vstr__cache_iovec_alloc (sz : Z) : M bool :=
  b ← get_base; c ← get_conf;
  if negb (cache_available b) then mret false
  else
    made ← match c_vec (b_cache b) with
      | Some _ => mret true
      | None =>
        ok ← alloc_all 3;
        if (ok : bool) then
          upd_cache (c_set_vec (Some (vec_fresh (u32 (sz + iov_min_alloc c + iov_min_offset c)) 0)));;
          mret true
        else upd_conf (set_malloc_bad true);; mret false
      end;
    if negb made then mret false
    else
      b ← get_base;
      (if negb (iovec_upto_date b) then upd_vec (vec_set_off (iov_min_offset c))
       else match c_vec (b_cache b) with
       | Some vec =>
         when (bool_decide (iov_min_offset c < cv_off vec ∧ cv_sz vec - cv_off vec < sz))
           (upd_vec (vstr__cache_iovec_memmove (b_num b) (iov_min_offset c)))
       | None => undef
       end);;
      b ← get_base;
      match c_vec (b_cache b) with
      | None => undef
      | Some vec =>
        if decide (cv_sz vec - cv_off vec < sz) then
          ok ← alloc_all 2;
          if (ok : bool) then upd_vec (vec_realloc (u32 (sz + iov_min_offset c)));; mret true
          else upd_conf (set_malloc_bad true);; mret false
        else mret true
      end.

(** The entries of a string: the bytes of the first node that are used up are left out *)
Definition iovec_entry (rs : gmap positive Vstr_ref) (used : Z) (nd : Vstr_node)
    : option (iovec * node_type) :=
  p ← vstr_export__node_ptr rs nd;
  Some (mkIov ((λ q, ptr_add q used) <$> p) (nd_len nd - used), nd_type nd).
Definition iovec_entries (rs : gmap positive Vstr_ref) (used : Z) (ns : list Vstr_node)
    : option (list (iovec * node_type)) :=
  match ns with
  | [] => Some []
  | nd :: rest => e ← iovec_entry rs used nd; es ← mapM (iovec_entry rs 0) rest; Some (e :: es)
  end.

Definition vstr__cache_iovec_valid : M bool :=
  b ← get_base;
  if iovec_upto_date b then mret true
  else match b_nodes b with
  | [] =>
    match c_vec (b_cache b) with
    | Some vec => when (cache_available b && bool_decide (cv_sz vec ≠ 0))
                       (upd_base (b_set_iovec_upto_date true));; mret true
    | None => mret true
    end
  | _ :: _ =>
    ok ← vstr__cache_iovec_alloc (b_num b);
    if negb ok then mret false
    else
      h ← get_heap; c ← get_conf;
      es ← of_option (iovec_entries (h_refs h) (b_used b) (b_nodes b));
      upd_vec (λ vec, mkVec (zwrite (iov_min_offset c) (fst <$> es) (cv_v vec))
                            (zwrite (iov_min_offset c) (snd <$> es) (cv_t vec))
                            (cv_off vec) (cv_sz vec));;
      upd_base (b_set_iovec_upto_date true);;
      mret true
  end.

(** vstr__free_cache *)
Definition vstr__free_cache : M () :=
  b ← get_base;
  if cache_available b then
    vstr__cache_cbs 0 0 CACHE_FREE;; upd_base (b_set_iovec_upto_date false)
  else mret tt.
