(* ===== verification/Iter.v ===== *)
(** * Iterating over a range of a string (struct Vstr_iter and vstr_iter_*,
    include/vstr-inline.h), and the loops "do ... while (vstr_iter_fwd_nxt)"
    in which nearly every reading function of the library is written. *)
From Stdlib Require Import ZArith Lia ZifyBool.
From stdpp Require Import base tactics list numbers option gmap.
From S2P Require Import Prelude State Wp Ref Cache Core.

(** [it_node] is the node and the nodes after it, which is what its [next]
    pointers reach; [[]] is NULL. *)
Record Vstr_iter := mkIter {
  it_ptr : option pointer; it_len : Z; it_num : Z; it_node : list Vstr_node; it_remaining : Z }.

Definition vstr_iter_len (it : Vstr_iter) : Z := u64 (it_len it + it_remaining it).
Definition vstr_iter_pos (it : Vstr_iter) (pos len : Z) : Z := u64 (pos + u64 (len - vstr_iter_len it)).

(** [None]: FALSE was returned, and [iter->node] is NULL *)
Definition vstr_iter_fwd_beg (pos len : Z) : M (option Vstr_iter) :=
  b ← get_base;
  if negb (bool_decide (pos ≠ 0 ∧ ((pos ≤ b_len b ∧ vstr_sc_poslast pos len ≤ b_len b) ∨ len = 0)))
  then mret None
  else if decide (len = 0) then mret None
  else
    '(i, pos, num) ← vstr_base__pos pos true;
    b ← get_base;
    match drop i (b_nodes b) with
    | [] => undef
    | node :: next =>
      let pos := pos - 1 in
      let iter_len := Z.min (nd_len node - pos) len in
      p ← node_ptr node;
      mret (Some (mkIter ((λ p, ptr_add p pos) <$> p) iter_len num (node :: next) (len - iter_len)))
    end.

Definition vstr_iter_fwd_nxt (it : Vstr_iter) : M (bool * Vstr_iter) :=
  if decide (it_remaining it = 0)
  then mret (false, mkIter (it_ptr it) 0 (it_num it) [] (it_remaining it))
  else match tail (it_node it) with
  | [] => undef
  | node :: next =>
    let iter_len := Z.min (nd_len node) (it_remaining it) in
    p ← node_ptr node;
    mret (true, mkIter p iter_len (u32 (it_num it + 1)) (node :: next) (it_remaining it - iter_len))
  end.

(** iter->node->type == VSTR_TYPE_NODE_NON *)
Definition iter_non (it : Vstr_iter) : bool :=
  match it_node it with nd :: _ => bool_decide (nd_type nd = NODE_NON) | [] => false end.

(** iter->ptr[0] ... iter->ptr[iter->len - 1] *)
Definition iter_bytes (it : Vstr_iter) : M (list Z) :=
  match it_ptr it with Some p => mem_load p (it_len it) | None => undef end.

(** [it_ptr += n; it_len -= n] *)
Definition iter_advance (n : Z) (it : Vstr_iter) : Vstr_iter :=
  mkIter ((λ p, ptr_add p n) <$> it_ptr it) (it_len it - n) (it_num it) (it_node it) (it_remaining it).

Inductive iter_ern := ITER_END | ITER_DEF | ITER_NON.

Definition vstr_iter_fwd_chr (it : Vstr_iter) : M (Z * iter_ern * Vstr_iter) :=
  '(more, it) ← (if decide (it_len it = 0) then vstr_iter_fwd_nxt it else mret (true, it));
  if negb more then mret (0, ITER_END, it)
  else if iter_non it
  then mret (0, ITER_NON, mkIter (it_ptr it) (it_len it - 1) (it_num it) (it_node it) (it_remaining it))
  else
    bs ← iter_bytes it;
    c ← of_option (head bs);
    mret (c, ITER_DEF, iter_advance 1 it).

(** ** do { body } while (vstr_iter_fwd_nxt(iter)).  The body goes on with a
    new value of the variables of the loop, or returns from the function; the
    fuel is the number of nodes. *)
Inductive loop_next (A R : Type) := Next (a : A) | Return (r : R).
Arguments Next {A R}. Arguments Return {A R}.

Section do_while.
Context {A R : Type} (body : Vstr_iter → A → M (loop_next A R)).
Fixpoint iter_loop (fuel : nat) (it : Vstr_iter) (a : A) : M (loop_next A R) :=
  r ← body it a;
  match r with
  | Return x => mret (Return x)
  | Next a =>
    '(more, it) ← vstr_iter_fwd_nxt it;
    if negb (more : bool) then mret (Next a)
    else match fuel with O => undef | S fuel => iter_loop fuel it a end
  end.
Definition iter_do_while (it : Vstr_iter) (a : A) : M (loop_next A R) :=
  iter_loop (length (it_node it)) it a.
End do_while.

(** A loop that counts: what it returns from the inside is what it counted *)
Definition loop_value {A} (r : loop_next A A) : A := match r with Next a | Return a => a end.

Definition vstr_num (pos len : Z) : M Z :=
  b ← get_base;
  if decide (pos = 1 ∧ len = b_len b) then mret (b_num b)
  else
    iter ← vstr_iter_fwd_beg pos len;
    match iter with
    | None => mret 0
    | Some it =>
      r ← iter_do_while (R := Z) (λ it _, mret (Next (it_num it))) it 0;
      mret (u32 (u32 (match r with Next n | Return n => n end - it_num it) + 1))
    end.

(** ** Going backwards, which needs the I/O vector cache
    (vstr__base_scan_rev_beg and vstr__base_scan_rev_nxt) *)
Record scan_rev := mkRev {
  sr_len : Z; sr_num : Z; sr_type : node_type; sr_str : option pointer; sr_scan_len : Z }.

Definition vstr__base_scan_rev_beg (pos len : Z) : M (option scan_rev) :=
  b ← get_base;
  if decide (len = 0) then mret None
  else if negb (bool_decide (u64 (pos + len - 1) ≤ b_len b)) then mret None
  else
    let end_pos := u64 (pos + len - 1) in
    '(scan_beg, pos, _) ← vstr_base__pos pos true;
    '(scan_end, end_pos, num) ← vstr_base__pos end_pos false;
    nd ← node_at scan_end;
    p ← node_ptr nd;
    let '(pos, scan_len, len) :=
      if decide (scan_beg ≠ scan_end) then (0, end_pos, u64 (len - end_pos)) else (pos - 1, len, 0) in
    mret (Some (mkRev len num (nd_type nd) ((λ p, ptr_add p pos) <$> p) scan_len)).

(** Entry [num] (from 1) of the I/O vector *)
Definition vec_entry (num : Z) (vec : cache_data_iovec) : option (iovec * node_type) :=
  let i := Z.to_nat (cv_off vec + num - 1) in
  v ← cv_v vec !! i; t ← cv_t vec !! i; Some (v, t).

Definition vstr__base_scan_rev_nxt (sr : scan_rev) : M (option scan_rev) :=
  if decide (sr_len sr = 0) then mret None
  else
    let num := u32 (sr_num sr - 1) in
    if decide (num = 0) then mret None
    else
      b ← get_base;
      '(iov, type) ← of_option (vec ← c_vec (b_cache b); vec_entry num vec);
      let scan_len := Z.min (iov_len iov) (sr_len sr) in
      let pos := iov_len iov - scan_len in
      mret (Some (mkRev (sr_len sr - scan_len) num type
        (if decide (type = NODE_NON) then None else (λ p, ptr_add p pos) <$> iov_base iov) scan_len)).

Definition scan_bytes (sr : scan_rev) : M (list Z) :=
  match sr_str sr with Some p => mem_load p (sr_scan_len sr) | None => undef end.

Section rev_while.
Context {A R : Type} (body : scan_rev → A → M (loop_next A R)).
(** The fuel is the number of nodes before the current one. *)
Fixpoint scan_loop (fuel : nat) (sr : scan_rev) (a : A) : M (loop_next A R) :=
  r ← body sr a;
  match r with
  | Return x => mret (Return x)
  | Next a =>
    sr' ← vstr__base_scan_rev_nxt sr;
    match sr' with
    | None => mret (Next a)
    | Some sr' => match fuel with O => undef | S fuel => scan_loop fuel sr' a end
    end
  end.
Definition scan_do_while (sr : scan_rev) (a : A) : M (loop_next A R) :=
  scan_loop (Z.to_nat (sr_num sr)) sr a.
End rev_while.
