(* ===== verification/Sub.v ===== *)
(** * Substituting data (src/vstr_sub.c, and vstr__swap_node_X_X of src/vstr.c).

    vstr_sub_vstr, which adds from another string, is not here. *)
From Stdlib Require Import ZArith Lia ZifyBool.
From stdpp Require Import base tactics list numbers option gmap.
From S2P Require Import Prelude State Wp Ref Cache Core Add Del Iter.

(** ** In place: every node is a BUF node *)

(** A loop that writes over the characters: [write] puts what is due at a
    pointer into the node and moves on by the length. *)
Definition sub_over {A} (write : pointer → Z → A → M A) (pos len : Z) (a : A) : M bool :=
  iter ← vstr_iter_fwd_beg pos len;
  match iter with
  | None => mret false
  | Some it =>
    iter_do_while (R := ()) (λ it a,
      p ← of_option (it_ptr it);
      a ← write p (it_len it) a;
      mret (Next a)) it a;;
    vstr_cache_cb_sub pos len;;
    mret true
  end.

Definition vstr__sub_buf_fast (pos len : Z) (buf : pointer) : M bool :=
  sub_over (λ p tmp buf, mem_move p buf tmp;; mret (ptr_add buf tmp)) pos len buf.

(** ** The general way *)

(** How many characters of the range are not in BUF nodes *)
Fixpoint sub_count_loop (fuel : nat) (it : Vstr_iter) (buf_len sub_add_len : Z) : M Z :=
  let tmp := it_len it in
  nd ← of_option (head (it_node it));
  let sub_add_len := if decide (nd_type nd ≠ NODE_BUF) then u64 (sub_add_len + tmp) else sub_add_len in
  let buf_len := buf_len - tmp in
  if decide (buf_len = 0) then mret sub_add_len
  else
    '(more, it) ← vstr_iter_fwd_nxt it;
    if negb (more : bool) then mret sub_add_len
    else match fuel with O => undef | S fuel => sub_count_loop fuel it buf_len sub_add_len end.

(** The node of the iterator as it is now: the string may have changed. *)
Definition iter_refresh (it : Vstr_iter) : M Vstr_iter :=
  match it_node it with
  | [] => mret it
  | nd :: _ =>
    b ← get_base;
    i ← of_option (node_index (nd_addr nd) (b_nodes b));
    mret (mkIter (it_ptr it) (it_len it) (it_num it) (drop i (b_nodes b)) (it_remaining it))
  end.

(** Remove the nodes that are not BUF nodes; the length left comes back. *)
Fixpoint sub_del_loop (fuel : nat) (it : Vstr_iter) (pos len : Z) : M Z :=
  let tmp_len := it_len it in
  nd ← of_option (head (it_node it));
  '(nxt_iter, it) ← vstr_iter_fwd_nxt it;
  len ← (if decide (nd_type nd ≠ NODE_BUF) then vstr_del pos tmp_len;; mret (len - tmp_len) else mret len);
  let pos := u64 (pos + tmp_len) in
  if negb (nxt_iter : bool) then mret len
  else match fuel with
  | O => undef
  | S fuel => it ← iter_refresh it; sub_del_loop fuel it pos len
  end.

Definition vstr__sub_buf_slow (pos len : Z) (buf : pointer) (buf_len : Z) : M bool :=
  let '(del_len, add_len, len) := if decide (buf_len < len) then (len - buf_len, 0, buf_len) else (0, buf_len - len, len) in
  iter ← vstr_iter_fwd_beg pos len;
  match iter with
  | None => mret false
  | Some it =>
    sub_add_len ← sub_count_loop (length (it_node it)) it buf_len 0;
    if decide (sub_add_len = buf_len ∨ sub_add_len = len) then
      ok ← vstr_add_buf (u64 (pos - 1)) buf buf_len;
      if negb ok then mret false else vstr_del (u64 (pos + buf_len)) (u64 (len + del_len))
    else
      let add_len := u64 (add_len + sub_add_len) in
      c ← get_conf;
      ok ← (if decide (add_len ≠ 0)
            then cntl_conf_set_num_range_spare NODE_BUF (u32 (add_len / buf_sz c + 2)) UINT_MAX else mret true);
      if negb (ok : bool) then mret false
      else
        len ← (if decide (sub_add_len ≠ 0) then
                 iter ← vstr_iter_fwd_beg pos len;
                 match iter with
                 | None => undef
                 | Some it => sub_del_loop (length (it_node it)) it pos len
                 end
               else mret len);
        vstr__sub_buf_fast pos len buf;;
        let real_pos := u64 (pos + len) in
        let buf_len := buf_len - len in
        let buf := ptr_add buf len in
        when (bool_decide (del_len ≠ 0)) (vstr_del real_pos del_len;; mret tt);;
        when (bool_decide (buf_len ≠ 0)) (vstr_add_buf (u64 (real_pos - 1)) buf buf_len;; mret tt);;
        mret true
  end.

(** !base->node_non_used && !base->node_ptr_used && !base->node_ref_used *)
Definition only_buf (b : Vstr_base) : bool :=
  negb (node_non_used b) && negb (node_ptr_used b) && negb (node_ref_used b).

Definition vstr_sub_buf (pos len : Z) (buf : pointer) (buf_len : Z) : M bool :=
  if decide (len = 0) then vstr_add_buf (u64 (pos - 1)) buf buf_len
  else if decide (buf_len = 0) then vstr_del pos len
  else
    b ← get_base;
    if decide (len = buf_len ∧ only_buf b = true) then vstr__sub_buf_fast pos len buf
    else vstr__sub_buf_slow pos len buf buf_len.

(** Add, then delete what was there *)
Definition add_then_del (add : M bool) (pos add_len len : Z) : M bool :=
  ok ← add;
  if negb (ok : bool) then mret false else vstr_del (u64 (pos + add_len)) len.

Definition vstr_sub_non (pos len non_len : Z) : M bool :=
  add_then_del (vstr_add_non (u64 (pos - 1)) non_len) pos non_len len.

Definition vstr_sub_rep_chr (pos len chr : Z) (rep_len : Z) (chr_at : pointer) : M bool :=
  if decide (len = 0 ∧ rep_len = 0) then mret true
  else if decide (rep_len = 1) then mem_store chr_at [chr];; vstr_sub_buf pos len chr_at 1
  else
    b ← get_base;
    if decide (len = rep_len ∧ only_buf b = true) then
      sub_over (λ p tmp _, mem_store p (zrep tmp chr)) pos len tt
    else add_then_del (vstr_add_rep_chr (u64 (pos - 1)) chr rep_len) pos rep_len len.

(** ** One whole node by a PTR or a REF node *)

(** VSTR__ITER_EQ_ALL_NODE *)
Definition iter_eq_all_node (it : Vstr_iter) : M bool :=
  b ← get_base;
  nd ← of_option (head (it_node it));
  p ← node_ptr nd;
  let used := if decide (nd_addr <$> head (b_nodes b) = Some (nd_addr nd)) then b_used b else 0 in
  mret (bool_decide (it_remaining it = 0 ∧ it_len it = nd_len nd - used ∧ it_ptr it = (λ q, ptr_add q used) <$> p)).

(** The node of the iterator, in the string *)
Definition iter_upd_node (it : Vstr_iter) (f : Vstr_node → Vstr_node) : M () :=
  nd ← of_option (head (it_node it));
  b ← get_base;
  i ← of_option (node_index (nd_addr nd) (b_nodes b));
  upd_node i f.

(** vstr__swap_node_X_X: [node] takes the place of the node at [pos] *)
Definition vstr__swap_node_X_X (pos : Z) (node : Vstr_node) : M () :=
  '(i, _, num) ← vstr__base_ptr_pos pos;
  old_scan ← node_at i;
  vstr__relink_nodes (nd_type old_scan) [old_scan] 1;;
  upd_base (λ b, b_set_nodes (<[i := node]> (b_nodes b)) b);;
  when (bool_decide (i = 0%nat)) (upd_base (b_set_used 0));;
  b ← get_base;
  match cache_get_pos b with
  | Some data =>
    when (bool_decide (cp_node data = Some (nd_addr old_scan)))
      (upd_cache (c_set_pos (Some (mkPos (cp_pos data) (cp_num data)
         (if decide (nd_len old_scan ≤ nd_len node) then Some (nd_addr node) else None)))))
  | None => mret tt
  end;;
  upd_base (b_set_flag (nd_type node) true);;
  vstr__cache_iovec_reset_node node num.

(** The node is replaced by one with [body] of type [type] and [new_len]
    characters; [drop_old] drops what the old node held. *)
Definition sub_node (it : Vstr_iter) (type : node_type) (body : node_body) (drop_old : M ()) (pos len new_len : Z) : M bool :=
  nd ← of_option (head (it_node it));
  addr ← (if decide (nd_type nd = type) then mret (Some (nd_addr nd))
          else
            ok ← cntl_conf_set_num_range_spare type 1 UINT_MAX;
            if negb ok then mret None else a ← pop_spare type; mret (Some a));
  match addr with
  | None => mret false
  | Some a =>
    len ← (if decide (new_len < len) then
             let diff_len := len - new_len in
             iter_upd_node it (λ nd, nd_set_len (nd_len nd - diff_len) nd);;
             upd_base (λ b, b_set_len (b_len b - diff_len) b);;
             vstr__cache_del pos diff_len;;
             mret (len - diff_len)
           else mret len);
    drop_old;;
    let node := mkNode a len body in
    (if decide (nd_type nd = type)
     then iter_upd_node it (λ _, node);; vstr__cache_iovec_reset_node node (it_num it)
     else vstr__swap_node_X_X pos node);;
    vstr_cache_cb_sub pos new_len;;
    when (bool_decide (len < new_len)) (
      let diff_len := new_len - len in
      let node := nd_set_len (u28 (len + diff_len)) node in
      b ← get_base;
      i ← of_option (node_index a (b_nodes b));
      upd_node i (λ _, node);;
      upd_base (λ b, b_set_len (u64 (b_len b + diff_len)) b);;
      vstr__cache_iovec_reset_node node (it_num it);;
      vstr__cache_add pos diff_len);;
    mret true
  end.

Definition vstr_sub_ptr (pos len : Z) (ptr : pointer) (ptr_len : Z) : M bool :=
  let simple := add_then_del (vstr_add_ptr (u64 (pos - 1)) ptr ptr_len) pos ptr_len len in
  if decide (len = 0 ∨ ptr_len = 0) then simple
  else
    iter ← vstr_iter_fwd_beg pos len;
    match iter with
    | None => mret false
    | Some it =>
      all ← (if decide (ptr_len ≤ VSTR_MAX_NODE_ALL) then iter_eq_all_node it else mret false);
      if (all : bool) then
        let old_ref := match nd_body <$> head (it_node it) with Some (Node_ref r _) => Some r | _ => None end in
        sub_node it NODE_PTR (Node_ptr ptr) (vstr_ref_del old_ref) pos len ptr_len
      else simple
    end.

Definition vstr_sub_ref (pos len : Z) (ref : positive) (off ref_len : Z) : M bool :=
  let simple := add_then_del (vstr_add_ref (u64 (pos - 1)) ref off ref_len) pos ref_len len in
  if decide (len = 0 ∨ ref_len = 0) then simple
  else
    iter ← vstr_iter_fwd_beg pos len;
    match iter with
    | None => mret false
    | Some it =>
      all ← (if decide (ref_len ≤ VSTR_MAX_NODE_ALL) then iter_eq_all_node it else mret false);
      if (all : bool) then
        let old_ref := match nd_body <$> head (it_node it) with Some (Node_ref r _) => Some r | _ => None end in
        sub_node it NODE_REF (Node_ref ref (u32 off)) (vstr_ref_add ref;; vstr_ref_del old_ref) pos len ref_len
      else simple
    end.
