(* ===== verification/NoCstr.v ===== *)
(** * What the operations on the data of a string leave as it is.

    [leaves] says of a program that it keeps a property of the string that
    depends on the kinds of nodes and the cached C string ([BaseProp]); it is
    proved by going through the text of the program.  No C string gets cached:
    only the functions that export a C string ([Export]) and the one that
    copies it from another string put a reference in that cache.  And a string
    of BUF nodes stays one as long as only BUF nodes are added. *)
From Stdlib Require Import ZArith Lia ZifyBool.
From stdpp Require Import base tactics list numbers option gmap.
From S2P Require Import Prelude State Wp Ref Cache Core Base Add Del Iter Sub.

(** No C string is cached. *)
Definition no_cstr_ref (b : Vstr_base) : Prop := ∀ data, c_cstr (b_cache b) = Some data → cc_ref data = None.

Class BaseProp := {
  holds : Vstr_base → Prop;
  holds_same b b' : (∀ t, t ≠ NODE_BUF → node_used t b' = true → node_used t b = true) → c_cstr (b_cache b') = c_cstr (b_cache b) → holds b → holds b';
  holds_cstr b b0 d d' : holds b → holds b0 → c_cstr (b_cache b) = Some d → (cc_ref d = None → d' = None ∨ d' = Some d) →
    holds (b_set_cache (c_set_cstr d' (b_cache b0)) b0) }.
#[export] Instance no_cstr_prop : BaseProp.
Proof.
  refine {| holds := no_cstr_ref |}.
  - intros b b' _ E H d Hd. apply H. by rewrite <- E.
  - intros [] b0 d d' H _ E Hd data. destruct b0 as [? ? ? ? ? ? ? ? ? ? ? ? []]. cbn. intros ->. specialize (H _ E). destruct (Hd H) as [|[= ->]]; [done|exact H].
Defined.
(** Every node is a BUF node. *)
Definition only_buf_prop : BaseProp.
Proof.
  refine {| holds := λ b, only_buf b = true |}.
  - unfold only_buf. intros b b' E _ H. apply andb_true_iff in H as [[H1 H2]%andb_true_iff H3].
    pose proof (E NODE_NON ltac:(done)) as E1. pose proof (E NODE_PTR ltac:(done)) as E2. pose proof (E NODE_REF ltac:(done)) as E3.
    cbn in E1, E2, E3. apply negb_true_iff in H1, H2, H3. rewrite H1 in E1. rewrite H2 in E2. rewrite H3 in E3.
    destruct (node_non_used b'), (node_ptr_used b'), (node_ref_used b'); by auto.
  - intros b [] d d' _ H _ _. exact H.
Defined.

Definition leaves {BP : BaseProp} {A} (m : M A) : Prop :=
  ∀ s a s', m s = Some (a, s') → holds (s_base s) → holds (s_base s').

Section leaves.
Context {BP : BaseProp} {A B : Type}.

Lemma leaves_ret (a : A) : leaves (mret a).
Proof. by intros s x s' [= <- <-]. Qed.
Lemma leaves_bind (m : M A) (f : A → M B) : leaves m → (∀ a, leaves (f a)) → leaves (m ≫= f).
Proof.
  intros Hm Hf s b s' E. unfold mbind, M_bind in E. destruct (m s) as [[a s1]|] eqn:E1; [|done].
  intros HP. by eapply Hf; [|eapply Hm].
Qed.
Lemma leaves_get_base (f : Vstr_base → M B) : (∀ b, holds b → leaves (f b)) → leaves (get_base ≫= f).
Proof. intros Hf s b s' E HP. exact (Hf (s_base s) HP s b s' E HP). Qed.
Lemma leaves_gets (f : St → A) : leaves (gets f).
Proof. by intros s a s' [= <- <-]. Qed.
Lemma leaves_undef : leaves (@undef A).
Proof. by intros s a s' [=]. Qed.
Lemma leaves_of_option (o : option A) : leaves (of_option o).
Proof. intros s a s'. destruct o; [by intros [= <- <-]|done]. Qed.
Lemma leaves_upd_base f : (∀ b, holds b → holds (f b)) → leaves (upd_base f).
Proof. intros Hf s a s' [= <- <-]. apply Hf. Qed.
Lemma leaves_upd_conf f : leaves (upd_conf f).
Proof. by intros s a s' [= <- <-]. Qed.
Lemma leaves_upd_heap f : leaves (upd_heap f).
Proof. by intros s a s' [= <- <-]. Qed.
Lemma leaves_malloc : leaves malloc.
Proof. intros [[me r n [|[] ma]] c b] a s' [= <- <-]; done. Qed.
End leaves.
Lemma leaves_when {BP : BaseProp} c (m : M ()) : leaves m → leaves (when c m).
Proof. destruct c; [done|]. intros _. apply leaves_ret. Qed.

(** Members of the string but the C string cache *)
Ltac leaves_base := let b := fresh "b" in intros b; apply holds_same; destruct b as [? ? ? ? ? ? ? ? ? ? ? ? []]; [by intros []|reflexivity].
Create HintDb leaves.
Ltac leaves_step :=
  match goal with
  | |- leaves (mret _) => apply leaves_ret
  | |- leaves (get_base ≫= _) => apply leaves_get_base; intros
  | |- leaves (_ ≫= _) => apply leaves_bind; [|intros]
  | |- leaves (when _ _) => apply leaves_when
  | |- leaves undef => apply leaves_undef
  | |- leaves (gets _) => apply leaves_gets
  | |- leaves get_conf => apply leaves_gets
  | |- leaves get_heap => apply leaves_gets
  | |- leaves get_base => apply leaves_gets
  | |- leaves (of_option _) => apply leaves_of_option
  | |- leaves malloc => apply leaves_malloc
  | |- leaves (upd_conf _) => apply leaves_upd_conf
  | |- leaves (upd_heap _) => apply leaves_upd_heap
  | |- leaves (upd_base _) => apply leaves_upd_base; leaves_base
  | |- leaves (match ?x with _ => _ end) => destruct x eqn:?
  | |- leaves _ => solve [auto with leaves]
  end.
Ltac leaves := cbv zeta; repeat (cbv beta zeta; leaves_step).

Section core.
Context {BP : BaseProp}.
Lemma leaves_node_at i : leaves (node_at i).
Proof. unfold node_at. leaves. Qed.
Lemma leaves_upd_cache f : (∀ c, c_cstr (f c) = c_cstr c) → leaves (upd_cache f).
Proof.
  intros Hf. unfold upd_cache. apply leaves_upd_base. intros b. apply holds_same; [by destruct b; intros []|].
  rewrite <- (Hf (b_cache b)). by destruct b.
Qed.
Lemma leaves_upd_vec f : leaves (upd_vec f).
Proof. unfold upd_vec. leaves. apply leaves_upd_cache. by intros []. Qed.
Lemma leaves_upd_node i f : leaves (upd_node i f).
Proof. unfold upd_node. leaves. apply leaves_node_at. Qed.
Lemma leaves_mem_load p n : leaves (mem_load p n).
Proof. unfold mem_load. leaves. Qed.
Lemma leaves_mem_store p bs : leaves (mem_store p bs).
Proof. unfold mem_store. leaves. Qed.
Lemma leaves_mem_move d p n : leaves (mem_move d p n).
Proof. unfold mem_move. leaves; [apply leaves_mem_load|apply leaves_mem_store]. Qed.
End core.
#[export] Hint Resolve leaves_node_at leaves_upd_vec leaves_upd_node leaves_mem_load leaves_mem_store leaves_mem_move : leaves.

Lemma leaves_ref_at {BP : BaseProp} r : leaves (ref_at r).
Proof. unfold ref_at. leaves. Qed.
#[export] Hint Resolve leaves_ref_at : leaves.
Lemma leaves_ref_put {BP : BaseProp} r v : leaves (ref_put r v).
Proof. unfold ref_put. leaves. Qed.
#[export] Hint Resolve leaves_ref_put : leaves.
Lemma leaves_vstr_ref_add {BP : BaseProp} r : leaves (vstr_ref_add r).
Proof. unfold vstr_ref_add. leaves. Qed.
Lemma leaves_vstr_ref_del {BP : BaseProp} r : leaves (vstr_ref_del r).
Proof. unfold vstr_ref_del, vstr_ref_cb, free_mem, free_ref. leaves. Qed.
#[export] Hint Resolve leaves_vstr_ref_add leaves_vstr_ref_del : leaves.

(** ** Caches *)
Lemma leaves_node_ptr {BP : BaseProp} nd : leaves (node_ptr nd).
Proof. unfold node_ptr. leaves. Qed.
#[export] Hint Resolve leaves_node_ptr : leaves.
Lemma leaves_cache_cbs {BP : BaseProp} pos len type : leaves (vstr__cache_cbs pos len type).
Proof.
  unfold vstr__cache_cbs. leaves.
  1,2: apply leaves_upd_cache; by intros [].
  apply leaves_upd_base. intros b0 Hb0.
  match goal with H : holds ?b, E : c_cstr (b_cache ?b) = Some _ |- _ => eapply (holds_cstr b b0); [exact H|exact Hb0|exact E|] end.
  intros Hd. unfold vstr__cache_cstr_cb. destruct (decide (type = CACHE_FREE)); [by left|]. rewrite decide_True by auto. by right.
Qed.
#[export] Hint Resolve leaves_cache_cbs : leaves.
Lemma leaves_cache_run {BP : BaseProp} pos len type : leaves (vstr__cache_run pos len type).
Proof. unfold vstr__cache_run. leaves. Qed.
Lemma leaves_cache_add {BP : BaseProp} pos len : leaves (vstr__cache_add pos len).
Proof. apply leaves_cache_run. Qed.
Lemma leaves_cache_del {BP : BaseProp} pos len : leaves (vstr__cache_del pos len).
Proof. apply leaves_cache_run. Qed.
Lemma leaves_cache_pos {BP : BaseProp} a pos num : leaves (vstr_cache__pos a pos num).
Proof. unfold vstr_cache__pos. leaves. apply leaves_upd_cache. by intros []. Qed.
#[export] Hint Resolve leaves_cache_add leaves_cache_del leaves_cache_pos : leaves.
Lemma leaves_iovec_reset_node {BP : BaseProp} nd n : leaves (vstr__cache_iovec_reset_node nd n).
Proof. unfold vstr__cache_iovec_reset_node. leaves. Qed.
Lemma leaves_iovec_add_node_end {BP : BaseProp} n l : leaves (vstr__cache_iovec_add_node_end n l).
Proof. unfold vstr__cache_iovec_add_node_end. leaves. Qed.
Lemma leaves_iovec_maybe_add {BP : BaseProp} nd e l : leaves (vstr__cache_iovec_maybe_add nd e l).
Proof. unfold vstr__cache_iovec_maybe_add, vstr__cache_iovec_add_end, vstr__cache_iovec_add_beg. leaves. Qed.
Lemma leaves_iovec_reset {BP : BaseProp} : leaves vstr__cache_iovec_reset.
Proof. unfold vstr__cache_iovec_reset. leaves. Qed.
Lemma leaves_iovec_del_node_end {BP : BaseProp} n l : leaves (vstr__cache_iovec_del_node_end n l).
Proof. unfold vstr__cache_iovec_del_node_end. leaves. Qed.
Lemma leaves_iovec_del_node_beg {BP : BaseProp} nd n l : leaves (vstr__cache_iovec_del_node_beg nd n l).
Proof. unfold vstr__cache_iovec_del_node_beg. leaves. Qed.
Lemma leaves_iovec_del_beg {BP : BaseProp} n : leaves (vstr__cache_iovec_del_beg n).
Proof. unfold vstr__cache_iovec_del_beg. leaves. Qed.
#[export] Hint Resolve leaves_iovec_reset_node leaves_iovec_add_node_end leaves_iovec_maybe_add leaves_iovec_reset
  leaves_iovec_del_node_end leaves_iovec_del_node_beg leaves_iovec_del_beg : leaves.

(** ** Nodes *)
Lemma leaves_make_spare_nodes {BP : BaseProp} t n : leaves (vstr_make_spare_nodes t n).
Proof. induction n; cbn [vstr_make_spare_nodes]; unfold vstr__make_spare_node; leaves. Qed.
Lemma leaves_free_spare_nodes {BP : BaseProp} t n : leaves (vstr_free_spare_nodes t n).
Proof. induction n; cbn [vstr_free_spare_nodes]; unfold vstr__free_spare_node; leaves. Qed.
#[export] Hint Resolve leaves_make_spare_nodes leaves_free_spare_nodes : leaves.
Lemma leaves_cntl_spare {BP : BaseProp} t v : leaves (cntl_conf_set_num_spare t v).
Proof. unfold cntl_conf_set_num_spare. leaves. Qed.
#[export] Hint Resolve leaves_cntl_spare : leaves.
Lemma leaves_cntl_range_spare {BP : BaseProp} t lo hi : leaves (cntl_conf_set_num_range_spare t lo hi).
Proof. unfold cntl_conf_set_num_range_spare. leaves. Qed.
Lemma leaves_pop_spare {BP : BaseProp} t : leaves (pop_spare t).
Proof. unfold pop_spare. leaves. Qed.
Lemma leaves_relink_nodes {BP : BaseProp} t run n : leaves (vstr__relink_nodes t run n).
Proof. unfold vstr__relink_nodes. leaves. Qed.
Lemma leaves_base_pos {BP : BaseProp} pos cache : leaves (vstr_base__pos pos cache).
Proof. unfold vstr_base__pos. leaves. Qed.
Lemma leaves_zero_used {BP : BaseProp} : leaves vstr__base_zero_used.
Proof. unfold vstr__base_zero_used. leaves. Qed.
#[export] Hint Resolve leaves_cntl_range_spare leaves_pop_spare leaves_relink_nodes leaves_base_pos leaves_zero_used : leaves.
Lemma leaves_split_node {BP : BaseProp} i pos : leaves (vstr__base_split_node i pos).
Proof. unfold vstr__base_split_node. leaves. Qed.
#[export] Hint Resolve leaves_split_node : leaves.

(** ** Adding *)
Lemma leaves_add_setup_pos {BP : BaseProp} pos : leaves (vstr__add_setup_pos pos).
Proof. unfold vstr__add_setup_pos. leaves. Qed.
#[export] Hint Resolve leaves_add_setup_pos : leaves.

(** What differs between the additions only touches memory and references, and
    the kind of the new nodes. *)
Class LeavesOp {BP : BaseProp} {C} (op : add_op C) : Prop := {
  leaves_type b : holds b → holds (b_set_flag (op_type op) true b);
  leaves_extend c nd n : leaves (op_extend op c nd n);
  leaves_fill c a n : leaves (op_fill op c a n) }.
Section add.
Context {BP : BaseProp} {C : Type} (op : add_op C) `{!LeavesOp op}.
Lemma leaves_add_beg pos len : leaves (VSTR__ADD_BEG op pos len).
Proof. unfold VSTR__ADD_BEG. leaves. Qed.
Lemma leaves_add_extend c i p num len : leaves (vstr__add_extend op c i p num len).
Proof. unfold vstr__add_extend. leaves. apply leaves_extend. Qed.
Lemma leaves_add_loop sps : ∀ c e len, leaves (vstr__add_loop op c e len sps).
Proof.
  induction sps; intros; cbn [vstr__add_loop]; leaves; try apply leaves_fill.
  apply leaves_upd_base. intros b Hb. apply (leaves_type (op := op)) in Hb. revert Hb. generalize (op_type op) as t. intros t.
  apply holds_same; by destruct b, t; try intros [].
Qed.
Lemma leaves_add_mid_end c scan pos len op' ol : leaves (VSTR__ADD_MID_END op c scan pos len op' ol).
Proof. unfold VSTR__ADD_MID_END. leaves. apply leaves_add_loop. Qed.
Lemma leaves_add c pos len : leaves (vstr__add op c pos len).
Proof. unfold vstr__add. leaves; [apply leaves_add_beg|apply leaves_add_extend|apply leaves_add_mid_end..]. Qed.
End add.

#[export] Instance leaves_add_buf_op {BP : BaseProp} : LeavesOp add_buf_op.
Proof. split; [|intros; cbn; leaves..]. intros b. apply holds_same; [|by destruct b]. intros t Ht; by destruct b, t. Qed.
#[export] Instance leaves_add_rep_chr_op {BP : BaseProp} : LeavesOp add_rep_chr_op.
Proof. split; [|intros; cbn; leaves..]. intros b. apply holds_same; [|by destruct b]. intros t Ht; by destruct b, t. Qed.
#[export] Instance leaves_add_ptr_op : LeavesOp add_ptr_op.
Proof. split; [|intros; cbn; leaves..]. intros b Hb. by destruct b as [? ? ? ? ? ? ? ? ? ? ? ? []]. Qed.
#[export] Instance leaves_add_non_op : LeavesOp add_non_op.
Proof. split; [|intros; cbn; leaves..]. intros b Hb. by destruct b as [? ? ? ? ? ? ? ? ? ? ? ? []]. Qed.
#[export] Instance leaves_add_ref_op r : LeavesOp (add_ref_op r).
Proof. split; [|intros; cbn; leaves..]. intros b Hb. by destruct b as [? ? ? ? ? ? ? ? ? ? ? ? []]. Qed.
#[export] Hint Extern 1 (leaves (vstr__add _ _ _ _)) => apply leaves_add; apply _ : leaves.

Lemma leaves_add_inline {BP : BaseProp} write slow pos len :
  (∀ nd, leaves (write nd)) → leaves slow → leaves (vstr__add_inline write slow pos len).
Proof. intros. unfold vstr__add_inline. leaves. Qed.
Lemma leaves_vstr_add_buf {BP : BaseProp} pos p len : leaves (vstr_add_buf pos p len).
Proof. unfold vstr_add_buf. apply leaves_add_inline; [auto with leaves|]. unfold vstr_extern_inline_add_buf. leaves. Qed.
Lemma leaves_vstr_add_rep_chr {BP : BaseProp} pos chr len : leaves (vstr_add_rep_chr pos chr len).
Proof. unfold vstr_add_rep_chr. apply leaves_add_inline; [auto with leaves|]. unfold vstr_extern_inline_add_rep_chr. leaves. Qed.
Lemma leaves_vstr_add_ptr pos p len : leaves (vstr_add_ptr pos p len).
Proof. unfold vstr_add_ptr. leaves. Qed.
Lemma leaves_vstr_add_non pos len : leaves (vstr_add_non pos len).
Proof. unfold vstr_add_non. leaves. Qed.
Lemma leaves_vstr_add_ref pos r off len : leaves (vstr_add_ref pos r off len).
Proof. unfold vstr_add_ref. leaves. Qed.
#[export] Hint Resolve leaves_vstr_add_buf leaves_vstr_add_rep_chr leaves_vstr_add_ptr leaves_vstr_add_non leaves_vstr_add_ref : leaves.

(** ** Deleting *)
Lemma leaves_del_node {BP : BaseProp} nd : leaves (vstr__del_node nd).
Proof. unfold vstr__del_node. leaves. Qed.
Lemma leaves_del_beg_cleanup {BP : BaseProp} n u : leaves (vstr__del_beg_cleanup n u).
Proof. unfold vstr__del_beg_cleanup. leaves. Qed.
#[export] Hint Resolve leaves_del_node leaves_del_beg_cleanup : leaves.
Lemma leaves_del_beg_restart {BP : BaseProp} n u : leaves (del_beg_restart n u).
Proof. unfold del_beg_restart. leaves. Qed.
#[export] Hint Resolve leaves_del_beg_restart : leaves.
Lemma leaves_del_all_loop {BP : BaseProp} l : ∀ n t, leaves (vstr__del_all_loop l n t).
Proof. induction l; intros; cbn [vstr__del_all_loop]; leaves. Qed.
#[export] Hint Resolve leaves_del_all_loop : leaves.
Lemma leaves_del_all {BP : BaseProp} : leaves vstr__del_all.
Proof. unfold vstr__del_all. leaves. Qed.
Lemma leaves_del_beg_loop {BP : BaseProp} l : ∀ n t len, leaves (vstr__del_beg_loop l n t len).
Proof. induction l; intros; cbn [vstr__del_beg_loop]; leaves. Qed.
Lemma leaves_del_end_loop {BP : BaseProp} l : ∀ len run t n, leaves (vstr__del_end_loop l len run t n).
Proof. induction l; intros; cbn [vstr__del_end_loop]; leaves. Qed.
#[export] Hint Resolve leaves_del_all leaves_del_beg_loop leaves_del_end_loop : leaves.
Lemma leaves_del_beg {BP : BaseProp} len : leaves (vstr__del_beg len).
Proof. unfold vstr__del_beg. leaves. Qed.
Lemma leaves_del_fix_last_node {BP : BaseProp} i n len : leaves (vstr__del_fix_last_node i n len).
Proof. unfold vstr__del_fix_last_node. leaves. Qed.
Lemma leaves_del_middle {BP : BaseProp} i n p len : leaves (vstr__del_middle i n p len).
Proof. unfold vstr__del_middle. leaves. Qed.
#[export] Hint Resolve leaves_del_beg leaves_del_fix_last_node leaves_del_middle : leaves.
Lemma leaves_inline_del {BP : BaseProp} pos len : leaves (vstr_extern_inline_del pos len).
Proof. unfold vstr_extern_inline_del. leaves. Qed.
(** The fast paths look at the cached C string, and there is none. *)
Lemma no_cstr_get b data : no_cstr_ref b → cache_get_cstr b = Some data → cc_ref data = None.
Proof. intros H. unfold cache_get_cstr. destruct (cache_available b); [|done]. apply H. Qed.
Lemma leaves_upd_cstr_cache {BP : BaseProp} f : leaves (upd_cstr_cache f).
Proof.
  unfold upd_cstr_cache. apply leaves_get_base. intros b Hb. destruct (cache_get_cstr b) as [d|] eqn:E; [|apply leaves_ret].
  case_decide as Hd; [|apply leaves_ret]. destruct Hd as [Hd _]. apply leaves_upd_base. intros b0 Hb0.
  eapply (holds_cstr b b0 d); [done|done| |done]. unfold cache_get_cstr in E. by destruct (cache_available b).
Qed.
Lemma leaves_cache_pos_forget {BP : BaseProp} : leaves cache_pos_forget.
Proof. unfold cache_pos_forget. leaves. apply leaves_upd_cache. by intros []. Qed.
#[export] Hint Resolve leaves_inline_del leaves_upd_cstr_cache leaves_cache_pos_forget : leaves.
Lemma leaves_vstr_del {BP : BaseProp} pos len : leaves (vstr_del pos len).
Proof. unfold vstr_del, vstr_del_inline_beg, vstr_del_inline_end. leaves. Qed.
#[export] Hint Resolve leaves_vstr_del : leaves.

(** ** Overwriting in place *)
Section over.
Context {BP : BaseProp}.
Lemma leaves_iter_fwd_beg pos len : leaves (vstr_iter_fwd_beg pos len).
Proof. unfold vstr_iter_fwd_beg. leaves. Qed.
Lemma leaves_iter_fwd_nxt it : leaves (vstr_iter_fwd_nxt it).
Proof. unfold vstr_iter_fwd_nxt. leaves. Qed.
Lemma leaves_iter_loop {A R} (body : Vstr_iter → A → M (loop_next A R)) fuel : (∀ it a, leaves (body it a)) →
  ∀ it a, leaves (iter_loop body fuel it a).
Proof. intros Hb. induction fuel; intros; cbn [iter_loop]; leaves; by apply leaves_iter_fwd_nxt || apply Hb. Qed.
Lemma leaves_sub_over {A} (write : pointer → Z → A → M A) pos len a : (∀ p n a, leaves (write p n a)) → leaves (sub_over write pos len a).
Proof.
  intros Hw. unfold sub_over, iter_do_while. leaves; [apply leaves_iter_fwd_beg| |apply leaves_cache_run].
  apply leaves_iter_loop. intros. leaves.
Qed.
Lemma leaves_sub_buf_fast pos len buf : leaves (vstr__sub_buf_fast pos len buf).
Proof. apply leaves_sub_over. intros. leaves. Qed.
End over.
