(* ===== verification/Inv.v ===== *)
(** * The invariant of a string and its configuration, and how the primitive
    state changes keep it. *)
From Stdlib Require Import ZArith Lia ZifyBool.
From stdpp Require Import base tactics list numbers option gmap.
From S2P Require Import Prelude State Wp Ref Cache Core.

(** ** Nodes *)

(** The memory a node points to outside the buffer it may own *)
Definition node_ext (rs : gmap positive Vstr_ref) (nd : Vstr_node) : option pointer :=
  match nd_body nd with
  | Node_ptr p => Some p
  | Node_ref r off => (λ ref, ptr_add (r_ptr ref) off) <$> rs !! r
  | _ => None
  end.

Definition node_ref_of (nd : Vstr_node) : option positive :=
  match nd_body nd with Node_ref r _ => Some r | _ => None end.

Definition buf_ok (m : memory) (bsz : Z) (a : positive) : Prop :=
  ∃ blk, m !! a = Some blk ∧ zlen blk = bsz.

Definition body_ok (h : heap) (bsz : Z) (a : positive) (len : Z) (body : node_body) : Prop :=
  match body with
  | Node_buf => len ≤ bsz ∧ buf_ok (h_mem h) bsz a
  | Node_non => True
  | Node_ptr p => is_Some (load (h_mem h) p len)
  | Node_ref r off => 0 ≤ off ∧ off + len ≤ UINT_MAX ∧
      ∃ ref, h_refs h !! r = Some ref ∧ is_Some (load (h_mem h) (ptr_add (r_ptr ref) off) len)
  end.
Definition node_ok (h : heap) (bsz : Z) (nd : Vstr_node) : Prop :=
  0 < nd_len nd ≤ VSTR_MAX_NODE_ALL ∧ body_ok h bsz (nd_addr nd) (nd_len nd) (nd_body nd).

(** How often the nodes refer to a reference *)
Fixpoint ref_count (r : positive) (ns : list Vstr_node) : Z :=
  match ns with
  | [] => 0
  | nd :: ns => (if decide (node_ref_of nd = Some r) then 1 else 0) + ref_count r ns
  end.

(** The blocks that go when the last reference is given up *)
Definition ref_frees (r : positive) (ref : Vstr_ref) (blk : positive) : Prop :=
  match r_func ref with
  | vstr_ref_cb_free_nothing => False
  | vstr_ref_cb_free_ref => blk = r
  | vstr_ref_cb_free_ptr => blk = p_blk (r_ptr ref)
  | vstr_ref_cb_free_ptr_ref => blk = p_blk (r_ptr ref) ∨ blk = r
  end.
Definition ref_freeable (m : memory) (ref : Vstr_ref) : Prop :=
  match r_func ref with
  | vstr_ref_cb_free_ptr | vstr_ref_cb_free_ptr_ref =>
      p_off (r_ptr ref) = 0 ∧ is_Some (m !! p_blk (r_ptr ref))
  | _ => True
  end.

(** ** The heap and the configuration around a list of nodes *)
Definition spares (c : Vstr_conf) : list positive :=
  sp_nodes (spare_buf c) ++ sp_nodes (spare_non c) ++ sp_nodes (spare_ptr c) ++ sp_nodes (spare_ref c).
Definition own (c : Vstr_conf) (ns : list Vstr_node) : list positive :=
  (nd_addr <$> ns) ++ spares c.

(** ** The rest of the program

    A string shares the heap with other strings, configurations and data of
    the caller.  What the invariant of a string knows of them: the blocks they
    read with the bytes in them, the addresses of their nodes and spare nodes,
    and the references they hold, each with the number that is theirs.  Every
    operation keeps the invariant for any [Others], so that it leaves what
    others own and read as it was. *)
Class Others := mkOthers {
  o_mem : memory;
  o_own : gset positive;
  o_refs : gmap positive Vstr_ref;
  o_refs_pos : map_Forall (λ _ ro, 0 < r_ref ro) o_refs }.

(** Nobody else, unless said otherwise *)
#[export] Instance nobody : Others | 1000 :=
  {| o_mem := ∅; o_own := ∅; o_refs := ∅; o_refs_pos := map_Forall_empty _ |}.

Section invariant.
Context {OT : Others}.

Definition held (r : positive) : Z := match o_refs !! r with Some ro => r_ref ro | None => 0 end.
(** How many nodes others have *)
Definition o_num : Z := Z.of_nat (size o_own).
Lemma o_num_nonneg : 0 ≤ o_num.
Proof. unfold o_num. lia. Qed.
(** Addresses that are not the string's *)
Definition guarded (a : positive) : Prop := is_Some (o_mem !! a) ∨ a ∈ o_own.

Lemma held_nonneg r : 0 ≤ held r.
Proof.
  unfold held. destruct (o_refs !! r) as [ro|] eqn:E; [|done].
  pose proof (o_refs_pos r ro E). cbn in *. lia.
Qed.

Record heap_inv (h : heap) (c : Vstr_conf) (ns : list Vstr_node) : Prop := {
  hi_bsz : 0 < buf_sz c ≤ VSTR_MAX_NODE_BUF;
  hi_nodes : Forall (node_ok h (buf_sz c)) ns;
  hi_spare_num : ∀ t, sp_num (get_spare t c) = zlen (sp_nodes (get_spare t c));
  hi_spare_buf : Forall (buf_ok (h_mem h) (buf_sz c)) (sp_nodes (spare_buf c));
  hi_total_all : zlen (own c ns) + o_num ≤ UINT_MAX;
  hi_nodup : NoDup (own c ns);
  hi_fresh_own : Forall (λ a, (a < h_next h)%positive) (own c ns);
  hi_fresh_mem : ∀ a, is_Some (h_mem h !! a) → (a < h_next h)%positive;
  hi_fresh_ref : ∀ r, is_Some (h_refs h !! r) → (r < h_next h)%positive;
  hi_alias : ∀ nd p, nd ∈ ns → node_ext (h_refs h) nd = Some p → p_blk p ∉ own c ns;
  hi_alias_others : ∀ nd p, nd ∈ ns → node_ext (h_refs h) nd = Some p → p_blk p ∉ o_own;
  hi_count : ∀ r, ref_count r ns + held r ≠ 0 →
    ∃ ref, h_refs h !! r = Some ref ∧ ref_count r ns + held r ≤ r_ref ref ≤ UINT_MAX;
  hi_frees : ∀ r ref, h_refs h !! r = Some ref → 0 < r_ref ref →
    ref_freeable (h_mem h) ref ∧
    (∀ blk, ref_frees r ref blk → (blk ∉ own c ns) ∧
      (∀ nd p, nd ∈ ns → node_ext (h_refs h) nd = Some p → p_blk p = blk →
        node_ref_of nd = Some r));
  hi_disj : ∀ r1 r2 ref1 ref2 blk, h_refs h !! r1 = Some ref1 → h_refs h !! r2 = Some ref2 →
    0 < r_ref ref1 → 0 < r_ref ref2 → ref_frees r1 ref1 blk → ref_frees r2 ref2 blk → r1 = r2;
  hi_shown : ∀ a blk, o_mem !! a = Some blk → h_mem h !! a = Some blk;
  hi_guard : ∀ a, guarded a → (a < h_next h)%positive ∧ (a ∉ own c ns) ∧
    (∀ r ref, h_refs h !! r = Some ref → 0 < r_ref ref → ref_frees r ref a → (a ∉ o_own) ∧ 0 < held r);
  hi_held : ∀ r ro, o_refs !! r = Some ro → ∃ ref, h_refs h !! r = Some ref ∧
    r_func ref = r_func ro ∧ r_ptr ref = r_ptr ro }.

Lemma hi_total h c ns : heap_inv h c ns → zlen (own c ns) ≤ UINT_MAX.
Proof. intros H. pose proof (hi_total_all _ _ _ H). unfold o_num in *. lia. Qed.

(** A fresh address is no one's. *)
Lemma heap_inv_unguarded h c ns a : heap_inv h c ns → (h_next h ≤ a)%positive → ¬ guarded a.
Proof. intros H Ha Hg. destruct (hi_guard _ _ _ H a Hg) as [? _]. lia. Qed.

End invariant.

Lemma nobody_guarded a : ¬ guarded (OT := nobody) a.
Proof. unfold guarded. cbn. rewrite lookup_empty. intros [[? [=]]|Ha]; set_solver. Qed.
Lemma nobody_held r : held (OT := nobody) r = 0.
Proof. unfold held. cbn. by rewrite lookup_empty. Qed.

(** ** The string *)
Record base_inv (b : Vstr_base) : Prop := {
  bi_used : b_used b = 0 ∨
    ∃ beg, head (b_nodes b) = Some beg ∧ nd_type beg = NODE_BUF ∧ 0 < b_used b < nd_len beg;
  bi_len : b_len b = sum_len (b_nodes b) - b_used b;
  bi_size : sum_len (b_nodes b) ≤ SIZE_MAX;
  bi_num : b_num b = zlen (b_nodes b);
  bi_flags : ∀ nd, nd ∈ b_nodes b → node_used (nd_type nd) b = true }.

(** The remembered node starts at the remembered position *)
Definition pos_data_ok (ns : list Vstr_node) (used : Z) (data : cache_data_pos) : Prop :=
  match cp_node data with
  | None => True
  | Some a => ∃ i nd, ns !! i = Some nd ∧ nd_addr nd = a ∧
      cp_pos data + used = sum_len (take i ns) + 1 ∧ (i = 0%nat → used = 0)
  end.
(** There is an I/O vector when it is said to be valid and when it is part of
    the string; a string made without caches has none. *)
Definition vec_ok (b : Vstr_base) : Prop :=
  (iovec_upto_date b = true ∨ 2 ≤ grpalloc_num (grpalloc_cache b) → is_Some (c_vec (b_cache b))) ∧
  (grpalloc_cache b = GRPALLOC_NONE → cache_available b = false).
Record cache_inv (b : Vstr_base) : Prop := {
  ci_pos : ∀ data, cache_get_pos b = Some data → pos_data_ok (b_nodes b) (b_used b) data;
  ci_avail : cache_available b = true → is_Some (c_pos (b_cache b));
  ci_vec : vec_ok b }.

Record wf {OT : Others} (s : St) : Prop := {
  wf_heap : heap_inv (s_heap s) (s_conf s) (b_nodes (s_base s));
  wf_base : base_inv (s_base s);
  wf_cache : cache_inv (s_base s) }.

(** Room in the 32-bit counters for [n] more nodes and [k] more references *)
Definition room {OT : Others} (n k : Z) (s : St) : Prop :=
  zlen (own (s_conf s) (b_nodes (s_base s))) + o_num + n ≤ UINT_MAX ∧
  (∀ r ref, h_refs (s_heap s) !! r = Some ref → r_ref ref + k ≤ UINT_MAX).
