(* ===== verification/PosLemmas.v ===== *)
(** * Finding the node of a position.

    Changes of the heap and of the ownership of nodes that keep [heap_inv]. *)
From Stdlib Require Import ZArith Lia ZifyBool.
From stdpp Require Import base tactics list numbers option gmap.
From S2P Require Import Prelude State Wp Ref Cache Core Inv.

Section others.
Context {OT : Others}.

Lemma sum_len_app l1 l2 : sum_len (l1 ++ l2) = sum_len l1 + sum_len l2.
Proof. induction l1; cbn; lia. Qed.
Lemma sum_len_cons nd l : sum_len (nd :: l) = nd_len nd + sum_len l.
Proof. done. Qed.

Definition lens_pos (ns : list Vstr_node) : Prop := Forall (λ nd, 0 < nd_len nd) ns.

Lemma sum_len_nonneg ns : lens_pos ns → 0 ≤ sum_len ns.
Proof. induction 1; cbn; lia. Qed.
Lemma lens_pos_take ns k : lens_pos ns → lens_pos (take k ns).
Proof. apply Forall_take. Qed.
Lemma lens_pos_drop ns k : lens_pos ns → lens_pos (drop k ns).
Proof. apply Forall_drop. Qed.
Lemma sum_len_split k ns : sum_len ns = sum_len (take k ns) + sum_len (drop k ns).
Proof. rewrite <- sum_len_app, take_drop. done. Qed.
Lemma sum_len_take_le k ns : lens_pos ns → sum_len (take k ns) ≤ sum_len ns.
Proof. intros Hp. rewrite (sum_len_split k ns). pose proof (sum_len_nonneg _ (lens_pos_drop _ k Hp)). lia. Qed.
Lemma sum_len_take_S k ns nd :
  ns !! k = Some nd → sum_len (take (S k) ns) = sum_len (take k ns) + nd_len nd.
Proof. intros H. rewrite (take_S_r _ _ _ H), sum_len_app. cbn. lia. Qed.
Lemma sum_len_take_mono j k ns :
  lens_pos ns → (j ≤ k)%nat → sum_len (take j ns) ≤ sum_len (take k ns).
Proof.
  intros Hp Hjk. rewrite (sum_len_split j (take k ns)), take_take.
  replace (j `min` k)%nat with j by lia.
  pose proof (sum_len_nonneg _ (lens_pos_drop _ j (lens_pos_take _ k Hp))). lia.
Qed.
Lemma sum_len_take_lt j k ns nd :
  lens_pos ns → ns !! j = Some nd → (j < k)%nat →
  sum_len (take j ns) + nd_len nd ≤ sum_len (take k ns).
Proof.
  intros Hp Hj Hjk. rewrite <- (sum_len_take_S _ _ _ Hj). apply sum_len_take_mono; [done|lia].
Qed.

(** Byte [pos] (from 1) of the chain is byte [off] (from 1) of node [k]. *)
Definition at_pos (ns : list Vstr_node) (pos : Z) (k : nat) (off : Z) : Prop :=
  ∃ nd, ns !! k = Some nd ∧ 0 < off ≤ nd_len nd ∧ sum_len (take k ns) + off = pos.

Lemma at_pos_unique ns pos k1 o1 k2 o2 :
  lens_pos ns → at_pos ns pos k1 o1 → at_pos ns pos k2 o2 → k1 = k2 ∧ o1 = o2.
Proof.
  intros Hp (nd1&Hk1&Ho1&He1) (nd2&Hk2&Ho2&He2).
  destruct (lt_eq_lt_dec k1 k2) as [[Hlt| ->]|Hlt]; [|split; [done|lia]|].
  - pose proof (sum_len_take_lt _ _ _ _ Hp Hk1 Hlt). lia.
  - pose proof (sum_len_take_lt _ _ _ _ Hp Hk2 Hlt). lia.
Qed.

Lemma scan_pos_spec ns i pos num :
  lens_pos ns → 0 < pos ≤ sum_len ns →
  ∃ k off, scan_pos ns i pos num = Some ((i + k)%nat, off, num + Z.of_nat k) ∧
           at_pos ns pos k off.
Proof.
  intros Hp. revert i pos num. induction Hp as [|nd ns Hnd Hp IH]; intros i pos num Hpos.
  - cbn in Hpos. lia.
  - cbn. case_decide.
    + destruct (IH (S i) (pos - nd_len nd) (num + 1)) as (k&off&->&nd'&Hk&Ho&He).
      { rewrite sum_len_cons in Hpos. lia. }
      exists (S k), off. split; [f_equal; f_equal; [f_equal|]; lia|].
      exists nd'. cbn. split_and!; [done|lia..].
    + exists 0%nat, pos. split; [f_equal; f_equal; [f_equal|]; lia|]. exists nd. cbn. split_and!; [done|lia..].
Qed.

Lemma take_plus_drop {A} (l : list A) i k : take (i + k) l = take i l ++ take k (drop i l).
Proof.
  rewrite <- (take_drop i l) at 1. rewrite take_app, length_take.
  destruct (decide (i ≤ length l)%nat).
  - rewrite take_take. f_equal; f_equal; lia.
  - rewrite (drop_ge l) by lia. rewrite !take_nil, !app_nil_r, take_take. f_equal. lia.
Qed.

Lemma at_pos_drop ns i pos k off :
  at_pos (drop i ns) pos k off → at_pos ns (sum_len (take i ns) + pos) (i + k) off.
Proof.
  intros (nd&Hk&Ho&He). rewrite lookup_drop in Hk. exists nd. split_and!; [done|lia..|].
  rewrite take_plus_drop, sum_len_app. lia.
Qed.

Lemma at_pos_last ns pos end_ :
  last ns = Some end_ → sum_len ns - nd_len end_ < pos ≤ sum_len ns →
  at_pos ns pos (pred (length ns)) (pos - (sum_len ns - nd_len end_)).
Proof.
  intros Hl Hpos. rewrite last_lookup in Hl. exists end_.
  assert (sum_len (take (pred (length ns)) ns) = sum_len ns - nd_len end_) as ->.
  { pose proof (sum_len_take_S _ _ _ Hl) as H.
    apply lookup_lt_Some in Hl. rewrite take_ge in H by lia. lia. }
  split_and!; [done|lia..].
Qed.

Lemma last_len_le ns beg end_ :
  lens_pos ns → head ns = Some beg → last ns = Some end_ →
  0 < nd_len end_ ≤ sum_len ns ∧
  (sum_len ns = nd_len beg ∨ nd_len beg + nd_len end_ ≤ sum_len ns).
Proof.
  intros Hp Hh Hl. destruct ns as [|nd ns]; [done|]. injection Hh as ->.
  inversion Hp as [|? ? Hbeg Hp']; subst.
  destruct ns as [|nd2 ns]; [injection Hl as ->; cbn; lia|].
  change (last (nd2 :: ns) = Some end_) in Hl. apply last_Some in Hl as [ns3 E]. rewrite E in *.
  apply Forall_app in Hp' as [Hp3 Hp4]. inversion Hp4; subst.
  pose proof (sum_len_nonneg _ Hp3). rewrite sum_len_cons, sum_len_app. cbn. lia.
Qed.

Lemma node_index_lookup a ns i nd :
  NoDup (nd_addr <$> ns) → ns !! i = Some nd → nd_addr nd = a → node_index a ns = Some i.
Proof.
  intros Hnd Hi Ha. unfold node_index.
  destruct (list_find (λ nd, nd_addr nd = a) ns) as [[j nd']|] eqn:E.
  - apply list_find_Some in E as (Hj&Ha'&_). cbn. f_equal.
    eapply NoDup_lookup; [exact Hnd|rewrite list_lookup_fmap, Hj; done|].
    rewrite list_lookup_fmap, Hi. cbn. congruence.
  - apply list_find_None in E. eapply Forall_lookup_1 in E; [|exact Hi]. done.
Qed.

Lemma heap_inv_lens h c ns : heap_inv h c ns → lens_pos ns.
Proof. intros H. eapply Forall_impl; [apply (hi_nodes _ _ _ H)|]. intros nd [? _]. lia. Qed.
Lemma heap_inv_addrs h c ns : heap_inv h c ns → NoDup (nd_addr <$> ns).
Proof. intros H. pose proof (hi_nodup _ _ _ H) as Hn. apply NoDup_app in Hn. tauto. Qed.

(** A state that differs in the position cache only *)
Definition pos_cached (s s' : St) : Prop :=
  ∃ p, s' = on_base (λ b, b_set_cache (c_set_pos p (b_cache b)) b) s.

Lemma pos_cached_refl s : pos_cached s s.
Proof.
  exists (c_pos (b_cache (s_base s))). destruct s as [h c [? ? ? ? ? ? ? ? ? ? ? ? []]]. done.
Qed.

Lemma pos_cached_wf s p :
  wf s → (cache_available (s_base s) = true → is_Some p) →
  (∀ data, p = Some data → pos_data_ok (b_nodes (s_base s)) (b_used (s_base s)) data) →
  wf (on_base (λ b, b_set_cache (c_set_pos p (b_cache b)) b) s).
Proof.
  destruct s as [h c [ns l n u iv av ci bu no pt re gc [cp cv cs]]].
  intros [Hh [] [? ? ?]] Hsome Hdata. split; [done|by split|].
  split; unfold cache_get_pos in *; cbn in *; [|done..].
  intros data. destruct av; [|done]. intros ->. by apply Hdata.
Qed.

(** The remembered number is that of the remembered node. *)
Definition pos_num_ok (b : Vstr_base) : Prop :=
  ∀ data i nd, cache_get_pos b = Some data → b_nodes b !! i = Some nd → cp_node data = Some (nd_addr nd) →
    cp_num data = Z.of_nat i + 1.

(** vstr_base__pos finds the node of every position of the string. *)
Lemma vstr_base__pos_full s pos cache :
  wf s → 1 ≤ pos ≤ b_len (s_base s) →
  wp (vstr_base__pos pos cache) s (λ '(k, off, num) s',
    (at_pos (b_nodes (s_base s)) (pos + b_used (s_base s)) k off ∧
    pos_cached s s' ∧ wf s') ∧ (cache = false → s' = s) ∧
    (pos_num_ok (s_base s) → num = Z.of_nat k + 1 ∧ pos_num_ok (s_base s'))).
Proof.
  intros Hwf Hpos. pose proof (wf_heap _ Hwf) as Hh. pose proof (heap_inv_lens _ _ _ Hh) as Hlens.
  destruct (wf_base _ Hwf) as [Hused Hlen Hsize Hnum _].
  unfold vstr_base__pos. wp_step. wp_step.
  remember (s_base s) as b eqn:Eb.
  destruct (b_nodes b) as [|beg ns'] eqn:En.
  { cbn in Hlen. destruct Hused as [?|(?&?&_)]; [lia|done]. }
  rewrite <- En in *. assert (Hhead : head (b_nodes b) = Some beg) by by rewrite En.
  destruct (last (b_nodes b)) as [end_|] eqn:Hlast; [|by apply last_None in Hlast; rewrite En in Hlast].
  rewrite Hhead.
  assert (0 ≤ b_used b) by (destruct Hused as [?|(?&?&?&?)]; lia).
  rewrite (u64_id (pos + _)) by (unfold SIZE_MAX in *; lia).
  case_decide as Hd1.
  { wp_steps. split; [|subst; by split; [|intros; split]]. split; [|split; [apply pos_cached_refl|done]].
    exists beg. rewrite En. cbn. split_and!; [done|lia..]. }
  destruct (last_len_le _ _ _ Hlens Hhead Hlast) as [Hend Hsum2].
  assert (Hbe : nd_len end_ ≤ b_len b).
  { destruct Hsum2 as [?|?]; [lia|]. destruct Hused as [?|(?&Hb&_&?)]; [lia|].
    rewrite Hhead in Hb. injection Hb as <-. lia. }
  rewrite (u64_id (b_len b - nd_len end_)) by (unfold SIZE_MAX in *; lia).
  case_decide as Hd2.
  { wp_steps. split.
    2:{ split; [done|]. intros Hpn. rewrite Eb in *. split; [|done]. rewrite Hnum. rewrite En in *. cbn in *. lia. }
    split; [|split; [apply pos_cached_refl|done]].
    replace (pos - (b_len b - nd_len end_))
      with (pos + b_used b - (sum_len (b_nodes b) - nd_len end_)) by lia.
    apply at_pos_last; [done|lia]. }
  wp_step.
  assert (Hscan : ∀ i p, sum_len (take i (b_nodes b)) + p = pos + b_used b → 0 < p → ∀ num : Z,
    (pos_num_ok b → num = Z.of_nat i + 1) →
    wp ('(i, pos0, num) ← of_option (scan_pos (drop i (b_nodes b)) i p num);
        when cache (scan ← node_at i;
          vstr_cache__pos (nd_addr scan) (pos - pos0 + 1) num;; mret tt);;
        mret (i, pos0, num)) s (λ '(k, off, num) s',
     (at_pos (b_nodes b) (pos + b_used b) k off ∧ pos_cached s s' ∧ wf s') ∧ (cache = false → s' = s) ∧
     (pos_num_ok b → num = Z.of_nat k + 1 ∧ pos_num_ok (s_base s')))).
  { intros i p Hp Hp0 num Hnumi. wp_step.
    destruct (scan_pos_spec (drop i (b_nodes b)) i p num) as (k&off&Hs&Hat).
    { by apply lens_pos_drop. }
    { rewrite (sum_len_split i) in Hlen. lia. }
    eapply wp_of_option; [exact Hs|]. cbn beta iota. wp_step.
    apply at_pos_drop in Hat. rewrite Hp in Hat.
    assert (Hk := Hat). destruct Hk as (nd&Hk&Hoff&Hsum).
    apply wp_when; intros Hc; [|wp_step; split; [split; [done|split; [apply pos_cached_refl|done]]|];
      split; [done|intros Hpn; rewrite <- Eb; split; [rewrite (Hnumi Hpn); lia|done]]].
    wp_step. unfold node_at. wp_steps. eapply wp_of_option; [by rewrite <- Eb|]. cbn beta.
    unfold vstr_cache__pos. wp_steps. rewrite <- Eb.
    destruct (cache_available b) eqn:Hav; cbn; wp_steps.
    2:{ split; [split; [done|]; split; [apply pos_cached_refl|done]|]. split; [by subst|].
        intros Hpn. rewrite <- Eb. split; [rewrite (Hnumi Hpn); lia|done]. }
    destruct (ci_avail _ (wf_cache _ Hwf)) as [data0 Hd0]; [by rewrite <- Eb|].
    rewrite <- Eb in Hd0. rewrite Hd0. unfold upd_cache. wp_steps.
    split; [split; [done|]; split; [eexists; done|]|split; [by subst|]].
    2:{ intros Hpn. split; [rewrite (Hnumi Hpn); lia|]. intros data j nd' Hd Hj Hcn. cbn in Hd, Hj. rewrite <- Eb in Hd, Hj.
        assert (data = mkPos (pos - off + 1) (num + Z.of_nat k) (Some (nd_addr nd))) as ->.
        { unfold cache_get_pos in Hd. destruct b as [? ? ? ? ? ? ? ? ? ? ? ? []]. cbn in *. rewrite Hav in Hd. congruence. }
        cbn in Hcn |- *. injection Hcn as Hcn. rewrite (Hnumi Hpn).
        assert (j = (i + k)%nat); [|lia].
        eapply NoDup_lookup; [eapply (heap_inv_addrs _ _ (b_nodes b)); exact Hh|rewrite list_lookup_fmap|rewrite list_lookup_fmap, Hk; done].
        replace (b_nodes (b_set_cache _ b)) with (b_nodes b) in Hj by by destruct b. by rewrite Hj, Hcn. }
    apply (pos_cached_wf s (Some _)); [done|done|]. intros data [= <-]. unfold pos_data_ok. cbn.
    rewrite <- Eb. exists (i + k)%nat, nd. split; [done|]. split; [done|]. split; [lia|].
    intros Hik. rewrite Hik in *. rewrite En in Hk. cbn in Hk. injection Hk as <-.
    rewrite take_0 in Hsum. cbn in Hsum. lia. }
  destruct (cache_get_pos b) as [data|] eqn:Hcache.
  2:{ wp_step. apply (Hscan 0%nat); [rewrite take_0; cbn; lia|lia|done]. }
  assert (Hok : pos_data_ok (b_nodes b) (b_used b) data).
  { rewrite Eb in *. by apply (ci_pos _ (wf_cache _ Hwf)). }
  unfold pos_data_ok in Hok. destruct (cp_node data) as [a|] eqn:Ecn.
  2:{ wp_step. apply (Hscan 0%nat); [rewrite take_0; cbn; lia|lia|done]. }
  case_decide as Hd3.
  2:{ wp_step. apply (Hscan 0%nat); [rewrite take_0; cbn; lia|lia|done]. }
  destruct Hok as (i&nd&Hi&Ha&Hcp&_).
  wp_step. eapply wp_of_option.
  { eapply node_index_lookup; [|exact Hi|exact Ha]. by eapply heap_inv_addrs. }
  cbn beta. wp_step. apply Hscan; [lia|lia|]. intros Hpn. apply (Hpn data i nd Hcache Hi). congruence.
Qed.

Lemma vstr_base__pos_spec s pos cache :
  wf s → 1 ≤ pos ≤ b_len (s_base s) →
  wp (vstr_base__pos pos cache) s (λ '(k, off, _) s',
    at_pos (b_nodes (s_base s)) (pos + b_used (s_base s)) k off ∧
    pos_cached s s' ∧ wf s').
Proof.
  intros Hwf Hpos. eapply wp_mono; [by apply vstr_base__pos_full|]. by intros [[k off] num] s' [H _].
Qed.

End others.

Section others.
Context {OT : Others}.

(** ** Loads and stores *)
Lemma load_Some m p n bs :
  load m p n = Some bs ↔ ∃ blk, m !! p_blk p = Some blk ∧
    0 ≤ p_off p ∧ 0 ≤ n ∧ p_off p + n ≤ zlen blk ∧ bs = ztake n (zdrop (p_off p) blk).
Proof.
  unfold load. destruct (m !! p_blk p) as [blk|]; cbn; [|split; [done|by intros (?&?&_)]].
  split.
  - case_decide; [|done]. intros [= <-]. exists blk. tauto.
  - intros (?&[= <-]&?&?&?&->). case_decide; [done|tauto].
Qed.
Lemma load_length m p n bs : load m p n = Some bs → zlen bs = n.
Proof. intros (blk&_&?&?&?&->)%load_Some. rewrite length_ztake, length_zdrop. lia. Qed.
Lemma load_eq m m' p n : m' !! p_blk p = m !! p_blk p → load m' p n = load m p n.
Proof. unfold load. by intros ->. Qed.
Lemma load_insert_ne m p n a blk : p_blk p ≠ a → load (<[a:=blk]> m) p n = load m p n.
Proof. intros. apply load_eq. by rewrite lookup_insert_ne. Qed.
Lemma load_sub m p n k len bs :
  load m p n = Some bs → 0 ≤ k → 0 ≤ len → k + len ≤ n →
  load m (ptr_add p k) len = Some (ztake len (zdrop k bs)).
Proof.
  intros (blk&Hb&?&?&?&->)%load_Some Hk Hlen Hn. apply load_Some.
  exists blk. cbn. split_and!; [done|lia..|].
  rewrite zdrop_ztake, zdrop_zdrop, ztake_ztake by lia. f_equal. lia.
Qed.
Lemma ptr_add_0 p : ptr_add p 0 = p.
Proof. destruct p. unfold ptr_add. cbn. f_equal. lia. Qed.
Lemma ptr_add_add p a b : ptr_add (ptr_add p a) b = ptr_add p (a + b).
Proof. unfold ptr_add. cbn. f_equal. lia. Qed.
Lemma load_prefix m p n len bs :
  load m p n = Some bs → 0 ≤ len ≤ n → load m p len = Some (ztake len bs).
Proof.
  intros H ?. apply (load_sub _ _ _ 0 len) in H; [|lia..].
  rewrite ptr_add_0, zdrop_0 in H by lia. done.
Qed.
Lemma load_buf m a blk n :
  m !! a = Some blk → 0 ≤ n ≤ zlen blk → load m (Ptr a 0) n = Some (ztake n blk).
Proof. intros. apply load_Some. exists blk. cbn. rewrite zdrop_0 by lia. split_and!; auto; lia. Qed.

(** ** The bytes of a node depend on its memory and its reference only *)
Definition refs_same (rs rs' : gmap positive Vstr_ref) (nd : Vstr_node) : Prop :=
  ∀ r, node_ref_of nd = Some r → r_ptr <$> rs' !! r = r_ptr <$> rs !! r.

Lemma node_frame h h' bsz nd :
  node_ok h bsz nd →
  (nd_type nd = NODE_BUF → h_mem h' !! nd_addr nd = h_mem h !! nd_addr nd) →
  (∀ p, node_ext (h_refs h) nd = Some p → h_mem h' !! p_blk p = h_mem h !! p_blk p) →
  refs_same (h_refs h) (h_refs h') nd →
  node_ok h' bsz nd ∧ node_bytes h' nd = node_bytes h nd ∧
  node_ext (h_refs h') nd = node_ext (h_refs h) nd.
Proof.
  destruct nd as [a len body]. unfold node_ok, node_bytes, node_ext, refs_same, nd_type, buf_ok.
  destruct body as [| |p|r off]; cbn; intros [Hlen Hok] Hbuf Hext Hrefs.
  - unfold buf_ok, load. cbn. rewrite Hbuf by done. done.
  - done.
  - rewrite !(load_eq _ _ _ _ (Hext _ eq_refl)). done.
  - destruct Hok as (?&?&ref&Hr&Hl). specialize (Hrefs _ eq_refl). rewrite Hr in *. cbn in *.
    destruct (h_refs h' !! r) as [ref'|]; [|done]. injection Hrefs as Hptr. cbn. rewrite Hptr.
    rewrite !(load_eq _ _ _ _ (Hext _ eq_refl)). split; [|done].
    split; [done|]. split; [done|]. split; [done|].
    exists ref'. rewrite Hptr, !(load_eq _ _ _ _ (Hext _ eq_refl)). done.
Qed.

Lemma node_bytes_length h bsz nd : node_ok h bsz nd → zlen (node_bytes h nd) = nd_len nd.
Proof.
  destruct nd as [a len body]. unfold node_ok, node_bytes.
  destruct body as [| |p|r off]; cbn; intros [Hlen Hok].
  - destruct Hok as (?&blk&Hb&Hz). rewrite (load_buf _ _ _ _ Hb) by lia.
    rewrite length_fmap, length_ztake. lia.
  - rewrite length_zrep. lia.
  - destruct Hok as [bs Hbs]. rewrite Hbs, length_fmap. by apply load_length in Hbs.
  - destruct Hok as (?&?&ref&Hr&[bs Hbs]). rewrite Hr. cbn. rewrite Hbs, length_fmap.
    by apply load_length in Hbs.
Qed.

Lemma chain_bytes_app h l1 l2 : chain_bytes h (l1 ++ l2) = chain_bytes h l1 ++ chain_bytes h l2.
Proof. unfold chain_bytes. by rewrite fmap_app, concat_app. Qed.
Lemma chain_bytes_cons h nd l : chain_bytes h (nd :: l) = node_bytes h nd ++ chain_bytes h l.
Proof. done. Qed.
Lemma chain_bytes_nil h : chain_bytes h [] = [].
Proof. done. Qed.
Lemma chain_bytes_length h bsz ns :
  Forall (node_ok h bsz) ns → zlen (chain_bytes h ns) = sum_len ns.
Proof.
  induction 1 as [|nd ns Hnd _ IH]; [done|].
  rewrite chain_bytes_cons, length_app, Nat2Z.inj_add, IH, (node_bytes_length _ _ _ Hnd). done.
Qed.
Lemma chain_frame h h' ns :
  (∀ nd, nd ∈ ns → node_bytes h' nd = node_bytes h nd) → chain_bytes h' ns = chain_bytes h ns.
Proof.
  intros H. unfold chain_bytes. f_equal. apply list_fmap_ext. intros i nd Hi.
  apply H. by eapply list_elem_of_lookup_2.
Qed.

#[global] Arguments chain_bytes : simpl never.

(** ** Spare lists *)
Lemma get_set_spare t sp c : get_spare t (set_spare t sp c) = sp.
Proof. by destruct c, t. Qed.
Lemma get_set_spare_ne t t' sp c : t ≠ t' → get_spare t' (set_spare t sp c) = get_spare t' c.
Proof. by destruct c, t, t'. Qed.
Lemma set_set_spare t sp sp' c : set_spare t sp' (set_spare t sp c) = set_spare t sp' c.
Proof. by destruct c, t. Qed.
Lemma set_get_spare t c : set_spare t (get_spare t c) c = c.
Proof. by destruct c, t. Qed.
Lemma buf_sz_set_spare t sp c : buf_sz (set_spare t sp c) = buf_sz c.
Proof. by destruct c, t. Qed.
Definition other_spares (t : node_type) (c : Vstr_conf) : list positive :=
  match t with
  | NODE_BUF => sp_nodes (spare_non c) ++ sp_nodes (spare_ptr c) ++ sp_nodes (spare_ref c)
  | NODE_NON => sp_nodes (spare_buf c) ++ sp_nodes (spare_ptr c) ++ sp_nodes (spare_ref c)
  | NODE_PTR => sp_nodes (spare_buf c) ++ sp_nodes (spare_non c) ++ sp_nodes (spare_ref c)
  | NODE_REF => sp_nodes (spare_buf c) ++ sp_nodes (spare_non c) ++ sp_nodes (spare_ptr c)
  end.
Lemma spares_perm t c : spares c ≡ₚ sp_nodes (get_spare t c) ++ other_spares t c.
Proof.
  destruct c as [[b ?] [n ?] [p ?] [r ?] ? ? ? ? ?]. unfold spares, other_spares.
  destruct t; cbn.
  - done.
  - apply Permutation_app_swap_app.
  - rewrite !(app_assoc b n). apply Permutation_app_swap_app.
  - rewrite (app_assoc n p), (app_assoc b), (app_assoc b), Permutation_app_comm.
    by rewrite !app_assoc.
Qed.
Lemma other_spares_set t sp c : other_spares t (set_spare t sp c) = other_spares t c.
Proof. by destruct c, t. Qed.
Lemma spares_set_perm t sp c : spares (set_spare t sp c) ≡ₚ sp_nodes sp ++ other_spares t c.
Proof. by rewrite (spares_perm t), get_set_spare, other_spares_set. Qed.

(** ** Rearranging nodes and spare nodes over the same heap *)

(** Where the data of a node outside the strings may lie *)
Definition ext_ok (h : heap) (owned : list positive) (nd : Vstr_node) : Prop :=
  ∀ p, node_ext (h_refs h) nd = Some p → (p_blk p ∉ owned) ∧ (p_blk p ∉ o_own) ∧
    (∀ r ref, h_refs h !! r = Some ref → 0 < r_ref ref → ref_frees r ref (p_blk p) →
      node_ref_of nd = Some r).
Definition counts_ok (h : heap) (ns : list Vstr_node) : Prop :=
  ∀ r, ref_count r ns + held r ≠ 0 →
    ∃ ref, h_refs h !! r = Some ref ∧ ref_count r ns + held r ≤ r_ref ref ≤ UINT_MAX.
Definition spare_nums_ok (c : Vstr_conf) : Prop :=
  ∀ t, sp_num (get_spare t c) = zlen (sp_nodes (get_spare t c)).

Lemma heap_inv_ext h c ns nd : heap_inv h c ns → nd ∈ ns → ext_ok h (own c ns) nd.
Proof.
  intros H Hnd p Hp. split; [by eapply (hi_alias _ _ _ H)|]. split; [by eapply (hi_alias_others _ _ _ H)|]. intros r ref Hr Hpos Hf.
  destruct (hi_frees _ _ _ H r ref Hr Hpos) as [_ Hfr]. destruct (Hfr _ Hf) as [_ Hn]. eauto.
Qed.

Lemma heap_inv_rearrange h c c' ns ns' :
  heap_inv h c ns →
  buf_sz c' = buf_sz c → own c' ns' ≡ₚ own c ns → spare_nums_ok c' →
  Forall (buf_ok (h_mem h) (buf_sz c)) (sp_nodes (spare_buf c')) →
  Forall (node_ok h (buf_sz c)) ns' →
  Forall (ext_ok h (own c ns)) ns' →
  counts_ok h ns' →
  heap_inv h c' ns'.
Proof.
  intros H Hsz Hown Hnum Hsp Hns Hext Hcnt. rewrite Forall_forall in Hext.
  split; try rewrite Hsz; try done; try apply H.
  - rewrite Hown. apply H.
  - rewrite Hown. apply H.
  - rewrite Hown. apply H.
  - intros nd p Hnd Hp. rewrite Hown. by apply (Hext nd).
  - intros nd p Hnd Hp. by apply (Hext nd).
  - intros r ref Hr Hpos. destruct (hi_frees _ _ _ H r ref Hr Hpos) as [? Hf]. split; [done|].
    intros blk Hblk. rewrite Hown. split; [by apply Hf|].
    intros nd p Hnd Hp <-. by eapply (Hext nd).
  - intros a Ha. rewrite Hown. by apply (hi_guard _ _ _ H).
Qed.

Lemma ref_count_app r l1 l2 : ref_count r (l1 ++ l2) = ref_count r l1 + ref_count r l2.
Proof. induction l1; cbn; lia. Qed.
Lemma ref_count_nonneg r l : 0 ≤ ref_count r l.
Proof. induction l; cbn; [lia|]. case_decide; lia. Qed.
Lemma ref_count_insert r l1 nd l2 :
  ref_count r (l1 ++ nd :: l2) =
  ref_count r (l1 ++ l2) + (if decide (node_ref_of nd = Some r) then 1 else 0).
Proof. rewrite !ref_count_app. cbn. lia. Qed.

Lemma own_app_cons c l1 nd l2 : own c (l1 ++ nd :: l2) ≡ₚ nd_addr nd :: own c (l1 ++ l2).
Proof. unfold own. rewrite !fmap_app. cbn. by rewrite <- Permutation_middle. Qed.
Lemma own_set_spare t sp c ns :
  own (set_spare t sp c) ns ≡ₚ sp_nodes sp ++ other_spares t c ++ (nd_addr <$> ns).
Proof. unfold own. rewrite spares_set_perm, Permutation_app_comm. by rewrite app_assoc. Qed.
Lemma own_perm t c ns :
  own c ns ≡ₚ sp_nodes (get_spare t c) ++ other_spares t c ++ (nd_addr <$> ns).
Proof. rewrite <- (set_get_spare t c) at 1. apply own_set_spare. Qed.

Lemma spare_nums_set t sp c :
  spare_nums_ok c → sp_num sp = zlen (sp_nodes sp) → spare_nums_ok (set_spare t sp c).
Proof.
  intros Hc Hsp t'. destruct (decide (t = t')) as [<-|].
  - by rewrite get_set_spare.
  - rewrite get_set_spare_ne by done. apply Hc.
Qed.
Lemma spare_buf_set (P : positive → Prop) t sp c :
  Forall P (sp_nodes (spare_buf c)) → (t = NODE_BUF → Forall P (sp_nodes sp)) →
  Forall P (sp_nodes (spare_buf (set_spare t sp c))).
Proof. destruct c, t; cbn; auto. Qed.

(** A spare node becomes a node of the string. *)
Lemma heap_inv_pop h c t a rest n l1 nd l2 :
  heap_inv h c (l1 ++ l2) →
  sp_nodes (get_spare t c) = a :: rest → n = zlen rest → nd_addr nd = a →
  node_ok h (buf_sz c) nd →
  ext_ok h (own c (l1 ++ l2)) nd →
  (∀ r, node_ref_of nd = Some r → ∃ ref, h_refs h !! r = Some ref ∧
     ref_count r (l1 ++ l2) + held r + 1 ≤ r_ref ref ≤ UINT_MAX) →
  heap_inv h (set_spare t (mkSpare rest n) c) (l1 ++ nd :: l2).
Proof.
  intros H Hsp -> Ha Hok Hext Hcnt. eapply heap_inv_rearrange; [exact H|..].
  - apply buf_sz_set_spare.
  - rewrite own_set_spare, (own_perm t c), Hsp, !fmap_app, fmap_cons, Ha. cbn.
    by rewrite <- !Permutation_middle.
  - apply spare_nums_set; [exact (hi_spare_num _ _ _ H)|done].
  - apply spare_buf_set; [apply H|]. intros ->. cbn.
    pose proof (hi_spare_buf _ _ _ H) as Hb. cbn in Hsp. rewrite Hsp in Hb. by inversion Hb.
  - pose proof (hi_nodes _ _ _ H) as Hn. rewrite Forall_app in Hn. apply Forall_app. split; [tauto|].
    constructor; tauto.
  - apply Forall_forall. intros nd' Hin. rewrite elem_of_app, elem_of_cons in Hin.
    destruct Hin as [?|[->|?]]; [|done|]; (eapply heap_inv_ext; [exact H|rewrite ?elem_of_app, ?elem_of_cons; tauto]).
  - intros r. rewrite ref_count_insert. case_decide as Hr; [|rewrite Z.add_0_r; apply H].
    intros _. destruct (Hcnt r Hr) as (ref&?&?). exists ref. split; [done|lia].
Qed.

(** A node of the string is replaced by another with its address. *)
Lemma heap_inv_node h c l1 nd nd' l2 :
  heap_inv h c (l1 ++ nd :: l2) → nd_addr nd' = nd_addr nd →
  node_ok h (buf_sz c) nd' →
  ext_ok h (own c (l1 ++ nd :: l2)) nd' →
  node_ref_of nd' = node_ref_of nd →
  heap_inv h c (l1 ++ nd' :: l2).
Proof.
  intros H Ha Hok Hext Href. eapply heap_inv_rearrange; [exact H|done|..].
  - by rewrite !own_app_cons, Ha.
  - exact (hi_spare_num _ _ _ H).
  - apply H.
  - pose proof (hi_nodes _ _ _ H) as Hn. rewrite Forall_app, Forall_cons in *. tauto.
  - apply Forall_forall. intros nd0 Hin. rewrite elem_of_app, elem_of_cons in Hin.
    destruct Hin as [?|[->|?]]; [|done|]; (eapply heap_inv_ext; [exact H|rewrite ?elem_of_app, ?elem_of_cons; tauto]).
  - intros r. rewrite ref_count_insert, Href, <- ref_count_insert. apply H.
Qed.

(** A node without a reference joins the spare nodes of its type. *)
Definition push_spare (t : node_type) (l : list positive) (c : Vstr_conf) : Vstr_conf :=
  set_spare t (mkSpare (l ++ sp_nodes (get_spare t c)) (sp_num (get_spare t c) + zlen l)) c.

Lemma push_spare_nil t c : push_spare t [] c = c.
Proof. unfold push_spare. rewrite Z.add_0_r. by destruct c as [[][][][]], t. Qed.
Lemma push_spare_push t l l' c : push_spare t l (push_spare t l' c) = push_spare t (l ++ l') c.
Proof.
  unfold push_spare. rewrite !get_set_spare, set_set_spare. cbn. f_equal. f_equal.
  - by rewrite app_assoc.
  - rewrite length_app. lia.
Qed.
Lemma own_push_spare t l c ns : own (push_spare t l c) ns ≡ₚ l ++ own c ns.
Proof. unfold push_spare. rewrite own_set_spare, (own_perm t c). cbn. by rewrite <- app_assoc. Qed.

Lemma heap_inv_push h c t l1 nd l2 :
  heap_inv h c (l1 ++ nd :: l2) → nd_type nd = t →
  counts_ok h (l1 ++ l2) →
  heap_inv h (push_spare t [nd_addr nd] c) (l1 ++ l2).
Proof.
  intros H Ht Hcnt. pose proof (hi_nodes _ _ _ H) as Hn. rewrite Forall_app, Forall_cons in Hn.
  eapply heap_inv_rearrange; [exact H|..].
  - apply buf_sz_set_spare.
  - rewrite own_push_spare, own_app_cons. done.
  - apply spare_nums_set; [exact (hi_spare_num _ _ _ H)|]. cbn. rewrite (hi_spare_num _ _ _ H). lia.
  - apply spare_buf_set; [apply H|]. intros ->. cbn. constructor; [|apply H].
    destruct Hn as (_&[_ Hb]&_). destruct nd as [? ? []]; try done. by destruct Hb.
  - apply Forall_app. tauto.
  - apply Forall_forall. intros nd0 Hin. rewrite elem_of_app in Hin.
    eapply heap_inv_ext; [exact H|]. rewrite elem_of_app, elem_of_cons. tauto.
  - done.
Qed.

(** ** Writing to the buffer of an owned node *)
Lemma heap_inv_overwrite h c ns a blk blk' :
  heap_inv h c ns → (∀ nd p, nd ∈ ns → node_ext (h_refs h) nd = Some p → p_blk p ≠ a) → ¬ guarded a →
  h_mem h !! a = Some blk → zlen blk' = zlen blk →
  let h' := h_set_mem (<[a := blk']> (h_mem h)) h in
  heap_inv h' c ns ∧
  ∀ nd, nd ∈ ns → nd_addr nd ≠ a ∨ nd_type nd ≠ NODE_BUF → node_bytes h' nd = node_bytes h nd.
Proof.
  intros H Ha Hgd Hblk Hlen h'. destruct h as [m rs nx ma]. cbn in *.
  assert (Hbuf : ∀ x, buf_ok m (buf_sz c) x → buf_ok (<[a:=blk']> m) (buf_sz c) x).
  { intros x (b&Hb&Hz). destruct (decide (x = a)) as [->|].
    - exists blk'. rewrite lookup_insert_eq. split; [done|]. congruence.
    - exists b. by rewrite lookup_insert_ne. }
  assert (Hext : ∀ nd, nd ∈ ns → ∀ p n, node_ext rs nd = Some p →
    load (<[a:=blk']> m) p n = load m p n).
  { intros nd Hnd p n Hp. apply load_insert_ne. by eapply Ha. }
  split.
  - split; try apply H; cbn.
    + pose proof (hi_nodes _ _ _ H) as Hn. rewrite Forall_forall in *. intros nd Hnd.
      destruct (Hn nd Hnd) as [Hl Hok]. split; [done|].
      specialize (Hext nd Hnd). destruct nd as [x l body]. unfold node_ext in Hext.
      destruct body as [| |p|r off]; cbn in *.
      * destruct Hok. auto.
      * done.
      * by rewrite Hext.
      * destruct Hok as (?&?&ref&Hr&Hl'). split; [done|]. split; [done|]. exists ref. split; [done|].
        rewrite Hr in Hext. by rewrite Hext.
    + eapply Forall_impl; [apply (hi_spare_buf _ _ _ H)|]. cbn. auto.
    + intros x. rewrite lookup_insert. case_decide as E; [subst; intros _|]; apply (hi_fresh_mem _ _ _ H); eauto.
    + intros r ref Hr Hpos. destruct (hi_frees _ _ _ H r ref Hr Hpos) as [Hfr Hs].
      split; [|done]. unfold ref_freeable in *. destruct (r_func ref); try done.
      all: destruct Hfr as [? ?]; split; [done|]; rewrite lookup_insert; case_decide; done.
    + intros x bx Hx. rewrite lookup_insert_ne; [by apply (hi_shown _ _ _ H)|]. intros <-. apply Hgd. left. eauto.
  - intros nd Hnd Hne. pose proof (hi_nodes _ _ _ H) as Hn. rewrite Forall_forall in Hn.
    eapply node_frame; [by apply Hn|..]; cbn.
    + intros Ht. rewrite lookup_insert_ne; [done|]. destruct Hne; congruence.
    + intros p Hp. rewrite lookup_insert_ne; [done|]. intros E. by eapply Ha.
    + done.
Qed.
Lemma heap_inv_write h c ns a blk blk' :
  heap_inv h c ns → a ∈ own c ns → h_mem h !! a = Some blk → zlen blk' = zlen blk →
  let h' := h_set_mem (<[a := blk']> (h_mem h)) h in
  heap_inv h' c ns ∧
  ∀ nd, nd ∈ ns → nd_addr nd ≠ a ∨ nd_type nd ≠ NODE_BUF → node_bytes h' nd = node_bytes h nd.
Proof.
  intros H Ha. apply heap_inv_overwrite; [done| |].
  - intros nd p Hnd Hp <-. by eapply (hi_alias _ _ _ H).
  - intros Hg. by apply (hi_guard _ _ _ H) in Hg as (_&?&_).
Qed.

End others.
