(* ===== verification/SpareLemmas.v ===== *)
(** * Making, taking and giving back spare nodes.

    Freeing spare nodes (vstr_free_spare_nodes) *)
From Stdlib Require Import ZArith Lia ZifyBool.
From stdpp Require Import base tactics list numbers option gmap.
From S2P Require Import Prelude State Wp Ref Cache Core Inv PosLemmas.

Section others.
Context {OT : Others}.

(** The heap only grew: what was allocated is as before. *)
Definition heap_grows (h h' : heap) : Prop :=
  (∀ a, is_Some (h_mem h !! a) → h_mem h' !! a = h_mem h !! a) ∧ h_refs h' = h_refs h.
Lemma heap_grows_refl h : heap_grows h h.
Proof. done. Qed.
Lemma heap_grows_trans h1 h2 h3 : heap_grows h1 h2 → heap_grows h2 h3 → heap_grows h1 h3.
Proof.
  intros [Hm Hr] [Hm' Hr']. split; [|congruence]. intros a Ha. rewrite Hm', Hm; try done.
  by rewrite Hm.
Qed.

Lemma heap_grows_load h h' p n bs :
  heap_grows h h' → load (h_mem h) p n = Some bs → load (h_mem h') p n = Some bs.
Proof.
  intros [Hm _] Hl. rewrite <- Hl. apply load_eq, Hm.
  apply load_Some in Hl as (blk&->&_). done.
Qed.
Lemma node_ext_alloc h bsz nd p :
  node_ok h bsz nd → node_ext (h_refs h) nd = Some p → is_Some (h_mem h !! p_blk p).
Proof.
  destruct nd as [a l body]. unfold node_ok, node_ext. destruct body as [| |q|r off]; cbn; try done.
  - intros [_ [bs (blk&Hb&_)%load_Some]] [= <-]. by rewrite Hb.
  - intros (_&_&_&ref&->&[bs (blk&Hb&_)%load_Some]) [= <-]. by rewrite Hb.
Qed.
Lemma heap_grows_node h h' bsz nd :
  heap_grows h h' → node_ok h bsz nd →
  node_ok h' bsz nd ∧ node_bytes h' nd = node_bytes h nd ∧
  node_ext (h_refs h') nd = node_ext (h_refs h) nd.
Proof.
  intros [Hm Hr] Hok. eapply node_frame; [exact Hok|..].
  - intros Ht. apply Hm. destruct nd as [a l []]; try done. destruct Hok as (_&_&blk&Hb&_).
    by rewrite Hb.
  - intros p Hp. apply Hm. by eapply node_ext_alloc.
  - intros r _. by rewrite Hr.
Qed.
Lemma heap_grows_chain h h' bsz ns :
  heap_grows h h' → Forall (node_ok h bsz) ns → chain_bytes h' ns = chain_bytes h ns.
Proof.
  intros Hg Hns. rewrite Forall_forall in Hns. apply chain_frame. intros nd Hnd.
  eapply heap_grows_node; eauto.
Qed.

(** A configuration that differs in its spare nodes and in malloc_bad only *)
Definition conf_same (c c' : Vstr_conf) : Prop :=
  buf_sz c' = buf_sz c ∧ iov_min_alloc c' = iov_min_alloc c ∧
  iov_min_offset c' = iov_min_offset c ∧ split_buf_del c' = split_buf_del c.
Lemma conf_same_refl c : conf_same c c.
Proof. done. Qed.
Lemma conf_same_trans c1 c2 c3 : conf_same c1 c2 → conf_same c2 c3 → conf_same c1 c3.
Proof. intros (?&?&?&?) (?&?&?&?). split_and!; congruence. Qed.
Lemma conf_same_set_spare t sp c : conf_same c (set_spare t sp c).
Proof. by destruct c, t. Qed.
Lemma conf_same_malloc_bad v c : conf_same c (set_malloc_bad v c).
Proof. by destruct c. Qed.

Lemma heap_inv_malloc_bad h c ns v : heap_inv h c ns → heap_inv h (set_malloc_bad v c) ns.
Proof.
  intros H. assert (own (set_malloc_bad v c) ns = own c ns) as E by by destruct c.
  split; rewrite ?E; try (by destruct c; apply H).
Qed.

(** A fresh address *)
Lemma heap_inv_fresh h c ns :
  heap_inv h c ns → (h_next h ∉ own c ns) ∧ h_mem h !! h_next h = None ∧ h_refs h !! h_next h = None.
Proof.
  intros H. split_and!.
  - intros Hin. pose proof (hi_fresh_own _ _ _ H) as Hf. rewrite Forall_forall in Hf.
    specialize (Hf _ Hin). lia.
  - apply eq_None_not_Some. intros Hs%(hi_fresh_mem _ _ _ H). lia.
  - apply eq_None_not_Some. intros Hs%(hi_fresh_ref _ _ _ H). lia.
Qed.

Definition spare_mem (t : node_type) (bsz : Z) (a : positive) (m : memory) : memory :=
  if decide (t = NODE_BUF) then <[a := zrep bsz 0]> m else m.

Lemma heap_inv_make_spare h c ns t ma :
  heap_inv h c ns → zlen (own c ns) + o_num + 1 ≤ UINT_MAX →
  let h' := mkHeap (spare_mem t (buf_sz c) (h_next h) (h_mem h)) (h_refs h)
                   (Pos.succ (h_next h)) ma in
  heap_inv h' (push_spare t [h_next h] c) ns ∧ heap_grows h h'.
Proof.
  intros H Hroom h'. destruct (heap_inv_fresh _ _ _ H) as (Hown&Hmem&Href).
  assert (Hg : heap_grows h h').
  { split; [|done]. intros a Ha. cbn. unfold spare_mem. case_decide; [|done].
    rewrite lookup_insert_ne; [done|]. intros <-. by rewrite Hmem in Ha. }
  split; [|done].
  pose proof (hi_nodes _ _ _ H) as Hns. rewrite Forall_forall in Hns.
  assert (Hperm : own (push_spare t [h_next h] c) ns ≡ₚ h_next h :: own c ns) by apply own_push_spare.
  assert (Hbuf : ∀ x, buf_ok (h_mem h) (buf_sz c) x → buf_ok (h_mem h') (buf_sz c) x).
  { intros x (b&Hb&Hz). exists b. rewrite <- Hb. split; [|done]. apply Hg. by rewrite Hb. }
  assert (Hsz : buf_sz (push_spare t [h_next h] c) = buf_sz c) by apply buf_sz_set_spare.
  split; rewrite ?Hsz; try apply H.
  - rewrite Forall_forall. intros nd Hnd. eapply heap_grows_node; eauto.
  - apply spare_nums_set; [exact (hi_spare_num _ _ _ H)|]. cbn. rewrite (hi_spare_num _ _ _ H). lia.
  - apply spare_buf_set.
    + eapply Forall_impl; [apply (hi_spare_buf _ _ _ H)|]. cbn. auto.
    + intros ->. cbn. constructor.
      * exists (zrep (buf_sz c) 0). unfold spare_mem. rewrite decide_True, lookup_insert_eq by done.
        split; [done|]. rewrite length_zrep. pose proof (hi_bsz _ _ _ H). lia.
      * eapply Forall_impl; [apply (hi_spare_buf _ _ _ H)|]. cbn. auto.
  - rewrite Hperm. cbn. lia.
  - rewrite Hperm. constructor; [done|apply H].
  - rewrite Hperm. constructor; [cbn; lia|].
    eapply Forall_impl; [apply (hi_fresh_own _ _ _ H)|]. cbn. lia.
  - cbn. intros a. unfold spare_mem. case_decide.
    + rewrite lookup_insert. case_decide; [subst; lia|].
      intros Ha%(hi_fresh_mem _ _ _ H). lia.
    + intros Ha%(hi_fresh_mem _ _ _ H). lia.
  - cbn. intros r Hr%(hi_fresh_ref _ _ _ H). lia.
  - intros nd p Hnd Hp. rewrite Hperm, not_elem_of_cons. split; [|by eapply (hi_alias _ _ _ H)].
    intros E. pose proof (node_ext_alloc _ _ _ _ (Hns _ Hnd) Hp) as Ha. by rewrite E, Hmem in Ha.
  - cbn. intros r ref Hr Hpos. destruct (hi_frees _ _ _ H r ref Hr Hpos) as [Hf Hs]. split.
    + unfold ref_freeable in *. destruct (r_func ref); try done.
      all: destruct Hf as [? Ha]; split; [done|]; by rewrite (proj1 Hg).
    + intros blk Hblk. destruct (Hs _ Hblk) as [Hb Hn]. split; [|done].
      rewrite Hperm, not_elem_of_cons. split; [|done]. intros ->.
      pose proof (hi_fresh_ref _ _ _ H r ltac:(by rewrite Hr)).
      unfold ref_frees, ref_freeable in *. destruct (r_func ref); try done.
      * lia.
      * destruct Hf as [_ Ha]. by rewrite <- Hblk, Hmem in Ha.
      * destruct Hf as [_ Ha]. destruct Hblk as [E|?]; [by rewrite <- E, Hmem in Ha|lia].
  - intros a blk Ha. rewrite (proj1 Hg); [by apply (hi_shown _ _ _ H)|]. by rewrite (hi_shown _ _ _ H _ _ Ha).
  - cbn. intros a Ha. destruct (hi_guard _ _ _ H a Ha) as (?&?&?).
    rewrite Hperm, not_elem_of_cons. split_and!; [lia|intros ->; lia|done|done].
Qed.

(** What making spare nodes guarantees *)
Record spare_step (t : node_type) (n : Z) (s s' : St) : Prop := {
  ss_base : s_base s' = s_base s;
  ss_heap : heap_inv (s_heap s') (s_conf s') (b_nodes (s_base s));
  ss_grows : heap_grows (s_heap s) (s_heap s');
  ss_conf : conf_same (s_conf s) (s_conf s');
  ss_own : zlen (own (s_conf s') (b_nodes (s_base s)))
             ≤ zlen (own (s_conf s) (b_nodes (s_base s))) + n;
  ss_fresh : ∀ a, a ∈ own (s_conf s') (b_nodes (s_base s)) →
    a ∈ own (s_conf s) (b_nodes (s_base s)) ∨ h_mem (s_heap s) !! a = None }.

Lemma spare_step_refl t n s :
  heap_inv (s_heap s) (s_conf s) (b_nodes (s_base s)) → 0 ≤ n → spare_step t n s s.
Proof. intros. split; try done; [lia|auto]. Qed.

Lemma vstr__make_spare_node_spec t s :
  heap_inv (s_heap s) (s_conf s) (b_nodes (s_base s)) →
  zlen (own (s_conf s) (b_nodes (s_base s))) + o_num + 1 ≤ UINT_MAX →
  wp (vstr__make_spare_node t) s (λ ok s', spare_step t 1 s s' ∧
    sp_num (get_spare t (s_conf s')) = sp_num (get_spare t (s_conf s)) + (if ok then 1 else 0) ∧
    malloc_bad (s_conf s') = (malloc_bad (s_conf s) || negb ok)).
Proof.
  destruct s as [h c b]. cbn. intros H Hroom.
  pose proof (proj1 (proj2 (heap_inv_fresh _ _ _ H))) as Hfresh.
  unfold vstr__make_spare_node. wp_steps. cbn. unfold wp at 1, malloc. cbn.
  destruct h as [m rs nx ma]. cbn in *.
  assert (Hfail : wp (upd_conf (set_malloc_bad true);; mret false)
     (mkSt (mkHeap m rs nx (tail ma)) c b) (λ ok s', spare_step t 1 (mkSt (mkHeap m rs nx ma) c b) s' ∧
    sp_num (get_spare t (s_conf s')) = sp_num (get_spare t c) + (if ok : bool then 1 else 0) ∧
    malloc_bad (s_conf s') = (malloc_bad c || negb ok))).
  { wp_steps. split_and!; [|by destruct c, t; cbn; lia|destruct c; cbn; by rewrite orb_true_r].
    split; cbn; try done.
    - apply heap_inv_malloc_bad. by destruct H.
    - by destruct c.
    - destruct c; cbn. unfold own, spares in *. cbn. lia.
    - intros a. destruct c; cbn. unfold own, spares in *. cbn. auto. }
  assert (Hsucc : ∀ ma', wp ((if decide (t = NODE_BUF)
     then upd_heap (λ h, h_set_mem (<[nx := zrep (buf_sz c) 0]> (h_mem h)) h) else mret tt);;
    upd_conf (λ c, let sp := get_spare t c in
      set_spare t (mkSpare (nx :: sp_nodes sp) (u32 (sp_num sp + 1))) c);;
    mret true) (mkSt (mkHeap m rs (Pos.succ nx) ma') c b) (λ ok s',
     spare_step t 1 (mkSt (mkHeap m rs nx ma) c b) s' ∧
    sp_num (get_spare t (s_conf s')) = sp_num (get_spare t c) + (if ok : bool then 1 else 0) ∧
    malloc_bad (s_conf s') = (malloc_bad c || negb ok))).
  { intros ma'. destruct (heap_inv_make_spare _ _ _ t ma' H Hroom) as [H' Hg]. cbn in *.
    wp_step.
    assert (Hn : 0 ≤ sp_num (get_spare t c) < UINT_MAX).
    { rewrite (hi_spare_num _ _ _ H). rewrite (own_perm t c), length_app in Hroom. pose proof o_num_nonneg. lia. }
    assert (Hpush : set_spare t (mkSpare (nx :: sp_nodes (get_spare t c))
       (u32 (sp_num (get_spare t c) + 1))) c = push_spare t [nx] c).
    { unfold push_spare. cbn. by rewrite u32_id by (unfold UINT_MAX in *; lia). }
    unfold spare_mem in *.
    case_decide; wp_steps; cbn; (split_and!;
      [|rewrite Hpush; unfold push_spare; rewrite get_set_spare; cbn; lia
       |rewrite Hpush; destruct c, t; cbn; by rewrite orb_false_r]);
      (split; cbn; rewrite ?Hpush; [done|done|done|apply conf_same_set_spare|..]);
      [rewrite own_push_spare; cbn; lia| |rewrite own_push_spare; cbn; lia|];
      (intros a; rewrite own_push_spare; cbn; rewrite elem_of_cons;
       intros [->|?]; [right; apply Hfresh|by left]). }
  destruct ma as [|[] ma]; [apply Hsucc|apply Hsucc|apply Hfail].
Qed.

Lemma spare_step_trans t n1 n2 s1 s2 s3 :
  spare_step t n1 s1 s2 → spare_step t n2 s2 s3 → spare_step t (n1 + n2) s1 s3.
Proof.
  intros [B1 H1 G1 C1 O1 F1] [B2 H2 G2 C2 O2 F2]. rewrite B1 in *. split.
  - by rewrite B2.
  - done.
  - by eapply heap_grows_trans.
  - by eapply conf_same_trans.
  - lia.
  - intros a Ha. destruct (F2 a Ha) as [?|Hn]; [auto|]. right.
    apply eq_None_not_Some. intros Hs. rewrite (proj1 G1 a Hs) in Hn. by rewrite Hn in Hs.
Qed.
Lemma spare_step_weaken t n n' s s' : spare_step t n s s' → n ≤ n' → spare_step t n' s s'.
Proof. intros [] ?. split; auto. lia. Qed.

Lemma vstr_make_spare_nodes_spec t n s :
  heap_inv (s_heap s) (s_conf s) (b_nodes (s_base s)) →
  zlen (own (s_conf s) (b_nodes (s_base s))) + o_num + Z.of_nat n ≤ UINT_MAX →
  wp (vstr_make_spare_nodes t n) s (λ k s', spare_step t (Z.of_nat n) s s' ∧
    0 ≤ k ≤ Z.of_nat n ∧
    sp_num (get_spare t (s_conf s')) = sp_num (get_spare t (s_conf s)) + k ∧
    malloc_bad (s_conf s') = (malloc_bad (s_conf s) || bool_decide (k ≠ Z.of_nat n))).
Proof.
  revert s. induction n as [|n IH]; intros s H Hroom; cbn [vstr_make_spare_nodes].
  { wp_steps. split_and!; [by apply spare_step_refl|lia..|]. cbn. by rewrite orb_false_r. }
  wp_step. wp_apply vstr__make_spare_node_spec; [done|lia|].
  intros ok s1 (Hs1&Hn1&Hm1). destruct ok; wp_steps.
  - wp_apply IH; [by rewrite (ss_base _ _ _ _ Hs1); apply Hs1| |].
    { destruct Hs1 as [B1 ? ? ? O1 ?]. rewrite B1. lia. }
    intros k s2 (Hs2&Hk&Hn2&Hm2). wp_steps. split_and!; [|lia..|].
    + eapply spare_step_weaken; [eapply spare_step_trans; eassumption|lia].
    + rewrite Hm2, Hm1. destruct (malloc_bad (s_conf s)); cbn; [done|]. apply bool_decide_ext. lia.
  - split_and!; [eapply spare_step_weaken; [eassumption|lia]|lia..|].
    rewrite Hm1. destruct (malloc_bad (s_conf s)); cbn; [done|]. by rewrite bool_decide_eq_true_2 by lia.
Qed.

(** The spare node options of vstr_cntl_conf deliver the nodes or report failure. *)
Lemma cntl_conf_set_num_range_spare_spec t n s :
  heap_inv (s_heap s) (s_conf s) (b_nodes (s_base s)) → 0 ≤ n →
  zlen (own (s_conf s) (b_nodes (s_base s))) + o_num + n ≤ UINT_MAX →
  wp (cntl_conf_set_num_range_spare t n UINT_MAX) s (λ ok s', spare_step t n s s' ∧
    (ok = true → n ≤ zlen (sp_nodes (get_spare t (s_conf s')))) ∧
    malloc_bad (s_conf s') = (malloc_bad (s_conf s) || negb ok)).
Proof.
  intros H Hn0 Hroom. unfold cntl_conf_set_num_range_spare. wp_steps.
  pose proof (hi_spare_num _ _ _ H t) as Hnum.
  assert (Hle : zlen (sp_nodes (get_spare t (s_conf s))) ≤ zlen (own (s_conf s) (b_nodes (s_base s)))).
  { rewrite (own_perm t (s_conf s)), length_app. lia. }
  case_decide as Hd.
  - unfold cntl_conf_set_num_spare. wp_steps. case_decide; [lia|]. case_decide; [|lia].
    wp_step. wp_apply vstr_make_spare_nodes_spec; [done|lia|].
    intros k s' (Hs&Hk&Hn&Hm). wp_steps. split_and!.
    + eapply spare_step_weaken; [eassumption|]. lia.
    + intros Hok%bool_decide_eq_true. rewrite <- (hi_spare_num _ _ _ (ss_heap _ _ _ _ Hs)). lia.
    + rewrite Hm. f_equal. rewrite <- bool_decide_not. apply bool_decide_ext. lia.
  - case_decide; [pose proof o_num_nonneg; lia|]. wp_steps. split_and!; [by apply spare_step_refl|lia|].
    cbn. by rewrite orb_false_r.
Qed.

(** Taking a spare node hands over its address. *)
Lemma pop_spare_spec t s a rest :
  sp_nodes (get_spare t (s_conf s)) = a :: rest →
  wp (pop_spare t) s (λ a' s', a' = a ∧
    s' = on_conf (set_spare t (mkSpare rest (u32 (sp_num (get_spare t (s_conf s)) - 1)))) s).
Proof. intros Hsp. unfold pop_spare. wp_steps. rewrite Hsp. wp_steps. done. Qed.

End others.

Section others.
Context {OT : Others}.

Definition free_block (a : positive) (h : heap) : heap := h_set_mem (delete a (h_mem h)) h.

(** A block that is only a spare node can be freed. *)
Lemma heap_inv_free_spare h c c' ns a t :
  heap_inv h (push_spare t [a] c') ns → c = push_spare t [a] c' → heap_inv (free_block a h) c' ns.
Proof.
  intros H Hc. pose proof (own_push_spare t [a] c' ns) as Hperm. cbn [app] in Hperm.
  pose proof (hi_nodup _ _ _ H) as Hnd. rewrite Hperm in Hnd. apply NoDup_cons in Hnd as [Ha Hnd].
  assert (Hsz : buf_sz (push_spare t [a] c') = buf_sz c') by apply buf_sz_set_spare.
  assert (Hin : ∀ x, x ∈ own c' ns → x ∈ own (push_spare t [a] c') ns).
  { intros x Hx. rewrite Hperm. by apply elem_of_cons; right. }
  assert (Haown : a ∈ own (push_spare t [a] c') ns) by (rewrite Hperm; by apply elem_of_cons; left).
  assert (Hmem : ∀ x, x ≠ a → h_mem (free_block a h) !! x = h_mem h !! x).
  { intros x Hx. destruct h. cbn. by apply lookup_delete_ne. }
  assert (Eh : h_refs (free_block a h) = h_refs h ∧ h_next (free_block a h) = h_next h) by by destruct h.
  destruct Eh as [Er En].
  pose proof (hi_nodes _ _ _ H) as Hns. rewrite Forall_forall, Hsz in Hns.
  assert (Hnode : ∀ nd, nd ∈ ns → node_ok (free_block a h) (buf_sz c') nd ∧
    node_ext (h_refs (free_block a h)) nd = node_ext (h_refs h) nd).
  { intros nd Hn. destruct (node_frame h (free_block a h) (buf_sz c') nd) as (?&_&?); [by apply Hns| | | |done].
    - intros _. apply Hmem. intros <-. apply Ha, elem_of_app. left. by apply list_elem_of_fmap_2.
    - intros p Hp. apply Hmem. intros E. apply (hi_alias _ _ _ H nd p Hn Hp). by rewrite E.
    - by rewrite Er. }
  split.
  - rewrite <- Hsz. apply H.
  - rewrite Forall_forall. intros nd Hn. by apply Hnode.
  - intros t'. pose proof (hi_spare_num _ _ _ H t') as Hn. unfold push_spare in Hn.
    destruct (decide (t = t')) as [<-|Hne]; [rewrite get_set_spare in Hn; cbn in Hn; lia|by rewrite get_set_spare_ne in Hn].
  - pose proof (hi_spare_buf _ _ _ H) as Hb. rewrite Hsz in Hb. rewrite Forall_forall in Hb |- *.
    intros x Hx. assert (Hxo : x ∈ own c' ns) by (apply elem_of_app; right; by apply elem_of_app; left).
    destruct (Hb x) as (blk&Hx'&Hl).
    { unfold push_spare. destruct c', t; cbn in *; try done. by apply elem_of_cons; right. }
    exists blk. split; [|done]. rewrite Hmem; [done|]. by intros ->.
  - pose proof (hi_total_all _ _ _ H) as Ht. rewrite Hperm in Ht. cbn in Ht. lia.
  - done.
  - rewrite En. pose proof (hi_fresh_own _ _ _ H) as Hf. rewrite Hperm in Hf. by apply Forall_cons in Hf as [_ Hf].
  - rewrite En. intros x Hx. apply (hi_fresh_mem _ _ _ H). destruct (decide (x = a)) as [->|Hne]; [|by rewrite <- (Hmem x)].
    destruct h. cbn in Hx. rewrite lookup_delete_eq in Hx. by destruct Hx.
  - rewrite Er, En. apply H.
  - intros nd p Hn. rewrite (proj2 (Hnode nd Hn)). intros Hp Hx. by apply (hi_alias _ _ _ H nd p Hn Hp), Hin.
  - intros nd p Hn. rewrite (proj2 (Hnode nd Hn)). by apply (hi_alias_others _ _ _ H).
  - rewrite Er. apply H.
  - rewrite Er. intros r ref Hr Hp. destruct (hi_frees _ _ _ H r ref Hr Hp) as [Hf Hs]. split.
    + unfold ref_freeable in *. destruct (r_func ref) eqn:Ef; try done.
      all: destruct Hf as [? Hm]; (split; [done|]); (rewrite Hmem; [done|]); intros E.
      all: destruct (Hs a) as [Hn _]; [unfold ref_frees; rewrite Ef; cbn; auto|done].
    + intros blk Hblk. destruct (Hs blk Hblk) as [Hn He]. split; [by intros Hx; apply Hn, Hin|].
      exact He.
  - rewrite Er. apply H.
  - intros x blk Hx. rewrite Hmem; [by apply (hi_shown _ _ _ H)|]. intros ->.
    destruct (hi_guard _ _ _ H a) as (_&Hn&_); [left; by eexists|done].
  - rewrite Er, En. intros x Hx. destruct (hi_guard _ _ _ H x Hx) as (?&Hn&?). split_and!; [done| |done].
    by intros ?; apply Hn, Hin.
  - rewrite Er. apply H.
Qed.

(** The memory without some blocks *)
Definition mem_without (l : list positive) (h h' : heap) : Prop :=
  h_refs h' = h_refs h ∧ ∀ a, h_mem h' !! a = if decide (a ∈ l) then None else h_mem h !! a.
Lemma mem_without_nil h : mem_without [] h h.
Proof. split; [done|]. intros a. by rewrite decide_False by apply not_elem_of_nil. Qed.
Lemma mem_without_trans l1 l2 h h1 h2 : mem_without l1 h h1 → mem_without l2 h1 h2 → mem_without (l1 ++ l2) h h2.
Proof.
  intros [R1 M1] [R2 M2]. split; [congruence|]. intros a. rewrite M2, M1.
  destruct (decide (a ∈ l2)), (decide (a ∈ l1)), (decide (a ∈ l1 ++ l2)) as [Hx|Hx]; rewrite elem_of_app in Hx; tauto.
Qed.

(** Freeing all spare nodes of a type *)
Lemma vstr_free_spare_nodes_spec t n : ∀ s,
  heap_inv (s_heap s) (s_conf s) (b_nodes (s_base s)) → n = length (sp_nodes (get_spare t (s_conf s))) →
  wp (vstr_free_spare_nodes t n) s (λ _ s', s_base s' = s_base s ∧
    heap_inv (s_heap s') (s_conf s') (b_nodes (s_base s)) ∧ s_conf s' = set_spare t (mkSpare [] 0) (s_conf s) ∧
    mem_without (sp_nodes (get_spare t (s_conf s))) (s_heap s) (s_heap s')).
Proof.
  induction n as [|n IH]; intros s H Hn; cbn [vstr_free_spare_nodes].
  - wp_step. split; [done|]. split; [done|]. pose proof (hi_spare_num _ _ _ H t) as Hnum.
    destruct (get_spare t (s_conf s)) as [l k] eqn:Eg. destruct l; [|done]. cbn in Hnum. subst k.
    change (Z.of_nat 0) with 0 in Eg. rewrite <- Eg. split; [by rewrite set_get_spare|]. apply mem_without_nil.
  - pose proof (hi_spare_num _ _ _ H t) as Hnum. pose proof (hi_total _ _ _ H) as Ht.
    destruct (get_spare t (s_conf s)) as [l k] eqn:Eg. cbn in Hn, Hnum. destruct l as [|a l]; [done|].
    unfold vstr__free_spare_node. wp_step. wp_step. apply wp_gets. rewrite Eg. cbn [sp_nodes sp_num].
    wp_step. apply wp_modify. wp_step. apply wp_modify. wp_step. set (s1 := on_heap _ _).
    rewrite (own_perm t), Eg, !length_app in Ht. cbn [sp_nodes length] in Ht, Hnum.
    assert (Hk : u32 (k - 1) = zlen l) by (rewrite u32_id; unfold UINT_MAX in *; lia).
    assert (E1 : s_conf s1 = set_spare t (mkSpare l (zlen l)) (s_conf s)) by (unfold s1; cbn; by rewrite Hk).
    assert (H1 : heap_inv (s_heap s1) (s_conf s1) (b_nodes (s_base s1))).
    { rewrite E1. unfold s1. cbn [s_heap s_base on_heap on_conf]. eapply heap_inv_free_spare; [|done].
      unfold push_spare. rewrite get_set_spare, set_set_spare. cbn [sp_nodes sp_num app].
      replace (mkSpare (a :: l) _) with (get_spare t (s_conf s)); [by rewrite set_get_spare|].
      rewrite Eg. f_equal. cbn [length]. lia. }
    wp_step. eapply wp_mono; [apply IH; [exact H1|rewrite E1, get_set_spare; by injection Hn]|].
    intros cnt s' (Eb&H'&Ec&Em). wp_step. split; [exact Eb|]. split; [exact H'|]. split; [by rewrite Ec, E1, set_set_spare|].
    rewrite E1, get_set_spare in Em. apply (mem_without_trans [a] l) with (h1 := s_heap s1); [|exact Em].
    unfold s1. cbn [s_heap on_heap on_conf]. destruct (s_heap s). split; [done|]. intros x. cbn. rewrite lookup_delete.
    destruct (decide (a = x)) as [<-|Hne]; [by rewrite decide_True by by apply list_elem_of_singleton|].
    rewrite decide_False; [done|]. rewrite list_elem_of_singleton. congruence.
Qed.
End others.
