(* ===== verification/SplitLemmas.v ===== *)
(** * Splitting a node and normalising the first node leave the bytes alone. *)
From Stdlib Require Import ZArith Lia ZifyBool.
From stdpp Require Import base tactics list numbers option gmap.
From S2P Require Import Prelude State Wp Ref Cache Core Inv PosLemmas SpareLemmas.

Section others.
Context {OT : Others}.

(** ** The part of the memory that is not owned *)
Definition st_own (s : St) : list positive := own (s_conf s) (b_nodes (s_base s)).

(** Memory of others is untouched, and stays memory of others. *)
Definition mem_frame (s s' : St) : Prop :=
  ∀ a, is_Some (h_mem (s_heap s) !! a) → a ∉ st_own s →
    (h_mem (s_heap s') !! a = h_mem (s_heap s) !! a) ∧ a ∉ st_own s'.
Lemma mem_frame_refl s : mem_frame s s.
Proof. done. Qed.
Lemma mem_frame_trans s1 s2 s3 : mem_frame s1 s2 → mem_frame s2 s3 → mem_frame s1 s3.
Proof.
  intros H1 H2 a Ha Hn. destruct (H1 a Ha Hn) as [E1 N1].
  destruct (H2 a) as [E2 N2]; [by rewrite E1|done|]. split; [congruence|done].
Qed.
Lemma mem_frame_load s s' p n bs :
  mem_frame s s' → load (h_mem (s_heap s)) p n = Some bs → p_blk p ∉ st_own s →
  load (h_mem (s_heap s')) p n = Some bs ∧ p_blk p ∉ st_own s'.
Proof.
  intros Hf Hl Hn. destruct (Hf (p_blk p)) as [E N].
  - apply load_Some in Hl as (blk&->&_). done.
  - done.
  - split; [|done]. rewrite <- Hl. by apply load_eq.
Qed.
Lemma spare_step_frame t n s s' : spare_step t n s s' → mem_frame s s'.
Proof.
  intros [B H G C O F] a Ha Hn. split; [by apply G|]. unfold st_own in *. rewrite B.
  intros Hin. destruct (F a Hin) as [?|E]; [done|]. by rewrite E in Ha.
Qed.

(** References may only be taken, at most [k] times each. *)
Definition ref_step (k : Z) (a b : Vstr_ref) : Prop :=
  r_func b = r_func a ∧ r_ptr b = r_ptr a ∧ r_ref a ≤ r_ref b ≤ r_ref a + k ∧
  (r_ref a ≤ 0 → r_ref b = r_ref a).
Definition refs_step (k : Z) (rs rs' : gmap positive Vstr_ref) : Prop :=
  ∀ r, option_Forall2 (ref_step k) (rs !! r) (rs' !! r).
Lemma refs_step_refl k rs : 0 ≤ k → refs_step k rs rs.
Proof. intros Hk r. destruct (rs !! r); constructor. split_and!; [done|done|lia|lia|done]. Qed.
Lemma refs_step_trans k1 k2 rs1 rs2 rs3 :
  refs_step k1 rs1 rs2 → refs_step k2 rs2 rs3 → refs_step (k1 + k2) rs1 rs3.
Proof.
  intros H1 H2 r. specialize (H1 r). specialize (H2 r).
  destruct H1 as [a b (?&?&?&?)|]; inversion H2 as [a' b' (?&?&?&?)|]; subst; constructor.
  split_and!; try congruence; lia.
Qed.
Lemma refs_step_weaken k k' rs rs' : refs_step k rs rs' → k ≤ k' → refs_step k' rs rs'.
Proof.
  intros H Hk r. destruct (H r) as [a b (?&?&?&?)|]; constructor. split_and!; try done; lia.
Qed.
Lemma refs_step_get k rs rs' r ref' :
  refs_step k rs rs' → rs' !! r = Some ref' →
  ∃ ref, rs !! r = Some ref ∧ ref_step k ref ref'.
Proof. intros H E. specialize (H r). rewrite E in H. inversion H; subst; eauto. Qed.
Lemma refs_step_put k rs rs' r ref :
  refs_step k rs rs' → rs !! r = Some ref → ∃ ref', rs' !! r = Some ref' ∧ ref_step k ref ref'.
Proof. intros H E. specialize (H r). rewrite E in H. inversion H; subst; eauto. Qed.

(** ** Prefixes and suffixes of a node *)
Lemma node_bytes_prefix h bsz nd k :
  node_ok h bsz nd → 0 ≤ k ≤ nd_len nd →
  node_bytes h (nd_set_len k nd) = ztake k (node_bytes h nd).
Proof.
  destruct nd as [a len body]. unfold node_ok, node_bytes, nd_set_len.
  assert (Hload : ∀ p bs, load (h_mem h) p len = Some bs → 0 ≤ k ≤ len →
    match load (h_mem h) p k with Some bs => Some <$> bs | None => [] end = ztake k (Some <$> bs)).
  { intros p bs Hl Hk. rewrite (load_prefix _ _ _ _ _ Hl Hk). by rewrite ztake_fmap. }
  destruct body as [| |p|r off]; cbn; intros [Hlen Hok] Hk.
  - destruct Hok as (?&blk&Hb&?). rewrite (load_buf _ _ _ len Hb) by lia.
    rewrite <- Hload with (p := Ptr a 0); [done|by apply load_buf; [|lia]|lia].
  - rewrite ztake_zrep. f_equal. lia.
  - destruct Hok as [bs Hbs]. rewrite Hbs. by apply Hload.
  - destruct Hok as (?&?&ref&Hr&[bs Hbs]). rewrite Hr. cbn. rewrite Hbs. by apply Hload.
Qed.
Lemma node_ok_prefix h bsz nd k :
  node_ok h bsz nd → 0 < k ≤ nd_len nd → node_ok h bsz (nd_set_len k nd).
Proof.
  destruct nd as [a len body]. unfold node_ok, nd_set_len.
  destruct body as [| |p|r off]; cbn; intros [Hlen Hok] Hk; (split; [lia|]).
  - destruct Hok. split; [lia|done].
  - done.
  - destruct Hok as [bs Hbs]. rewrite (load_prefix _ _ _ k _ Hbs) by lia. done.
  - destruct Hok as (?&?&ref&Hr&[bs Hbs]). split; [lia|]. split; [lia|]. exists ref.
    split; [done|]. rewrite (load_prefix _ _ _ k _ Hbs) by lia. done.
Qed.

Definition body_drop (k : Z) (body : node_body) : node_body :=
  match body with
  | Node_ptr p => Node_ptr (ptr_add p k)
  | Node_ref r off => Node_ref r (off + k)
  | body => body
  end.

(** The rest of a node that is not a BUF node *)
Lemma node_bytes_suffix h bsz nd a k :
  node_ok h bsz nd → nd_type nd ≠ NODE_BUF → 0 ≤ k < nd_len nd →
  let nd' := mkNode a (nd_len nd - k) (body_drop k (nd_body nd)) in
  node_ok h bsz nd' ∧ node_bytes h nd' = zdrop k (node_bytes h nd).
Proof.
  destruct nd as [a0 len body]. intros Hok Hty Hk nd'. unfold node_ok, node_bytes, nd_type in *.
  assert (Hload : ∀ p bs, load (h_mem h) p len = Some bs →
    load (h_mem h) (ptr_add p k) (len - k) = Some (zdrop k bs)).
  { intros p bs Hl. cbn in Hk. rewrite (load_sub _ _ _ k (len - k) _ Hl) by lia. f_equal.
    apply load_length in Hl. apply ztake_all. rewrite length_zdrop. lia. }
  destruct body as [| |p|r off]; cbn in *; destruct Hok as [Hlen Hok]; try done.
  - split; [lia|]. rewrite zdrop_zrep by lia. done.
  - destruct Hok as [bs Hbs]. rewrite (Hload _ _ Hbs), Hbs, zdrop_fmap. split; [split; [lia|done]|done].
  - destruct Hok as (?&?&ref&Hr&[bs Hbs]). rewrite Hr. cbn. rewrite <- ptr_add_add, Hbs.
    rewrite (Hload _ _ Hbs), zdrop_fmap. split; [|done]. split; [lia|]. split; [lia|].
    split; [lia|]. exists ref. rewrite <- ptr_add_add, (Hload _ _ Hbs). done.
Qed.

(** ** Reference counts *)
Lemma heap_inv_ref_add h c ns r ref :
  heap_inv h c ns → h_refs h !! r = Some ref → 0 < r_ref ref < UINT_MAX →
  let h' := h_set_refs (<[r := mkRef (r_func ref) (r_ptr ref) (r_ref ref + 1)]> (h_refs h)) h in
  heap_inv h' c ns ∧ (∀ nd, nd ∈ ns → node_bytes h' nd = node_bytes h nd) ∧
  (∀ nd, node_ext (h_refs h') nd = node_ext (h_refs h) nd).
Proof.
  intros H Hr Hpos h'. set (ref' := mkRef _ _ _) in *.
  assert (Hl : ∀ x, (h_refs h' !! x = h_refs h !! x ∧ x ≠ r) ∨ (x = r ∧ h_refs h' !! x = Some ref')).
  { intros x. destruct h; cbn in *. rewrite lookup_insert. case_decide; [right; subst; done|left; done]. }
  assert (Hsame : ∀ nd, refs_same (h_refs h) (h_refs h') nd).
  { intros nd x _. destruct (Hl x) as [[-> _]|[-> ->]]; [done|]. by rewrite Hr. }
  assert (Hmem : h_mem h' = h_mem h) by by destruct h.
  assert (Hext : ∀ nd, node_ext (h_refs h') nd = node_ext (h_refs h) nd).
  { intros nd. unfold node_ext. destruct (nd_body nd) as [| |?|x off]; try done.
    destruct (Hl x) as [[-> _]|[-> ->]]; [done|]. by rewrite Hr. }
  pose proof (hi_nodes _ _ _ H) as Hns. rewrite Forall_forall in Hns.
  assert (Hnode : ∀ nd, nd ∈ ns → node_ok h' (buf_sz c) nd ∧ node_bytes h' nd = node_bytes h nd ∧
    node_ext (h_refs h') nd = node_ext (h_refs h) nd).
  { intros nd Hnd. apply node_frame; [by apply Hns|by intros; rewrite Hmem..|done]. }
  assert (Hback : ∀ x rx, h_refs h' !! x = Some rx → 0 < r_ref rx →
    ∃ r0, h_refs h !! x = Some r0 ∧ 0 < r_ref r0 ∧ r_func rx = r_func r0 ∧ r_ptr rx = r_ptr r0).
  { intros x rx Hx Hxpos. destruct (Hl x) as [[E _]|[-> E]]; rewrite E in Hx; [by exists rx|].
    injection Hx as <-. exists ref. split_and!; [done|lia|done|done]. }
  split; [|split; [by apply Hnode|done]].
  split; rewrite ?Hmem; try apply H.
  - rewrite Forall_forall. apply Hnode.
  - destruct h; apply H.
  - destruct h; apply H.
  - intros x Hx. destruct (Hl x) as [[E _]|[-> _]].
    + rewrite E in Hx. apply (hi_fresh_ref _ _ _ H) in Hx. by destruct h.
    + pose proof (hi_fresh_ref _ _ _ H r ltac:(by rewrite Hr)). by destruct h.
  - intros nd p Hnd. rewrite Hext. by apply (hi_alias _ _ _ H).
  - intros nd p Hnd. rewrite Hext. by apply (hi_alias_others _ _ _ H).
  - intros x Hx. destruct (hi_count _ _ _ H x Hx) as (ref0&Hr0&Hc).
    destruct (Hl x) as [[-> _]|[-> ->]]; [by exists ref0|]. exists ref'. split; [done|]. cbn.
    rewrite Hr in Hr0. injection Hr0 as <-. lia.
  - intros x rx Hx Hxpos. destruct (Hback x rx Hx Hxpos) as (r0&Hr0&Hp0&Ef&Ep).
    destruct (hi_frees _ _ _ H x r0 Hr0 Hp0) as [Hf Hs]. unfold ref_freeable, ref_frees in *.
    rewrite Ef, Ep. split; [done|]. intros blk Hblk. destruct (Hs blk Hblk) as [? Hn].
    split; [done|]. intros nd p. rewrite Hext. apply Hn.
  - intros r1 r2 ref1 ref2 blk H1 H2 P1 P2.
    destruct (Hback r1 ref1 H1 P1) as (r1'&Hr1&Hp1&Ef1&Ep1), (Hback r2 ref2 H2 P2) as (r2'&Hr2&Hp2&Ef2&Ep2).
    unfold ref_frees. rewrite Ef1, Ep1, Ef2, Ep2. by apply (hi_disj _ _ _ H r1 r2 r1' r2' blk).
  - intros a Ha. destruct (hi_guard _ _ _ H a Ha) as (?&?&Hg). split; [by destruct h|]. split; [done|].
    intros x rx Hx Hxp Hf. destruct (Hback x rx Hx Hxp) as (r0&Hr0&Hp0&Ef&Ep). apply (Hg x r0); [done..|].
    unfold ref_frees in *. by rewrite <- Ef, <- Ep.
  - intros x ro Hx. destruct (hi_held _ _ _ H x ro Hx) as (r0&Hr0&?&?).
    destruct (Hl x) as [[-> _]|[-> ->]]; [by exists r0|]. exists ref'. split; [done|].
    rewrite Hr in Hr0. by injection Hr0 as <-.
Qed.

Lemma vstr_ref_add_spec s r ref :
  h_refs (s_heap s) !! r = Some ref → 0 ≤ r_ref ref < UINT_MAX →
  wp (vstr_ref_add r) s (λ r' s', r' = r ∧ s' = on_heap (λ h,
    h_set_refs (<[r := mkRef (r_func ref) (r_ptr ref) (r_ref ref + 1)]> (h_refs h)) h) s).
Proof.
  intros Hr Hle. unfold vstr_ref_add, ref_at, ref_put. wp_steps. eapply wp_of_option; [done|]. cbn beta.
  wp_steps. rewrite u32_id by (unfold UINT_MAX in *; lia). done.
Qed.

(** ** Moving memory *)
Lemma mem_move_spec s dst src n bs blk :
  load (h_mem (s_heap s)) src n = Some bs →
  h_mem (s_heap s) !! p_blk dst = Some blk → 0 ≤ p_off dst → p_off dst + n ≤ zlen blk →
  wp (mem_move dst src n) s (λ _ s', s' = on_heap (λ h,
    h_set_mem (<[p_blk dst := zwrite (p_off dst) bs blk]> (h_mem h)) h) s).
Proof.
  intros Hl Hb Ho Hn. unfold mem_move, mem_load, mem_store. wp_steps.
  eapply wp_of_option; [done|]. cbn beta. wp_steps. eapply wp_of_option.
  { unfold store. rewrite Hb. cbn. apply load_length in Hl. rewrite decide_True by lia. done. }
  cbn beta. wp_steps. done.
Qed.

(** ** Splitting a node *)

(** The string after node [i] was split at [pos] *)
Definition split_base (b : Vstr_base) (i : nat) (nd : Vstr_node) (pos : Z) (beg : positive)
    (body : node_body) : Vstr_base :=
  b_set_nodes (take i (b_nodes b) ++ nd_set_len pos nd ::
               mkNode beg (nd_len nd - pos) body :: drop (S i) (b_nodes b))
    (b_set_iovec_upto_date false (b_set_num (b_num b + 1) b)).

Definition body_type (body : node_body) : node_type := nd_type (mkNode 1 0 body).

Record split_post (s : St) (i : nat) (nd : Vstr_node) (pos : Z) (s' : St) : Prop := {
  sp_base : ∃ beg body, s_base s' = split_base (s_base s) i nd pos beg body ∧
    body_type body = nd_type nd;
  sp_heap : heap_inv (s_heap s') (s_conf s') (b_nodes (s_base s'));
  sp_bytes : chain_bytes (s_heap s') (b_nodes (s_base s')) =
             chain_bytes (s_heap s) (b_nodes (s_base s));
  sp_conf : conf_same (s_conf s) (s_conf s');
  sp_frame : mem_frame s s';
  sp_own : zlen (st_own s') ≤ zlen (st_own s) + 1;
  sp_refs : refs_step 1 (h_refs (s_heap s)) (h_refs (s_heap s'));
  sp_malloc : malloc_bad (s_conf s') = malloc_bad (s_conf s) }.

Lemma list_split_at {A} (l : list A) i x :
  l !! i = Some x → l = take i l ++ x :: drop (S i) l.
Proof. intros. symmetry. by apply take_drop_middle. Qed.

(** The pure part: node [nd] is cut at [pos], spare node [beg] holds the rest. *)
Lemma split_link h c l1 nd l2 pos beg body rest n :
  heap_inv h c (l1 ++ nd :: l2) → 0 < pos < nd_len nd →
  sp_nodes (get_spare (nd_type nd) c) = beg :: rest → n = zlen rest →
  let nd2 := mkNode beg (nd_len nd - pos) body in
  node_ok h (buf_sz c) nd2 → node_bytes h nd2 = zdrop pos (node_bytes h nd) →
  (∀ p, node_ext (h_refs h) nd2 = Some p → ∃ q, node_ext (h_refs h) nd = Some q ∧ p_blk p = p_blk q) →
  node_ref_of nd2 = node_ref_of nd →
  (∀ r, node_ref_of nd = Some r → ∃ ref, h_refs h !! r = Some ref ∧
     ref_count r (l1 ++ nd :: l2) + held r + 1 ≤ r_ref ref ≤ UINT_MAX) →
  heap_inv h (set_spare (nd_type nd) (mkSpare rest n) c) (l1 ++ nd_set_len pos nd :: nd2 :: l2) ∧
  chain_bytes h (l1 ++ nd_set_len pos nd :: nd2 :: l2) = chain_bytes h (l1 ++ nd :: l2).
Proof.
  intros H Hpos Hsp Hn nd2 Hok Hby Hext Href Hcnt.
  assert (Hnd : node_ok h (buf_sz c) nd).
  { pose proof (hi_nodes _ _ _ H) as Hns. rewrite Forall_app, Forall_cons in Hns. tauto. }
  pose proof (heap_inv_ext _ _ _ nd H ltac:(rewrite elem_of_app, elem_of_cons; tauto)) as Hxnd.
  assert (H1 : heap_inv h c ((l1 ++ [nd_set_len pos nd]) ++ l2)).
  { rewrite <- app_assoc. cbn. eapply heap_inv_node; [exact H|done| |exact Hxnd|done].
    apply node_ok_prefix; [done|lia]. }
  assert (Hown : own c ((l1 ++ [nd_set_len pos nd]) ++ l2) = own c (l1 ++ nd :: l2)).
  { rewrite <- app_assoc. unfold own. by rewrite !fmap_app. }
  split.
  - replace (l1 ++ nd_set_len pos nd :: nd2 :: l2) with ((l1 ++ [nd_set_len pos nd]) ++ nd2 :: l2)
      by by rewrite <- app_assoc.
    eapply heap_inv_pop; [exact H1|exact Hsp|exact Hn|done|done|..].
    + rewrite Hown. intros p Hp. destruct (Hext p Hp) as (q&Hq&->). rewrite Href. by apply Hxnd.
    + rewrite Href. intros r Hr. destruct (Hcnt r Hr) as (ref&?&Hc). exists ref. split; [done|].
      rewrite <- app_assoc. cbn. rewrite !ref_count_insert in *.
      change (node_ref_of (nd_set_len pos nd)) with (node_ref_of nd). done.
  - rewrite !chain_bytes_app, !chain_bytes_cons, Hby, (node_bytes_prefix _ (buf_sz c)) by (done || lia).
    rewrite (app_assoc (ztake _ _)), ztake_zdrop. done.
Qed.

(** Filling the spare node [beg] of the type of [nd] with the rest of [nd] *)
Definition split_fill (node : Vstr_node) (pos : Z) (beg : positive) : M node_body :=
  match nd_body node with
  | Node_buf =>
    mem_move (Ptr beg 0) (Ptr (nd_addr node) pos) (nd_len node - pos);; mret Node_buf
  | Node_non => mret Node_non
  | Node_ptr p => mret (Node_ptr (ptr_add p pos))
  | Node_ref r off => r' ← vstr_ref_add r; mret (Node_ref r' (u32 (off + pos)))
  end.

Record fill_post (c : Vstr_conf) (s : St) (ns : list Vstr_node) (nd : Vstr_node) (pos : Z) (beg : positive)
    (body : node_body) (s' : St) : Prop := {
  fp_conf : s_conf s' = s_conf s;
  fp_base : s_base s' = s_base s;
  fp_heap : heap_inv (s_heap s') c ns;
  fp_ok : node_ok (s_heap s') (buf_sz c) (mkNode beg (nd_len nd - pos) body);
  fp_bytes : node_bytes (s_heap s') (mkNode beg (nd_len nd - pos) body) =
             zdrop pos (node_bytes (s_heap s') nd);
  fp_same : ∀ nd', nd' ∈ ns → node_bytes (s_heap s') nd' = node_bytes (s_heap s) nd';
  fp_ext : ∀ p, node_ext (h_refs (s_heap s')) (mkNode beg (nd_len nd - pos) body) = Some p →
     ∃ q, node_ext (h_refs (s_heap s')) nd = Some q ∧ p_blk p = p_blk q;
  fp_ref : node_ref_of (mkNode beg (nd_len nd - pos) body) = node_ref_of nd;
  fp_type : body_type body = nd_type nd;
  fp_count : ∀ r, node_ref_of nd = Some r → ∃ ref, h_refs (s_heap s') !! r = Some ref ∧
     ref_count r ns + held r + 1 ≤ r_ref ref ≤ UINT_MAX;
  fp_refs : refs_step 1 (h_refs (s_heap s)) (h_refs (s_heap s'));
  fp_mem : ∀ a, a ≠ beg → h_mem (s_heap s') !! a = h_mem (s_heap s) !! a }.

Lemma ref_count_pos r nd ns : nd ∈ ns → node_ref_of nd = Some r → 1 ≤ ref_count r ns.
Proof.
  intros (l1&l2&->)%list_elem_of_split Hr. rewrite ref_count_insert, decide_True by done.
  pose proof (ref_count_nonneg r (l1 ++ l2)). lia.
Qed.

Lemma split_fill_spec c s ns nd pos beg :
  heap_inv (s_heap s) c ns → nd ∈ ns → 0 < pos < nd_len nd →
  beg ∈ sp_nodes (get_spare (nd_type nd) c) →
  (∀ r ref, h_refs (s_heap s) !! r = Some ref → r_ref ref + 1 ≤ UINT_MAX) →
  wp (split_fill nd pos beg) s (λ body s', fill_post c s ns nd pos beg body s').
Proof.
  intros H Hnd Hpos Hbeg Hroom. pose proof (hi_nodes _ _ _ H) as Hns.
  rewrite Forall_forall in Hns. pose proof (Hns nd Hnd) as Hok.
  destruct s as [h c0 b]. cbn in *. unfold split_fill.
  destruct nd as [a len body]. unfold nd_type in Hbeg. cbn in *.
  destruct body as [| |p|r off]; cbn in Hbeg.
  - destruct Hok as [Hlen [Hle (blk&Hblk&Hsz)]]. cbn in *.
    pose proof (hi_spare_buf _ _ _ H) as Hsp. rewrite Forall_forall in Hsp.
    destruct (Hsp beg Hbeg) as (blk2&Hblk2&Hsz2). wp_step.
    wp_apply (mem_move_spec _ (Ptr beg 0) (Ptr a pos) (len - pos)
      (ztake (len - pos) (zdrop pos blk)) blk2); cbn; [|done|lia|lia|].
    { apply load_Some. exists blk. cbn. split_and!; [done|lia..|done]. }
    intros _ s' ->. wp_steps. set (chunk := ztake _ _).
    assert (Hlc : zlen chunk = len - pos) by (unfold chunk; rewrite length_ztake, length_zdrop; lia).
    assert (Hne : ∀ nd', nd' ∈ ns → nd_addr nd' ≠ beg).
    { intros nd' Hin E. pose proof (hi_nodup _ _ _ H) as Hdup. unfold own in Hdup.
      apply NoDup_app in Hdup as (_&Hd&_). apply (Hd (nd_addr nd')); [by apply list_elem_of_fmap_2|].
      rewrite E, (spares_perm NODE_BUF). apply elem_of_app. by left. }
    destruct (heap_inv_write _ _ _ beg blk2 (zwrite 0 chunk blk2) H) as [H' Hby]; [| |rewrite length_zwrite; lia|].
    { rewrite (own_perm NODE_BUF c). apply elem_of_app. by left. }
    { done. }
    assert (Hch : ztake (len - pos) (zwrite 0 chunk blk2) = chunk).
    { rewrite <- (Z.add_0_l (len - pos)), <- Hlc, ztake_zwrite_end by lia. by rewrite ztake_0. }
    assert (Hl2 : <[beg:=zwrite 0 chunk blk2]> (h_mem h) !! beg = Some (zwrite 0 chunk blk2))
      by apply lookup_insert_eq.
    split; cbn; try done.
    + split; [cbn; lia|]. cbn. split; [lia|]. exists (zwrite 0 chunk blk2).
      destruct h; cbn in *. split; [done|]. rewrite length_zwrite; lia.
    + assert (Hl1 : <[beg:=zwrite 0 chunk blk2]> (h_mem h) !! a = Some blk).
      { rewrite lookup_insert_ne; [done|]. intros E. by apply (Hne _ Hnd). }
      unfold node_bytes. cbn. destruct h as [m rs nx ma]; cbn in *.
      rewrite (load_buf _ beg _ _ Hl2) by (rewrite length_zwrite; lia).
      rewrite (load_buf _ a _ _ Hl1) by lia. rewrite Hch, zdrop_fmap. unfold chunk.
      by rewrite zdrop_ztake by lia.
    + intros nd' Hin. apply Hby; [done|]. left. by apply Hne.
    + destruct h; by apply refs_step_refl.
    + intros x Hx. destruct h; cbn. by rewrite lookup_insert_ne.
  - wp_steps. destruct (node_bytes_suffix _ _ _ beg pos Hok) as [Hok2 Hby2]; [done|cbn; lia|].
    split; cbn; try done; [by apply refs_step_refl].
  - wp_steps. destruct (node_bytes_suffix _ _ _ beg pos Hok) as [Hok2 Hby2]; [done|cbn; lia|].
    split; cbn; try done; [|by apply refs_step_refl]. intros q [= <-]. eauto.
  - destruct Hok as [Hlen (Ho1&Ho2&ref&Hr&Hld)]. cbn in *.
    destruct (hi_count _ _ _ H r) as (ref0&Hr0&Hc).
    { pose proof (ref_count_pos r _ _ Hnd eq_refl). pose proof (held_nonneg r). lia. }
    rewrite Hr in Hr0. injection Hr0 as <-. pose proof (ref_count_pos r _ _ Hnd eq_refl). pose proof (held_nonneg r).
    pose proof (Hroom _ _ Hr).
    wp_step. wp_apply vstr_ref_add_spec; [done|lia|]. intros r' s' [-> ->]. wp_steps. cbn.
    rewrite u32_id by (unfold UINT_MAX in *; lia).
    destruct (heap_inv_ref_add _ _ _ r ref H Hr) as (H'&Hby&Hext); [lia|].
    set (h' := h_set_refs _ h) in *.
    pose proof (hi_nodes _ _ _ H') as Hns'. rewrite Forall_forall in Hns'.
    destruct (node_bytes_suffix _ _ _ beg pos (Hns' _ Hnd)) as [Hok2 Hby2]; [done|cbn; lia|].
    assert (Hr' : h_refs h' !! r = Some (mkRef (r_func ref) (r_ptr ref) (r_ref ref + 1))).
    { unfold h'. destruct h; cbn. by rewrite lookup_insert_eq. }
    split; cbn; try done.
    + fold h'. intros q. unfold node_ext. cbn. rewrite Hr'. cbn. intros [= <-]. eauto.
    + fold h'. intros x [= <-]. exists (mkRef (r_func ref) (r_ptr ref) (r_ref ref + 1)). split; [done|]. cbn. lia.
    + intros x. unfold h'. destruct h; cbn in *. rewrite lookup_insert.
      case_decide; [subst; rewrite Hr; constructor; split_and!; cbn; (done || lia)|].
      by apply refs_step_refl.
    + intros x _. unfold h'. by destruct h.
Qed.

(** A split loses nothing and adds nothing, whatever the node; without memory
    for a spare node the string keeps its nodes. *)
Lemma vstr__base_split_node_spec s i nd pos :
  heap_inv (s_heap s) (s_conf s) (b_nodes (s_base s)) →
  b_num (s_base s) = zlen (b_nodes (s_base s)) →
  b_nodes (s_base s) !! i = Some nd → 0 < pos < nd_len nd → room 1 1 s →
  wp (vstr__base_split_node i pos) s (λ ok s',
    if ok : bool then split_post s i nd pos s'
    else spare_step (nd_type nd) 1 s s' ∧ malloc_bad (s_conf s') = true).
Proof.
  intros H Hnum Hi Hpos [Hroom Hrefs]. unfold vstr__base_split_node, node_at.
  wp_steps. eapply wp_of_option; [exact Hi|]. cbn beta. wp_step.
  wp_apply (cntl_conf_set_num_range_spare_spec (nd_type nd) 1); [done|lia|done|].
  intros ok s1 (Hs1&Hsp&Hmb). destruct ok; cbn [negb].
  2:{ wp_steps. split; [done|]. rewrite Hmb. by rewrite orb_true_r. }
  pose proof Hs1 as [B1 H1 [Gm Gr] C1 O1 F1].
  destruct (sp_nodes (get_spare (nd_type nd) (s_conf s1))) as [|beg rest] eqn:Esp.
  { specialize (Hsp eq_refl). cbn in Hsp. lia. }
  assert (Hnd : nd ∈ b_nodes (s_base s)) by by eapply list_elem_of_lookup_2.
  pose proof (hi_nodes _ _ _ H) as Hns. rewrite Forall_forall in Hns.
  wp_step. wp_apply pop_spare_spec; [exact Esp|]. intros a s2 [-> E2].
  set (n2 := u32 _) in E2.
  assert (Hn2 : n2 = zlen rest).
  { unfold n2. rewrite (hi_spare_num _ _ _ H1), Esp. cbn [length].
    pose proof (hi_total _ _ _ H1) as Ht. rewrite (own_perm (nd_type nd) (s_conf s1)), Esp in Ht.
    cbn [app] in Ht. rewrite u32_id; unfold UINT_MAX in *; zl. }
  wp_step. rewrite E2. wp_apply (split_fill_spec (s_conf s1) _ (b_nodes (s_base s)) nd pos beg).
  { done. } { done. } { done. } { rewrite Esp. by left. } { cbn. by rewrite Gr. }
  intros body s3 HF. wp_steps.
  destruct HF as [Fc Fb Fh Fok Fby Fsame Fext Fref Fty Fcnt Frefs Fmem].
  cbn in Fc, Fb, Fmem. rewrite B1 in Fb.
  pose proof (list_split_at _ _ _ Hi) as Esplit.
  set (l1 := take i (b_nodes (s_base s))) in *. set (l2 := drop (S i) (b_nodes (s_base s))) in *.
  assert (Hlen : nd_len nd ≤ VSTR_MAX_NODE_ALL) by apply (Hns _ Hnd).
  assert (Hi' : (i < length (b_nodes (s_base s)))%nat) by by eapply lookup_lt_Some.
  assert (Hown0 : zlen (b_nodes (s_base s)) ≤ zlen (own (s_conf s) (b_nodes (s_base s))))
    by (unfold own; zl).
  rewrite Esplit in Fh.
  destruct (split_link (s_heap s3) (s_conf s1) l1 nd l2 pos beg body rest n2 Fh) as [HI HB];
    [done..|by rewrite <- Esplit|].
  assert (EB : s_base (on_base (λ b, b_set_nodes
      (take i (b_nodes b) ++ nd_set_len pos nd ::
       mkNode beg (u28 (nd_len nd - pos)) body :: drop (S i) (b_nodes b)) b)
      (on_base (b_set_iovec_upto_date false) (on_base (λ b, b_set_num (u32 (b_num b + 1)) b) s3)))
     = split_base (s_base s) i nd pos beg body).
  { pose proof o_num_nonneg. unfold split_base, VSTR_MAX_NODE_ALL, UINT_MAX in *. cbn. rewrite Fb, u28_id, u32_id by lia.
    by destruct (s_base s). }
  set (s4 := on_base _ _) in *.
  assert (EN : b_nodes (s_base s4) = l1 ++ nd_set_len pos nd :: mkNode beg (nd_len nd - pos) body :: l2).
  { rewrite EB. unfold split_base. by destruct (s_base s). }
  assert (EH : s_heap s4 = s_heap s3) by done. assert (EC : s_conf s4 = s_conf s3) by done.
  assert (Eown : st_own s4 ≡ₚ own (s_conf s1) (b_nodes (s_base s))).
  { unfold st_own. rewrite EN, EC, Fc, own_set_spare, (own_perm (nd_type nd) (s_conf s1)), Esp, Esplit.
    cbn [sp_nodes]. rewrite !fmap_app, !fmap_cons. cbn.
    rewrite (app_assoc _ (nd_addr <$> l1)), (app_assoc rest), <- !app_assoc. solve_Permutation. }
  split.
  - exists beg, body. done.
  - rewrite EN, EH, EC, Fc. exact HI.
  - rewrite EN, EH, HB, <- Esplit. rewrite (chain_frame (s_heap s1)) by done.
    eapply heap_grows_chain; [exact (ss_grows _ _ _ _ Hs1)|exact (hi_nodes _ _ _ H)].
  - rewrite EC, Fc. eapply conf_same_trans; [exact C1|apply conf_same_set_spare].
  - intros a Ha Hn. rewrite EH, Eown. assert (Hn1 : a ∉ own (s_conf s1) (b_nodes (s_base s))).
    { intros [?|E]%F1; [done|]. rewrite E in Ha. by destruct Ha. }
    split; [|done]. rewrite Fmem; [by apply Gm|]. intros ->. apply Hn1.
    rewrite (own_perm (nd_type nd)), Esp. by left.
  - rewrite Eown. done.
  - rewrite EH, <- Gr. exact Frefs.
  - rewrite EC, Fc. destruct (nd_type nd), (s_conf s1); cbn in *; rewrite orb_false_r in Hmb; done.
Qed.

(** ** Normalising the first node *)
Record zero_post (s s' : St) : Prop := {
  zp_base : s_base s' = b_set_nodes (b_nodes (s_base s')) (b_set_used 0 (s_base s));
  zp_heap : heap_inv (s_heap s') (s_conf s') (b_nodes (s_base s'));
  zp_bytes : chain_bytes (s_heap s') (b_nodes (s_base s')) = st_content s;
  zp_sum : sum_len (b_nodes (s_base s')) = sum_len (b_nodes (s_base s)) - b_used (s_base s);
  zp_nodes : ∃ k, b_nodes (s_base s') =
    match b_nodes (s_base s) with [] => [] | nd :: ns => nd_set_len k nd :: ns end;
  zp_take : ∀ i, (0 < i)%nat → (i ≤ length (b_nodes (s_base s)))%nat →
    sum_len (take i (b_nodes (s_base s'))) = sum_len (take i (b_nodes (s_base s))) - b_used (s_base s);
  zp_conf : s_conf s' = s_conf s;
  zp_refs : h_refs (s_heap s') = h_refs (s_heap s);
  zp_frame : mem_frame s s';
  zp_own : st_own s' = st_own s }.

Lemma vstr__base_zero_used_spec s :
  heap_inv (s_heap s) (s_conf s) (b_nodes (s_base s)) → base_inv (s_base s) →
  wp vstr__base_zero_used s (λ _ s', zero_post s s').
Proof.
  destruct s as [h c b]. cbn. intros H HB. unfold vstr__base_zero_used. wp_steps. cbn.
  destruct (bi_used _ HB) as [Hu|(beg&Hbeg&Hty&Hu)].
  - rewrite decide_True by done. wp_steps. split; cbn; try done.
    + destruct b; cbn in *. by subst.
    + unfold st_content, content. cbn. by rewrite Hu, zdrop_0.
    + lia.
    + destruct (b_nodes b) as [|nd ns]; [by exists 0|]. exists (nd_len nd). cbn. by destruct nd.
    + intros. lia.
  - rewrite decide_False by lia. unfold node_at, upd_node, node_at.
    destruct b as [nodes bl bn used iu ca ci f1 f2 f3 f4 gc cc]. cbn in *.
    destruct nodes as [|beg' ns]; [done|]. injection Hbeg as ->.
    pose proof (hi_nodes _ _ _ H) as Hns. rewrite Forall_cons in Hns. destruct Hns as [Hok Hns].
    destruct beg as [a len body]. destruct body; try done. pose proof Hok as Hok0. cbn in *.
    destruct Hok as [Hlen [Hle (blk&Hblk&Hsz)]]. cbn in *.
    wp_steps. eapply wp_of_option; [done|]. cbn beta. wp_steps.
    eapply wp_of_option; [done|]. cbn beta. wp_steps. cbn.
    rewrite u28_id by (unfold VSTR_MAX_NODE_ALL in *; lia).
    wp_apply (mem_move_spec _ (Ptr a 0) (Ptr a used) (len - used)
      (ztake (len - used) (zdrop used blk)) blk); cbn; [|done|lia|lia|].
    { apply load_Some. exists blk. cbn. split_and!; [done|lia..|done]. }
    intros _ s' ->. wp_steps. cbn. set (chunk := ztake _ _).
    assert (Hlc : zlen chunk = len - used) by (unfold chunk; rewrite length_ztake, length_zdrop; lia).
    pose proof (hi_nodup _ _ _ H) as Hdup. unfold own in Hdup. cbn in Hdup.
    apply NoDup_cons in Hdup as [Hna Hdup].
    destruct (heap_inv_write _ _ _ a blk (zwrite 0 chunk blk) H) as [H' Hby];
      [by left|done|rewrite length_zwrite; lia|].
    set (h' := h_set_mem _ h) in *.
    assert (Hl' : h_mem h' !! a = Some (zwrite 0 chunk blk)).
    { unfold h'. destruct h; cbn. apply lookup_insert_eq. }
    set (nd' := mkNode a (len - used) Node_buf).
    assert (Hnew : node_bytes h' nd' = zdrop used (node_bytes h (mkNode a len Node_buf))).
    { unfold node_bytes, nd'. cbn. rewrite (load_buf _ _ _ _ Hl') by (rewrite length_zwrite; lia).
      rewrite (load_buf _ _ _ _ Hblk) by lia. rewrite zdrop_fmap, zdrop_ztake by lia.
      rewrite <- Hlc at 1. rewrite <- (Z.add_0_l (zlen chunk)), ztake_zwrite_end by lia.
      by rewrite ztake_0 by lia. }
    pose proof (node_bytes_length _ _ _ Hok0) as Hl0.
    split; cbn; try done.
    + apply (heap_inv_node h' c [] (mkNode a len Node_buf) nd' ns H'); [done| | |done].
      * split; [cbn; lia|]. cbn. split; [lia|]. exists (zwrite 0 chunk blk).
        split; [done|]. rewrite length_zwrite; lia.
      * intros p. done.
    + unfold st_content, content. cbn.
      fold h'. rewrite !chain_bytes_cons. change (nd_set_len _ _) with nd'. rewrite Hnew, zdrop_app_l by (cbn in *; lia). f_equal.
      apply chain_frame. intros nd Hin. apply Hby; [by right|]. left. intros <-.
      apply Hna, elem_of_app. left. by apply list_elem_of_fmap_2.
    + lia.
    + by exists (len - used).
    + intros [|i]; [lia|]. intros. cbn. lia.
    + unfold h'. by destruct h.
    + intros x Hx Hn. split; [|done]. unfold st_own, own in *. cbn in *.
      destruct h; cbn in *. rewrite lookup_insert_ne; [done|]. intros <-. apply Hn. by left.
Qed.

End others.
