(* ===== verification/CacheLemmas.v ===== *)
(** * What the cache operations leave alone: the I/O vector helpers change the
    vector only, and a change notification changes the caches only. *)
From Stdlib Require Import ZArith Lia ZifyBool.
From stdpp Require Import base tactics list numbers option gmap.
From S2P Require Import Prelude State Wp Ref Cache Core Inv PosLemmas SpareLemmas SplitLemmas.

Section others.
Context {OT : Others}.

(** ** I/O vector *)

Definition set_vec_state (u : bool) (v : option cache_data_iovec) (b : Vstr_base) : Vstr_base :=
  b_set_iovec_upto_date u (b_set_cache (c_set_vec v (b_cache b)) b).
Definition vec_step (s s' : St) : Prop :=
  ∃ u v, s' = on_base (set_vec_state u v) s ∧ vec_ok (s_base s').

Lemma vec_step_refl s : vec_ok (s_base s) → vec_step s s.
Proof.
  intros Hok. exists (iovec_upto_date (s_base s)), (c_vec (b_cache (s_base s))).
  split; [|done]. by destruct s as [? ? [? ? ? ? ? ? ? ? ? ? ? ? []]].
Qed.
Lemma vec_step_trans s1 s2 s3 : vec_step s1 s2 → vec_step s2 s3 → vec_step s1 s3.
Proof.
  intros (u&v&->&_) (u'&v'&->&H'). exists u', v'. split; [|done].
  by destruct s1 as [? ? [? ? ? ? ? ? ? ? ? ? ? ? []]].
Qed.
Lemma vec_step_ok s s' : vec_step s s' → vec_ok (s_base s').
Proof. by intros (u&v&_&H). Qed.

Lemma vec_ok_set_nodes ns b : vec_ok b → vec_ok (b_set_nodes ns b).
Proof. by destruct b. Qed.
Lemma vec_ok_set_len n b : vec_ok b → vec_ok (b_set_len n b).
Proof. by destruct b. Qed.

Lemma vec_ok_upto u b : vec_ok b → (u = true → iovec_upto_date b = true) → vec_ok (b_set_iovec_upto_date u b).
Proof. intros [Hv Ha] Hu. destruct b. split; [|done]. intros [E|E]; apply Hv; [left; by apply Hu|by right]. Qed.

Section vec.
Implicit Types (s : St).

Lemma vec_ok_set u v s : vec_ok (s_base s) → is_Some v → vec_step s (on_base (set_vec_state u v) s).
Proof.
  intros [_ Ha] Hv. exists u, v. split; [done|]. destruct s as [? ? [? ? ? ? ? ? ? ? ? ? ? ? []]]. by split.
Qed.
Lemma upd_vec_spec f s :
  vec_ok (s_base s) → is_Some (c_vec (b_cache (s_base s))) →
  wp (upd_vec f) s (λ _ s', vec_step s s' ∧ iovec_upto_date (s_base s') = iovec_upto_date (s_base s) ∧
    is_Some (c_vec (b_cache (s_base s')))).
Proof.
  intros Hok [v Hv]. unfold upd_vec, upd_cache. wp_steps. rewrite Hv. wp_steps.
  assert (E : on_base (λ b, b_set_cache (c_set_vec (Some (f v)) (b_cache b)) b) s =
    on_base (set_vec_state (iovec_upto_date (s_base s)) (Some (f v))) s)
    by by destruct s as [? ? [? ? ? ? ? ? ? ? ? ? ? ? []]].
  rewrite E. split_and!; [by apply vec_ok_set|by destruct s as [? ? [? ? ? ? ? ? ? ? ? ? ? ? []]]..].
Qed.
(** The helpers that act when the vector is valid share this shape. *)
Lemma vec_when_spec s (m : M ()) :
  vec_ok (s_base s) → (is_Some (c_vec (b_cache (s_base s))) → wp m s (λ _ s', vec_step s s')) →
  wp (b ← get_base; if negb (iovec_upto_date b) then mret tt else m) s (λ _ s', vec_step s s').
Proof.
  intros Hok Hm. wp_steps. destruct (iovec_upto_date (s_base s)) eqn:E; cbn.
  - apply Hm, Hok. by left.
  - wp_steps. by apply vec_step_refl.
Qed.
Lemma upd_vec_step f s :
  vec_ok (s_base s) → is_Some (c_vec (b_cache (s_base s))) → wp (upd_vec f) s (λ _ s', vec_step s s').
Proof. intros. eapply wp_mono; [by apply upd_vec_spec|]. by intros ? ? (?&_). Qed.

Lemma vstr__cache_iovec_add_node_end_step num len s :
  vec_ok (s_base s) → wp (vstr__cache_iovec_add_node_end num len) s (λ _ s', vec_step s s').
Proof. intros. apply vec_when_spec; [done|by apply upd_vec_step]. Qed.
Lemma vstr__cache_iovec_del_node_end_step num len s :
  vec_ok (s_base s) → wp (vstr__cache_iovec_del_node_end num len) s (λ _ s', vec_step s s').
Proof. intros. apply vec_when_spec; [done|by apply upd_vec_step]. Qed.
Lemma vstr__cache_iovec_del_node_beg_step nd num len s :
  vec_ok (s_base s) → wp (vstr__cache_iovec_del_node_beg nd num len) s (λ _ s', vec_step s s').
Proof. intros. apply vec_when_spec; [done|by apply upd_vec_step]. Qed.
Lemma vstr__cache_iovec_del_beg_step num s :
  vec_ok (s_base s) → wp (vstr__cache_iovec_del_beg num) s (λ _ s', vec_step s s').
Proof. intros. apply vec_when_spec; [done|by apply upd_vec_step]. Qed.

Lemma node_ptr_spec nd s :
  is_Some (vstr_export__node_ptr (h_refs (s_heap s)) nd) → wp (node_ptr nd) s (λ _ s', s' = s).
Proof. intros [p Hp]. unfold node_ptr. wp_steps. by eapply wp_of_option. Qed.
Lemma node_ok_ptr h bsz nd : node_ok h bsz nd → is_Some (vstr_export__node_ptr (h_refs h) nd).
Proof.
  unfold node_ok, vstr_export__node_ptr. destruct (nd_body nd) as [| |?|r off]; cbn; try by eauto.
  intros [_ (_&_&ref&->&_)]. by eauto.
Qed.

Lemma vstr__cache_iovec_reset_node_step nd num s :
  vec_ok (s_base s) → is_Some (vstr_export__node_ptr (h_refs (s_heap s)) nd) →
  wp (vstr__cache_iovec_reset_node nd num) s (λ _ s', vec_step s s').
Proof.
  intros Hok Hnd. apply vec_when_spec; [done|]. intros Hv. wp_step.
  wp_apply node_ptr_spec; [done|]. intros p s' ->. wp_steps. by apply upd_vec_step.
Qed.

Lemma vstr__cache_iovec_maybe_add_step nd at_end len s :
  vec_ok (s_base s) → is_Some (vstr_export__node_ptr (h_refs (s_heap s)) nd) →
  wp (vstr__cache_iovec_maybe_add nd at_end len) s (λ _ s', vec_step s s').
Proof.
  intros Hok Hnd. apply vec_when_spec; [done|]. intros Hv. destruct Hv as [v Hv]. rewrite Hv.
  case_decide; [|case_decide].
  - unfold vstr__cache_iovec_add_end. wp_step. wp_apply node_ptr_spec; [done|].
    intros p s' ->. wp_steps. apply upd_vec_step; [done|by rewrite Hv].
  - unfold vstr__cache_iovec_add_beg. wp_step. wp_apply node_ptr_spec; [done|].
    intros p s' ->. wp_steps. wp_apply upd_vec_spec; [done|by rewrite Hv|]. intros _ s1 (H1&_&Hs1).
    wp_apply upd_vec_step; [by eapply vec_step_ok|done|]. intros _ s2 H2. by eapply vec_step_trans.
  - wp_steps. destruct (vec_ok_set false (Some v) s) as (u&v'&E&?); [done..|].
    replace (on_base (b_set_iovec_upto_date false) s) with (on_base (set_vec_state false (Some v)) s); [by apply vec_ok_set|].
    clear -Hv. destruct s as [? ? [? ? ? ? ? ? ? ? ? ? ? ? []]]; cbn in *. by subst.
Qed.

Lemma vstr__cache_iovec_reset_step s :
  vec_ok (s_base s) → wp vstr__cache_iovec_reset s (λ _ s', vec_step s s').
Proof.
  intros Hok. unfold vstr__cache_iovec_reset. wp_steps.
  destruct (c_vec (b_cache (s_base s))) as [v|] eqn:Hv; [|wp_steps; by apply vec_step_refl].
  case_decide; [|wp_steps; by apply vec_step_refl]. wp_steps.
  assert (E : on_base (b_set_iovec_upto_date true) s = on_base (set_vec_state true (Some v)) s).
  { clear -Hv. destruct s as [? ? [? ? ? ? ? ? ? ? ? ? ? ? []]]; cbn in *. by subst. }
  rewrite E. assert (HV : vec_step s (on_base (set_vec_state true (Some v)) s)) by by apply vec_ok_set.
  wp_apply upd_vec_spec; [by eapply vec_step_ok|by destruct s as [? ? [? ? ? ? ? ? ? ? ? ? ? ? []]]|].
  intros _ s' (Hs&_&_). by eapply vec_step_trans.
Qed.
End vec.

(** ** Change notifications *)
Definition set_cache_state (p : option cache_data_pos) (cs : option cache_data_cstr) (ci : bool)
    (b : Vstr_base) : Vstr_base :=
  b_set_cache_internal ci (b_set_cache (mkCache p (c_vec (b_cache b)) cs) b).

Lemma vstr__cache_run_spec pos len type s :
  type ≠ CACHE_FREE → type ≠ CACHE_NOTHING →
  wp (vstr__cache_run pos len type) s (λ _ s', ∃ cs ci, s' = on_base (set_cache_state
    (if cache_available (s_base s) then c_pos (b_cache (s_base s)) ≫= vstr__cache_pos_cb pos type
     else c_pos (b_cache (s_base s))) cs ci) s).
Proof.
  intros H1 H2. destruct s as [h c [ns bl bn used iu ca ci f1 f2 f3 f4 gc [p v cs]]].
  unfold vstr__cache_run, wp. destruct ca; cbn; [|by eexists cs, ci].
  unfold vstr__cache_cbs. cbn. rewrite (bool_decide_eq_false_2 (type = CACHE_FREE)) by done.
  destruct type; try done; destruct p as [p|], cs as [cs|]; cbn;
    unfold mbind, M_bind, upd_cache, upd_base, modify, get_base, gets, mret, M_ret, on_base, set_cache_state;
    cbn; try destruct (vstr__cache_cstr_cb pos len _ cs) as [cs'|]; cbn;
    by eexists _, _.
Qed.

(** ** Ranges *)
Lemma poslast_id pos len : 1 ≤ pos → 0 < len → pos + len - 1 ≤ SIZE_MAX → vstr_sc_poslast pos len = pos + len - 1.
Proof.
  unfold SIZE_MAX. intros. unfold vstr_sc_poslast. rewrite (u64_id (len - 1)) by (unfold SIZE_MAX; lia).
  rewrite u64_id by (unfold SIZE_MAX; lia). lia.
Qed.

End others.
