(* ===== verification/AddLemmas.v ===== *)
(** * What an add operation promises, and what adding does with it: the loop
    over the spare nodes, the extension of the node before the position. *)
From Stdlib Require Import ZArith Lia ZifyBool.
From stdpp Require Import base tactics list numbers option gmap.
From S2P Require Import Prelude State Wp Ref Cache Core Add Inv PosLemmas SpareLemmas SplitLemmas CacheLemmas.

Section others.
Context {OT : Others}.

(** ** The environment of the string *)

(** Memory outside the owned blocks stays, and references are only taken. *)
Definition env_step (k : Z) (h : heap) (o : list positive) (h' : heap) (o' : list positive) : Prop :=
  (∀ a, is_Some (h_mem h !! a) → a ∉ o → (h_mem h' !! a = h_mem h !! a) ∧ a ∉ o') ∧
  refs_step k (h_refs h) (h_refs h').

Lemma env_step_perm k h o o' : 0 ≤ k → o' ≡ₚ o → env_step k h o h o'.
Proof. intros Hk E. split; [|by apply refs_step_refl]. intros. by rewrite E. Qed.
#[export] Instance env_step_proper k :
  Proper ((=) ==> (≡ₚ) ==> (=) ==> (≡ₚ) ==> iff) (env_step k).
Proof.
  intros h ? <- o1 o2 E h' ? <- o1' o2' E'. unfold env_step. split; intros [Hm Hr]; (split; [|done]);
    intros a Ha Hn; destruct (Hm a Ha) as [? Hn']; [by rewrite E|by rewrite <- E'|by rewrite <- E|by rewrite E'].
Qed.
Lemma env_step_trans k1 k2 h1 o1 h2 o2 h3 o3 :
  env_step k1 h1 o1 h2 o2 → env_step k2 h2 o2 h3 o3 → env_step (k1 + k2) h1 o1 h3 o3.
Proof.
  intros [M1 R1] [M2 R2]. split; [|by eapply refs_step_trans].
  intros a Ha Hn. destruct (M1 a Ha Hn) as [E1 N1].
  destruct (M2 a) as [E2 N2]; [by rewrite E1|done|]. by rewrite E2.
Qed.
Lemma env_step_weaken k k' h o h' o' : env_step k h o h' o' → k ≤ k' → env_step k' h o h' o'.
Proof. intros [] ?. split; [done|]. by eapply refs_step_weaken. Qed.
Lemma env_step_load k h o h' o' p n bs :
  env_step k h o h' o' → load (h_mem h) p n = Some bs → p_blk p ∉ o →
  load (h_mem h') p n = Some bs ∧ p_blk p ∉ o'.
Proof.
  intros [Hm _] Hl Hn. destruct (Hm (p_blk p)) as [E N]; [|done|].
  - apply load_Some in Hl as (blk&->&_). done.
  - split; [|done]. rewrite <- Hl. by apply load_eq.
Qed.
Lemma spare_step_env t n s s' :
  spare_step t n s s' → env_step 0 (s_heap s) (st_own s) (s_heap s') (st_own s').
Proof.
  intros H. split; [exact (spare_step_frame _ _ _ _ H)|].
  destruct (ss_grows _ _ _ _ H) as [_ ->]. by apply refs_step_refl.
Qed.
Lemma split_post_env s i nd pos s' :
  split_post s i nd pos s' → env_step 1 (s_heap s) (st_own s) (s_heap s') (st_own s').
Proof. intros H. split; apply H. Qed.
Lemma zero_post_env s s' :
  zero_post s s' → env_step 0 (s_heap s) (st_own s) (s_heap s') (st_own s').
Proof. intros H. split; [apply H|]. rewrite (zp_refs _ _ H). by apply refs_step_refl. Qed.

(** ** The interface of an add operation *)

Record fill_ok (t : node_type) (c : Vstr_conf) (ns : list Vstr_node) (a : positive) (len : Z)
    (d : list byte_or_non) (body : node_body) (s s' : St) : Prop := {
  fo_conf : s_conf s' = s_conf s;
  fo_base : s_base s' = s_base s;
  fo_heap : heap_inv (s_heap s') c ns;
  fo_ok : node_ok (s_heap s') (buf_sz c) (mkNode a len body);
  fo_bytes : node_bytes (s_heap s') (mkNode a len body) = d;
  fo_same : ∀ nd, nd ∈ ns → node_bytes (s_heap s') nd = node_bytes (s_heap s) nd;
  fo_ext : ext_ok (s_heap s') (own c ns) (mkNode a len body);
  fo_count : ∀ r, node_ref_of (mkNode a len body) = Some r →
    ∃ ref, h_refs (s_heap s') !! r = Some ref ∧ ref_count r ns + held r + 1 ≤ r_ref ref ≤ UINT_MAX;
  fo_type : body_type body = t;
  fo_env : env_step 1 (s_heap s) (own c ns) (s_heap s') (own c ns) }.

Record extend_ok (c : Vstr_conf) (l1 : list Vstr_node) (nd : Vstr_node) (l2 : list Vstr_node)
    (d : list byte_or_non) (s s' : St) : Prop := {
  xo_conf : s_conf s' = s_conf s;
  xo_base : s_base s' = s_base s;
  xo_heap : heap_inv (s_heap s') c (l1 ++ nd_set_len (nd_len nd + zlen d) nd :: l2);
  xo_bytes : node_bytes (s_heap s') (nd_set_len (nd_len nd + zlen d) nd) = node_bytes (s_heap s) nd ++ d;
  xo_same : ∀ nd', nd' ∈ l1 ++ l2 → node_bytes (s_heap s') nd' = node_bytes (s_heap s) nd';
  xo_env : env_step 0 (s_heap s) (own c (l1 ++ nd :: l2)) (s_heap s') (own c (l1 ++ nd :: l2)) }.

(** [ao_src h o cur d]: the cursor denotes the data [d], which does not lie in
    the blocks [o] of the string and its configuration. *)
Class AddOp {C} (op : add_op C) := {
  ao_src : heap → list positive → C → list byte_or_non → Prop;
  ao_max c : 0 < buf_sz c ≤ VSTR_MAX_NODE_BUF → 0 < op_max op c ≤ VSTR_MAX_NODE_ALL;
  ao_max_same c c' : buf_sz c' = buf_sz c → op_max op c' = op_max op c;
  ao_fits : op_type op = NODE_BUF → (∀ c, op_max op c = buf_sz c) ∧
    ∀ cur nd, nd_type nd = NODE_BUF → op_continues op cur nd (nd_len nd) = true;
  ao_src_step k h o h' o' cur d : env_step k h o h' o' → ao_src h o cur d → ao_src h' o' cur d;
  ao_fill s c ns cur a rest d tmp :
    heap_inv (s_heap s) c ns → sp_nodes (get_spare (op_type op) c) = a :: rest →
    ao_src (s_heap s) (own c ns) cur d → 0 < tmp ≤ op_max op c → tmp ≤ zlen d →
    (∀ r ref, h_refs (s_heap s) !! r = Some ref → r_ref ref + 1 ≤ UINT_MAX) →
    wp (op_fill op cur a tmp) s (λ body s',
      fill_ok (op_type op) c ns a tmp (ztake tmp d) body s s' ∧
      (tmp < zlen d → tmp = op_max op c →
       ao_src (s_heap s') (own c ns) (op_filled op cur (zlen d) tmp) (zdrop tmp d)));
  ao_extend s c l1 nd l2 cur d tmp :
    heap_inv (s_heap s) c (l1 ++ nd :: l2) → op_continues op cur nd (nd_len nd) = true →
    ao_src (s_heap s) (own c (l1 ++ nd :: l2)) cur d → 0 < tmp ≤ zlen d →
    nd_len nd + tmp ≤ op_max op c →
    wp (op_extend op cur nd tmp) s (λ _ s', extend_ok c l1 nd l2 (ztake tmp d) s s') }.

(** How many nodes the data needs *)
Definition nodes_needed (max len : Z) : Z := len / max + (if decide (len mod max = 0) then 0 else 1).

Lemma nodes_needed_last max len : 0 < len ≤ max → nodes_needed max len = 1.
Proof.
  intros H. unfold nodes_needed. destruct (decide (len = max)) as [->|].
  - rewrite Z.div_same, Z.mod_same by lia. done.
  - rewrite Z.div_small, Z.mod_small by lia. rewrite decide_False by lia. done.
Qed.
Lemma nodes_needed_step max len : 0 < max < len → nodes_needed max len = nodes_needed max (len - max) + 1.
Proof.
  intros H. unfold nodes_needed. rewrite <- (Z.mod_add (len - max) 1 max) by lia.
  replace (len / max) with (((len - max) + 1 * max) / max) by (f_equal; lia).
  rewrite Z.div_add by lia. replace (len - max + 1 * max) with len by lia. lia.
Qed.
Lemma nodes_needed_pos max len : 0 < max → 0 < len → 1 ≤ nodes_needed max len.
Proof.
  intros Hm Hl. unfold nodes_needed. pose proof (Z.div_mod len max). pose proof (Z.mod_pos_bound len max).
  case_decide; nia.
Qed.
Lemma nodes_needed_mono max len len' : 0 < max → 0 < len ≤ len' → nodes_needed max len ≤ nodes_needed max len'.
Proof.
  intros Hm Hl. unfold nodes_needed. pose proof (Z.div_mod len max). pose proof (Z.mod_pos_bound len max).
  pose proof (Z.div_mod len' max). pose proof (Z.mod_pos_bound len' max).
  repeat case_decide; nia.
Qed.

(** ** The loop *)
Record loop_post (op_t : node_type) (k : Z) (c : Vstr_conf) (l1 l2 : list Vstr_node)
    (sps : list positive) (d : list byte_or_non) (s : St) (nds : list Vstr_node)
    (rest : list positive) (s' : St) : Prop := {
  lp_conf : s_conf s' = s_conf s;
  lp_base : ∃ u v, s_base s' = set_vec_state u v
    (b_set_num (b_num (s_base s) + zlen nds) (b_set_flag op_t true (s_base s)));
  lp_vec : vec_ok (s_base s');
  lp_heap : heap_inv (s_heap s') (set_spare op_t (mkSpare rest (zlen rest)) c) (l1 ++ nds ++ l2);
  lp_bytes : chain_bytes (s_heap s') nds = d;
  lp_same : ∀ nd, nd ∈ l1 ++ l2 → node_bytes (s_heap s') nd = node_bytes (s_heap s) nd;
  lp_types : Forall (λ nd, nd_type nd = op_t) nds;
  lp_num : 0 < zlen nds ≤ k ∧ zlen nds + zlen rest = zlen sps;
  lp_own : own (set_spare op_t (mkSpare rest (zlen rest)) c) (l1 ++ nds ++ l2) ≡ₚ own c (l1 ++ l2);
  lp_env : env_step k (s_heap s) (own c (l1 ++ l2)) (s_heap s') (own c (l1 ++ l2)) }.

Section loop.
Context {C : Type} (op : add_op C) `{AO : !AddOp op}.
Abbreviation t := (op_type op).

Lemma own_pop c a rest n l1 nd l2 :
  sp_nodes (get_spare t c) = a :: rest → nd_addr nd = a →
  own (set_spare t (mkSpare rest n) c) (l1 ++ nd :: l2) ≡ₚ own c (l1 ++ l2).
Proof.
  intros Hsp Ha. rewrite own_set_spare, (own_perm t c), Hsp. cbn [sp_nodes].
  rewrite !fmap_app, !fmap_cons, Ha. solve_Permutation.
Qed.

Lemma loop_post_app k1 k2 c l1 l2 sps d1 d2 s nds1 rest1 s1 nds2 rest2 s2 :
  loop_post t k1 c l1 l2 sps d1 s nds1 rest1 s1 →
  loop_post t k2 (set_spare t (mkSpare rest1 (zlen rest1)) c) (l1 ++ nds1) l2 rest1 d2 s1 nds2 rest2 s2 →
  loop_post t (k1 + k2) c l1 l2 sps (d1 ++ d2) s (nds1 ++ nds2) rest2 s2.
Proof.
  intros [C1 B1 V1 H1 Y1 S1 T1 N1 O1 E1] [C2 B2 V2 H2 Y2 S2 T2 N2 O2 E2].
  rewrite set_set_spare in *. rewrite <- !app_assoc in *. split.
  - congruence.
  - destruct B1 as (u1&v1&B1), B2 as (u2&v2&B2). exists u2, v2. rewrite B2, B1.
    rewrite length_app, Nat2Z.inj_add. destruct (s_base s) as [? ? ? ? ? ? ? ? ? ? ? ? []], t; cbn;
    unfold set_vec_state; cbn; f_equal; lia.
  - done.
  - rewrite <- ?app_assoc. done.
  - rewrite chain_bytes_app, Y2. rewrite (chain_frame (s_heap s1)), Y1; [done|].
    intros nd Hnd. apply S2. rewrite !elem_of_app. tauto.
  - intros nd Hnd. rewrite S2, S1; [done..|]. rewrite !elem_of_app in *. tauto.
  - by apply Forall_app.
  - rewrite length_app. lia.
  - rewrite <- app_assoc. by rewrite O2, O1.
  - eapply env_step_trans; [exact E1|]. by rewrite O1 in E2.
Qed.

(** One round of the loop: a spare node is filled and counted. *)
Lemma loop_round_spec cur d s c l1 l2 at_end a rest tmp :
  heap_inv (s_heap s) c (l1 ++ l2) → sp_nodes (get_spare t c) = a :: rest →
  ao_src (s_heap s) (own c (l1 ++ l2)) cur d → 0 < tmp ≤ op_max op c → tmp ≤ zlen d →
  (∀ r ref, h_refs (s_heap s) !! r = Some ref → r_ref ref + 1 ≤ UINT_MAX) →
  vec_ok (s_base s) → 0 ≤ b_num (s_base s) → b_num (s_base s) + 1 ≤ UINT_MAX →
  wp (upd_base (λ b, b_set_num (u32 (b_num b + 1)) (b_set_flag t true b));;
      body ← op_fill op cur a tmp;
      vstr__cache_iovec_maybe_add (mkNode a (u28 tmp) body) at_end tmp;; mret body) s
    (λ body s', loop_post t 1 c l1 l2 (a :: rest) (ztake tmp d) s [mkNode a (u28 tmp) body] rest s' ∧
       (tmp < zlen d → tmp = op_max op c →
        ao_src (s_heap s') (own c (l1 ++ l2)) (op_filled op cur (zlen d) tmp) (zdrop tmp d))).
Proof.
  intros H Hsp Hsrc Htmp Hle Hrefs Hvec Hnum0 Hnum.
  pose proof (ao_max c (hi_bsz _ _ _ H)) as Hmax. wp_steps. set (s1 := on_base _ s).
  wp_apply (ao_fill s1 c (l1 ++ l2) cur a rest d tmp); [done..|].
  intros body s2 [[Fc Fb Fh Fok Fby Fsame Fext Fcnt Fty Fenv] Hnext].
  rewrite (u28_id tmp) by (unfold VSTR_MAX_NODE_ALL in *; lia).
  set (nd := mkNode a tmp body) in *. wp_step.
  assert (Hvec2 : vec_ok (s_base s2)).
  { rewrite Fb. unfold s1. by destruct s as [? ? [? ? ? ? ? ? ? ? ? ? ? ? []]], t. }
  wp_apply vstr__cache_iovec_maybe_add_step; [done|by eapply node_ok_ptr|].
  intros _ s3 Hvs. pose proof (vec_step_ok _ _ Hvs) as Hvec3. destruct Hvs as (u&v&E3&Huv).
  assert (H3 : s_heap s3 = s_heap s2) by by rewrite E3.
  wp_steps. rewrite H3. split; [|done]. split.
  - rewrite E3. cbn. by rewrite Fc.
  - exists u, v. rewrite E3. cbn. rewrite Fb. unfold s1. cbn.
    replace (b_num (b_set_flag t true (s_base s))) with (b_num (s_base s)) by by destruct (s_base s), t.
    rewrite u32_id by (unfold UINT_MAX in *; lia). done.
  - done.
  - rewrite H3. cbn. by eapply heap_inv_pop.
  - rewrite H3, chain_bytes_cons, chain_bytes_nil, app_nil_r. exact Fby.
  - rewrite H3. exact Fsame.
  - constructor; [exact Fty|constructor].
  - cbn. lia.
  - by eapply own_pop.
  - rewrite H3. exact Fenv.
Qed.

Lemma vstr__add_loop_spec sps : ∀ cur d s c l1 l2 at_end,
  heap_inv (s_heap s) c (l1 ++ l2) → sp_nodes (get_spare t c) = sps →
  buf_sz (s_conf s) = buf_sz c → 0 < zlen d →
  nodes_needed (op_max op c) (zlen d) ≤ zlen sps →
  ao_src (s_heap s) (own c (l1 ++ l2)) cur d →
  (∀ r ref, h_refs (s_heap s) !! r = Some ref →
     r_ref ref + nodes_needed (op_max op c) (zlen d) ≤ UINT_MAX) →
  vec_ok (s_base s) → 0 ≤ b_num (s_base s) →
  b_num (s_base s) + nodes_needed (op_max op c) (zlen d) ≤ UINT_MAX →
  wp (vstr__add_loop op cur at_end (zlen d) sps) s (λ '(nds, rest) s',
    loop_post t (nodes_needed (op_max op c) (zlen d)) c l1 l2 sps d s nds rest s').
Proof.
  induction sps as [|a rest IH]; intros cur d s c l1 l2 at_end H Hsp Hsz Hd Hneed Hsrc Hrefs Hvec Hnum0 Hnum;
    pose proof (ao_max c (hi_bsz _ _ _ H)) as Hmax; pose proof (ao_max_same c (s_conf s) Hsz) as Hms;
    pose proof (nodes_needed_pos (op_max op c) (zlen d) ltac:(lia) Hd) as Hn1; [cbn in *; lia|].
  assert (Hrefs1 : ∀ r ref, h_refs (s_heap s) !! r = Some ref → r_ref ref + 1 ≤ UINT_MAX).
  { intros r ref Hr. specialize (Hrefs r ref Hr). lia. }
  pose proof (loop_round_spec cur d s c l1 l2 at_end a rest (Z.min (op_max op c) (zlen d)) H Hsp Hsrc
    ltac:(lia) ltac:(lia) Hrefs1 Hvec Hnum0 ltac:(lia)) as Hround. clear Hrefs1.
  set (tmp := Z.min (op_max op c) (zlen d)) in *.
  cbn [vstr__add_loop]. wp_step. apply wp_gets. rewrite Hms. fold tmp. apply wp_cut.
  eapply wp_mono; [exact Hround|]. clear Hround. intros body s1 [HL Hnext]. cbn beta.
  case_decide as Hlast.
  - wp_steps. replace tmp with (zlen d) in HL at 1 by lia. rewrite ztake_all in HL by lia.
    rewrite nodes_needed_last by lia. exact HL.
  - rewrite nodes_needed_step in * by lia. replace (op_max op c) with tmp in * by lia.
    pose proof HL as [C1 B1 V1 H1 _ _ _ _ O1 E1].
    assert (Hz : zlen (zdrop tmp d) = zlen d - tmp) by (rewrite length_zdrop; lia).
    rewrite <- Hz in *. wp_step.
    destruct B1 as (u&v&B1).
    assert (Hnum1 : b_num (s_base s1) = b_num (s_base s) + 1).
    { rewrite B1. by destruct (s_base s) as [? ? ? ? ? ? ? ? ? ? ? ? []], t. }
    set (c1 := set_spare t (mkSpare rest (zlen rest)) c) in *.
    assert (Hm1 : op_max op c1 = tmp).
    { rewrite (ao_max_same c c1); [lia|]. by apply buf_sz_set_spare. }
    wp_apply (IH (op_filled op cur (zlen d) tmp) (zdrop tmp d) s1 c1 (l1 ++ [mkNode a (u28 tmp) body]) l2 at_end).
    all: rewrite ?Hm1, <- ?app_assoc; cbn [app].
    + exact H1.
    + unfold c1. by rewrite get_set_spare.
    + unfold c1. by rewrite buf_sz_set_spare, C1.
    + lia.
    + cbn [length] in Hneed. lia.
    + eapply ao_src_step; [|apply Hnext; [lia|done]]. by apply (env_step_perm 0).
    + intros r ref' Hr. destruct (refs_step_get _ _ _ _ _ (proj2 E1) Hr) as (ref&Hr0&_&_&Hle&_).
      specialize (Hrefs r ref Hr0). lia.
    + exact V1.
    + lia.
    + lia.
    + intros [nds rest'] s2 HL2. wp_steps. rewrite Z.add_comm.
      rewrite <- (ztake_zdrop tmp d). eapply (loop_post_app 1 _ _ _ _ _ _ _ _ [_]); [exact HL|].
      rewrite ztake_zdrop. exact HL2.
Qed.
End loop.

End others.
