(* ===== verification/StringLemmas.v ===== *)
(** * Steps of a whole string: what splitting, normalising, growing the spare
    lists and looking a position up keep of a well-formed string. *)
From Stdlib Require Import ZArith Lia ZifyBool.
From stdpp Require Import base tactics list numbers option gmap.
From S2P Require Import Prelude State Wp Ref Cache Core Add Inv PosLemmas SpareLemmas SplitLemmas CacheLemmas AddLemmas.

Section others.
Context {OT : Others}.

(** ** Positions in a changing list of nodes *)
Lemma pos_data_ok_map ns ns' used data :
  pos_data_ok ns used data →
  (∀ j nd, ns !! j = Some nd → ∃ j' nd', ns' !! j' = Some nd' ∧ nd_addr nd' = nd_addr nd ∧
     sum_len (take j' ns') = sum_len (take j ns) ∧ (j' = 0%nat → j = 0%nat)) →
  pos_data_ok ns' used data.
Proof.
  unfold pos_data_ok. destruct (cp_node data) as [a|]; [|done].
  intros (i&nd&Hi&Ha&Hs&H0) H. destruct (H i nd Hi) as (j&nd'&Hj&Ha'&Hs'&H0').
  exists j, nd'. split_and!; [done|congruence|congruence|auto].
Qed.

Lemma take_middle_lt {A} (l1 : list A) x l2 j : (j ≤ length l1)%nat → take j (l1 ++ x :: l2) = take j l1.
Proof. intros. by rewrite take_app_le. Qed.

Lemma pos_data_ok_split l1 nd l2 nd1 nd2 used data :
  pos_data_ok (l1 ++ nd :: l2) used data → nd_addr nd1 = nd_addr nd →
  nd_len nd1 + nd_len nd2 = nd_len nd → pos_data_ok (l1 ++ nd1 :: nd2 :: l2) used data.
Proof.
  intros H Ha Hl. eapply pos_data_ok_map; [exact H|]. intros j x Hj.
  destruct (decide (j < length l1)%nat).
  - exists j, x. rewrite lookup_app_l in Hj by done. rewrite lookup_app_l, !take_middle_lt by lia. done.
  - rewrite lookup_app_r in Hj by lia. destruct (j - length l1)%nat as [|j'] eqn:E; cbn in Hj.
    + injection Hj as <-. exists j, nd1. rewrite lookup_app_r, E, !take_middle_lt by lia. done.
    + exists (S j), x. rewrite lookup_app_r by lia.
      replace (S j - length l1)%nat with (S (S j')) by lia. cbn. split_and!; [done..| |lia].
      rewrite !take_app_ge, !sum_len_app by lia.
      replace (S j - length l1)%nat with (S (S j')) by lia. rewrite E. cbn. lia.
Qed.

Lemma pos_data_ok_insert l1 new l2 used data :
  pos_data_ok (l1 ++ l2) used data → cp_pos data + used ≤ sum_len l1 → lens_pos (l1 ++ l2) →
  pos_data_ok (l1 ++ new ++ l2) used data.
Proof.
  unfold pos_data_ok. destruct (cp_node data) as [a|]; [|done].
  intros (i&nd&Hi&Ha&Hs&H0) Hle Hp. exists i, nd.
  assert (Hlt : (i < length l1)%nat).
  { destruct (decide (i < length l1)%nat); [done|]. rewrite take_app_ge, sum_len_app in Hs by lia.
    apply Forall_app in Hp as [_ Hp2]. pose proof (sum_len_nonneg _ (lens_pos_take l2 (i - length l1) Hp2)). lia. }
  rewrite lookup_app_l in Hi by done. rewrite lookup_app_l by done. rewrite take_app_le in * by lia. done.
Qed.

(** Positions up to [k] bytes into a node do not depend on what follows. *)
Lemma pos_data_ok_cut l1 nd nd' R R' k used data :
  pos_data_ok (l1 ++ nd :: R) used data → lens_pos (l1 ++ nd :: R) → k ≤ nd_len nd →
  cp_pos data + used ≤ sum_len l1 + k → nd_addr nd' = nd_addr nd →
  pos_data_ok (l1 ++ nd' :: R') used data.
Proof.
  unfold pos_data_ok. destruct (cp_node data) as [a|]; [|done].
  intros (i&x&Hi&Ha&Hs&H0) Hp Hk Hle Haddr.
  assert (Hlt : (i ≤ length l1)%nat).
  { destruct (decide (i ≤ length l1)%nat); [done|]. apply Forall_app in Hp as [_ Hp2].
    rewrite take_app_ge, sum_len_app in Hs by lia.
    destruct (i - length l1)%nat as [|j] eqn:E; [lia|]. apply Forall_cons in Hp2 as [_ Hp2].
    pose proof (sum_len_nonneg _ (lens_pos_take R j Hp2)). cbn in Hs. lia. }
  rewrite take_app_le in Hs by lia. destruct (decide (i = length l1)) as [->|].
  - exists (length l1), nd'. rewrite lookup_app_r, Nat.sub_diag in * by lia. cbn in *.
    injection Hi as <-. rewrite take_app_le by lia. split_and!; [done|congruence|done|done].
  - exists i, x. rewrite lookup_app_l in * by lia. rewrite take_app_le by lia. done.
Qed.
Lemma pos_data_ok_grow l1 nd nd' l2 used data :
  pos_data_ok (l1 ++ nd :: l2) used data → lens_pos (l1 ++ nd :: l2) →
  cp_pos data + used ≤ sum_len l1 + nd_len nd → nd_addr nd' = nd_addr nd →
  pos_data_ok (l1 ++ nd' :: l2) used data.
Proof. intros. by eapply pos_data_ok_cut. Qed.

(** ** The shared shape of the steps *)
Record keeps (k n : Z) (s s' : St) : Prop := {
  kp_wf : wf s';
  kp_content : st_content s' = st_content s;
  kp_len : b_len (s_base s') = b_len (s_base s);
  kp_conf : conf_same (s_conf s) (s_conf s');
  kp_env : env_step k (s_heap s) (st_own s) (s_heap s') (st_own s');
  kp_own : zlen (st_own s') ≤ zlen (st_own s) + n }.

Lemma keeps_refl s : wf s → keeps 0 0 s s.
Proof. intros H. split; try done; [by apply env_step_perm|lia]. Qed.
Lemma keeps_trans k1 n1 k2 n2 s1 s2 s3 :
  keeps k1 n1 s1 s2 → keeps k2 n2 s2 s3 → keeps (k1 + k2) (n1 + n2) s1 s3.
Proof.
  intros [] []. split; [done|congruence|congruence|by eapply conf_same_trans|by eapply env_step_trans|lia].
Qed.
Lemma keeps_weaken k n k' n' s s' : keeps k n s s' → k ≤ k' → n ≤ n' → keeps k' n' s s'.
Proof. intros [] ??. split; try done; [by eapply env_step_weaken|lia]. Qed.
Lemma keeps_room k n k' n' s s' :
  keeps k n s s' → room (n + n') (k + k') s → room n' k' s'.
Proof.
  intros [W C L F [_ R] O] [H1 H2]. split; [unfold st_own in *; lia|].
  intros r ref' Hr. destruct (refs_step_get _ _ _ _ _ R Hr) as (ref&Hr0&_&_&?&_).
  specialize (H2 r ref Hr0). lia.
Qed.

Lemma pos_cached_keeps s s' : pos_cached s s' → wf s → wf s' → keeps 0 0 s s'.
Proof.
  intros [p ->] _ Hw. assert (E : ∀ b, b_nodes (b_set_cache (c_set_pos p (b_cache b)) b) = b_nodes b) by by intros [].
  split; try done.
  - unfold st_content, content. cbn. rewrite E. by destruct (s_base s).
  - by destruct s as [? ? []].
  - unfold st_own. cbn. rewrite E. by apply env_step_perm.
  - unfold st_own. cbn. rewrite E. lia.
Qed.

(** Growing the spare lists *)
Lemma spare_step_keeps t n s s' : wf s → spare_step t n s s' → keeps 0 n s s'.
Proof.
  intros [H HB HC] Hs. pose proof (spare_step_env _ _ _ _ Hs) as He.
  destruct Hs as [B H' G C O F]. split; try done.
  - split; rewrite B; done.
  - unfold st_content, content. rewrite B. f_equal. eapply heap_grows_chain; [done|apply H].
  - by rewrite B.
  - unfold st_own. rewrite B. done.
Qed.

(** Splitting *)
Record split_at (s : St) (i : nat) (nd : Vstr_node) (pos : Z) (s' : St) : Prop := {
  sa_node : b_nodes (s_base s') !! i = Some (nd_set_len pos nd);
  sa_take : take i (b_nodes (s_base s')) = take i (b_nodes (s_base s));
  sa_used : b_used (s_base s') = b_used (s_base s) }.

Lemma split_post_keeps s i nd pos s' :
  wf s → b_nodes (s_base s) !! i = Some nd → 0 < pos < nd_len nd →
  (i = 0%nat → b_used (s_base s) < pos) → split_post s i nd pos s' →
  keeps 1 1 s s' ∧ split_at s i nd pos s'.
Proof.
  intros [H HB HC] Hi Hpos H0 SP. pose proof (split_post_env _ _ _ _ _ SP) as He.
  destruct SP as [(beg&body&EB&Hty) H' Hby Hconf _ Hown _ _].
  pose proof (list_split_at _ _ _ Hi) as Es.
  assert (Hlt : (i < length (b_nodes (s_base s)))%nat) by by eapply lookup_lt_Some.
  destruct s as [h c b]. destruct s' as [h' c' b']. cbn in *. subst b'.
  assert (EN : b_nodes (split_base b i nd pos beg body) =
    take i (b_nodes b) ++ nd_set_len pos nd :: mkNode beg (nd_len nd - pos) body :: drop (S i) (b_nodes b))
    by by destruct b.
  assert (EU : b_used (split_base b i nd pos beg body) = b_used b) by by destruct b.
  assert (EL : b_len (split_base b i nd pos beg body) = b_len b) by by destruct b.
  assert (Hlen1 : length (take i (b_nodes b)) = i) by (rewrite length_take; lia).
  split.
  - split; try done.
    + split; [done| |]; cbn.
      * split; rewrite ?EN, ?EU, ?EL.
        -- destruct (bi_used _ HB) as [|(bg&Hbg&Hb1&Hb2)]; [by left|right].
           destruct i as [|i]; cbn.
           ++ destruct (b_nodes b); [done|]. injection Hbg as ->. injection Hi as ->.
              exists (nd_set_len pos nd). split_and!; [done|done|lia|by apply H0].
           ++ destruct (b_nodes b); [done|]. injection Hbg as ->. exists bg. done.
        -- rewrite (bi_len _ HB), Es at 1. rewrite !sum_len_app. cbn. lia.
        -- pose proof (bi_size _ HB) as Hs. rewrite Es in Hs. rewrite !sum_len_app in *. cbn in *. lia.
        -- pose proof (bi_num _ HB) as Hn. unfold split_base. rewrite Es in Hn.
           destruct b; cbn in *. rewrite Hn. zl.
        -- pose proof (bi_flags _ HB) as Hf. intros x Hx.
           assert (Hf' : ∀ y, y ∈ b_nodes b → node_used (nd_type y) (split_base b i nd pos beg body) = true).
           { intros y Hy. specialize (Hf y Hy). destruct b; done. }
           rewrite Es in Hf'. rewrite !elem_of_app, !elem_of_cons in Hx.
           destruct Hx as [Hx|[->|[->|Hx]]].
           ++ apply Hf'. rewrite elem_of_app. by left.
           ++ apply (Hf' nd). rewrite elem_of_app, elem_of_cons. tauto.
           ++ change (nd_type _) with (body_type body). rewrite Hty. apply (Hf' nd).
              rewrite elem_of_app, elem_of_cons. tauto.
           ++ apply Hf'. rewrite elem_of_app, elem_of_cons. tauto.
      * split; rewrite ?EN, ?EU.
        -- intros data Hd. eapply pos_data_ok_split with (nd := nd); [|done|cbn; lia].
           rewrite <- Es. apply (ci_pos _ HC). by destruct b.
        -- intros Ha. pose proof (ci_avail _ HC) as Hc. destruct b; cbn in *. by apply Hc.
        -- destruct (ci_vec _ HC) as [Hv Ha]. destruct b as [? ? ? ? ? ? ? ? ? ? ? ? []].
           split; [intros [?|?]; [done|apply Hv; by right]|done].
    + unfold st_content, content. cbn. by rewrite EU, Hby.
  - split; cbn; rewrite ?EN.
    + by rewrite lookup_app_r, Hlen1, Nat.sub_diag by lia.
    + rewrite take_app_le, take_take by lia. f_equal. lia.
    + done.
Qed.

(** Normalising *)
Lemma zero_post_keeps s s' : wf s → zero_post s s' → keeps 0 0 s s' ∧ b_used (s_base s') = 0.
Proof.
  intros [H HB HC] HZ. pose proof (zero_post_env _ _ HZ) as He.
  destruct HZ as [EB H' Hby Hsum (k&Hk) Htake Hconf Hrefs _ Hown].
  destruct s as [h c b]. destruct s' as [h' c' b']. cbn in *.
  assert (EU : b_used b' = 0) by (rewrite EB; by destruct b).
  assert (EL : b_len b' = b_len b) by (rewrite EB; by destruct b).
  assert (Hlen : length (b_nodes b') = length (b_nodes b)) by (rewrite Hk; by destruct (b_nodes b)).
  split; [|done]. split; try done.
  - split; [done| |]; cbn.
    + split.
      * by left.
      * rewrite EU, EL, Hsum, (bi_len _ HB). lia.
      * pose proof (bi_size _ HB). pose proof (bi_used _ HB) as [?|(?&_&_&?)]; lia.
      * rewrite Hlen, <- (bi_num _ HB), EB. by destruct b.
      * intros nd Hnd. assert (∃ nd0, nd0 ∈ b_nodes b ∧ nd_type nd0 = nd_type nd) as (nd0&Hin&<-).
        { rewrite Hk in Hnd. destruct (b_nodes b) as [|x l]; [by exists nd|].
          rewrite elem_of_cons in Hnd. destruct Hnd as [->|Hnd].
          - exists x. split; [by left|done].
          - exists nd. split; [by right|done]. }
        rewrite EB. pose proof (bi_flags _ HB nd0 Hin). by destruct b.
    + split.
      * intros data Hd. assert (Hd0 : pos_data_ok (b_nodes b) (b_used b) data).
        { apply (ci_pos _ HC). rewrite EB in Hd. by destruct b. }
        unfold pos_data_ok in *. destruct (cp_node data) as [a|]; [|done].
        destruct Hd0 as (i&nd&Hi&Ha&Hs&H0). exists i. rewrite EU.
        assert (Hi' : (i < length (b_nodes b))%nat) by by eapply lookup_lt_Some.
        destruct i as [|i].
        -- rewrite Hk. destruct (b_nodes b) as [|x l]; [done|]. injection Hi as ->.
           exists (nd_set_len k nd). split_and!; [done|done| |done]. cbn in *. rewrite H0 in Hs; lia.
        -- exists nd. split_and!; [|done| |done].
           ++ rewrite Hk. by destruct (b_nodes b).
           ++ rewrite Htake by lia. lia.
      * intros Ha. pose proof (ci_avail _ HC) as Hc. rewrite EB in *. destruct b; cbn in *. by apply Hc.
      * pose proof (ci_vec _ HC). rewrite EB. by destruct b.
  - unfold st_content, content. cbn. rewrite EU, Hby, zdrop_0 by lia. done.
  - by rewrite Hconf.
  - rewrite Hown. lia.
Qed.

(** ** Facts of well-formed strings *)
Lemma wf_lens s : wf s → lens_pos (b_nodes (s_base s)).
Proof. intros [H _ _]. by eapply heap_inv_lens. Qed.
Lemma wf_used_nonneg s : wf s → 0 ≤ b_used (s_base s).
Proof. intros [_ HB _]. destruct (bi_used _ HB) as [->|(?&_&_&?)]; lia. Qed.
Lemma wf_used_first s nd : wf s → b_nodes (s_base s) !! 0%nat = Some nd → b_used (s_base s) < nd_len nd.
Proof.
  intros Hw Hn. destruct (bi_used _ (wf_base _ Hw)) as [->|(bg&Hb&_&?)].
  - pose proof (wf_lens _ Hw) as Hl. unfold lens_pos in Hl. rewrite Forall_lookup in Hl.
    by apply (Hl 0%nat).
  - destruct (b_nodes (s_base s)); [done|]. injection Hb as ->. injection Hn as ->. lia.
Qed.
Lemma used_le_sum b : base_inv b → lens_pos (b_nodes b) → 0 ≤ b_used b ≤ sum_len (b_nodes b).
Proof.
  intros HB Hl. destruct (bi_used _ HB) as [->|(bg&Hb&_&?)].
  - pose proof (sum_len_nonneg _ Hl). lia.
  - destruct (b_nodes b); [done|]. injection Hb as ->. apply Forall_cons in Hl as [_ Hl].
    pose proof (sum_len_nonneg _ Hl). cbn. lia.
Qed.
Lemma wf_content_length s : wf s → zlen (st_content s) = b_len (s_base s).
Proof.
  intros Hw. pose proof (used_le_sum _ (wf_base _ Hw) (wf_lens _ Hw)).
  unfold st_content, content. rewrite length_zdrop, (bi_len _ (wf_base _ Hw)).
  rewrite (chain_bytes_length _ _ _ (hi_nodes _ _ _ (wf_heap _ Hw))). lia.
Qed.
Lemma wf_len_nonneg s : wf s → 0 ≤ b_len (s_base s).
Proof. intros Hw. rewrite <- (wf_content_length _ Hw). lia. Qed.
Lemma wf_len_0 s : wf s → b_len (s_base s) = 0 → b_nodes (s_base s) = [] ∧ b_used (s_base s) = 0.
Proof.
  intros Hw Hl. pose proof (wf_used_first s) as Hf. revert Hf.
  pose proof (wf_lens _ Hw) as Hp. pose proof (wf_base _ Hw) as HB. rewrite (bi_len _ HB) in Hl.
  destruct (bi_used _ HB) as [E|(bg&Hb&_&?)]; destruct (b_nodes (s_base s)) as [|nd l]; try done.
  - intros Hf. specialize (Hf nd Hw eq_refl). apply Forall_cons in Hp as [_ Hp].
    pose proof (sum_len_nonneg _ Hp). cbn in Hl. lia.
  - injection Hb as ->. apply Forall_cons in Hp as [_ Hp].
    pose proof (sum_len_nonneg _ Hp). cbn in Hl. lia.
Qed.
Lemma wf_num_le s : wf s → b_num (s_base s) = zlen (b_nodes (s_base s)) ∧
  zlen (b_nodes (s_base s)) ≤ zlen (st_own s) ∧ zlen (st_own s) ≤ UINT_MAX.
Proof.
  intros Hw. split_and!.
  - apply (bi_num _ (wf_base _ Hw)).
  - unfold st_own, own. zl.
  - apply (hi_total _ _ _ (wf_heap _ Hw)).
Qed.
(** A 32-bit count of 28-bit nodes stays far below the 64-bit length. *)
Lemma sum_len_bound h bsz ns : Forall (node_ok h bsz) ns → sum_len ns ≤ zlen ns * VSTR_MAX_NODE_ALL.
Proof. induction 1 as [|nd l [? _] _ IH]; cbn [sum_len length]; lia. Qed.
Lemma heap_inv_size h c ns : heap_inv h c ns → sum_len ns ≤ SIZE_MAX.
Proof.
  intros H. pose proof (sum_len_bound _ _ _ (hi_nodes _ _ _ H)) as Hs.
  pose proof (hi_total _ _ _ H) as Ht. unfold own in Ht. rewrite length_app, length_fmap in Ht.
  unfold UINT_MAX, SIZE_MAX, VSTR_MAX_NODE_ALL in *. lia.
Qed.

(** ** Setting up a position *)

(** Node [i] ends at position [pos] of the string. *)
Definition ends_at (s : St) (i : nat) (p pos : Z) : Prop :=
  ∃ nd, b_nodes (s_base s) !! i = Some nd ∧ p = nd_len nd ∧
    sum_len (take (S i) (b_nodes (s_base s))) = pos + b_used (s_base s).

Lemma vstr__add_setup_pos_spec s pos :
  wf s → 1 ≤ pos ≤ b_len (s_base s) → room 1 1 s →
  wp (vstr__add_setup_pos pos) s (λ r s', keeps 1 1 s s' ∧
    match r with
    | Some (i, p, num) => ends_at s' i p pos ∧ malloc_bad (s_conf s') = malloc_bad (s_conf s)
    | None => malloc_bad (s_conf s') = true ∧ b_nodes (s_base s') = b_nodes (s_base s) ∧ b_used (s_base s') = b_used (s_base s)
    end).
Proof.
  intros Hw Hpos Hroom. unfold vstr__add_setup_pos. wp_step.
  wp_apply vstr_base__pos_spec; [done|done|]. intros [[i p] num] s1 (Hat&Hpc&Hw1).
  pose proof (pos_cached_keeps _ _ Hpc Hw Hw1) as K1. destruct Hpc as [pc E1].
  destruct Hat as (nd&Hi&Hp&Hsum).
  assert (EN : b_nodes (s_base s1) = b_nodes (s_base s) ∧ b_used (s_base s1) = b_used (s_base s) ∧
    s_conf s1 = s_conf s) by (rewrite E1; by destruct s as [? ? []]).
  destruct EN as (EN&EU&EC). wp_step. unfold node_at. wp_steps. rewrite EN.
  eapply wp_of_option; [exact Hi|]. cbn beta.
  assert (Hend : sum_len (take (S i) (b_nodes (s_base s1))) = pos + b_used (s_base s1) - p + nd_len nd).
  { rewrite EN, EU, (sum_len_take_S _ _ _ Hi). lia. }
  case_decide as Hd.
  - wp_steps. split; [by eapply keeps_weaken|]. split; [|by rewrite EC]. exists nd.
    rewrite EN. split_and!; [done|done|]. rewrite <- EN. lia.
  - wp_step. wp_apply vstr__base_split_node_spec; [apply Hw1|apply (bi_num _ (wf_base _ Hw1))|by rewrite EN|lia| |].
    { eapply (keeps_room 0 0); [exact K1|]. exact Hroom. }
    intros ok s2 H2. wp_steps. destruct ok.
    + assert (H0 : i = 0%nat → b_used (s_base s1) < p).
      { intros ->. rewrite take_0 in Hsum. cbn [sum_len] in Hsum. rewrite EU. lia. }
      destruct (split_post_keeps s1 i nd p s2 Hw1 ltac:(by rewrite EN) ltac:(lia) H0 H2) as [K2 [A1 A2 A3]].
      split; [by eapply (keeps_trans 0 0 1 1)|]. split; [|by rewrite (sp_malloc _ _ _ _ _ H2), EC].
      exists (nd_set_len p nd). split_and!; [done|done|].
      rewrite (sum_len_take_S _ _ _ A1), A2, A3, EN, EU. cbn. lia.
    + destruct H2 as [Hs Hm]. split; [|by rewrite (ss_base _ _ _ _ Hs)]. eapply (keeps_trans 0 0 1 1); [exact K1|].
      eapply keeps_weaken; [by eapply spare_step_keeps|lia|lia].
Qed.

End others.
