(* ===== verification/AddSpec.v ===== *)
(** * Adding inserts the data: the functional correctness of the add functions
    over the add interface. *)
From Stdlib Require Import ZArith Lia ZifyBool.
From stdpp Require Import base tactics list numbers option gmap.
From S2P Require Import Prelude State Wp Ref Cache Core Add Inv PosLemmas SpareLemmas SplitLemmas CacheLemmas AddLemmas StringLemmas.

Section others.
Context {OT : Others}.

(** ** Between the change of the nodes and the notification of the caches *)
Record wf_upto (q : Z) (s : St) : Prop := {
  wu_heap : heap_inv (s_heap s) (s_conf s) (b_nodes (s_base s));
  wu_base : base_inv (s_base s);
  wu_pos : ∀ data, cache_get_pos (s_base s) = Some data → cp_pos data ≤ q →
    pos_data_ok (b_nodes (s_base s)) (b_used (s_base s)) data;
  wu_avail : cache_available (s_base s) = true → is_Some (c_pos (b_cache (s_base s)));
  wu_vec : vec_ok (s_base s) }.

Lemma wf_wf_upto q s : wf s → wf_upto q s.
Proof.
  intros [H HB HC]. split; [done|done| |exact (ci_avail _ HC)|exact (ci_vec _ HC)].
  intros data Hd _. by apply (ci_pos _ HC).
Qed.

Lemma vstr__cache_add_spec q len s :
  wf_upto q s →
  wp (vstr__cache_add q len) s (λ _ s', wf s' ∧ s_heap s' = s_heap s ∧ s_conf s' = s_conf s ∧
    b_nodes (s_base s') = b_nodes (s_base s) ∧ b_used (s_base s') = b_used (s_base s) ∧
    b_len (s_base s') = b_len (s_base s)).
Proof.
  intros [H HB HP HA HV]. wp_apply vstr__cache_run_spec; [done..|]. intros _ s' (cs&ci&->).
  destruct s as [h c [ns bl bn used iu ca ic f1 f2 f3 f4 gc [p v cs0]]]. cbn in *.
  split; [|done]. split; cbn; [done| |].
  - destruct HB. split; done.
  - split; cbn; [|by destruct ca, p; cbn in *; eauto; unfold vstr__cache_pos_cb; repeat case_match|done].
    intros data. unfold cache_get_pos in *. cbn in *. destruct ca; [|done]. cbn.
    destruct p as [p|]; [|done]. cbn. unfold vstr__cache_pos_cb. cbn.
    rewrite decide_False by done. destruct (cp_node p) as [a|] eqn:Ea.
    + case_decide as Hd; [intros [= <-]; apply HP; [done|tauto]|].
      rewrite !decide_False by intuition congruence. by intros [= <-].
    + intros [= <-]. unfold pos_data_ok. by rewrite Ea.
Qed.

(** A node starts after [pos] characters. *)
Definition boundary (s : St) (pos : Z) : Prop :=
  ∃ k, sum_len (take k (b_nodes (s_base s))) = pos + b_used (s_base s).

(** ** The effect of putting data in *)
Record grown (q pos : Z) (d : list byte_or_non) (k n : Z) (s s' : St) : Prop := {
  gr_wf : wf_upto q s';
  gr_content : st_content s' = ztake pos (st_content s) ++ d ++ zdrop pos (st_content s);
  gr_len : b_len (s_base s') = b_len (s_base s) + zlen d;
  gr_conf : conf_same (s_conf s) (s_conf s');
  gr_env : env_step k (s_heap s) (st_own s) (s_heap s') (st_own s');
  gr_own : zlen (st_own s') ≤ zlen (st_own s) + n;
  gr_malloc : malloc_bad (s_conf s') = malloc_bad (s_conf s);
  gr_boundary : boundary s' (pos + zlen d) }.

Lemma insert_insert {A} (l : list A) pos d1 d2 :
  0 ≤ pos ≤ zlen l →
  let l' := ztake pos l ++ d1 ++ zdrop pos l in
  ztake (pos + zlen d1) l' ++ d2 ++ zdrop (pos + zlen d1) l' =
  ztake pos l ++ (d1 ++ d2) ++ zdrop pos l.
Proof.
  intros Hpos l'. unfold l'. rewrite (app_assoc (ztake pos l) d1 (zdrop pos l)).
  assert (Hl : zlen (ztake pos l ++ d1) = pos + zlen d1) by (rewrite length_app, Nat2Z.inj_add, length_ztake; lia).
  rewrite <- Hl, ztake_app_len, zdrop_app_len. by rewrite <- !app_assoc.
Qed.

Lemma grown_trans q pos d1 d2 k1 n1 k2 n2 s1 s2 s3 :
  0 ≤ pos ≤ zlen (st_content s1) →
  grown q pos d1 k1 n1 s1 s2 → grown q (pos + zlen d1) d2 k2 n2 s2 s3 →
  grown q pos (d1 ++ d2) (k1 + k2) (n1 + n2) s1 s3.
Proof.
  intros Hpos [W1 C1 L1 F1 E1 O1 M1 B1] [W2 C2 L2 F2 E2 O2 M2 B2]. split.
  - done.
  - rewrite C2, C1. by apply insert_insert.
  - rewrite length_app. lia.
  - by eapply conf_same_trans.
  - by eapply env_step_trans.
  - lia.
  - congruence.
  - rewrite length_app, Nat2Z.inj_add, Z.add_assoc. exact B2.
Qed.

(** The bytes of the string around a node boundary *)
Lemma content_boundary h b l1 l2 pos c :
  Forall (node_ok h (buf_sz c)) (l1 ++ l2) → 0 ≤ b_used b → 0 ≤ pos →
  b_nodes b = l1 ++ l2 → sum_len l1 = pos + b_used b →
  ztake pos (content h b) = zdrop (b_used b) (chain_bytes h l1) ∧
  zdrop pos (content h b) = chain_bytes h l2.
Proof.
  intros [Hok _]%Forall_app Hu Hp En Hs. unfold content. rewrite En, chain_bytes_app.
  pose proof (chain_bytes_length _ _ _ Hok) as Hl. rewrite zdrop_app_l by lia.
  assert (Hz : zlen (zdrop (b_used b) (chain_bytes h l1)) = pos) by (rewrite length_zdrop; lia).
  rewrite <- Hz at 1. rewrite ztake_app_len. split; [done|].
  rewrite <- Hz at 1. by rewrite zdrop_app_len.
Qed.

(** The fields of a string with nodes linked in *)
Definition linked_base (ns : list Vstr_node) (len : Z) (u : bool) (v : option cache_data_iovec)
    (num : Z) (t : node_type) (b : Vstr_base) : Vstr_base :=
  b_set_nodes ns (set_vec_state u v (b_set_num num (b_set_flag t true (b_set_len len b)))).
Record linked_fields (ns : list Vstr_node) (len num : Z) (t : node_type) (b b' : Vstr_base) : Prop := {
  lf_nodes : b_nodes b' = ns;
  lf_len : b_len b' = len;
  lf_num : b_num b' = num;
  lf_used : b_used b' = b_used b;
  lf_flag : node_used t b' = true;
  lf_flags : ∀ t', node_used t' b = true → node_used t' b' = true;
  lf_get_pos : cache_get_pos b' = cache_get_pos b;
  lf_avail : cache_available b' = cache_available b;
  lf_pos : c_pos (b_cache b') = c_pos (b_cache b) }.
Lemma linked_base_fields ns len u v num t b :
  linked_fields ns len num t b (linked_base ns len u v num t b).
Proof.
  destruct b as [? ? ? ? ? ? ? ? ? ? ? ? []]. split; try done; try by destruct t.
  intros t'. by destruct t, t'.
Qed.

Lemma linked_base_inv l1 nds l2 len num t b b' :
  base_inv b → b_nodes b = l1 ++ l2 → (l1 = [] → b_used b = 0) → Forall (λ nd, nd_type nd = t) nds →
  sum_len (l1 ++ nds ++ l2) ≤ SIZE_MAX → len = b_len b + sum_len nds → num = b_num b + zlen nds →
  linked_fields (l1 ++ nds ++ l2) len num t b b' → base_inv b'.
Proof.
  intros HB En Hl1 Ht Hsz -> -> [F1 F2 F3 F4 F5 F6 _ _ _]. split; rewrite ?F1, ?F2, ?F3, ?F4.
  - destruct l1 as [|x l1]; [left; auto|]. destruct (bi_used _ HB) as [|(bg&Hb&?&?)]; [by left|right].
    rewrite En in Hb. by exists bg.
  - rewrite (bi_len _ HB), En, !sum_len_app. lia.
  - done.
  - rewrite (bi_num _ HB), En. zl.
  - intros nd. rewrite !elem_of_app. intros Hnd.
    assert (nd ∈ nds ∨ nd ∈ b_nodes b) as [Hin|Hin] by (rewrite En, elem_of_app; tauto).
    + rewrite Forall_forall in Ht. by rewrite (Ht nd Hin).
    + by apply F6, (bi_flags _ HB).
Qed.

Section add_spec.
Context {C : Type} (op : add_op C) `{AO : !AddOp op}.
Abbreviation t := (op_type op).
Abbreviation need c len := (nodes_needed (op_max op c) len).

(** ** The part of VSTR__ADD_MID and VSTR__ADD_END after the first node *)
Definition add_finish (cur : C) (at_end : bool) (len newlen : Z) (sps : list positive)
    (link : list Vstr_node → list Vstr_node) (q qlen : Z) : M bool :=
  upd_base (b_set_len newlen);;
  '(nds, rest) ← vstr__add_loop op cur at_end len sps;
  upd_conf (λ c, set_spare t (mkSpare rest (u32 (sp_num (get_spare t c) - zlen nds))) c);;
  upd_base (b_set_nodes (link nds));;
  vstr__cache_add q qlen;;
  mret true.

(** The string after the loop, with the new nodes linked *)
Lemma loop_post_grown q pos k l1 l2 d s nds rest s2 :
  wf_upto q s → b_nodes (s_base s) = l1 ++ l2 → 0 ≤ pos → q ≤ pos →
  sum_len l1 = pos + b_used (s_base s) → (l1 = [] → b_used (s_base s) = 0) →
  0 ≤ b_used (s_base s) → 0 ≤ k →
  let s1 := on_base (b_set_len (u64 (b_len (s_base s) + zlen d))) s in
  loop_post t k (s_conf s) l1 l2 (sp_nodes (get_spare t (s_conf s))) d s1 nds rest s2 →
  grown q pos d k 0 s
    (on_base (b_set_nodes (l1 ++ nds ++ l2))
      (on_conf (λ c, set_spare t (mkSpare rest (u32 (sp_num (get_spare t c) - zlen nds))) c) s2)).
Proof.
  intros [H HB HP HA HV] En Hpos Hq Hsum Hl1 Hu Hk s1 [LC (u&v&LB) LV LH LY LS LT LN LO LE].
  rewrite En in H. pose proof (hi_nodes _ _ _ H) as Hok.
  assert (Hrest : u32 (sp_num (get_spare t (s_conf s2)) - zlen nds) = zlen rest).
  { rewrite LC. unfold s1. cbn [s_conf on_base]. rewrite (hi_spare_num _ _ _ H).
    pose proof (hi_total _ _ _ H) as Ht. rewrite (own_perm t), length_app in Ht.
    rewrite u32_id; unfold UINT_MAX in *; lia. }
  assert (Hsd : sum_len nds = zlen d).
  { rewrite <- LY. symmetry. eapply chain_bytes_length.
    pose proof (hi_nodes _ _ _ LH) as Hn. rewrite !Forall_app in Hn. apply Hn. }
  pose proof (heap_inv_size _ _ _ LH) as Hsz. rewrite !sum_len_app in Hsz.
  assert (Hlp : lens_pos (l1 ++ l2)) by by eapply heap_inv_lens.
  assert (Hl2 : 0 ≤ sum_len l2) by (apply sum_len_nonneg; by apply Forall_app in Hlp as [_ ?]).
  assert (Hlen : b_len (s_base s) = sum_len l1 + sum_len l2 - b_used (s_base s)).
  { by rewrite (bi_len _ HB), En, sum_len_app. }
  assert (Hs1 : s1 = on_base (b_set_len (b_len (s_base s) + zlen d)) s).
  { unfold s1. by rewrite u64_id by lia. }
  assert (Hby1 : chain_bytes (s_heap s2) l1 = chain_bytes (s_heap s) l1).
  { apply chain_frame. intros nd Hnd. apply LS, elem_of_app. by left. }
  assert (Hby2 : chain_bytes (s_heap s2) l2 = chain_bytes (s_heap s) l2).
  { apply chain_frame. intros nd Hnd. apply LS, elem_of_app. by right. }
  destruct (content_boundary (s_heap s) (s_base s) l1 l2 pos (s_conf s) Hok Hu Hpos En Hsum) as [Ht1 Ht2].
  assert (Hl1b : zlen (chain_bytes (s_heap s) l1) = sum_len l1).
  { eapply chain_bytes_length. apply Forall_app in Hok as [Hok1 _]. exact Hok1. }
  rewrite LC in Hrest. set (s3 := on_base _ _).
  assert (E3c : s_conf s3 = set_spare t (mkSpare rest (zlen rest)) (s_conf s)).
  { unfold s3. cbn [s_conf on_base on_conf]. rewrite LC. unfold s1. cbn [s_conf on_base].
    unfold s1 in Hrest. cbn [s_conf on_base] in Hrest. by rewrite Hrest. }
  assert (E3b : s_base s3 = linked_base (l1 ++ nds ++ l2) (b_len (s_base s) + zlen d) u v
    (b_num (s_base s) + zlen nds) t (s_base s)).
  { unfold s3. cbn [s_base on_base on_conf]. rewrite LB, Hs1. cbn [s_base on_base].
    by destruct (s_base s). }
  assert (E3h : s_heap s3 = s_heap s2) by done.
  assert (E3v : vec_ok (s_base s3)).
  { unfold s3, vec_ok in *. cbn [s_base on_base on_conf]. by destruct (s_base s2). }
  clearbody s3. pose proof (linked_base_fields (l1 ++ nds ++ l2) (b_len (s_base s) + zlen d) u v
    (b_num (s_base s) + zlen nds) t (s_base s)) as HF. rewrite <- E3b in HF.
  pose proof HF as [F1 F2 F3 F4 F5 F6 F7 F8 F9]. split.
  - split; rewrite ?F1, ?F4, ?F7, ?F8, ?F9; [by rewrite E3h, E3c| | |done|done].
    + eapply linked_base_inv; [exact HB|exact En|exact Hl1|exact LT| | | |exact HF]; [|lia|done].
      rewrite !sum_len_app. lia.
    + intros data Hd Hle. apply pos_data_ok_insert; [|lia|done]. rewrite <- En. by apply HP.
  - unfold st_content at 1, content. rewrite F1, F4, E3h, !chain_bytes_app, LY, Hby1, Hby2.
    unfold st_content. rewrite Ht1, Ht2. rewrite zdrop_app_l by lia. done.
  - by rewrite F2.
  - rewrite E3c. apply conf_same_set_spare.
  - unfold st_own. rewrite F1, E3c, E3h, En, LO. exact LE.
  - unfold st_own. rewrite F1, E3c, En, LO. lia.
  - rewrite E3c. by destruct (s_conf s), t.
  - exists (length (l1 ++ nds)). rewrite F1, F4, app_assoc, take_app_length, sum_len_app. lia.
Qed.

(** The notification of the caches completes the change. *)
Lemma vstr__cache_add_grown q pos d k n qlen s s1 :
  grown q pos d k n s s1 →
  wp (vstr__cache_add q qlen) s1 (λ _ s', wf s' ∧ grown q pos d k n s s').
Proof.
  intros [W C1 L F E O Mb Bd]. wp_apply vstr__cache_add_spec; [exact W|].
  intros _ s2 (Hw&Eh&Ec&En&Eu&El). split; [done|].
  split; [by apply wf_wf_upto| | | | | | |]; unfold st_content, content, st_own, boundary in *; rewrite ?Eh, ?Ec, ?En, ?Eu, ?El; done.
Qed.

Lemma add_finish_spec q pos l1 l2 d s cur at_end qlen link :
  wf_upto q s → b_nodes (s_base s) = l1 ++ l2 → 0 ≤ pos → q ≤ pos →
  sum_len l1 = pos + b_used (s_base s) → (l1 = [] → b_used (s_base s) = 0) →
  0 ≤ b_used (s_base s) → 0 < zlen d →
  need (s_conf s) (zlen d) ≤ zlen (sp_nodes (get_spare t (s_conf s))) →
  ao_src (s_heap s) (st_own s) cur d →
  (∀ r ref, h_refs (s_heap s) !! r = Some ref → r_ref ref + need (s_conf s) (zlen d) ≤ UINT_MAX) →
  (∀ nds, link nds = l1 ++ nds ++ l2) →
  wp (add_finish cur at_end (zlen d) (u64 (b_len (s_base s) + zlen d))
        (sp_nodes (get_spare t (s_conf s))) link q qlen) s
    (λ ok s', ok = true ∧ wf s' ∧ grown q pos d (need (s_conf s) (zlen d)) 0 s s').
Proof.
  intros HW En Hpos Hq Hsum Hl1 Hu Hd Hneed Hsrc Hrefs Hlink.
  pose proof HW as [H HB _ _ HV]. unfold st_own in Hsrc. rewrite En in *.
  pose proof (ao_max (s_conf s) (hi_bsz _ _ _ H)) as Hmax.
  pose proof (nodes_needed_pos (op_max op (s_conf s)) (zlen d) ltac:(lia) Hd) as Hn1.
  assert (Hb : b_num (s_base s) + need (s_conf s) (zlen d) ≤ UINT_MAX).
  { pose proof (hi_total _ _ _ H) as Ht. rewrite (own_perm t), !length_app, length_fmap in Ht.
    rewrite (bi_num _ HB), En. lia. }
  assert (Hb0 : 0 ≤ b_num (s_base s)) by (rewrite (bi_num _ HB); lia).
  unfold add_finish. wp_steps. set (s1 := on_base _ s).
  assert (E1 : b_num (s_base s1) = b_num (s_base s)) by (unfold s1; cbn [s_base on_base]; by destruct (s_base s)).
  wp_apply (vstr__add_loop_spec op _ cur d s1 (s_conf s) l1 l2); rewrite ?E1; try done.
  { unfold s1, vec_ok in *. cbn [s_base on_base]. by destruct (s_base s). }
  intros [nds rest] s2 HL. wp_steps. rewrite Hlink.
  pose proof (loop_post_grown q pos (need (s_conf s) (zlen d)) l1 l2 d s nds rest s2 HW En Hpos Hq Hsum Hl1 Hu ltac:(lia) HL) as HG.
  wp_apply vstr__cache_add_grown; [exact HG|]. intros _ s4 [Hw HG']. wp_steps. done.
Qed.

Lemma keeps_grown q pos d k1 n1 k n s s1 s2 :
  keeps k1 n1 s s1 → malloc_bad (s_conf s1) = malloc_bad (s_conf s) →
  grown q pos d k n s1 s2 → grown q pos d (k1 + k) (n1 + n) s s2.
Proof.
  intros [W C1 L F E O] Hm [W2 C2 L2 F2 E2 O2 M2 B2]. split; [done|by rewrite C2, C1|lia| | |lia|congruence|done].
  - by eapply conf_same_trans.
  - by eapply env_step_trans.
Qed.
Lemma grown_weaken q pos d k n k' n' s s' :
  grown q pos d k n s s' → k ≤ k' → n ≤ n' → grown q pos d k' n' s s'.
Proof. intros [] ??. split; try done; [by eapply env_step_weaken|lia]. Qed.

Lemma VSTR__ADD_MID_END_after q pos pos' d s cur i p qlen :
  wf_upto q s → ends_at s i p pos' → 0 ≤ pos' → q ≤ pos' → 0 ≤ b_used (s_base s) → 0 < zlen d →
  need (s_conf s) (zlen d) ≤ zlen (sp_nodes (get_spare t (s_conf s))) →
  ao_src (s_heap s) (st_own s) cur d →
  (∀ r ref, h_refs (s_heap s) !! r = Some ref → r_ref ref + need (s_conf s) (zlen d) ≤ UINT_MAX) →
  wp (VSTR__ADD_MID_END op cur (Some i) pos (zlen d) q qlen) s
    (λ ok s', ok = true ∧ wf s' ∧ grown q pos' d (need (s_conf s) (zlen d)) 0 s s').
Proof.
  intros HW (nd&Hi&Hp&Hsum) Hpos Hq Hu Hd Hneed Hsrc Hrefs.
  unfold VSTR__ADD_MID_END. wp_step. apply wp_gets. wp_step.
  set (at_end := bool_decide (pos ≠ 0 ∨ _)). clearbody at_end.
  assert (Hgo : ∀ u, (u = true → iovec_upto_date (s_base s) = true) →
    let s1 := on_base (b_set_iovec_upto_date u) s in
    wp (add_finish cur at_end (zlen d) (u64 (b_len (s_base s1) + zlen d))
        (sp_nodes (get_spare t (s_conf s1)))
        (λ nds, take (S i) (b_nodes (s_base s1)) ++ nds ++ drop (S i) (b_nodes (s_base s1))) q qlen) s1
    (λ ok s', ok = true ∧ wf s' ∧ grown q pos' d (need (s_conf s) (zlen d)) 0 s s')).
  { intros u Hiu s1. assert (HW1 : wf_upto q s1).
    { destruct HW as [H HB HP HA HV]. destruct s as [h c [? ? ? ? ? ? ? ? ? ? ? ? []]]. cbn in *.
      unfold s1. split; try done; [destruct HB; split; done|]. exact (vec_ok_upto u _ HV Hiu). }
    wp_apply (add_finish_spec q pos' (take (S i) (b_nodes (s_base s1))) (drop (S i) (b_nodes (s_base s1))) d s1);
      try (destruct s as [h c [? ? ? ? ? ? ? ? ? ? ? ? []]]; done).
    - by rewrite take_drop.
    - intros E. exfalso. destruct s as [h c [ns ? ? ? ? ? ? ? ? ? ? ? []]]. cbn in *. by destruct ns.
    - intros ok s2 (?&?&[]). split_and!; [done|done|].
      destruct s as [h c [? ? ? ? ? ? ? ? ? ? ? ? []]]. by split. }
  destruct (bool_decide _); cbn [when]; wp_step; wp_step; apply wp_gets; wp_step; apply wp_gets.
  - apply (Hgo false). done.
  - specialize (Hgo (iovec_upto_date (s_base s)) ltac:(done)).
    by replace (on_base _ s) with s in Hgo by by destruct s as [? ? []].
Qed.

Lemma VSTR__ADD_MID_END_front d s cur qlen :
  wf s → 0 < zlen d →
  need (s_conf s) (zlen d) ≤ zlen (sp_nodes (get_spare t (s_conf s))) →
  ao_src (s_heap s) (st_own s) cur d →
  (∀ r ref, h_refs (s_heap s) !! r = Some ref → r_ref ref + need (s_conf s) (zlen d) ≤ UINT_MAX) →
  wp (VSTR__ADD_MID_END op cur None 0 (zlen d) 0 qlen) s
    (λ ok s', ok = true ∧ wf s' ∧ grown 0 0 d (need (s_conf s) (zlen d)) 0 s s').
Proof.
  intros Hw Hd Hneed Hsrc Hrefs. unfold VSTR__ADD_MID_END. wp_step. apply wp_gets. wp_step.
  set (at_end := bool_decide (0 ≠ 0 ∨ _)). clearbody at_end.
  assert (Hgo : ∀ s1, keeps 0 0 s s1 → b_used (s_base s1) = 0 → s_conf s1 = s_conf s →
    wp (add_finish cur at_end (zlen d) (u64 (b_len (s_base s1) + zlen d))
        (sp_nodes (get_spare t (s_conf s1)))
        (λ nds, nds ++ (if decide (b_len (s_base s1) = 0) then [] else b_nodes (s_base s1))) 0 qlen) s1
    (λ ok s', ok = true ∧ wf s' ∧ grown 0 0 d (need (s_conf s) (zlen d)) 0 s s')).
  { intros s1 K Hu Hc. pose proof (kp_wf _ _ _ _ K) as Hw1.
    wp_apply (add_finish_spec 0 0 [] (b_nodes (s_base s1)) d s1);
      rewrite ?Hu, ?Hc; try done.
    - by apply wf_wf_upto.
    - eapply ao_src_step; [exact (kp_env _ _ _ _ K)|done].
    - intros r ref' Hr. destruct (refs_step_get _ _ _ _ _ (proj2 (kp_env _ _ _ _ K)) Hr) as (ref&Hr0&_&_&?&_).
      specialize (Hrefs r ref Hr0). lia.
    - intros nds. cbn. case_decide as Hl; [|done]. destruct (wf_len_0 _ Hw1 Hl) as [-> _]. done.
    - intros ok s2 (?&?&HG). split_and!; [done|done|].
      eapply (keeps_grown _ _ _ 0 0 _ 0); [exact K|by rewrite Hc|exact HG]. }
  case_decide as Hl.
  - wp_step. wp_step. apply wp_gets. wp_step. apply wp_gets.
    apply Hgo; [by apply keeps_refl|by apply wf_len_0|done].
  - wp_apply vstr__base_zero_used_spec; [apply Hw|apply Hw|].
    intros _ s1 HZ. destruct (zero_post_keeps _ _ Hw HZ) as [K Hu].
    wp_step. apply wp_gets. wp_step. apply wp_gets. apply Hgo; [done|done|apply HZ].
Qed.

(** VSTR__ADD_BEG delivers the node before the position and enough spare
    nodes, unless the data fits that node. *)
Definition fits (s : St) (i : nat) (len : Z) : Prop :=
  t = NODE_BUF ∧ ∃ nd, b_nodes (s_base s) !! i = Some nd ∧ nd_type nd = NODE_BUF ∧
    len ≤ buf_sz (s_conf s) - nd_len nd.
Definition supplied (s : St) (len : Z) : Prop :=
  need (s_conf s) len ≤ zlen (sp_nodes (get_spare t (s_conf s))).

Lemma spare_nodes_spec s (scan : option (nat * Z * Z)) len :
  wf s → 0 < len → room (need (s_conf s) len) 0 s →
  wp (ok ← cntl_conf_set_num_range_spare t
            (u32 (len / op_max op (s_conf s) +
               (if decide (len mod op_max op (s_conf s) = 0) then 0 else 1))) UINT_MAX;
      mret (if ok : bool then Some scan else None)) s
    (λ r s', keeps 0 (need (s_conf s) len) s s' ∧ b_nodes (s_base s') = b_nodes (s_base s) ∧
      b_used (s_base s') = b_used (s_base s) ∧
      match r with
      | None => malloc_bad (s_conf s') = true
      | Some scan' => scan' = scan ∧ supplied s' len ∧ malloc_bad (s_conf s') = malloc_bad (s_conf s)
      end).
Proof.
  intros Hw Hlen [Hroom _]. change (len / _ + _) with (need (s_conf s) len).
  pose proof (ao_max (s_conf s) (hi_bsz _ _ _ (wf_heap _ Hw))) as Hmax.
  pose proof (nodes_needed_pos (op_max op (s_conf s)) len ltac:(lia) Hlen) as Hn1.
  pose proof o_num_nonneg. rewrite u32_id by (unfold UINT_MAX in *; lia). wp_step.
  wp_apply cntl_conf_set_num_range_spare_spec; [apply Hw|lia|done|].
  intros ok s1 (Hs&Hok&Hm). wp_steps.
  pose proof (spare_step_keeps _ _ _ _ Hw Hs) as K. rewrite (ss_base _ _ _ _ Hs).
  split; [done|]. split; [done|]. split; [done|]. destruct ok; cbn.
  - split_and!; [done| |by rewrite Hm, orb_false_r]. unfold supplied.
    rewrite (ao_max_same (s_conf s) (s_conf s1)); [by apply Hok|]. by apply Hs.
  - by rewrite Hm, orb_true_r.
Qed.

Lemma VSTR__ADD_BEG_spec s pos len :
  wf s → 0 ≤ pos ≤ b_len (s_base s) → 0 < len → room (1 + need (s_conf s) len) 1 s →
  wp (VSTR__ADD_BEG op pos len) s (λ r s', keeps 1 (1 + need (s_conf s) len) s s' ∧
    match r with
    | None => malloc_bad (s_conf s') = true ∧ (boundary s pos → boundary s' pos)
    | Some None => pos = 0 ∧ supplied s' len ∧ malloc_bad (s_conf s') = malloc_bad (s_conf s)
    | Some (Some (i, p, num)) => 1 ≤ pos ∧ ends_at s' i p pos ∧ (supplied s' len ∨ fits s' i len) ∧
        malloc_bad (s_conf s') = malloc_bad (s_conf s)
    end).
Proof.
  intros Hw Hpos Hlen Hroom. unfold VSTR__ADD_BEG. wp_step. apply wp_gets. wp_step. apply wp_gets.
  pose proof (ao_max (s_conf s) (hi_bsz _ _ _ (wf_heap _ Hw))) as Hmax.
  pose proof (nodes_needed_pos (op_max op (s_conf s)) len ltac:(lia) Hlen) as Hn1.
  assert (Hsup : ∀ s1 (scan : option (nat * Z * Z)), keeps 1 1 s s1 →
    malloc_bad (s_conf s1) = malloc_bad (s_conf s) →
    match scan with None => pos = 0 ∧ s1 = s | Some (i, p, _) => 1 ≤ pos ∧ ends_at s1 i p pos end →
    wp (ok ← (let max := op_max op (s_conf s) in cntl_conf_set_num_range_spare t
            (u32 (len / max + (if decide (len mod max = 0) then 0 else 1))) UINT_MAX);
      mret (if ok : bool then Some scan else None)) s1
    (λ r s', keeps 1 (1 + need (s_conf s) len) s s' ∧
    match r with
    | None => malloc_bad (s_conf s') = true ∧ (boundary s pos → boundary s' pos)
    | Some None => pos = 0 ∧ supplied s' len ∧ malloc_bad (s_conf s') = malloc_bad (s_conf s)
    | Some (Some (i, p, num)) => 1 ≤ pos ∧ ends_at s' i p pos ∧ (supplied s' len ∨ fits s' i len) ∧
        malloc_bad (s_conf s') = malloc_bad (s_conf s)
    end)).
  { intros s1 scan K Hm1 Hscan. cbv zeta.
    rewrite <- (ao_max_same (s_conf s) (s_conf s1)) by apply (kp_conf _ _ _ _ K).
    wp_apply (spare_nodes_spec s1 scan len); [apply (kp_wf _ _ _ _ K)|done| |].
    { eapply (keeps_room 1 1); [exact K|].
      rewrite (ao_max_same (s_conf s) (s_conf s1)) by apply (kp_conf _ _ _ _ K). done. }
    intros r s2 (K2&En&Eu&Hr). split; [by eapply (keeps_trans 1 1 0)|].
    destruct r as [scan'|].
    2:{ split; [done|]. unfold boundary. rewrite En, Eu. destruct scan as [[[i p] num]|]; [|by destruct Hscan as [_ ->]].
        destruct Hscan as [_ (nd&_&_&?)]. by exists (S i). }
    destruct Hr as (->&Hs&Hm2). rewrite Hm2, Hm1.
    destruct scan as [[[i p] num]|]; [|by destruct Hscan]. destruct Hscan as [? (nd&?&?&?)].
    split_and!; [done| |by left|done]. exists nd. by rewrite En, Eu. }
  destruct (decide (pos ≠ 0 ∧ b_len (s_base s) ≠ 0)) as [Hd|Hd].
  - wp_step. wp_step. wp_apply vstr__add_setup_pos_spec; [done|lia|..].
    { destruct Hroom as [Hr1 Hr2]. split; [lia|exact Hr2]. }
    intros [[[i p] num]|] s1 [K Hr]; wp_steps.
    2:{ split; [eapply keeps_weaken; [exact K|lia|lia]|]. unfold boundary. by destruct Hr as (?&->&->). }
    destruct Hr as [(nd&Hi&Hp&Hsum) Hm]. eapply wp_of_option; [exact Hi|]. cbn beta. wp_steps.
    case_bool_decide as Hneed; cbn beta iota.
    + apply wp_unbind, Hsup; [done|done|]. split; [lia|]. by exists nd.
    + wp_steps. split; [eapply keeps_weaken; [exact K|lia|lia]|].
      split_and!; [lia|by exists nd| |done]. right.
      assert (Hbuf : nd_type nd = NODE_BUF).
      { destruct (decide (nd_type nd = NODE_BUF)); [done|]. exfalso. apply Hneed. tauto. }
      split; [destruct (decide (t = NODE_BUF)); [done|exfalso; apply Hneed; tauto]|].
      exists nd. split_and!; [done|done|].
      assert (Hle : ¬ u32 (buf_sz (s_conf s) - nd_len nd) < len) by (intros ?; apply Hneed; tauto).
      destruct (kp_conf _ _ _ _ K) as [Eb _]. rewrite Eb.
      pose proof (hi_nodes _ _ _ (wf_heap _ (kp_wf _ _ _ _ K))) as Hok. rewrite Forall_lookup in Hok.
      specialize (Hok _ _ Hi). destruct nd as [a l body]. destruct body; try done.
      destruct Hok as [Hl [Hb _]]. cbn in *. rewrite Eb in Hb.
      rewrite u32_id in Hle; [lia|]. pose proof (hi_bsz _ _ _ (wf_heap _ Hw)).
      unfold VSTR_MAX_NODE_BUF in *. lia.
  - wp_steps. apply wp_unbind, Hsup; [eapply keeps_weaken; [by apply keeps_refl|lia|lia]|done|split; [lia|done]].
Qed.

(** Data that continues the node before the position *)
Record extended (s : St) (i : nat) (p pos : Z) (d : list byte_or_non) (tmp : Z) (s' : St) : Prop := {
  ex_grown : grown pos pos (ztake tmp d) 0 0 s s';
  ex_ends : ends_at s' i (p + tmp) (pos + tmp);
  ex_conf : s_conf s' = s_conf s;
  ex_used : b_used (s_base s') = b_used (s_base s);
  ex_fits : fits s i (zlen d) → tmp = zlen d;
  ex_more : tmp < zlen d → ∃ cur nd, nd ∈ b_nodes (s_base s) ∧
    op_continues op cur nd (nd_len nd) = true ∧ op_max op (s_conf s) < nd_len nd + zlen d }.

(** The string with node [nd] grown, from the grown node *)
Lemma extend_ok_grown s l1 nd l2 pos d s1 s' :
  wf s → b_nodes (s_base s) = l1 ++ nd :: l2 → 1 ≤ pos →
  sum_len (l1 ++ [nd]) = pos + b_used (s_base s) →
  extend_ok (s_conf s) l1 nd l2 d s s1 →
  s_conf s' = s_conf s → s_heap s' = s_heap s1 → vec_ok (s_base s') →
  linked_fields (l1 ++ nd_set_len (nd_len nd + zlen d) nd :: l2) (b_len (s_base s) + zlen d)
    (b_num (s_base s)) (nd_type nd) (s_base s) (s_base s') →
  grown pos pos d 0 0 s s'.
Proof.
  intros Hw En Hpos Hsum [XC XB XH XY XS XE] Ec Eh Hv HF.
  pose proof HF as [F1 F2 F3 F4 F5 F6 F7 F8 F9]. set (nd' := nd_set_len _ nd) in *.
  pose proof (heap_inv_size _ _ _ XH) as Hsz. pose proof (heap_inv_lens _ _ _ XH) as Hlp'.
  destruct Hw as [H HB HC]. rewrite sum_len_app in Hsum. cbn in Hsum.
  assert (Hown : own (s_conf s) (l1 ++ nd' :: l2) = own (s_conf s) (l1 ++ nd :: l2)).
  { unfold own. by rewrite !fmap_app. }
  assert (Hby1 : chain_bytes (s_heap s1) l1 = chain_bytes (s_heap s) l1).
  { apply chain_frame. intros x Hx. apply XS, elem_of_app. by left. }
  assert (Hby2 : chain_bytes (s_heap s1) l2 = chain_bytes (s_heap s) l2).
  { apply chain_frame. intros x Hx. apply XS, elem_of_app. by right. }
  pose proof (hi_nodes _ _ _ H) as Hok. rewrite En in Hok.
  replace (l1 ++ nd :: l2) with ((l1 ++ [nd]) ++ l2) in Hok, En by by rewrite <- app_assoc.
  assert (Hu : 0 ≤ b_used (s_base s)) by (destruct (bi_used _ HB) as [->|(?&_&_&?)]; lia).
  destruct (content_boundary (s_heap s) (s_base s) (l1 ++ [nd]) l2 pos (s_conf s) Hok Hu ltac:(lia) En)
    as [Ht1 Ht2]; [rewrite sum_len_app; cbn; lia|]. clear Hok.
  assert (Hl1 : zlen (chain_bytes (s_heap s) (l1 ++ [nd])) = pos + b_used (s_base s)).
  { pose proof (hi_nodes _ _ _ H) as Hok. rewrite En in Hok. apply Forall_app in Hok as [Hok _].
    rewrite (chain_bytes_length _ _ _ Hok), sum_len_app. cbn. lia. }
  split.
  - split; rewrite ?F1, ?F4, ?F7, ?F8, ?F9, ?Ec, ?Eh; [done| | |exact (ci_avail _ HC)|done].
    + split; rewrite ?F1, ?F2, ?F3, ?F4.
      * destruct (bi_used _ HB) as [|(bg&Hb&Hty&Hlt)]; [by left|right]. rewrite En, <- app_assoc in Hb.
        destruct l1; [|by exists bg]. injection Hb as ->. exists nd'. unfold nd'. cbn. split_and!; [done|done|lia|lia].
      * rewrite (bi_len _ HB), En, !sum_len_app. cbn. lia.
      * done.
      * rewrite (bi_num _ HB), En. zl.
      * intros x. rewrite elem_of_app, elem_of_cons. intros Hx.
        assert (∃ y, y ∈ b_nodes (s_base s) ∧ nd_type y = nd_type x) as (y&Hy&<-).
        { rewrite En, <- app_assoc. destruct Hx as [?|[->|?]]; [exists x|exists nd|exists x];
            rewrite elem_of_app; cbn; rewrite elem_of_cons; tauto. }
        by apply F6, (bi_flags _ HB).
    + intros data Hd Hle. pose proof (ci_pos _ HC _ Hd) as Hp. rewrite En, <- app_assoc in Hp.
      pose proof (heap_inv_lens _ _ _ H) as Hlp. rewrite En, <- app_assoc in Hlp.
      eapply pos_data_ok_grow; [exact Hp|done| |done]. lia.
  - unfold st_content at 1, content. rewrite F1, F4, Eh, chain_bytes_app, chain_bytes_cons, XY, Hby1, Hby2.
    unfold st_content. rewrite Ht1, Ht2, chain_bytes_app, chain_bytes_cons, chain_bytes_nil, app_nil_r.
    rewrite chain_bytes_app, chain_bytes_cons, chain_bytes_nil, app_nil_r in Hl1.
    rewrite <- !app_assoc, app_assoc, zdrop_app_l by lia. by rewrite !app_assoc.
  - by rewrite F2.
  - by rewrite Ec.
  - unfold st_own. rewrite F1, Ec, Eh, Hown, En, <- app_assoc. exact XE.
  - unfold st_own. rewrite F1, Ec, Hown, En, <- app_assoc. cbn [app]. lia.
  - by rewrite Ec.
  - exists (S (length l1)). rewrite F1, F4, take_app_ge by lia. replace (S _ - _)%nat with 1%nat by lia.
    rewrite sum_len_app. cbn [take sum_len]. rewrite take_0. cbn. lia.
Qed.

Lemma vstr__add_extend_spec s cur i p num pos d :
  wf s → 1 ≤ pos → ends_at s i p pos → 0 < zlen d → ao_src (s_heap s) (st_own s) cur d →
  wp (vstr__add_extend op cur i p num (zlen d)) s (λ tmp s',
    (tmp = 0 ∧ s' = s ∧ ¬ fits s i (zlen d)) ∨ (0 < tmp ≤ zlen d ∧ extended s i p pos d tmp s')).
Proof.
  intros Hw Hpos (nd&Hi&->&Hsum) Hd Hsrc. pose proof Hw as [H HB HC].
  pose proof (ao_max (s_conf s) (hi_bsz _ _ _ H)) as Hmax.
  unfold vstr__add_extend. wp_step. apply wp_gets. wp_step. unfold node_at. wp_step. apply wp_gets.
  eapply wp_of_option; [exact Hi|]. cbn beta.
  assert (Hok : node_ok (s_heap s) (buf_sz (s_conf s)) nd).
  { pose proof (hi_nodes _ _ _ H) as Hn. rewrite Forall_lookup in Hn. by eapply Hn. }
  pose proof (proj1 Hok) as Hlen.
  case_decide as Hc.
  2:{ wp_steps. left. split_and!; [done|done|]. intros (Ht&nd0&Hi0&Hty&Hle).
      rewrite Hi in Hi0. injection Hi0 as <-. destruct (ao_fits Ht) as [Hm Hcn].
      apply Hc. split; [by apply Hcn|]. rewrite Hm. lia. }
  destruct Hc as [Hc Hlt]. set (tmp := Z.min (op_max op (s_conf s) - nd_len nd) (zlen d)).
  assert (Htmp : 0 < tmp ≤ zlen d) by lia. wp_step.
  pose proof (list_split_at _ _ _ Hi) as En.
  set (l1 := take i (b_nodes (s_base s))) in *. set (l2 := drop (S i) (b_nodes (s_base s))) in *.
  wp_apply (ao_extend s (s_conf s) l1 nd l2 cur d tmp); [by rewrite <- En|done| |done|lia|].
  { unfold st_own in Hsrc. by rewrite <- En. }
  intros _ s1 HX. pose proof HX as [XC XB XH XY XS XE].
  assert (Hz : zlen (ztake tmp d) = tmp) by (rewrite length_ztake; lia). rewrite Hz in *.
  unfold upd_node, node_at. wp_steps. rewrite XB. eapply wp_of_option; [exact Hi|]. cbn beta. wp_steps.
  rewrite u28_id by (unfold VSTR_MAX_NODE_ALL in *; lia). set (s2 := on_base _ s1).
  assert (Hv2 : vec_ok (s_base s2)).
  { unfold s2. cbn [s_base on_base]. rewrite XB. apply vec_ok_set_nodes; exact (ci_vec _ HC). }
  wp_apply vstr__cache_iovec_add_node_end_step; [done|]. intros _ s3 Hvs.
  pose proof (vec_step_ok _ _ Hvs) as Hv3. destruct Hvs as (u&v&E3&_). wp_steps. right. split; [done|].
  set (s4 := on_base _ s3).
  assert (En4 : <[i:=nd_set_len (nd_len nd + tmp) nd]> (b_nodes (s_base s)) =
    l1 ++ nd_set_len (nd_len nd + tmp) nd :: l2).
  { rewrite insert_take_drop by (by eapply lookup_lt_Some). done. }
  assert (Hbl : u64 (b_len (s_base s) + tmp) = b_len (s_base s) + tmp).
  { pose proof (heap_inv_size _ _ _ XH) as Hsz. pose proof (wf_len_nonneg _ Hw).
    pose proof (wf_used_nonneg _ Hw). pose proof (bi_len _ HB) as Hbl. rewrite En in Hbl.
    rewrite !sum_len_app in *. cbn in *. apply u64_id. lia. }
  assert (HF : linked_fields (l1 ++ nd_set_len (nd_len nd + tmp) nd :: l2) (b_len (s_base s) + tmp)
    (b_num (s_base s)) (nd_type nd) (s_base s) (s_base s4)).
  { rewrite <- En4, <- Hbl. pose proof (bi_flags _ HB nd ltac:(by eapply list_elem_of_lookup_2)) as Hfl.
    unfold s4. rewrite E3. unfold s2. cbn [s_base on_base]. rewrite XB.
    destruct (s_base s) as [? ? ? ? ? ? ? ? ? ? ? ? []]. by split. }
  assert (Ec : s_conf s4 = s_conf s) by (unfold s4; rewrite E3; exact XC).
  assert (Eh : s_heap s4 = s_heap s1) by (unfold s4; by rewrite E3).
  assert (Hv4 : vec_ok (s_base s4)) by (unfold s4; cbn [s_base on_base]; by apply vec_ok_set_len).
  clearbody s4. pose proof HF as [F1 _ _ F4 _ _ _ _ _].
  assert (Hl1 : length l1 = i) by (unfold l1; rewrite length_take; apply lookup_lt_Some in Hi; lia).
  assert (Hsum1 : sum_len (l1 ++ [nd]) = pos + b_used (s_base s)).
  { unfold l1. rewrite <- Hsum, (sum_len_take_S _ _ _ Hi), sum_len_app. cbn. lia. }
  split; [|..|done|done| |].
  - eapply (extend_ok_grown s l1 nd l2 pos (ztake tmp d) s1 s4); try done; by rewrite ?Hz.
  - exists (nd_set_len (nd_len nd + tmp) nd). rewrite F1, F4. rewrite lookup_app_r, Hl1, Nat.sub_diag by lia.
    split_and!; [done|done|]. rewrite take_app_ge, Hl1 by lia. replace (S i - i)%nat with 1%nat by lia.
    rewrite sum_len_app in Hsum1 |- *. cbn [take sum_len nd_len nd_set_len] in Hsum1 |- *. rewrite take_0. cbn. lia.
  - intros (Ht&nd0&Hi0&Hty&Hle). rewrite Hi in Hi0. injection Hi0 as <-.
    destruct (ao_fits Ht) as [Hm _]. unfold tmp. rewrite Hm. lia.
  - intros Hmore. exists cur, nd. split_and!; [by eapply list_elem_of_lookup_2|done|lia].
Qed.

(** The cursor moves over data that extended a node. *)
Definition advances : Prop :=
  ∀ h o cur d tmp, ao_src h o cur d → 0 < tmp < zlen d →
    ao_src h o (op_extended op cur tmp) (zdrop tmp d).
(** No node can be filled up. *)
Definition never_full (s : St) (len : Z) : Prop :=
  ∀ cur nd, nd ∈ b_nodes (s_base s) → op_continues op cur nd (nd_len nd) = true →
    nd_len nd + len ≤ op_max op (s_conf s).

(** What a successful or failed add does. *)
Definition added (s : St) (pos : Z) (d : list byte_or_non) (ok : bool) (s' : St) : Prop :=
  wf s' ∧ conf_same (s_conf s) (s_conf s') ∧
  env_step (1 + need (s_conf s) (zlen d)) (s_heap s) (st_own s) (s_heap s') (st_own s') ∧
  zlen (st_own s') ≤ zlen (st_own s) + (1 + need (s_conf s) (zlen d)) ∧
  if ok then st_content s' = ztake pos (st_content s) ++ d ++ zdrop pos (st_content s) ∧
             malloc_bad (s_conf s') = malloc_bad (s_conf s) ∧ boundary s' (pos + zlen d)
  else st_content s' = st_content s ∧ malloc_bad (s_conf s') = true ∧ (boundary s pos → boundary s' pos).

Lemma grown_added q pos d k n s s' ok :
  wf s' → grown q pos d k n s s' → k ≤ 1 + need (s_conf s) (zlen d) → n ≤ 1 + need (s_conf s) (zlen d) →
  ok = true → added s pos d ok s'.
Proof.
  intros Hw [] Hk Hn ->. split_and!; [done|done| |lia|done..]. by eapply env_step_weaken.
Qed.

(** What follows VSTR__ADD_BEG when there is a node before the position *)
Lemma vstr__add_tail_spec s cur i p num pos d :
  wf s → 1 ≤ pos → ends_at s i p pos → 0 < zlen d → ao_src (s_heap s) (st_own s) cur d →
  supplied s (zlen d) ∨ fits s i (zlen d) →
  (∀ r ref, h_refs (s_heap s) !! r = Some ref → r_ref ref + need (s_conf s) (zlen d) ≤ UINT_MAX) →
  advances ∨ never_full s (zlen d) →
  wp (tmp ← vstr__add_extend op cur i p num (zlen d);
      if decide (tmp ≠ 0 ∧ zlen d - tmp = 0) then vstr__cache_add pos (zlen d);; mret true
      else VSTR__ADD_MID_END op (if decide (tmp = 0) then cur else op_extended op cur tmp)
           (Some i) pos (zlen d - tmp) pos (zlen d)) s
    (λ ok s', ok = true ∧ wf s' ∧ grown pos pos d (need (s_conf s) (zlen d)) 0 s s').
Proof.
  intros Hw Hpos He Hd Hsrc Hsf Hrefs Hadv.
  pose proof (ao_max (s_conf s) (hi_bsz _ _ _ (wf_heap _ Hw))) as Hmax.
  pose proof (nodes_needed_pos (op_max op (s_conf s)) (zlen d) ltac:(lia) Hd) as Hn1.
  wp_step. wp_apply (vstr__add_extend_spec s cur i p num pos d); [done|done|done|done|done|].
  intros tmp s1 [(->&->&Hnf)|(Htmp&HE)].
  - rewrite decide_False, decide_True, Z.sub_0_r by lia.
    wp_apply (VSTR__ADD_MID_END_after pos pos pos d s cur i p); try done;
      [by apply wf_wf_upto|lia|by apply wf_used_nonneg|destruct Hsf; [done|by destruct Hnf]].
  - pose proof HE as [HG He1 Ec Eu Hfit Hmore]. rewrite (decide_False (P := tmp = 0)) by lia.
    case_decide as Hall.
    + replace tmp with (zlen d) in HG by lia. rewrite ztake_all in HG by lia.
      wp_step. wp_apply vstr__cache_add_grown; [exact HG|]. intros _ s2 [Hw2 HG2]. wp_steps.
      split_and!; [done|done|]. eapply grown_weaken; [exact HG2|lia|lia].
    + assert (Hlt : tmp < zlen d) by lia.
      assert (Hz : zlen (zdrop tmp d) = zlen d - tmp) by (rewrite length_zdrop; lia). rewrite <- Hz.
      assert (Hneed : need (s_conf s1) (zlen (zdrop tmp d)) ≤ need (s_conf s) (zlen d)).
      { rewrite Ec, Hz. apply nodes_needed_mono; lia. }
      assert (Hs : supplied s (zlen d)) by (destruct Hsf as [|Hf]; [done|specialize (Hfit Hf); lia]).
      wp_apply (VSTR__ADD_MID_END_after pos pos (pos + tmp) (zdrop tmp d) s1 (op_extended op cur tmp) i (p + tmp)).
      * apply (gr_wf _ _ _ _ _ _ _ HG).
      * done.
      * lia.
      * lia.
      * rewrite Eu. by apply wf_used_nonneg.
      * lia.
      * unfold supplied in Hs. rewrite Ec in *. lia.
      * eapply ao_src_step; [exact (gr_env _ _ _ _ _ _ _ HG)|]. destruct Hadv as [Ha|Hn]; [apply (Ha _ _ _ _ _ Hsrc); lia|].
        destruct (Hmore Hlt) as (cur0&nd&Hin&Hcn&?). specialize (Hn cur0 nd Hin Hcn). lia.
      * intros r ref' Hr.
        destruct (refs_step_get _ _ _ _ _ (proj2 (gr_env _ _ _ _ _ _ _ HG)) Hr) as (ref&Hr0&_&_&?&_).
        specialize (Hrefs r ref Hr0). lia.
      * intros ok s2 (->&Hw2&HG2). split_and!; [done|done|].
        assert (Htk : zlen (ztake tmp d) = tmp) by (rewrite length_ztake; lia).
        rewrite <- Htk in HG2 at 1. pose proof (wf_content_length _ Hw) as Hcl.
        assert (Hpl : pos ≤ b_len (s_base s)).
        { destruct He as (nd&Hi&_&Hsum). rewrite (bi_len _ (wf_base _ Hw)).
          pose proof (sum_len_take_le (S i) _ (wf_lens _ Hw)). lia. }
        eapply grown_weaken; [|exact Hneed|reflexivity].
        rewrite <- (ztake_zdrop tmp d) at 1. apply (grown_trans _ _ _ _ 0 0 _ 0 s s1 s2); [lia|exact HG|exact HG2].
Qed.

Lemma vstr__add_spec s cur pos d :
  wf s → 0 ≤ pos ≤ b_len (s_base s) → 0 < zlen d → ao_src (s_heap s) (st_own s) cur d →
  room (1 + need (s_conf s) (zlen d)) (1 + need (s_conf s) (zlen d)) s →
  (advances ∨ ∀ s', keeps 1 (1 + need (s_conf s) (zlen d)) s s' → never_full s' (zlen d)) →
  wp (vstr__add op cur pos (zlen d)) s (λ ok s', added s pos d ok s').
Proof.
  intros Hw Hpos Hd Hsrc Hroom Hadv. unfold vstr__add.
  pose proof (ao_max (s_conf s) (hi_bsz _ _ _ (wf_heap _ Hw))) as Hmax.
  pose proof (nodes_needed_pos (op_max op (s_conf s)) (zlen d) ltac:(lia) Hd) as Hn1.
  wp_step. wp_apply VSTR__ADD_BEG_spec; [done|done|done| |].
  { destruct Hroom as [Hr1 Hr2]. split; [done|]. intros r ref Hr. specialize (Hr2 r ref Hr). lia. }
  intros r s1 [K Hr]. pose proof (kp_wf _ _ _ _ K) as Hw1.
  assert (Hms : ∀ x, op_max op (s_conf s1) = x → op_max op (s_conf s) = x).
  { intros x <-. symmetry. apply ao_max_same. apply (kp_conf _ _ _ _ K). }
  specialize (Hms _ eq_refl).
  pose proof (ao_src_step _ _ _ _ _ _ _ (kp_env _ _ _ _ K) Hsrc) as Hsrc1.
  assert (Hrefs : ∀ r ref, h_refs (s_heap s1) !! r = Some ref →
     r_ref ref + need (s_conf s1) (zlen d) ≤ UINT_MAX).
  { destruct (keeps_room 1 (1 + need (s_conf s) (zlen d)) (need (s_conf s) (zlen d)) 0 _ _ K) as [_ Hr2];
      [by rewrite Z.add_0_r|]. by rewrite <- Hms. }
  destruct r as [[[[i p] num]|]|].
  - destruct Hr as (Hp1&He&Hsf&Hm).
    wp_apply (vstr__add_tail_spec s1 cur i p num pos d); [done|done|done|done|done|done|done| |].
    + destruct Hadv as [Ha|Hn]; [by left|right; auto].
    + intros ok s2 (->&Hw2&HG). rewrite <- Hms in HG.
      eapply grown_added; [done|eapply (keeps_grown _ _ _ 1 _ _ 0); [exact K|done|exact HG]|lia|lia|done].
  - destruct Hr as (->&Hs&Hm).
    wp_apply VSTR__ADD_MID_END_front; [done|done|exact Hs|exact Hsrc1|exact Hrefs|].
    intros ok s2 (->&Hw2&HG). rewrite <- Hms in HG.
    eapply grown_added; [done|eapply (keeps_grown _ _ _ 1 _ _ 0); [exact K|done|exact HG]|lia|lia|done].
  - wp_steps. destruct K, Hr. split_and!; [done|done|eapply env_step_weaken; [done|lia]|lia|done|done|done].
Qed.
End add_spec.

End others.
