(* ===== verification/AddOps.v ===== *)
(** * The add functions: each of them fulfils the add interface. *)
From Stdlib Require Import ZArith Lia ZifyBool.
From stdpp Require Import base tactics list numbers option gmap.
From S2P Require Import Prelude State Wp Ref Cache Core Add Inv PosLemmas SpareLemmas SplitLemmas CacheLemmas AddLemmas StringLemmas AddSpec.

Section others.
Context {OT : Others}.

(** ** Writing into the buffer of a node *)
Definition write_mem (a : positive) (off : Z) (bs blk : list Z) (s : St) : St :=
  on_heap (λ h, h_set_mem (<[a := zwrite off bs blk]> (h_mem h)) h) s.

Lemma env_step_write k s o a off bs blk :
  0 ≤ k → a ∈ o → env_step k (s_heap s) o (s_heap (write_mem a off bs blk s)) o.
Proof.
  intros Hk Ha. split; [|by destruct s as [[] ? ?]; apply refs_step_refl].
  intros x _ Hx. split; [|done]. destruct s as [[] ? ?]; cbn.
  rewrite lookup_insert_ne; [done|]. by intros ->.
Qed.

Lemma buf_addr_ne c h ns a nd :
  heap_inv h c ns → a ∈ sp_nodes (spare_buf c) → nd ∈ ns → nd_addr nd ≠ a.
Proof.
  intros H Ha Hnd E. pose proof (hi_nodup _ _ _ H) as Hdup. unfold own in Hdup.
  apply NoDup_app in Hdup as (_&Hd&_). apply (Hd (nd_addr nd)); [by apply list_elem_of_fmap_2|].
  rewrite E, (spares_perm NODE_BUF). apply elem_of_app. by left.
Qed.

Lemma fill_buf_ok s c ns a rest bs :
  heap_inv (s_heap s) c ns → sp_nodes (spare_buf c) = a :: rest → 0 < zlen bs ≤ buf_sz c →
  ∃ blk, h_mem (s_heap s) !! a = Some blk ∧ zlen blk = buf_sz c ∧
    fill_ok NODE_BUF c ns a (zlen bs) (Some <$> bs) Node_buf s (write_mem a 0 bs blk s).
Proof.
  intros H Hsp Hbs. pose proof (hi_spare_buf _ _ _ H) as Hb. rewrite Forall_forall in Hb.
  assert (Ha : a ∈ sp_nodes (spare_buf c)) by (rewrite Hsp; by left).
  destruct (Hb a Ha) as (blk&Hblk&Hsz). exists blk. split; [done|]. split; [done|].
  assert (Hown : a ∈ own c ns).
  { rewrite (own_perm NODE_BUF). apply elem_of_app. by left. }
  destruct (heap_inv_write _ _ _ a blk (zwrite 0 bs blk) H Hown Hblk) as [H' Hby];
    [rewrite length_zwrite; lia|].
  pose proof (hi_bsz _ _ _ H) as Hbz.
  assert (Hl : h_mem (s_heap (write_mem a 0 bs blk s)) !! a = Some (zwrite 0 bs blk)).
  { destruct s as [[] ? ?]. apply lookup_insert_eq. }
  split; try done.
  - split; [cbn; unfold VSTR_MAX_NODE_BUF, VSTR_MAX_NODE_ALL in *; lia|]. cbn. split; [lia|].
    exists (zwrite 0 bs blk). split; [exact Hl|]. rewrite length_zwrite; lia.
  - unfold node_bytes. cbn. rewrite (load_buf _ _ _ _ Hl) by (rewrite length_zwrite; lia).
    rewrite <- (Z.add_0_l (zlen bs)), ztake_zwrite_end by lia. by rewrite ztake_0.
  - intros nd Hnd. apply Hby; [done|]. left. by eapply buf_addr_ne.
  - by apply env_step_write.
Qed.

Lemma extend_buf_ok s c l1 nd l2 bs :
  heap_inv (s_heap s) c (l1 ++ nd :: l2) → nd_type nd = NODE_BUF → 0 < zlen bs →
  nd_len nd + zlen bs ≤ buf_sz c →
  ∃ blk, h_mem (s_heap s) !! nd_addr nd = Some blk ∧ zlen blk = buf_sz c ∧
    extend_ok c l1 nd l2 (Some <$> bs) s (write_mem (nd_addr nd) (nd_len nd) bs blk s).
Proof.
  intros H Hty Hbs Hle. pose proof (hi_nodes _ _ _ H) as Hn. rewrite Forall_app, Forall_cons in Hn.
  destruct Hn as (_&Hok&_). destruct nd as [a len body]. destruct body; try done. clear Hty.
  pose proof Hok as [Hlen [Hlb (blk&Hblk&Hsz)]]. cbn in *. exists blk. split; [done|]. split; [done|].
  assert (Hown : a ∈ own c (l1 ++ mkNode a len Node_buf :: l2)).
  { unfold own. rewrite fmap_app. apply elem_of_app. left. apply elem_of_app. right. by left. }
  destruct (heap_inv_write _ _ _ a blk (zwrite len bs blk) H Hown Hblk) as [H' Hby];
    [rewrite length_zwrite; lia|].
  pose proof (hi_bsz _ _ _ H) as Hbz.
  assert (Hl : h_mem (s_heap (write_mem a len bs blk s)) !! a = Some (zwrite len bs blk)).
  { destruct s as [[] ? ?]. apply lookup_insert_eq. }
  split; try done.
  - rewrite length_fmap. eapply heap_inv_node; [exact H'|done| |by intros ?|done].
    split; [cbn; unfold VSTR_MAX_NODE_BUF, VSTR_MAX_NODE_ALL in *; lia|]. cbn. split; [lia|].
    exists (zwrite len bs blk). split; [exact Hl|]. rewrite length_zwrite; lia.
  - unfold node_bytes, nd_set_len. cbn. rewrite length_fmap.
    rewrite (load_buf _ _ _ _ Hl) by (rewrite length_zwrite; lia).
    rewrite (load_buf _ _ _ _ Hblk) by lia. rewrite ztake_zwrite_end by lia. by rewrite fmap_app.
  - intros nd' Hnd. apply Hby; [rewrite elem_of_app, elem_of_cons in *; tauto|]. left. intros E.
    pose proof (hi_nodup _ _ _ H) as Hdup. unfold own in Hdup. apply NoDup_app in Hdup as (Hdup&_&_).
    rewrite fmap_app, fmap_cons in Hdup. rewrite <- Permutation_middle in Hdup.
    apply NoDup_cons in Hdup as [Hna _]. apply Hna. cbn. rewrite <- E, <- fmap_app.
    by apply list_elem_of_fmap_2.
  - by apply env_step_write.
Qed.

(** ** vstr_add_buf *)
Definition buf_src (h : heap) (o : list positive) (buffer : pointer) (d : list byte_or_non) : Prop :=
  ∃ bs, d = Some <$> bs ∧ load (h_mem h) buffer (zlen bs) = Some bs ∧ p_blk buffer ∉ o.

Lemma buf_src_load h o buffer d tmp :
  buf_src h o buffer d → 0 ≤ tmp ≤ zlen d → ∃ bs, ztake tmp d = Some <$> bs ∧ zlen bs = tmp ∧
    load (h_mem h) buffer tmp = Some bs ∧ p_blk buffer ∉ o.
Proof.
  intros (bs&->&Hl&Hn) Htmp. rewrite length_fmap in Htmp. exists (ztake tmp bs).
  rewrite ztake_fmap, length_ztake. split_and!; [done|lia|by eapply load_prefix|done].
Qed.
Lemma buf_src_drop h o buffer d tmp :
  buf_src h o buffer d → 0 ≤ tmp ≤ zlen d → buf_src h o (ptr_add buffer tmp) (zdrop tmp d).
Proof.
  intros (bs&->&Hl&Hn) Htmp. rewrite length_fmap in Htmp. exists (zdrop tmp bs).
  rewrite zdrop_fmap, length_zdrop. split_and!; [done| |done].
  replace (Z.max 0 (zlen bs - Z.max 0 tmp)) with (zlen bs - tmp) by lia.
  rewrite (load_sub _ _ _ tmp (zlen bs - tmp) _ Hl) by lia. f_equal. apply ztake_all.
  rewrite length_zdrop. lia.
Qed.
Lemma buf_src_step k h o h' o' buffer d :
  env_step k h o h' o' → buf_src h o buffer d → buf_src h' o' buffer d.
Proof.
  intros He (bs&->&Hl&Hn). destruct (env_step_load _ _ _ _ _ _ _ _ He Hl Hn). by exists bs.
Qed.

Lemma mem_move_write s a off src n bs blk :
  load (h_mem (s_heap s)) src n = Some bs → h_mem (s_heap s) !! a = Some blk →
  0 ≤ off → off + n ≤ zlen blk →
  wp (mem_move (Ptr a off) src n) s (λ _ s', s' = write_mem a off bs blk s).
Proof. intros Hl Ha ??. by wp_apply (mem_move_spec s (Ptr a off) src n bs blk). Qed.

#[export] Program Instance add_buf_AddOp : AddOp add_buf_op := {| ao_src := buf_src |}.
Next Obligation. intros c ?. cbn. unfold VSTR_MAX_NODE_BUF, VSTR_MAX_NODE_ALL in *. lia. Qed.
Next Obligation. by intros. Qed.
Next Obligation. intros _. split; [done|]. intros cur nd Ht. by apply bool_decide_eq_true. Qed.
Next Obligation. intros. by eapply buf_src_step. Qed.
Next Obligation.
  intros s c ns cur a rest d tmp H Hsp Hsrc Htmp Hle Hrefs. cbn in *.
  destruct (buf_src_load _ _ _ _ tmp Hsrc ltac:(lia)) as (bs&Ebs&Hz&Hl&Hn).
  destruct (fill_buf_ok s c ns a rest bs H Hsp ltac:(lia)) as (blk&Hblk&Hsz&HF). rewrite Hz in HF.
  wp_step. wp_apply (mem_move_write s a 0 cur tmp bs blk); [done|done|lia|lia|].
  intros _ s' ->. wp_steps. rewrite Ebs. split; [done|]. intros ??.
  eapply buf_src_step; [exact (fo_env _ _ _ _ _ _ _ _ _ HF)|]. apply buf_src_drop; [done|lia].
Qed.
Next Obligation.
  intros s c l1 nd l2 cur d tmp H Hc Hsrc Htmp Hle. cbn in *.
  apply bool_decide_eq_true in Hc as [Hty _].
  destruct (buf_src_load _ _ _ _ tmp Hsrc ltac:(lia)) as (bs&Ebs&Hz&Hl&Hn).
  destruct (extend_buf_ok s c l1 nd l2 bs H Hty ltac:(lia) ltac:(lia)) as (blk&Hblk&Hsz&HX).
  pose proof (hi_nodes _ _ _ H) as Hns. rewrite Forall_app, Forall_cons in Hns. destruct Hns as (_&[? _]&_).
  wp_apply (mem_move_write s (nd_addr nd) (nd_len nd) cur tmp bs blk); [done|done|lia|lia|].
  intros _ s' ->. by rewrite Ebs.
Qed.
Lemma add_buf_advances : advances add_buf_op.
Proof. intros h o cur d tmp Hs Ht. apply buf_src_drop; [done|lia]. Qed.

(** ** vstr_add_rep_chr *)
Definition rep_src (h : heap) (o : list positive) (chr : Z) (d : list byte_or_non) : Prop :=
  d = Some <$> zrep (zlen d) chr.

Lemma rep_src_take h o chr d n : rep_src h o chr d → 0 ≤ n ≤ zlen d → ztake n d = Some <$> zrep n chr.
Proof. intros E Hn. rewrite E, ztake_fmap, ztake_zrep. do 2 f_equal. lia. Qed.
Lemma rep_src_drop h o chr d n : rep_src h o chr d → 0 ≤ n ≤ zlen d → rep_src h o chr (zdrop n d).
Proof.
  intros E Hn. unfold rep_src. rewrite E at 1. rewrite zdrop_fmap, zdrop_zrep, length_zdrop by lia.
  do 2 f_equal. lia.
Qed.

Lemma mem_store_write s a off bs blk :
  h_mem (s_heap s) !! a = Some blk → 0 ≤ off → off + zlen bs ≤ zlen blk →
  wp (mem_store (Ptr a off) bs) s (λ _ s', s' = write_mem a off bs blk s).
Proof.
  intros Ha ??. unfold mem_store. wp_steps. eapply wp_of_option.
  { unfold store. cbn [p_blk]. rewrite Ha. cbn. rewrite decide_True by lia. done. }
  cbn beta. wp_steps. done.
Qed.

#[export] Program Instance add_rep_chr_AddOp : AddOp add_rep_chr_op := {| ao_src := rep_src |}.
Next Obligation. intros c ?. cbn. unfold VSTR_MAX_NODE_BUF, VSTR_MAX_NODE_ALL in *. lia. Qed.
Next Obligation. by intros. Qed.
Next Obligation. intros _. split; [done|]. intros cur nd Ht. by apply bool_decide_eq_true. Qed.
Next Obligation. by intros. Qed.
Next Obligation.
  intros s c ns chr a rest d tmp H Hsp Hsrc Htmp Hle Hrefs. cbn in *.
  assert (Hz : zlen (zrep tmp chr) = tmp) by (rewrite length_zrep; lia).
  destruct (fill_buf_ok s c ns a rest (zrep tmp chr) H Hsp ltac:(lia)) as (blk&Hblk&Hsz&HF). rewrite Hz in HF.
  wp_step. wp_apply (mem_store_write s a 0 (zrep tmp chr) blk); [done|lia|lia|].
  intros _ s' ->. wp_steps. rewrite (rep_src_take _ _ _ _ _ Hsrc) by lia. split; [done|]. intros ??.
  eapply rep_src_drop; [exact Hsrc|lia].
Qed.
Next Obligation.
  intros s c l1 nd l2 chr d tmp H Hc Hsrc Htmp Hle. cbn in *.
  apply bool_decide_eq_true in Hc as [Hty _].
  assert (Hz : zlen (zrep tmp chr) = tmp) by (rewrite length_zrep; lia).
  destruct (extend_buf_ok s c l1 nd l2 (zrep tmp chr) H Hty ltac:(lia) ltac:(lia)) as (blk&Hblk&Hsz&HX).
  pose proof (hi_nodes _ _ _ H) as Hns. rewrite Forall_app, Forall_cons in Hns. destruct Hns as (_&[? _]&_).
  wp_apply (mem_store_write s (nd_addr nd) (nd_len nd) (zrep tmp chr) blk); [done|lia|lia|].
  intros _ s' ->. by rewrite (rep_src_take _ _ _ _ _ Hsrc) by lia.
Qed.
Lemma add_rep_chr_advances : advances add_rep_chr_op.
Proof. intros h o cur d tmp Hs Ht. eapply rep_src_drop; [exact Hs|lia]. Qed.

(** ** vstr_add_non *)
Definition non_src (h : heap) (o : list positive) (_ : ()) (d : list byte_or_non) : Prop :=
  d = zrep (zlen d) None.

(** A node that needs no memory *)
Lemma fill_ok_same t c ns a d body s :
  heap_inv (s_heap s) c ns → let nd := mkNode a (zlen d) body in
  node_ok (s_heap s) (buf_sz c) nd → node_bytes (s_heap s) nd = d →
  ext_ok (s_heap s) (own c ns) nd → node_ref_of nd = None → body_type body = t →
  fill_ok t c ns a (zlen d) d body s s.
Proof.
  intros H nd Hok Hby Hext Href Hty. split; try done.
  - intros r Hr. unfold nd in Href. by rewrite Hr in Href.
  - by apply env_step_perm.
Qed.
Lemma extend_ok_same c l1 nd l2 d s :
  heap_inv (s_heap s) c (l1 ++ nd :: l2) → let nd' := nd_set_len (nd_len nd + zlen d) nd in
  node_ok (s_heap s) (buf_sz c) nd' → node_bytes (s_heap s) nd' = node_bytes (s_heap s) nd ++ d →
  extend_ok c l1 nd l2 d s s.
Proof.
  intros H nd' Hok Hby. split; try done; [|by apply env_step_perm].
  eapply heap_inv_node; [exact H|done|done| |done].
  exact (heap_inv_ext _ _ _ nd H ltac:(rewrite elem_of_app, elem_of_cons; tauto)).
Qed.

#[export] Program Instance add_non_AddOp : AddOp add_non_op := {| ao_src := non_src |}.
Next Obligation. intros c ?. done. Qed.
Next Obligation. by intros. Qed.
Next Obligation. by intros. Qed.
Next Obligation. by intros. Qed.
Next Obligation.
  intros s c ns [] a rest d tmp H Hsp Hsrc Htmp Hle Hrefs. cbn in *. wp_steps.
  assert (Hz : zlen (ztake tmp d) = tmp) by (rewrite length_ztake; lia). split.
  - rewrite <- Hz at 1. apply fill_ok_same; try done.
    + split; [cbn; lia|done].
    + unfold node_bytes. cbn. rewrite Hz, Hsrc, ztake_zrep. f_equal. lia.
  - intros _ _. unfold non_src. rewrite Hsrc at 1. rewrite zdrop_zrep, length_zdrop by lia. f_equal. lia.
Qed.
Next Obligation.
  intros s c l1 nd l2 [] d tmp H Hc Hsrc Htmp Hle. cbn in *. wp_steps.
  apply bool_decide_eq_true in Hc. assert (Hz : zlen (ztake tmp d) = tmp) by (rewrite length_ztake; lia).
  pose proof (hi_nodes _ _ _ H) as Hns. rewrite Forall_app, Forall_cons in Hns. destruct Hns as (_&[? _]&_).
  destruct nd as [a len body]. destruct body; try done.
  apply extend_ok_same; [done| |]; rewrite Hz; cbn in *.
  - split; [cbn; lia|done].
  - unfold node_bytes. cbn. rewrite Hsrc, ztake_zrep, zrep_app by lia. f_equal. lia.
Qed.
Lemma add_non_advances : advances add_non_op.
Proof.
  intros h o [] d tmp Hs Ht. cbn in *. unfold non_src in *. rewrite Hs at 1.
  rewrite zdrop_zrep, length_zdrop by lia. f_equal. lia.
Qed.

(** ** vstr_add_ptr and vstr_add_ref *)

(** The block is no node of others, and no reference other than [owner] frees it. *)
Definition stays (h : heap) (owner : option positive) (blk : positive) : Prop :=
  (blk ∉ o_own) ∧
  ∀ r ref, h_refs h !! r = Some ref → 0 < r_ref ref → ref_frees r ref blk → owner = Some r.
Lemma stays_step k h o h' o' owner blk :
  env_step k h o h' o' → stays h owner blk → stays h' owner blk.
Proof.
  intros [_ Hr] [Hno Hn]. split; [done|]. intros r ref' Hr' Hpos Hf.
  destruct (refs_step_get _ _ _ _ _ Hr Hr') as (ref&Hr0&Ef&Ep&_&H0).
  apply (Hn r ref Hr0).
  - destruct (decide (0 < r_ref ref)); [done|]. rewrite H0 in Hpos; lia.
  - unfold ref_frees in *. by rewrite Ef, Ep in Hf.
Qed.

Definition ptr_src (h : heap) (o : list positive) (ptr : pointer) (d : list byte_or_non) : Prop :=
  buf_src h o ptr d ∧ stays h None (p_blk ptr).

Lemma load_join m p n k b1 b2 :
  load m p n = Some b1 → load m (ptr_add p n) k = Some b2 → load m p (n + k) = Some (b1 ++ b2).
Proof.
  intros (blk&Hb&?&?&?&->)%load_Some (blk'&Hb'&?&?&?&->)%load_Some. cbn in *.
  rewrite Hb in Hb'. injection Hb' as <-. apply load_Some. exists blk. split_and!; [done|lia..|].
  rewrite <- (ztake_zdrop n (ztake (n + k) (zdrop (p_off p) blk))). f_equal.
  - rewrite ztake_ztake. f_equal. lia.
  - rewrite zdrop_ztake, zdrop_zdrop by lia. f_equal. lia.
Qed.

#[export] Program Instance add_ptr_AddOp : AddOp add_ptr_op := {| ao_src := ptr_src |}.
Next Obligation. intros c ?. done. Qed.
Next Obligation. by intros. Qed.
Next Obligation. by intros. Qed.
Next Obligation. intros k h o h' o' p d He [Hs Hn]. split; [by eapply buf_src_step|by eapply stays_step]. Qed.
Next Obligation.
  intros s c ns p a rest d tmp H Hsp [Hsrc Hnf] Htmp Hle Hrefs. cbn in *. wp_steps.
  destruct (buf_src_load _ _ _ _ tmp Hsrc ltac:(lia)) as (bs&Ebs&Hz&Hl&Hn). split.
  - assert (Hzd : zlen (ztake tmp d) = tmp) by (rewrite length_ztake; lia).
    rewrite <- Hzd at 1. apply fill_ok_same; rewrite ?Hzd; try done.
    + split; [cbn; lia|]. cbn. by rewrite Hl.
    + unfold node_bytes. cbn. by rewrite Hl, Ebs.
    + intros q [= <-]. split; [done|]. split; [apply Hnf|]. intros r ref Hr Hpos Hf. by specialize (proj2 Hnf r ref Hr Hpos Hf).
  - intros _ _. split; [apply buf_src_drop; [done|lia]|done].
Qed.
Next Obligation.
  intros s c l1 nd l2 p d tmp H Hc [Hsrc Hnf] Htmp Hle. cbn in *. wp_steps.
  destruct nd as [a len body]. destruct body as [| |q|r off]; try done. cbn in *.
  apply bool_decide_eq_true in Hc as [Hq _].
  destruct (buf_src_load _ _ _ _ tmp Hsrc ltac:(lia)) as (bs&Ebs&Hz&Hl&Hn).
  pose proof (hi_nodes _ _ _ H) as Hns. rewrite Forall_app, Forall_cons in Hns.
  destruct Hns as (_&[Hlen [b0 Hb0]]&_). cbn in *. rewrite <- Hq in Hl.
  pose proof (load_join _ _ _ _ _ _ Hb0 Hl) as Hj.
  assert (Hzd : zlen (ztake tmp d) = tmp) by (rewrite length_ztake; lia).
  apply extend_ok_same; [done| |]; rewrite Hzd; cbn.
  - split; [cbn; lia|]. cbn. by rewrite Hj.
  - unfold node_bytes. cbn. by rewrite Hj, Hb0, Ebs, fmap_app.
Qed.

Definition ref_src (r : positive) (h : heap) (o : list positive) (off : Z) (d : list byte_or_non) : Prop :=
  0 ≤ off ∧ off + zlen d ≤ UINT_MAX ∧ zlen d ≤ VSTR_MAX_NODE_ALL ∧
  ∃ ref, h_refs h !! r = Some ref ∧ 0 < r_ref ref ∧ buf_src h o (ptr_add (r_ptr ref) off) d ∧
    stays h (Some r) (p_blk (r_ptr ref)).

#[export] Program Instance add_ref_AddOp r : AddOp (add_ref_op r) := {| ao_src := ref_src r |}.
Next Obligation. intros r c ?. done. Qed.
Next Obligation. by intros. Qed.
Next Obligation. by intros. Qed.
Next Obligation.
  intros r k h o h' o' off d He (?&?&?&ref&Hr&Hpos&Hs&Hn). split_and!; [done..|].
  destruct (refs_step_put _ _ _ _ _ (proj2 He) Hr) as (ref'&Hr'&_&Ep&?&_).
  exists ref'. rewrite Ep. split_and!; [done|lia|by eapply buf_src_step|by eapply stays_step].
Qed.
Next Obligation.
  intros r s c ns off a rest d tmp H Hsp (Ho&Hu&Hm&ref&Hr&Hpos&Hsrc&Hnf) Htmp Hle Hrefs. cbn in *.
  destruct (buf_src_load _ _ _ _ tmp Hsrc ltac:(lia)) as (bs&Ebs&Hz&Hl&Hn).
  pose proof (Hrefs _ _ Hr) as Hr1. wp_step. wp_apply vstr_ref_add_spec; [done|lia|].
  intros r' s' [-> ->]. wp_steps. rewrite u32_id by (unfold UINT_MAX in *; lia).
  destruct (heap_inv_ref_add _ _ _ r ref H Hr) as (H'&Hby&Hext); [lia|].
  set (ref' := mkRef _ _ _) in *. set (h' := h_set_refs _ (s_heap s)) in *.
  assert (Hr' : h_refs h' !! r = Some ref').
  { unfold h'. destruct (s_heap s); cbn. by rewrite lookup_insert_eq. }
  assert (Hmem : h_mem h' = h_mem (s_heap s)) by (unfold h'; by destruct (s_heap s)).
  assert (He : env_step 1 (s_heap s) (own c ns) h' (own c ns)).
  { split; [intros; by rewrite Hmem|]. intros x. unfold h'. destruct (s_heap s); cbn in *.
    rewrite lookup_insert. case_decide; [subst; rewrite Hr; constructor; split_and!; cbn; (done || lia)|].
    by apply refs_step_refl. }
  split; [|intros; lia]. split; try done.
  - split; [cbn; lia|]. cbn. split; [lia|]. split; [lia|]. exists ref'. split; [exact Hr'|].
    fold h'. rewrite Hmem. cbn. by rewrite Hl.
  - unfold node_bytes. cbn. fold h'. rewrite Hr'. cbn. by rewrite Hmem, Hl, Ebs.
  - intros q. unfold node_ext. cbn. fold h'. rewrite Hr'. cbn. intros [= <-]. split; [done|].
    exact (stays_step _ _ _ _ _ _ _ He Hnf).
  - intros x [= <-]. exists ref'. split; [exact Hr'|]. cbn. split; [|lia].
    destruct (decide (ref_count r ns + held r = 0)) as [Hc|Hc]; [lia|].
    destruct (hi_count _ _ _ H r Hc) as (ref0&Hr0&?). rewrite Hr in Hr0. injection Hr0 as <-. lia.
Qed.
Next Obligation.
  intros r s c l1 nd l2 off d tmp H Hc (Ho&Hu&Hm&ref&Hr&Hpos&Hsrc&Hnf) Htmp Hle. cbn in *. wp_steps.
  destruct nd as [a len body]. destruct body as [| |q|r0 o0]; try done. cbn in *.
  apply bool_decide_eq_true in Hc as (->&Hoff&_).
  destruct (buf_src_load _ _ _ _ tmp Hsrc ltac:(lia)) as (bs&Ebs&Hz&Hl&Hn).
  pose proof (hi_nodes _ _ _ H) as Hns. rewrite Forall_app, Forall_cons in Hns.
  destruct Hns as (_&[Hlen (Ho1&Ho2&ref1&Hr1&[b0 Hb0])]&_). cbn in *.
  rewrite Hr in Hr1. injection Hr1 as <-. rewrite u32_id in Hoff by (unfold UINT_MAX in *; lia).
  rewrite <- Hoff, <- ptr_add_add in Hl. pose proof (load_join _ _ _ _ _ _ Hb0 Hl) as Hj.
  assert (Hzd : zlen (ztake tmp d) = tmp) by (rewrite length_ztake; lia).
  apply extend_ok_same; [done| |]; rewrite Hzd; cbn.
  - split; [cbn; lia|]. cbn. split; [lia|]. split; [lia|]. exists ref. by rewrite Hj.
  - unfold node_bytes. cbn. rewrite Hr. cbn. by rewrite Hj, Hb0, Ebs, fmap_app.
Qed.

End others.
