(* ===== verification/AddTheorems.v ===== *)
(** * The add functions of the public interface insert their data. *)
From Stdlib Require Import ZArith Lia ZifyBool.
From stdpp Require Import base tactics list numbers option gmap.
From S2P Require Import Prelude State Wp Ref Cache Core Add Inv PosLemmas SpareLemmas SplitLemmas CacheLemmas AddLemmas StringLemmas AddSpec AddOps.

Section others.
Context {OT : Others}.

(** ** The contract of an add function *)

(** [d] is in the string after position [pos]; a failure leaves the bytes and
    reports itself in the configuration; the memory of others is untouched. *)
Definition add_post (s : St) (pos : Z) (d : list byte_or_non) (ok : bool) (s' : St) : Prop :=
  if decide (b_len (s_base s) < pos) then ok = false ∧ s' = s
  else wf s' ∧ mem_frame s s' ∧
    if ok then st_content s' = ztake pos (st_content s) ++ d ++ zdrop pos (st_content s)
    else st_content s' = st_content s ∧ malloc_bad (s_conf s') = true.

(** How much an addition may use: [k] nodes and references *)
Record add_uses (k : Z) (s : St) (ok : bool) (s' : St) : Prop := {
  au_conf : conf_same (s_conf s) (s_conf s');
  au_own : zlen (st_own s') ≤ zlen (st_own s) + k;
  au_refs : refs_step k (h_refs (s_heap s)) (h_refs (s_heap s'));
  au_malloc : ok = true → malloc_bad (s_conf s') = malloc_bad (s_conf s) }.
Definition add_full (k : Z) (s : St) (pos : Z) (d : list byte_or_non) (ok : bool) (s' : St) : Prop :=
  add_post s pos d ok s' ∧ add_uses k s ok s' ∧ (ok = true → 0 < zlen d → boundary s' (pos + zlen d)) ∧
  (ok = false → boundary s pos → boundary s' pos).
Lemma add_full_refused k s pos d : 0 ≤ k → b_len (s_base s) < pos → add_full k s pos d false s.
Proof.
  intros. split; [unfold add_post; by rewrite decide_True|]. split; [|done].
  split; [apply conf_same_refl|lia|by apply refs_step_refl|done].
Qed.

Lemma add_uses_refl k s ok : 0 ≤ k → add_uses k s ok s.
Proof. split; [apply conf_same_refl|lia|by apply refs_step_refl|done]. Qed.
Lemma add_uses_room k n m s ok s' : add_uses k s ok s' → room (n + k) (m + k) s → room n m s'.
Proof.
  intros [_ Ho Hr _] [H1 H2]. unfold st_own in *. split; [lia|]. intros r ref' Hr'.
  destruct (refs_step_get _ _ _ _ _ Hr Hr') as (ref&Hr0&_&_&?&_). specialize (H2 r ref Hr0). lia.
Qed.

Lemma added_post {C} (op : add_op C) `{!AddOp op} s pos d ok s' :
  pos ≤ b_len (s_base s) → added op s pos d ok s' →
  add_full (1 + nodes_needed (op_max op (s_conf s)) (zlen d)) s pos d ok s'.
Proof.
  intros Hpos (Hw&Hc&[Hm Hr]&Ho&Hok). split.
  - unfold add_post. rewrite decide_False by lia. split_and!; [done|done|]. destruct ok; tauto.
  - split; [|split; by intros ->; tauto]. split; [done|done|done|]. intros ->. tauto.
Qed.
Lemma add_post_nothing s pos : wf s → pos ≤ b_len (s_base s) → add_post s pos [] true s.
Proof.
  intros Hw Hpos. unfold add_post. rewrite decide_False by lia. split_and!; [done|done|].
  cbn. by rewrite ztake_zdrop.
Qed.
Lemma add_full_nothing k s pos : 0 ≤ k → wf s → pos ≤ b_len (s_base s) → add_full k s pos [] true s.
Proof. intros. split; [by apply add_post_nothing|]. split; [by apply add_uses_refl|]. split; [intros _ H'; cbn in H'; lia|done]. Qed.

(** Remembered positions lie in the string. *)
Lemma pos_data_le ns used data : lens_pos ns → pos_data_ok ns used data → cp_node data ≠ None →
  cp_pos data + used ≤ sum_len ns.
Proof.
  intros Hp Hd Hn. unfold pos_data_ok in Hd. destruct (cp_node data) as [a|]; [|done].
  destruct Hd as (i&nd&Hi&_&Hs&_). rewrite (list_split_at _ _ _ Hi), sum_len_app. cbn.
  rewrite (list_split_at _ _ _ Hi) in Hp. apply Forall_app in Hp as [_ Hp].
  apply Forall_cons in Hp as [? Hp]. pose proof (sum_len_nonneg _ Hp). lia.
Qed.
Lemma wf_upto_end s s' :
  wf s → wf_upto (b_len (s_base s)) s' → cache_get_pos (s_base s') = cache_get_pos (s_base s) → wf s'.
Proof.
  intros Hw [H HB HP HA HV] E. split; [done|done|]. split; [|done|done].
  intros data Hd. rewrite E in Hd. pose proof (ci_pos _ (wf_cache _ Hw) _ Hd) as Hok.
  destruct (cp_node data) as [a|] eqn:Ea; [|unfold pos_data_ok; by rewrite Ea].
  apply HP; [by rewrite E|]. pose proof (pos_data_le _ _ _ (wf_lens _ Hw) Hok ltac:(by rewrite Ea)).
  rewrite (bi_len _ (wf_base _ Hw)). lia.
Qed.

Lemma add_uses_grown k q pos d s s' : 0 ≤ k → grown q pos d 0 0 s s' → add_uses k s true s'.
Proof. intros Hk []. split; [done|lia|eapply refs_step_weaken; [apply gr_env|lia]|done]. Qed.

Lemma vstr__add_inline_spec k write slow s pos d :
  wf s → 0 ≤ pos → 0 ≤ k →
  (∀ l1 nd, b_nodes (s_base s) = l1 ++ [nd] → nd_type nd = NODE_BUF → 0 < zlen d →
     nd_len nd + zlen d ≤ buf_sz (s_conf s) →
     wp (write nd) s (λ _ s', extend_ok (s_conf s) l1 nd [] d s s')) →
  (pos ≤ b_len (s_base s) → 0 < zlen d → wp slow s (λ ok s', add_full k s pos d ok s')) →
  wp (vstr__add_inline write slow pos (zlen d)) s (λ ok s', add_full k s pos d ok s').
Proof.
  intros Hw Hpos Hk0 Hwrite Hslow. unfold vstr__add_inline. wp_step. apply wp_gets. wp_step. apply wp_gets.
  case_decide as Hp; [by wp_steps; apply add_full_refused|].
  case_decide as Hd. { wp_steps. destruct d; [|done]. apply add_full_nothing; [done|done|lia]. }
  destruct (last (b_nodes (s_base s))) as [nd|] eqn:El; [|apply Hslow; lia].
  case_decide as Hf; [|apply Hslow; lia]. destruct Hf as (Hne&->&Hty&Hfit&_).
  apply last_Some in El as [l1 En]. pose proof (hi_nodes _ _ _ (wf_heap _ Hw)) as Hok.
  rewrite En, Forall_app, Forall_singleton in Hok. destruct Hok as [_ Hok].
  assert (Hnl : 0 < nd_len nd ≤ buf_sz (s_conf s)).
  { destruct nd as [? ? []]; try done. destruct Hok as [? [? _]]. cbn in *. lia. }
  pose proof (hi_bsz _ _ _ (wf_heap _ Hw)) as Hbz. unfold VSTR_MAX_NODE_BUF in Hbz.
  rewrite u32_id in Hfit by lia. wp_step.
  eapply wp_mono; [apply (Hwrite l1 nd En Hty); lia|]. intros u0 s1 HX. cbn beta in HX |- *. clear u0.
  pose proof HX as [XC XB XH XY XS XE].
  assert (Hi : b_nodes (s_base s) !! pred (length (b_nodes (s_base s))) = Some nd).
  { rewrite <- last_lookup, En. by rewrite last_snoc. }
  unfold upd_node, node_at. wp_steps. rewrite XB. eapply wp_of_option; [exact Hi|]. cbn beta. wp_steps.
  rewrite u28_id by lia. set (s3 := on_base _ (on_base _ s1)).
  assert (En3 : <[pred (length (b_nodes (s_base s))):=nd_set_len (nd_len nd + zlen d) nd]>
      (b_nodes (s_base s)) = l1 ++ [nd_set_len (nd_len nd + zlen d) nd]).
  { rewrite En, length_app, Nat.add_1_r. cbn [pred length]. by rewrite insert_app_r_alt, Nat.sub_diag by lia. }
  assert (Hv3 : vec_ok (s_base s3)).
  { unfold s3. cbn [s_base on_base]. apply vec_ok_set_len, vec_ok_set_nodes. rewrite XB.
    exact (ci_vec _ (wf_cache _ Hw)). }
  wp_apply vstr__cache_iovec_add_node_end_step; [done|]. intros _ s4 Hvs.
  pose proof (vec_step_ok _ _ Hvs) as Hv4. destruct Hvs as (u&v&E4&_). wp_steps.
  assert (Hbl : u64 (b_len (s_base s) + zlen d) = b_len (s_base s) + zlen d).
  { pose proof (heap_inv_size _ _ _ XH) as Hsz. pose proof (wf_len_nonneg _ Hw).
    pose proof (wf_used_nonneg _ Hw). pose proof (bi_len _ (wf_base _ Hw)) as Hb. rewrite En in Hb.
    rewrite sum_len_app in Hb, Hsz. cbn in Hb, Hsz. apply u64_id. lia. }
  assert (HF : linked_fields (l1 ++ [nd_set_len (nd_len nd + zlen d) nd]) (b_len (s_base s) + zlen d)
    (b_num (s_base s)) (nd_type nd) (s_base s) (s_base s4)).
  { rewrite <- En3, <- Hbl.
    pose proof (bi_flags _ (wf_base _ Hw) nd ltac:(by eapply list_elem_of_lookup_2)) as Hfl.
    rewrite E4. unfold s3. cbn [s_base on_base]. rewrite XB.
    destruct (s_base s) as [? ? ? ? ? ? ? ? ? ? ? ? []]. by split. }
  assert (HG : grown (b_len (s_base s)) (b_len (s_base s)) d 0 0 s s4).
  { eapply (extend_ok_grown s l1 nd [] _ d s1 s4); try done.
    - pose proof (wf_len_nonneg _ Hw). lia.
    - rewrite <- En, (bi_len _ (wf_base _ Hw)). lia.
    - by rewrite E4.
    - by rewrite E4. }
  split; [|split; [by eapply add_uses_grown|split; [by intros; apply HG|done]]].
  unfold add_post. rewrite decide_False by lia. destruct HG as [W G _ _ [Hm _] _ _ _].
  split_and!; [|done|done]. eapply wf_upto_end; [done|done|apply (lf_get_pos _ _ _ _ _ _ HF)].
Qed.

(** ** The add functions *)

(** Room in the 32-bit counters for the nodes of [len] bytes *)
Definition add_needs {C} (op : add_op C) (len : Z) (s : St) : Z := 1 + nodes_needed (op_max op (s_conf s)) len.
Definition add_room {C} (op : add_op C) (len : Z) (s : St) : Prop :=
  let n := add_needs op len s in room n n s.
Lemma add_needs_nonneg {C} (op : add_op C) `{!AddOp op} len s : wf s → 0 ≤ len → 0 ≤ add_needs op len s.
Proof.
  intros Hw Hl. pose proof (ao_max (op := op) (s_conf s) (hi_bsz _ _ _ (wf_heap _ Hw))).
  unfold add_needs, nodes_needed. pose proof (Z.div_pos len (op_max op (s_conf s)) Hl ltac:(lia)). case_decide; lia.
Qed.

(** Nodes that can be filled up hold less than the string. *)
Lemma node_len_le s nd : wf s → nd ∈ b_nodes (s_base s) → nd_type nd ≠ NODE_BUF → nd_len nd ≤ b_len (s_base s).
Proof.
  intros Hw Hnd Hty. rewrite (bi_len _ (wf_base _ Hw)). pose proof (wf_lens _ Hw) as Hp.
  pose proof (wf_used_first s) as Hu.
  apply list_elem_of_split in Hnd as (l1&l2&En). rewrite En in *.
  rewrite sum_len_app. cbn [sum_len]. apply Forall_app in Hp as [Hp1 Hp2].
  apply Forall_cons in Hp2 as [_ Hp2]. pose proof (sum_len_nonneg _ Hp1). pose proof (sum_len_nonneg _ Hp2).
  destruct (bi_used _ (wf_base _ Hw)) as [->|(bg&Hb&Ht&?)]; [lia|].
  destruct l1 as [|x l1]; cbn in *.
  - rewrite En in Hb. injection Hb as ->. done.
  - specialize (Hu x Hw eq_refl). apply Forall_cons in Hp1 as [_ Hp1]. pose proof (sum_len_nonneg _ Hp1). lia.
Qed.

Section add_generic.
Context {C : Type} (op : add_op C) `{AO : !AddOp op}.

Lemma vstr__add_post s cur pos d :
  wf s → 0 ≤ pos ≤ b_len (s_base s) → 0 < zlen d → ao_src (s_heap s) (st_own s) cur d →
  add_room op (zlen d) s →
  (advances op ∨ (b_len (s_base s) + zlen d ≤ VSTR_MAX_NODE_ALL ∧
     (∀ c, op_max op c = VSTR_MAX_NODE_ALL) ∧
     (∀ cur nd p, op_continues op cur nd p = true → nd_type nd ≠ NODE_BUF))) →
  wp (vstr__add op cur pos (zlen d)) s
    (λ ok s', add_full (add_needs op (zlen d) s) s pos d ok s').
Proof.
  intros Hw Hpos Hd Hsrc Hroom Hadv.
  eapply wp_mono; [apply (vstr__add_spec op); try done|].
  - destruct Hadv as [Ha|(Hle&Hm&Ht)]; [by left|right]. intros s' K cur' nd Hin Hc.
    rewrite Hm. pose proof (node_len_le s' nd (kp_wf _ _ _ _ K) Hin (Ht _ _ _ Hc)).
    pose proof (kp_len _ _ _ _ K). lia.
  - intros ok s1 H. apply (added_post op); [lia|exact H].
Qed.

(** The guards of the functions without a fast path *)
Lemma vstr__add_guarded s cur pos d :
  wf s → 0 ≤ pos → (0 < zlen d → ao_src (s_heap s) (st_own s) cur d) → add_room op (zlen d) s →
  (advances op ∨ (b_len (s_base s) + zlen d ≤ VSTR_MAX_NODE_ALL ∧
     (∀ c, op_max op c = VSTR_MAX_NODE_ALL) ∧
     (∀ cur nd p, op_continues op cur nd p = true → nd_type nd ≠ NODE_BUF))) →
  wp (b ← get_base;
      if decide (b_len b < pos) then mret false
      else if decide (zlen d = 0) then mret true else vstr__add op cur pos (zlen d)) s
    (λ ok s', add_full (add_needs op (zlen d) s) s pos d ok s').
Proof.
  intros Hw Hpos Hsrc Hroom Hadv. wp_step. apply wp_gets.
  assert (Hk : 0 ≤ add_needs op (zlen d) s) by (apply (add_needs_nonneg op); [done|apply Nat2Z.is_nonneg]).
  case_decide as Hp; [by wp_steps; apply add_full_refused|].
  case_decide as Hd. { wp_steps. destruct d; [|done]. apply add_full_nothing; [done|done|lia]. }
  apply vstr__add_post; try done; [lia|lia|apply Hsrc; lia].
Qed.
End add_generic.

Lemma vstr_add_buf_full s pos buffer d :
  wf s → 0 ≤ pos → buf_src (s_heap s) (st_own s) buffer d → add_room add_buf_op (zlen d) s →
  wp (vstr_add_buf pos buffer (zlen d)) s (λ ok s', add_full (add_needs add_buf_op (zlen d) s) s pos d ok s').
Proof.
  intros Hw Hpos Hsrc Hroom. apply vstr__add_inline_spec; [done|done|by apply (add_needs_nonneg add_buf_op); [|lia]| |].
  - intros l1 nd En Hty Hd Hfit.
    pose proof (ao_extend (op := add_buf_op) s (s_conf s) l1 nd [] buffer d (zlen d)) as HX.
    rewrite ztake_all in HX by lia. apply HX; [|by apply bool_decide_eq_true| |lia|done].
    + rewrite <- En. apply Hw.
    + unfold st_own in Hsrc. rewrite En in Hsrc. exact Hsrc.
  - intros Hle Hd. unfold vstr_extern_inline_add_buf. wp_step. apply wp_gets.
    rewrite decide_False by lia. apply (vstr__add_post add_buf_op); try done; left; apply add_buf_advances.
Qed.
Lemma vstr_add_buf_spec s pos buffer d :
  wf s → 0 ≤ pos → buf_src (s_heap s) (st_own s) buffer d → add_room add_buf_op (zlen d) s →
  wp (vstr_add_buf pos buffer (zlen d)) s (λ ok s', add_post s pos d ok s').
Proof. intros. eapply wp_mono; [by apply vstr_add_buf_full|]. by intros ok s' []. Qed.
Lemma vstr_add_rep_chr_full s pos chr n :
  wf s → 0 ≤ pos → 0 ≤ n → add_room add_rep_chr_op n s →
  wp (vstr_add_rep_chr pos chr n) s (λ ok s', add_full (add_needs add_rep_chr_op n s) s pos (zrep n (Some chr)) ok s').
Proof.
  intros Hw Hpos Hn Hroom. set (d := zrep n (Some chr) : list byte_or_non).
  assert (Hz : zlen d = n) by (unfold d; rewrite length_zrep; lia).
  assert (Hsrc : ∀ h o, rep_src h o chr d).
  { intros. unfold rep_src. by rewrite Hz, zrep_fmap. }
  rewrite <- Hz in Hroom |- *.
  apply vstr__add_inline_spec; [done|done|by apply (add_needs_nonneg add_rep_chr_op); [|lia]| |].
  - intros l1 nd En Hty Hd Hfit.
    pose proof (ao_extend (op := add_rep_chr_op) s (s_conf s) l1 nd [] chr d (zlen d)) as HX.
    rewrite ztake_all in HX by lia. apply HX; [|by apply bool_decide_eq_true|apply Hsrc|lia|done].
    rewrite <- En. apply Hw.
  - intros Hle Hd. unfold vstr_extern_inline_add_rep_chr. wp_step. apply wp_gets.
    rewrite decide_False by lia. apply (vstr__add_post add_rep_chr_op); try done; [apply Hsrc|left; apply add_rep_chr_advances].
Qed.
Lemma vstr_add_rep_chr_spec s pos chr n :
  wf s → 0 ≤ pos → 0 ≤ n → add_room add_rep_chr_op n s →
  wp (vstr_add_rep_chr pos chr n) s (λ ok s', add_post s pos (zrep n (Some chr)) ok s').
Proof. intros. eapply wp_mono; [by apply vstr_add_rep_chr_full|]. by intros ok s' []. Qed.
Lemma vstr_add_ptr_full s pos ptr d :
  wf s → 0 ≤ pos → ptr_src (s_heap s) (st_own s) ptr d → add_room add_ptr_op (zlen d) s →
  b_len (s_base s) + zlen d ≤ VSTR_MAX_NODE_ALL →
  wp (vstr_add_ptr pos ptr (zlen d)) s (λ ok s', add_full (add_needs add_ptr_op (zlen d) s) s pos d ok s').
Proof.
  intros Hw Hpos Hsrc Hroom Hmax. apply (vstr__add_guarded add_ptr_op); try done. right. split_and!; [done|done|].
  intros p nd q. destruct nd as [a l []]; done.
Qed.
Lemma vstr_add_ptr_spec s pos ptr d :
  wf s → 0 ≤ pos → ptr_src (s_heap s) (st_own s) ptr d → add_room add_ptr_op (zlen d) s →
  b_len (s_base s) + zlen d ≤ VSTR_MAX_NODE_ALL →
  wp (vstr_add_ptr pos ptr (zlen d)) s (λ ok s', add_post s pos d ok s').
Proof. intros. eapply wp_mono; [by apply vstr_add_ptr_full|]. by intros ok s' []. Qed.
Lemma vstr_add_non_full s pos n :
  wf s → 0 ≤ pos → 0 ≤ n → add_room add_non_op n s →
  wp (vstr_add_non pos n) s (λ ok s', add_full (add_needs add_non_op n s) s pos (zrep n None) ok s').
Proof.
  intros Hw Hpos Hn Hroom. set (d := zrep n None : list byte_or_non).
  assert (Hz : zlen d = n) by (unfold d; rewrite length_zrep; lia).
  rewrite <- Hz in Hroom |- *. apply (vstr__add_guarded add_non_op); try done.
  - intros _. cbn. unfold non_src. by rewrite Hz.
  - left. apply add_non_advances.
Qed.
Lemma vstr_add_non_spec s pos n :
  wf s → 0 ≤ pos → 0 ≤ n → add_room add_non_op n s →
  wp (vstr_add_non pos n) s (λ ok s', add_post s pos (zrep n None) ok s').
Proof. intros. eapply wp_mono; [by apply vstr_add_non_full|]. by intros ok s' []. Qed.
Lemma vstr_add_ref_full s pos r off d :
  wf s → 0 ≤ pos → (0 < zlen d → ref_src r (s_heap s) (st_own s) off d) →
  add_room (add_ref_op r) (zlen d) s → b_len (s_base s) + zlen d ≤ VSTR_MAX_NODE_ALL →
  wp (vstr_add_ref pos r off (zlen d)) s (λ ok s', add_full (add_needs (add_ref_op r) (zlen d) s) s pos d ok s').
Proof.
  intros Hw Hpos Hsrc Hroom Hmax. apply (vstr__add_guarded (add_ref_op r)); try done. right. split_and!; [done|done|].
  intros p nd q. destruct nd as [a l []]; done.
Qed.
Lemma vstr_add_ref_spec s pos r off d :
  wf s → 0 ≤ pos → (0 < zlen d → ref_src r (s_heap s) (st_own s) off d) →
  add_room (add_ref_op r) (zlen d) s → b_len (s_base s) + zlen d ≤ VSTR_MAX_NODE_ALL →
  wp (vstr_add_ref pos r off (zlen d)) s (λ ok s', add_post s pos d ok s').
Proof. intros. eapply wp_mono; [by apply vstr_add_ref_full|]. by intros ok s' []. Qed.

End others.
