(* ===== verification/BaseTheorems.v ===== *)
(** * New strings are well-formed and empty, and the I/O vector made on demand
    describes the string. *)
From Stdlib Require Import ZArith Lia ZifyBool.
From stdpp Require Import base tactics list numbers option gmap.
From S2P Require Import Prelude State Wp Ref Cache Core Base Inv PosLemmas SpareLemmas SplitLemmas CacheLemmas AddLemmas StringLemmas NoCstr.

Section others.
Context {OT : Others}.

(** ** Allocations that are not nodes *)
Definition malloc_only (s s' : St) : Prop :=
  s_conf s' = s_conf s ∧ s_base s' = s_base s ∧ h_mem (s_heap s') = h_mem (s_heap s) ∧
  h_refs (s_heap s') = h_refs (s_heap s) ∧ (h_next (s_heap s) ≤ h_next (s_heap s'))%positive.
Lemma malloc_only_refl s : malloc_only s s.
Proof. by split_and!. Qed.
Lemma malloc_only_trans s1 s2 s3 : malloc_only s1 s2 → malloc_only s2 s3 → malloc_only s1 s3.
Proof. intros (?&?&?&?&?) (?&?&?&?&?). split_and!; try congruence. lia. Qed.

Lemma malloc_spec s :
  wp malloc s (λ r s', malloc_only s s' ∧ (∀ a, r = Some a → a = h_next (s_heap s))).
Proof.
  destruct s as [[m r n ma] c b]. unfold wp, malloc, malloc_only. cbn.
  destruct ma as [|[] ma]; cbn; split; try (split_and!; try done; lia); by intros a [= <-].
Qed.
Lemma alloc_all_spec n : ∀ s, wp (alloc_all n) s (λ _ s', malloc_only s s').
Proof.
  induction n as [|n IH]; intros s; cbn [alloc_all]; [wp_steps; apply malloc_only_refl|].
  unfold alloc_ok. wp_step. wp_step. wp_apply malloc_spec. intros r s1 [H1 _]. wp_steps.
  case_bool_decide; [|by wp_steps]. eapply wp_mono; [apply IH|]. intros. by eapply malloc_only_trans.
Qed.

Lemma heap_inv_malloc_only h h' c ns :
  heap_inv h c ns → h_mem h' = h_mem h → h_refs h' = h_refs h → (h_next h ≤ h_next h')%positive →
  heap_inv h' c ns.
Proof.
  intros H Hm Hr Hn. split; rewrite ?Hm, ?Hr; try apply H.
  - eapply Forall_impl; [apply (hi_nodes _ _ _ H)|]. intros nd Hok.
    eapply (node_frame h h'); [exact Hok|by rewrite Hm..|by rewrite Hr].
  - eapply Forall_impl; [apply (hi_fresh_own _ _ _ H)|]. cbn. lia.
  - intros a Ha. pose proof (hi_fresh_mem _ _ _ H a Ha). lia.
  - intros r Ha. pose proof (hi_fresh_ref _ _ _ H r Ha). lia.
  - intros a Ha. destruct (hi_guard _ _ _ H a Ha) as (?&?&?). split_and!; [lia|done|done].
Qed.

Lemma base_inv_empty b : b_nodes b = [] → b_used b = 0 → b_len b = 0 → b_num b = 0 → base_inv b.
Proof.
  intros En Eu El Em. split; rewrite ?En, ?Eu, ?El, ?Em; cbn; [by left|done|done|done|].
  intros nd Hnd. by apply elem_of_nil in Hnd.
Qed.

(** A spare string, as vstr_free_base leaves it *)
Definition spare_ok (g : grpalloc_type) (b : Vstr_base) : Prop := grpalloc_cache b = g ∧ vec_ok b.

Definition make_post (g : grpalloc_type) (s : St) (ok : bool) (s' : St) : Prop :=
  h_mem (s_heap s') = h_mem (s_heap s) ∧ h_refs (s_heap s') = h_refs (s_heap s) ∧
  (h_next (s_heap s) ≤ h_next (s_heap s'))%positive ∧
  if ok then wf s' ∧ st_content s' = [] ∧ s_conf s' = s_conf s ∧ b_nodes (s_base s') = [] ∧
    grpalloc_cache (s_base s') = g ∧ no_cstr_ref (s_base s')
  else s_conf s' = set_malloc_bad true (s_conf s) ∧ s_base s' = s_base s.

(** The caches of a new string *)
Definition caches_new (g : grpalloc_type) (b : Vstr_base) : Prop :=
  grpalloc_cache b = g ∧ (g = GRPALLOC_NONE → cache_available b = false) ∧
  (∀ data, cache_get_pos b = Some data → cp_node data = None) ∧
  (g ≠ GRPALLOC_NONE → is_Some (c_pos (b_cache b))) ∧ (2 ≤ grpalloc_num g → is_Some (c_vec (b_cache b))) ∧
  no_cstr_ref b.

Lemma vstr__make_base_cache_spec g s :
  wp (vstr__make_base_cache g) s (λ r s', malloc_only s s' ∧ ∀ b, r = Some b → caches_new g b).
Proof.
  unfold vstr__make_base_cache. wp_steps.
  destruct g; wp_step; (eapply wp_mono; [apply alloc_all_spec|]); intros ok s' Hs; wp_steps; split; try done;
    intros b Hb; destruct ok; try done; injection Hb as <-; unfold caches_new; split_and!; try done; cbn.
  all: try (by intros ? [= <-]); try by eauto.
Qed.
Lemma spare_caches_new g b : spare_ok g b → no_cstr_ref b → caches_new g (spare_caches g b).
Proof.
  intros (Eg&Hv&Ha) Hc. unfold caches_new. destruct b as [? ? ? ? ? av ? ? ? ? ? ? [p v c]]. cbn in *. subst. split_and!.
  - by destruct g.
  - intros ->. by apply Ha.
  - intros data. unfold cache_get_pos. destruct g; cbn; [by rewrite Ha|..]; by destruct av; intros [= <-].
  - destruct g; [done|by eexists..].
  - intros Hg. destruct g; cbn in *; apply Hv; by right.
  - destruct g; try exact Hc. intros ? [= <-]. done.
Qed.

Lemma empty_state_wf h c b :
  heap_inv h c [] → b_nodes b = [] → b_used b = 0 → b_len b = 0 → b_num b = 0 →
  (∀ data, cache_get_pos b = Some data → cp_node data = None) →
  (cache_available b = true → is_Some (c_pos (b_cache b))) → vec_ok b → wf (mkSt h c b).
Proof.
  intros H En Eu El Em Hp Ha Hv. split; cbn; [by rewrite En|by apply base_inv_empty|].
  split; [|done|done]. intros data Hd. unfold pos_data_ok. by rewrite (Hp _ Hd).
Qed.

Lemma vstr__init_base_spec g h c b :
  heap_inv h c [] → caches_new g b → wp vstr__init_base (mkSt h c b) (λ _ s', ∃ b', s' = mkSt h c b' ∧ wf s' ∧
    b_nodes b' = [] ∧ b_used b' = 0 ∧ grpalloc_cache b' = g ∧ no_cstr_ref b').
Proof.
  intros H (Eg&Ea&Hpos&Hp&Hv&Hcs). destruct b as [? ? ? ? ? av ? ? ? ? ? g' [p v cs]]. cbn in *. subst g'.
  destruct g; cbn [grpalloc_num] in Hv; rewrite ?Ea by done;
    try (destruct (Hv ltac:(lia)) as [vec ->]); try (destruct (Hp ltac:(done)) as [p' ->]);
    destruct av; try (by specialize (Ea eq_refl));
    unfold wp; cbn; eexists; (split_and!; [done|apply empty_state_wf|..]); try done.
  all: first [by cbn; intros ? [= <-]; auto | by split; [intros [?|?]; by eauto|]].
Qed.

Lemma make_base_spec g sp s :
  heap_inv (s_heap s) (s_conf s) [] → (∀ b, sp = Some b → spare_ok g b ∧ no_cstr_ref b) → wp (make_base g sp) s (make_post g s).
Proof.
  intros H Hsp. unfold make_base. wp_step.
  assert (HB : wp (match sp with Some b => mret (Some (spare_caches g b)) | None => vstr__make_base_cache g end) s
    (λ r s', malloc_only s s' ∧ ∀ b, r = Some b → caches_new g b)).
  { destruct sp as [b|]; [|apply vstr__make_base_cache_spec]. wp_steps. split; [apply malloc_only_refl|].
    intros b' [= <-]. by apply spare_caches_new; apply Hsp. }
  eapply wp_mono; [exact HB|].
  cbn beta. intros r s1 [(Ec&Eb&Em&Er&En) Hr]. destruct r as [b|].
  2:{ wp_steps. repeat split; [done..|cbn; by rewrite Ec|done]. }
  assert (HI : heap_inv (s_heap s1) (s_conf s) []) by by eapply heap_inv_malloc_only.
  destruct s1 as [h1 c1 b1]. cbn in Ec, Eb, Em, Er, En, HI. subst c1. wp_steps. cbn.
  wp_apply (vstr__init_base_spec g h1 (s_conf s) b HI); [by apply Hr|]. intros _ s' (b'&->&Hw&E1&E2&E3&E4).
  wp_steps. split_and!; try done. unfold st_content, content. cbn. by rewrite E1, E2.
Qed.

End others.
