(* ===== verification/DelLemmas.v ===== *)
(** * Deleting: giving up a reference, freeing the resources of nodes, and
    moving runs of nodes to the spare lists. *)
From Stdlib Require Import ZArith Lia ZifyBool.
From stdpp Require Import base tactics list numbers option gmap.
From S2P Require Import Prelude State Wp Ref Cache Core Del Inv PosLemmas SpareLemmas SplitLemmas CacheLemmas AddLemmas StringLemmas.

Section others.
Context {OT : Others}.

(** ** What deleting may do to the environment: references are given up, and
    the memory that the last one owns goes *)
Definition del_env (h h' : heap) : Prop :=
  (∀ a, h_mem h' !! a = h_mem h !! a ∨
     ∃ r ref, h_refs h !! r = Some ref ∧ ref_frees r ref a) ∧
  (∀ r ref', h_refs h' !! r = Some ref' → ∃ ref, h_refs h !! r = Some ref ∧
     r_func ref' = r_func ref ∧ r_ptr ref' = r_ptr ref ∧ r_ref ref' ≤ r_ref ref).
Lemma del_env_refl h : del_env h h.
Proof. split; [by left|]. intros r ref Hr. by exists ref. Qed.
Lemma del_env_trans h1 h2 h3 : del_env h1 h2 → del_env h2 h3 → del_env h1 h3.
Proof.
  intros [M1 R1] [M2 R2]. split.
  - intros a. destruct (M2 a) as [->|(r&ref2&Hr2&Hf)]; [apply M1|].
    destruct (R1 r ref2 Hr2) as (ref1&Hr1&Ef&Ep&_). right. exists r, ref1. split; [done|].
    unfold ref_frees in *. by rewrite <- Ef, <- Ep.
  - intros r ref3 E3. destruct (R2 r ref3 E3) as (ref2&E2&?&?&?).
    destruct (R1 r ref2 E2) as (ref1&E1&?&?&?). exists ref1. split_and!; [done|congruence|congruence|lia].
Qed.

(** ** Giving up a reference *)

(** The last reference to [r] goes, and with it some of the memory it owns. *)
Lemma heap_inv_ref_gone h h' c ns r ref :
  heap_inv h c ns → h_refs h !! r = Some ref → 0 < r_ref ref → ref_count r ns + held r = 0 →
  (∀ x, x ≠ r → h_refs h' !! x = h_refs h !! x) →
  (∀ rx, h_refs h' !! r = Some rx → r_ref rx = 0 ∧ r_func rx = r_func ref ∧ r_ptr rx = r_ptr ref) →
  (∀ a, h_mem h' !! a = h_mem h !! a ∨ (h_mem h' !! a = None ∧ ref_frees r ref a)) →
  h_next h' = h_next h →
  heap_inv h' c ns ∧ (∀ nd, nd ∈ ns → node_bytes h' nd = node_bytes h nd) ∧ del_env h h'.
Proof.
  intros H Hr Hpos Hcnt Hrefs Hgone Hmem Hnext.
  destruct (hi_frees _ _ _ H r ref Hr Hpos) as [_ Hf].
  assert (Hno : ∀ nd, nd ∈ ns → node_ref_of nd ≠ Some r).
  { intros nd Hnd E. pose proof (ref_count_pos r nd ns Hnd E). pose proof (held_nonneg r). lia. }
  assert (Hown : ∀ a, a ∈ own c ns → h_mem h' !! a = h_mem h !! a).
  { intros a Ha. destruct (Hmem a) as [|[_ Hfr]]; [done|]. destruct (Hf a Hfr) as [Hn _]. done. }
  assert (Hext : ∀ nd p, nd ∈ ns → node_ext (h_refs h) nd = Some p → h_mem h' !! p_blk p = h_mem h !! p_blk p).
  { intros nd p Hnd Hp. destruct (Hmem (p_blk p)) as [|[_ Hfr]]; [done|].
    destruct (Hf _ Hfr) as [_ Hn]. specialize (Hn nd p Hnd Hp eq_refl). by destruct (Hno nd Hnd). }
  assert (Hsame : ∀ nd, nd ∈ ns → refs_same (h_refs h) (h_refs h') nd).
  { intros nd Hnd x Hx. rewrite Hrefs; [done|]. intros ->. by destruct (Hno nd Hnd). }
  pose proof (hi_nodes _ _ _ H) as Hns. rewrite Forall_forall in Hns.
  assert (Hnode : ∀ nd, nd ∈ ns → node_ok h' (buf_sz c) nd ∧ node_bytes h' nd = node_bytes h nd ∧
    node_ext (h_refs h') nd = node_ext (h_refs h) nd).
  { intros nd Hnd. apply node_frame; [by apply Hns| |by eauto|by apply Hsame].
    intros _. apply Hown. unfold own. apply elem_of_app. left. by apply list_elem_of_fmap_2. }
  assert (Hlive : ∀ x rx, h_refs h' !! x = Some rx → 0 < r_ref rx → x ≠ r ∧ h_refs h !! x = Some rx).
  { intros x rx Hx Hp. destruct (decide (x = r)) as [->|Hne].
    - destruct (Hgone rx Hx). lia.
    - by rewrite <- Hrefs. }
  split_and!.
  - split; rewrite ?Hnext; try apply H.
    + rewrite Forall_forall. apply Hnode.
    + pose proof (hi_spare_buf _ _ _ H) as Hb. rewrite Forall_forall in *. intros a Ha.
      destruct (Hb a Ha) as (blk&Hblk&?). exists blk. rewrite Hown; [done|].
      rewrite (own_perm NODE_BUF). apply elem_of_app. by left.
    + intros a Ha. destruct (Hmem a) as [E|[E _]]; rewrite E in Ha; [|by destruct Ha].
      by apply (hi_fresh_mem _ _ _ H).
    + intros x Hx. destruct (decide (x = r)) as [->|Hne].
      * apply (hi_fresh_ref _ _ _ H). by rewrite Hr.
      * apply (hi_fresh_ref _ _ _ H). by rewrite <- Hrefs.
    + intros nd p Hnd. rewrite (proj2 (proj2 (Hnode nd Hnd))). by apply (hi_alias _ _ _ H).
    + intros nd p Hnd. rewrite (proj2 (proj2 (Hnode nd Hnd))). by apply (hi_alias_others _ _ _ H).
    + intros x Hx. rewrite Hrefs; [by apply (hi_count _ _ _ H)|]. by intros ->.
    + intros x rx Hx Hxp. destruct (Hlive x rx Hx Hxp) as [Hne Hx0].
      destruct (hi_frees _ _ _ H x rx Hx0 Hxp) as [Hfr Hs]. split.
      * assert (Hdis : ∀ a, ref_frees x rx a → h_mem h' !! a = h_mem h !! a).
        { intros a Ha. destruct (Hmem a) as [|[_ Hfa]]; [done|]. destruct Hne.
          by eapply (hi_disj _ _ _ H x r). }
        unfold ref_freeable, ref_frees in *. destruct (r_func rx); try done.
        -- destruct Hfr. split; [done|]. by rewrite Hdis.
        -- destruct Hfr. split; [done|]. rewrite Hdis; [done|by left].
      * intros blk Hblk. destruct (Hs blk Hblk) as [? Hn]. split; [done|].
        intros nd p Hnd. rewrite (proj2 (proj2 (Hnode nd Hnd))). by apply Hn.
    + intros r1 r2 ref1 ref2 blk H1 H2 P1 P2. destruct (Hlive _ _ H1 P1), (Hlive _ _ H2 P2).
      by eapply (hi_disj _ _ _ H).
    + intros a blk Ha. destruct (Hmem a) as [->|[_ Hfa]]; [by apply (hi_shown _ _ _ H)|].
      destruct (hi_guard _ _ _ H a ltac:(left; eauto)) as (_&_&Hg). destruct (Hg r ref Hr Hpos Hfa) as [_ Hd].
      pose proof (ref_count_nonneg r ns). lia.
    + intros a Ha. destruct (hi_guard _ _ _ H a Ha) as (?&?&Hg). split_and!; [done|done|].
      intros x rx Hx Hxp. destruct (Hlive x rx Hx Hxp) as [_ Hx0]. by apply Hg.
    + intros x ro Hx. destruct (hi_held _ _ _ H x ro Hx) as (r0&Hr0&?&?). exists r0.
      rewrite Hrefs; [done|]. intros ->. pose proof (ref_count_nonneg r ns).
      pose proof (o_refs_pos r ro Hx). unfold held in Hcnt. rewrite Hx in Hcnt. cbn in *. lia.
  - intros nd Hnd. by apply Hnode.
  - split.
    + intros a. destruct (Hmem a) as [|[_ Hfa]]; [by left|]. right. by exists r, ref.
    + intros x rx Hx. destruct (decide (x = r)) as [->|Hne].
      * exists ref. destruct (Hgone rx Hx) as (?&?&?). split_and!; [done|done|done|lia].
      * exists rx. by rewrite <- Hrefs.
Qed.

(** Not the last reference *)
Lemma heap_inv_ref_less h c ns r ref :
  heap_inv h c ns → h_refs h !! r = Some ref → ref_count r ns + held r + 1 ≤ r_ref ref ≤ UINT_MAX → 1 < r_ref ref →
  let h' := h_set_refs (<[r := mkRef (r_func ref) (r_ptr ref) (r_ref ref - 1)]> (h_refs h)) h in
  heap_inv h' c ns ∧ (∀ nd, nd ∈ ns → node_bytes h' nd = node_bytes h nd) ∧ del_env h h'.
Proof.
  intros H Hr Hcnt Hpos h'. set (ref' := mkRef _ _ _) in *.
  assert (Hl : ∀ x, (h_refs h' !! x = h_refs h !! x ∧ x ≠ r) ∨ (x = r ∧ h_refs h' !! x = Some ref')).
  { intros x. destruct h; cbn in *. rewrite lookup_insert. case_decide; [right; subst; done|left; done]. }
  assert (Hback : ∀ x rx, h_refs h' !! x = Some rx →
    ∃ r0, h_refs h !! x = Some r0 ∧ r_func rx = r_func r0 ∧ r_ptr rx = r_ptr r0 ∧
      r_ref rx ≤ r_ref r0 ∧ (0 < r_ref rx → 0 < r_ref r0)).
  { intros x rx Hx. destruct (Hl x) as [[E _]|[-> E]]; rewrite E in Hx; [by exists rx|].
    injection Hx as <-. exists ref. cbn. split_and!; (done || lia). }
  assert (Hmem : h_mem h' = h_mem h) by by destruct h.
  assert (Hext : ∀ nd, node_ext (h_refs h') nd = node_ext (h_refs h) nd).
  { intros nd. unfold node_ext. destruct (nd_body nd) as [| |?|x off]; try done.
    destruct (Hl x) as [[-> _]|[-> ->]]; [done|]. by rewrite Hr. }
  assert (Hsame : ∀ nd, refs_same (h_refs h) (h_refs h') nd).
  { intros nd x _. destruct (Hl x) as [[-> _]|[-> ->]]; [done|]. by rewrite Hr. }
  pose proof (hi_nodes _ _ _ H) as Hns. rewrite Forall_forall in Hns.
  assert (Hnode : ∀ nd, nd ∈ ns → node_ok h' (buf_sz c) nd ∧ node_bytes h' nd = node_bytes h nd ∧
    node_ext (h_refs h') nd = node_ext (h_refs h) nd).
  { intros nd Hnd. apply node_frame; [by apply Hns|by intros; rewrite Hmem..|done]. }
  split_and!; [|by apply Hnode|].
  - split; rewrite ?Hmem; try apply H.
    + rewrite Forall_forall. apply Hnode.
    + destruct h; apply H.
    + destruct h; apply H.
    + intros x [rx Hx]. destruct (Hback x rx Hx) as (r0&Hr0&_).
      pose proof (hi_fresh_ref _ _ _ H x ltac:(by rewrite Hr0)). by destruct h.
    + intros nd p Hnd. rewrite Hext. by apply (hi_alias _ _ _ H).
    + intros nd p Hnd. rewrite Hext. by apply (hi_alias_others _ _ _ H).
    + intros x Hx. destruct (hi_count _ _ _ H x Hx) as (ref0&Hr0&Hc).
      destruct (Hl x) as [[-> _]|[-> ->]]; [by exists ref0|]. exists ref'. split; [done|]. cbn. lia.
    + intros x rx Hx Hxpos. destruct (Hback x rx Hx) as (r0&Hr0&Ef&Ep&_&Hp0).
      destruct (hi_frees _ _ _ H x r0 Hr0 (Hp0 Hxpos)) as [Hf Hs]. unfold ref_freeable, ref_frees in *.
      rewrite Ef, Ep. split; [done|]. intros blk Hblk. destruct (Hs blk Hblk) as [? Hn].
      split; [done|]. intros nd p. rewrite Hext. apply Hn.
    + intros r1 r2 ref1 ref2 blk E1 E2 P1 P2.
      destruct (Hback r1 ref1 E1) as (r1'&Hr1&Ef1&Ep1&_&Hp1), (Hback r2 ref2 E2) as (r2'&Hr2&Ef2&Ep2&_&Hp2).
      unfold ref_frees. rewrite Ef1, Ep1, Ef2, Ep2. apply (hi_disj _ _ _ H r1 r2 r1' r2' blk); auto.
    + intros a Ha. destruct (hi_guard _ _ _ H a Ha) as (?&?&Hg). split; [by destruct h|]. split; [done|].
      intros x rx Hx Hxp Hf. destruct (Hback x rx Hx) as (r0&Hr0&Ef&Ep&_&Hp0). apply (Hg x r0); [done|auto|].
      unfold ref_frees in *. by rewrite <- Ef, <- Ep.
    + intros x ro Hx. destruct (hi_held _ _ _ H x ro Hx) as (r0&Hr0&?&?).
      destruct (Hl x) as [[-> _]|[-> ->]]; [by exists r0|]. exists ref'. split; [done|].
      rewrite Hr in Hr0. by injection Hr0 as <-.
  - split; [intros; left; by rewrite Hmem|]. intros x rx Hx.
    destruct (Hback x rx Hx) as (r0&?&?&?&?&_). exists r0. done.
Qed.

Definition only_heap (s s' : St) : Prop := s_conf s' = s_conf s ∧ s_base s' = s_base s.

Record released (c : Vstr_conf) (ns : list Vstr_node) (s s' : St) : Prop := {
  rl_only : only_heap s s';
  rl_heap : heap_inv (s_heap s') c ns;
  rl_same : ∀ nd, nd ∈ ns → node_bytes (s_heap s') nd = node_bytes (s_heap s) nd;
  rl_env : del_env (s_heap s) (s_heap s') }.

Lemma vstr_ref_del_spec s c ns r ref :
  heap_inv (s_heap s) c ns → h_refs (s_heap s) !! r = Some ref →
  ref_count r ns + held r + 1 ≤ r_ref ref ≤ UINT_MAX →
  wp (vstr_ref_del (Some r)) s (λ _ s', released c ns s s').
Proof.
  intros H Hr Hcnt. pose proof (ref_count_nonneg r ns) as Hc0. pose proof (held_nonneg r) as Hd0. unfold vstr_ref_del, ref_at, ref_put. wp_steps.
  eapply wp_of_option; [exact Hr|]. cbn beta. wp_steps. cbn [r_ref].
  rewrite u32_id by (unfold UINT_MAX in *; lia). case_decide as Hz.
  2:{ wp_steps. destruct (heap_inv_ref_less _ _ _ r ref H Hr Hcnt ltac:(lia)) as (H'&Hby&He). by split. }
  destruct (hi_frees _ _ _ H r ref Hr ltac:(lia)) as [Hf _].
  destruct s as [[m rs nx ma] cf b]. cbn in *. unfold ref_freeable in Hf.
  assert (Hgo : ∀ h', h_next h' = nx →
    (∀ x, x ≠ r → h_refs h' !! x = rs !! x) →
    (∀ rx, h_refs h' !! r = Some rx → r_ref rx = 0 ∧ r_func rx = r_func ref ∧ r_ptr rx = r_ptr ref) →
    (∀ a, h_mem h' !! a = m !! a ∨ (h_mem h' !! a = None ∧ ref_frees r ref a)) →
    released c ns (mkSt (mkHeap m rs nx ma) cf b) (mkSt h' cf b)).
  { intros h' E1 E2 E3 E4. destruct (heap_inv_ref_gone _ h' _ _ r ref H Hr ltac:(lia) ltac:(lia) E2 E3 E4 E1)
      as (?&?&?). by split. }
  assert (Hput : ∀ rx, <[r:=mkRef (r_func ref) (r_ptr ref) (r_ref ref - 1)]> rs !! r = Some rx →
    r_ref rx = 0 ∧ r_func rx = r_func ref ∧ r_ptr rx = r_ptr ref).
  { intros rx. rewrite lookup_insert_eq. by intros [= <-]. }
  assert (Hne : ∀ x v (rs' : gmap positive Vstr_ref), x ≠ r → delete r (<[r:=v]> rs') !! x = rs' !! x).
  { intros x v rs' Hx. by rewrite lookup_delete_ne, lookup_insert_ne. }
  unfold vstr_ref_cb, free_ref, free_mem. destruct (r_func ref) eqn:Ef; wp_steps; cbn.
  - apply Hgo; cbn; auto; try (intros rx; by rewrite lookup_delete_eq). intros x Hx. by rewrite lookup_insert_ne.
  - apply Hgo; cbn; auto; try (intros rx; by rewrite lookup_delete_eq). intros a. destruct (decide (a = r)) as [->|].
    + rewrite lookup_delete_eq. right. unfold ref_frees. by rewrite Ef.
    + left. by rewrite lookup_delete_ne.
  - rewrite decide_True by done. wp_steps. apply Hgo; cbn; auto; try (intros rx; by rewrite lookup_delete_eq).
    + intros x Hx. by rewrite lookup_insert_ne.
    + intros a. destruct (decide (a = p_blk (r_ptr ref))) as [->|].
      * rewrite lookup_delete_eq. right. unfold ref_frees. by rewrite Ef.
      * left. by rewrite lookup_delete_ne.
  - rewrite decide_True by done. wp_steps. apply Hgo; cbn; auto; try (intros rx; by rewrite lookup_delete_eq).
    intros a. destruct (decide (a = r)) as [->|]; [|destruct (decide (a = p_blk (r_ptr ref))) as [->|]].
    + rewrite lookup_delete_eq. right. unfold ref_frees. rewrite Ef. tauto.
    + rewrite lookup_delete_ne, lookup_delete_eq by done. right. unfold ref_frees. rewrite Ef. tauto.
    + left. by rewrite !lookup_delete_ne.
Qed.

(** ** What is given back with a list of nodes: one reference for each node that
    has one, and with the last reference the callback is called. *)
Definition given_back (r : positive) (ref : Vstr_ref) (h' : heap) : Prop :=
  h_refs h' !! r = match r_func ref with
    | vstr_ref_cb_free_ref | vstr_ref_cb_free_ptr_ref => None
    | _ => Some (mkRef (r_func ref) (r_ptr ref) 0)
    end ∧
  ∀ a, ref_frees r ref a → h_mem h' !! a = None.
Definition given_up (ns : list Vstr_node) (h h' : heap) : Prop :=
  (∀ a, h_mem h !! a = None → h_mem h' !! a = None) ∧
  ∀ r, let n := ref_count r ns in
  match h_refs h !! r with
  | None => n = 0 ∧ h_refs h' !! r = None
  | Some ref =>
    if decide (n = 0) then h_refs h' !! r = Some ref
    else if decide (n < r_ref ref) then h_refs h' !! r = Some (mkRef (r_func ref) (r_ptr ref) (r_ref ref - n))
    else n = r_ref ref ∧ given_back r ref h'
  end.

Lemma given_up_nil h : given_up [] h h.
Proof. split; [done|]. intros r. cbn. by destruct (h_refs h !! r). Qed.
Lemma given_up_trans l1 l2 h h1 h2 : given_up l1 h h1 → given_up l2 h1 h2 → given_up (l1 ++ l2) h h2.
Proof.
  intros [M1 R1] [M2 R2]. split; [by auto|]. intros r. specialize (R1 r). specialize (R2 r). cbv zeta in *.
  rewrite ref_count_app. pose proof (ref_count_nonneg r l1). pose proof (ref_count_nonneg r l2).
  destruct (h_refs h !! r) as [ref|].
  2:{ destruct R1 as [-> E1]. rewrite E1 in R2. destruct R2 as [-> ->]. by split. }
  destruct (decide (ref_count r l1 = 0)) as [E|Hn1]; [by rewrite E, R1, ?Z.add_0_l in *|].
  rewrite decide_False by lia. destruct (decide (ref_count r l1 < r_ref ref)) as [Hlt|Hge].
  - rewrite R1 in R2. cbn [r_ref r_func r_ptr] in R2. destruct (decide (ref_count r l2 = 0)) as [E|Hn2].
    + by rewrite E, Z.add_0_r, decide_True.
    + destruct (decide (ref_count r l2 < r_ref ref - ref_count r l1)).
      * rewrite decide_True by lia. rewrite R2. do 2 f_equal. lia.
      * rewrite decide_False by lia. destruct R2 as [? Hg]. split; [lia|exact Hg].
  - destruct R1 as [E1 [G1 G2]].
    assert (ref_count r l2 = 0 ∧ h_refs h2 !! r = h_refs h1 !! r) as [E2 Eh2].
    { rewrite G1 in R2 |- *. destruct (r_func ref); try tauto.
      all: cbn [r_ref] in R2; case_decide; [done|]; rewrite decide_False in R2 by lia; destruct R2; lia. }
    rewrite decide_False by lia. split; [lia|]. split; [by rewrite Eh2|by auto].
Qed.
(** Blocks that no reference is about may go, too. *)
Lemma given_up_less ns h h1 h2 : given_up ns h h1 → h_refs h2 = h_refs h1 →
  (∀ a, h_mem h1 !! a = None → h_mem h2 !! a = None) → given_up ns h h2.
Proof.
  intros [M1 R1] Er Hm. split; [by auto|]. intros r. specialize (R1 r). cbv zeta in *. rewrite Er.
  destruct (h_refs h !! r) as [ref|]; [|done]. case_decide; [done|]. case_decide; [done|].
  destruct R1 as [? [? ?]]. split; [done|]. split; [by rewrite Er|by auto].
Qed.

Lemma vstr_ref_del_given s r ref nd :
  h_refs (s_heap s) !! r = Some ref → 1 ≤ r_ref ref ≤ UINT_MAX → ref_freeable (h_mem (s_heap s)) ref →
  node_ref_of nd = Some r → (∀ x, is_Some (h_refs (s_heap s) !! x) ∨ node_ref_of nd ≠ Some x) →
  wp (vstr_ref_del (Some r)) s (λ _ s', given_up [nd] (s_heap s) (s_heap s')).
Proof.
  intros Hr Hmax Hf Hnd Hall. unfold vstr_ref_del, ref_at, ref_put. wp_steps.
  eapply wp_of_option; [exact Hr|]. cbn beta. wp_steps. cbn [r_ref].
  rewrite u32_id by (unfold UINT_MAX in *; lia). destruct s as [[m rs nx ma] cf b]. cbn in *.
  assert (Hgo : ∀ h', (∀ a, m !! a = None → h_mem h' !! a = None) → (∀ x, x ≠ r → h_refs h' !! x = rs !! x) →
    (if decide (1 < r_ref ref) then h_refs h' !! r = Some (mkRef (r_func ref) (r_ptr ref) (r_ref ref - 1))
     else given_back r ref h') → given_up [nd] (mkHeap m rs nx ma) h').
  { intros h' Em Ex Er. split; [exact Em|]. intros x. cbn. rewrite Hnd. destruct (decide (Some r = Some x)) as [[= <-]|Hne].
    - rewrite Hr. rewrite decide_False by lia. change (1 + 0) with 1. case_decide; [done|]. split; [lia|done].
    - rewrite Ex by congruence. by destruct (rs !! x). }
  destruct (decide (r_ref ref - 1 = 0)) as [Hz|Hz].
  2:{ wp_steps. apply Hgo; cbn; [done|by intros; apply lookup_insert_ne|]. rewrite decide_True by lia. by rewrite lookup_insert_eq. }
  assert (Hone : r_ref ref = 1) by lia. unfold ref_freeable in Hf.
  unfold vstr_ref_cb, free_ref, free_mem. destruct (r_func ref) eqn:Ef; wp_steps; cbn;
    try (rewrite decide_True by done; wp_steps); apply Hgo; cbn; try (rewrite decide_False by lia);
    unfold given_back, ref_frees; rewrite ?Ef; cbn; rewrite ?lookup_insert_eq, ?lookup_delete_eq, ?Hone.
  all: try (intros; rewrite ?lookup_delete_ne, ?lookup_insert_ne by done; done).
  all: try (intros a Ha; rewrite !lookup_delete_None; tauto).
  all: (split; [done|]; try done; intros a Ha; rewrite !lookup_delete_None; destruct_or? Ha; subst; tauto).
Qed.

(** ** Freeing the resources of a node *)
Lemma own_push_node t nd l1 l2 c :
  own (push_spare t [nd_addr nd] c) (l1 ++ l2) ≡ₚ own c (l1 ++ nd :: l2).
Proof. rewrite own_push_spare, own_app_cons. done. Qed.

Lemma counts_ok_drop h c l1 nd l2 : heap_inv h c (l1 ++ nd :: l2) → counts_ok h (l1 ++ l2).
Proof.
  intros H r Hr. pose proof (ref_count_nonneg r (l1 ++ l2)). pose proof (held_nonneg r).
  destruct (hi_count _ _ _ H r) as (ref&Hrf&Hc); rewrite ref_count_insert in *; [case_decide; lia|].
  exists ref. split; [done|]. case_decide; lia.
Qed.

Lemma vstr__del_node_spec s c l1 nd l2 :
  heap_inv (s_heap s) c (l1 ++ nd :: l2) →
  wp (vstr__del_node nd) s (λ _ s', released (push_spare (nd_type nd) [nd_addr nd] c) (l1 ++ l2) s s').
Proof.
  intros H. pose proof (heap_inv_push _ _ (nd_type nd) _ _ _ H eq_refl (counts_ok_drop _ _ _ _ _ H)) as HP.
  unfold vstr__del_node. destruct (nd_body nd) as [| |p|r off] eqn:Eb.
  1-3: wp_steps; split; [done|done|done|apply del_env_refl].
  destruct (hi_count _ _ _ H r) as (ref&Hr&Hc).
  { rewrite ref_count_insert, decide_True by (unfold node_ref_of; by rewrite Eb).
    pose proof (ref_count_nonneg r (l1 ++ l2)). pose proof (held_nonneg r). lia. }
  rewrite ref_count_insert, decide_True in Hc by (unfold node_ref_of; by rewrite Eb).
  eapply vstr_ref_del_spec; [exact HP|exact Hr|lia].
Qed.

Lemma vstr__del_node_given s c l1 nd l2 :
  heap_inv (s_heap s) c (l1 ++ nd :: l2) → wp (vstr__del_node nd) s (λ _ s', given_up [nd] (s_heap s) (s_heap s')).
Proof.
  intros H. unfold vstr__del_node.
  assert (Hno : node_ref_of nd = None → given_up [nd] (s_heap s) (s_heap s)).
  { intros E. split; [done|]. intros r. cbn. rewrite E. by destruct (h_refs (s_heap s) !! r). }
  destruct (nd_body nd) as [| |p|r off] eqn:Eb; [wp_step; apply Hno; unfold node_ref_of; by rewrite Eb..|].
  assert (En : node_ref_of nd = Some r) by (unfold node_ref_of; by rewrite Eb).
  destruct (hi_count _ _ _ H r) as (ref&Hr&Hc).
  { rewrite ref_count_insert, decide_True by done.
    pose proof (ref_count_nonneg r (l1 ++ l2)). pose proof (held_nonneg r). lia. }
  rewrite ref_count_insert, decide_True in Hc by done.
  pose proof (ref_count_nonneg r (l1 ++ l2)). pose proof (held_nonneg r).
  eapply vstr_ref_del_given; [exact Hr|lia|by apply (hi_frees _ _ _ H r ref Hr); lia|done|].
  intros x. rewrite En. destruct (decide (r = x)) as [<-|]; [left; by rewrite Hr|right; congruence].
Qed.

(** ** Runs of nodes on their way to a spare list *)
Lemma push_spare_perm h t A B c ns :
  heap_inv h (push_spare t A c) ns → A ≡ₚ B → heap_inv h (push_spare t B c) ns.
Proof.
  intros H E. assert (Hlen : zlen A = zlen B) by by rewrite E.
  assert (Hown : own (push_spare t B c) ns ≡ₚ own (push_spare t A c) ns) by by rewrite !own_push_spare, E.
  eapply heap_inv_rearrange; [exact H| |exact Hown|..].
  - unfold push_spare. by rewrite !buf_sz_set_spare.
  - intros t'. pose proof (hi_spare_num _ _ _ H t') as Hn. unfold push_spare in *.
    destruct (decide (t = t')) as [<-|].
    + rewrite get_set_spare in *. cbn in *. rewrite length_app in *. lia.
    + by rewrite get_set_spare_ne in * by done.
  - pose proof (hi_spare_buf _ _ _ H) as Hb. unfold push_spare in *. rewrite !buf_sz_set_spare in *.
    destruct t; try (destruct c; exact Hb). destruct c; cbn in *. by rewrite <- E.
  - apply H.
  - rewrite Forall_forall. intros nd Hnd. by eapply heap_inv_ext.
  - intros r Hr. by apply (hi_count _ _ _ H).
Qed.

(** The nodes [pre] of type [t] were freed but are still linked before [scan]. *)
Record pending (t : node_type) (pre scan : list Vstr_node) (s : St) : Prop := {
  pd_nodes : b_nodes (s_base s) = pre ++ scan;
  pd_types : Forall (λ nd, nd_type nd = t) pre;
  pd_heap : heap_inv (s_heap s) (push_spare t (nd_addr <$> pre) (s_conf s)) scan;
  pd_vec : vec_ok (s_base s) }.

Lemma pending_del_node t pre nd scan s :
  pending t pre (nd :: scan) s → nd_type nd = t →
  wp (vstr__del_node nd) s (λ _ s', pending t (pre ++ [nd]) scan s' ∧ only_heap s s' ∧
    chain_bytes (s_heap s') scan = chain_bytes (s_heap s) scan ∧ del_env (s_heap s) (s_heap s') ∧
    given_up [nd] (s_heap s) (s_heap s')).
Proof.
  intros [En Ht H Hv] <-. eapply wp_mono; [apply wp_conj; [apply (vstr__del_node_spec s (push_spare (nd_type nd) (nd_addr <$> pre) (s_conf s)) [] nd scan); exact H|by eapply (vstr__del_node_given s (push_spare (nd_type nd) (nd_addr <$> pre) (s_conf s)) [] nd scan)]|].
  intros _ s' [[[Ec Eb] H' Hby He] Hg]. split_and!; [|done|by apply chain_frame|done|done]. split.
  - by rewrite Eb, En, <- app_assoc.
  - apply Forall_app. split; [done|]. by repeat constructor.
  - rewrite Ec. cbn [app] in H'. rewrite push_spare_push in H'. eapply push_spare_perm; [exact H'|].
    rewrite fmap_app. cbn. by rewrite <- Permutation_cons_append.
  - by rewrite Eb.
Qed.

(** The base after nodes were unlinked at the front *)
Definition unlinked_base (ns : list Vstr_node) (n : Z) (u : bool) (v : option cache_data_iovec)
    (b : Vstr_base) : Vstr_base := set_vec_state u v (b_set_num n (b_set_nodes ns b)).

Lemma relink_spec t run s ns :
  heap_inv (s_heap s) (push_spare t (nd_addr <$> run) (s_conf s)) ns →
  wp (vstr__relink_nodes t run (zlen run)) s (λ _ s',
    s' = on_conf (push_spare t (nd_addr <$> run)) s).
Proof.
  intros H. unfold vstr__relink_nodes. wp_steps. unfold on_conf. f_equal. unfold push_spare.
  pose proof (hi_spare_num _ _ _ H t) as Hn. pose proof (hi_total _ _ _ H) as Ht.
  rewrite (own_perm t), length_app in Ht. unfold push_spare in Hn, Ht. rewrite get_set_spare in *. cbn in *.
  rewrite length_app, length_fmap in *. rewrite u32_id by (unfold UINT_MAX in *; lia). done.
Qed.

Record cleaned (upd : bool) (pre scan : list Vstr_node) (t : node_type) (s s' : St) : Prop := {
  cl_heap : s_heap s' = s_heap s;
  cl_conf : s_conf s' = push_spare t (nd_addr <$> pre) (s_conf s);
  cl_base : ∃ u v, s_base s' = unlinked_base scan
    (if upd then b_num (s_base s) - zlen pre else b_num (s_base s)) u v (s_base s);
  cl_vec : vec_ok (s_base s') }.

Lemma vstr__del_beg_cleanup_spec upd t pre scan s :
  pending t pre scan s → zlen pre ≤ b_num (s_base s) ≤ UINT_MAX →
  wp (vstr__del_beg_cleanup (length pre) upd) s (λ _ s', cleaned upd pre scan t s s').
Proof.
  intros [En Ht H Hv] Hnum. unfold vstr__del_beg_cleanup. case_decide as Hl.
  - wp_steps. destruct pre; [|done]. cbn in *. split; [done|by rewrite push_spare_nil| |done].
    exists (iovec_upto_date (s_base s)), (c_vec (b_cache (s_base s))).
    destruct s as [h c [ns ? ? ? ? ? ? ? ? ? ? ? []]]. cbn in *. rewrite <- En. unfold unlinked_base, set_vec_state.
    cbn. rewrite Z.sub_0_r. by destruct upd.
  - destruct pre as [|nd pre']; [done|]. wp_steps. rewrite En. cbn [head app].
    eapply wp_of_option; [done|]. cbn beta. wp_step.
    replace (take (length (nd :: pre')) (nd :: pre' ++ scan)) with (nd :: pre') by by (cbn; rewrite take_app_length).
    pose proof Ht as [Hty _]%Forall_cons. rewrite Hty.
    wp_apply relink_spec; [exact H|]. intros _ s1 ->. wp_step. apply wp_modify. cbn [s_base on_base on_conf].
    replace (drop (length (nd :: pre')) (nd :: pre' ++ scan)) with scan by by (cbn; rewrite drop_app_length).
    destruct upd; cbn [when].
    + wp_step. apply wp_modify.
      wp_apply vstr__cache_iovec_del_beg_step.
      { destruct s as [h c [ns ? ? ? ? ? ? ? ? ? ? ? []]]. exact Hv. }
      intros _ s' Hvs. pose proof (vec_step_ok _ _ Hvs) as Hv'. destruct Hvs as (u&v&->&_).
      split; [done|done| |done]. exists u, v.
      destruct s as [h c [ns ? ? ? ? ? ? ? ? ? ? ? []]]. cbn in *. rewrite u32_id by (unfold UINT_MAX in *; lia). done.
    + wp_steps. split; [done|done| |].
      * exists (iovec_upto_date (s_base s)), (c_vec (b_cache (s_base s))).
        by destruct s as [h c [ns ? ? ? ? ? ? ? ? ? ? ? []]].
      * destruct s as [h c [ns ? ? ? ? ? ? ? ? ? ? ? []]]. exact Hv.
Qed.

(** What the unlinking leaves of the string and its configuration *)
Record unlinked (s s' : St) : Prop := {
  ul_conf : conf_same (s_conf s) (s_conf s');
  ul_malloc : malloc_bad (s_conf s') = malloc_bad (s_conf s);
  ul_env : del_env (s_heap s) (s_heap s');
  ul_base : ∃ ns n u v, s_base s' = unlinked_base ns n u v (s_base s) }.

Lemma unlinked_refl s : unlinked s s.
Proof.
  split; [done|done|apply del_env_refl|].
  exists (b_nodes (s_base s)), (b_num (s_base s)), (iovec_upto_date (s_base s)), (c_vec (b_cache (s_base s))).
  by destruct s as [h c [ns ? ? ? ? ? ? ? ? ? ? ? []]].
Qed.
Lemma unlinked_trans s1 s2 s3 : unlinked s1 s2 → unlinked s2 s3 → unlinked s1 s3.
Proof.
  intros [C1 M1 E1 (ns1&n1&u1&v1&B1)] [C2 M2 E2 (ns2&n2&u2&v2&B2)].
  split; [by eapply conf_same_trans|congruence|by eapply del_env_trans|].
  exists ns2, n2, u2, v2. rewrite B2, B1. by destruct s1 as [h c [ns ? ? ? ? ? ? ? ? ? ? ? []]].
Qed.
Lemma only_heap_unlinked s s' : only_heap s s' → del_env (s_heap s) (s_heap s') → unlinked s s'.
Proof.
  intros [Ec Eb] He. split; [by rewrite Ec|by rewrite Ec|done|]. rewrite Eb. apply unlinked_refl.
Qed.
Lemma cleaned_unlinked upd pre scan t s s' : cleaned upd pre scan t s s' → unlinked s s'.
Proof.
  intros [Eh Ec (u&v&Eb) _]. split.
  - rewrite Ec. apply conf_same_set_spare.
  - rewrite Ec. by destruct (s_conf s), t.
  - rewrite Eh. apply del_env_refl.
  - by eexists _, _, _, _.
Qed.
Lemma unlinked_base_fields ns n u v b :
  b_nodes (unlinked_base ns n u v b) = ns ∧ b_num (unlinked_base ns n u v b) = n.
Proof. by destruct b as [? ? ? ? ? ? ? ? ? ? ? ? []]. Qed.

Lemma del_beg_restart_spec upd t pre nd scan s :
  pending t pre (nd :: scan) s → zlen pre ≤ b_num (s_base s) ≤ UINT_MAX →
  wp (del_beg_restart (length pre) upd) s (λ t' s', t' = nd_type nd ∧ pending t' [] (nd :: scan) s' ∧
    unlinked s s' ∧ s_heap s' = s_heap s ∧ s_conf s' = push_spare t (nd_addr <$> pre) (s_conf s) ∧
    b_num (s_base s') = if upd then b_num (s_base s) - zlen pre else b_num (s_base s)).
Proof.
  intros Hp Hnum. unfold del_beg_restart. wp_step.
  wp_apply vstr__del_beg_cleanup_spec; [exact Hp|exact Hnum|].
  intros _ s1 Hcl. pose proof Hcl as [Eh Ec (u&v&Eb) Hv].
  destruct (unlinked_base_fields (nd :: scan) (if upd then b_num (s_base s) - zlen pre else b_num (s_base s)) u v (s_base s))
    as [En Em]. rewrite <- Eb in En, Em. wp_steps. rewrite En. eapply wp_of_option; [done|]. cbn beta. wp_steps.
  split_and!; [done| |by eapply cleaned_unlinked|done|done|done].
  split; [done|done| |done]. change (nd_addr <$> []) with (@nil positive). rewrite push_spare_nil, Ec, Eh. apply (pd_heap _ _ _ _ Hp).
Qed.

Lemma spares_push t l c : spares (push_spare t l c) ≡ₚ l ++ spares c.
Proof. pose proof (own_push_spare t l c []) as E. exact E. Qed.

(** Nothing is lost on the way: the nodes are spare or still on their way, and
    what they referred to is given up. *)
Definition del_all_post (pre scan : list Vstr_node) (s : St) (num : nat) (s' : St) : Prop := ∃ t' pre', num = length pre' ∧
  pending t' pre' [] s' ∧ unlinked s s' ∧ b_num (s_base s') = b_num (s_base s) ∧ zlen pre' ≤ b_num (s_base s) ∧
  (nd_addr <$> pre') ++ spares (s_conf s') ≡ₚ (nd_addr <$> pre ++ scan) ++ spares (s_conf s) ∧
  given_up scan (s_heap s) (s_heap s').
Lemma vstr__del_all_loop_spec scan : ∀ pre t s,
  pending t pre scan s → zlen (pre ++ scan) ≤ b_num (s_base s) ≤ UINT_MAX →
  wp (vstr__del_all_loop scan (length pre) t) s (del_all_post pre scan s).
Proof.
  induction scan as [|nd scan IH]; intros pre t s Hp Hnum; cbn [vstr__del_all_loop].
  - wp_steps. exists t, pre. rewrite app_nil_r in *. split_and!; [done|done|apply unlinked_refl|done|lia|done|apply given_up_nil].
  - rewrite length_app in Hnum. cbn in Hnum.
    assert (Hgo : ∀ pre1 t1 s1, pending t1 pre1 (nd :: scan) s1 → unlinked s s1 → nd_type nd = t1 →
      b_num (s_base s1) = b_num (s_base s) → zlen pre1 ≤ zlen pre → s_heap s1 = s_heap s →
      (nd_addr <$> pre1) ++ spares (s_conf s1) ≡ₚ (nd_addr <$> pre) ++ spares (s_conf s) →
      wp (vstr__del_node nd;; vstr__del_all_loop scan (S (length pre1)) t1) s1 (del_all_post pre (nd :: scan) s)).
    { intros pre1 t1 s1 Hp1 Hu1 Ht1 Hn1 Hle Eh1 Eo1. wp_step. wp_apply pending_del_node; [exact Hp1|exact Ht1|].
      intros _ s2 (Hp2&[Hc2 Hb2]&_&He2&Hg2).
      replace (S (length pre1)) with (length (pre1 ++ [nd])) by (rewrite length_app; cbn; lia).
      wp_apply IH; [exact Hp2| |].
      - rewrite Hb2, Hn1, !length_app. cbn. lia.
      - intros num s3 (t'&pre'&->&Hp3&Hu3&Hn3&Hl3&Eo3&Hg3). exists t', pre'. rewrite Hn3, Hb2, Hn1 in *.
        split_and!; [done|done| |done|lia| |].
        + eapply unlinked_trans; [exact Hu1|]. eapply unlinked_trans; [by apply only_heap_unlinked|done].
        + rewrite Eo3, Hc2, !fmap_app. cbn [fmap list_fmap]. rewrite <- !app_assoc. cbn [app].
          rewrite <- !Permutation_middle. f_equiv. rewrite (Permutation_app_comm (nd_addr <$> scan) (spares (s_conf s1))), app_assoc, Eo1.
          rewrite <- app_assoc. f_equiv. apply Permutation_app_comm.
        + rewrite Eh1 in *. by apply (given_up_trans [nd]) with (h1 := s_heap s2). }
    wp_step. case_decide as Ht.
    + wp_steps. apply wp_unbind, Hgo; [done|apply unlinked_refl|done|done|lia|done|done].
    + wp_step. wp_apply (del_beg_restart_spec false); [exact Hp|lia|].
      intros t1 s1 (->&Hp1&Hu1&Eh1&Ec1&Hn1). wp_steps.
      apply wp_unbind, (Hgo [] (nd_type nd) s1); [done|done|done|done|cbn; lia|done|by rewrite Ec1, spares_push].
Qed.

End others.
