(* ===== verification/DelSpec.v ===== *)
(** * Deleting from the beginning and deleting everything.

    Deleting from the middle or the end of a string. *)
From Stdlib Require Import ZArith Lia ZifyBool.
From stdpp Require Import base tactics list numbers option gmap.
From S2P Require Import Prelude State Wp Ref Cache Core Del Inv PosLemmas SpareLemmas SplitLemmas CacheLemmas AddLemmas StringLemmas AddSpec BaseTheorems DelLemmas.

Section others.
Context {OT : Others}.

Lemma vstr__cache_del_spec q len s :
  wf_upto (q - 1) s →
  wp (vstr__cache_del q len) s (λ _ s', wf s' ∧ s_heap s' = s_heap s ∧ s_conf s' = s_conf s ∧
    b_nodes (s_base s') = b_nodes (s_base s) ∧ b_used (s_base s') = b_used (s_base s) ∧
    b_len (s_base s') = b_len (s_base s)).
Proof.
  intros [H HB HP HA HV]. wp_apply vstr__cache_run_spec; [done..|]. intros _ s' (cs&ci&->).
  destruct s as [h c [ns bl bn used iu ca ic f1 f2 f3 f4 gc [p v cs0]]]. cbn in *.
  split; [|done]. split; cbn; [done| |].
  - destruct HB. split; done.
  - split; cbn; [|by destruct ca, p; cbn in *; eauto; unfold vstr__cache_pos_cb; repeat case_match|done].
    intros data. unfold cache_get_pos in *. cbn in *. destruct ca; [|done]. cbn.
    destruct p as [p|]; [|done]. cbn. unfold vstr__cache_pos_cb. cbn.
    rewrite decide_False by done. destruct (cp_node p) as [a|] eqn:Ea.
    + rewrite (decide_False (P := CACHE_DEL = CACHE_ADD ∧ _)) by intuition congruence.
      case_decide as Hd; [intros [= <-]; apply HP; [done|lia]|].
      rewrite !decide_False by intuition congruence. by intros [= <-].
    + intros [= <-]. unfold pos_data_ok. by rewrite Ea.
Qed.

Lemma pos_data_ge ns used data :
  lens_pos ns → pos_data_ok ns used data → cp_node data ≠ None →
  (∀ nd, head ns = Some nd → used < nd_len nd) → 1 ≤ cp_pos data.
Proof.
  intros Hp Hd Hn Hu. unfold pos_data_ok in Hd. destruct (cp_node data) as [a|]; [|done].
  destruct Hd as (i&nd&Hi&_&Hs&H0). destruct i as [|i].
  - rewrite take_0 in Hs. cbn in Hs. rewrite H0 in Hs by done. lia.
  - destruct ns as [|x ns]; [done|]. specialize (Hu x eq_refl). cbn in Hs.
    apply Forall_cons in Hp as [_ Hp]. pose proof (sum_len_nonneg _ (lens_pos_take _ i Hp)). lia.
Qed.
(** No remembered position survives a change at the start of the string. *)
Lemma wf_upto_0 s s' :
  wf s → heap_inv (s_heap s') (s_conf s') (b_nodes (s_base s')) → base_inv (s_base s') →
  vec_ok (s_base s') → cache_get_pos (s_base s') = cache_get_pos (s_base s) →
  cache_available (s_base s') = cache_available (s_base s) →
  c_pos (b_cache (s_base s')) = c_pos (b_cache (s_base s)) → wf_upto 0 s'.
Proof.
  intros Hw H HB HV E1 E2 E3. split; [done|done| |by rewrite E2, E3; apply (wf_cache _ Hw)|done].
  intros data Hd Hle. rewrite E1 in Hd. pose proof (ci_pos _ (wf_cache _ Hw) _ Hd) as Hok.
  destruct (cp_node data) as [a|] eqn:Ea; [|unfold pos_data_ok; by rewrite Ea].
  pose proof (pos_data_ge _ _ _ (wf_lens _ Hw) Hok ltac:(by rewrite Ea)) as Hge.
  assert (1 ≤ cp_pos data); [|lia]. apply Hge. intros nd Hnd.
  apply (wf_used_first s nd Hw). by rewrite <- head_lookup.
Qed.

(** ** Deleting everything *)
Record deleted (s : St) (keep : list byte_or_non) (s' : St) : Prop := {
  dl_wf : wf s';
  dl_content : st_content s' = keep;
  dl_conf : conf_same (s_conf s) (s_conf s');
  dl_malloc : malloc_bad (s_conf s') = malloc_bad (s_conf s);
  dl_env : del_env (s_heap s) (s_heap s') }.

(** All nodes are gone, and the caches were not told yet. *)
Record emptied (s s' : St) : Prop := {
  em_nodes : b_nodes (s_base s') = [];
  em_used : b_used (s_base s') = 0;
  em_len : b_len (s_base s') = 0;
  em_num : b_num (s_base s') = 0;
  em_get_pos : cache_get_pos (s_base s') = cache_get_pos (s_base s);
  em_avail : cache_available (s_base s') = cache_available (s_base s);
  em_pos : c_pos (b_cache (s_base s')) = c_pos (b_cache (s_base s));
  em_cstr : c_cstr (b_cache (s_base s')) = c_cstr (b_cache (s_base s));
  em_grpalloc : grpalloc_cache (s_base s') = grpalloc_cache (s_base s);
  em_heap : heap_inv (s_heap s') (s_conf s') [];
  em_vec : vec_ok (s_base s');
  em_conf : conf_same (s_conf s) (s_conf s');
  em_malloc : malloc_bad (s_conf s') = malloc_bad (s_conf s);
  em_env : del_env (s_heap s) (s_heap s');
  em_spares : spares (s_conf s') ≡ₚ own (s_conf s) (b_nodes (s_base s));
  em_given : given_up (b_nodes (s_base s)) (s_heap s) (s_heap s') }.

Lemma vstr__del_all_emptied s Q :
  heap_inv (s_heap s) (s_conf s) (b_nodes (s_base s)) → base_inv (s_base s) → vec_ok (s_base s) →
  b_nodes (s_base s) ≠ [] →
  (∀ s4, emptied s s4 → wp (vstr__cache_del 1 (b_len (s_base s))) s4 Q) → wp vstr__del_all s Q.
Proof.
  intros H HB HV Hne HQ. unfold vstr__del_all. wp_step. apply wp_gets. wp_step.
  destruct (b_nodes (s_base s)) as [|beg ns] eqn:En; [done|]. eapply wp_of_option; [done|]. cbn beta.
  wp_step. apply wp_modify. wp_step. set (s0 := on_base (b_set_len 0) s).
  assert (Hp0 : pending (nd_type beg) [] (beg :: ns) s0).
  { split; [|done| |].
    - unfold s0. cbn. rewrite <- En. by destruct (s_base s).
    - change (nd_addr <$> []) with (@nil positive). rewrite push_spare_nil. unfold s0. cbn. exact H.
    - unfold s0. by apply vec_ok_set_len. }
  assert (Hn1 : zlen (beg :: ns) ≤ UINT_MAX).
  { pose proof (hi_total_all _ _ _ H) as Ht. unfold own in Ht. rewrite !length_app, !length_fmap in Ht.
    pose proof o_num_nonneg. lia. }
  assert (E0 : b_num (s_base s0) = b_num (s_base s)) by (unfold s0; cbn; by destruct (s_base s)).
  wp_apply (vstr__del_all_loop_spec (beg :: ns) [] (nd_type beg) s0); [exact Hp0|cbn [app]; rewrite E0, (bi_num _ HB), En; lia|].
  intros num s1 (t'&pre&->&Hp1&Hu1&Hn2&Hl1&Eo1&Hg1). wp_step.
  pose proof (bi_num _ HB) as Hbn. rewrite En in Hbn.
  wp_apply vstr__del_beg_cleanup_spec; [exact Hp1|lia|].
  intros _ s2 Hcl. pose proof (unlinked_trans _ _ _ Hu1 (cleaned_unlinked _ _ _ _ _ _ Hcl)) as Hu2.
  destruct Hcl as [Eh Ec (u&v&Eb) Hv2]. pose proof (pd_heap _ _ _ _ Hp1) as HI. rewrite <- Ec, <- Eh in HI.
  wp_step. apply wp_modify. wp_step. apply wp_modify. set (s3 := on_base _ (on_base _ s2)). wp_step.
  assert (Hv3 : vec_ok (s_base s3)).
  { unfold s3. cbn [s_base on_base]. by destruct (s_base s2). }
  wp_apply vstr__cache_iovec_reset_step; [exact Hv3|]. intros _ s4 Hvs.
  pose proof (vec_step_ok _ _ Hvs) as Hv4. destruct Hvs as (u4&v4&E4&_).
  destruct Hu2 as [C2 M2 V2 (ns2&n2&u2&v2&B2)].
  assert (En2 : b_nodes (s_base s2) = []) by (rewrite Eb; apply unlinked_base_fields).
  assert (Eh4 : s_heap s4 = s_heap s2) by by rewrite E4. assert (Ec4 : s_conf s4 = s_conf s2) by by rewrite E4.
  assert (Eo4 : spares (s_conf s4) ≡ₚ own (s_conf s) (b_nodes (s_base s))) by (rewrite Ec4, Ec, spares_push, Eo1, En; done).
  assert (Hg4 : given_up (b_nodes (s_base s)) (s_heap s) (s_heap s4)) by (rewrite Eh4, Eh, En; exact Hg1).
  apply HQ. rewrite B2 in En2. rewrite Ec4 in Eo4. rewrite Eh4 in Hg4.
  split; rewrite ?Eh4, ?Ec4; try done; rewrite E4; unfold s3; cbn [s_base on_base]; rewrite B2; unfold s0 in *;
    cbn [s_base on_base] in *; destruct (s_base s) as [? ? ? ? ? ? ? ? ? ? ? ? []]; cbn in *; by rewrite ?En2.
Qed.

Lemma vstr__del_all_spec s :
  wf s → b_nodes (s_base s) ≠ [] → wp vstr__del_all s (λ _ s', deleted s [] s').
Proof.
  intros Hw Hne. apply vstr__del_all_emptied; [apply Hw|apply Hw|apply (ci_vec _ (wf_cache _ Hw))|done|].
  intros s4 [F1 F2 F3 F4 F5 F6 F7 _ _ H4 V4 C4 M4 E4 _ _].
  assert (HW4 : wf_upto (1 - 1) s4) by (apply (wf_upto_0 s); try done; [by rewrite F1|by apply base_inv_empty]).
  wp_apply vstr__cache_del_spec; [exact HW4|]. intros _ s5 (Hw5&Eh5&Ec5&En5&Eu5&El5).
  split; [done| |by rewrite Ec5|by rewrite Ec5|by rewrite Eh5].
  unfold st_content, content. rewrite En5, F1, chain_bytes_nil. unfold zdrop. by rewrite drop_nil.
Qed.

(** ** Deleting from the beginning *)

(** Fields that the loop over the first nodes leaves alone, up to [used] *)
Definition begun_base (ns : list Vstr_node) (n used : Z) (u : bool) (v : option cache_data_iovec)
    (b : Vstr_base) : Vstr_base := b_set_used used (unlinked_base ns n u v b).
Record begun (s : St) (scan : list Vstr_node) (len : Z) (num : nat) (len' : Z) (s' : St) : Prop := {
  bg_pending : ∃ t pre scan', num = length pre ∧ pending t pre scan' s' ∧ scan' ≠ [] ∧
    b_num (s_base s') = zlen (pre ++ scan') ∧
    zdrop (b_used (s_base s')) (chain_bytes (s_heap s') scan') = zdrop len (chain_bytes (s_heap s) scan) ∧
    sum_len scan' - b_used (s_base s') = sum_len scan - len ∧
    (b_used (s_base s') = 0 ∨ ∃ beg, head scan' = Some beg ∧ nd_type beg = NODE_BUF ∧
       0 < b_used (s_base s') < nd_len beg) ∧
    (∀ nd, nd ∈ scan' → ∃ nd0, nd0 ∈ scan ∧ nd_type nd0 = nd_type nd);
  bg_conf : conf_same (s_conf s) (s_conf s');
  bg_malloc : malloc_bad (s_conf s') = malloc_bad (s_conf s);
  bg_env : del_env (s_heap s) (s_heap s');
  bg_base : ∃ ns n used u v, s_base s' = begun_base ns n used u v (s_base s) }.

Lemma begun_cons s s1 nd scan len num len' s' :
  begun s1 scan (len - nd_len nd) num len' s' → unlinked s s1 →
  zlen (node_bytes (s_heap s) nd) = nd_len nd → nd_len nd ≤ len →
  chain_bytes (s_heap s1) scan = chain_bytes (s_heap s) scan →
  begun s (nd :: scan) len num len' s'.
Proof.
  intros [(t&pre&scan'&En&Hp&Hne&Hn&Hb&Hs&Hu&Ht) C M E (ns&n&us&u&v&B)] [C1 M1 E1 (ns1&n1&u1&v1&B1)] Hz Hle Hby.
  split.
  - exists t, pre, scan'. split_and!; try done.
    + rewrite Hb, Hby, chain_bytes_cons, zdrop_app_r by lia. by rewrite Hz.
    + cbn. lia.
    + intros x Hx. destruct (Ht x Hx) as (x0&?&?). exists x0. split; [by right|done].
  - by eapply conf_same_trans.
  - congruence.
  - by eapply del_env_trans.
  - exists ns, n, us, u, v. rewrite B, B1. by destruct s as [h c [? ? ? ? ? ? ? ? ? ? ? ? []]].
Qed.

(** The node that keeps some of its bytes *)
Lemma node_drop_spec h bsz nd len :
  node_ok h bsz nd → 0 < len < nd_len nd → nd_type nd ≠ NODE_BUF →
  node_drop len nd = mkNode (nd_addr nd) (nd_len nd - len) (body_drop len (nd_body nd)).
Proof.
  destruct nd as [a l body]. unfold node_ok, node_drop. intros [Hl Hok] Hlen Hty. cbn in *.
  rewrite u28_id by (unfold VSTR_MAX_NODE_ALL in *; lia).
  destruct body as [| |p|r off]; cbn in *; try done. destruct Hok as (?&?&_).
  by rewrite u32_id by (unfold UINT_MAX in *; lia).
Qed.
Lemma node_drop_ok h c l1 nd l2 len :
  heap_inv h c (l1 ++ nd :: l2) → 0 < len < nd_len nd → nd_type nd ≠ NODE_BUF →
  heap_inv h c (l1 ++ node_drop len nd :: l2) ∧
  node_bytes h (node_drop len nd) = zdrop len (node_bytes h nd) ∧
  nd_len (node_drop len nd) = nd_len nd - len ∧ nd_type (node_drop len nd) = nd_type nd.
Proof.
  intros H Hlen Hty. pose proof (hi_nodes _ _ _ H) as Hn. rewrite Forall_app, Forall_cons in Hn.
  destruct Hn as (_&Hok&_).
  destruct (node_bytes_suffix _ _ _ (nd_addr nd) len Hok Hty ltac:(lia)) as [Hok' Hby].
  rewrite <- (node_drop_spec _ _ _ _ Hok Hlen Hty) in Hok', Hby. split_and!.
  - eapply heap_inv_node; [exact H|done|done| |].
    + pose proof (heap_inv_ext _ _ _ nd H ltac:(rewrite elem_of_app, elem_of_cons; tauto)) as Hx.
      rewrite (node_drop_spec _ _ _ _ Hok Hlen Hty). intros p Hp.
      assert (∃ q, node_ext (h_refs h) nd = Some q ∧ p_blk p = p_blk q) as (q&Hq&->).
      { destruct nd as [a l [| |q|r off]]; try done; cbn in *.
        - injection Hp as <-. by eexists.
        - destruct (h_refs h !! r); [|done]. injection Hp as <-. by eexists. }
      assert (Href : node_ref_of (mkNode (nd_addr nd) (nd_len nd - len) (body_drop len (nd_body nd))) =
        node_ref_of nd) by by destruct nd as [a l []].
      rewrite Href. by apply Hx.
    + rewrite (node_drop_spec _ _ _ _ Hok Hlen Hty). by destruct nd as [a l []].
  - done.
  - by rewrite (node_drop_spec _ _ _ _ Hok Hlen Hty).
  - rewrite (node_drop_spec _ _ _ _ Hok Hlen Hty). by destruct nd as [a l []].
Qed.

Lemma begun_stop s scan len num s' t pre :
  pending t pre scan s' → scan ≠ [] → num = length pre → b_num (s_base s') = zlen (pre ++ scan) →
  len = 0 → b_used (s_base s') = 0 → unlinked s s' → chain_bytes (s_heap s') scan = chain_bytes (s_heap s) scan →
  begun s scan len num 0 s'.
Proof.
  intros Hp Hne -> Hn -> Hu [C M E (ns&n&u&v&B)] Hby. split; try done.
  - exists t, pre, scan. rewrite Hu. split_and!; try done; [by left|by eauto].
  - exists ns, n, 0, u, v. unfold begun_base. rewrite B in Hu |- *.
    destruct s as [h c [? ? ? ? ? ? ? ? ? ? ? ? []]]. cbn in *. by rewrite Hu.
Qed.

(** The loop stops inside node [nd]. *)
Lemma del_beg_partial s t pre nd scan len :
  pending t pre (nd :: scan) s → nd_type nd = t → 0 < len < nd_len nd → b_used (s_base s) = 0 →
  b_num (s_base s) = zlen (pre ++ nd :: scan) →
  wp ((if decide (nd_type nd = NODE_BUF) then upd_base (b_set_used (u16 len))
       else upd_node (length pre) (node_drop len));; mret (length pre, len)) s
     (λ '(num, len') s', begun s (nd :: scan) len num len' s').
Proof.
  intros Hp Ht Hlen Hu Hn. pose proof Hp as [En Hts H Hv].
  pose proof (hi_nodes _ _ _ H) as Hok. apply Forall_cons in Hok as [Hok Hok2].
  pose proof (node_bytes_length _ _ _ Hok) as Hz.
  case_decide as Hbuf.
  - wp_steps. assert (Hlb : len < 65536).
    { destruct nd as [a l []]; try done. destruct Hok as [_ [Hl _]]. cbn in *.
      pose proof (hi_bsz _ _ _ H). unfold VSTR_MAX_NODE_BUF in *. lia. }
    rewrite u16_id by lia. set (s' := on_base _ s).
    assert (E : b_nodes (s_base s') = b_nodes (s_base s) ∧ b_used (s_base s') = len ∧
      b_num (s_base s') = b_num (s_base s)) by (unfold s'; cbn; by destruct (s_base s)).
    destruct E as (E1&E2&E3). split; try done; [|apply del_env_refl|].
    + exists t, pre, (nd :: scan). rewrite E2, E3. split_and!; try done.
      * split; [by rewrite E1|done|done|]. unfold s', vec_ok in *. cbn. by destruct (s_base s).
      * right. exists nd. split_and!; [done|done|lia|lia].
      * by eauto.
    + exists (b_nodes (s_base s)), (b_num (s_base s)), len, (iovec_upto_date (s_base s)), (c_vec (b_cache (s_base s))).
      unfold s'. cbn. by destruct s as [h c [? ? ? ? ? ? ? ? ? ? ? ? []]].
  - unfold upd_node, node_at. wp_steps.
    assert (Hi : b_nodes (s_base s) !! length pre = Some nd) by (rewrite En, lookup_app_r, Nat.sub_diag by lia; done).
    eapply wp_of_option; [exact Hi|]. cbn beta. wp_steps. set (s' := on_base _ s).
    assert (E : b_nodes (s_base s') = pre ++ node_drop len nd :: scan ∧ b_used (s_base s') = 0 ∧
      b_num (s_base s') = b_num (s_base s)).
    { unfold s'. cbn. rewrite En, insert_app_r_alt, Nat.sub_diag by lia. cbn. by destruct (s_base s). }
    destruct E as (E1&E2&E3).
    destruct (node_drop_ok _ _ [] nd scan len H Hlen Hbuf) as (H'&Hby&Hl'&Hty'). cbn [app] in H'.
    split; try done; [|apply del_env_refl|].
    + exists t, pre, (node_drop len nd :: scan). rewrite E2, E3. split_and!; try done.
      * split; [done|done|exact H'|]. unfold s'. cbn. by apply vec_ok_set_nodes.
      * rewrite Hn, !length_app. cbn. lia.
      * change (s_heap s') with (s_heap s). rewrite !chain_bytes_cons, Hby, zdrop_0 by lia.
        by rewrite zdrop_app_l by lia.
      * cbn [sum_len]. rewrite Hl'. lia.
      * by left.
      * intros x [->|Hx]%elem_of_cons; [exists nd; split; [by left|done]|exists x; split; [by right|done]].
    + exists (pre ++ node_drop len nd :: scan), (b_num (s_base s)), 0, (iovec_upto_date (s_base s)), (c_vec (b_cache (s_base s))).
      unfold s'. cbn. rewrite En, insert_app_r_alt, Nat.sub_diag by lia. cbn.
      destruct s as [h c [? ? ? ? ? ? ? ? ? ? ? ? []]]. cbn in *. by rewrite Hu.
Qed.

Lemma vstr__del_beg_loop_spec scan : ∀ pre t len s,
  pending t pre scan s → 0 ≤ len < sum_len scan → b_used (s_base s) = 0 →
  b_num (s_base s) = zlen (pre ++ scan) → zlen (pre ++ scan) ≤ UINT_MAX →
  wp (vstr__del_beg_loop scan (length pre) t len) s (λ '(num, len') s', begun s scan len num len' s').
Proof.
  induction scan as [|nd scan IH]; intros pre t len s Hp Hlen Hu Hn Hmax; [cbn in Hlen; lia|].
  cbn [vstr__del_beg_loop]. case_decide as Hz.
  - wp_steps. assert (len = 0) as -> by lia.
    by eapply begun_stop; [exact Hp|done|done|done|done|done|apply unlinked_refl|].
  - assert (Hgo : ∀ pre1 t1 s1, pending t1 pre1 (nd :: scan) s1 → unlinked s s1 → nd_type nd = t1 →
      s_heap s1 = s_heap s → b_num (s_base s1) = zlen (pre1 ++ nd :: scan) → zlen pre1 ≤ zlen pre →
      wp (if decide (len < nd_len nd) then
            (if decide (nd_type nd = NODE_BUF) then upd_base (b_set_used (u16 len))
             else upd_node (length pre1) (node_drop len));; mret (length pre1, len)
          else vstr__del_node nd;; vstr__del_beg_loop scan (S (length pre1)) t1 (len - nd_len nd)) s1
        (λ '(num, len') s', begun s (nd :: scan) len num len' s')).
    { intros pre1 t1 s1 Hp1 Hu1 Ht1 Eh1 Hn1 Hle.
      assert (Hus1 : b_used (s_base s1) = 0).
      { destruct (ul_base _ _ Hu1) as (?&?&?&?&->). by destruct s as [h c [? ? ? ? ? ? ? ? ? ? ? ? []]]. }
      case_decide as Hpart.
      - eapply wp_mono; [apply (del_beg_partial s1 t1 pre1 nd scan len Hp1 Ht1); (done || lia)|].
        intros [num len'] s2 [HP C M E (ns&n&us&u&v&B)]. cbn beta iota.
        destruct Hu1 as [C1 M1 E1 (ns1&n1&u1&v1&B1)]. rewrite Eh1 in HP.
        split; [exact HP|by eapply conf_same_trans|congruence|by eapply del_env_trans|].
        exists ns, n, us, u, v. rewrite B, B1. by destruct s as [h c [? ? ? ? ? ? ? ? ? ? ? ? []]].
      - wp_step. wp_apply pending_del_node; [exact Hp1|exact Ht1|].
        intros _ s2 (Hp2&Ho2&Hby&He2&_). pose proof Ho2 as [Hc2 Hb2].
        replace (S (length pre1)) with (length (pre1 ++ [nd])) by (rewrite length_app; cbn; lia).
        cbn [sum_len] in Hlen. rewrite length_app in Hmax, Hn1. cbn [length] in Hmax, Hn1.
        wp_apply (IH (pre1 ++ [nd]) t1 (len - nd_len nd) s2); [exact Hp2|lia|by rewrite Hb2|..].
        + rewrite Hb2, Hn1, !length_app. cbn. lia.
        + rewrite !length_app. cbn. lia.
        + intros [num len'] s3 HB. eapply (begun_cons s s2); [exact HB| | |lia|by rewrite Hby, Eh1].
          * eapply unlinked_trans; [exact Hu1|by apply only_heap_unlinked].
          * pose proof (hi_nodes _ _ _ (pd_heap _ _ _ _ Hp1)) as Hok. rewrite Eh1 in Hok.
            apply Forall_cons in Hok as [Hok _]. by eapply node_bytes_length. }
    wp_step. destruct (decide (nd_type nd = t)) as [Ht|Ht].
    + apply wp_ret. cbn beta iota. apply (Hgo pre t s); try done. apply unlinked_refl.
    + wp_step. rewrite length_app in Hmax. wp_apply (del_beg_restart_spec true); [exact Hp| |].
      { rewrite Hn, length_app. lia. }
      intros t1 s1 (->&Hp1&Hu1&Eh1&_&Hn1). wp_steps. apply (Hgo [] (nd_type nd) s1); try done.
      * rewrite Hn1, Hn, length_app. cbn [app]. lia.
      * cbn. lia.
Qed.

(** From the end of the loop to the end of the function *)
Lemma del_beg_finish s s1 scan l num len s2 orig :
  wf s → begun s1 scan l num len s2 →
  conf_same (s_conf s) (s_conf s1) → malloc_bad (s_conf s1) = malloc_bad (s_conf s) →
  del_env (s_heap s) (s_heap s1) →
  b_len (s_base s1) = sum_len scan - l →
  (∀ nd, nd ∈ scan → node_used (nd_type nd) (s_base s1) = true) →
  cache_get_pos (s_base s1) = cache_get_pos (s_base s) →
  cache_available (s_base s1) = cache_available (s_base s) →
  c_pos (b_cache (s_base s1)) = c_pos (b_cache (s_base s)) →
  wp (vstr__del_beg_cleanup num true;;
      (if decide (len ≠ 0) then beg ← node_at 0; vstr__cache_iovec_del_node_beg beg 1 len else mret tt);;
      vstr__cache_del 1 orig) s2
    (λ _ s', deleted s (zdrop l (chain_bytes (s_heap s1) scan)) s').
Proof.
  intros Hw [(t&pre&scan'&->&Hp&Hne&Hn&Hby&Hsum&Hor&Hty) C M E (ns&n&us&u&v&B)] C0 M0 E0 Hlen Hfl G1 G2 G3.
  assert (Hmax : zlen pre + zlen scan' ≤ UINT_MAX).
  { pose proof (hi_total _ _ _ (pd_heap _ _ _ _ Hp)) as Ht. rewrite own_push_spare in Ht. unfold own in Ht.
    rewrite !length_app, !length_fmap in Ht. lia. }
  wp_step. wp_apply vstr__del_beg_cleanup_spec; [exact Hp|rewrite Hn, length_app in *; lia|].
  intros _ s3 [Eh3 Ec3 (u3&v3&Eb3) Hv3]. pose proof (pd_heap _ _ _ _ Hp) as HI. rewrite <- Ec3, <- Eh3 in HI.
  destruct (unlinked_base_fields scan' (b_num (s_base s2) - zlen pre) u3 v3 (s_base s2)) as [En3 Em3].
  rewrite <- Eb3 in En3, Em3.
  assert (HF3 : b_used (s_base s3) = b_used (s_base s2) ∧ b_len (s_base s3) = b_len (s_base s1) ∧
    cache_get_pos (s_base s3) = cache_get_pos (s_base s1) ∧
    cache_available (s_base s3) = cache_available (s_base s1) ∧
    c_pos (b_cache (s_base s3)) = c_pos (b_cache (s_base s1)) ∧
    (∀ ty, node_used ty (s_base s1) = true → node_used ty (s_base s3) = true)).
  { rewrite Eb3, B. destruct (s_base s1) as [? ? ? ? ? ? ? ? ? ? ? ? []]. by split_and!. }
  destruct HF3 as (F1&F2&F3&F4&F5&F6).
  assert (HB3 : base_inv (s_base s3)).
  { split; rewrite ?En3, ?Em3, ?F1, ?F2.
    - destruct Hor as [|(bg&Hb&?&?)]; [by left|right; by exists bg].
    - lia.
    - by eapply heap_inv_size.
    - rewrite Hn, length_app. lia.
    - intros nd Hnd. destruct (Hty nd Hnd) as (nd0&Hin&<-). by apply F6, Hfl. }
  wp_step.
  assert (Hvec : ∀ s4, vec_step s3 s4 → wp (vstr__cache_del 1 orig) s4
    (λ _ s', deleted s (zdrop l (chain_bytes (s_heap s1) scan)) s')).
  { intros s4 Hvs. pose proof (vec_step_ok _ _ Hvs) as Hv4. destruct Hvs as (u4&v4&E4&_).
    assert (HF4 : b_nodes (s_base s4) = scan' ∧ b_used (s_base s4) = b_used (s_base s2) ∧
      cache_get_pos (s_base s4) = cache_get_pos (s_base s) ∧
      cache_available (s_base s4) = cache_available (s_base s) ∧
      c_pos (b_cache (s_base s4)) = c_pos (b_cache (s_base s)) ∧ base_inv (s_base s4)).
    { rewrite <- G1, <- G2, <- G3, <- F3, <- F4, <- F5, <- F1, <- En3.
      rewrite E4. destruct s3 as [h3 c3 [? ? ? ? ? ? ? ? ? ? ? ? []]]. split_and!; try done.
      destruct HB3. by split. }
    destruct HF4 as (J1&J2&J3&J4&J5&J6).
    assert (Eh4 : s_heap s4 = s_heap s3) by by rewrite E4. assert (Ec4 : s_conf s4 = s_conf s3) by by rewrite E4.
    assert (HW4 : wf_upto (1 - 1) s4).
    { apply (wf_upto_0 s); try done. by rewrite J1, Eh4, Ec4. }
    wp_apply vstr__cache_del_spec; [exact HW4|]. intros _ s5 (Hw5&Eh5&Ec5&En5&Eu5&El5).
    assert (CM : conf_same (s_conf s2) (s_conf s3) ∧ malloc_bad (s_conf s3) = malloc_bad (s_conf s2)).
    { rewrite Ec3. split; [apply conf_same_set_spare|by destruct (s_conf s2), t]. }
    destruct CM as [C3 M3]. split; [done| | | |]; rewrite ?Eh5, ?Ec5, ?Eh4, ?Ec4, ?Eh3.
    - unfold st_content, content. by rewrite En5, Eu5, J1, J2, Eh5, Eh4, Eh3.
    - eapply conf_same_trans; [exact C0|]. by eapply conf_same_trans.
    - congruence.
    - by eapply del_env_trans. }
  case_decide as Hz.
  - unfold node_at. wp_steps. rewrite En3. destruct scan' as [|x scan']; [done|].
    eapply wp_of_option; [done|]. cbn beta.
    wp_apply vstr__cache_iovec_del_node_beg_step; [exact Hv3|]. intros _ s4 Hvs. by apply Hvec.
  - wp_steps. apply Hvec. by apply vec_step_refl.
Qed.

Lemma vstr__del_beg_spec s len :
  wf s → 0 < len < b_len (s_base s) →
  wp (vstr__del_beg len) s (λ _ s', deleted s (zdrop len (st_content s)) s').
Proof.
  intros Hw Hlen. pose proof Hw as [H HB HC]. pose proof (wf_lens _ Hw) as Hlp.
  pose proof (wf_used_nonneg _ Hw) as Hu0. destruct (wf_num_le _ Hw) as (Hnum&Hle1&Hle2).
  pose proof (bi_len _ HB) as Hbl. pose proof (bi_size _ HB) as Hsz. unfold vstr__del_beg. wp_step. apply wp_gets. wp_step.
  destruct (b_nodes (s_base s)) as [|beg ns] eqn:En; [cbn in Hbl; lia|].
  eapply wp_of_option; [done|]. cbn beta. wp_step. apply wp_modify.
  rewrite u64_id by (cbn in Hbl, Hsz; lia). set (s0 := on_base (b_set_len _) s).
  assert (HF0 : b_nodes (s_base s0) = beg :: ns ∧ b_used (s_base s0) = b_used (s_base s) ∧
    b_len (s_base s0) = b_len (s_base s) - len ∧ b_num (s_base s0) = b_num (s_base s)).
  { unfold s0. cbn. rewrite <- En. by destruct (s_base s). }
  assert (Hfl : ∀ nd, nd ∈ beg :: ns → node_used (nd_type nd) (s_base s) = true).
  { rewrite <- En. apply (bi_flags _ HB). }
  assert (Hbuf : b_used (s_base s) ≠ 0 → nd_type beg = NODE_BUF ∧ 0 < b_used (s_base s) < nd_len beg ∧ nd_len beg < 65536).
  { intros Hu. destruct (bi_used _ HB) as [|(bg&Hb&?&?)]; [done|]. rewrite En in Hb. injection Hb as <-.
    pose proof (hi_nodes _ _ _ H) as Hok. apply Forall_cons in Hok as [Hok _].
    split_and!; try done; [lia|lia|]. destruct beg as [a l []]; try done. destruct Hok as [_ [Hl _]].
    pose proof (hi_bsz _ _ _ H). unfold VSTR_MAX_NODE_BUF in *. cbn in *. lia. }
  assert (Hch : zlen (node_bytes (s_heap s) beg) = nd_len beg).
  { pose proof (hi_nodes _ _ _ H) as Hok. apply Forall_cons in Hok as [Hok _].
    by eapply node_bytes_length. }
  assert (Hcont : zdrop len (st_content s) = zdrop (b_used (s_base s) + len) (node_bytes (s_heap s) beg ++ chain_bytes (s_heap s) ns)).
  { unfold st_content, content. rewrite En, zdrop_zdrop by lia. done. }
  case_decide as Hin.
  - destruct (Hbuf ltac:(tauto)) as (Hty&Hub&Hl). rewrite u16_id by lia. wp_step. apply wp_modify.
    set (s1 := on_base _ s0). wp_step.
    assert (Hv1 : vec_ok (s_base s1)).
    { unfold s1, s0, vec_ok. cbn. pose proof (ci_vec _ HC). by destruct (s_base s). }
    wp_apply vstr__cache_iovec_del_node_beg_step; [exact Hv1|]. intros _ s2 Hvs.
    pose proof (vec_step_ok _ _ Hvs) as Hv2. destruct Hvs as (u&v&E2&_).
    assert (HF2 : b_nodes (s_base s2) = beg :: ns ∧ b_used (s_base s2) = b_used (s_base s) + len ∧
      cache_get_pos (s_base s2) = cache_get_pos (s_base s) ∧
      cache_available (s_base s2) = cache_available (s_base s) ∧
      c_pos (b_cache (s_base s2)) = c_pos (b_cache (s_base s)) ∧
      b_len (s_base s2) = b_len (s_base s) - len ∧ b_num (s_base s2) = b_num (s_base s) ∧
      (∀ ty, node_used ty (s_base s2) = node_used ty (s_base s))).
    { rewrite E2. unfold s1, s0. cbn. rewrite <- En. destruct (s_base s) as [? ? ? ? ? ? ? ? ? ? ? ? []]. by split_and!. }
    destruct HF2 as (F1&F2&F3&F4&F5&F6&F7&F8).
    assert (Eh2 : s_heap s2 = s_heap s ∧ s_conf s2 = s_conf s) by by rewrite E2.
    destruct Eh2 as [Eh2 Ec2].
    assert (HW2 : wf_upto (1 - 1) s2).
    { apply (wf_upto_0 s); try done; [by rewrite F1, Eh2, Ec2|]. split; rewrite ?F1, ?F2, ?F6, ?F7.
      - right. exists beg. split_and!; [done|done|lia|lia].
      - lia.
      - done.
      - done.
      - intros nd Hnd. rewrite F8. by apply Hfl. }
    wp_apply vstr__cache_del_spec; [exact HW2|]. intros _ s3 (Hw3&Eh3&Ec3&En3&Eu3&El3).
    split; [done| |by rewrite Ec3, Ec2|by rewrite Ec3, Ec2|by rewrite Eh3, Eh2; apply del_env_refl].
    rewrite Hcont. unfold st_content, content. by rewrite En3, Eu3, F1, F2, Eh3, Eh2, chain_bytes_cons.
  - destruct (decide (b_used (s_base s) = 0)) as [Hz|Hz].
    + rewrite (decide_False (P := b_used (s_base s) ≠ 0)) by lia. wp_step.
      wp_apply (vstr__del_beg_loop_spec (beg :: ns) [] (nd_type beg) len s0).
      * split; [apply HF0|done| |].
        -- change (nd_addr <$> []) with (@nil positive). rewrite push_spare_nil. unfold s0. apply H.
        -- unfold s0. apply vec_ok_set_len. exact (ci_vec _ HC).
      * lia.
      * destruct HF0 as (_&->&_). done.
      * destruct HF0 as (_&_&_&->). rewrite Hnum. done.
      * cbn [app]. lia.
      * intros [num len'] s2 HB2. rewrite Hcont, Hz, Z.add_0_l, <- chain_bytes_cons.
        change (s_heap s) with (s_heap s0).
        apply (del_beg_finish s s0 (beg :: ns) len num len' s2 len); try done; try (apply del_env_refl);
          try (unfold s0; cbn; by destruct (s_base s)).
        destruct HF0 as (_&_&->&_). lia.
    + destruct (Hbuf Hz) as (Hty&Hub&Hl). rewrite (decide_True (P := b_used (s_base s) ≠ 0)) by done.
      assert (Hge : nd_len beg - b_used (s_base s) ≤ len) by (destruct (decide (nd_len beg - b_used (s_base s) ≤ len)); [done|exfalso; apply Hin; lia]).
      wp_step. wp_step. apply wp_modify. set (s1 := on_base (b_set_used 0) s0). cbn [tail].
      wp_apply (vstr__del_beg_loop_spec ns [beg] NODE_BUF (len - (nd_len beg - b_used (s_base s))) s1).
      * split; [unfold s1, s0; cbn; rewrite <- En; by destruct (s_base s)|by constructor| |].
        -- rewrite <- Hty. unfold s1, s0. cbn.
           apply (heap_inv_push _ _ _ [] beg ns H eq_refl). exact (counts_ok_drop _ _ [] beg ns H).
        -- unfold s1, s0, vec_ok. cbn. pose proof (ci_vec _ HC). by destruct (s_base s).
      * cbn in Hbl. lia.
      * unfold s1, s0. cbn. by destruct (s_base s).
      * transitivity (b_num (s_base s)); [unfold s1, s0; cbn; by destruct (s_base s)|exact Hnum].
      * cbn [app]. lia.
      * intros [num len'] s2 HB2. rewrite Hcont, zdrop_app_r, Hch by lia.
        replace (b_used (s_base s) + len - nd_len beg) with (len - (nd_len beg - b_used (s_base s))) by lia.
        change (s_heap s) with (s_heap s1).
        apply (del_beg_finish s s1 ns _ num len' s2 len); try done; try (apply del_env_refl);
          try (unfold s1, s0; cbn; by destruct (s_base s)).
        -- unfold s1, s0. cbn. cbn in Hbl. destruct (s_base s). cbn in *. lia.
        -- intros nd Hnd. specialize (Hfl nd ltac:(by right)). unfold s1, s0. cbn. by destruct (s_base s).
Qed.

End others.

Section others.
Context {OT : Others}.

(** Only owned memory changes. *)
Definition mem_step (c : Vstr_conf) (ns : list Vstr_node) (h h' : heap) : Prop :=
  (∀ a, a ∉ own c ns → h_mem h' !! a = h_mem h !! a) ∧ h_refs h' = h_refs h.

(** ** Cutting bytes out of the buffer of a node *)
Lemma buf_cut_spec s c l1 nd l2 pos len :
  heap_inv (s_heap s) c (l1 ++ nd :: l2) → nd_type nd = NODE_BUF → 0 ≤ pos → 0 < len →
  pos + len < nd_len nd →
  wp (mem_move (Ptr (nd_addr nd) pos) (Ptr (nd_addr nd) (pos + len)) (nd_len nd - (pos + len))) s
    (λ _ s', only_heap s s' ∧
      heap_inv (s_heap s') c (l1 ++ nd_set_len (nd_len nd - len) nd :: l2) ∧
      node_bytes (s_heap s') (nd_set_len (nd_len nd - len) nd) =
        ztake pos (node_bytes (s_heap s) nd) ++ zdrop (pos + len) (node_bytes (s_heap s) nd) ∧
      (∀ nd', nd' ∈ l1 ++ l2 → node_bytes (s_heap s') nd' = node_bytes (s_heap s) nd') ∧
      mem_step c (l1 ++ nd :: l2) (s_heap s) (s_heap s')).
Proof.
  intros H Hty Hpos Hlen Hle. pose proof (hi_nodes _ _ _ H) as Hn. rewrite Forall_app, Forall_cons in Hn.
  destruct Hn as (_&Hok&_). destruct nd as [a L body]. destruct body; try done. clear Hty.
  pose proof Hok as [HL [Hlb (blk&Hblk&Hsz)]]. cbn in *.
  assert (Hown : a ∈ own c (l1 ++ mkNode a L Node_buf :: l2)).
  { unfold own. rewrite fmap_app. apply elem_of_app. left. apply elem_of_app. right. by left. }
  set (chunk := ztake (L - (pos + len)) (zdrop (pos + len) blk)).
  assert (Hc : zlen chunk = L - (pos + len)) by (unfold chunk; rewrite length_ztake, length_zdrop; lia).
  wp_apply (mem_move_spec s (Ptr a pos) (Ptr a (pos + len)) (L - (pos + len)) chunk blk); cbn; [|done|lia|lia|].
  { apply load_Some. exists blk. cbn. split_and!; [done|lia..|done]. }
  intros _ s' ->. destruct (heap_inv_write _ _ _ a blk (zwrite pos chunk blk) H Hown Hblk) as [H' Hby];
    [rewrite length_zwrite; lia|]. set (h' := h_set_mem _ (s_heap s)) in *.
  assert (Hl : h_mem h' !! a = Some (zwrite pos chunk blk)).
  { unfold h'. destruct (s_heap s). apply lookup_insert_eq. }
  cbn [s_heap on_heap]. fold h'. split_and!; [done| | | |].
  - eapply heap_inv_node; [exact H'|done| |by intros ?|done].
    split; [cbn; lia|]. cbn. split; [lia|]. exists (zwrite pos chunk blk).
    split; [exact Hl|]. rewrite length_zwrite; lia.
  - unfold node_bytes, nd_set_len. cbn. rewrite (load_buf _ _ _ _ Hl) by (rewrite length_zwrite; lia).
    rewrite (load_buf _ _ _ _ Hblk) by lia. replace (L - len) with (pos + zlen chunk) by lia.
    rewrite ztake_zwrite_end, fmap_app, ztake_fmap, zdrop_fmap, ztake_ztake, zdrop_ztake by lia.
    by replace (pos `min` L) with pos by lia.
  - intros nd' Hnd. apply Hby; [rewrite elem_of_app, elem_of_cons in *; tauto|]. left. intros E.
    pose proof (hi_nodup _ _ _ H) as Hdup. unfold own in Hdup. apply NoDup_app in Hdup as (Hdup&_&_).
    rewrite fmap_app, fmap_cons in Hdup. rewrite <- Permutation_middle in Hdup.
    apply NoDup_cons in Hdup as [Hna _]. apply Hna. cbn. rewrite <- E, <- fmap_app.
    by apply list_elem_of_fmap_2.
  - split; [|unfold h'; by destruct (s_heap s)]. intros x Hx. unfold h'. destruct (s_heap s). cbn.
    rewrite lookup_insert_ne; [done|]. by intros <-.
Qed.

(** ** What is left after a cut in node [i]: [off] of its bytes, and then [keep] *)
Record cut (s : St) (i : nat) (nd : Vstr_node) (off : Z) (keep : list byte_or_non) (s' : St) : Prop := {
  ct_nodes : ∃ nd' R, b_nodes (s_base s') = take i (b_nodes (s_base s)) ++ nd' :: R ∧
    nd_addr nd' = nd_addr nd ∧ nd_type nd' = nd_type nd ∧ off ≤ nd_len nd' ∧
    chain_bytes (s_heap s') (nd' :: R) = ztake off (node_bytes (s_heap s) nd) ++ keep ∧
    (∀ x, x ∈ R → ∃ y, y ∈ b_nodes (s_base s) ∧ nd_type y = nd_type x);
  ct_same : chain_bytes (s_heap s') (take i (b_nodes (s_base s))) =
            chain_bytes (s_heap s) (take i (b_nodes (s_base s)));
  ct_heap : heap_inv (s_heap s') (s_conf s') (b_nodes (s_base s'));
  ct_num : b_num (s_base s') = zlen (b_nodes (s_base s'));
  ct_len : b_len (s_base s') = sum_len (b_nodes (s_base s')) - b_used (s_base s');
  ct_used : b_used (s_base s') = b_used (s_base s);
  ct_flags : ∀ t, node_used t (s_base s') = node_used t (s_base s);
  ct_get_pos : cache_get_pos (s_base s') = cache_get_pos (s_base s);
  ct_avail : cache_available (s_base s') = cache_available (s_base s);
  ct_pos : c_pos (b_cache (s_base s')) = c_pos (b_cache (s_base s));
  ct_vec : vec_ok (s_base s');
  ct_conf : conf_same (s_conf s) (s_conf s');
  ct_malloc : malloc_bad (s_conf s') = malloc_bad (s_conf s) }.

Lemma cut_finish s i nd off keep s' pos :
  wf s → b_nodes (s_base s) !! i = Some nd → 0 < off ≤ nd_len nd → (i = 0%nat → b_used (s_base s) < off) →
  cut s i nd off keep s' → sum_len (take i (b_nodes (s_base s))) + off = pos + b_used (s_base s) → 1 ≤ pos →
  wf_upto pos s' ∧ st_content s' = ztake pos (st_content s) ++ keep.
Proof.
  intros Hw Hi Hoff H0 [(nd'&R&En&Ha&Hty&Hl&Hby&HR) Hsame HI Hnum Hlen Hu Hfl Hgp Hav Hcp Hv Hc Hm] Hpos Hp1.
  pose proof Hw as [H HB HC]. pose proof (list_split_at _ _ _ Hi) as Es.
  pose proof (wf_used_nonneg _ Hw) as Hu0.
  set (l1 := take i (b_nodes (s_base s))) in *. set (l2 := drop (S i) (b_nodes (s_base s))) in *.
  assert (Hlen1 : length l1 = i) by (unfold l1; rewrite length_take; apply lookup_lt_Some in Hi; lia).
  pose proof (hi_nodes _ _ _ H) as Hok. rewrite Es, Forall_app, Forall_cons in Hok. destruct Hok as (Hok1&Hnd&_).
  pose proof (chain_bytes_length _ _ _ Hok1) as Hz1. pose proof (node_bytes_length _ _ _ Hnd) as Hznd.
  split.
  - split; [done| | | |done].
    + split; rewrite ?Hu; [| |by eapply heap_inv_size|done|].
      * destruct (bi_used _ HB) as [|(bg&Hb&Ht&Hlt)]; [by left|right].
        rewrite Es in Hb. rewrite En. destruct l1 as [|x l1'].
        -- injection Hb as <-. exists nd'. cbn in Hlen1. specialize (H0 (eq_sym Hlen1)).
           split_and!; [done|congruence|lia|lia].
        -- injection Hb as <-. by exists x.
      * rewrite Hu in Hlen. done.
      * intros x Hx. rewrite Hfl. rewrite En, elem_of_app, elem_of_cons in Hx.
        destruct Hx as [Hx|[->|Hx]].
        -- apply (bi_flags _ HB). rewrite Es, elem_of_app. by left.
        -- rewrite Hty. apply (bi_flags _ HB). by eapply list_elem_of_lookup_2.
        -- destruct (HR x Hx) as (y&Hy&<-). by apply (bi_flags _ HB).
    + intros data Hd Hle. rewrite Hgp in Hd. rewrite En, Hu.
      eapply (pos_data_ok_cut l1 nd nd' l2 R off); [|rewrite <- Es; by apply wf_lens|lia|lia|done].
      rewrite <- Es. by apply (ci_pos _ HC).
    + rewrite Hav, Hcp. apply (ci_avail _ HC).
  - unfold st_content, content. rewrite En, Hu, !chain_bytes_app, Hsame, Hby, Es, chain_bytes_app, chain_bytes_cons.
    rewrite app_assoc, zdrop_app_l by (rewrite length_app, Nat2Z.inj_add, length_ztake; lia). f_equal.
    rewrite ztake_zdrop_comm by lia. f_equal.
    rewrite ztake_app_r, ztake_app_l by lia. do 2 f_equal. lia.
Qed.

(** Fields that deleting from the end leaves alone *)
Record same_fields (s s' : St) : Prop := {
  sf_used : b_used (s_base s') = b_used (s_base s);
  sf_flags : ∀ t, node_used t (s_base s') = node_used t (s_base s);
  sf_get_pos : cache_get_pos (s_base s') = cache_get_pos (s_base s);
  sf_avail : cache_available (s_base s') = cache_available (s_base s);
  sf_pos : c_pos (b_cache (s_base s')) = c_pos (b_cache (s_base s));
  sf_vec : vec_ok (s_base s');
  sf_conf : conf_same (s_conf s) (s_conf s');
  sf_malloc : malloc_bad (s_conf s') = malloc_bad (s_conf s) }.

Lemma same_fields_trans s1 s2 s3 : same_fields s1 s2 → same_fields s2 s3 → same_fields s1 s3.
Proof. intros [] []. split; try done; try congruence; by eapply conf_same_trans. Qed.
Lemma same_fields_vec s s' : vec_step s s' → same_fields s s'.
Proof.
  intros Hv. pose proof (vec_step_ok _ _ Hv). destruct Hv as (u&v&->&_).
  destruct s as [h c [? ? ? ? ? ? ? ? ? ? ? ? []]]. by split.
Qed.
Lemma same_fields_nodes s ns : vec_ok (s_base s) → same_fields s (on_base (b_set_nodes ns) s).
Proof. intros Hv. destruct s as [h c [? ? ? ? ? ? ? ? ? ? ? ? []]]. by split. Qed.
Lemma same_fields_len s n : vec_ok (s_base s) → same_fields s (on_base (b_set_len n) s).
Proof. intros Hv. destruct s as [h c [? ? ? ? ? ? ? ? ? ? ? ? []]]. by split. Qed.
Lemma same_fields_num s n : vec_ok (s_base s) → same_fields s (on_base (b_set_num n) s).
Proof. intros Hv. destruct s as [h c [? ? ? ? ? ? ? ? ? ? ? ? []]]. by split. Qed.
Lemma same_fields_heap s s' : only_heap s s' → vec_ok (s_base s) → same_fields s s'.
Proof. intros [Ec Eb] Hv. split; by rewrite ?Ec, ?Eb. Qed.

Lemma same_fields_cut s i nd off keep s' nd' R :
  same_fields s s' →
  b_nodes (s_base s') = take i (b_nodes (s_base s)) ++ nd' :: R →
  nd_addr nd' = nd_addr nd → nd_type nd' = nd_type nd → off ≤ nd_len nd' →
  chain_bytes (s_heap s') (nd' :: R) = ztake off (node_bytes (s_heap s) nd) ++ keep →
  (∀ x, x ∈ R → ∃ y, y ∈ b_nodes (s_base s) ∧ nd_type y = nd_type x) →
  chain_bytes (s_heap s') (take i (b_nodes (s_base s))) = chain_bytes (s_heap s) (take i (b_nodes (s_base s))) →
  heap_inv (s_heap s') (s_conf s') (b_nodes (s_base s')) →
  b_num (s_base s') = zlen (b_nodes (s_base s')) →
  b_len (s_base s') = sum_len (b_nodes (s_base s')) - b_used (s_base s') →
  cut s i nd off keep s'.
Proof. intros []. intros. split; try done. exists nd', R. by split_and!. Qed.

(** Node [i] of [s2] loses [len] bytes at its end, or those in its middle are
    gone already. *)
Lemma middle_finish s s2 i nd nd2 R off len keep num :
  b_nodes (s_base s) !! i = Some nd → same_fields s s2 →
  b_nodes (s_base s2) = take i (b_nodes (s_base s)) ++ nd2 :: R →
  0 < nd_len nd2 - len ≤ VSTR_MAX_NODE_ALL →
  let nd' := nd_set_len (nd_len nd2 - len) nd2 in
  heap_inv (s_heap s2) (s_conf s2) (take i (b_nodes (s_base s)) ++ nd' :: R) →
  nd_addr nd2 = nd_addr nd → nd_type nd2 = nd_type nd → off ≤ nd_len nd2 - len →
  chain_bytes (s_heap s2) (nd' :: R) = ztake off (node_bytes (s_heap s) nd) ++ keep →
  (∀ x, x ∈ R → ∃ y, y ∈ b_nodes (s_base s) ∧ nd_type y = nd_type x) →
  chain_bytes (s_heap s2) (take i (b_nodes (s_base s))) = chain_bytes (s_heap s) (take i (b_nodes (s_base s))) →
  b_num (s_base s2) = zlen (b_nodes (s_base s2)) →
  b_len (s_base s2) = sum_len (b_nodes (s_base s2)) - len - b_used (s_base s2) →
  wp (upd_node i (λ nd, nd_set_len (u28 (nd_len nd - len)) nd);;
      vstr__cache_iovec_del_node_end num len;; mret true) s2
    (λ ok s', ok = true ∧ cut s i nd off keep s').
Proof.
  intros Hi SF En Hl nd' HI Ha Hty Hoff Hby HR Hsame Hnum Hlen.
  assert (Hlen1 : length (take i (b_nodes (s_base s))) = i) by (rewrite length_take; apply lookup_lt_Some in Hi; lia).
  assert (Hi2 : b_nodes (s_base s2) !! i = Some nd2) by (rewrite En, lookup_app_r, Hlen1, Nat.sub_diag by lia; done).
  unfold upd_node, node_at. wp_steps. eapply wp_of_option; [exact Hi2|]. cbn beta. wp_steps.
  rewrite u28_id by (unfold VSTR_MAX_NODE_ALL in *; lia). fold nd'.
  set (s3 := on_base _ s2).
  assert (E3 : s3 = on_base (b_set_nodes (take i (b_nodes (s_base s)) ++ nd' :: R)) s2).
  { unfold s3, on_base. f_equal. by rewrite En, insert_app_r_alt, Hlen1, Nat.sub_diag by lia. }
  assert (SF3 : same_fields s s3).
  { rewrite E3. eapply same_fields_trans; [exact SF|]. apply same_fields_nodes, SF. }
  assert (F3 : b_nodes (s_base s3) = take i (b_nodes (s_base s)) ++ nd' :: R ∧
    b_num (s_base s3) = b_num (s_base s2) ∧ b_len (s_base s3) = b_len (s_base s2) ∧
    b_used (s_base s3) = b_used (s_base s2)).
  { rewrite E3. cbn. by destruct (s_base s2). }
  destruct F3 as (F1&F2&F3&F4). clearbody s3.
  wp_apply vstr__cache_iovec_del_node_end_step; [apply SF3|]. intros _ s4 Hvs. wp_steps. split; [done|].
  pose proof (same_fields_trans _ _ _ SF3 (same_fields_vec _ _ Hvs)) as SF4. destruct Hvs as (u&v&E4&_).
  assert (F5 : b_nodes (s_base s4) = b_nodes (s_base s3) ∧ b_num (s_base s4) = b_num (s_base s3) ∧
    b_len (s_base s4) = b_len (s_base s3) ∧ b_used (s_base s4) = b_used (s_base s3) ∧
    s_heap s4 = s_heap s2 ∧ s_conf s4 = s_conf s2).
  { rewrite E4, E3. by destruct s2 as [h c [? ? ? ? ? ? ? ? ? ? ? ? []]]. }
  destruct F5 as (G1&G2&G3&G4&G5&G6). rewrite F1 in G1. rewrite F2 in G2. rewrite F3 in G3. rewrite F4 in G4.
  eapply (same_fields_cut _ _ _ _ _ _ nd' R); rewrite ?G1, ?G2, ?G3, ?G4, ?G5, ?G6; try done.
  - rewrite Hnum, En, !length_app. done.
  - rewrite Hlen, En, !sum_len_app. cbn. lia.
Qed.

Lemma split_post_set_len s i nd pos s' n :
  split_post (on_base (b_set_len n) s) i nd pos s' →
  split_post s i nd pos (on_base (b_set_len (b_len (s_base s))) s').
Proof.
  destruct s as [h c [ns bl bn us iu ca ci f1 f2 f3 f4 gc cc]]. intros [(beg&body&E&Hb) H By Cf Fr Ow Rf Mb].
  destruct s' as [h' c' b']. cbn in *. subst b'. split; try done. by exists beg, body.
Qed.

(** What split and the state before the change of the length have in common *)
Lemma split_same_fields s i nd pos s' :
  vec_ok (s_base s) → split_post s i nd pos s' → same_fields s s'.
Proof.
  intros Hv [(beg&body&E&Hb) H By Cf Fr Ow Rf Mb].
  pose proof (vec_ok_upto false _ Hv ltac:(done)) as Hv'. split; rewrite ?E; try done;
    destruct (s_base s) as [? ? ? ? ? ? ? ? ? ? ? ? []]; done.
Qed.

(** The parts of a string after a split *)
Lemma split_parts s i nd l1 l2 pos s' :
  split_post s i nd pos s' → b_nodes (s_base s) = l1 ++ nd :: l2 → length l1 = i →
  Forall (node_ok (s_heap s) (buf_sz (s_conf s))) (l1 ++ nd :: l2) → 0 < pos < nd_len nd →
  ∃ nd2, b_nodes (s_base s') = l1 ++ nd_set_len pos nd :: nd2 :: l2 ∧ nd_len nd2 = nd_len nd - pos ∧
    nd_type nd2 = nd_type nd ∧ b_num (s_base s') = b_num (s_base s) + 1 ∧ b_len (s_base s') = b_len (s_base s) ∧
    chain_bytes (s_heap s') l1 = chain_bytes (s_heap s) l1 ∧
    (∀ k, 0 ≤ k ≤ pos → node_bytes (s_heap s') (nd_set_len k nd) = ztake k (node_bytes (s_heap s) nd)) ∧
    chain_bytes (s_heap s') (nd2 :: l2) = zdrop pos (node_bytes (s_heap s) nd) ++ chain_bytes (s_heap s) l2.
Proof.
  intros [(beg&body&E&Hb) H By Cf Fr Ow Rf Mb] En Hlen Hok Hpos. set (nd2 := mkNode beg (nd_len nd - pos) body) in *.
  assert (EN : b_nodes (s_base s') = l1 ++ nd_set_len pos nd :: nd2 :: l2).
  { rewrite E. unfold split_base. fold nd2. rewrite En.
    rewrite <- Hlen, take_app_length. replace (drop (S (length l1)) (l1 ++ nd :: l2)) with l2; [by destruct (s_base s)|].
    rewrite drop_app_ge by lia. by replace (S (length l1) - length l1)%nat with 1%nat by lia. }
  rewrite Forall_app, Forall_cons in Hok. destruct Hok as (Hok1&Hnd&Hok2).
  pose proof (hi_nodes _ _ _ H) as Hok'. rewrite EN, !Forall_app, !Forall_cons in Hok'. destruct Hok' as (Hok1'&Hnd'&_).
  rewrite EN, En, !chain_bytes_app, (chain_bytes_cons _ _ (nd2 :: l2)), (chain_bytes_cons _ nd l2) in By.
  apply app_inj_1 in By as [By1 By2].
  2:{ pose proof (chain_bytes_length _ _ _ Hok1). pose proof (chain_bytes_length _ _ _ Hok1'). lia. }
  pose proof (node_bytes_length _ _ _ Hnd) as Hz. pose proof (node_bytes_length _ _ _ Hnd') as Hz'. cbn in Hz'.
  assert (Hpre : node_bytes (s_heap s') (nd_set_len pos nd) = ztake pos (node_bytes (s_heap s) nd)).
  { rewrite <- (ztake_all pos (node_bytes (s_heap s') (nd_set_len pos nd))) by lia.
    rewrite <- (ztake_app_l pos _ (chain_bytes (s_heap s') (nd2 :: l2))), By2 by lia.
    by rewrite ztake_app_l by lia. }
  exists nd2. split_and!; try done.
  - rewrite E. by destruct (s_base s).
  - rewrite E. by destruct (s_base s).
  - intros k Hk. change (nd_set_len k nd) with (nd_set_len k (nd_set_len pos nd)).
    rewrite (node_bytes_prefix _ _ _ _ Hnd'), Hpre, ztake_ztake by (cbn; lia). f_equal. lia.
  - rewrite <- (zdrop_app_len (node_bytes (s_heap s') (nd_set_len pos nd)) (chain_bytes (s_heap s') (nd2 :: l2))).
    rewrite By2, Hz'. by rewrite zdrop_app_l by lia.
Qed.

(** The node keeps [off] bytes, and everything from [off + len] on. *)
Lemma vstr__del_middle_spec s i nd num off len :
  wf s → b_nodes (s_base s) !! i = Some nd → 0 < off → 0 < len → off + len < nd_len nd →
  room 1 1 s →
  let s1 := on_base (b_set_len (b_len (s_base s) - len)) s in
  let keep := zdrop (off + len) (node_bytes (s_heap s) nd) ++ chain_bytes (s_heap s) (drop (S i) (b_nodes (s_base s))) in
  wp (vstr__del_middle i num off len) s1 (λ ok s',
    if ok : bool then cut s i nd off keep s'
    else spare_step (nd_type nd) 1 s1 s' ∧ malloc_bad (s_conf s') = true).
Proof.
  intros Hw Hi Hoff Hlen Hle Hroom s1 keep. pose proof Hw as [H HB HC].
  pose proof (list_split_at _ _ _ Hi) as Es.
  set (l1 := take i (b_nodes (s_base s))) in *. set (l2 := drop (S i) (b_nodes (s_base s))) in *.
  assert (Hlen1 : length l1 = i) by (unfold l1; rewrite length_take; apply lookup_lt_Some in Hi; lia).
  pose proof H as H0. rewrite Es in H0.
  pose proof (hi_nodes _ _ _ H0) as Hok. rewrite Forall_app, Forall_cons in Hok. destruct Hok as (Hok1&Hnd&Hok2).
  pose proof (proj1 Hnd) as Hmax.
  assert (SF1 : same_fields s s1) by (apply same_fields_len; exact (ci_vec _ HC)).
  assert (F1 : b_nodes (s_base s1) = l1 ++ nd :: l2 ∧ b_num (s_base s1) = zlen (l1 ++ nd :: l2) ∧
    b_len (s_base s1) = sum_len (l1 ++ nd :: l2) - len - b_used (s_base s1)).
  { rewrite <- Es. unfold s1. cbn. pose proof (bi_num _ HB). pose proof (bi_len _ HB).
    destruct (s_base s). cbn in *. split_and!; [done|done|lia]. }
  destruct F1 as (En1&Em1&El1).
  assert (HR : ∀ x, x ∈ l2 → ∃ y, y ∈ b_nodes (s_base s) ∧ nd_type y = nd_type x).
  { intros x Hx. exists x. split; [|done]. rewrite Es, elem_of_app, elem_of_cons. tauto. }
  (* the two ways without a split *)
  assert (Hplain : ∀ s2, only_heap s1 s2 →
    heap_inv (s_heap s2) (s_conf s) (l1 ++ nd_set_len (nd_len nd - len) nd :: l2) →
    node_bytes (s_heap s2) (nd_set_len (nd_len nd - len) nd) =
        ztake off (node_bytes (s_heap s) nd) ++ zdrop (off + len) (node_bytes (s_heap s) nd) →
    (∀ nd', nd' ∈ l1 ++ l2 → node_bytes (s_heap s2) nd' = node_bytes (s_heap s) nd') →
    wp (upd_node i (λ nd, nd_set_len (u28 (nd_len nd - len)) nd);;
      vstr__cache_iovec_del_node_end num len;; mret true) s2
      (λ ok s', if ok : bool then cut s i nd off keep s'
        else spare_step (nd_type nd) 1 s1 s' ∧ malloc_bad (s_conf s') = true)).
  { intros s2 Ho HI Hby Hsame. pose proof Ho as [Ec Eb].
    wp_apply (middle_finish s s2 i nd nd l2 off len keep num); rewrite ?Eb, ?Ec; try done.
    - eapply same_fields_trans; [exact SF1|]. apply same_fields_heap; [done|apply SF1].
    - lia.
    - lia.
    - rewrite chain_bytes_cons, Hby, <- app_assoc. unfold keep. do 2 f_equal. apply chain_frame.
      intros x Hx. apply Hsame, elem_of_app. by right.
    - apply chain_frame. intros x Hx. apply Hsame, elem_of_app. by left.
    - by rewrite En1.
    - by rewrite En1.
    - by intros ok s3 [-> ?]. }
  (* the way with a split *)
  assert (Hsplit : wp (ok ← vstr__base_split_node i (off + len);
      if (ok : bool) then upd_node i (λ nd, nd_set_len (u28 (nd_len nd - len)) nd);;
        vstr__cache_iovec_del_node_end num len;; mret true else mret false) s1
      (λ ok s', if ok : bool then cut s i nd off keep s'
        else spare_step (nd_type nd) 1 s1 s' ∧ malloc_bad (s_conf s') = true)).
  { wp_step. wp_apply (vstr__base_split_node_spec s1 i nd (off + len)).
    - unfold s1. cbn. replace (b_nodes (b_set_len _ _)) with (b_nodes (s_base s)) by by destruct (s_base s). exact H.
    - by rewrite En1.
    - rewrite En1, lookup_app_r, Hlen1, Nat.sub_diag by lia. done.
    - lia.
    - destruct Hroom as [Hr1 Hr2]. split; [|exact Hr2]. unfold s1. cbn.
      replace (b_nodes (b_set_len _ _)) with (b_nodes (s_base s)) by by destruct (s_base s). exact Hr1.
    - intros ok s2 Hs2. destruct ok; [|by wp_steps].
      pose proof (same_fields_trans _ _ _ SF1 (split_same_fields _ _ _ _ _ (sf_vec _ _ SF1) Hs2)) as SF2.
      destruct (split_parts _ _ _ l1 l2 _ _ Hs2 En1 Hlen1 (hi_nodes _ _ _ H0) ltac:(lia))
        as (nd2&En2&Hn2&Hty&Em2&El2&Hl1&Hpre&Hsuf).
      wp_apply (middle_finish s s2 i nd (nd_set_len (off + len) nd) (nd2 :: l2) off len keep num); try done;
        cbn [nd_len nd_set_len]; rewrite ?Z.add_simpl_r.
      + lia.
      + eapply (heap_inv_node _ _ l1 (nd_set_len (off + len) nd)); [rewrite <- En2; apply Hs2|done| | |done].
        * pose proof (hi_nodes _ _ _ (sp_heap _ _ _ _ _ Hs2)) as Hok'. rewrite En2, Forall_app, Forall_cons in Hok'.
          destruct Hok' as (_&Hok'&_). apply (node_ok_prefix _ _ _ off) in Hok'; [|cbn; lia].
          exact Hok'.
        * pose proof (sp_heap _ _ _ _ _ Hs2) as HI. rewrite En2 in HI.
          exact (heap_inv_ext _ _ _ (nd_set_len (off + len) nd) HI ltac:(rewrite elem_of_app, elem_of_cons; tauto)).
      + lia.
      + rewrite chain_bytes_cons. change (nd_set_len off (nd_set_len (off + len) nd)) with (nd_set_len off nd).
        rewrite Hpre by lia. unfold keep. by rewrite Hsuf.
      + intros x [->|Hx]%elem_of_cons; [|by apply HR]. exists nd.
        split; [rewrite Es, elem_of_app, elem_of_cons; tauto|done].
      + rewrite En2, Em2, Em1, !length_app. cbn. lia.
      + rewrite En2, El2, El1, (sf_used _ _ SF2), !sum_len_app. rewrite (sf_used _ _ SF1). cbn.
        rewrite Hn2. lia.
      + by intros ok s3 [-> ?]. }
  unfold vstr__del_middle, node_at. wp_step. wp_step. apply wp_gets. rewrite En1.
  eapply wp_of_option; [rewrite lookup_app_r, Hlen1, Nat.sub_diag by lia; done|]. cbn beta. wp_step. apply wp_gets.
  change (s_conf s1) with (s_conf s). destruct (nd_type nd) eqn:Ety; [destruct (split_buf_del (s_conf s))| | |]; try exact Hsplit.
  - wp_step. wp_step. wp_apply (buf_cut_spec s1 (s_conf s) l1 nd l2 off len H0 Ety ltac:(lia) Hlen Hle).
    intros _ s2 (Ho&HI&Hby&Hsame&_). wp_step. cbn beta iota. by apply Hplain.
  - wp_step. apply wp_ret. destruct nd as [a L []]; try done. destruct Hnd as [HL _].
    apply Hplain; try done.
    + eapply heap_inv_node; [exact H0|done| |done|done]. split; [cbn in *; lia|done].
    + unfold node_bytes. cbn. rewrite ztake_zrep, zdrop_zrep, zrep_app by (cbn in *; lia). f_equal. cbn in *. lia.
Qed.

(** ** The nodes after the cut *)

Lemma push_spare_comm t t' A B c :
  t ≠ t' → push_spare t A (push_spare t' B c) = push_spare t' B (push_spare t A c).
Proof. intros Hne. destruct c, t, t'; done. Qed.

Lemma relink_other t t' run A s ns :
  t ≠ t' → heap_inv (s_heap s) (push_spare t (nd_addr <$> run) (push_spare t' A (s_conf s))) ns →
  wp (vstr__relink_nodes t run (zlen run)) s (λ _ s', s' = on_conf (push_spare t (nd_addr <$> run)) s).
Proof.
  intros Hne H. unfold vstr__relink_nodes. wp_steps. unfold on_conf. f_equal. unfold push_spare.
  pose proof (hi_spare_num _ _ _ H t) as Hn. pose proof (hi_total _ _ _ H) as Ht.
  rewrite (own_perm t), length_app in Ht. unfold push_spare in Hn, Ht.
  rewrite !get_set_spare in *. rewrite get_set_spare_ne in * by done. cbn in *.
  rewrite length_app, length_fmap in *. rewrite u32_id by (unfold UINT_MAX in *; lia). done.
Qed.

Record end_loop_post (L pscan : list Vstr_node) (len dn : Z) (s : St) (pscan' : list Vstr_node)
    (len' dn' : Z) (s' : St) : Prop := {
  el_base : s_base s' = s_base s;
  el_heap : heap_inv (s_heap s') (s_conf s') (L ++ pscan');
  el_num : dn' = dn + zlen pscan - zlen pscan';
  el_same : chain_bytes (s_heap s') L = chain_bytes (s_heap s) L;
  el_bytes : zdrop len' (chain_bytes (s_heap s') pscan') = zdrop len (chain_bytes (s_heap s) pscan);
  el_len : 0 ≤ len' ∧ sum_len pscan' - len' = sum_len pscan - len;
  el_head : ∀ nd, head pscan' = Some nd → len' < nd_len nd;
  el_sub : ∀ nd, nd ∈ pscan' → nd ∈ pscan;
  el_conf : conf_same (s_conf s) (s_conf s');
  el_malloc : malloc_bad (s_conf s') = malloc_bad (s_conf s) }.

Lemma end_loop_cons L nd pscan len dn dn0 s s1 pscan' len' dn' s' :
  end_loop_post L pscan (len - nd_len nd) dn0 s1 pscan' len' dn' s' → dn0 = dn + 1 →
  s_base s1 = s_base s → conf_same (s_conf s) (s_conf s1) → malloc_bad (s_conf s1) = malloc_bad (s_conf s) →
  chain_bytes (s_heap s1) L = chain_bytes (s_heap s) L →
  chain_bytes (s_heap s1) pscan = chain_bytes (s_heap s) pscan →
  zlen (node_bytes (s_heap s) nd) = nd_len nd → nd_len nd ≤ len →
  end_loop_post L (nd :: pscan) len dn s pscan' len' dn' s'.
Proof.
  intros [] -> Eb Hc Hm HL Hby Hz Hle. split; try done; try congruence.
  - cbn [length]. lia.
  - rewrite el_bytes0, Hby, chain_bytes_cons, zdrop_app_r by lia. by rewrite Hz.
  - cbn. lia.
  - intros x Hx. right. auto.
  - by eapply conf_same_trans.
Qed.

Lemma vstr__del_end_loop_spec L pscan : ∀ len run type dn s,
  heap_inv (s_heap s) (push_spare type (nd_addr <$> run) (s_conf s)) (L ++ pscan) →
  0 ≤ len ≤ sum_len pscan →
  wp (vstr__del_end_loop pscan len run type dn) s (λ '(pscan', len', dn') s',
    end_loop_post L pscan len (dn + zlen run) s pscan' len' dn' s').
Proof.
  assert (Hfinish : ∀ pscan len run type dn s,
    heap_inv (s_heap s) (push_spare type (nd_addr <$> run) (s_conf s)) (L ++ pscan) → 0 ≤ len →
    (∀ nd, head pscan = Some nd → len < nd_len nd) →
    wp (vstr__relink_nodes type run (zlen run);; mret (pscan, len, dn + zlen run)) s (λ '(pscan', len', dn') s',
      end_loop_post L pscan len (dn + zlen run) s pscan' len' dn' s')).
  { intros pscan' len run type dn s H Hlen Hh. wp_step. wp_apply relink_spec; [exact H|].
    intros _ s' ->. wp_steps. split; try done; [lia|apply conf_same_set_spare|by destruct s as [h [] b], type]. }
  induction pscan as [|nd pscan IH]; intros len run type dn s H Hlen; cbn [vstr__del_end_loop].
  { apply Hfinish; [done|lia|done]. }
  case_decide as Hle.
  2:{ apply Hfinish; [done|lia|]. intros x [= <-]. lia. }
  pose proof (hi_nodes _ _ _ H) as Hok. rewrite Forall_app, Forall_cons in Hok. destruct Hok as (_&Hok&_).
  pose proof (node_bytes_length _ _ _ Hok) as Hz. cbn [sum_len] in Hlen.
  wp_step. wp_apply vstr__del_node_spec; [exact H|]. intros _ s1 [[Ec Eb] H1 Hby _].
  rewrite <- Ec in H1.
  assert (HL : chain_bytes (s_heap s1) L = chain_bytes (s_heap s) L).
  { apply chain_frame. intros x Hx. apply Hby, elem_of_app. by left. }
  assert (HR : chain_bytes (s_heap s1) pscan = chain_bytes (s_heap s) pscan).
  { apply chain_frame. intros x Hx. apply Hby, elem_of_app. by right. }
  destruct (decide (nd_type nd = type)) as [Ht|Ht].
  - rewrite Ht, push_spare_push in H1. wp_apply (IH (len - nd_len nd) (run ++ [nd]) type dn s1); [|lia|].
    { eapply push_spare_perm; [exact H1|]. rewrite fmap_app. cbn. by rewrite <- Permutation_cons_append. }
    intros [[pscan' len'] dn'] s2 HP. eapply end_loop_cons; try done; [rewrite length_app; cbn; lia|by rewrite Ec|by rewrite Ec].
  - assert (H1' : heap_inv (s_heap s1) (push_spare type (nd_addr <$> run) (push_spare (nd_type nd) [nd_addr nd] (s_conf s1))) (L ++ pscan)).
    { by rewrite push_spare_comm by done. }
    wp_step. wp_apply relink_other; [|exact H1'|]; [congruence|]. intros _ s2 ->.
    wp_apply (IH (len - nd_len nd) [nd] (nd_type nd) (dn + zlen run)); [|lia|].
    { rewrite push_spare_comm in H1' by congruence. exact H1'. }
    intros [[pscan' len'] dn'] s3 HP. eapply (end_loop_cons L nd pscan); try done; cbn [s_base s_conf on_conf].
    + rewrite <- Ec. apply conf_same_set_spare.
    + rewrite <- Ec. by destruct (s_conf s1), type.
Qed.

(** The last node that is touched loses bytes at its start. *)
Record fixed (L : list Vstr_node) (nd : Vstr_node) (R : list Vstr_node) (len : Z) (s s' : St) : Prop := {
  fx_fields : same_fields s s';
  fx_nodes : ∃ nd', b_nodes (s_base s') = L ++ nd' :: R ∧ nd_type nd' = nd_type nd ∧
    nd_len nd' = nd_len nd - len ∧
    node_bytes (s_heap s') nd' = zdrop len (node_bytes (s_heap s) nd);
  fx_heap : heap_inv (s_heap s') (s_conf s') (b_nodes (s_base s'));
  fx_same : ∀ x, x ∈ L ++ R → node_bytes (s_heap s') x = node_bytes (s_heap s) x;
  fx_num : b_num (s_base s') = b_num (s_base s);
  fx_len : b_len (s_base s') = b_len (s_base s) }.

Lemma vstr__del_fix_last_node_spec L nd R len num s :
  b_nodes (s_base s) = L ++ nd :: R → heap_inv (s_heap s) (s_conf s) (L ++ nd :: R) →
  0 < len < nd_len nd → vec_ok (s_base s) →
  wp (vstr__del_fix_last_node (length L) num len) s (λ _ s', fixed L nd R len s s').
Proof.
  intros En H Hlen Hv. unfold vstr__del_fix_last_node, upd_node, node_at.
  assert (Hi : b_nodes (s_base s) !! length L = Some nd) by (rewrite En, lookup_app_r, Nat.sub_diag by lia; done).
  wp_step. wp_step. apply wp_gets. eapply wp_of_option; [exact Hi|]. cbn beta. wp_step.
  pose proof (hi_nodes _ _ _ H) as Hok. rewrite Forall_app, Forall_cons in Hok. destruct Hok as (_&Hok&_).
  assert (Hgo : ∀ s1, only_heap s s1 →
    heap_inv (s_heap s1) (s_conf s) (L ++ node_drop len nd :: R) →
    node_bytes (s_heap s1) (node_drop len nd) = zdrop len (node_bytes (s_heap s) nd) →
    nd_len (node_drop len nd) = nd_len nd - len → nd_type (node_drop len nd) = nd_type nd →
    (∀ x, x ∈ L ++ R → node_bytes (s_heap s1) x = node_bytes (s_heap s) x) →
    wp ((nd ← b ← get_base; of_option (b_nodes b !! length L);
         upd_base (λ b, b_set_nodes (<[length L:=node_drop len nd]> (b_nodes b)) b));;
        scan' ← b ← get_base; of_option (b_nodes b !! length L);
        vstr__cache_iovec_reset_node scan' (num + 1)) s1 (λ _ s', fixed L nd R len s s')).
  { intros s1 [Ec Eb] HI Hby Hl Ht Hsame. wp_steps. rewrite Eb. eapply wp_of_option; [exact Hi|]. cbn beta.
    wp_steps. set (s2 := on_base _ s1).
    assert (E2 : s2 = on_base (b_set_nodes (L ++ node_drop len nd :: R)) s1).
    { unfold s2, on_base. f_equal. by rewrite Eb, En, insert_app_r_alt, Nat.sub_diag by lia. }
    assert (F : b_nodes (s_base s2) = L ++ node_drop len nd :: R ∧ b_num (s_base s2) = b_num (s_base s) ∧
      b_len (s_base s2) = b_len (s_base s)) by (rewrite E2; cbn; rewrite Eb; by destruct (s_base s)).
    destruct F as (F1&F2&F3). rewrite F1. eapply wp_of_option; [rewrite lookup_app_r, Nat.sub_diag by lia; done|]. cbn beta.
    assert (SF : same_fields s s2).
    { eapply same_fields_trans; [apply (same_fields_heap s s1); [done|done]|].
      rewrite E2. apply same_fields_nodes. by rewrite Eb. }
    assert (H2 : s_heap s2 = s_heap s1 ∧ s_conf s2 = s_conf s) by (rewrite E2; by split).
    destruct H2 as [Eh2 Ec2]. clearbody s2.
    wp_apply vstr__cache_iovec_reset_node_step; [apply SF| |].
    { rewrite Eh2. pose proof (hi_nodes _ _ _ HI) as Hok'. rewrite Forall_app, Forall_cons in Hok'.
      destruct Hok' as (_&Hok'&_). by eapply node_ok_ptr. }
    intros _ s3 Hvs. pose proof (same_fields_trans _ _ _ SF (same_fields_vec _ _ Hvs)) as SF3.
    destruct Hvs as (u&v&E3&_).
    assert (G : b_nodes (s_base s3) = b_nodes (s_base s2) ∧ b_num (s_base s3) = b_num (s_base s2) ∧
      b_len (s_base s3) = b_len (s_base s2) ∧ s_heap s3 = s_heap s2 ∧ s_conf s3 = s_conf s2).
    { rewrite E3. by destruct s2 as [h c [? ? ? ? ? ? ? ? ? ? ? ? []]]. }
    destruct G as (G1&G2&G3&G4&G5). split; try done; rewrite ?G1, ?G4, ?G5, ?Eh2, ?Ec2, ?F1; try done; try congruence.
    by exists (node_drop len nd). }
  destruct (decide (nd_type nd = NODE_BUF)) as [Hb|Hb].
  - wp_apply (buf_cut_spec s (s_conf s) L nd R 0 len H Hb); [lia|lia|lia|].
    intros _ s1 (Ho&HI&Hby&Hsame&_).
    assert (Ed : node_drop len nd = nd_set_len (nd_len nd - len) nd).
    { unfold node_drop, nd_set_len. destruct Hok as [Hl _]. rewrite u28_id by (unfold VSTR_MAX_NODE_ALL in *; lia).
      by destruct nd as [a l []]. }
    apply Hgo; rewrite ?Ed; try done.
  - apply wp_ret. cbn beta. destruct (node_drop_ok _ _ L nd R len H Hlen Hb) as (HI&Hby&Hl&Ht). by apply Hgo.
Qed.

(** ** Everything after the node of the position *)
Record tail_post (L R : list Vstr_node) (len : Z) (s s' : St) : Prop := {
  tp_fields : same_fields s s';
  tp_nodes : ∃ R', b_nodes (s_base s') = L ++ R' ∧
    chain_bytes (s_heap s') R' = zdrop len (chain_bytes (s_heap s) R) ∧
    sum_len R' = sum_len R - len ∧ (∀ x, x ∈ R' → ∃ y, y ∈ R ∧ nd_type y = nd_type x);
  tp_heap : heap_inv (s_heap s') (s_conf s') (b_nodes (s_base s'));
  tp_same : chain_bytes (s_heap s') L = chain_bytes (s_heap s) L;
  tp_num : b_num (s_base s') = zlen (b_nodes (s_base s'));
  tp_len : b_len (s_base s') = b_len (s_base s) }.

Definition del_tail (i : nat) (num len : Z) (scan : Vstr_node) (rest : list Vstr_node) (b : Vstr_base) : M () :=
  if decide (len < nd_len scan) then vstr__del_fix_last_node (S i) num len
  else
    vstr__del_node scan;;
    '(scan', len, del_nodes) ← vstr__del_end_loop rest (len - nd_len scan) [scan] (nd_type scan) 0;
    when (iovec_upto_date b) (upd_vec (vec_close_gap num (num + del_nodes) (b_num b)));;
    upd_base (λ b, b_set_num (u32 (b_num b - del_nodes)) b);;
    upd_base (λ b, b_set_nodes (take (S i) (b_nodes b) ++ scan') b);;
    match scan' with
    | [] => mret tt
    | _ => if decide (len ≠ 0) then vstr__del_fix_last_node (S i) num len else mret tt
    end.

Lemma fixed_tail L nd R len s s' :
  fixed L nd R len s s' → b_num (s_base s) = zlen (L ++ nd :: R) →
  zlen (node_bytes (s_heap s) nd) = nd_len nd → len < nd_len nd → tail_post L (nd :: R) len s s'.
Proof.
  intros [SF (nd'&En&Ht&Hl&Hby) HI Hsame Hnum Hlen] Hn Hz Hlt. split; try done.
  - exists (nd' :: R). split_and!; [done| | |].
    + rewrite !chain_bytes_cons, Hby, zdrop_app_l by lia. f_equal. apply chain_frame.
      intros x Hx. apply Hsame, elem_of_app. by right.
    + cbn. lia.
    + intros x [->|Hx]%elem_of_cons; [exists nd; split; [by left|done]|exists x; split; [by right|done]].
  - apply chain_frame. intros x Hx. apply Hsame, elem_of_app. by left.
  - rewrite Hnum, Hn, En, !length_app. done.
Qed.

Lemma del_tail_spec i num len scan rest s L :
  b_nodes (s_base s) = L ++ scan :: rest → length L = S i →
  heap_inv (s_heap s) (s_conf s) (L ++ scan :: rest) → b_num (s_base s) = zlen (L ++ scan :: rest) →
  0 < len ≤ sum_len (scan :: rest) → vec_ok (s_base s) →
  wp (del_tail i num len scan rest (s_base s)) s (λ _ s', tail_post L (scan :: rest) len s s').
Proof.
  intros En HL H Hnum Hlen Hv. unfold del_tail. rewrite <- HL.
  pose proof (hi_nodes _ _ _ H) as Hok. rewrite Forall_app, Forall_cons in Hok. destruct Hok as (_&Hok&_).
  pose proof (node_bytes_length _ _ _ Hok) as Hz.
  case_decide as Hlt.
  { wp_apply (vstr__del_fix_last_node_spec L scan rest); [done|done|lia|done|].
    intros _ s' HF. by apply fixed_tail. }
  wp_step. wp_apply vstr__del_node_spec; [exact H|]. intros _ s1 [[Ec Eb] H1 Hby _]. rewrite <- Ec in H1.
  cbn [sum_len] in Hlen. wp_step.
  wp_apply (vstr__del_end_loop_spec L rest (len - nd_len scan) [scan] (nd_type scan) 0 s1); [exact H1|lia|].
  intros [[scan' len'] dn] s2 HE.
  assert (HP : end_loop_post L (scan :: rest) len 0 s scan' len' dn s2).
  { eapply end_loop_cons; [exact HE|done|done|by rewrite Ec|by rewrite Ec| | |done|lia];
      apply chain_frame; intros x Hx; apply Hby, elem_of_app; [by left|by right]. }
  clear HE. destruct HP as [Eb2 HI Edn HL2 Hby2 [Hl0 Hsum] Hhead Hsub Hc Hm].
  assert (SF2 : same_fields s s2) by (split; by rewrite ?Eb2).
  assert (Hvec : ∀ m : M (), (∀ s3, same_fields s s3 → b_nodes (s_base s3) = b_nodes (s_base s2) →
      b_num (s_base s3) = b_num (s_base s2) → b_len (s_base s3) = b_len (s_base s2) →
      s_heap s3 = s_heap s2 → s_conf s3 = s_conf s2 → wp m s3 (λ _ s', tail_post L (scan :: rest) len s s')) →
    wp (when (iovec_upto_date (s_base s)) (upd_vec (vec_close_gap num (num + dn) (b_num (s_base s))));; m) s2
      (λ _ s', tail_post L (scan :: rest) len s s')).
  { intros m Hm'. wp_step. destruct (iovec_upto_date (s_base s)) eqn:Eu; cbn [when].
    - wp_apply upd_vec_step; [by rewrite Eb2|rewrite Eb2; apply Hv; by left|]. intros _ s3 Hvs.
      pose proof (same_fields_trans _ _ _ SF2 (same_fields_vec _ _ Hvs)) as SF3. destruct Hvs as (u&v&->&_).
      apply Hm'; try done; by destruct s2 as [h c [? ? ? ? ? ? ? ? ? ? ? ? []]].
    - wp_step. by apply Hm'. }
  apply Hvec. clear Hvec. intros s3 SF3 N3 M3 L3 Eh3 Ec3. wp_step. apply wp_modify. wp_step. apply wp_modify.
  set (s4 := on_base _ (on_base _ s3)). rewrite Eb2 in N3, M3, L3.
  assert (Hdn : u32 (b_num (s_base s) - dn) = zlen (L ++ scan')).
  { rewrite Edn, Hnum, !length_app. pose proof (hi_total _ _ _ H) as Ht. unfold own in Ht.
    rewrite !length_app, !length_fmap, length_app in Ht. cbn [length] in *.
    assert (Hsl : zlen (own (s_conf s2) (L ++ scan')) ≤ UINT_MAX) by apply (hi_total _ _ _ HI).
    unfold own in Hsl. rewrite !length_app, !length_fmap, length_app in Hsl.
    rewrite u32_id; unfold UINT_MAX in *; lia. }
  assert (F4 : b_nodes (s_base s4) = L ++ scan' ∧ b_num (s_base s4) = zlen (L ++ scan') ∧
    b_len (s_base s4) = b_len (s_base s)).
  { unfold s4. cbn [s_base on_base]. rewrite <- Hdn, <- M3, <- L3.
    replace (b_nodes (b_set_num _ _)) with (b_nodes (s_base s3)) by by destruct (s_base s3).
    rewrite N3, En, take_app_length. by destruct (s_base s3). }
  assert (SF4 : same_fields s s4).
  { eapply same_fields_trans; [exact SF3|]. unfold s4.
    destruct s3 as [h c [? ? ? ? ? ? ? ? ? ? ? ? []]]. split; try done. apply (sf_vec _ _ SF3). }
  destruct F4 as (N4&M4&L4).
  assert (Eh4 : s_heap s4 = s_heap s2) by exact Eh3. assert (Ec4 : s_conf s4 = s_conf s2) by exact Ec3. clearbody s4.
  assert (Hdone : len' = 0 → tail_post L (scan :: rest) len s s4).
  { intros ->. split; rewrite ?N4, ?Eh4, ?Ec4; try done. exists scan'. split_and!; [done| | |by eauto].
    - rewrite <- Hby2, zdrop_0 by lia. done.
    - cbn in *. lia. }
  destruct scan' as [|nd' R']; [wp_steps; apply Hdone; cbn in Hsum; lia|].
  specialize (Hhead nd' eq_refl). case_decide as Hl'; [|wp_steps; apply Hdone; lia].
  wp_apply (vstr__del_fix_last_node_spec L nd' R' len' num s4); [done|by rewrite Eh4, Ec4|lia|apply SF4|].
  intros _ s5 HF. pose proof (hi_nodes _ _ _ HI) as Hok2. rewrite Forall_app, Forall_cons in Hok2.
  destruct Hok2 as (_&Hok2&_). pose proof (node_bytes_length _ _ _ Hok2) as Hz2. rewrite <- Eh4 in Hz2.
  destruct (fixed_tail _ _ _ _ _ _ HF M4 Hz2 Hhead) as [SF5 (R''&N5&B5&S5&T5) HI5 HL5 M5 L5].
  split; try done; try congruence.
  - by eapply same_fields_trans.
  - exists R''. split_and!; [done| | |].
    + by rewrite B5, Eh4.
    + cbn in *. lia.
    + intros x Hx. destruct (T5 x Hx) as (y&Hy&?). exists y. auto.
Qed.

End others.
