(* ===== verification/DelTheorems.v ===== *)
(** * Deleting a range of a string: the contract of vstr_del. *)
From Stdlib Require Import ZArith Lia ZifyBool.
From stdpp Require Import base tactics list numbers option gmap.
From S2P Require Import Prelude State Wp Ref Cache Core Del Inv PosLemmas SpareLemmas SplitLemmas CacheLemmas AddLemmas StringLemmas AddSpec DelLemmas DelSpec.

Section others.
Context {OT : Others}.

(** The range must lie in the string; deleting nothing is always possible. *)
Definition del_bad (s : St) (pos len : Z) : Prop :=
  len ≠ 0 ∧ (pos < 1 ∨ b_len (s_base s) < pos + len - 1).
#[export] Instance del_bad_dec s pos len : Decision (del_bad s pos len) := _.

Definition del_post (s : St) (pos len : Z) (ok : bool) (s' : St) : Prop :=
  if decide (del_bad s pos len) then ok = false ∧ s' = s
  else wf s' ∧ conf_same (s_conf s) (s_conf s') ∧
    if ok then st_content s' = ztake (pos - 1) (st_content s) ++ zdrop (pos - 1 + len) (st_content s) ∧
               malloc_bad (s_conf s') = malloc_bad (s_conf s)
    else st_content s' = st_content s ∧ malloc_bad (s_conf s') = true.

Lemma deleted_post s keep s' pos len :
  deleted s keep s' → ¬ del_bad s pos len →
  keep = ztake (pos - 1) (st_content s) ++ zdrop (pos - 1 + len) (st_content s) →
  del_post s pos len true s'.
Proof. intros [] Hb ->. unfold del_post. by rewrite decide_False. Qed.

(** The end of every deletion after the first character *)
Lemma cut_del_post s i nd off keep s' pos len m :
  wf s → b_nodes (s_base s) !! i = Some nd → 0 < off ≤ nd_len nd → (i = 0%nat → b_used (s_base s) < off) →
  cut s i nd off keep s' → sum_len (take i (b_nodes (s_base s))) + off = pos - 1 + b_used (s_base s) →
  2 ≤ pos → ¬ del_bad s pos len → keep = zdrop (pos - 1 + len) (st_content s) →
  wp (vstr__cache_del pos m;; mret true) s' (λ ok s2, del_post s pos len ok s2).
Proof.
  intros Hw Hi Hoff H0 Hcut Hsum Hpos Hb ->.
  destruct (cut_finish _ _ _ _ _ _ (pos - 1) Hw Hi Hoff H0 Hcut Hsum ltac:(lia)) as [HW HC].
  wp_step. wp_apply vstr__cache_del_spec; [exact HW|]. intros _ s2 (Hw2&Eh&Ec&En&Eu&El). wp_steps.
  unfold del_post. rewrite decide_False by done. rewrite Ec.
  destruct Hcut. split_and!; try done. by rewrite <- HC; unfold st_content, content; rewrite Eh, En, Eu.
Qed.

(** The bytes of a string from a position on *)
Lemma content_from s i nd off pos len :
  wf s → b_nodes (s_base s) !! i = Some nd → 0 < off ≤ nd_len nd →
  sum_len (take i (b_nodes (s_base s))) + off = pos + b_used (s_base s) → 0 ≤ pos → 0 ≤ len →
  zdrop (pos + len) (st_content s) =
    zdrop (off + len) (node_bytes (s_heap s) nd ++ chain_bytes (s_heap s) (drop (S i) (b_nodes (s_base s)))).
Proof.
  intros Hw Hi Hoff Hsum Hpos Hlen. pose proof (wf_used_nonneg _ Hw) as Hu.
  pose proof (hi_nodes _ _ _ (wf_heap _ Hw)) as Hok. pose proof (list_split_at _ _ _ Hi) as Es.
  unfold st_content, content. rewrite zdrop_zdrop by lia. rewrite Es at 1. rewrite Es, Forall_app in Hok.
  destruct Hok as [Hok _]. pose proof (chain_bytes_length _ _ _ Hok) as Hz.
  rewrite chain_bytes_app, chain_bytes_cons, zdrop_app_r by lia. f_equal. lia.
Qed.

(** Node [i] is cut at its end. *)
Lemma truncate_node s i nd off :
  wf s → b_nodes (s_base s) !! i = Some nd → 0 < off ≤ nd_len nd →
  let nd' := nd_set_len off nd in let l1 := take i (b_nodes (s_base s)) in
  let l2 := drop (S i) (b_nodes (s_base s)) in
  heap_inv (s_heap s) (s_conf s) (l1 ++ nd' :: l2) ∧
  <[i := nd']> (b_nodes (s_base s)) = l1 ++ nd' :: l2 ∧ length l1 = i ∧
  node_bytes (s_heap s) nd' = ztake off (node_bytes (s_heap s) nd).
Proof.
  intros Hw Hi Hoff nd' l1 l2. pose proof (wf_heap _ Hw) as H. pose proof (list_split_at _ _ _ Hi) as Es.
  fold l1 l2 in Es. assert (Hlen1 : length l1 = i) by (unfold l1; rewrite length_take; apply lookup_lt_Some in Hi; lia).
  assert (Hnd : node_ok (s_heap s) (buf_sz (s_conf s)) nd).
  { pose proof (hi_nodes _ _ _ H) as Hok. rewrite Forall_lookup in Hok. by eapply Hok. }
  split_and!.
  - rewrite Es in H. eapply heap_inv_node; [exact H|done| | |done].
    + apply node_ok_prefix; [done|lia].
    + exact (heap_inv_ext _ _ _ nd H ltac:(rewrite elem_of_app, elem_of_cons; tauto)).
  - rewrite Es, insert_app_r_alt, Hlen1, Nat.sub_diag by lia. done.
  - done.
  - eapply node_bytes_prefix; [exact Hnd|lia].
Qed.

(** vstr_extern_inline_del after the position was found: [p] characters stay
    before the range, [off] of them in node [i]. *)
Definition del_from (i : nat) (num p off len orig : Z) : M bool :=
  upd_base (b_set_len (u64 (orig - len)));;
  scan ← node_at i;
  let tmp := nd_len scan - off in
  if decide (off ≠ nd_len scan ∧ len < tmp) then
    ok ← vstr__del_middle i num off len;
    if (ok : bool) then vstr__cache_del (p + 1) len;; mret true
    else upd_base (λ b, b_set_len (u64 (b_len b + len)) b);; mret false
  else
    len' ← (if decide (off ≠ nd_len scan) then
             vstr__cache_iovec_del_node_end num tmp;;
             upd_node i (nd_set_len off);;
             mret (len - tmp)
           else mret len);
    if decide (len' = 0) then vstr__cache_del (p + 1) len;; mret true
    else
      b ← get_base;
      match drop (S i) (b_nodes b) with
      | [] => undef
      | scan :: rest => del_tail i num len' scan rest b;; vstr__cache_del (p + 1) len;; mret true
      end.

Section del_from.
Context (s : St) (i : nat) (nd : Vstr_node) (num p off len : Z).
Hypothesis Hw : wf s.
Hypothesis Hi : b_nodes (s_base s) !! i = Some nd.
Hypothesis Hoff : 0 < off ≤ nd_len nd.
Hypothesis Hsum : sum_len (take i (b_nodes (s_base s))) + off = p + b_used (s_base s).
Hypothesis Hp : 1 ≤ p.
Hypothesis Hlen : 0 < len.
Hypothesis Hle : p + len ≤ b_len (s_base s).

Lemma del_from_first : i = 0%nat → b_used (s_base s) < off.
Proof. intros ->. rewrite take_0 in Hsum. cbn in Hsum. lia. Qed.
Lemma del_from_good : ¬ del_bad s (p + 1) len.
Proof. unfold del_bad. lia. Qed.
Lemma del_from_len : u64 (b_len (s_base s) - len) = b_len (s_base s) - len.
Proof.
  apply u64_id. pose proof (bi_size _ (wf_base _ Hw)). pose proof (bi_len _ (wf_base _ Hw)).
  pose proof (wf_used_nonneg _ Hw). lia.
Qed.

(** The range is inside node [i]. *)
Lemma del_from_middle :
  len < nd_len nd - off → room 1 1 s →
  wp (ok ← vstr__del_middle i num off len;
      if (ok : bool) then vstr__cache_del (p + 1) len;; mret true
      else upd_base (λ b, b_set_len (u64 (b_len b + len)) b);; mret false)
    (on_base (b_set_len (b_len (s_base s) - len)) s) (λ ok s', del_post s (p + 1) len ok s').
Proof.
  intros Hlt Hroom. wp_step. wp_apply (vstr__del_middle_spec s i nd num off len Hw Hi); [lia|lia|lia|done|].
  intros ok s1 H1. destruct ok; cbn beta iota.
  - eapply cut_del_post; [exact Hw|exact Hi|exact Hoff|apply del_from_first|exact H1|lia|lia|apply del_from_good|].
    replace (p + 1 - 1 + len) with (p + len) by lia.
    rewrite (content_from _ _ _ _ _ _ Hw Hi Hoff Hsum) by lia.
    pose proof (hi_nodes _ _ _ (wf_heap _ Hw)) as Hok. rewrite Forall_lookup in Hok.
    pose proof (node_bytes_length _ _ _ (Hok _ _ Hi)). by rewrite zdrop_app_l by lia.
  - destruct H1 as [[B H G C O F] Hm]. wp_step. apply wp_modify. wp_steps.
    set (s2 := on_base _ s1).
    assert (E2 : s_base s2 = s_base s).
    { unfold s2. cbn. rewrite B. cbn. pose proof (bi_size _ (wf_base _ Hw)). pose proof (bi_len _ (wf_base _ Hw)).
      pose proof (wf_used_nonneg _ Hw). pose proof Hle.
      replace (b_len (b_set_len _ _)) with (b_len (s_base s) - len) by by destruct (s_base s).
      rewrite u64_id by lia. destruct (s_base s). cbn. f_equal. lia. }
    assert (En : b_nodes (s_base (on_base (b_set_len (b_len (s_base s) - len)) s)) = b_nodes (s_base s)).
    { cbn. by destruct (s_base s). }
    rewrite En in H. unfold del_post. rewrite decide_False by apply del_from_good.
    split_and!; [| exact C | | exact Hm].
    + split; rewrite E2; [exact H|apply Hw..].
    + unfold st_content, content. rewrite E2. f_equal.
      eapply (heap_grows_chain (s_heap s) (s_heap s1)); [exact G|apply (wf_heap _ Hw)].
Qed.

(** The nodes after a truncated node [i] *)
Lemma del_from_tail s1 nd' m len' :
  same_fields s s1 → s_heap s1 = s_heap s → s_conf s1 = s_conf s →
  b_nodes (s_base s1) = take i (b_nodes (s_base s)) ++ nd' :: drop (S i) (b_nodes (s_base s)) →
  heap_inv (s_heap s) (s_conf s) (b_nodes (s_base s1)) →
  nd' = nd_set_len off nd → node_bytes (s_heap s) nd' = ztake off (node_bytes (s_heap s) nd) →
  b_num (s_base s1) = b_num (s_base s) → b_len (s_base s1) = b_len (s_base s) - len →
  len' = len - (nd_len nd - off) → 0 ≤ len' →
  wp (if decide (len' = 0) then vstr__cache_del (p + 1) m;; mret true
      else b ← get_base;
        match drop (S i) (b_nodes b) with
        | [] => undef
        | scan :: rest => del_tail i num len' scan rest b;; vstr__cache_del (p + 1) m;; mret true
        end) s1 (λ ok s', del_post s (p + 1) len ok s').
Proof.
  intros SF Eh Ec En HI Hnd' Hby Em El Hl' Hl0. pose proof Hsum as Hsm. pose proof Hle as Hle2.
  set (l1 := take i (b_nodes (s_base s))) in *. set (l2 := drop (S i) (b_nodes (s_base s))) in *.
  assert (Hlen1 : length l1 = i) by (unfold l1; rewrite length_take; apply lookup_lt_Some in Hi; lia).
  pose proof (list_split_at _ _ _ Hi) as Es. fold l1 l2 in Es.
  pose proof (hi_nodes _ _ _ (wf_heap _ Hw)) as Hok. rewrite Es, Forall_app, Forall_cons in Hok.
  destruct Hok as (Hok1&Hnd&Hok2). pose proof (node_bytes_length _ _ _ Hnd) as Hz.
  pose proof (bi_len _ (wf_base _ Hw)) as Hbl. rewrite Es, sum_len_app in Hbl. cbn [sum_len] in Hbl.
  pose proof (bi_num _ (wf_base _ Hw)) as Hbn. rewrite Es, length_app in Hbn. cbn [length] in Hbn.
  assert (Hkeep : zdrop (p + 1 - 1 + len) (st_content s) = zdrop len' (chain_bytes (s_heap s) l2)).
  { replace (p + 1 - 1 + len) with (p + len) by lia.
    rewrite (content_from _ _ _ _ _ _ Hw Hi Hoff Hsum), zdrop_app_r by lia. f_equal. lia. }
  assert (Hfin : ∀ s2 R', same_fields s s2 → b_nodes (s_base s2) = l1 ++ nd' :: R' →
    chain_bytes (s_heap s2) (l1 ++ [nd']) = chain_bytes (s_heap s) (l1 ++ [nd']) →
    chain_bytes (s_heap s2) R' = zdrop len' (chain_bytes (s_heap s) l2) → sum_len R' = sum_len l2 - len' →
    (∀ x, x ∈ R' → ∃ y, y ∈ l2 ∧ nd_type y = nd_type x) →
    heap_inv (s_heap s2) (s_conf s2) (b_nodes (s_base s2)) → b_num (s_base s2) = zlen (b_nodes (s_base s2)) →
    b_len (s_base s2) = b_len (s_base s) - len →
    wp (vstr__cache_del (p + 1) m;; mret true) s2 (λ ok s', del_post s (p + 1) len ok s')).
  { intros s2 R' SF2 En2 Hpre HR Hs2 Ht HI2 Hn2 Hl2.
    assert (Hlp : zlen (chain_bytes (s_heap s2) l1) = zlen (chain_bytes (s_heap s) l1)).
    { pose proof (hi_nodes _ _ _ HI2) as Hok2'. rewrite En2, Forall_app in Hok2'. destruct Hok2' as [Hok2' _].
      rewrite (chain_bytes_length _ _ _ Hok1), (chain_bytes_length _ _ _ Hok2'). done. }
    rewrite !chain_bytes_app in Hpre. apply app_inj_1 in Hpre as [Hp1 Hp2]; [|lia].
    rewrite !chain_bytes_cons, chain_bytes_nil, !app_nil_r, Hby in Hp2.
    eapply (cut_del_post s i nd off (zdrop len' (chain_bytes (s_heap s) l2)));
      [exact Hw|exact Hi|exact Hoff|apply del_from_first| |fold l1; lia|lia|apply del_from_good|done].
    eapply same_fields_cut; [exact SF2|exact En2|by rewrite Hnd'..| | | |exact Hp1|done|done|].
    - rewrite Hnd'. cbn. lia.
    - by rewrite chain_bytes_cons, Hp2, HR.
    - intros x Hx. destruct (Ht x Hx) as (y&Hy&?). exists y. split; [|done].
      rewrite Es, elem_of_app, elem_of_cons. tauto.
    - rewrite En2, Hl2, Hbl, sum_len_app, (sf_used _ _ SF2). rewrite Hnd'. cbn. lia. }
  case_decide as Hd.
  - apply (Hfin s1 l2); rewrite ?Eh; try done; rewrite ?Ec; try done.
    + rewrite zdrop_0 by lia. done.
    + lia.
    + eauto.
    + rewrite Em, En, Hbn, length_app. done.
  - wp_step. apply wp_gets. rewrite En.
    replace (drop (S i) (l1 ++ nd' :: l2)) with l2.
    2:{ rewrite <- Hlen1, drop_app_ge by lia. by replace (S (length l1) - length l1)%nat with 1%nat by lia. }
    destruct l2 as [|scan rest] eqn:El2; [cbn in Hbl; lia|]. rewrite <- El2 in *. wp_step.
    replace (l1 ++ nd' :: l2) with ((l1 ++ [nd']) ++ scan :: rest) in En by (rewrite <- app_assoc, El2; done).
    wp_apply (del_tail_spec i num len' scan rest s1 (l1 ++ [nd'])); [exact En| | | |split; [lia|]|apply SF|].
    + rewrite length_app. cbn. lia.
    + by rewrite Eh, Ec, <- En.
    + rewrite Em, Hbn, El2, !length_app. cbn. lia.
    + rewrite <- El2. lia.
    + intros _ s2 [SF2 (R'&En2&Hc2&Hs2&Ht2) HI2 Hpre Hn2 Hl2]. rewrite Eh, <- El2 in *. cbn beta.
      apply (Hfin s2 R'); try done.
      * by eapply same_fields_trans.
      * by rewrite En2, <- app_assoc.
      * by rewrite Hl2.
Qed.

Lemma del_from_spec :
  room 1 1 s → wp (del_from i num p off len (b_len (s_base s))) s (λ ok s', del_post s (p + 1) len ok s').
Proof.
  intros Hroom. unfold del_from. wp_step. apply wp_modify.
  rewrite del_from_len. set (s1 := on_base _ s).
  assert (EN : b_nodes (s_base s1) = b_nodes (s_base s) ∧ b_num (s_base s1) = b_num (s_base s) ∧
    b_len (s_base s1) = b_len (s_base s) - len) by (unfold s1; cbn; by destruct (s_base s)).
  destruct EN as (EN&EM&EL).
  assert (SF1 : same_fields s s1) by (apply same_fields_len; exact (ci_vec _ (wf_cache _ Hw))).
  wp_step. unfold node_at. wp_steps. rewrite EN. eapply wp_of_option; [exact Hi|]. cbn beta zeta.
  case_decide as Hd; [apply del_from_middle; [lia|done]|]. wp_step.
  destruct (truncate_node s i nd off Hw Hi Hoff) as (HI&Hins&Hl1&Hby).
  case_decide as Ho.
  - wp_step. wp_apply vstr__cache_iovec_del_node_end_step; [apply SF1|]. intros _ s2 Hvs.
    pose proof (same_fields_trans _ _ _ SF1 (same_fields_vec _ _ Hvs)) as SF2. destruct Hvs as (u&v&E2&_).
    unfold upd_node, node_at. wp_steps. eapply wp_of_option.
    { rewrite E2. cbn. rewrite <- EN in Hi. replace (b_nodes _) with (b_nodes (s_base s1)); [exact Hi|].
      cbn. by destruct (s_base s) as [? ? ? ? ? ? ? ? ? ? ? ? []]. }
    cbn beta. wp_steps.
    eapply (del_from_tail _ (nd_set_len off nd)); try done.
    + eapply same_fields_trans; [exact SF2|]. apply same_fields_nodes, SF2.
    + by rewrite E2.
    + by rewrite E2.
    + cbn. rewrite <- Hins, <- EN, E2. by destruct s as [h c [? ? ? ? ? ? ? ? ? ? ? ? []]].
    + cbn. rewrite E2. replace (b_nodes _) with (<[i:=nd_set_len off nd]> (b_nodes (s_base s))).
      * by rewrite Hins.
      * by destruct s as [h c [? ? ? ? ? ? ? ? ? ? ? ? []]].
    + rewrite E2. by destruct s as [h c [? ? ? ? ? ? ? ? ? ? ? ? []]].
    + rewrite E2. by destruct s as [h c [? ? ? ? ? ? ? ? ? ? ? ? []]].
    + lia.
  - wp_steps. assert (nd = nd_set_len off nd) as Hnd.
    { assert (nd_len nd = off) as <- by lia. by destruct nd. }
    eapply (del_from_tail _ nd); try done; rewrite ?EN; try lia.
    + by apply list_split_at.
    + apply Hw.
    + by rewrite <- Hby, <- Hnd.
Qed.
End del_from.


Lemma del_post_keeps s s1 pos len ok s' :
  keeps 0 0 s s1 → malloc_bad (s_conf s1) = malloc_bad (s_conf s) → ¬ del_bad s pos len →
  del_post s1 pos len ok s' → del_post s pos len ok s'.
Proof.
  intros [W C L F _ _] Hm Hb. unfold del_post. rewrite decide_False by (unfold del_bad in *; by rewrite L).
  rewrite decide_False by done. rewrite C, Hm. intros (?&?&?). split_and!; [done|by eapply conf_same_trans|done].
Qed.

Lemma vstr_extern_inline_del_spec s pos len :
  wf s → 0 ≤ pos → 0 < len → pos + len - 1 ≤ SIZE_MAX → room 1 1 s →
  wp (vstr_extern_inline_del pos len) s (λ ok s', del_post s pos len ok s').
Proof.
  intros Hw Hpos Hlen Hmax Hroom. unfold vstr_extern_inline_del. wp_step. apply wp_gets. cbv zeta.
  destruct (decide (del_bad s pos len)) as [Hb|Hb].
  { assert (Hbad : ¬ (pos ≠ 0 ∧ pos ≤ b_len (s_base s) ∧ vstr_sc_poslast pos len ≤ b_len (s_base s))).
    { intros (H0&_&H2). rewrite poslast_id in H2 by lia. unfold del_bad in Hb. lia. }
    rewrite bool_decide_eq_false_2 by done. cbn. wp_steps. unfold del_post. by rewrite decide_True. }
  assert (Hin : 1 ≤ pos ∧ pos + len - 1 ≤ b_len (s_base s)) by (unfold del_bad in Hb; lia).
  rewrite bool_decide_eq_true_2 by (rewrite poslast_id by lia; lia). cbn [negb].
  pose proof (wf_content_length _ Hw) as Hcl.
  case_decide as H1.
  - assert (pos = 1) as -> by lia. case_decide as Hall; wp_step.
    + wp_apply vstr__del_all_spec; [done| |].
      { intros E. pose proof (bi_len _ (wf_base _ Hw)) as Hl. rewrite E in Hl. cbn in Hl.
        pose proof (wf_used_nonneg _ Hw). lia. }
      intros _ s' HD. wp_steps. eapply deleted_post; [exact HD|done|].
      by rewrite ztake_0, zdrop_all by lia.
    + wp_apply vstr__del_beg_spec; [done|lia|]. intros _ s' HD. wp_steps. eapply deleted_post; [exact HD|done|].
      by rewrite ztake_0 by lia.
  - replace (if decide (b_len (s_base s) ≤ u64 (pos - 1 + len)) then b_len (s_base s) - (pos - 1) else len)
      with len.
    2:{ rewrite u64_id by lia. case_decide; lia. }
    wp_step. wp_apply vstr_base__pos_spec; [done|lia|]. intros [[i off] num] s1 (Hat&Hpc&Hw1).
    pose proof (pos_cached_keeps _ _ Hpc Hw Hw1) as K1. destruct Hpc as [pc E1].
    destruct Hat as (nd&Hi&Hoff&Hsum). cbn beta iota.
    assert (EN : b_nodes (s_base s1) = b_nodes (s_base s) ∧ b_used (s_base s1) = b_used (s_base s) ∧
      s_conf s1 = s_conf s) by (rewrite E1; by destruct s as [? ? []]).
    destruct EN as (EN&EU&EC). rewrite <- EN in Hi, Hsum. rewrite <- EU in Hsum.
    assert (HF : wp (del_from i num (pos - 1) off len (b_len (s_base s))) s1 (λ ok s', del_post s1 (pos - 1 + 1) len ok s')).
    { rewrite <- (kp_len _ _ _ _ K1). eapply del_from_spec; [exact Hw1|exact Hi|done|done|lia|done|rewrite (kp_len _ _ _ _ K1); lia|].
      eapply (keeps_room 0 0); [exact K1|exact Hroom]. }
    unfold del_from in HF. replace (pos - 1 + 1) with pos in HF by lia.
    eapply wp_mono; [exact HF|]. intros ok s' HP. cbn beta in HP |- *.
    eapply del_post_keeps; [exact K1|by rewrite EC|done|done].
Qed.

(** ** The fast paths *)

Lemma same_fields_cstr f s : vec_ok (s_base s) → ∃ c, upd_cstr_cache f s = Some (tt, on_base (b_set_cache c) s) ∧
  c_pos c = c_pos (b_cache (s_base s)) ∧ c_vec c = c_vec (b_cache (s_base s)).
Proof.
  intros Hv. unfold upd_cstr_cache, mbind, M_bind, get_base, gets.
  assert (E : s = on_base (b_set_cache (b_cache (s_base s))) s) by by destruct s as [? ? []].
  destruct (cache_get_cstr (s_base s)) as [cd|]; [case_decide|].
  - eexists. split; [reflexivity|]. by destruct (b_cache (s_base s)).
  - exists (b_cache (s_base s)). by rewrite <- E.
  - exists (b_cache (s_base s)). by rewrite <- E.
Qed.

(** The fast paths end by forgetting the remembered node. *)
Lemma cache_pos_forget_spec s :
  wf_upto 0 s → wp cache_pos_forget s (λ _ s', wf s' ∧ st_content s' = st_content s ∧ s_conf s' = s_conf s ∧
    s_heap s' = s_heap s).
Proof.
  intros [H HB _ HA HV]. unfold cache_pos_forget. wp_step. apply wp_gets.
  destruct (cache_get_pos (s_base s)) as [data|] eqn:Ed.
  - unfold upd_cache. apply wp_modify.
    destruct s as [h c [ns bl bn us iu ca ic f1 f2 f3 f4 gc [p v cs]]]. cbn in *. split; [|done].
    split; cbn; [done|by destruct HB; split|]. split; cbn; [|by eauto|done].
    unfold cache_get_pos. cbn. destruct ca; [|done]. by intros ? [= <-].
  - wp_steps. split; [|done]. split; [done|done|]. split; [|done|done]. rewrite Ed. done.
Qed.

(** What is common to both: the change of the C string and I/O vector caches
    comes between the change of the string and the forgetting. *)
Lemma fast_finish s s1 f (iov : M ()) keep :
  wf s → s_heap s1 = s_heap s → s_conf s1 = s_conf s →
  heap_inv (s_heap s) (s_conf s) (b_nodes (s_base s1)) → base_inv (s_base s1) →
  b_cache (s_base s1) = b_cache (s_base s) → cache_available (s_base s1) = cache_available (s_base s) →
  vec_ok (s_base s1) → (∀ s2, vec_ok (s_base s2) → wp iov s2 (λ _ s3, vec_step s2 s3)) →
  st_content s1 = keep →
  wp (upd_cstr_cache f;; iov;; cache_pos_forget) s1 (λ _ s', wf s' ∧ st_content s' = keep ∧ s_conf s' = s_conf s).
Proof.
  intros Hw Eh Ec HI HB Ek Ea Hv Hiov Hby. destruct (same_fields_cstr f s1 Hv) as (c&Hrun&Hcp&Hcv).
  apply wp_bind. unfold wp at 1. rewrite Hrun. set (s2 := on_base (b_set_cache c) s1).
  assert (Hv2 : vec_ok (s_base s2)).
  { unfold vec_ok in *. unfold s2. rewrite <- Hcv in Hv. cbn. by destruct (s_base s1). }
  wp_step. wp_apply Hiov; [exact Hv2|]. intros _ s3 Hvs.
  pose proof (vec_step_ok _ _ Hvs) as Hv3. destruct Hvs as (u&v&E3&_).
  assert (F : b_nodes (s_base s3) = b_nodes (s_base s1) ∧ b_used (s_base s3) = b_used (s_base s1) ∧
    s_heap s3 = s_heap s1 ∧ s_conf s3 = s_conf s1 ∧ cache_get_pos (s_base s3) = cache_get_pos (s_base s) ∧
    cache_available (s_base s3) = cache_available (s_base s) ∧
    c_pos (b_cache (s_base s3)) = c_pos (b_cache (s_base s)) ∧ base_inv (s_base s3)).
  { assert (Eg : cache_get_pos (s_base s1) = cache_get_pos (s_base s)) by (unfold cache_get_pos; by rewrite Ek, Ea).
    rewrite <- Eg, <- Ea, <- Ek, E3. unfold s2. clear -HB Hcp. destruct HB, c as [cp cv cs], s1 as [h c [? ? ? ? ? ? ? ? ? ? ? ? []]].
    cbn in *. subst cp. split_and!; try done. }
  destruct F as (F1&F2&F3&F4&F5&F6&F7&F8).
  wp_apply cache_pos_forget_spec.
  { apply (wf_upto_0 s); try done. by rewrite F1, F3, F4, Eh, Ec. }
  intros _ s4 (Hw4&C4&E4&_). split; [done|]. split; [|congruence].
  rewrite C4, <- Hby. unfold st_content, content. by rewrite F1, F2, F3.
Qed.

Lemma del_post_fast s pos len s' :
  ¬ del_bad s pos len →
  wf s' ∧ st_content s' = ztake (pos - 1) (st_content s) ++ zdrop (pos - 1 + len) (st_content s) ∧ s_conf s' = s_conf s →
  del_post s pos len true s'.
Proof.
  intros Hb (Hw'&C'&E'). unfold del_post. rewrite decide_False by done. rewrite E'.
  by split_and!.
Qed.

Lemma vstr_del_inline_beg_spec s beg len :
  wf s → head (b_nodes (s_base s)) = Some beg → 0 < len → len + b_used (s_base s) < nd_len beg →
  wp (vstr_del_inline_beg 1 len) s (λ _ s', del_post s 1 len true s').
Proof.
  intros Hw Hb Hlen Hlt. pose proof Hw as [H HB HC]. pose proof (wf_lens _ Hw) as Hlp.
  pose proof (wf_used_nonneg _ Hw) as Hu0. pose proof (bi_size _ HB) as Hsz. pose proof (bi_len _ HB) as Hbl.
  destruct (b_nodes (s_base s)) as [|nd ns] eqn:En; [done|]. injection Hb as ->.
  apply Forall_cons in Hlp as [_ Hlp]. pose proof (sum_len_nonneg _ Hlp) as Hs0. cbn [sum_len] in Hbl, Hsz.
  pose proof (hi_nodes _ _ _ H) as Hok. apply Forall_cons in Hok as [Hok _].
  eapply wp_mono; [|intros ? s'; apply (del_post_fast s 1 len s'); unfold del_bad; lia].
  unfold vstr_del_inline_beg, node_at. wp_steps. rewrite En. eapply wp_of_option; [done|]. cbn beta. wp_steps.
  rewrite ztake_0 by lia. change (1 - 1 + len) with len.
  assert (Hl : u64 (b_len (s_base s) - len) = b_len (s_base s) - len) by (apply u64_id; lia).
  case_decide as Ht.
  - apply wp_modify. cbn [s_base on_base].
    assert (Hu : u16 (b_used (s_base s) + len) = b_used (s_base s) + len).
    { apply u16_id. destruct beg as [a l []]; try done. destruct Hok as [_ [Hle _]].
      pose proof (hi_bsz _ _ _ H). unfold VSTR_MAX_NODE_BUF in *. cbn in *. lia. }
    apply (fast_finish s); cbn [s_heap s_conf s_base on_base]; try done.
    + replace (b_nodes _) with (b_nodes (s_base s)) by by destruct (s_base s). by rewrite En.
    + destruct HB as [B1 B2 B3 B4 B5]. destruct (s_base s). cbn in *. subst. cbn in Hl. split; cbn; rewrite ?Hu, ?Hl; try done; try lia.
      right. exists beg. split_and!; [done|done|lia|lia].
    + by destruct (s_base s).
    + by destruct (s_base s).
    + pose proof (ci_vec _ HC) as Hv. clear -Hv. destruct s as [? ? [? ? ? ? ? ? ? ? ? ? ? ? []]]. exact Hv.
    + intros s2 Hv2. by apply vstr__cache_iovec_del_node_beg_step.
    + unfold st_content, content. cbn. rewrite zdrop_zdrop by lia.
      rewrite <- Hu. f_equal; [|f_equal]; by destruct (s_base s).
  - assert (Eu : b_used (s_base s) = 0).
    { destruct (bi_used _ HB) as [|(bg&Hb&Ht2&_)]; [done|]. rewrite En in Hb. by injection Hb as ->. }
    unfold upd_node, node_at. wp_steps. eapply wp_of_option.
    { cbn. replace (b_nodes _) with (b_nodes (s_base s)) by by destruct (s_base s). by rewrite En. }
    cbn beta. apply wp_modify. cbn [s_base on_base].
    destruct (node_drop_ok (s_heap s) (s_conf s) [] beg ns len H ltac:(lia) Ht) as (HI&Hby&Hnl&Hnt).
    cbn [app] in HI.
    assert (En' : b_nodes (b_set_nodes (<[0%nat:=node_drop len beg]> (b_nodes (b_set_len (u64 (b_len (s_base s) - len)) (s_base s))))
      (b_set_len (u64 (b_len (s_base s) - len)) (s_base s))) = node_drop len beg :: ns).
    { destruct (s_base s). cbn in *. by subst. }
    apply (fast_finish s); cbn [s_heap s_conf s_base on_base]; try done; rewrite ?En'; try done.
    + destruct HB as [B1 B2 B3 B4 B5]. destruct (s_base s). cbn in *. subst. cbn in Hl. split; cbn; rewrite ?Hl, ?Hnl; try done; try lia.
      intros x [->|Hx]%elem_of_cons; [rewrite Hnt; apply (B5 beg); by left|apply (B5 x); by right].
    + by destruct (s_base s).
    + by destruct (s_base s).
    + pose proof (ci_vec _ HC) as Hv. clear -Hv. destruct s as [? ? [? ? ? ? ? ? ? ? ? ? ? ? []]]. exact Hv.
    + intros s2 Hv2. by apply vstr__cache_iovec_del_node_beg_step.
    + unfold st_content, content. cbn [s_base s_heap on_base]. rewrite En', En.
      replace (b_used _) with (b_used (s_base s)) by by destruct (s_base s). rewrite Eu.
      rewrite (zdrop_0 0), (zdrop_0 0 (chain_bytes _ (beg :: ns))), !chain_bytes_cons, Hby by lia.
      pose proof (node_bytes_length _ _ _ Hok). by rewrite zdrop_app_l by lia.
Qed.

Lemma vstr_del_inline_end_spec s end_ pos len :
  wf s → last (b_nodes (s_base s)) = Some end_ → 2 ≤ pos → 0 < len →
  b_len (s_base s) - nd_len end_ + 1 < pos → len = b_len (s_base s) - pos + 1 →
  (length (b_nodes (s_base s)) = 1%nat → b_used (s_base s) = 0) →
  wp (vstr_del_inline_end pos len) s (λ _ s', del_post s pos len true s').
Proof.
  intros Hw Hlast Hp2 Hlen Hpos Hl Hone. pose proof Hw as [H HB HC]. pose proof (wf_lens _ Hw) as Hlp.
  pose proof (wf_used_nonneg _ Hw) as Hu0. pose proof (bi_size _ HB) as Hsz. pose proof (bi_len _ HB) as Hbl.
  pose proof (wf_content_length _ Hw) as Hcl.
  assert (Hi : b_nodes (s_base s) !! pred (length (b_nodes (s_base s))) = Some end_) by by rewrite <- last_lookup.
  set (i := pred (length (b_nodes (s_base s)))) in *.
  apply last_Some in Hlast as [l1 En].
  assert (Ei : i = length l1) by (unfold i; rewrite En, length_app; cbn; lia).
  pose proof (hi_nodes _ _ _ H) as Hok. rewrite En, Forall_app, Forall_singleton in Hok. destruct Hok as [Hok1 Hok].
  unfold lens_pos in Hlp. rewrite En, Forall_app, Forall_singleton in Hlp. destruct Hlp as [Hlp1 Hle]. pose proof (sum_len_nonneg _ Hlp1) as Hs1.
  rewrite En, sum_len_app in Hbl, Hsz. cbn [sum_len] in Hbl, Hsz.
  set (off := nd_len end_ - len).
  assert (Hu1 : b_used (s_base s) ≤ sum_len l1).
  { destruct (bi_used _ HB) as [->|(bg&Hb&_&Hlt)]; [lia|]. destruct l1 as [|x l1'].
    - rewrite Hone by (by rewrite En). cbn. lia.
    - rewrite En in Hb. injection Hb as ->. apply Forall_cons in Hlp1 as [_ Hlp1].
      pose proof (sum_len_nonneg _ Hlp1). cbn. lia. }
  destruct (truncate_node s i end_ off Hw Hi ltac:(lia)) as (HI&Hins&_&Hby).
  assert (Et : take i (b_nodes (s_base s)) = l1) by (by rewrite En, Ei, take_app_length).
  assert (Ed : drop (S i) (b_nodes (s_base s)) = []) by (apply drop_ge; unfold i; lia).
  rewrite Et, Ed in HI, Hins.
  eapply wp_mono; [|intros ? s'; apply (del_post_fast s pos len s'); unfold del_bad; lia].
  unfold vstr_del_inline_end, upd_node, node_at. wp_steps. eapply wp_of_option.
  { cbn. replace (b_nodes (b_set_len _ _)) with (b_nodes (s_base s)) by by destruct (s_base s). exact Hi. }
  cbn beta. wp_steps.
  rewrite u28_id by (destruct Hok as [? _]; unfold VSTR_MAX_NODE_ALL in *; lia). fold off i. set (s1 := on_base _ (on_base _ s)).
  assert (F1 : b_nodes (s_base s1) = l1 ++ [nd_set_len off end_] ∧ b_used (s_base s1) = b_used (s_base s) ∧
    base_inv (s_base s1)).
  { assert (En1 : b_nodes (s_base s1) = l1 ++ [nd_set_len off end_]).
    { rewrite <- Hins. unfold s1. cbn. by destruct (s_base s). }
    assert (Eu1 : b_used (s_base s1) = b_used (s_base s)) by (unfold s1; cbn; by destruct (s_base s)).
    split_and!; try done. split; rewrite ?En1, ?Eu1.
    - destruct (bi_used _ HB) as [|(bg&Hb&Ht&Hlt)]; [by left|right]. destruct l1 as [|x l1'].
      + rewrite Hone in Hlt by (by rewrite En). lia.
      + rewrite En in Hb. injection Hb as ->. by exists bg.
    - rewrite sum_len_app. cbn [sum_len nd_len nd_set_len].
      replace (b_len (s_base s1)) with (u64 (b_len (s_base s) - len)) by (unfold s1; cbn; by destruct (s_base s)).
      rewrite u64_id by lia. lia.
    - rewrite sum_len_app. cbn [sum_len nd_len nd_set_len]. lia.
    - replace (b_num (s_base s1)) with (b_num (s_base s)) by (unfold s1; cbn; by destruct (s_base s)).
      rewrite (bi_num _ HB), En, !length_app. done.
    - intros x Hx. assert (∃ y, y ∈ b_nodes (s_base s) ∧ nd_type y = nd_type x) as (y&Hy&<-).
      { rewrite En. apply elem_of_app in Hx as [Hx|Hx%list_elem_of_singleton].
        - exists x. rewrite elem_of_app. tauto.
        - exists end_. rewrite elem_of_app, list_elem_of_singleton, Hx. tauto. }
      pose proof (bi_flags _ HB y Hy). unfold s1. cbn. by destruct (s_base s), (nd_type y). }
  destruct F1 as (F1&F2&F3).
  apply wp_unbind, (fast_finish s); rewrite ?F1; try done.
  - unfold s1. cbn. by destruct (s_base s).
  - unfold s1. cbn. by destruct (s_base s).
  - pose proof (ci_vec _ HC) as Hv. unfold s1. clear -Hv. destruct s as [? ? [? ? ? ? ? ? ? ? ? ? ? ? []]]. exact Hv.
  - intros s2 Hv2. by apply vstr__cache_iovec_del_node_end_step.
  - unfold st_content, content. rewrite F1, F2, (zdrop_all (pos - 1 + len)) by (rewrite length_zdrop, En, (chain_bytes_length _ (buf_sz (s_conf s)));
      [rewrite sum_len_app; cbn [sum_len]; lia|by rewrite Forall_app, Forall_singleton]).
    rewrite app_nil_r. change (s_heap s1) with (s_heap s). rewrite En, !chain_bytes_app, !chain_bytes_cons, chain_bytes_nil, !app_nil_r, Hby.
    pose proof (chain_bytes_length _ _ _ Hok1) as Hz1. pose proof (node_bytes_length _ _ _ Hok) as Hz2.
    rewrite !zdrop_app_l by lia.
    rewrite ztake_app_r by (rewrite length_zdrop; lia). do 2 f_equal. rewrite length_zdrop. lia.
Qed.

(** The length of the range, as the fast path computes it *)
Lemma posdiff_id pos n : 1 ≤ pos ≤ n → n ≤ SIZE_MAX → vstr_sc_posdiff pos n = n - pos + 1.
Proof.
  unfold SIZE_MAX. intros. unfold vstr_sc_posdiff. rewrite (u64_id (n - pos)) by (unfold SIZE_MAX; lia).
  apply u64_id. unfold SIZE_MAX. lia.
Qed.

(** [len + base->used] must not wrap, or the first fast path is taken by mistake. *)
Definition del_range_ok (s : St) (pos len : Z) : Prop :=
  0 ≤ pos ∧ 0 ≤ len ∧ pos + len + VSTR_MAX_NODE_BUF ≤ SIZE_MAX ∧
  (pos = 0 → len ≠ 0 → b_len (s_base s) ≠ 0).

(** The last node, and why the second fast path leaves something of it *)
Lemma last_node_facts s beg end_ :
  wf s → head (b_nodes (s_base s)) = Some beg → last (b_nodes (s_base s)) = Some end_ →
  nd_len end_ ≤ VSTR_MAX_NODE_ALL ∧ 0 < nd_len end_ ∧ b_used (s_base s) < nd_len beg ∧
  ((length (b_nodes (s_base s)) = 1%nat ∧ b_len (s_base s) = nd_len end_ - b_used (s_base s)) ∨
   (length (b_nodes (s_base s)) ≠ 1%nat ∧ nd_len end_ < b_len (s_base s))).
Proof.
  intros Hw Hb He. pose proof (wf_heap _ Hw) as H. pose proof (wf_lens _ Hw) as Hlp.
  pose proof (bi_len _ (wf_base _ Hw)) as Hbl. unfold lens_pos in Hlp.
  assert (Hf : b_used (s_base s) < nd_len beg).
  { apply (wf_used_first s); [done|]. by rewrite <- head_lookup. }
  apply last_Some in He as [l1 En]. pose proof (hi_nodes _ _ _ H) as Hok.
  rewrite En in *. rewrite Forall_app, Forall_singleton in Hok, Hlp. destruct Hok as [_ [? _]], Hlp as [Hl1 Hl2].
  split_and!; [lia|lia|done|]. rewrite length_app in *. rewrite sum_len_app in Hbl. cbn in Hbl.
  destruct l1 as [|x l1].
  - injection Hb as ->. cbn in *. left. lia.
  - injection Hb as ->. right. apply Forall_cons in Hl1 as [_ Hl1].
    pose proof (sum_len_nonneg _ Hl1). cbn in *. lia.
Qed.

Lemma vstr_del_spec s pos len :
  wf s → del_range_ok s pos len → room 1 1 s →
  wp (vstr_del pos len) s (λ ok s', del_post s pos len ok s').
Proof.
  intros Hw (Hpos&Hlen&Hmax&H0) Hroom. pose proof Hw as [H HB HC].
  pose proof (wf_used_nonneg _ Hw) as Hu0. pose proof (bi_size _ HB) as Hsz. pose proof (bi_len _ HB) as Hbl.
  assert (Hext : 0 < len → wp (vstr_extern_inline_del pos len) s (λ ok s', del_post s pos len ok s')).
  { intros. apply vstr_extern_inline_del_spec; try done. unfold VSTR_MAX_NODE_BUF in Hmax. lia. }
  unfold vstr_del. wp_step. apply wp_gets. case_decide as H1.
  { wp_steps. unfold del_post. rewrite decide_True; [done|]. unfold del_bad. lia. }
  case_decide as H2.
  { wp_steps. unfold del_post. rewrite decide_False by (unfold del_bad; lia). subst.
    split_and!; try done. by rewrite Z.add_0_r, ztake_zdrop. }
  destruct (negb _); [apply Hext; lia|].
  destruct (decide (b_nodes (s_base s) = [])) as [En|En]; [rewrite En in Hbl; cbn in Hbl; lia|].
  destruct (head (b_nodes (s_base s))) as [beg|] eqn:Ebeg; [|by destruct (b_nodes (s_base s))].
  destruct (last (b_nodes (s_base s))) as [end_|] eqn:Eend; [|by apply last_None in Eend].
  destruct (last_node_facts _ _ _ Hw Ebeg Eend) as (Hle1&Hle2&Hfirst&Hone).
  assert (Hub : b_used (s_base s) ≤ VSTR_MAX_NODE_BUF).
  { pose proof (hi_bsz _ _ _ H). destruct (bi_used _ HB) as [->|(bg&Hb&Ht&Hlt)]; [lia|].
    pose proof (hi_nodes _ _ _ H) as Hok. destruct (b_nodes (s_base s)) as [|x l]; [done|].
    injection Hb as ->. apply Forall_cons in Hok as [[_ Hok] _]. destruct bg as [a n []]; try done.
    destruct Hok as [? _]. cbn in *. lia. }
  unfold VSTR_MAX_NODE_BUF, VSTR_MAX_NODE_ALL in *.
  cbv zeta. case_decide as H3.
  { destruct H3 as [-> H3]. rewrite u64_id in H3 by lia. wp_step.
    wp_apply vstr_del_inline_beg_spec; [done|exact Ebeg|lia|lia|]. intros _ s' HP. by wp_steps. }
  case_decide as H4; [|apply Hext; lia]. destruct H4 as [H4 H5].
  destruct (decide (pos = 0)) as [->|Hp0].
  { pose proof (u64_range (b_len (s_base s) - ((if decide (length (b_nodes (s_base s)) = 1%nat)
      then nd_len end_ + b_used (s_base s) else nd_len end_) - 1))). lia. }
  rewrite posdiff_id in H5 by lia.
  assert (HE : b_len (s_base s) - nd_len end_ + 1 < pos ∧ (length (b_nodes (s_base s)) = 1%nat → b_used (s_base s) = 0)).
  { unfold SIZE_MAX in Hmax, Hsz. case_decide as Hd; destruct Hone as [[? Hone]|[? Hone]]; try done.
    - destruct (decide (b_used (s_base s) = 0)) as [E|E]; [rewrite u64_id in H4 by (unfold SIZE_MAX; lia); lia|].
      exfalso. unfold u64 in H4. replace (b_len (s_base s) - (nd_len end_ + b_used (s_base s) - 1))
        with (1 - 2 * b_used (s_base s) + 18446744073709551616 + (-1) * 18446744073709551616) in H4 by lia.
      rewrite Z.mod_add, Z.mod_small in H4 by lia. lia.
    - rewrite u64_id in H4 by (unfold SIZE_MAX; lia). split; [lia|done]. }
  destruct HE as [HE1 HE2]. wp_step.
  wp_apply vstr_del_inline_end_spec; [done|exact Eend|lia|lia|done|done|done|]. intros _ s' HP. by wp_steps.
Qed.

End others.
