(* ===== verification/Edits.v ===== *)
(** * Editing a string is editing a list.

    [edit] names the operations that change a string, [edit_run] is the
    function of the library, [edit_abs] what it does to the list of the
    characters; the contracts of AddTheorems.v and DelTheorems.v make the
    second a specification of the first. *)
From Stdlib Require Import ZArith Lia ZifyBool.
From stdpp Require Import base tactics list numbers option gmap.
From S2P Require Import Prelude State Wp Ref Cache Core Base Add Del Inv PosLemmas SpareLemmas SplitLemmas CacheLemmas AddLemmas StringLemmas AddSpec AddOps AddTheorems DelTheorems.

Section others.
Context {OT : Others}.

Inductive edit :=
| Add_buf (pos : Z) (buffer : pointer) (d : list Z)
| Add_rep_chr (pos chr n : Z)
| Add_ptr (pos : Z) (ptr : pointer) (d : list Z)
| Add_non (pos n : Z)
| Add_ref (pos : Z) (ref : positive) (off : Z) (d : list Z)
| Delete (pos len : Z).

Definition edit_run (e : edit) : M bool :=
  match e with
  | Add_buf pos buffer d => vstr_add_buf pos buffer (zlen d)
  | Add_rep_chr pos chr n => vstr_add_rep_chr pos chr n
  | Add_ptr pos ptr d => vstr_add_ptr pos ptr (zlen d)
  | Add_non pos n => vstr_add_non pos n
  | Add_ref pos ref off d => vstr_add_ref pos ref off (zlen d)
  | Delete pos len => vstr_del pos len
  end.

(** What the caller owes: the data is where the arguments say, outside the
    memory of the string, and the 32-bit counters do not overflow. *)
Definition edit_ok (s : St) (e : edit) : Prop :=
  match e with
  | Add_buf pos buffer d =>
    0 ≤ pos ∧ buf_src (s_heap s) (st_own s) buffer (Some <$> d) ∧ add_room add_buf_op (zlen d) s
  | Add_rep_chr pos chr n => 0 ≤ pos ∧ 0 ≤ n ∧ add_room add_rep_chr_op n s
  | Add_ptr pos ptr d =>
    0 ≤ pos ∧ ptr_src (s_heap s) (st_own s) ptr (Some <$> d) ∧ add_room add_ptr_op (zlen d) s ∧
    b_len (s_base s) + zlen d ≤ VSTR_MAX_NODE_ALL
  | Add_non pos n => 0 ≤ pos ∧ 0 ≤ n ∧ add_room add_non_op n s
  | Add_ref pos ref off d =>
    0 ≤ pos ∧ (0 < zlen d → ref_src ref (s_heap s) (st_own s) off (Some <$> d)) ∧
    add_room (add_ref_op ref) (zlen d) s ∧ b_len (s_base s) + zlen d ≤ VSTR_MAX_NODE_ALL
  | Delete pos len => del_range_ok s pos len ∧ room 1 1 s
  end.

(** Insertion after [pos] characters, deletion from character [pos] (from 1);
    [None]: the position is refused. *)
Definition ins (pos : Z) (d l : list byte_or_non) : option (list byte_or_non) :=
  if decide (zlen l < pos) then None else Some (ztake pos l ++ d ++ zdrop pos l).
Definition edit_abs (e : edit) (l : list byte_or_non) : option (list byte_or_non) :=
  match e with
  | Add_buf pos _ d | Add_ptr pos _ d | Add_ref pos _ _ d => ins pos (Some <$> d) l
  | Add_rep_chr pos chr n => ins pos (zrep n (Some chr)) l
  | Add_non pos n => ins pos (zrep n None) l
  | Delete pos len =>
    if decide (len ≠ 0 ∧ (pos < 1 ∨ zlen l < pos + len - 1)) then None
    else Some (ztake (pos - 1) l ++ zdrop (pos - 1 + len) l)
  end.

(** A refused edit changes nothing, an edit that fails for want of memory keeps the characters. *)
Definition edit_post (e : edit) (s : St) (ok : bool) (s' : St) : Prop :=
  match edit_abs e (st_content s) with
  | None => ok = false ∧ s' = s
  | Some l => wf s' ∧ conf_same (s_conf s) (s_conf s') ∧
      if ok then st_content s' = l else st_content s' = st_content s ∧ malloc_bad (s_conf s') = true
  end.

Lemma edit_post_wf e s ok s' : wf s → edit_post e s ok s' → wf s'.
Proof. unfold edit_post. intros Hw. destruct (edit_abs _ _); [tauto|]. by intros [_ ->]. Qed.

Lemma edit_post_conf e s ok s' : edit_post e s ok s' → conf_same (s_conf s) (s_conf s').
Proof. unfold edit_post. destruct (edit_abs _ _); [tauto|]. intros [_ ->]. apply conf_same_refl. Qed.

Lemma edit_content e s ok s' : edit_post e s ok s' →
  st_content s' = if ok then default (st_content s) (edit_abs e (st_content s)) else st_content s.
Proof.
  unfold edit_post. destruct (edit_abs e (st_content s)) as [l|]; cbn.
  - intros (_&_&H). destruct ok; [done|]. by destruct H.
  - by intros [-> ->].
Qed.

Lemma add_edit_post e k s pos d ok s' :
  wf s → edit_abs e (st_content s) = ins pos d (st_content s) → add_full k s pos d ok s' → edit_post e s ok s'.
Proof.
  intros Hw E (H&[HC _ _ _]&_). revert H. unfold edit_post, add_post, ins in *. rewrite E, (wf_content_length _ Hw).
  destruct (decide (b_len (s_base s) < pos)); [done|]. intros (?&_&?). done.
Qed.
Lemma del_edit_post s pos len ok s' :
  wf s → del_post s pos len ok s' → edit_post (Delete pos len) s ok s'.
Proof.
  intros Hw H. unfold edit_post, del_post, del_bad, edit_abs in *. rewrite (wf_content_length _ Hw).
  destruct (decide (len ≠ 0 ∧ (pos < 1 ∨ b_len (s_base s) < pos + len - 1))); [done|].
  destruct H as (?&?&H). split; [done|]. split; [done|]. destruct ok; tauto.
Qed.

Lemma edit_run_spec e s : wf s → edit_ok s e → wp (edit_run e) s (λ ok s', edit_post e s ok s').
Proof.
  intros Hw Hok. destruct e; cbn in Hok |- *.
  - destruct Hok as (?&Hsrc&Hroom). rewrite <- (length_fmap (Some : Z → byte_or_non) d) in *.
    eapply wp_mono; [by apply vstr_add_buf_full|]. intros ok s'. by apply add_edit_post.
  - destruct Hok as (?&?&?). eapply wp_mono; [by apply vstr_add_rep_chr_full|]. intros ok s'. by apply add_edit_post.
  - destruct Hok as (?&Hsrc&Hroom&?). rewrite <- (length_fmap (Some : Z → byte_or_non) d) in *.
    eapply wp_mono; [by apply vstr_add_ptr_full|]. intros ok s'. by apply add_edit_post.
  - destruct Hok as (?&?&?). eapply wp_mono; [by apply vstr_add_non_full|]. intros ok s'. by apply add_edit_post.
  - destruct Hok as (?&Hsrc&Hroom&?). rewrite <- (length_fmap (Some : Z → byte_or_non) d) in *.
    eapply wp_mono; [by apply vstr_add_ref_full|]. intros ok s'. by apply add_edit_post.
  - destruct Hok as (?&?). eapply wp_mono; [by apply vstr_del_spec|]. intros ok s'. by apply del_edit_post.
Qed.

(** ** Runs of edits *)
Fixpoint edits_run (es : list edit) : M (list bool) :=
  match es with
  | [] => mret []
  | e :: es => ok ← edit_run e; oks ← edits_run es; mret (ok :: oks)
  end.
(** Each edit is legal in the state the edits before it lead to. *)
Fixpoint edits_ok (es : list edit) (s : St) : Prop :=
  match es with
  | [] => True
  | e :: es => edit_ok s e ∧ ∀ ok s', edit_run e s = Some (ok, s') → edits_ok es s'
  end.
(** The edits that returned TRUE, on a list *)
Fixpoint edits_abs (es : list edit) (oks : list bool) (l : list byte_or_non) : list byte_or_non :=
  match es, oks with
  | e :: es, ok :: oks => edits_abs es oks (if ok then default l (edit_abs e l) else l)
  | _, _ => l
  end.

Lemma edits_run_spec es : ∀ s, wf s → edits_ok es s →
  wp (edits_run es) s (λ oks s', wf s' ∧ length oks = length es ∧ st_content s' = edits_abs es oks (st_content s)).
Proof.
  induction es as [|e es IH]; intros s Hw Hok; cbn [edits_run]; [by wp_steps|].
  destruct Hok as [He Hnext]. wp_step. pose proof (edit_run_spec e s Hw He) as HE.
  apply wp_run in HE as (ok&s1&Hrun&Hpost). eapply wp_eq; [exact Hrun|].
  pose proof (edit_post_wf _ _ _ _ Hw Hpost) as Hw1. wp_step.
  eapply wp_mono; [by apply IH; [|apply (Hnext ok)]|]. intros oks s' (Hw'&Hl&Hc).
  wp_step. split_and!; [done|cbn; lia|]. rewrite Hc. cbn. f_equal. unfold edit_post in Hpost. destruct (edit_abs e (st_content s)) as [l|].
  - destruct Hpost as (_&_&H). destruct ok; [done|]. by destruct H.
  - destruct Hpost as [-> ->]. done.
Qed.

End others.
