(* ===== verification/IterLemmas.v ===== *)
(** * What an iterator stands for, and the proof rule of the loops over it. *)
From Stdlib Require Import ZArith Lia ZifyBool.
From stdpp Require Import base tactics list numbers option gmap.
From S2P Require Import Prelude State Wp Ref Cache Core Iter Inv PosLemmas SpareLemmas SplitLemmas CacheLemmas AddLemmas StringLemmas.

Section others.
Context {OT : Others}.

(** [len] characters from position [pos] (from 1) *)
Definition substr (pos len : Z) (l : list byte_or_non) : list byte_or_non := ztake len (zdrop (pos - 1) l).

(** The arguments name a range of the string. *)
Definition in_range (s : St) (pos len : Z) : Prop :=
  1 ≤ pos ∧ 1 ≤ len ∧ pos + len - 1 ≤ b_len (s_base s).

(** The current run of characters of the iterator is [cur]; [rest] follows. *)
Record iter_at (h : heap) (it : Vstr_iter) (cur rest : list byte_or_non) : Prop := {
  ia_len : it_len it = zlen cur;
  ia_remaining : it_remaining it = zlen rest;
  ia_node : ∃ nd R, it_node it = nd :: R ∧ rest = ztake (it_remaining it) (chain_bytes h R) ∧
    (∃ bsz, Forall (node_ok h bsz) R) ∧
    if decide (nd_type nd = NODE_NON) then it_ptr it = None ∧ cur = zrep (it_len it) None
    else ∃ p bs, it_ptr it = Some p ∧ load (h_mem h) p (it_len it) = Some bs ∧ cur = Some <$> bs }.

Lemma iter_at_non h it cur rest :
  iter_at h it cur rest → iter_non it = true → cur = zrep (it_len it) None.
Proof.
  intros [_ _ (nd&R&En&_&_&H)]. unfold iter_non. rewrite En. intros ?%bool_decide_eq_true.
  rewrite decide_True in H by done. tauto.
Qed.
Lemma iter_at_bytes s it cur rest :
  iter_at (s_heap s) it cur rest → iter_non it = false →
  ∃ bs, cur = Some <$> bs ∧ zlen bs = it_len it ∧ wp (iter_bytes it) s (λ r s', r = bs ∧ s' = s).
Proof.
  intros [Hl _ (nd&R&En&_&_&H)]. unfold iter_non, iter_bytes. rewrite En. intros ?%bool_decide_eq_false.
  rewrite decide_False in H by done. destruct H as (p&bs&->&Hld&->). exists bs.
  split_and!; [done|by eapply load_length|]. unfold mem_load. wp_steps. by eapply wp_of_option.
Qed.

(** What a node gives, whole or in part *)
Lemma node_chunk s bsz nd k n :
  node_ok (s_heap s) bsz nd → 0 ≤ k → 0 ≤ n → k + n ≤ nd_len nd →
  let cur := ztake n (zdrop k (node_bytes (s_heap s) nd)) in
  wp (node_ptr nd) s (λ p s', s' = s ∧
    if decide (nd_type nd = NODE_NON) then p = None ∧ cur = zrep n None
    else ∃ q bs, p = Some q ∧ load (h_mem (s_heap s)) (ptr_add q k) n = Some bs ∧ cur = Some <$> bs).
Proof.
  intros [Hl Hok] Hk Hn Hle cur. unfold node_ptr. wp_steps.
  assert (Hsub : ∀ q bs, load (h_mem (s_heap s)) q (nd_len nd) = Some bs →
    load (h_mem (s_heap s)) (ptr_add q k) n = Some (ztake n (zdrop k bs))) by (intros; by eapply load_sub).
  unfold cur, node_bytes. destruct nd as [a len body]; cbn in *.
  destruct body as [| |p|r off]; cbn in Hok |- *.
  - destruct Hok as [Hle2 (blk&Hblk&Hz)]. split; [done|].
    eexists _, _. split_and!; [done|apply Hsub|].
    + eapply load_buf; [exact Hblk|lia].
    + rewrite (load_buf _ _ _ _ Hblk) by lia. by rewrite zdrop_fmap, ztake_fmap.
  - split_and!; [done..|]. rewrite zdrop_zrep, ztake_zrep by lia. by rewrite Z.min_l by lia.
  - destruct Hok as [bs Hbs]. split; [done|]. eexists _, _.
    split_and!; [done|by apply Hsub|]. by rewrite Hbs, zdrop_fmap, ztake_fmap.
  - destruct Hok as (_&_&ref&Href&bs&Hbs). rewrite Href. eapply wp_of_option; [done|]. split; [done|].
    eexists _, _. split_and!; [done|by apply Hsub|]. cbn. by rewrite Hbs, zdrop_fmap, ztake_fmap.
Qed.

(** The next node, until the range ends *)
Lemma vstr_iter_fwd_nxt_spec s it cur rest :
  iter_at (s_heap s) it cur rest →
  wp (vstr_iter_fwd_nxt it) s (λ '(more, it') s', s' = s ∧
    if more : bool then ∃ cur' rest', rest = cur' ++ rest' ∧ 0 < zlen cur' ∧ iter_at (s_heap s) it' cur' rest' ∧
      S (length (it_node it')) = length (it_node it) ∧ it_num it' = u32 (it_num it + 1)
    else rest = [] ∧ it_node it' = [] ∧ it_len it' = 0 ∧ it_remaining it' = 0 ∧ it_num it' = it_num it).
Proof.
  intros [Hl Hr (nd&R&En&Erest&(bsz&HR)&_)]. unfold vstr_iter_fwd_nxt. case_decide as H0.
  { wp_steps. split_and!; try done. destruct rest; [done|cbn in Hr; lia]. }
  rewrite En. cbn [tail]. destruct R as [|nd' R].
  { exfalso. rewrite Erest, chain_bytes_nil in Hr. unfold ztake in Hr. rewrite take_nil in Hr. cbn in Hr. lia. }
  apply Forall_cons in HR as [Hnd' HR]. pose proof (proj1 Hnd') as Hpos.
  pose proof (node_bytes_length _ _ _ Hnd') as Hz. set (n := Z.min (nd_len nd') (it_remaining it)). wp_step.
  wp_apply (node_chunk s bsz nd' 0 n Hnd'); [lia|lia|lia|]. intros p s1 [-> Hp]. wp_steps. split; [done|].
  rewrite (zdrop_0 0) in Hp by lia.
  rewrite chain_bytes_cons in Erest. rewrite ztake_app in Erest.
  replace (ztake (it_remaining it) (node_bytes (s_heap s) nd')) with (ztake n (node_bytes (s_heap s) nd')) in Erest.
  2:{ unfold n. destruct (decide (nd_len nd' ≤ it_remaining it)); [rewrite !ztake_all by lia; done|].
      f_equal. lia. }
  assert (Hcl : zlen (ztake n (node_bytes (s_heap s) nd')) = n) by (rewrite length_ztake; lia).
  rewrite Erest, length_app in Hr.
  eexists _, _. split_and!; [exact Erest|lia| |done|done].
  split; cbn [it_len it_remaining it_node it_ptr]; [lia|lia|].
  exists nd', R. split_and!; [done| |by exists bsz|].
  - assert (Hx : zlen (chain_bytes (s_heap s) R) = sum_len R) by by eapply chain_bytes_length.
    replace (it_remaining it - n) with (Z.max 0 (it_remaining it - zlen (node_bytes (s_heap s) nd'))) by lia.
    destruct (decide (it_remaining it ≤ nd_len nd')); [rewrite !ztake_0 by lia; done|f_equal; lia].
  - case_decide; [done|]. destruct Hp as (q&bs&->&Hld&Hb). rewrite ptr_add_0 in Hld. by exists q, bs.
Qed.

(** A reading function may remember the node it looked up, and nothing else. *)
Definition only_pos (s s' : St) : Prop := pos_cached s s' ∧ (wf s → wf s').
Lemma only_pos_refl s : only_pos s s.
Proof. split; [apply pos_cached_refl|done]. Qed.
Lemma only_pos_trans s1 s2 s3 : only_pos s1 s2 → only_pos s2 s3 → only_pos s1 s3.
Proof.
  intros [[p1 ->] H1] [[p2 ->] H2]. split; [|auto]. exists p2. by destruct s1 as [h c [? ? ? ? ? ? ? ? ? ? ? ? []]].
Qed.
Lemma only_pos_same s s' : only_pos s s' →
  s_heap s' = s_heap s ∧ s_conf s' = s_conf s ∧ b_nodes (s_base s') = b_nodes (s_base s) ∧
  b_used (s_base s') = b_used (s_base s) ∧ b_len (s_base s') = b_len (s_base s) ∧
  b_num (s_base s') = b_num (s_base s) ∧ (∀ t, node_used t (s_base s') = node_used t (s_base s)) ∧
  iovec_upto_date (s_base s') = iovec_upto_date (s_base s) ∧ st_content s' = st_content s.
Proof. intros [[p ->] _]. by destruct s as [h c [? ? ? ? ? ? ? ? ? ? ? ? []]]. Qed.
Lemma only_pos_content s s' : only_pos s s' → st_content s' = st_content s.
Proof. intros H. apply (only_pos_same _ _ H). Qed.
Lemma only_pos_in_range s s' pos len : only_pos s s' → in_range s pos len → in_range s' pos len.
Proof. intros H. destruct (only_pos_same _ _ H) as (_&_&_&_&El&_). unfold in_range. by rewrite El. Qed.

Lemma substr_length s pos len : wf s → in_range s pos len → zlen (substr pos len (st_content s)) = len.
Proof.
  intros Hw [? ?]. unfold substr. rewrite length_ztake, length_zdrop, (wf_content_length _ Hw). lia.
Qed.
Lemma wf_len_max s : wf s → b_len (s_base s) ≤ SIZE_MAX.
Proof.
  intros Hw. pose proof (bi_size _ (wf_base _ Hw)). pose proof (bi_len _ (wf_base _ Hw)).
  pose proof (wf_used_nonneg _ Hw). lia.
Qed.

(** [vstr_sc_poslast] on a range that does not wrap *)

(** The range is empty, or not in the string. *)
Lemma vstr_iter_fwd_beg_none s pos len :
  0 ≤ pos → 0 ≤ len → pos + len - 1 ≤ SIZE_MAX → ¬ in_range s pos len → vstr_iter_fwd_beg pos len s = Some (None, s).
Proof.
  intros Hp Hl Hmax Hr. unfold vstr_iter_fwd_beg, mbind, M_bind, get_base, gets.
  case_bool_decide as Hb; [|done]. cbn [negb].
  rewrite decide_True; [done|]. destruct Hb as (H0&[[H1 H2]|Hb]); [|done].
  destruct (decide (len = 0)); [done|]. rewrite poslast_id in H2 by lia. unfold in_range in Hr. lia.
Qed.

Lemma vstr_iter_fwd_beg_spec s pos len :
  wf s → in_range s pos len →
  wp (vstr_iter_fwd_beg pos len) s (λ r s', only_pos s s' ∧ wf s' ∧
    ∃ it cur rest, r = Some it ∧ substr pos len (st_content s) = cur ++ rest ∧ 0 < zlen cur ∧
      iter_at (s_heap s') it cur rest).
Proof.
  intros Hw (Hp&Hl&Hle). pose proof (wf_len_max _ Hw) as Hmax. unfold vstr_iter_fwd_beg. wp_step. apply wp_gets.
  rewrite bool_decide_eq_true_2 by (rewrite poslast_id by lia; lia). cbn [negb]. rewrite decide_False by lia.
  wp_step. wp_apply vstr_base__pos_spec; [done|lia|]. intros [[i off] num] s1 (Hat&Hpc&Hw1).
  assert (HO : only_pos s s1) by done. destruct (only_pos_same _ _ HO) as (Eh&Ec&En&Eu&El&_).
  destruct Hat as (nd&Hi&Hoff&Hsum). cbn beta iota. wp_step. apply wp_gets. rewrite En.
  pose proof (hi_nodes _ _ _ (wf_heap _ Hw1)) as Hok. rewrite En, Eh in Hok.
  pose proof Hi as Hdrop. apply list_split_at in Hdrop.
  rewrite (drop_S _ _ _ Hi). set (R := drop (S i) (b_nodes (s_base s))) in *.
  pose proof Hok as Hnodes. rewrite Hdrop, Forall_app, Forall_cons in Hok. destruct Hok as (HL&Hnd&HR).
  pose proof (node_bytes_length _ _ _ Hnd) as Hz. pose proof (chain_bytes_length _ _ _ HR) as HzR.
  pose proof (chain_bytes_length _ _ _ HL) as HzL. pose proof (wf_used_nonneg _ Hw) as Hu.
  set (n := Z.min (nd_len nd - (off - 1)) len). wp_step.
  rewrite <- Eh in Hnd. wp_apply (node_chunk s1 _ nd (off - 1) n Hnd); [lia|lia|lia|].
  intros p s2 [-> Hp']. rewrite Eh in Hp'. wp_steps. split; [exact HO|]. split; [done|].
  set (cur := ztake n (zdrop (off - 1) (node_bytes (s_heap s) nd))) in *.
  assert (Hc : zlen cur = n) by (unfold cur; rewrite length_ztake, length_zdrop; lia).
  assert (Hsub : substr pos len (st_content s) = cur ++ ztake (len - n) (chain_bytes (s_heap s) R)).
  { unfold substr, st_content, content. rewrite zdrop_zdrop by lia. rewrite Hdrop, chain_bytes_app, chain_bytes_cons.
    rewrite zdrop_app_r by lia.
    replace (b_used (s_base s) + (pos - 1) - zlen (chain_bytes (s_heap s) (take i (b_nodes (s_base s))))) with (off - 1) by lia.
    rewrite zdrop_app_l by lia. rewrite ztake_app, length_zdrop. unfold cur, n.
    destruct (decide (nd_len nd - (off - 1) ≤ len)).
    - rewrite !(ztake_all _ (zdrop _ (node_bytes _ _))) by (rewrite length_zdrop; lia). do 2 f_equal. lia.
    - rewrite Z.min_r by lia. f_equal. rewrite !ztake_0 by lia. done. }
  eexists _, cur, _. split_and!; [done|exact Hsub|lia|].
  assert (Hrl : zlen (ztake (len - n) (chain_bytes (s_heap s) R)) = len - n).
  { pose proof (substr_length s pos len Hw ltac:(by split_and!)) as Hsl. rewrite Hsub, length_app in Hsl. lia. }
  split; cbn [it_len it_remaining it_node it_ptr]; [by rewrite Hc|by rewrite Hrl|].
  exists nd, R. rewrite Eh. split_and!; [done|done|by eexists|].
  case_decide; [destruct Hp' as [-> ?]; done|]. destruct Hp' as (q&bs&->&?&?). by exists (ptr_add q (off - 1)), bs.
Qed.

(** The rule of the loops: [I a l], when the variables are [a] and [l] is left *)
Section loop_rule.
Context {A R : Type} (body : Vstr_iter → A → M (loop_next A R)).
Context (s : St) (I : A → list byte_or_non → Prop) (Q : loop_next A R → Prop).
Hypothesis Hbody : ∀ it a cur rest, iter_at (s_heap s) it cur rest → 0 < zlen cur →
  I a (cur ++ rest) → wp (body it a) s (λ r s', s' = s ∧ match r with Return _ => Q r | Next a' => I a' rest end).
Hypothesis Hend : ∀ a, I a [] → Q (Next a).

Lemma iter_loop_spec fuel : ∀ it a cur rest,
  iter_at (s_heap s) it cur rest → 0 < zlen cur → I a (cur ++ rest) → (length (it_node it) ≤ S fuel)%nat →
  wp (iter_loop body fuel it a) s (λ r s', s' = s ∧ Q r).
Proof.
  induction fuel as [|fuel IH]; intros it a cur rest Hit Hc HI Hf; cbn [iter_loop]; wp_step.
  all: wp_apply Hbody; [exact Hit|exact Hc|exact HI|]; intros r s1 [-> Hr]; destruct r as [a'|x]; [|by wp_steps]; wp_step.
  all: wp_apply vstr_iter_fwd_nxt_spec; [exact Hit|]; intros [more it'] s2 [-> Hm]; destruct more; cbn [negb].
  - exfalso. destruct Hm as (cur'&rest'&_&_&Hit'&Hlen&_). destruct (ia_node _ _ _ _ Hit') as (nd&R'&E&_).
    rewrite E in Hlen. cbn in Hlen. lia.
  - wp_steps. destruct Hm as [-> _]. auto.
  - destruct Hm as (cur'&rest'&->&Hc'&Hit'&Hlen&_). eapply IH; [exact Hit'|exact Hc'|exact Hr|lia].
  - wp_steps. destruct Hm as [-> _]. auto.
Qed.

Lemma iter_do_while_spec it a cur rest :
  iter_at (s_heap s) it cur rest → 0 < zlen cur → I a (cur ++ rest) →
  wp (iter_do_while body it a) s (λ r s', s' = s ∧ Q r).
Proof. intros Hit Hc HI. unfold iter_do_while. eapply iter_loop_spec; [exact Hit|exact Hc|exact HI|lia]. Qed.
End loop_rule.

(** A function that is a loop over the range *)
Lemma iter_function_spec {A R B} (body : Vstr_iter → A → M (loop_next A R)) (fin : loop_next A R → B) a0 none s pos len
    (I : A → list byte_or_non → Prop) (Q : B → Prop) :
  wf s → in_range s pos len →
  (∀ s', s_heap s' = s_heap s → ∀ it a cur rest, iter_at (s_heap s') it cur rest → 0 < zlen cur → I a (cur ++ rest) →
    wp (body it a) s' (λ r s2, s2 = s' ∧ match r with Return _ => Q (fin r) | Next a' => I a' rest end)) →
  (∀ a, I a [] → Q (fin (Next a))) → I a0 (substr pos len (st_content s)) →
  wp (iter ← vstr_iter_fwd_beg pos len;
      match iter with
      | None => mret none
      | Some it => r ← iter_do_while body it a0; mret (fin r)
      end) s (λ r s', Q r ∧ only_pos s s' ∧ wf s').
Proof.
  intros Hw Hr Hbody Hend HI. wp_step. wp_apply vstr_iter_fwd_beg_spec; [done|done|].
  intros r s1 (HO&Hw1&it&cur&rest&->&Hsub&Hc&Hit). pose proof (only_pos_same _ _ HO) as (Eh&_). wp_step.
  wp_apply (iter_do_while_spec body s1 I (λ r, Q (fin r))); [by apply Hbody|exact Hend|exact Hit|exact Hc|by rewrite <- Hsub|].
  intros r s2 [-> HQ]. by wp_steps.
Qed.

End others.
