(* ===== verification/InPlace.v ===== *)
(** * Loops over a range that write to memory: into the nodes of the string,
    or out of it. *)
From Stdlib Require Import ZArith Lia ZifyBool.
From stdpp Require Import base tactics list numbers option gmap.
From S2P Require Import Prelude State Wp Ref Cache Core Iter Inv PosLemmas SpareLemmas SplitLemmas CacheLemmas AddLemmas StringLemmas AddSpec AddOps IterLemmas.

Section others.
Context {OT : Others}.

(** ** Where an iterator is *)

(** The iterator is [off] characters into node [i], whatever the memory holds. *)
Record iter_in (rs : gmap positive Vstr_ref) (ns : list Vstr_node) (it : Vstr_iter) (i : nat) (off : Z) : Prop := {
  ii_node : ∃ nd, ns !! i = Some nd ∧ 0 ≤ off ∧ off + it_len it ≤ nd_len nd ∧
    (0 < it_remaining it → off + it_len it = nd_len nd) ∧
    ∃ p, vstr_export__node_ptr rs nd = Some p ∧ it_ptr it = (λ q, ptr_add q off) <$> p;
  ii_rest : it_node it = drop i ns;
  ii_len : 0 < it_len it;
  ii_remaining : 0 ≤ it_remaining it ≤ sum_len (drop (S i) ns) }.

(** The nodes have characters, and those of references are there. *)
Definition nodes_ok (rs : gmap positive Vstr_ref) (ns : list Vstr_node) : Prop :=
  lens_pos ns ∧ ∀ nd, nd ∈ ns → is_Some (vstr_export__node_ptr rs nd).
Lemma wf_nodes_ok s : wf s → nodes_ok (h_refs (s_heap s)) (b_nodes (s_base s)).
Proof.
  intros Hw. split; [by apply wf_lens|]. intros nd Hnd.
  pose proof (hi_nodes _ _ _ (wf_heap _ Hw)) as Hok. rewrite Forall_forall in Hok. by eapply node_ok_ptr, Hok.
Qed.

Lemma node_ptr_run nd p s : vstr_export__node_ptr (h_refs (s_heap s)) nd = Some p → node_ptr nd s = Some (p, s).
Proof. intros Hp. unfold node_ptr, mbind, M_bind, get_heap, gets, of_option. by rewrite Hp. Qed.

Lemma vstr_iter_fwd_nxt_in s rs it i off :
  iter_in rs (b_nodes (s_base s)) it i off → nodes_ok rs (b_nodes (s_base s)) → h_refs (s_heap s) = rs →
  wp (vstr_iter_fwd_nxt it) s (λ '(more, it') s', s' = s ∧
    if more : bool then iter_in rs (b_nodes (s_base s)) it' (S i) 0 ∧ it_len it' + it_remaining it' = it_remaining it ∧
      (i < length (b_nodes (s_base s)))%nat ∧ (S i < length (b_nodes (s_base s)))%nat ∧
      sum_len (take (S i) (b_nodes (s_base s))) = sum_len (take i (b_nodes (s_base s))) + off + it_len it
    else it_remaining it = 0).
Proof.
  intros [(nd&Hi&Hoff&Hle&Hfull&_) Hn Hl Hr] [Hlens Hptr] Hrs. set (ns := b_nodes (s_base s)) in *.
  unfold vstr_iter_fwd_nxt. case_decide as H0; [by wp_steps|]. rewrite Hn, (drop_S _ _ _ Hi). cbn [tail].
  pose proof (lens_pos_drop ns (S i) Hlens) as Hp. destruct (drop (S i) ns) as [|nd' R] eqn:Ed; [cbn in Hr; lia|].
  assert (Hi' : ns !! S i = Some nd') by (rewrite <- (Nat.add_0_r (S i)), <- lookup_drop, Ed; done).
  apply Forall_cons in Hp as [Hp1 Hp2]. pose proof (sum_len_nonneg _ Hp2) as HR. cbn [sum_len] in Hr.
  destruct (Hptr nd' ltac:(by eapply list_elem_of_lookup_2)) as [p Hp].
  cbv zeta. wp_step.
  eapply wp_eq; [apply node_ptr_run; rewrite Hrs; exact Hp|]. wp_steps.
  split; [done|]. split.
  - split; cbn [it_len it_remaining it_node it_ptr].
    + exists nd'. split_and!; [done|lia|lia|lia|]. exists p. split; [done|]. destruct p as [q|]; [|done]. cbn. by rewrite ptr_add_0.
    + done.
    + lia.
    + rewrite (drop_S _ _ _ Hi') in Ed. injection Ed as Ed. rewrite Ed. lia.
  - cbn. apply lookup_lt_Some in Hi' as Hlt. apply lookup_lt_Some in Hi as Hlt0.
    rewrite (sum_len_take_S _ _ _ Hi). split_and!; [lia|done|done|]. specialize (Hfull ltac:(lia)). lia.
Qed.

Lemma vstr_iter_fwd_beg_in s pos len :
  wf s → in_range s pos len →
  wp (vstr_iter_fwd_beg pos len) s (λ r s', only_pos s s' ∧ wf s' ∧
    ∃ it i off, r = Some it ∧ iter_in (h_refs (s_heap s)) (b_nodes (s_base s)) it i off ∧
      sum_len (take i (b_nodes (s_base s))) + off = pos - 1 + b_used (s_base s) ∧
      it_len it + it_remaining it = len).
Proof.
  intros Hw (Hp&Hl&Hle). pose proof (wf_len_max _ Hw) as Hmax. unfold vstr_iter_fwd_beg. wp_step. apply wp_gets.
  rewrite bool_decide_eq_true_2 by (rewrite poslast_id by lia; lia). cbn [negb]. rewrite decide_False by lia.
  wp_step. wp_apply vstr_base__pos_spec; [done|lia|]. intros [[i off] num] s1 (Hat&Hpc&Hw1).
  assert (HO : only_pos s s1) by done. destruct (only_pos_same _ _ HO) as (Eh&Ec&En&Eu&El&_).
  destruct Hat as (nd&Hi&Hoff&Hsum). cbn beta iota. wp_step. apply wp_gets. rewrite En, (drop_S _ _ _ Hi).
  destruct (wf_nodes_ok _ Hw) as [Hlens Hptr].
  destruct (Hptr nd ltac:(by eapply list_elem_of_lookup_2)) as [p Hpt]. cbv zeta. wp_step.
  eapply wp_eq; [apply node_ptr_run; rewrite Eh; exact Hpt|]. wp_steps. split; [done|]. split; [done|].
  eexists _, i, (off - 1). split_and!; [done| |lia|cbn; lia].
  pose proof (sum_len_split (S i) (b_nodes (s_base s))) as Hs. rewrite (sum_len_take_S _ _ _ Hi) in Hs.
  pose proof (bi_len _ (wf_base _ Hw)) as Hb. pose proof (sum_len_nonneg _ (lens_pos_drop _ (S i) Hlens)).
  split; cbn [it_len it_remaining it_node it_ptr].
  - exists nd. split_and!; [done|lia|lia|lia|]. by exists p.
  - by rewrite (drop_S _ _ _ Hi).
  - lia.
  - lia.
Qed.

(** ** The rule of a loop whose body may change the memory, not the nodes:
    [I a k s], when the variables are [a] and [k] characters are done *)
Section in_loop.
Context {A R : Type} (body : Vstr_iter → A → M (loop_next A R)).
Context (rs : gmap positive Vstr_ref) (ns : list Vstr_node) (start len : Z).
Context (I : A → Z → St → Prop) (Q : loop_next A R → St → Prop).
Hypothesis Hns : nodes_ok rs ns.
Hypothesis HI : ∀ a k s, I a k s → b_nodes (s_base s) = ns ∧ h_refs (s_heap s) = rs.
Hypothesis Hbody : ∀ it i off nd a k s, iter_in rs ns it i off → ns !! i = Some nd →
  sum_len (take i ns) + off = start + k → 0 ≤ k → k + it_len it + it_remaining it = len → I a k s →
  wp (body it a) s (λ r s', match r with Return _ => Q r s' | Next a' => I a' (k + it_len it) s' end).
Hypothesis Hend : ∀ a s, I a len s → Q (Next a) s.

Lemma in_loop_spec fuel : ∀ it i off a k s, iter_in rs ns it i off →
  sum_len (take i ns) + off = start + k → 0 ≤ k → k + it_len it + it_remaining it = len → I a k s →
  (length ns ≤ S fuel + i)%nat → wp (iter_loop body fuel it a) s Q.
Proof.
  induction fuel as [|fuel IH]; intros it i off a k s Hit Hat Hk Hlen Ha Hf; cbn [iter_loop]; wp_step.
  all: destruct (ii_node _ _ _ _ _ Hit) as (nd&Hi&_).
  all: wp_apply Hbody; [exact Hit|exact Hi|exact Hat|exact Hk|exact Hlen|exact Ha|].
  all: intros [a'|x] s1 Hr; [|by wp_steps]; destruct (HI _ _ _ Hr) as [En Er]; wp_step.
  all: rewrite <- En in Hit; rewrite <- En in Hns; wp_apply vstr_iter_fwd_nxt_in; [exact Hit|exact Hns|exact Er|].
  all: intros [[] it'] s2 [-> Hm]; cbn [negb]; rewrite En in Hit, Hns, Hm || rewrite En in Hit, Hns.
  - destruct Hm as (_&_&_&Hlt&_). lia.
  - cbn in Hm. wp_steps. apply Hend. replace len with (k + it_len it) by lia. done.
  - destruct Hm as (Hit'&Hrem&_&_&Hs). pose proof (ii_len _ _ _ _ _ Hit).
    eapply (IH _ _ _ _ (k + it_len it)); [exact Hit'|lia|lia|lia|exact Hr|lia].
  - cbn in Hm. wp_steps. apply Hend. replace len with (k + it_len it) by lia. done.
Qed.

Lemma in_do_while_spec it i off a s : iter_in rs ns it i off →
  sum_len (take i ns) + off = start → it_len it + it_remaining it = len → I a 0 s →
  wp (iter_do_while body it a) s Q.
Proof.
  intros Hit Hat Hlen Ha. unfold iter_do_while. rewrite (ii_rest _ _ _ _ _ Hit), length_drop.
  eapply in_loop_spec; [exact Hit| | | |exact Ha|]; lia.
Qed.
End in_loop.

(** ** Writing into a BUF node of the string *)
Lemma ztake_zwrite {A} m n (k l : list A) :
  0 ≤ n → n + zlen k ≤ m → m ≤ zlen l → ztake m (zwrite n k l) = zwrite n k (ztake m l).
Proof.
  intros. unfold zwrite. rewrite !ztake_app, ztake_ztake, length_ztake.
  rewrite (ztake_all _ k) by lia. rewrite (ztake_ztake n), (Z.min_l n m), Z.min_r by lia. do 2 f_equal.
  rewrite zdrop_ztake by lia. f_equal. lia.
Qed.
Lemma fmap_zwrite {A B} (f : A → B) n k l : f <$> zwrite n k l = zwrite n (f <$> k) (f <$> l).
Proof. unfold zwrite. by rewrite !fmap_app, length_fmap, <- ztake_fmap, <- zdrop_fmap. Qed.

Lemma wf_heap_mem s m :
  wf s → heap_inv (h_set_mem m (s_heap s)) (s_conf s) (b_nodes (s_base s)) → wf (on_heap (h_set_mem m) s).
Proof. intros Hw Hh. split; [done|apply Hw|apply Hw]. Qed.

Lemma write_own s i nd off bs :
  wf s → b_nodes (s_base s) !! i = Some nd → nd_type nd = NODE_BUF → 0 ≤ off → off + zlen bs ≤ nd_len nd →
  b_used (s_base s) ≤ sum_len (take i (b_nodes (s_base s))) + off →
  ∃ blk, h_mem (s_heap s) !! nd_addr nd = Some blk ∧ off + zlen bs ≤ zlen blk ∧
    let s' := write_mem (nd_addr nd) off bs blk s in
    wf s' ∧ env_step 0 (s_heap s) (st_own s) (s_heap s') (st_own s') ∧
    st_content s' = zwrite (sum_len (take i (b_nodes (s_base s))) + off - b_used (s_base s)) (Some <$> bs) (st_content s).
Proof.
  intros Hw Hi Hty Hoff Hle Hu. pose proof (wf_heap _ Hw) as Hh. pose proof (hi_nodes _ _ _ Hh) as Hok.
  rewrite Forall_forall in Hok. pose proof (list_elem_of_lookup_2 _ _ _ Hi) as Hin. pose proof (Hok _ Hin) as Hnd.
  assert (Hb : nd_len nd ≤ buf_sz (s_conf s) ∧ buf_ok (h_mem (s_heap s)) (buf_sz (s_conf s)) (nd_addr nd)).
  { destruct nd as [a l []]; try done. apply Hnd. }
  destruct Hb as [Hlen (blk&Hblk&Hz)]. exists blk. split; [done|]. split; [lia|]. intros s'.
  assert (Hown : nd_addr nd ∈ own (s_conf s) (b_nodes (s_base s))).
  { unfold own. apply elem_of_app. left. by apply list_elem_of_fmap_2. }
  assert (Hzw : zlen (zwrite off bs blk) = zlen blk) by (apply length_zwrite; lia).
  destruct (heap_inv_write _ _ _ _ _ _ Hh Hown Hblk Hzw) as [Hh' Hsame].
  split_and!; [by apply wf_heap_mem|by apply env_step_write|].
  set (h' := h_set_mem _ _) in *.
  assert (Hm : h_mem h' !! nd_addr nd = Some (zwrite off bs blk)).
  { unfold h'. destruct (s_heap s). apply lookup_insert_eq. }
  set (ns := b_nodes (s_base s)) in *.
  assert (Hnew : node_bytes h' nd = zwrite off (Some <$> bs) (node_bytes (s_heap s) nd)).
  { unfold node_bytes. destruct nd as [a l body]. destruct body; try done. cbn.
    pose proof (proj1 Hnd) as Hnl. cbn in *. rewrite (load_buf _ _ _ _ Hblk) by lia.
    cbn in Hm. rewrite (load_buf _ _ _ _ Hm) by lia.
    rewrite ztake_zwrite by lia. by rewrite fmap_zwrite. }
  unfold st_content, content. change (s_heap s') with h'. change (s_base s') with (s_base s). fold ns.
  pose proof (list_split_at _ _ _ Hi) as Hns. pose proof (heap_inv_addrs _ _ _ Hh) as Hnodup. fold ns in Hnodup.
  assert (HF : Forall (node_ok (s_heap s) (buf_sz (s_conf s))) ns) by apply Hh.
  rewrite Hns, Forall_app, Forall_cons in HF. destruct HF as (HF1&_&HF2).
  assert (Hs : ∀ nd', nd' ∈ take i ns ++ drop (S i) ns → node_bytes h' nd' = node_bytes (s_heap s) nd').
  { intros nd' Hin'. apply Hsame.
    - rewrite Hns. apply elem_of_app in Hin' as [?|?]; apply elem_of_app; [by left|]. right. by apply list_elem_of_further.
    - left. intros E. rewrite Hns, fmap_app, fmap_cons, (Permutation_app_comm (nd_addr <$> take i ns)) in Hnodup.
      cbn in Hnodup. apply NoDup_cons in Hnodup as [Hn _]. apply Hn. rewrite <- E.
      rewrite (Permutation_app_comm (nd_addr <$> drop _ _)), <- fmap_app. by apply list_elem_of_fmap_2. }
  rewrite Hns at 1. rewrite chain_bytes_app, chain_bytes_cons, Hnew.
  rewrite (chain_frame (s_heap s) h' (take i ns)) by (intros; apply Hs, elem_of_app; by left).
  rewrite (chain_frame (s_heap s) h' (drop (S i) ns)) by (intros; apply Hs, elem_of_app; by right).
  pose proof (chain_bytes_length _ _ _ HF1) as Hz1. pose proof (node_bytes_length _ _ _ Hnd) as Hzn.
  rewrite <- zwrite_app by (rewrite ?length_fmap; lia). rewrite Hz1.
  rewrite zdrop_zwrite; [|pose proof (wf_used_nonneg _ Hw); lia|].
  - do 2 f_equal. by rewrite <- chain_bytes_cons, <- chain_bytes_app, <- Hns.
  - pose proof (chain_bytes_length _ _ _ HF2). pose proof (sum_len_nonneg _ (lens_pos_drop _ (S i) (wf_lens _ Hw))).
    fold ns in H0. rewrite !length_app. lia.
Qed.

(** ** Writing to memory that is not the string's *)

(** No character of the string, or of another, is in the allocation. *)
Definition foreign (s : St) (blk : positive) : Prop :=
  blk ∉ st_own s ∧ ¬ guarded blk ∧
  ∀ nd p, nd ∈ b_nodes (s_base s) → node_ext (h_refs (s_heap s)) nd = Some p → p_blk p ≠ blk.

Lemma write_foreign s blk off bs bytes :
  wf s → foreign s blk → h_mem (s_heap s) !! blk = Some bytes → 0 ≤ off → off + zlen bs ≤ zlen bytes →
  let s' := write_mem blk off bs bytes s in wf s' ∧ st_content s' = st_content s ∧ foreign s' blk.
Proof.
  intros Hw (Hno&Hgd&Hext) Hb Hoff Hle s'. assert (Hz : zlen (zwrite off bs bytes) = zlen bytes) by (apply length_zwrite; lia).
  destruct (heap_inv_overwrite _ _ _ _ _ _ (wf_heap _ Hw) Hext Hgd Hb Hz) as [Hh Hsame].
  split_and!.
  - by apply wf_heap_mem.
  - unfold st_content, content. f_equal. apply chain_frame. intros nd Hnd. apply Hsame; [done|].
    left. intros <-. apply Hno. unfold st_own, own. apply elem_of_app. left. by apply list_elem_of_fmap_2.
  - unfold foreign in *. by replace (h_refs (s_heap s')) with (h_refs (s_heap s)) by by unfold s'; cbn; destruct (s_heap s).
Qed.

End others.
