(* ===== verification/DelAtomic.v ===== *)
(** * A deletion that starts or ends where a node does needs no memory, so it
    cannot fail: what makes a substitution by an addition and a deletion atomic. *)
From Stdlib Require Import ZArith Lia ZifyBool.
From stdpp Require Import base tactics list numbers option gmap.
From S2P Require Import Prelude State Wp Ref Cache Core Add Del Iter Sub Inv PosLemmas SpareLemmas SplitLemmas CacheLemmas AddLemmas StringLemmas AddSpec AddOps AddTheorems DelSpec DelTheorems IterLemmas.

Section others.
Context {OT : Others}.

(** If [m] returns, the result satisfies [Q]. *)
Definition returns {A} (m : M A) (s : St) (Q : A → Prop) : Prop := ∀ a s', m s = Some (a, s') → Q a.

Section returns.
Context {A B : Type}.
Lemma returns_ret (a : A) s (Q : A → Prop) : Q a → returns (mret a) s Q.
Proof. intros H a' s' E. by injection E as <- <-. Qed.
Lemma returns_bind (m : M A) (f : A → M B) s Q :
  (∀ a s', m s = Some (a, s') → returns (f a) s' Q) → returns (m ≫= f) s Q.
Proof. intros H b s'. unfold mbind, M_bind. destruct (m s) as [[a s1]|] eqn:E; [|done]. by apply H. Qed.
Lemma returns_undef s (Q : A → Prop) : returns undef s Q.
Proof. intros a s'. done. Qed.
Lemma wp_returns (m : M A) s (P : A → St → Prop) Q :
  wp m s P → returns m s Q → wp m s (λ a s', P a s' ∧ Q a).
Proof. unfold wp, returns. destruct (m s) as [[a s']|]; [|done]. intros HP HQ. split; [done|by eapply HQ]. Qed.
End returns.

(** Programs that can only return TRUE *)
Ltac returns_true :=
  repeat lazymatch goal with
  | |- returns (mret _) _ _ => apply returns_ret; done
  | |- returns undef _ _ => apply returns_undef
  | |- returns (mbind _ _) _ _ => apply returns_bind; intros ? ? _
  | |- returns (if decide ?P then _ else _) _ _ => destruct (decide P)
  | |- returns (match ?x with _ => _ end) _ _ => destruct x
  end.

Lemma boundary_at_pos ns pos i off nd k n :
  lens_pos ns → at_pos ns pos i off → ns !! i = Some nd → sum_len (take k ns) = pos + n → 0 ≤ n → nd_len nd ≤ off + n.
Proof.
  intros Hp (nd'&Hi&Hoff&Hs) Hnd Hk. rewrite Hnd in Hi. injection Hi as <-.
  destruct (decide (k ≤ i)%nat).
  - pose proof (sum_len_take_mono k i ns Hp ltac:(lia)). lia.
  - pose proof (sum_len_take_lt i k ns nd Hp Hnd ltac:(lia)). lia.
Qed.

Lemma vstr_extern_inline_del_true s pos len :
  wf s → ¬ del_bad s pos len → 0 < len → pos + len - 1 ≤ SIZE_MAX → (boundary s (pos - 1) ∨ boundary s (pos - 1 + len)) →
  returns (vstr_extern_inline_del pos len) s (λ ok, ok = true).
Proof.
  intros Hw Hb Hlen Hmax HB. assert (Hin : 1 ≤ pos ∧ pos + len - 1 ≤ b_len (s_base s)) by (unfold del_bad in Hb; lia).
  unfold vstr_extern_inline_del. apply returns_bind. intros b s0 [= <- <-]. cbv zeta.
  rewrite bool_decide_eq_true_2 by (rewrite poslast_id by lia; lia). cbn [negb].
  case_decide as H1; [returns_true|]. apply returns_bind. intros [[i off] num] s1 Epos.
  pose proof (vstr_base__pos_spec s (pos - 1) false Hw ltac:(lia)) as HP. unfold wp in HP. rewrite Epos in HP.
  destruct HP as (Hat&[pc ->]&_). apply returns_bind. intros [] s2 [= <-]. apply returns_bind. intros nd s3 End.
  assert (Hi : b_nodes (s_base s) !! i = Some nd).
  { unfold node_at, get_base, gets, mbind, M_bind, of_option in End. cbn in End.
    replace (b_nodes _) with (b_nodes (s_base s)) in End by by destruct s as [? ? []].
    destruct (b_nodes (s_base s) !! i); [|done]. by injection End as -> _. }
  set (n := if decide (b_len (s_base s) ≤ u64 (pos - 1 + len)) then _ else len).
  assert (Hn : n = len) by (unfold n; rewrite u64_id by lia; destruct (decide (b_len (s_base s) ≤ pos - 1 + len)); lia). clearbody n. subst n.
  assert (Hnd : nd_len nd ≤ off ∨ nd_len nd ≤ off + len).
  { destruct HB as [[k Hk]|[k Hk]]; [left|right].
    - pose proof (boundary_at_pos _ _ _ _ _ k 0 (wf_lens _ Hw) Hat Hi ltac:(lia) ltac:(lia)). lia.
    - apply (boundary_at_pos _ _ _ _ _ k len (wf_lens _ Hw) Hat Hi); lia. }
  destruct Hat as (nd'&Hi'&Hoff&_). rewrite Hi in Hi'. injection Hi' as <-.
  rewrite decide_False by lia. returns_true.
Qed.

Lemma vstr_del_true s pos len :
  wf s → ¬ del_bad s pos len → 0 ≤ len → pos + len - 1 ≤ SIZE_MAX → (boundary s (pos - 1) ∨ boundary s (pos - 1 + len)) →
  returns (vstr_del pos len) s (λ ok, ok = true).
Proof.
  intros Hw Hb Hlen Hmax Hk. unfold vstr_del. apply returns_bind. intros b s0 [= <- <-].
  case_decide as H1; [unfold del_bad in Hb; lia|]. case_decide as H2; [returns_true|].
  assert (HE : returns (vstr_extern_inline_del pos len) s (λ ok, ok = true)) by (apply vstr_extern_inline_del_true; try done; lia).
  destruct (negb _); [done|]. destruct (head (b_nodes (s_base s))), (last (b_nodes (s_base s))); try apply returns_undef. cbv zeta.
  case_decide; [returns_true|]. case_decide; [returns_true|done].
Qed.

(** ** What a deletion that fails leaves: the nodes *)
Definition fails (m : M bool) (s : St) (Q : St → Prop) : Prop := ∀ s', m s = Some (false, s') → Q s'.
Lemma fails_true m s Q : returns m s (λ ok, ok = true) → fails m s Q.
Proof. intros H s' E. by apply H in E. Qed.
Lemma fails_bind {A} (m : M A) (f : A → M bool) s Q :
  (∀ a s', m s = Some (a, s') → fails (f a) s' Q) → fails (m ≫= f) s Q.
Proof. intros H s' E. unfold mbind, M_bind in E. destruct (m s) as [[a s1]|] eqn:E1; [|done]. by eapply H. Qed.
Record del_failed (s s' : St) : Prop := {
  df_nodes : b_nodes (s_base s') = b_nodes (s_base s);
  df_used : b_used (s_base s') = b_used (s_base s);
  df_own : zlen (st_own s') ≤ zlen (st_own s) + 1;
  df_refs : h_refs (s_heap s') = h_refs (s_heap s) }.
Lemma del_failed_boundary s s' pos : del_failed s s' → boundary s pos → boundary s' pos.
Proof. unfold boundary. by intros [-> -> _ _]. Qed.
Lemma del_failed_room s s' n k : del_failed s s' → room (n + 1) k s → room n k s'.
Proof. intros [_ _ Ho Hr] [H1 H2]. unfold room, st_own in *. rewrite Hr. split; [lia|done]. Qed.

Lemma vstr_extern_inline_del_fails s pos len :
  wf s → ¬ del_bad s pos len → 0 < len → pos + len - 1 ≤ SIZE_MAX → room 1 1 s →
  fails (vstr_extern_inline_del pos len) s (del_failed s).
Proof.
  intros Hw Hb Hlen Hmax Hroom. assert (Hin : 1 ≤ pos ∧ pos + len - 1 ≤ b_len (s_base s)) by (unfold del_bad in Hb; lia).
  unfold vstr_extern_inline_del. apply fails_bind. intros b s0 [= <- <-]. cbv zeta.
  rewrite bool_decide_eq_true_2 by (rewrite poslast_id by lia; lia). cbn [negb].
  case_decide as H1; [apply fails_true; returns_true|]. apply fails_bind. intros [[i off] num] s1 Epos.
  pose proof (vstr_base__pos_spec s (pos - 1) false Hw ltac:(lia)) as HP. unfold wp in HP. rewrite Epos in HP.
  destruct HP as (Hat&Hpc&Hw1). assert (HO : only_pos s s1) by done. destruct (only_pos_same _ _ HO) as (Eh&Ec&En&Eu&El&_).
  destruct Hat as (nd&Hi&Hoff&_). rewrite <- En in Hi.
  assert (Hroom1 : room 1 1 s1) by (unfold room in *; by rewrite Ec, En, Eh).
  set (n := if decide (b_len (s_base s) ≤ u64 (pos - 1 + len)) then _ else len).
  assert (Hn : n = len) by (unfold n; rewrite u64_id by lia; destruct (decide (b_len (s_base s) ≤ pos - 1 + len)); lia). clearbody n. subst n.
  apply fails_bind. intros [] s2 [= <-].
  replace (on_base _ s1) with (on_base (b_set_len (b_len (s_base s1) - len)) s1).
  2:{ pose proof (wf_len_max _ Hw1). unfold on_base. by rewrite El, u64_id by lia. }
  apply fails_bind. intros nd' s3 End.
  assert (End' : node_at i (on_base (b_set_len (b_len (s_base s1) - len)) s1) = Some (nd, on_base (b_set_len (b_len (s_base s1) - len)) s1)).
  { unfold node_at, get_base, gets, mbind, M_bind, of_option. cbn. replace (b_nodes _) with (b_nodes (s_base s1)) by by destruct s1 as [? ? []].
    by rewrite Hi. }
  rewrite End' in End. injection End as <- <-. clear End'.
  case_decide as Hmid; [|apply fails_true; returns_true]. apply fails_bind. intros ok s4 Emid.
  pose proof (vstr__del_middle_spec s1 i nd num off len Hw1 Hi ltac:(lia) Hlen ltac:(lia) Hroom1) as HM. unfold wp in HM. rewrite Emid in HM.
  destruct ok; [apply fails_true; returns_true|]. destruct HM as [HS _]. apply fails_bind. intros [] s5 [= <-] s6 [= <-].
  destruct HS as [Sb _ [_ Sr] _ So _]. destruct s1 as [h1 c1 b1], s4 as [h4 c4 b4]. cbn [s_heap s_conf s_base on_base] in *. subst b4 h1 c1.
  assert (Eb : ∀ v w, b_nodes (b_set_len v (b_set_len w b1)) = b_nodes b1 ∧ b_used (b_set_len v (b_set_len w b1)) = b_used b1 ∧
    b_nodes (b_set_len w b1) = b_nodes b1) by by destruct b1.
  split; unfold on_base, st_own; cbn [s_heap s_conf s_base].
  - rewrite <- En. apply Eb.
  - rewrite <- Eu. apply Eb.
  - rewrite (proj2 (proj2 (Eb 0 (b_len b1 - len)))) in So. rewrite (proj1 (Eb _ _)). by rewrite <- En.
  - done.
Qed.
Lemma vstr_del_fails s pos len :
  wf s → ¬ del_bad s pos len → 0 < len → pos + len - 1 ≤ SIZE_MAX → room 1 1 s →
  fails (vstr_del pos len) s (del_failed s).
Proof.
  intros Hw Hb Hlen Hmax Hroom. pose proof (vstr_extern_inline_del_fails s pos len Hw Hb Hlen Hmax Hroom) as HE.
  unfold vstr_del. apply fails_bind. intros b s0 [= <- <-].
  case_decide as H1; [unfold del_bad in Hb; lia|]. case_decide as H2; [lia|].
  destruct (negb _); [done|]. destruct (head (b_nodes (s_base s))), (last (b_nodes (s_base s))); try (by intros ? [=]). cbv zeta.
  case_decide; [apply fails_true; returns_true|]. case_decide; [apply fails_true; returns_true|done].
Qed.

(** ** An addition, and the deletion of what was behind it *)
Definition sub_post (s : St) (pos len : Z) (d : list byte_or_non) (ok : bool) (s' : St) : Prop :=
  wf s' ∧ conf_same (s_conf s) (s_conf s') ∧
  if ok then st_content s' = ztake (pos - 1) (st_content s) ++ d ++ zdrop (pos - 1 + len) (st_content s) ∧
             malloc_bad (s_conf s') = malloc_bad (s_conf s)
  else st_content s' = st_content s ∧ malloc_bad (s_conf s') = true.

Lemma splice_after_insert {A} (l d : list A) p len :
  0 ≤ p ≤ zlen l → 0 ≤ len →
  let l' := ztake p l ++ d ++ zdrop p l in
  ztake (p + zlen d) l' ++ zdrop (p + zlen d + len) l' = ztake p l ++ d ++ zdrop (p + len) l.
Proof.
  intros Hp Hlen l'. unfold l'. rewrite app_assoc.
  assert (Hz : zlen (ztake p l ++ d) = p + zlen d) by (rewrite length_app, Nat2Z.inj_add, length_ztake; lia).
  rewrite ztake_app_l, (ztake_all _ (ztake p l ++ d)) by lia. rewrite zdrop_app_r, Hz by lia.
  rewrite zdrop_zdrop by lia. rewrite <- app_assoc. do 3 f_equal. lia.
Qed.

Lemma add_then_del_spec k s pos len d (add : M bool) :
  wf s → 1 ≤ pos → 0 ≤ len → pos - 1 + len ≤ b_len (s_base s) →
  pos + zlen d + len + VSTR_MAX_NODE_BUF ≤ SIZE_MAX → room (1 + k) (1 + k) s →
  wp add s (λ ok s', add_full k s (pos - 1) d ok s') →
  wp (add_then_del add pos (zlen d) len) s (λ ok s', sub_post s pos len d ok s').
Proof.
  intros Hw Hpos Hlen Hle Hmax Hroom Hadd. unfold add_then_del. wp_step. eapply wp_mono; [exact Hadd|].
  intros ok s1 (HP&HU&HB). unfold add_post in HP. rewrite decide_False in HP by lia. destruct HP as (Hw1&_&HP).
  pose proof (wf_content_length _ Hw) as Hcl. pose proof (wf_content_length _ Hw1) as Hcl1. unfold VSTR_MAX_NODE_BUF in Hmax.
  destruct ok; cbn [negb].
  2:{ wp_steps. split_and!; [done|apply HU|tauto|tauto]. }
  rewrite HP, !length_app, !Nat2Z.inj_add, length_ztake, length_zdrop in Hcl1. rewrite u64_id by lia.
  assert (Hnb : ¬ del_bad s1 (pos + zlen d) len) by (unfold del_bad; lia).
  assert (Hdel : wp (vstr_del (pos + zlen d) len) s1
    (λ ok s', del_post s1 (pos + zlen d) len ok s' ∧ (0 < zlen d → ok = true))).
  { apply wp_returns.
    - apply vstr_del_spec; [done|unfold del_range_ok, VSTR_MAX_NODE_BUF; lia|by eapply add_uses_room].
    - intros ok s2 E Hd. eapply vstr_del_true; [exact Hw1|exact Hnb|done|lia| |exact E].
      left. replace (pos + zlen d - 1) with (pos - 1 + zlen d) by lia. by apply HB. }
  eapply wp_mono; [exact Hdel|]. intros ok s2 [HD Hok]. unfold del_post in HD. rewrite decide_False in HD by done.
  destruct HD as (Hw2&Hc2&HD). split; [done|]. split; [eapply conf_same_trans; [apply HU|done]|]. destruct ok.
  - destruct HD as [HD Hm]. rewrite HD, Hm, HP, (au_malloc _ _ _ _ HU) by done. split; [|done].
    rewrite <- (splice_after_insert _ _ (pos - 1) len) by lia. do 2 f_equal; lia.
  - destruct (decide (0 < zlen d)) as [Hd|Hd]; [by specialize (Hok Hd)|]. destruct d; [|cbn in Hd; lia].
    destruct HD as [HD Hm]. rewrite HD, HP. cbn [app]. by rewrite ztake_zdrop.
Qed.

End others.
