(* ===== verification/SubSpec.v ===== *)
(** * Substituting: what the functions of Sub.v do to the characters. *)
From Stdlib Require Import ZArith Lia ZifyBool.
From stdpp Require Import base tactics list numbers option gmap.
From S2P Require Import Prelude State Wp Ref Cache Core Add Del Iter Sub Inv PosLemmas SpareLemmas SplitLemmas CacheLemmas AddLemmas StringLemmas AddSpec AddOps AddTheorems DelTheorems DelSpec DelAtomic IterLemmas InPlace.

Section others.
Context {OT : Others}.

(** The callbacks on a substitution forget at most the C string. *)
Lemma cache_state_wf s cs ci : wf s → wf (on_base (set_cache_state (c_pos (b_cache (s_base s))) cs ci) s).
Proof.
  intros [Hh Hb Hc]. destruct s as [h c [ns bl bn used iu ca ic f1 f2 f3 f4 gc [p v cs0]]]. cbn in *.
  split; [done| |].
  - destruct Hb. by split.
  - destruct Hc as [H1 H2 H3]. split; [|by apply H2|by apply H3]. intros data. apply (H1 data).
Qed.
Lemma vstr_cache_cb_sub_spec s pos len :
  wf s → wp (vstr_cache_cb_sub pos len) s (λ _ s', wf s' ∧ st_content s' = st_content s ∧
    s_heap s' = s_heap s ∧ s_conf s' = s_conf s ∧ b_nodes (s_base s') = b_nodes (s_base s) ∧
    b_len (s_base s') = b_len (s_base s) ∧ b_used (s_base s') = b_used (s_base s) ∧
    ∀ t, node_used t (s_base s') = node_used t (s_base s)).
Proof.
  intros Hw. wp_apply vstr__cache_run_spec; [done|done|]. intros _ s' (cs&ci&->).
  assert (Hp : (if cache_available (s_base s) then c_pos (b_cache (s_base s)) ≫= vstr__cache_pos_cb pos CACHE_SUB
     else c_pos (b_cache (s_base s))) = c_pos (b_cache (s_base s))).
  { destruct (cache_available _); [|done]. destruct (c_pos _) as [data|]; [|done]. cbn. unfold vstr__cache_pos_cb.
    rewrite decide_False by done. destruct (cp_node data); [|done]. by rewrite !decide_False, decide_True by (done || by intros []). }
  rewrite Hp. split; [by apply cache_state_wf|]. destruct s as [h c [? ? ? ? ? ? ? ? ? ? ? ? []]]. cbn. by repeat split; intros [].
Qed.

(** ** Over the characters *)

(** Every node with a character of the range is a BUF node. *)
Definition buf_range (s : St) (pos len : Z) : Prop :=
  ∀ i nd, b_nodes (s_base s) !! i = Some nd →
    sum_len (take i (b_nodes (s_base s))) < pos + len - 1 + b_used (s_base s) →
    pos - 1 + b_used (s_base s) < sum_len (take (S i) (b_nodes (s_base s))) → nd_type nd = NODE_BUF.

(** Only the memory of the string has changed. *)
Record mem_only (s s' : St) : Prop := {
  mo_wf : wf s';
  mo_base : s_base s' = s_base s;
  mo_conf : s_conf s' = s_conf s;
  mo_refs : h_refs (s_heap s') = h_refs (s_heap s);
  mo_env : env_step 0 (s_heap s) (st_own s) (s_heap s') (st_own s') }.

Section sub_over.
Context {A : Type} (write : pointer → Z → A → M A) (D : list Z) (src : St → A → Z → Prop).
Hypothesis Hwrite : ∀ s a k n blk off bytes, src s a k → 0 ≤ k → 0 < n → k + n ≤ zlen D → blk ∈ st_own s →
  h_mem (s_heap s) !! blk = Some bytes → 0 ≤ off → off + n ≤ zlen bytes →
  wp (write (Ptr blk off) n a) s (λ a' s', s' = write_mem blk off (ztake n (zdrop k D)) bytes s ∧ src s' a' (k + n)).

Lemma sub_over_spec s pos a :
  wf s → in_range s pos (zlen D) → buf_range s pos (zlen D) → (∀ s', only_pos s s' → src s' a 0) →
  wp (sub_over write pos (zlen D) a) s (λ ok s', ok = true ∧ wf s' ∧
    st_content s' = zwrite (pos - 1) (Some <$> D) (st_content s) ∧ s_conf s' = s_conf s ∧
    env_step 0 (s_heap s) (st_own s) (s_heap s') (st_own s') ∧ b_nodes (s_base s') = b_nodes (s_base s) ∧
    b_len (s_base s') = b_len (s_base s) ∧ b_used (s_base s') = b_used (s_base s)).
Proof.
  intros Hw Hr Hbuf Hsrc. unfold sub_over. wp_step. wp_apply vstr_iter_fwd_beg_in; [done|done|].
  intros r s1 (HO&Hw1&it&i&off&->&Hit&Hat&Hlen). pose proof (only_pos_same _ _ HO) as (Eh&Ec&En&Eu&El&_&_&_&Ect).
  specialize (Hsrc s1 HO). wp_step. destruct Hr as (Hp1&Hp2&Hp3). pose proof (wf_used_nonneg _ Hw) as Hu.
  eapply wp_mono; [eapply (in_do_while_spec _ (h_refs (s_heap s)) (b_nodes (s_base s)) (pos - 1 + b_used (s_base s)) (zlen D)
    (λ a k s', mem_only s1 s' ∧ src s' a k ∧
       st_content s' = zwrite (pos - 1) (Some <$> ztake k D) (st_content s))
    (λ _ s', mem_only s1 s' ∧ st_content s' = zwrite (pos - 1) (Some <$> D) (st_content s)))|].
  - by apply wf_nodes_ok.
  - intros a' k s2 ([_ -> _ -> _]&_). by rewrite En, Eh.
  - clear a it i off Hit Hat Hlen Hsrc. intros it i off nd a k s2 Hit Hi Hat Hk Hkl (HM&Hsrc&Hc).
    destruct (ii_node _ _ _ _ _ Hit) as (nd'&Hi'&Hoff&Hle&_&p&Hp&Eptr). rewrite Hi in Hi'. injection Hi' as <-.
    pose proof (ii_len _ _ _ _ _ Hit) as Hn. pose proof (ii_remaining _ _ _ _ _ Hit) as Hrem.
    assert (Hty : nd_type nd = NODE_BUF).
    { apply (Hbuf _ _ Hi); [lia|]. rewrite (sum_len_take_S _ _ _ Hi). lia. }
    destruct nd as [ad l body]. destruct body; try done. cbn in Hp. injection Hp as <-. cbn in Eptr. rewrite Eptr.
    set (bs := ztake (it_len it) (zdrop k D)). assert (Hbs : zlen bs = it_len it) by (unfold bs; rewrite length_ztake, length_zdrop; lia).
    destruct HM as [Hw2 Eb Ec2 Er2 He2].
    destruct (write_own s2 i (mkNode ad l Node_buf) off bs) as (blk&Hblk&Hfit&Hw3&He3&Hc3);
      [done|by rewrite Eb, En|done|lia|cbn in *; lia|rewrite Eb, En, Eu; lia|].
    cbn [nd_addr] in Hblk, Hw3, He3, Hc3. wp_step. eapply wp_of_option; [done|]. cbn beta. wp_step.
    assert (Hin : ad ∈ st_own s2).
    { unfold st_own, own. apply elem_of_app. left. rewrite Eb, En. apply list_elem_of_lookup_2 in Hi.
      by apply (list_elem_of_fmap_2 nd_addr) in Hi. }
    wp_apply (Hwrite s2 a k (it_len it) ad off blk); [done|done|done|lia|done|done|done|lia|].
    intros a' s3 [-> Hs3]. wp_steps. fold bs in Hs3 |- *. split_and!; [|done|].
    + split; [done|done|done|by cbn; destruct (s_heap s2)|]. eapply (env_step_weaken (0 + 0)); [by eapply env_step_trans|lia].
    + rewrite Hc3, Eb, En, Eu, Hc. replace (sum_len (take i (b_nodes (s_base s))) + off - b_used (s_base s)) with (pos - 1 + zlen (Some <$> ztake k D)).
      2:{ rewrite length_fmap, length_ztake. lia. }
      rewrite zwrite_zwrite. 2: lia. 2:{ rewrite !length_fmap, length_ztake, (wf_content_length _ Hw). lia. }
      rewrite <- fmap_app. unfold bs. do 2 f_equal. rewrite ztake_zdrop_comm by lia.
      rewrite <- (ztake_zdrop k (ztake (k + it_len it) D)) at 2. by rewrite ztake_ztake, Z.min_l by lia.
  - intros a' s2 (HM&_&Hc). split; [done|]. by rewrite ztake_all in Hc by lia.
  - exact Hit.
  - lia.
  - lia.
  - split_and!; [split; [done|done|done|done|apply env_step_perm; [lia|done]]|done|]. rewrite ztake_0 by lia. cbn. by rewrite zwrite_nil.
  - intros r s2 (HM&Hc). destruct HM as [Hw2 Eb Ec2 Er2 He2]. wp_step.
    wp_apply vstr_cache_cb_sub_spec; [done|]. intros _ s3 (Hw3&Ec3&Eh3&Ecf3&En3&El3&Eu3&_). wp_steps.
    rewrite Ec3, Ecf3, Ec2, En3, El3, Eu3, Eb, Eh3. split_and!; try done.
    unfold st_own in *. rewrite Ecf3, En3. by rewrite Eh, Ec, En in He2.
Qed.
End sub_over.

Lemma vstr__sub_buf_fast_spec s pos buf D :
  wf s → in_range s pos (zlen D) → buf_range s pos (zlen D) → buf_src (s_heap s) (st_own s) buf (Some <$> D) →
  wp (vstr__sub_buf_fast pos (zlen D) buf) s (λ ok s', ok = true ∧ wf s' ∧
    st_content s' = zwrite (pos - 1) (Some <$> D) (st_content s) ∧ s_conf s' = s_conf s ∧
    env_step 0 (s_heap s) (st_own s) (s_heap s') (st_own s') ∧ b_nodes (s_base s') = b_nodes (s_base s) ∧
    b_len (s_base s') = b_len (s_base s) ∧ b_used (s_base s') = b_used (s_base s)).
Proof.
  intros Hw Hr Hbuf Hsrc. apply (sub_over_spec _ D (λ s a k, buf_src (s_heap s) (st_own s) a (Some <$> zdrop k D))); try done.
  - clear s Hw Hr Hbuf Hsrc. intros s a k n blk off bytes Hsrc Hk Hn Hle Hin Hb Ho Hf.
    pose proof Hsrc as (bs&Ebs&Hld&Hno). apply (inj (fmap Some)) in Ebs as <-.
    assert (Hz : zlen (zdrop k D) = zlen D - k) by (rewrite length_zdrop; lia).
    wp_step. wp_apply (mem_move_write s blk off a n (ztake n (zdrop k D)) bytes); [|done|done|done|].
    + by eapply load_prefix; [exact Hld|lia].
    + intros _ s' ->. wp_steps. split; [done|]. rewrite <- zdrop_zdrop, <- zdrop_fmap by lia.
      apply buf_src_drop; [|rewrite length_fmap; lia]. eapply buf_src_step; [|exact Hsrc].
      apply (env_step_write 0); [lia|done].
  - intros s' HO. destruct (only_pos_same _ _ HO) as (Eh&Ec&En&_). rewrite zdrop_0 by lia.
    unfold st_own. by rewrite Eh, Ec, En.
Qed.

(** Over BUF nodes with a character: memset *)
Lemma sub_over_rep_spec s pos n chr :
  wf s → in_range s pos n → buf_range s pos n →
  wp (sub_over (λ p tmp _, mem_store p (zrep tmp chr)) pos n tt) s (λ ok s', ok = true ∧ wf s' ∧
    st_content s' = zwrite (pos - 1) (zrep n (Some chr)) (st_content s) ∧ s_conf s' = s_conf s ∧
    env_step 0 (s_heap s) (st_own s) (s_heap s') (st_own s') ∧ b_nodes (s_base s') = b_nodes (s_base s) ∧
    b_len (s_base s') = b_len (s_base s) ∧ b_used (s_base s') = b_used (s_base s)).
Proof.
  intros Hw Hr Hbuf. assert (Hz : zlen (zrep n chr) = n) by (rewrite length_zrep; unfold in_range in Hr; lia).
  rewrite <- zrep_fmap. rewrite <- Hz in Hr, Hbuf |- * at 1.
  apply (sub_over_spec _ (zrep n chr) (λ _ _ _, True)); try done.
  intros s1 [] k m blk off bytes _ Hk Hm Hle Hin Hb Ho Hf.
  rewrite zdrop_zrep, ztake_zrep by lia. replace (m `min` (n - k)) with m by lia.
  wp_apply (mem_store_write s1 blk off (zrep m chr) bytes); [done|done|rewrite length_zrep; lia|]. by intros [] s' ->.
Qed.

(** ** Counting what is not in BUF nodes *)
Lemma sub_acc (buf : bool) nd acc n :
  (nd_type nd = NODE_BUF ↔ buf = true) → 0 ≤ acc + n ≤ SIZE_MAX →
  (if decide (nd_type nd ≠ NODE_BUF) then u64 (acc + n) else acc) = if buf then acc else acc + n.
Proof.
  intros [H1 H2] Hm. destruct buf.
  - rewrite decide_False; [done|]. intros E. by apply E, H2.
  - rewrite decide_True; [by apply u64_id|]. intros E. by apply H1 in E.
Qed.
Lemma sub_count_loop_spec (buf : bool) rs start len s fuel : ∀ it i off k total acc,
  nodes_ok rs (b_nodes (s_base s)) → h_refs (s_heap s) = rs →
  (∀ j nd, b_nodes (s_base s) !! j = Some nd → sum_len (take j (b_nodes (s_base s))) < start + len →
     start < sum_len (take (S j) (b_nodes (s_base s))) → nd_type nd = NODE_BUF ↔ buf = true) →
  iter_in rs (b_nodes (s_base s)) it i off → sum_len (take i (b_nodes (s_base s))) + off = start + k → 0 ≤ k →
  k + it_len it + it_remaining it = len → it_len it + it_remaining it ≤ total → 0 ≤ acc →
  acc + it_len it + it_remaining it ≤ SIZE_MAX → (length (b_nodes (s_base s)) ≤ S fuel + i)%nat →
  wp (sub_count_loop fuel it total acc) s (λ r s', s' = s ∧
    r = if buf then acc else acc + it_len it + it_remaining it).
Proof.
  induction fuel as [|fuel IH]; intros it i off k total acc Hns Hrs Hty Hit Hat Hk Hlen Htot Ha Hmax Hf;
    cbn [sub_count_loop]; destruct (ii_node _ _ _ _ _ Hit) as (nd&Hi&Hoff&Hle&_);
    pose proof (ii_len _ _ _ _ _ Hit) as Hl; pose proof (ii_remaining _ _ _ _ _ Hit) as Hrem;
    rewrite (ii_rest _ _ _ _ _ Hit), (drop_S _ _ _ Hi); cbn [head hd_error];
    (wp_step; eapply wp_of_option; [done|]; cbn beta zeta).
  all: assert (Ht : nd_type nd = NODE_BUF ↔ buf = true)
    by (apply (Hty i nd Hi); rewrite ?(sum_len_take_S _ _ _ Hi); lia).
  all: assert (Hacc : (if decide (nd_type nd ≠ NODE_BUF) then u64 (acc + it_len it) else acc) =
    if buf then acc else acc + it_len it)
    by (apply sub_acc; [exact Ht|lia]).
  all: rewrite Hacc; clear Hacc; case_decide as H0; [wp_steps; split; [done|]; destruct buf; lia|].
  all: wp_step; wp_apply vstr_iter_fwd_nxt_in; [exact Hit|exact Hns|exact Hrs|].
  all: intros [[] it'] s2 [-> Hm]; cbn [negb]; [|cbn in Hm; wp_steps; split; [done|]; destruct buf; lia].
  - destruct Hm as (_&_&_&Hlt&_). lia.
  - destruct Hm as (Hit'&Hr&_&_&Hs). pose proof (ii_len _ _ _ _ _ Hit'). pose proof (ii_remaining _ _ _ _ _ Hit').
    eapply wp_mono; [eapply (IH it' (S i) 0 (k + it_len it)); try done; destruct buf; lia|].
    intros r s2 [-> ->]. split; [done|]. destruct buf; lia.
Qed.

(** ** vstr_sub_buf *)

(** The characters of the range are all in BUF nodes, or none is. *)
Definition range_type (s : St) (pos len : Z) (buf : bool) : Prop :=
  ∀ i nd, b_nodes (s_base s) !! i = Some nd →
    sum_len (take i (b_nodes (s_base s))) < pos + len - 1 + b_used (s_base s) →
    pos - 1 + b_used (s_base s) < sum_len (take (S i) (b_nodes (s_base s))) → nd_type nd = NODE_BUF ↔ buf = true.
Lemma range_type_buf s pos len n : range_type s pos len true → n ≤ len → buf_range s pos n.
Proof. intros H Hn i nd Hi H1 H2. apply (H i nd Hi); [lia|done|done]. Qed.
Lemma range_type_same s s' pos len buf : b_nodes (s_base s') = b_nodes (s_base s) → b_used (s_base s') = b_used (s_base s) →
  range_type s pos len buf → range_type s' pos len buf.
Proof. unfold range_type. by intros -> ->. Qed.
Lemma only_buf_range s pos len : wf s → only_buf (s_base s) = true → range_type s pos len true.
Proof.
  intros Hw Ho i nd Hi _ _. split; [done|]. intros _. pose proof (bi_flags _ (wf_base _ Hw) nd) as Hf.
  specialize (Hf ltac:(by eapply list_elem_of_lookup_2)). unfold only_buf in Ho.
  apply andb_prop in Ho as [Ho H3]. apply andb_prop in Ho as [H1 H2].
  destruct (nd_type nd); [done|..]; cbn in Hf; rewrite Hf in *; done.
Qed.

(** When the memory runs out half way, TRUE is returned all the same and the
    first characters have been replaced: [len] is the smaller length. *)
Definition sub_buf_post (s : St) (pos len : Z) (D : list Z) (ok : bool) (s' : St) : Prop :=
  sub_post s pos len (Some <$> D) ok s' ∨
  (ok = true ∧ len ≠ zlen D ∧ wf s' ∧ conf_same (s_conf s) (s_conf s') ∧ malloc_bad (s_conf s') = true ∧
   st_content s' = zwrite (pos - 1) (Some <$> ztake len D) (st_content s)).

Lemma in_range_le s pos len n : in_range s pos len → 1 ≤ n ≤ len → in_range s pos n.
Proof. unfold in_range. lia. Qed.

(** After the characters that both have: the tail is deleted or added. *)
Definition sub_tail (pos len del_len buf_len : Z) (buf : pointer) : M bool :=
  let real_pos := u64 (pos + len) in
  let buf_len := buf_len - len in
  let buf := ptr_add buf len in
  when (bool_decide (del_len ≠ 0)) (vstr_del real_pos del_len;; mret tt);;
  when (bool_decide (buf_len ≠ 0)) (vstr_add_buf (u64 (real_pos - 1)) buf buf_len;; mret tt);;
  mret true.

(** The characters up to the shorter length have been replaced. *)
Record sub_head (s : St) (pos n : Z) (D : list Z) (buf : pointer) (s' : St) : Prop := {
  sh_wf : wf s';
  sh_content : st_content s' = zwrite (pos - 1) (Some <$> ztake n D) (st_content s);
  sh_len : b_len (s_base s') = b_len (s_base s);
  sh_conf : conf_same (s_conf s) (s_conf s');
  sh_malloc : malloc_bad (s_conf s') = malloc_bad (s_conf s);
  sh_src : buf_src (s_heap s') (st_own s') buf (Some <$> D) }.

Lemma zwrite_delete {A} p n k (d l : list A) :
  0 ≤ p → zlen d = n → p + n + k ≤ zlen l → 0 ≤ k →
  ztake (p + n) (zwrite p d l) ++ zdrop (p + n + k) (zwrite p d l) = ztake p l ++ d ++ zdrop (p + n + k) l.
Proof.
  intros Hp <- Hle Hk. rewrite ztake_zwrite_end by lia. rewrite <- app_assoc. do 2 f_equal.
  unfold zwrite. rewrite app_assoc.
  assert (Hz : zlen (ztake p l ++ d) = p + zlen d) by (rewrite length_app, Nat2Z.inj_add, length_ztake; lia).
  rewrite zdrop_app_r, Hz, zdrop_zdrop by lia. f_equal. lia.
Qed.
Lemma zwrite_insert {A} p n (d1 d2 l : list A) :
  0 ≤ p → zlen d1 = n → p + n ≤ zlen l →
  ztake (p + n) (zwrite p d1 l) ++ d2 ++ zdrop (p + n) (zwrite p d1 l) = ztake p l ++ (d1 ++ d2) ++ zdrop (p + n) l.
Proof.
  intros Hp <- Hle. rewrite ztake_zwrite_end by lia. rewrite <- !app_assoc. do 3 f_equal.
  unfold zwrite. rewrite app_assoc.
  assert (Hz : zlen (ztake p l ++ d1) = p + zlen d1) by (rewrite length_app, Nat2Z.inj_add, length_ztake; lia).
  rewrite zdrop_app_r, Hz, zdrop_0 by lia. done.
Qed.

Lemma sub_tail_spec s s1 pos len n D buf :
  wf s → in_range s pos len → 0 < zlen D → n = Z.min len (zlen D) → sub_head s pos n D buf s1 →
  pos + len + VSTR_MAX_NODE_BUF ≤ SIZE_MAX → add_room add_buf_op (zlen D) s1 → room 1 1 s1 →
  wp (sub_tail pos n (len - n) (zlen D) buf) s1 (λ ok s', sub_buf_post s pos len D ok s').
Proof.
  intros Hw (Hp&Hl&Hle) HD Hn [Hw1 Hc El Ecf Hm Hsrc] Hmax Hroom Hroom1. unfold sub_tail. cbv zeta.
  unfold VSTR_MAX_NODE_BUF in Hmax. pose proof (wf_content_length _ Hw) as Hcl.
  assert (Hz : zlen (Some <$> ztake n D) = n) by (rewrite length_fmap, length_ztake; lia).
  rewrite (u64_id (pos + n)), (u64_id (pos + n - 1)) by lia. wp_step. case_bool_decide as Hd; cbn [when].
  - rewrite bool_decide_eq_false_2 by lia. cbn [when]. wp_step.
    wp_apply vstr_del_spec; [done|unfold del_range_ok, VSTR_MAX_NODE_BUF; lia|done|]. intros ok s2 HD2.
    unfold del_post in HD2. rewrite decide_False in HD2 by (unfold del_bad; lia). destruct HD2 as (Hw2&Ec2&HD2).
    assert (n = zlen D) as E by lia. rewrite (ztake_all n) in Hc, Hz by lia. wp_steps. destruct ok.
    + left. destruct HD2 as [HD2 Hm2]. split; [done|]. split; [by eapply conf_same_trans|]. rewrite HD2, Hm2, Hc. split; [|done].
      replace (pos + n - 1) with (pos - 1 + n) by lia. rewrite zwrite_delete; [do 3 f_equal; lia|lia|done|rewrite Hcl; lia|lia].
    + right. destruct HD2 as [HD2 Hm2]. rewrite HD2, Hc, (ztake_all len) by lia.
      split_and!; [done|lia|done|by eapply conf_same_trans|done|done].
  - wp_steps. assert (n = len) as -> by lia. case_bool_decide as Hb; cbn [when]; wp_step.
    + set (d2 := Some <$> zdrop len D : list byte_or_non).
      assert (Hbuf : buf_src (s_heap s1) (st_own s1) (ptr_add buf len) d2).
      { unfold d2. rewrite <- zdrop_fmap. apply buf_src_drop; [done|]. rewrite length_fmap. lia. }
      assert (Hzd : zlen d2 = zlen D - len) by (unfold d2; rewrite length_fmap, length_zdrop; lia).
      rewrite <- Hzd. wp_apply (vstr_add_buf_full s1 (pos + len - 1)); [done|lia|exact Hbuf| |].
      { unfold add_room, add_needs in *. rewrite Hzd.
        pose proof (nodes_needed_mono (op_max add_buf_op (s_conf s1)) (zlen D - len) (zlen D)) as Hmono.
        pose proof (hi_bsz _ _ _ (wf_heap _ Hw1)). cbn in Hmono. specialize (Hmono ltac:(lia) ltac:(lia)).
        destruct Hroom as [H1 H2]. cbn in *. split; [lia|]. intros r ref Hr. specialize (H2 r ref Hr). lia. }
      intros ok s2 (HP&HU&_). unfold add_post in HP. rewrite decide_False in HP by lia. destruct HP as (Hw2&_&HP). wp_steps.
      destruct ok.
      * left. split; [done|]. split; [eapply conf_same_trans; [done|apply HU]|].
        rewrite HP, Hc, (au_malloc _ _ _ _ HU), Hm by done. split; [|done].
        replace (pos + len - 1) with (pos - 1 + len) by lia.
        rewrite zwrite_insert; [|lia|exact Hz|rewrite Hcl; lia]. unfold d2. by rewrite <- fmap_app, ztake_zdrop.
      * right. destruct HP as [HP Hm2]. rewrite HP, Hc.
        split_and!; [done|lia|done|eapply conf_same_trans; [done|apply HU]|done|done].
    + wp_steps. left. split; [done|]. split; [done|]. rewrite Hc, (ztake_all len) by lia. split; [|done].
      unfold zwrite. do 3 f_equal. rewrite length_fmap. lia.
Qed.

(** Room for the spare nodes asked for ahead, and for an addition *)
Definition sub_room (n : Z) (s : St) : Prop := room (4 + 3 * add_needs add_buf_op n s) (4 + 3 * add_needs add_buf_op n s) s.

Lemma room_le n k n' k' s : room n k s → n' ≤ n → k' ≤ k → room n' k' s.
Proof. intros [H1 H2] ? ?. split; [lia|]. intros r ref Hr. specialize (H2 r ref Hr). lia. Qed.
Lemma room_step n k s s' : zlen (st_own s') = zlen (st_own s) → refs_step 0 (h_refs (s_heap s)) (h_refs (s_heap s')) →
  room n k s → room n k s'.
Proof.
  intros Ho Hr [H1 H2]. unfold st_own in Ho. split; [lia|]. intros r ref' Hr'.
  destruct (refs_step_get _ _ _ _ _ Hr Hr') as (ref&Hr0&_&_&?&_). specialize (H2 r ref Hr0). lia.
Qed.
Lemma add_needs_pos s n : wf s → 0 < n → 2 ≤ add_needs add_buf_op n s.
Proof.
  intros Hw Hn. pose proof (hi_bsz _ _ _ (wf_heap _ Hw)).
  pose proof (nodes_needed_pos (op_max add_buf_op (s_conf s)) n ltac:(cbn; lia) Hn). unfold add_needs. lia.
Qed.

(** The spare nodes asked for *)
Lemma sub_spares_spec s m k :
  wf s → 0 ≤ m → room (m / buf_sz (s_conf s) + 2) k s →
  wp (c ← get_conf;
      if decide (m ≠ 0) then cntl_conf_set_num_range_spare NODE_BUF (u32 (m / buf_sz c + 2)) UINT_MAX else mret true) s
    (λ ok s', keeps 0 (m / buf_sz (s_conf s) + 2) s s' ∧ b_nodes (s_base s') = b_nodes (s_base s) ∧
      b_used (s_base s') = b_used (s_base s) ∧ malloc_bad (s_conf s') = (malloc_bad (s_conf s) || negb ok)).
Proof.
  intros Hw Hm [Hr _]. pose proof (hi_bsz _ _ _ (wf_heap _ Hw)) as Hb. wp_step. apply wp_gets.
  pose proof (Z.div_pos m (buf_sz (s_conf s)) Hm ltac:(lia)). case_decide as H0.
  - pose proof o_num_nonneg. rewrite u32_id by (unfold UINT_MAX in *; lia). wp_apply cntl_conf_set_num_range_spare_spec; [apply Hw|lia|done|].
    intros ok s1 (Hs&_&Hmb). split; [by eapply spare_step_keeps|]. by rewrite (ss_base _ _ _ _ Hs).
  - wp_steps. split_and!; [eapply keeps_weaken; [by apply keeps_refl|lia|lia]|done|done|]. by rewrite orb_false_r.
Qed.

Lemma vstr__sub_buf_slow_spec (b : bool) s pos len D buf :
  wf s → in_range s pos len → range_type s pos len b → 0 < zlen D →
  buf_src (s_heap s) (st_own s) buf (Some <$> D) →
  pos + zlen D + len + VSTR_MAX_NODE_BUF ≤ SIZE_MAX → sub_room (zlen D) s →
  wp (vstr__sub_buf_slow pos len buf (zlen D)) s (λ ok s', sub_buf_post s pos len D ok s').
Proof.
  intros Hw Hr Hty HD Hsrc Hmax Hroom. unfold vstr__sub_buf_slow. pose proof Hr as (Hp&Hl&Hle).
  pose proof Hmax as Hmax'. unfold VSTR_MAX_NODE_BUF in Hmax'. pose proof (add_needs_pos s (zlen D) Hw HD) as Han.
  set (n := Z.min len (zlen D)). set (m := Z.max 0 (zlen D - len)).
  replace (if decide (zlen D < len) then (len - zlen D, 0, zlen D) else (0, zlen D - len, len)) with (len - n, m, n)
    by (case_decide; [replace n with (zlen D) by lia; replace m with 0 by lia; done|
      replace n with len by lia; replace m with (zlen D - len) by lia; by rewrite Z.sub_diag]).
  wp_step. wp_apply vstr_iter_fwd_beg_in; [done|apply (in_range_le _ _ _ n Hr); lia|].
  intros r s1 (HO&Hw1&it&i&off&->&Hit&Hat&Hlen). destruct (only_pos_same _ _ HO) as (Eh&Ec&En&Eu&El&_&_&_&Ect).
  pose proof (ii_remaining _ _ _ _ _ Hit) as Hrem. pose proof (ii_len _ _ _ _ _ Hit) as Hilen.
  assert (Hsrc1 : buf_src (s_heap s1) (st_own s1) buf (Some <$> D)) by (unfold st_own; by rewrite Eh, Ec, En).
  wp_step. rewrite (ii_rest _ _ _ _ _ Hit), length_drop.
  wp_apply (sub_count_loop_spec b (h_refs (s_heap s)) (pos - 1 + b_used (s_base s)) n s1 _ it i off 0); rewrite ?En; try done; try lia.
  { by apply wf_nodes_ok. } { by rewrite Eh. }
  { intros j nd Hj H1 H2. apply (Hty j nd Hj); lia. }
  intros c s1' [-> Hc]. replace (if b then 0 else 0 + it_len it + it_remaining it) with (if b then 0 else n) in Hc by (destruct b; lia).
  assert (Hroom1 : sub_room (zlen D) s1) by (unfold sub_room, room, add_needs in *; by rewrite Ec, En, Eh).
  unfold sub_room, add_needs in Hroom1. rewrite Ec in Hroom1. unfold add_needs in Han.
  destruct b; subst c.
  - rewrite decide_False by lia. rewrite Z.add_0_r, u64_id by lia.
    apply (wp_bind get_conf). apply wp_gets. cbn beta. wp_step.
    assert (Hdiv : 0 ≤ m / buf_sz (s_conf s1) ≤ nodes_needed (op_max add_buf_op (s_conf s)) (zlen D)).
    { rewrite Ec. pose proof (hi_bsz _ _ _ (wf_heap _ Hw)) as Hbz. cbn. split; [apply Z.div_pos; lia|].
      unfold nodes_needed. pose proof (Z.div_le_mono m (zlen D) (buf_sz (s_conf s)) ltac:(lia) ltac:(lia)). case_decide; lia. }
    pose proof (sub_spares_spec s1 m 0 Hw1 ltac:(lia) ltac:(eapply room_le; [exact Hroom1|lia|lia])) as HS.
    apply wp_unbind in HS. cbn beta in HS. eapply wp_mono; [exact HS|]. clear HS. intros ok s2 (K&En2&Eu2&Hm2).
    pose proof (kp_wf _ _ _ _ K) as Hw2. destruct ok; cbn [negb].
    2:{ wp_steps. left. split_and!; [done|rewrite <- Ec; apply K|by rewrite (kp_content _ _ _ _ K)|].
        rewrite Hm2. apply orb_true_r. }
    rewrite orb_false_r in Hm2. rewrite (decide_False (P := 0 ≠ 0)) by (intros E; by apply E). wp_steps.
    set (Dn := ztake n D). assert (Hzn : zlen Dn = n) by (unfold Dn; rewrite length_ztake; lia).
    pose proof (buf_src_step _ _ _ _ _ _ _ (kp_env _ _ _ _ K) Hsrc1) as Hsrc2.
    rewrite <- Hzn at 1. wp_apply (vstr__sub_buf_fast_spec s2 pos buf Dn).
    + done.
    + unfold in_range. rewrite Hzn, (kp_len _ _ _ _ K), El. lia.
    + rewrite Hzn. eapply range_type_buf; [|reflexivity]. apply (range_type_same s); [by rewrite En2|by rewrite Eu2|].
      intros j nd Hj H1 H2. apply (Hty j nd Hj); lia.
    + destruct Hsrc2 as (bs&Ebs&Hld&Hno). apply (inj (fmap Some)) in Ebs as <-. exists Dn. split_and!; [done| |done].
      rewrite Hzn. eapply load_prefix; [exact Hld|lia].
    + intros ok s3 (->&Hw3&Hc3&Ec3&He3&En3&El3&Eu3).
      change (wp (sub_tail pos n (len - n) (zlen D) buf) s3 (λ ok s', sub_buf_post s pos len D ok s')).
      assert (Hroom3 : room (2 + nodes_needed (op_max add_buf_op (s_conf s)) (zlen D))
        (2 + nodes_needed (op_max add_buf_op (s_conf s)) (zlen D)) s3).
      { eapply room_step; [unfold st_own; by rewrite Ec3, En3|apply He3|].
        eapply (keeps_room 0 (m / buf_sz (s_conf s1) + 2)); [exact K|]. eapply room_le; [exact Hroom1|lia|lia]. }
      apply (sub_tail_spec s s3 pos len n); try done; try lia.
      * split; [done|by rewrite Hc3, (kp_content _ _ _ _ K), Ect|by rewrite El3, (kp_len _ _ _ _ K)|
          rewrite Ec3, <- Ec; apply K|by rewrite Ec3, Hm2, Ec|by eapply buf_src_step].
      * unfold add_room. replace (add_needs add_buf_op (zlen D) s3) with (add_needs add_buf_op (zlen D) s).
        2:{ unfold add_needs. rewrite Ec3. cbn. destruct (kp_conf _ _ _ _ K) as [-> _]. by rewrite Ec. }
        eapply room_le; [exact Hroom3|unfold add_needs; lia|unfold add_needs; lia].
      * eapply room_le; [exact Hroom3|lia|lia].
  - rewrite decide_True by lia. replace (u64 (n + (len - n))) with len by (rewrite u64_id by lia; lia).
    change (wp (add_then_del (vstr_add_buf (u64 (pos - 1)) buf (zlen D)) pos (zlen D) len) s1
      (λ ok s', sub_buf_post s pos len D ok s')).
    rewrite (u64_id (pos - 1)) by lia. rewrite <- (length_fmap (Some : Z → byte_or_non) D).
    eapply wp_mono; [eapply (add_then_del_spec (add_needs add_buf_op (zlen D) s1)); try done|].
    + lia.
    + rewrite El. lia.
    + by rewrite length_fmap.
    + unfold add_needs. rewrite Ec. eapply room_le; [exact Hroom1|lia|lia].
    + rewrite <- (length_fmap (Some : Z → byte_or_non) D). apply vstr_add_buf_full; [done|lia|done|].
      rewrite length_fmap. unfold add_room, add_needs. rewrite Ec. eapply room_le; [exact Hroom1|lia|lia].
    + intros ok s2 (Hw2&Hc2&HP). left. split; [done|]. rewrite <- Ec, <- Ect. done.
Qed.

(** ** The interface *)
Lemma vstr_sub_buf_spec (b : bool) s pos len D buf :
  wf s → in_range s pos len → range_type s pos len b → 0 < zlen D →
  buf_src (s_heap s) (st_own s) buf (Some <$> D) →
  pos + zlen D + len + VSTR_MAX_NODE_BUF ≤ SIZE_MAX → sub_room (zlen D) s →
  wp (vstr_sub_buf pos len buf (zlen D)) s (λ ok s', sub_buf_post s pos len D ok s').
Proof.
  intros Hw Hr Hty HD Hsrc Hmax Hroom. unfold vstr_sub_buf. pose proof Hr as (Hp&Hl&Hle).
  rewrite !decide_False by lia. wp_step. apply wp_gets. case_decide as Hf; [|by eapply vstr__sub_buf_slow_spec].
  destruct Hf as [-> Ho]. wp_apply vstr__sub_buf_fast_spec; [done|done|eapply range_type_buf; [by apply only_buf_range|done]|done|].
  intros ok s' (->&Hw'&Hc&Ec&_). left. split; [done|]. rewrite Ec. split; [apply conf_same_refl|]. split; [|done].
  rewrite Hc. unfold zwrite. by rewrite length_fmap.
Qed.

Lemma vstr_sub_non_spec s pos len n :
  wf s → 1 ≤ pos → 0 ≤ len → 0 ≤ n → pos - 1 + len ≤ b_len (s_base s) →
  pos + n + len + VSTR_MAX_NODE_BUF ≤ SIZE_MAX →
  room (1 + add_needs add_non_op n s) (1 + add_needs add_non_op n s) s →
  wp (vstr_sub_non pos len n) s (λ ok s', sub_post s pos len (zrep n None) ok s').
Proof.
  intros Hw Hp Hl Hn Hle Hmax Hroom. unfold vstr_sub_non. unfold VSTR_MAX_NODE_BUF in Hmax.
  assert (Hz : zlen (zrep n None : list byte_or_non) = n) by (rewrite length_zrep; lia).
  rewrite (u64_id (pos - 1)) by lia. rewrite <- Hz at 2.
  apply (add_then_del_spec (add_needs add_non_op n s)); try done; [unfold VSTR_MAX_NODE_BUF; lia|].
  apply vstr_add_non_full; [done|lia|done|]. unfold add_room. eapply room_le; [exact Hroom|lia|lia].
Qed.

(** For other numbers than one, which substitutes the bytes of its argument *)
Lemma vstr_sub_rep_chr_spec s pos len chr n chr_at :
  wf s → in_range s pos len → 0 ≤ n → n ≠ 1 → pos + n + len + VSTR_MAX_NODE_BUF ≤ SIZE_MAX →
  room (1 + add_needs add_rep_chr_op n s) (1 + add_needs add_rep_chr_op n s) s →
  wp (vstr_sub_rep_chr pos len chr n chr_at) s (λ ok s', sub_post s pos len (zrep n (Some chr)) ok s').
Proof.
  intros Hw Hr Hn Hn1 Hmax Hroom. unfold vstr_sub_rep_chr. pose proof Hr as (Hp&Hl&Hle). unfold VSTR_MAX_NODE_BUF in Hmax.
  assert (Hz : zlen (zrep n (Some chr) : list byte_or_non) = n) by (rewrite length_zrep; lia).
  rewrite !decide_False by lia. wp_step. apply wp_gets. case_decide as Hf.
  - destruct Hf as [-> Ho].
    wp_apply sub_over_rep_spec; [done|done|eapply range_type_buf; [by apply only_buf_range|done]|].
    intros ok s' (->&Hw'&Hc&Ec&_). split; [done|]. rewrite Ec. split; [apply conf_same_refl|]. split; [|done].
    rewrite Hc. unfold zwrite. by rewrite length_zrep, Z.max_r by lia.
  - rewrite (u64_id (pos - 1)) by lia. rewrite <- Hz at 2.
    apply (add_then_del_spec (add_needs add_rep_chr_op n s)); try done; [lia|lia|unfold VSTR_MAX_NODE_BUF; lia|].
    apply vstr_add_rep_chr_full; [done|lia|done|]. unfold add_room. eapply room_le; [exact Hroom|lia|lia].
Qed.

End others.
