(* ===== verification/Spn.v ===== *)
(** * Spans of characters (src/vstr_spn.c) and the search for one character
    (the first functions of src/vstr_srch.c).

    A set of characters that is only read is the list of its bytes; the NULL
    pointer, with which the span functions look for NON data, is [None]. *)
From Stdlib Require Import ZArith Lia ZifyBool.
From stdpp Require Import base tactics list numbers option gmap.
From S2P Require Import Prelude State Wp Ref Cache Core Iter.

(** while (count < n) { if (!p(ptr[count])) break; ++count; } *)
Fixpoint count_while {A} (p : A → bool) (l : list A) : Z :=
  match l with [] => 0 | x :: l => if p x then 1 + count_while p l else 0 end.

(** memchr(chrs, c, n) != NULL *)
Definition has_chr (chrs : list Z) (c : Z) : bool := bool_decide (c ∈ chrs).

(** ** Forward: the loops differ in what a NON node is ([non]: part of the
    span) and which characters are part of it *)
Definition spn_fwd_body (non : bool) (p : Z → bool) (it : Vstr_iter) (ret : Z) : M (loop_next Z Z) :=
  if iter_non it then
    mret (if non then Next (u64 (ret + it_len it)) else Return ret)
  else
    bs ← iter_bytes it;
    let count := count_while p bs in
    mret (if decide (count < it_len it) then Return (u64 (ret + count)) else Next (u64 (ret + it_len it))).

Definition spn_fwd_loop (non : bool) (p : Z → bool) (pos len : Z) : M Z :=
  iter ← vstr_iter_fwd_beg pos len;
  match iter with
  | None => mret 0
  | Some it => r ← iter_do_while (spn_fwd_body non p) it 0; mret (loop_value r)
  end.

Definition vstr__spn_chr_fwd (pos len spn_chr : Z) : M Z :=
  spn_fwd_loop false (λ c, bool_decide (spn_chr = c)) pos len.

Definition vstr_spn_chrs_fwd (pos len : Z) (spn_chrs : option (list Z)) : M Z :=
  b ← get_base;
  match spn_chrs with
  | None => if negb (node_non_used b) then mret 0 else spn_fwd_loop true (λ _, false) pos len
  | Some [c] => vstr__spn_chr_fwd pos len c
  | Some chrs => spn_fwd_loop false (has_chr chrs) pos len
  end.

Definition vstr_srch_chr_fwd (pos len srch : Z) : M Z :=
  iter ← vstr_iter_fwd_beg pos len;
  match iter with
  | None => mret 0
  | Some it =>
    r ← iter_do_while (A := ()) (R := Z) (λ it _,
          if iter_non it then mret (Next tt)
          else
            bs ← iter_bytes it;
            let found := count_while (λ c, bool_decide (c ≠ srch)) bs in
            mret (if decide (found < it_len it) then Return (u64 (vstr_iter_pos it pos len + found)) else Next tt))
          it tt;
    mret (match r with Return p => p | Next _ => 0 end)
  end.

Definition vstr_cspn_chrs_fwd (pos len : Z) (cspn_chrs : option (list Z)) : M Z :=
  b ← get_base;
  match cspn_chrs with
  | None => if negb (node_non_used b) then mret len else spn_fwd_loop false (λ _, true) pos len
  | Some [c] =>
    f_pos ← vstr_srch_chr_fwd pos len c;
    mret (if decide (f_pos = 0) then len else u64 (f_pos - pos))
  | Some chrs => spn_fwd_loop true (λ c, negb (has_chr chrs c)) pos len
  end.

(** bmap[c] *)
Definition bmap_get (bmap : list Z) (c : Z) : Z := nth (Z.to_nat (Z.land 255 c)) bmap 0.

Definition vstr_spn_bmap_eq_fwd (pos len : Z) (bmap : list Z) (val : Z) : M Z :=
  spn_fwd_loop false (λ c, bool_decide (bmap_get bmap c = val)) pos len.
Definition vstr_spn_bmap_and_fwd (pos len : Z) (bmap : list Z) (val : Z) : M Z :=
  spn_fwd_loop false (λ c, bool_decide (Z.land (bmap_get bmap c) val ≠ 0)) pos len.
Definition vstr_cspn_bmap_eq_fwd (pos len : Z) (bmap : list Z) (val : Z) : M Z :=
  spn_fwd_loop true (λ c, bool_decide (bmap_get bmap c ≠ val)) pos len.
Definition vstr_cspn_bmap_and_fwd (pos len : Z) (bmap : list Z) (val : Z) : M Z :=
  spn_fwd_loop true (λ c, bool_decide (Z.land (bmap_get bmap c) val = 0)) pos len.

(** ** Backward, the slow way: go forward and start again at each failure *)
Definition spn_rev_body (non : bool) (p : Z → bool) (it : Vstr_iter) (ret : Z) : M (loop_next Z Z) :=
  if iter_non it then mret (Next (if non then u64 (ret + it_len it) else 0))
  else
    bs ← iter_bytes it;
    let count := count_while p (reverse bs) in
    mret (Next (if decide (count < it_len it) then count else u64 (ret + it_len it))).

Definition spn_rev_loop (non : bool) (p : Z → bool) (pos len : Z) : M Z :=
  iter ← vstr_iter_fwd_beg pos len;
  match iter with
  | None => mret 0
  | Some it => r ← iter_do_while (spn_rev_body non p) it 0; mret (loop_value r)
  end.

Definition vstr__spn_chrs_rev_slow (pos len : Z) (spn_chrs : option (list Z)) : M Z :=
  b ← get_base;
  match spn_chrs with
  | None => if negb (node_non_used b) then mret 0 else spn_rev_loop true (λ _, false) pos len
  | Some chrs => spn_rev_loop false (has_chr chrs) pos len
  end.

Definition vstr__cspn_chrs_rev_slow (pos len : Z) (cspn_chrs : option (list Z)) : M Z :=
  match cspn_chrs with
  | None => spn_rev_loop false (λ _, true) pos len
  | Some chrs => spn_rev_loop true (λ c, negb (has_chr chrs c)) pos len
  end.

Definition vstr_spn_bmap_eq_rev (pos len : Z) (bmap : list Z) (val : Z) : M Z :=
  spn_rev_loop false (λ c, bool_decide (bmap_get bmap c = val)) pos len.
Definition vstr_spn_bmap_and_rev (pos len : Z) (bmap : list Z) (val : Z) : M Z :=
  spn_rev_loop false (λ c, bool_decide (Z.land (bmap_get bmap c) val ≠ 0)) pos len.
Definition vstr_cspn_bmap_eq_rev (pos len : Z) (bmap : list Z) (val : Z) : M Z :=
  spn_rev_loop true (λ c, bool_decide (bmap_get bmap c ≠ val)) pos len.
Definition vstr_cspn_bmap_and_rev (pos len : Z) (bmap : list Z) (val : Z) : M Z :=
  spn_rev_loop true (λ c, bool_decide (Z.land (bmap_get bmap c) val = 0)) pos len.

(** ** Backward, the fast way: over the I/O vector *)
Definition spn_scan_body (non : bool) (p : Z → bool) (sr : scan_rev) (ret : Z) : M (loop_next Z Z) :=
  if decide (sr_type sr = NODE_NON) then
    mret (if non then Next (u64 (ret + sr_scan_len sr)) else Return ret)
  else
    bs ← scan_bytes sr;
    let count := count_while p (reverse bs) in
    mret (if decide (count < sr_scan_len sr) then Return (u64 (ret + count))
          else Next (u64 (ret + sr_scan_len sr))).

Definition spn_scan_loop (non : bool) (p : Z → bool) (pos len : Z) : M Z :=
  scan ← vstr__base_scan_rev_beg pos len;
  match scan with
  | None => mret 0
  | Some sr => r ← scan_do_while (spn_scan_body non p) sr 0; mret (loop_value r)
  end.

Definition vstr__spn_chrs_rev_fast (pos len : Z) (spn_chrs : option (list Z)) : M Z :=
  b ← get_base;
  match spn_chrs with
  | None => if negb (node_non_used b) then mret 0 else spn_scan_loop true (λ _, false) pos len
  | Some chrs => spn_scan_loop false (has_chr chrs) pos len
  end.
Definition vstr__cspn_chrs_rev_fast (pos len : Z) (cspn_chrs : option (list Z)) : M Z :=
  match cspn_chrs with
  | None => spn_scan_loop false (λ _, true) pos len
  | Some chrs => spn_scan_loop true (λ c, negb (has_chr chrs c)) pos len
  end.

Definition vstr_spn_chrs_rev (pos len : Z) (spn_chrs : option (list Z)) : M Z :=
  b ← get_base;
  if iovec_upto_date b then vstr__spn_chrs_rev_fast pos len spn_chrs
  else vstr__spn_chrs_rev_slow pos len spn_chrs.

(** ** The last occurrence of a character *)
Fixpoint srch_chr_rev_loop (fuel : nat) (pos len srch ret scan_pos scan_len : Z) : M Z :=
  if decide (scan_len = 0) then mret ret
  else match fuel with
  | O => undef
  | S fuel =>
    tmp ← vstr_srch_chr_fwd scan_pos scan_len srch;
    if decide (tmp = 0) then mret ret
    else srch_chr_rev_loop fuel pos len srch tmp (u64 (tmp + 1)) (u64 (len - vstr_sc_posdiff pos tmp))
  end.
Definition vstr__srch_chr_rev_slow (pos len srch : Z) : M Z :=
  srch_chr_rev_loop (Z.to_nat len) pos len srch 0 pos len.

Definition vstr__srch_chr_rev_fast (pos len srch : Z) : M Z :=
  scan ← vstr__base_scan_rev_beg pos len;
  match scan with
  | None => mret 0
  | Some sr =>
    r ← scan_do_while (A := ()) (R := Z) (λ sr _,
          if decide (sr_type sr = NODE_NON) then mret (Next tt)
          else
            bs ← scan_bytes sr;
            let after := count_while (λ c, bool_decide (c ≠ srch)) (reverse bs) in
            mret (if decide (after < sr_scan_len sr)
                  then Return (u64 (pos + sr_len sr + (sr_scan_len sr - after - 1))) else Next tt))
          sr tt;
    mret (match r with Return p => p | Next _ => 0 end)
  end.

Definition vstr_srch_chr_rev (pos len srch : Z) : M Z :=
  b ← get_base;
  if iovec_upto_date b then vstr__srch_chr_rev_fast pos len srch else vstr__srch_chr_rev_slow pos len srch.

Definition vstr_cspn_chrs_rev (pos len : Z) (cspn_chrs : option (list Z)) : M Z :=
  b ← get_base;
  match cspn_chrs with
  | None =>
    if negb (node_non_used b) then mret len
    else if iovec_upto_date b then vstr__cspn_chrs_rev_fast pos len None
    else vstr__cspn_chrs_rev_slow pos len None
  | Some [c] =>
    f_pos ← vstr_srch_chr_rev pos len c;
    mret (if decide (f_pos = 0) then len else u64 (u64 (pos + (len - 1)) - f_pos))
  | Some chrs =>
    if iovec_upto_date b then vstr__cspn_chrs_rev_fast pos len (Some chrs)
    else vstr__cspn_chrs_rev_slow pos len (Some chrs)
  end.
