(* ===== verification/IovecSpec.v ===== *)
(** * The I/O vector made on demand describes the string, and going backwards
    over it gives the string from its end. *)
From Stdlib Require Import ZArith Lia ZifyBool.
From stdpp Require Import base tactics list numbers option gmap.
From S2P Require Import Prelude State Wp Ref Cache Core Base Iter Inv PosLemmas SpareLemmas SplitLemmas CacheLemmas AddLemmas StringLemmas AddSpec BaseTheorems IterLemmas.

Section others.
Context {OT : Others}.

(** ** What a valid vector is *)

(** Slot [off + i] of the vector is entry [i] of the string. *)
Definition vec_holds (vec : cache_data_iovec) (es : list (iovec * node_type)) : Prop :=
  0 ≤ cv_off vec ∧ ∀ i e, es !! i = Some e → vec_entry (Z.of_nat i + 1) vec = Some e.
Definition vec_describes (s : St) : Prop :=
  iovec_upto_date (s_base s) = true → ∃ vec es, c_vec (b_cache (s_base s)) = Some vec ∧
    iovec_entries (h_refs (s_heap s)) (b_used (s_base s)) (b_nodes (s_base s)) = Some es ∧ vec_holds vec es.

(** The arrays have the size the cache says, and sizes stay within 32 bits. *)
Record vec_usable (s : St) : Prop := {
  vu_shape : ∀ vec, c_vec (b_cache (s_base s)) = Some vec →
    zlen (cv_v vec) = cv_sz vec ∧ zlen (cv_t vec) = cv_sz vec ∧ 0 ≤ cv_off vec;
  vu_alloc : 0 ≤ iov_min_alloc (s_conf s);
  vu_offset : 0 ≤ iov_min_offset (s_conf s);
  vu_fits : zlen (b_nodes (s_base s)) + iov_min_alloc (s_conf s) + iov_min_offset (s_conf s) ≤ UINT_MAX }.

Lemma iovec_entry_is_Some h bsz used nd :
  node_ok h bsz nd → is_Some (iovec_entry (h_refs h) used nd).
Proof.
  intros [_ Hok]. unfold iovec_entry. destruct nd as [a l body]; destruct body; cbn in *; try by eexists.
  destruct Hok as (_&_&v&->&_). by eexists.
Qed.
Lemma iovec_entries_is_Some h bsz used ns :
  Forall (node_ok h bsz) ns → ∃ es, iovec_entries (h_refs h) used ns = Some es ∧ length es = length ns ∧
    (∀ i nd, ns !! i = Some nd → iovec_entry (h_refs h) (if decide (i = 0%nat) then used else 0) nd = es !! i).
Proof.
  destruct ns as [|nd ns]; intros Hok; cbn; [by exists []|]. apply Forall_cons in Hok as [Hnd Hok].
  destruct (iovec_entry_is_Some _ _ used _ Hnd) as [e He]. rewrite He. cbn.
  assert (Hm : is_Some (mapM (iovec_entry (h_refs h) 0) ns)).
  { apply mapM_is_Some. eapply Forall_impl; [exact Hok|]. intros x. apply iovec_entry_is_Some. }
  destruct Hm as [es Hes]. rewrite Hes. cbn. exists (e :: es). split_and!; [done| |].
  - cbn. by rewrite (length_mapM _ _ _ Hes).
  - intros [|i] x Hx; cbn in *; [by injection Hx as <-|].
    apply mapM_Some in Hes. destruct (Forall2_lookup_l _ _ _ _ _ Hes Hx) as (y&Hy&Hxy). rewrite decide_False by done. exact (eq_trans Hxy (eq_sym Hy)).
Qed.

(** Reading back what was written *)
Lemma zwrite_lookup {A} (n : Z) (xs l : list A) (i : nat) :
  0 ≤ n → n + zlen xs ≤ zlen l → (i < length xs)%nat → zwrite n xs l !! Z.to_nat (n + Z.of_nat i) = xs !! i.
Proof.
  intros Hn Hle Hi. unfold zwrite. assert (Hl : length (ztake n l) = Z.to_nat n).
  { unfold ztake. rewrite length_take. lia. }
  rewrite lookup_app_r by lia. rewrite lookup_app_l by lia. f_equal. lia.
Qed.
Lemma vec_holds_write vec es :
  0 ≤ cv_off vec → cv_off vec + zlen es ≤ zlen (cv_v vec) → cv_off vec + zlen es ≤ zlen (cv_t vec) →
  vec_holds (mkVec (zwrite (cv_off vec) (fst <$> es) (cv_v vec)) (zwrite (cv_off vec) (snd <$> es) (cv_t vec))
    (cv_off vec) (cv_sz vec)) es.
Proof.
  intros Ho Hv Ht. split; [done|]. intros i e Hi. pose proof (lookup_lt_Some _ _ _ Hi) as Hlt.
  unfold vec_entry. cbn [cv_off cv_v cv_t]. replace (cv_off vec + (Z.of_nat i + 1) - 1) with (cv_off vec + Z.of_nat i) by lia.
  rewrite !zwrite_lookup by (rewrite ?length_fmap; lia). rewrite !list_lookup_fmap, Hi. cbn. by destruct e.
Qed.

(** ** Making the vector *)

(** Everything but the vector and the fresh addresses *)
Definition vec_only (s s' : St) : Prop :=
  conf_same (s_conf s) (s_conf s') ∧ h_mem (s_heap s') = h_mem (s_heap s) ∧ h_refs (s_heap s') = h_refs (s_heap s) ∧
  (h_next (s_heap s) ≤ h_next (s_heap s'))%positive ∧ (∃ m, s_conf s' = set_malloc_bad m (s_conf s)) ∧
  ∃ u v, s_base s' = set_vec_state u v (s_base s) ∧ (is_Some (c_vec (b_cache (s_base s))) → is_Some v).

Lemma vec_only_refl s : vec_only s s.
Proof.
  split_and!; try done; [|].
  - exists (malloc_bad (s_conf s)). by destruct s as [? [] ?].
  - exists (iovec_upto_date (s_base s)), (c_vec (b_cache (s_base s))).
    split; [by destruct s as [h c [? ? ? ? ? ? ? ? ? ? ? ? []]]|done].
Qed.
Lemma vec_only_trans s1 s2 s3 : vec_only s1 s2 → vec_only s2 s3 → vec_only s1 s3.
Proof.
  intros (C1&M1&R1&N1&[m1 E1]&u1&v1&B1&V1) (C2&M2&R2&N2&[m2 E2]&u2&v2&B2&V2).
  split_and!; [by eapply conf_same_trans|congruence|congruence|lia| |].
  - exists m2. rewrite E2, E1. by destruct (s_conf s1).
  - exists u2, v2. split; [rewrite B2, B1; by destruct (s_base s1) as [? ? ? ? ? ? ? ? ? ? ? ? []]|].
    intros Hv. apply V2. rewrite B1. apply V1 in Hv. by destruct (s_base s1) as [? ? ? ? ? ? ? ? ? ? ? ? []].
Qed.
Lemma vec_only_malloc s s' : malloc_only s s' → vec_only s s'.
Proof.
  intros (Ec&Eb&Em&Er&En). destruct (vec_only_refl s) as (?&?&?&?&?&?). split_and!; try done; by rewrite ?Ec, ?Eb.
Qed.
Lemma vec_only_base s u v : vec_only s (on_base (set_vec_state u (Some v)) s).
Proof.
  destruct (vec_only_refl s) as (?&?&?&?&?&?). split_and!; try done. exists u, (Some v). split; [done|by eexists].
Qed.
Lemma vec_only_bad s : vec_only s (on_conf (set_malloc_bad true) s).
Proof.
  destruct (vec_only_refl s) as (?&?&?&?&?&?). split_and!; try done; [apply conf_same_malloc_bad|by exists true].
Qed.

Lemma vec_only_same s s' : vec_only s s' →
  b_nodes (s_base s') = b_nodes (s_base s) ∧ b_used (s_base s') = b_used (s_base s) ∧
  b_len (s_base s') = b_len (s_base s) ∧ b_num (s_base s') = b_num (s_base s) ∧
  cache_available (s_base s') = cache_available (s_base s) ∧ st_content s' = st_content s.
Proof.
  intros (_&Em&Er&_&_&u&v&Eb&_). unfold st_content, content. rewrite Eb.
  replace (b_nodes (set_vec_state u v (s_base s))) with (b_nodes (s_base s)) by by destruct (s_base s) as [? ? ? ? ? ? ? ? ? ? ? ? []].
  replace (chain_bytes (s_heap s') (b_nodes (s_base s))) with (chain_bytes (s_heap s) (b_nodes (s_base s))).
  - by destruct (s_base s) as [? ? ? ? ? ? ? ? ? ? ? ? []].
  - symmetry. apply chain_frame. intros nd _. unfold node_bytes. by rewrite Em, Er.
Qed.
Lemma vec_only_wf s s' : wf s → vec_only s s' → vec_ok (s_base s') → wf s'.
Proof.
  intros [H HB HC] Ho Hv. destruct (vec_only_same _ _ Ho) as (En&Eu&El&Em&Ea&_).
  destruct Ho as (_&Hm&Hr&Hn&[m Hc]&u&v&Eb&_). split.
  - rewrite En, Hc. apply heap_inv_malloc_bad. by eapply heap_inv_malloc_only.
  - destruct HB. rewrite Eb. destruct (s_base s) as [? ? ? ? ? ? ? ? ? ? ? ? []]. by split.
  - destruct HC as [P A V]. split; [| |done]; rewrite Eb; destruct (s_base s) as [? ? ? ? ? ? ? ? ? ? ? ? []]; done.
Qed.

Lemma vec_only_ok s s' : vec_only s s' → vec_ok (s_base s) → iovec_upto_date (s_base s') = false → vec_ok (s_base s').
Proof.
  intros (_&_&_&_&_&u&v&->&Hv) [H1 H2] Hu. destruct (s_base s) as [? ? ? ? ? ? ? ? ? ? ? ? []]. cbn in *.
  split; [intros [?|?]; [by subst|by apply Hv, H1; right]|done].
Qed.

(** There is a vector with room for the nodes, from the minimum offset on. *)
Definition vec_ready (s : St) : Prop := ∃ vec, c_vec (b_cache (s_base s)) = Some vec ∧
  cv_off vec = iov_min_offset (s_conf s) ∧
  cv_off vec + zlen (b_nodes (s_base s)) ≤ zlen (cv_v vec) ∧ cv_off vec + zlen (b_nodes (s_base s)) ≤ zlen (cv_t vec).

Lemma set_vec_state_fields u v b :
  b_nodes (set_vec_state u v b) = b_nodes b ∧ c_vec (b_cache (set_vec_state u v b)) = v ∧
  iovec_upto_date (set_vec_state u v b) = u ∧ b_used (set_vec_state u v b) = b_used b ∧
  cache_available (set_vec_state u v b) = cache_available b.
Proof. by destruct b as [? ? ? ? ? ? ? ? ? ? ? ? []]. Qed.

(** Setting the vector of a string *)
Lemma upd_vec_run f s vec :
  c_vec (b_cache (s_base s)) = Some vec →
  upd_vec f s = Some (tt, on_base (set_vec_state (iovec_upto_date (s_base s)) (Some (f vec))) s).
Proof.
  intros Hv. unfold upd_vec, mbind, M_bind, get_base, gets. rewrite Hv.
  destruct s as [h c [? ? ? ? ? ? ? ? ? ? ? ? []]]. done.
Qed.
Lemma upd_cache_vec_run v s :
  upd_cache (c_set_vec v) s = Some (tt, on_base (set_vec_state (iovec_upto_date (s_base s)) v) s).
Proof. by destruct s as [h c [? ? ? ? ? ? ? ? ? ? ? ? []]]. Qed.

(** The last step: grow the arrays when they are too small *)
Lemma iovec_grow_spec s n vec :
  c_vec (b_cache (s_base s)) = Some vec → cv_off vec = iov_min_offset (s_conf s) → 0 ≤ n →
  n = zlen (b_nodes (s_base s)) → 0 ≤ iov_min_offset (s_conf s) → n + iov_min_offset (s_conf s) ≤ UINT_MAX →
  zlen (cv_v vec) = cv_sz vec → zlen (cv_t vec) = cv_sz vec →
  wp (if decide (cv_sz vec - cv_off vec < n) then
        ok ← alloc_all 2;
        if (ok : bool) then upd_vec (vec_realloc (u32 (n + iov_min_offset (s_conf s))));; mret true
        else upd_conf (set_malloc_bad true);; mret false
      else mret true) s (λ ok s', vec_only s s' ∧
        iovec_upto_date (s_base s') = iovec_upto_date (s_base s) ∧
        if ok : bool then vec_ready s' else malloc_bad (s_conf s') = true).
Proof.
  intros Hv Hoff Hn En Hmo Hfit Hlv Hlt. case_decide as Hd.
  - wp_step. wp_apply alloc_all_spec. intros ok s1 Hs1. pose proof (vec_only_malloc _ _ Hs1) as Ho.
    destruct Hs1 as (Ec&Eb&_). destruct ok.
    + wp_step. unfold wp at 1. erewrite upd_vec_run by (by rewrite Eb). wp_steps.
      split; [eapply vec_only_trans; [exact Ho|apply vec_only_base]|]. split; [cbn; rewrite Eb; apply set_vec_state_fields|].
      unfold vec_ready. cbn [s_base on_base s_conf]. destruct (set_vec_state_fields (iovec_upto_date (s_base s1))
        (Some (vec_realloc (u32 (n + iov_min_offset (s_conf s))) vec)) (s_base s1)) as (F1&F2&_).
      rewrite F1, F2, Eb, Ec, <- En. eexists. split; [done|]. unfold vec_realloc.
      cbn [cv_off cv_v cv_t]. rewrite u32_id by (unfold UINT_MAX in *; lia).
      split; [done|]. rewrite !length_app, !Nat2Z.inj_add, !length_ztake, !length_zrep. lia.
    + wp_steps. split; [eapply vec_only_trans; [exact Ho|apply vec_only_bad]|]. split; [cbn; by rewrite Eb|].
      cbn. by destruct (s_conf s1).
  - wp_steps. split; [apply vec_only_refl|]. split; [done|]. exists vec. rewrite <- En. split_and!; [done|done|lia|lia].
Qed.

Lemma vstr__cache_iovec_alloc_spec s :
  wf s → vec_usable s → iovec_upto_date (s_base s) = false →
  wp (vstr__cache_iovec_alloc (b_num (s_base s))) s (λ ok s', vec_only s s' ∧
    iovec_upto_date (s_base s') = false ∧
    if ok : bool then vec_ready s' else cache_available (s_base s) = false ∨ malloc_bad (s_conf s') = true).
Proof.
  intros Hw [Hsh Hal Hof Hfit] Hup. pose proof (bi_num _ (wf_base _ Hw)) as En.
  set (n := b_num (s_base s)) in *. unfold vstr__cache_iovec_alloc. wp_step. apply wp_gets. wp_step. apply wp_gets.
  destruct (cache_available (s_base s)) eqn:Ea; cbn [negb].
  2:{ wp_steps. split; [apply vec_only_refl|]. auto. }
  assert (Hrest : ∀ s1 vec, vec_only s s1 → s_conf s1 = s_conf s → c_vec (b_cache (s_base s1)) = Some vec → iovec_upto_date (s_base s1) = false →
    zlen (cv_v vec) = cv_sz vec → zlen (cv_t vec) = cv_sz vec →
    wp (b ← get_base;
      (if negb (iovec_upto_date b) then upd_vec (vec_set_off (iov_min_offset (s_conf s)))
       else match c_vec (b_cache b) with
       | Some vec =>
         when (bool_decide (iov_min_offset (s_conf s) < cv_off vec ∧ cv_sz vec - cv_off vec < n))
           (upd_vec (vstr__cache_iovec_memmove (b_num b) (iov_min_offset (s_conf s))))
       | None => undef
       end);;
      b ← get_base;
      match c_vec (b_cache b) with
      | None => undef
      | Some vec =>
        if decide (cv_sz vec - cv_off vec < n) then
          ok ← alloc_all 2;
          if (ok : bool) then upd_vec (vec_realloc (u32 (n + iov_min_offset (s_conf s))));; mret true
          else upd_conf (set_malloc_bad true);; mret false
        else mret true
      end) s1 (λ ok s', vec_only s s' ∧ iovec_upto_date (s_base s') = false ∧
        if ok : bool then vec_ready s' else true = false ∨ malloc_bad (s_conf s') = true)).
  { intros s1 vec Ho1 Hc1 Hv1 Hu1 Hlv Hlt. wp_step. apply wp_gets. rewrite Hu1. cbn [negb]. wp_step.
    unfold wp at 1. rewrite (upd_vec_run _ _ _ Hv1). rewrite Hu1. set (s2 := on_base _ s1).
    pose proof (vec_only_trans _ _ _ Ho1 (vec_only_base s1 false (vec_set_off (iov_min_offset (s_conf s)) vec))) as Ho2.
    fold s2 in Ho2. destruct (set_vec_state_fields false (Some (vec_set_off (iov_min_offset (s_conf s)) vec)) (s_base s1)) as (F1&F2&F3&_).
    destruct (vec_only_same _ _ Ho2) as (N2&_). wp_step. apply wp_gets. replace (c_vec (b_cache (s_base s2))) with
      (Some (vec_set_off (iov_min_offset (s_conf s)) vec)) by by rewrite <- F2.
    assert (Ec2 : s_conf s2 = s_conf s) by exact Hc1.
    pose proof (iovec_grow_spec s2 n (vec_set_off (iov_min_offset (s_conf s)) vec)) as HG.
    rewrite Ec2, N2 in HG. specialize (HG F2 eq_refl ltac:(lia) En Hof ltac:(lia) Hlv Hlt).
    eapply wp_mono; [exact HG|]. intros ok s3 (Ho3&Hu3&H3). split; [by eapply vec_only_trans|].
    split; [rewrite Hu3; exact F3|]. destruct ok; auto. }
  cbn [negb]. wp_step. destruct (c_vec (b_cache (s_base s))) as [vec|] eqn:Ev.
  - wp_steps. cbn [negb]. destruct (Hsh vec eq_refl) as (Hlv&Hlt&_). eapply Hrest; [apply vec_only_refl|done|exact Ev|done|done|done].
  - wp_step. wp_apply alloc_all_spec. intros ok s1 Hs1. pose proof (vec_only_malloc _ _ Hs1) as Ho1.
    destruct Hs1 as (Ec&Eb&_). destruct ok.
    + wp_step. unfold wp at 1. rewrite upd_cache_vec_run, Eb, Hup. wp_steps. cbn [negb].
      set (vec := vec_fresh _ 0). set (s2 := on_base _ s1).
      assert (Hz : 0 ≤ n + iov_min_alloc (s_conf s) + iov_min_offset (s_conf s) ≤ UINT_MAX) by lia.
      eapply (Hrest s2 vec); [|exact Ec| | | |].
      * eapply vec_only_trans; [exact Ho1|apply vec_only_base].
      * unfold s2. cbn. apply set_vec_state_fields.
      * unfold s2. cbn. apply set_vec_state_fields.
      * unfold vec, vec_fresh. cbn [cv_v cv_sz]. rewrite length_zrep, u32_id by (unfold UINT_MAX in *; lia). lia.
      * unfold vec, vec_fresh. cbn [cv_t cv_sz]. rewrite length_zrep, u32_id by (unfold UINT_MAX in *; lia). lia.
    + wp_steps. cbn [negb]. wp_steps. split; [eapply vec_only_trans; [exact Ho1|apply vec_only_bad]|].
      split; [cbn; by rewrite Eb|]. right. cbn. by destruct (s_conf s1).
Qed.

Definition iovec_valid_post (s : St) (ok : bool) (s' : St) : Prop :=
  wf s' ∧ st_content s' = st_content s ∧ b_len (s_base s') = b_len (s_base s) ∧ conf_same (s_conf s) (s_conf s') ∧
  if ok then vec_describes s' ∧ (b_nodes (s_base s) ≠ [] → iovec_upto_date (s_base s') = true)
  else cache_available (s_base s) = false ∨ malloc_bad (s_conf s') = true.

Lemma vec_only_valid_post s s' (ok : bool) :
  wf s → vec_only s s' → vec_ok (s_base s') →
  (if ok then vec_describes s' ∧ (b_nodes (s_base s) ≠ [] → iovec_upto_date (s_base s') = true)
   else cache_available (s_base s) = false ∨ malloc_bad (s_conf s') = true) →
  iovec_valid_post s ok s'.
Proof.
  intros Hw Ho Hv H. destruct (vec_only_same _ _ Ho) as (En&Eu&El&Em&Ea&Ec).
  split_and!; try done; [by eapply vec_only_wf|apply Ho].
Qed.

Lemma vstr__cache_iovec_valid_spec s :
  wf s → vec_usable s → vec_describes s → wp vstr__cache_iovec_valid s (λ ok s', iovec_valid_post s ok s').
Proof.
  intros Hw Hus Hd. pose proof (wf_heap _ Hw) as H. unfold vstr__cache_iovec_valid. wp_step. apply wp_gets.
  destruct (iovec_upto_date (s_base s)) eqn:Eup.
  { wp_steps. apply vec_only_valid_post; [done|apply vec_only_refl|exact (ci_vec _ (wf_cache _ Hw))|done]. }
  destruct (b_nodes (s_base s)) as [|nd ns] eqn:En.
  { destruct (c_vec (b_cache (s_base s))) as [vec|] eqn:Ev.
    - wp_step. apply wp_when; intros Hc.
      + apply wp_modify. wp_steps.
        assert (Es : on_base (b_set_iovec_upto_date true) s = on_base (set_vec_state true (Some vec)) s).
        { rewrite <- Ev. by destruct s as [h c [? ? ? ? ? ? ? ? ? ? ? ? []]]. }
        rewrite Es. apply vec_only_valid_post; [done|apply vec_only_base| |].
        * eapply vec_step_ok, vec_ok_set; [apply (ci_vec _ (wf_cache _ Hw))|done].
        * split; [|done]. intros _. cbn. destruct (set_vec_state_fields true (Some vec) (s_base s)) as (F1&F2&F3&F4&_).
          rewrite F1, F2, F4, En. exists vec, []. split_and!; [done|done|]. split; [|done].
          apply (vu_shape _ Hus vec Ev).
      + wp_steps. apply vec_only_valid_post; [done|apply vec_only_refl|exact (ci_vec _ (wf_cache _ Hw))|].
        split; [|done]. intros Hu. congruence.
    - wp_steps. apply vec_only_valid_post; [done|apply vec_only_refl|exact (ci_vec _ (wf_cache _ Hw))|].
      split; [|done]. intros Hu. congruence. }
  rewrite <- En in H |- *. wp_step. wp_apply vstr__cache_iovec_alloc_spec; [done|done|done|]. intros ok s1 (Ho1&Hu1&Hr).
  destruct ok; cbn [negb].
  2:{ wp_steps. apply vec_only_valid_post; [done|done| |done].
      by eapply vec_only_ok; [|apply (ci_vec _ (wf_cache _ Hw))|]. }
  destruct Hr as (vec&Ev&Eoff&Hv&Ht). destruct (vec_only_same _ _ Ho1) as (N1&U1&_).
  destruct (iovec_entries_is_Some (s_heap s) _ (b_used (s_base s)) _ (hi_nodes _ _ _ H)) as (es&Hes&Hlen&_).
  wp_step. apply wp_gets. wp_step. apply wp_gets. wp_step.
  assert (Er : h_refs (s_heap s1) = h_refs (s_heap s)) by apply Ho1. rewrite Er. eapply wp_of_option; [exact Hes|].
  cbn beta. wp_step. unfold wp at 1. rewrite (upd_vec_run _ _ _ Ev), Hu1. wp_step. apply wp_modify. wp_steps.
  set (vec' := mkVec _ _ _ _).
  assert (Es : on_base (b_set_iovec_upto_date true) (on_base (set_vec_state false (Some vec')) s1) =
    on_base (set_vec_state true (Some vec')) s1).
  { by destruct s1 as [h c [? ? ? ? ? ? ? ? ? ? ? ? []]]. }
  rewrite Es. destruct (set_vec_state_fields true (Some vec') (s_base s1)) as (F1&F2&F3&F4&_).
  apply vec_only_valid_post; [done|eapply vec_only_trans; [exact Ho1|apply vec_only_base]| |].
  - eapply vec_step_ok, vec_ok_set; [|done]. by eapply vec_only_ok; [|apply (ci_vec _ (wf_cache _ Hw))|].
  - split; [|intros _; exact F3]. intros _. cbn [s_base s_heap on_base]. rewrite F1, F2, F4, Er, N1, U1.
    exists vec', es. split_and!; [done|done|]. unfold vec'. rewrite <- Eoff.
    rewrite N1, <- Hlen in Hv, Ht. apply vec_holds_write; [|done|done].
    rewrite Eoff. destruct Ho1 as ((_&_&->&_)&_). apply Hus.
Qed.

(** ** Going backwards *)

(** The scan has [rest] before it, and its run of characters is [cur]. *)
Record scan_at (s : St) (sr : scan_rev) (rest cur : list byte_or_non) : Prop := {
  sa_len : sr_len sr = zlen rest;
  sa_scan_len : sr_scan_len sr = zlen cur;
  sa_cur : if decide (sr_type sr = NODE_NON) then cur = zrep (sr_scan_len sr) None
    else ∃ p bs, sr_str sr = Some p ∧ load (h_mem (s_heap s)) p (sr_scan_len sr) = Some bs ∧ cur = Some <$> bs;
  sa_node : ∃ i R, sr_num sr = Z.of_nat i + 1 ∧ (i < length (b_nodes (s_base s)))%nat ∧
    zdrop (b_used (s_base s)) (chain_bytes (s_heap s) (take i (b_nodes (s_base s)))) = R ++ rest }.

Lemma scan_at_bytes s sr rest cur :
  scan_at s sr rest cur → sr_type sr ≠ NODE_NON →
  ∃ bs, cur = Some <$> bs ∧ zlen bs = sr_scan_len sr ∧ wp (scan_bytes sr) s (λ r s', r = bs ∧ s' = s).
Proof.
  intros [_ Hl H _] Hn. rewrite decide_False in H by done. destruct H as (p&bs&Hp&Hld&->). exists bs.
  split_and!; [done|by eapply load_length|]. unfold scan_bytes. rewrite Hp. unfold mem_load. wp_steps. by eapply wp_of_option.
Qed.

(** The characters of a string before node [i] *)
Definition before (s : St) (i : nat) : list byte_or_non :=
  zdrop (b_used (s_base s)) (chain_bytes (s_heap s) (take i (b_nodes (s_base s)))).
Definition first_used (s : St) (i : nat) : Z := if decide (i = 0%nat) then b_used (s_base s) else 0.

Lemma used_le_take s i nd :
  wf s → b_nodes (s_base s) !! i = Some nd → i ≠ 0%nat → b_used (s_base s) ≤ sum_len (take i (b_nodes (s_base s))).
Proof.
  intros Hw Hi H0. pose proof (wf_lens _ Hw) as Hp. destruct (b_nodes (s_base s)) as [|x ns] eqn:En; [done|].
  destruct i as [|i]; [done|]. cbn. apply Forall_cons in Hp as [_ Hp].
  pose proof (sum_len_nonneg _ (lens_pos_take _ i Hp)).
  pose proof (wf_used_first s x Hw ltac:(by rewrite En)). lia.
Qed.
Lemma before_S s i nd :
  wf s → b_nodes (s_base s) !! i = Some nd →
  before s (S i) = before s i ++ zdrop (first_used s i) (node_bytes (s_heap s) nd).
Proof.
  intros Hw Hi. unfold before, first_used. rewrite (take_S_r _ _ _ Hi), chain_bytes_app, chain_bytes_cons, chain_bytes_nil, app_nil_r.
  pose proof (hi_nodes _ _ _ (wf_heap _ Hw)) as Hok. case_decide as H0.
  - subst. rewrite take_0, chain_bytes_nil. unfold zdrop. by rewrite drop_nil.
  - rewrite (zdrop_0 0) by lia. rewrite zdrop_app_l; [done|].
    rewrite (chain_bytes_length _ (buf_sz (s_conf s))); [by eapply used_le_take|]. by apply Forall_take.
Qed.
Lemma before_length s i :
  wf s → (i ≤ length (b_nodes (s_base s)))%nat → (i ≠ 0%nat → b_used (s_base s) ≤ sum_len (take i (b_nodes (s_base s)))) →
  zlen (before s i) = Z.max 0 (sum_len (take i (b_nodes (s_base s))) - b_used (s_base s)).
Proof.
  intros Hw Hi Hu. unfold before. rewrite length_zdrop. pose proof (wf_used_nonneg _ Hw).
  rewrite (chain_bytes_length _ (buf_sz (s_conf s))); [lia|]. apply Forall_take. apply (wf_heap _ Hw).
Qed.

Lemma app_suffix {A} (R rest P avail : list A) :
  R ++ rest = P ++ avail → let n := Z.min (zlen avail) (zlen rest) in
  ∃ R' rest', P = R' ++ rest' ∧ rest = rest' ++ zdrop (zlen avail - n) avail ∧ zlen rest' = zlen rest - n.
Proof.
  intros E n. destruct (decide (zlen avail ≤ zlen rest)) as [Hle|Hle].
  - exists R, (ztake (zlen rest - zlen avail) rest). rewrite zdrop_0 by lia.
    rewrite <- (ztake_zdrop (zlen rest - zlen avail) rest) in E at 1. rewrite app_assoc in E.
    apply app_inj_2 in E as [E1 E2].
    + split; [done|]. split; [by rewrite <- (ztake_zdrop (zlen rest - zlen avail) rest) at 1; rewrite E2|]. rewrite length_ztake. lia.
    + apply Nat2Z.inj. rewrite length_zdrop. lia.
  - exists P, []. rewrite app_nil_r. split; [done|]. cbn [length app]. split; [|lia].
    rewrite <- (ztake_zdrop (zlen avail - zlen rest) avail) in E. rewrite app_assoc in E.
    apply app_inj_2 in E as [E1 E2].
    + rewrite E2 at 1. f_equal. lia.
    + apply Nat2Z.inj. rewrite length_zdrop. lia.
Qed.

Lemma vstr__base_scan_rev_nxt_spec s sr rest cur :
  wf s → vec_describes s → iovec_upto_date (s_base s) = true → scan_at s sr rest cur →
  wp (vstr__base_scan_rev_nxt sr) s (λ r s', s' = s ∧
    match r with
    | Some sr' => ∃ rest' cur', rest = rest' ++ cur' ∧ 0 < zlen cur' ∧ scan_at s sr' rest' cur' ∧ sr_num sr' = sr_num sr - 1
    | None => rest = []
    end).
Proof.
  intros Hw Hd Hup [Hl Hsl _ (i&R&Hnum&Hi&HR)]. unfold vstr__base_scan_rev_nxt. case_decide as H0.
  { wp_steps. split; [done|]. destruct rest; [done|cbn in Hl; lia]. }
  destruct (wf_num_le _ Hw) as (_&Hle1&Hle2).
  rewrite Hnum. replace (Z.of_nat i + 1 - 1) with (Z.of_nat i) by lia. rewrite u32_id by (unfold UINT_MAX in *; lia).
  fold (before s i) in HR. case_decide as Hi0.
  { exfalso. assert (i = 0%nat) as -> by lia. unfold before in HR. rewrite take_0, chain_bytes_nil in HR.
    unfold zdrop in HR. rewrite drop_nil in HR. symmetry in HR. apply app_nil in HR as [_ ->]. cbn in Hl. lia. }
  destruct i as [|i]; [lia|]. destruct (lookup_lt_is_Some_2 (b_nodes (s_base s)) i ltac:(lia)) as [nd Hnd].
  rewrite (before_S _ _ _ Hw Hnd) in HR. destruct (Hd Hup) as (vec&es&Ev&Hes&Ho&Hh).
  pose proof (hi_nodes _ _ _ (wf_heap _ Hw)) as Hok. pose proof Hok as Hok'. rewrite Forall_lookup in Hok. specialize (Hok _ _ Hnd).
  destruct (iovec_entries_is_Some _ _ (b_used (s_base s)) _ Hok') as (es'&Hes'&_&Hent).
  rewrite Hes in Hes'. injection Hes' as <-. specialize (Hent i nd Hnd). fold (first_used s i) in Hent.
  pose proof (node_bytes_length _ _ _ Hok) as Hz.
  assert (Hu : 0 ≤ first_used s i < nd_len nd).
  { unfold first_used. pose proof (wf_used_nonneg _ Hw). destruct Hok. case_decide; [|lia]. subst.
    pose proof (wf_used_first s nd Hw Hnd). lia. }
  destruct (es !! i) as [[iov ty]|] eqn:Ei.
  2:{ destruct (iovec_entry_is_Some (s_heap s) _ (first_used s i) nd Hok). congruence. }
  pose proof (Hh _ _ Ei) as Hentry. wp_step. apply wp_gets. wp_step. rewrite Ev.
  replace (Z.of_nat (S i)) with (Z.of_nat i + 1) by lia. eapply wp_of_option; [exact Hentry|]. cbn beta iota.
  unfold iovec_entry in Hent. destruct (vstr_export__node_ptr (h_refs (s_heap s)) nd) as [p|] eqn:Ep; [|done].
  cbn in Hent. injection Hent as Eiov Ety. wp_steps. split; [done|]. rewrite <- Eiov. cbn [iov_len iov_base].
  set (u := first_used s i) in *. set (avail := zdrop u (node_bytes (s_heap s) nd)) in *.
  assert (Hav : zlen avail = nd_len nd - u) by (unfold avail; rewrite length_zdrop; lia).
  destruct (app_suffix _ _ _ _ (eq_sym HR)) as (R'&rest'&EP&Erest&Hlr). rewrite Hav, <- Hl in Erest, Hlr.
  set (n := Z.min (nd_len nd - u) (sr_len sr)) in *.
  assert (Hln : zlen (zdrop (nd_len nd - u - n) avail) = n) by (rewrite length_zdrop; lia).
  eexists rest', _. split_and!; [exact Erest|lia| |cbn; lia].
  split; cbn [sr_len sr_scan_len sr_type sr_str sr_num]; [by rewrite Hlr|done| |].
  - pose proof (node_chunk s _ nd (u + (nd_len nd - u - n)) n Hok ltac:(lia) ltac:(lia) ltac:(lia)) as Hck.
    unfold node_ptr in Hck. unfold wp, mbind, M_bind, get_heap, gets, of_option in Hck. rewrite Ep in Hck.
    destruct Hck as [_ Hck]. rewrite <- zdrop_zdrop in Hck by lia. fold avail in Hck.
    rewrite ztake_all in Hck by lia. rewrite <- Ety. case_decide; [tauto|].
    destruct Hck as (q&bs&->&Hld&Hb). exists (ptr_add (ptr_add q u) (nd_len nd - u - n)), bs. split; [done|].
    by rewrite ptr_add_add.
  - exists i, R'. split_and!; [lia|lia|exact EP].
Qed.

Lemma content_before s i nd off pos :
  wf s → b_nodes (s_base s) !! i = Some nd → 0 ≤ off ≤ nd_len nd → first_used s i ≤ off →
  sum_len (take i (b_nodes (s_base s))) + off = pos + b_used (s_base s) →
  ztake pos (st_content s) = before s i ++ ztake (off - first_used s i) (zdrop (first_used s i) (node_bytes (s_heap s) nd)) ∧
  zlen (before s i) = pos - (off - first_used s i).
Proof.
  intros Hw Hi Hoff Hu Hsum. pose proof (hi_nodes _ _ _ (wf_heap _ Hw)) as Hok. pose proof (wf_used_nonneg _ Hw).
  assert (Hb : zlen (before s i) = pos - (off - first_used s i)).
  { unfold first_used in *. case_decide as H0.
    - subst. unfold before. rewrite take_0, chain_bytes_nil in *. unfold zdrop. rewrite drop_nil. cbn in *. lia.
    - rewrite before_length; [|done|apply lookup_lt_Some in Hi; lia|intros _; by eapply used_le_take].
      pose proof (used_le_take _ _ _ Hw Hi H0). lia. }
  split; [|done]. pose proof (before_S _ _ _ Hw Hi) as HS.
  assert (Hpre : st_content s = before s (S i) ++ chain_bytes (s_heap s) (drop (S i) (b_nodes (s_base s)))).
  { unfold st_content, content, before. rewrite <- zdrop_app_l.
    - by rewrite <- chain_bytes_app, take_drop.
    - rewrite (chain_bytes_length _ (buf_sz (s_conf s))) by by apply Forall_take.
      rewrite (sum_len_take_S _ _ _ Hi). pose proof (proj1 (Forall_lookup_1 _ _ _ _ Hok Hi)).
      destruct (decide (i = 0%nat)) as [->|H1]; [|pose proof (used_le_take _ _ _ Hw Hi H1); lia].
      rewrite take_0. cbn. pose proof (wf_used_first s nd Hw Hi). lia. }
  pose proof (node_bytes_length _ _ _ (Forall_lookup_1 _ _ _ _ Hok Hi)) as Hz.
  assert (Hfu : 0 ≤ first_used s i) by (unfold first_used; case_decide; lia).
  rewrite Hpre, HS, <- app_assoc, ztake_app_r by lia. f_equal. rewrite ztake_app_l by (rewrite length_zdrop; lia).
  f_equal. lia.
Qed.

Lemma only_pos_vec s s' : only_pos s s' → vec_describes s → vec_describes s'.
Proof. intros [[p ->] _]. unfold vec_describes. by destruct s as [h c [? ? ? ? ? ? ? ? ? ? ? ? []]]. Qed.

Lemma vstr__base_scan_rev_beg_spec s pos len :
  wf s → pos_num_ok (s_base s) → in_range s pos len →
  wp (vstr__base_scan_rev_beg pos len) s (λ r s', only_pos s s' ∧ wf s' ∧ pos_num_ok (s_base s') ∧
    ∃ sr rest cur, r = Some sr ∧ substr pos len (st_content s) = rest ++ cur ∧ 0 < zlen cur ∧ scan_at s' sr rest cur).
Proof.
  intros Hw Hpn (Hp&Hl&Hle). pose proof (wf_len_max _ Hw) as Hmax. unfold vstr__base_scan_rev_beg. wp_step. apply wp_gets.
  rewrite decide_False by lia. rewrite u64_id by lia. rewrite bool_decide_eq_true_2 by lia. cbn [negb].
  wp_step. wp_apply vstr_base__pos_full; [done|lia|]. intros [[k1 off1] num1] s1 ((Hat1&Hpc&Hw1)&_&Hn1).
  destruct (Hn1 Hpn) as [_ Hpn1]. assert (HO : only_pos s s1) by done.
  destruct (only_pos_same _ _ HO) as (Eh&Ec&En&Eu&El&_&_&_&Ect). cbn beta iota. wp_step.
  wp_apply vstr_base__pos_full; [done|rewrite El; lia|]. intros [[k2 off2] num2] s2 ((Hat2&_&_)&Hs2&Hn2).
  specialize (Hs2 eq_refl). subst s2. destruct (Hn2 Hpn1) as [Hnum _]. rewrite En, Eu in Hat2.
  destruct Hat1 as (nd1&Hi1&Hoff1&Hsum1). destruct Hat2 as (nd2&Hi2&Hoff2&Hsum2). cbn beta iota.
  unfold node_at. wp_steps. rewrite En. eapply wp_of_option; [exact Hi2|]. cbn beta. wp_step.
  pose proof (hi_nodes _ _ _ (wf_heap _ Hw1)) as Hok. rewrite En in Hok. pose proof (Forall_lookup_1 _ _ _ _ Hok Hi2) as Hnd2.
  pose proof (node_bytes_length _ _ _ Hnd2) as Hz2. pose proof (wf_used_nonneg _ Hw) as Hu0.
  pose proof (wf_lens _ Hw) as Hlens.
  assert (Hfu2 : first_used s k2 < off2).
  { unfold first_used. case_decide; [|lia]. subst. rewrite take_0 in Hsum2. cbn in Hsum2. lia. }
  assert (Hfu1 : first_used s k1 < off1).
  { unfold first_used. case_decide; [|lia]. subst. rewrite take_0 in Hsum1. cbn in Hsum1. lia. }
  destruct (content_before s k2 nd2 off2 (pos + len - 1) Hw Hi2 ltac:(lia) ltac:(lia) ltac:(lia)) as [Hcb Hlb].
  assert (Hfu0 : 0 ≤ first_used s k2) by (unfold first_used; case_decide; lia).
  assert (Hsub : substr pos len (st_content s) = zdrop (pos - 1) (before s k2) ++
    zdrop (pos - 1 - zlen (before s k2)) (ztake (off2 - first_used s k2) (zdrop (first_used s k2) (node_bytes (s_heap s) nd2)))).
  { rewrite <- zdrop_app, <- Hcb. unfold substr. rewrite zdrop_ztake by lia. f_equal. lia. }
  rewrite Eh in Hz2, Hnd2.
  assert (Hi2lt : (k2 < length (b_nodes (s_base s)))%nat) by by eapply lookup_lt_Some.
  assert (Hbef : before s1 k2 = before s k2) by (unfold before; by rewrite Eu, En, Eh).
  destruct (decide (k1 = k2)) as [<-|Hne].
  - rewrite Hi1 in Hi2. injection Hi2 as <-.
    set (cur := ztake len (zdrop (off1 - 1) (node_bytes (s_heap s) nd1))) in *.
    assert (Hcur : substr pos len (st_content s) = cur).
    { rewrite Hsub, (zdrop_all (pos - 1)) by lia. cbn [app]. rewrite zdrop_ztake, zdrop_zdrop by lia.
      unfold cur. f_equal; [lia|]. f_equal. lia. }
    assert (Hcl : zlen cur = len) by (unfold cur; rewrite length_ztake, length_zdrop; lia).
    rewrite <- Eh in Hnd2. wp_apply (node_chunk s1 _ nd1 (off1 - 1) len Hnd2); [lia|lia|lia|].
    intros p s2 [-> Hck]. rewrite Eh in Hck. fold cur in Hck. rewrite decide_False by (intros []; done). wp_steps.
    split_and!; try done. eexists _, [], cur. split_and!; [done|exact Hcur|lia|].
    split; cbn [sr_len sr_scan_len sr_type sr_str sr_num]; [done|done| |].
    + rewrite Eh. case_decide; [tauto|]. destruct Hck as (q&bs&->&?&?). by eexists _, bs.
    + exists k1, (before s k1). rewrite app_nil_r, En. split_and!; [done|done|]. rewrite <- Hbef. unfold before. by rewrite En.
  - assert (Hlt : (k1 < k2)%nat).
    { destruct (decide (k2 < k1)%nat) as [Hlt|]; [|lia]. pose proof (sum_len_take_lt _ _ _ _ Hlens Hi2 Hlt). lia. }
    pose proof (sum_len_take_lt _ _ _ _ Hlens Hi1 Hlt) as Hst.
    assert (Hfz : first_used s k2 = 0) by (unfold first_used; rewrite decide_False by lia; done). rewrite Hfz in *.
    rewrite Z.sub_0_r in Hlb, Hsub. rewrite (zdrop_0 0), (zdrop_0 (pos - 1 - _)) in Hsub by lia.
    set (cur := ztake off2 (node_bytes (s_heap s) nd2)) in *.
    assert (Hcl : zlen cur = off2) by (unfold cur; rewrite length_ztake; lia).
    rewrite <- Eh in Hnd2. wp_apply (node_chunk s1 _ nd2 0 off2 Hnd2); [lia|lia|lia|].
    intros p s2 [-> Hck]. rewrite Eh, (zdrop_0 0) in Hck by lia. fold cur in Hck. rewrite decide_True by done. wp_steps.
    split_and!; try done. eexists _, _, cur. split_and!; [done|exact Hsub|lia|].
    split; cbn [sr_len sr_scan_len sr_type sr_str sr_num]; [rewrite length_zdrop, u64_id; lia|done| |].
    + rewrite Eh. case_decide; [tauto|]. destruct Hck as (q&bs&->&?&?). by eexists _, bs.
    + exists k2, (ztake (pos - 1) (before s k2)). rewrite En, ztake_zdrop. split_and!; [done|done|].
      rewrite <- Hbef. unfold before. by rewrite En.
Qed.

Section scan_rule.
Context {A R : Type} (body : scan_rev → A → M (loop_next A R)).
Context (s : St) (I : A → list byte_or_non → Prop) (Q : loop_next A R → Prop).
Hypothesis Hw : wf s.
Hypothesis Hd : vec_describes s.
Hypothesis Hup : iovec_upto_date (s_base s) = true.
Hypothesis Hbody : ∀ sr a rest cur, scan_at s sr rest cur → 0 < zlen cur → I a (rest ++ cur) →
  wp (body sr a) s (λ r s', s' = s ∧ match r with Return _ => Q r | Next a' => I a' rest end).
Hypothesis Hend : ∀ a, I a [] → Q (Next a).

Lemma scan_loop_spec fuel : ∀ sr a rest cur,
  scan_at s sr rest cur → 0 < zlen cur → I a (rest ++ cur) → sr_num sr ≤ Z.of_nat fuel →
  wp (scan_loop body fuel sr a) s (λ r s', s' = s ∧ Q r).
Proof.
  induction fuel as [|fuel IH]; intros sr a rest cur Hsr Hc HI Hf.
  { destruct (sa_node _ _ _ _ Hsr) as (i&?&?&_). lia. }
  cbn [scan_loop]. wp_step. wp_apply Hbody; [exact Hsr|exact Hc|exact HI|].
  intros r s1 [-> Hr]. destruct r as [a'|x]; [|by wp_steps]. wp_step.
  wp_apply vstr__base_scan_rev_nxt_spec; [done..|exact Hsr|]. intros r s2 [-> Hm]. destruct r as [sr'|].
  - destruct Hm as (rest'&cur'&->&Hc'&Hsr'&Hn). eapply IH; [exact Hsr'|exact Hc'|exact Hr|lia].
  - wp_steps. subst. auto.
Qed.
End scan_rule.

(** A function that is a loop backwards over the range *)
Lemma scan_function_spec {A R B} (body : scan_rev → A → M (loop_next A R)) (fin : loop_next A R → B) a0 none s pos len
    (I : A → list byte_or_non → Prop) (Q : B → Prop) :
  wf s → vec_describes s → iovec_upto_date (s_base s) = true → pos_num_ok (s_base s) → in_range s pos len →
  (∀ s', only_pos s s' → wf s' → ∀ sr a rest cur, scan_at s' sr rest cur → 0 < zlen cur → I a (rest ++ cur) →
    wp (body sr a) s' (λ r s2, s2 = s' ∧ match r with Return _ => Q (fin r) | Next a' => I a' rest end)) →
  (∀ a, I a [] → Q (fin (Next a))) → I a0 (substr pos len (st_content s)) →
  wp (scan ← vstr__base_scan_rev_beg pos len;
      match scan with
      | None => mret none
      | Some sr => r ← scan_do_while body sr a0; mret (fin r)
      end) s (λ r s', Q r ∧ only_pos s s' ∧ wf s').
Proof.
  intros Hw Hd Hup Hpn Hr Hbody Hend HI. wp_step. wp_apply vstr__base_scan_rev_beg_spec; [done..|].
  intros r s1 (HO&Hw1&_&sr&rest&cur&->&Hsub&Hc&Hsr). pose proof (only_pos_same _ _ HO) as (Eh&_&_&_&_&_&_&Eup&_). wp_step.
  unfold scan_do_while. wp_apply (scan_loop_spec body s1 I (λ r, Q (fin r))); [done|by eapply only_pos_vec|congruence|
    by apply Hbody|exact Hend|exact Hsr|exact Hc|by rewrite <- Hsub|destruct (sa_node _ _ _ _ Hsr) as (?&?&?&_); lia|].
  intros r s2 [-> HQ]. by wp_steps.
Qed.

End others.
