(* ===== verification/SpnSpec.v ===== *)
(** * The span functions count what their names say: the longest run of
    characters of a set at the start, or at the end, of a range. *)
From Stdlib Require Import ZArith Lia ZifyBool.
From stdpp Require Import base tactics list numbers option gmap.
From S2P Require Import Prelude State Wp Ref Cache Core Iter Spn Inv PosLemmas SpareLemmas SplitLemmas CacheLemmas AddLemmas StringLemmas IterLemmas.

Section others.
Context {OT : Others}.

(** ** Runs at the start of a list *)
Section count_while.
Context {A : Type}.
Implicit Types (p : A → bool) (l k : list A).

Lemma count_while_bound p l : 0 ≤ count_while p l ≤ zlen l.
Proof. induction l as [|x l IH]; cbn; [lia|]. destruct (p x); lia. Qed.
Lemma count_while_app p l k :
  count_while p (l ++ k) = if decide (count_while p l < zlen l) then count_while p l
                           else zlen l + count_while p k.
Proof.
  induction l as [|x l IH]; cbn; [done|]. pose proof (count_while_bound p l).
  destruct (p x); [|by rewrite decide_True by lia]. rewrite IH. repeat case_decide; lia.
Qed.
Lemma count_while_fmap {B} (f : B → A) p (l : list B) : count_while p (f <$> l) = count_while (p ∘ f) l.
Proof. induction l as [|x l IH]; cbn; [done|]. by rewrite IH. Qed.
Lemma count_while_zrep p n x : 0 ≤ n → count_while p (zrep n x) = if p x then n else 0.
Proof.
  intros Hn. rewrite <- (Z2Nat.id n) at 2 by done. unfold zrep. induction (Z.to_nat n) as [|k IH]; [by destruct (p x)|].
  cbn [replicate count_while]. destruct (p x); lia.
Qed.
Lemma count_while_ext p q l : (∀ x, x ∈ l → p x = q x) → count_while p l = count_while q l.
Proof.
  induction l as [|x l IH]; cbn; [done|]. intros H. rewrite (H x) by (by left). rewrite IH; [done|].
  intros y Hy. apply H. by right.
Qed.
(** It is the longest prefix of characters with [p]. *)
Lemma count_while_prefix p l : Forall (λ x, p x = true) (ztake (count_while p l) l).
Proof.
  induction l as [|x l IH]; cbn; [unfold ztake; rewrite take_nil; by constructor|].
  destruct (p x) eqn:Ex; [|rewrite ztake_0 by lia; by constructor].
  pose proof (count_while_bound p l). unfold ztake in *.
  replace (Z.to_nat (1 + count_while p l)) with (S (Z.to_nat (count_while p l))) by lia. by constructor.
Qed.
Lemma count_while_stops p l x : l !! Z.to_nat (count_while p l) = Some x → p x = false.
Proof.
  induction l as [|y l IH]; cbn; [done|]. destruct (p y) eqn:Ey; [|by intros [= <-]].
  pose proof (count_while_bound p l).
  replace (Z.to_nat (1 + count_while p l)) with (S (Z.to_nat (count_while p l))) by lia. done.
Qed.
End count_while.

(** The characters of a span: NON data or not, and which bytes *)
Definition span_chr (non : bool) (p : Z → bool) (x : byte_or_non) : bool :=
  match x with None => non | Some c => p c end.

Lemma span_chr_bytes non p bs : count_while (span_chr non p) (Some <$> bs) = count_while p bs.
Proof. rewrite count_while_fmap. by apply count_while_ext. Qed.
Lemma span_chr_bytes_rev non p bs :
  count_while (span_chr non p) (reverse (Some <$> bs)) = count_while p (reverse bs).
Proof. by rewrite <- fmap_reverse, span_chr_bytes. Qed.

(** ** Forward *)
Section fwd.
Context (non : bool) (p : Z → bool).
Local Abbreviation P := (span_chr non p).

Lemma spn_fwd_body_spec s it ret cur rest total :
  iter_at (s_heap s) it cur rest → 0 < zlen cur → 0 ≤ ret → ret + zlen (cur ++ rest) ≤ SIZE_MAX →
  ret + count_while P (cur ++ rest) = total →
  wp (spn_fwd_body non p it ret) s (λ r s', s' = s ∧
    match r with
    | Return x => x = total
    | Next ret' => 0 ≤ ret' ∧ ret' + zlen rest ≤ SIZE_MAX ∧ ret' + count_while P rest = total
    end).
Proof.
  intros Hit Hcur H0 Hmax Ht. rewrite length_app in Hmax. rewrite count_while_app in Ht.
  pose proof (ia_len _ _ _ _ Hit) as Hl. unfold spn_fwd_body. destruct (iter_non it) eqn:En.
  - pose proof (iter_at_non _ _ _ _ Hit En) as Hc. rewrite Hc, count_while_zrep, length_zrep in Ht by lia. cbn in Ht.
    destruct non; wp_steps; (split; [done|]); cbn.
    + rewrite decide_False in Ht by lia. rewrite u64_id by lia. lia.
    + case_decide; lia.
  - destruct (iter_at_bytes _ _ _ _ Hit En) as (bs&->&Hb&Hwp). rewrite span_chr_bytes, length_fmap in Ht.
    rewrite length_fmap in *. wp_step. wp_apply Hwp. intros r s1 [-> ->]. wp_steps. split; [done|].
    pose proof (count_while_bound p bs). rewrite Hl. case_decide; rewrite u64_id by lia; lia.
Qed.

Lemma spn_fwd_loop_spec s pos len :
  wf s → in_range s pos len →
  wp (spn_fwd_loop non p pos len) s (λ r s',
    r = count_while P (substr pos len (st_content s)) ∧ only_pos s s' ∧ wf s').
Proof.
  intros Hw Hr. pose proof (substr_length _ _ _ Hw Hr) as Hl. pose proof (wf_len_max _ Hw).
  set (total := count_while P (substr pos len (st_content s))).
  apply (iter_function_spec (spn_fwd_body non p) loop_value 0 0 s pos len
    (λ ret l, 0 ≤ ret ∧ ret + zlen l ≤ SIZE_MAX ∧ ret + count_while P l = total) (λ r, r = total)); [done|done| | |].
  - intros s' _ it ret cur rest Hit Hc (H1&H2&H3). wp_apply spn_fwd_body_spec; [exact Hit|done..|].
    by intros [a|x] s2 [-> ?].
  - cbn. lia.
  - destruct Hr as (?&?&?). lia.
Qed.
End fwd.

(** ** Backward, the slow way *)
Section rev.
Context (non : bool) (p : Z → bool).
Local Abbreviation P := (span_chr non p).

Lemma spn_rev_body_spec s it pre cur rest :
  iter_at (s_heap s) it cur rest → 0 < zlen cur → zlen (pre ++ cur) ≤ SIZE_MAX →
  wp (spn_rev_body non p it (count_while P (reverse pre))) s (λ r s', s' = s ∧
    match r with Return _ => False | Next ret' => ret' = count_while P (reverse (pre ++ cur)) end).
Proof.
  intros Hit Hcur Hmax. rewrite length_app in Hmax. rewrite reverse_app, count_while_app, length_reverse.
  pose proof (ia_len _ _ _ _ Hit) as Hl. pose proof (count_while_bound P (reverse pre)) as Hb.
  rewrite length_reverse in Hb. unfold spn_rev_body. destruct (iter_non it) eqn:En.
  - pose proof (iter_at_non _ _ _ _ Hit En) as Hc. wp_steps. split; [done|].
    replace (reverse cur) with cur by (rewrite Hc; unfold zrep; by rewrite reverse_replicate).
    rewrite Hc, count_while_zrep, length_zrep by lia. cbn. destruct non.
    + rewrite decide_False by lia. rewrite u64_id by lia. lia.
    + by rewrite decide_True by lia.
  - destruct (iter_at_bytes _ _ _ _ Hit En) as (bs&->&Hbs&Hwp). rewrite length_fmap, span_chr_bytes_rev in *.
    wp_step. wp_apply Hwp. intros r s1 [-> ->]. wp_steps. split; [done|]. rewrite Hl.
    pose proof (count_while_bound p (reverse bs)). rewrite length_reverse in *.
    case_decide; [done|]. rewrite u64_id by lia. lia.
Qed.

Lemma spn_rev_loop_spec s pos len :
  wf s → in_range s pos len →
  wp (spn_rev_loop non p pos len) s (λ r s',
    r = count_while P (reverse (substr pos len (st_content s))) ∧ only_pos s s' ∧ wf s').
Proof.
  intros Hw Hr. pose proof (substr_length _ _ _ Hw Hr) as Hl. pose proof (wf_len_max _ Hw).
  set (whole := substr pos len (st_content s)) in *.
  apply (iter_function_spec (spn_rev_body non p) loop_value 0 0 s pos len
    (λ ret l, ∃ pre, whole = pre ++ l ∧ ret = count_while P (reverse pre))
    (λ r, r = count_while P (reverse whole))); [done|done| | |].
  - intros s' _ it ret cur rest Hit Hc (pre&Hpre&->). wp_apply spn_rev_body_spec; [exact Hit|exact Hc| |].
    + destruct Hr as (?&?&?). rewrite Hpre, !length_app in Hl. rewrite length_app. lia.
    + intros [a|x] s2 [-> Ha]; [|done]. split; [done|]. exists (pre ++ cur). by rewrite <- app_assoc.
  - intros a (pre&->&->). by rewrite app_nil_r.
  - exists []. done.
Qed.
End rev.

(** ** Positions of characters *)

(** The position of the first, and of the last, character with [p] in a range
    that starts at [pos]; 0 when there is none *)
Definition first_pos {A} (p : A → bool) (pos : Z) (l : list A) : Z :=
  let n := count_while (negb ∘ p) l in if decide (n < zlen l) then pos + n else 0.
Definition last_pos {A} (p : A → bool) (pos : Z) (l : list A) : Z :=
  let n := count_while (negb ∘ p) (reverse l) in if decide (n < zlen l) then pos + (zlen l - n - 1) else 0.

Definition is_chr (c : Z) (x : byte_or_non) : bool :=
  match x with Some d => bool_decide (d = c) | None => false end.

Lemma not_chr_span c l : count_while (negb ∘ is_chr c) l = count_while (span_chr true (λ x, bool_decide (x ≠ c))) l.
Proof.
  apply count_while_ext. intros [x|] _; cbn; [|done]. repeat case_bool_decide; naive_solver.
Qed.

(** The iterator knows where it is. *)
Lemma iter_at_len h it cur rest :
  iter_at h it cur rest → zlen (cur ++ rest) ≤ SIZE_MAX → vstr_iter_len it = zlen (cur ++ rest).
Proof.
  intros Hit Hmax. unfold vstr_iter_len. rewrite (ia_len _ _ _ _ Hit), (ia_remaining _ _ _ _ Hit).
  rewrite length_app in *. rewrite u64_id; lia.
Qed.
Lemma iter_at_pos h it cur rest pos len pre :
  iter_at h it cur rest → len = zlen (pre ++ cur ++ rest) → 1 ≤ pos → pos + len ≤ SIZE_MAX →
  vstr_iter_pos it pos len = pos + zlen pre.
Proof.
  intros Hit -> Hp Hmax. unfold vstr_iter_pos. rewrite length_app, Nat2Z.inj_add in *.
  rewrite (iter_at_len _ _ _ _ Hit) by lia. rewrite (u64_id (_ - _)) by lia. rewrite u64_id by lia. lia.
Qed.

(** The end of the range can be computed. *)
Definition range_fits (pos len : Z) : Prop := pos + len ≤ SIZE_MAX.

(** The loop for the first character with a test, [skip] its opposite on bytes *)
Definition srch_fwd_body (skip : Z → bool) (pos len : Z) (it : Vstr_iter) (_ : ()) : M (loop_next () Z) :=
  if iter_non it then mret (Next tt)
  else
    bs ← iter_bytes it;
    let found := count_while skip bs in
    mret (if decide (found < it_len it) then Return (u64 (vstr_iter_pos it pos len + found)) else Next tt).

Lemma srch_fwd_loop_spec skip P s pos len :
  (∀ x, negb (P x) = span_chr true skip x) →
  wf s → in_range s pos len → range_fits pos len →
  wp (iter ← vstr_iter_fwd_beg pos len;
      match iter with
      | None => mret 0
      | Some it => r ← iter_do_while (srch_fwd_body skip pos len) it tt;
                   mret (match r with Return p => p | Next _ => 0 end)
      end) s (λ r s',
    r = first_pos (P) pos (substr pos len (st_content s)) ∧ only_pos s s' ∧ wf s').
Proof.
  intros HP Hw Hr Hfit. pose proof (substr_length _ _ _ Hw Hr) as Hl. unfold range_fits in Hfit.
  set (whole := substr pos len (st_content s)) in *. destruct Hr as (Hp&Hr).
  eapply (iter_function_spec _ (λ r, match r with Return p => p | Next _ => 0 end) tt 0 s pos len
    (λ _ l, ∃ pre, whole = pre ++ l ∧ count_while (negb ∘ P) whole = zlen pre + count_while (negb ∘ P) l)
    (λ r, r = first_pos (P) pos whole)); [done|done| | |].
  - intros s' _ it [] cur rest Hit Hc (pre&Hpre&Hcount). unfold srch_fwd_body.
    pose proof (ia_len _ _ _ _ Hit) as Hil. rewrite count_while_app in Hcount.
    assert (Hgo : zlen cur ≤ count_while (negb ∘ P) cur →
      ∃ pre, whole = pre ++ rest ∧ count_while (negb ∘ P) whole = zlen pre + count_while (negb ∘ P) rest).
    { intros Hle. exists (pre ++ cur). rewrite <- app_assoc. split; [done|]. rewrite decide_False in Hcount by lia.
      rewrite length_app. lia. }
    destruct (iter_non it) eqn:En.
    + wp_steps. split; [done|]. apply Hgo. rewrite (iter_at_non _ _ _ _ Hit En), count_while_zrep by lia.
      rewrite length_zrep. cbn. rewrite HP. cbn. lia.
    + destruct (iter_at_bytes _ _ _ _ Hit En) as (bs&->&Hb&Hwp). wp_step. wp_apply Hwp. intros r s1 [-> ->]. wp_steps.
      split; [done|]. assert (Hns : count_while (negb ∘ P) (Some <$> bs) = count_while skip bs).
      { rewrite <- (span_chr_bytes true). apply count_while_ext. intros x _. apply HP. }
      rewrite Hns in Hcount, Hgo. rewrite length_fmap in *.
      rewrite Hil. destruct (decide (count_while skip bs < zlen bs)) as [Hd|Hd]; [|apply Hgo; lia].
      rewrite (iter_at_pos _ _ _ _ pos len pre Hit); [|by rewrite <- Hpre|done|done].
      unfold first_pos. pose proof (count_while_bound skip bs).
      assert (Hlen : zlen whole = zlen pre + zlen bs + zlen rest).
      { rewrite Hpre, !length_app, length_fmap. lia. }
      rewrite Hcount, decide_True by lia. rewrite u64_id by lia. lia.
  - intros [] (pre&Hpre&Hcount). unfold first_pos. rewrite Hcount, Hpre, app_nil_r. cbn. by rewrite decide_False by lia.
  - exists []. done.
Qed.

Lemma vstr_srch_chr_fwd_spec s pos len c :
  wf s → in_range s pos len → range_fits pos len →
  wp (vstr_srch_chr_fwd pos len c) s (λ r s',
    r = first_pos (is_chr c) pos (substr pos len (st_content s)) ∧ only_pos s s' ∧ wf s').
Proof.
  apply (srch_fwd_loop_spec (λ x, bool_decide (x ≠ c))). intros [x|]; cbn; [|done]. repeat case_bool_decide; naive_solver.
Qed.

(** ** The last occurrence, by repeated searches *)
Section last_pos.
Context {A : Type} (p : A → bool).

Lemma count_while_all l : count_while p l = zlen l ↔ Forall (λ x, p x = true) l.
Proof.
  induction l as [|x l IH]; cbn; [split; by auto|]. pose proof (count_while_bound p l).
  rewrite Forall_cons, <- IH. destruct (p x); split; intuition (congruence || lia).
Qed.
End last_pos.

Lemma last_pos_none {A} (p : A → bool) pos pre suf :
  count_while (negb ∘ p) suf = zlen suf → 1 ≤ pos → last_pos p pos (pre ++ suf) = last_pos p pos pre.
Proof.
  intros Hall%count_while_all Hp. unfold last_pos. rewrite reverse_app, count_while_app, length_reverse, length_app.
  assert (Hr : count_while (negb ∘ p) (reverse suf) = zlen suf).
  { rewrite <- (length_reverse suf). apply count_while_all. by apply Forall_reverse. }
  rewrite Hr, (decide_False (P := zlen suf < zlen suf)) by lia.
  pose proof (count_while_bound (negb ∘ p) (reverse pre)). rewrite length_reverse in *.
  repeat case_decide; lia.
Qed.
Lemma last_pos_snoc {A} (p : A → bool) pos pre x :
  p x = true → last_pos p pos (pre ++ [x]) = pos + zlen pre.
Proof.
  intros Hx. unfold last_pos. rewrite reverse_snoc. cbn. rewrite Hx. cbn.
  rewrite length_app. cbn. rewrite decide_True by lia. lia.
Qed.
Lemma first_pos_found {A} (p : A → bool) pos suf :
  1 ≤ pos → first_pos p pos suf ≠ 0 →
  let n := first_pos p pos suf - pos in
  0 ≤ n < zlen suf ∧ ∃ x, suf = ztake n suf ++ x :: zdrop (n + 1) suf ∧ p x = true ∧
    count_while (negb ∘ p) (ztake n suf) = zlen (ztake n suf).
Proof.
  intros Hp. unfold first_pos. case_decide as Hd; [|done]. intros _.
  pose proof (count_while_bound (negb ∘ p) suf) as Hb. pose proof (count_while_prefix (negb ∘ p) suf) as Hf.
  pose proof (count_while_stops (negb ∘ p) suf) as Hs. set (c := count_while (negb ∘ p) suf) in *.
  replace (pos + c - pos) with c by lia. split; [lia|].
  destruct (suf !! Z.to_nat c) as [x|] eqn:Ex; [|apply lookup_ge_None in Ex; lia]. exists x. split_and!.
  - unfold ztake, zdrop. replace (Z.to_nat (c + 1)) with (S (Z.to_nat c)) by lia. by apply list_split_at.
  - specialize (Hs x eq_refl). cbn in Hs. by apply negb_false_iff.
  - by apply count_while_all.
Qed.

Lemma substr_suffix pos len pre suf l :
  substr pos len l = pre ++ suf → 1 ≤ pos → zlen suf = len - zlen pre → substr (pos + zlen pre) (zlen suf) l = suf.
Proof.
  unfold substr. intros H Hp Hl. replace (pos + zlen pre - 1) with (pos - 1 + zlen pre) by lia.
  rewrite <- zdrop_zdrop by lia. rewrite Hl. rewrite <- zdrop_ztake by lia. rewrite H. apply zdrop_app_len.
Qed.

Lemma srch_chr_rev_loop_spec pos len c s0 (whole := substr pos len (st_content s0)) fuel : ∀ s pre suf,
  wf s → only_pos s0 s → in_range s0 pos len → range_fits pos len → zlen whole = len →
  whole = pre ++ suf → zlen suf ≤ Z.of_nat fuel →
  wp (srch_chr_rev_loop fuel pos len c (last_pos (is_chr c) pos pre) (pos + zlen pre) (zlen suf)) s
    (λ r s', r = last_pos (is_chr c) pos whole ∧ only_pos s0 s' ∧ wf s').
Proof.
  induction fuel as [|fuel IH]; intros s pre suf Hw HO Hr Hfit Hlen Hsplit Hf; cbn [srch_chr_rev_loop].
  all: assert (Hs0 : suf = [] → last_pos (is_chr c) pos pre = last_pos (is_chr c) pos whole)
    by (intros ->; by rewrite Hsplit, app_nil_r).
  all: case_decide as H0; [wp_steps; split_and!; [apply Hs0; destruct suf; [done|cbn in H0; lia]|done|done]|].
  { lia. }
  pose proof Hr as (Hp&Hl&Hle). pose proof Hlen as Hlen'. rewrite Hsplit, length_app in Hlen'.
  destruct (only_pos_same _ _ HO) as (_&_&_&_&El&_&_&_&Ec). unfold range_fits in Hfit.
  assert (Hsub : substr (pos + zlen pre) (zlen suf) (st_content s) = suf).
  { rewrite Ec. apply (substr_suffix pos len pre suf); [done|lia|lia]. }
  wp_step. wp_apply vstr_srch_chr_fwd_spec; [done|unfold in_range; rewrite El; lia|unfold range_fits; lia|].
  intros tmp s1 (Ht&HO1&Hw1). rewrite Hsub in Ht. case_decide as Hz.
  - wp_steps. split_and!; [|by eapply only_pos_trans|done]. rewrite Hsplit. symmetry. apply last_pos_none; [|done].
    unfold first_pos in Ht. pose proof (count_while_bound (negb ∘ is_chr c) suf). case_decide; lia.
  - rewrite Ht in Hz. destruct (first_pos_found (is_chr c) (pos + zlen pre) suf ltac:(lia) Hz) as (Hn&x&Es&Hx&Hall).
    set (n := first_pos (is_chr c) (pos + zlen pre) suf - (pos + zlen pre)) in *.
    assert (Etmp : tmp = pos + zlen pre + n) by (unfold n; lia).
    assert (Hln : zlen (ztake n suf) = n) by (rewrite length_ztake; lia).
    set (pre' := (pre ++ ztake n suf) ++ [x]). set (suf' := zdrop (n + 1) suf).
    assert (Hls : zlen suf' = zlen suf - n - 1) by (unfold suf'; rewrite length_zdrop; lia).
    assert (Hlp : zlen pre' = zlen pre + n + 1) by (unfold pre'; rewrite !length_app; cbn [length]; lia).
    replace tmp with (last_pos (is_chr c) pos pre') at 1.
    2:{ unfold pre'. rewrite last_pos_snoc by done. rewrite length_app. lia. }
    replace (u64 (tmp + 1)) with (pos + zlen pre') by (rewrite u64_id; lia).
    replace (u64 (len - vstr_sc_posdiff pos tmp)) with (zlen suf').
    2:{ unfold vstr_sc_posdiff. rewrite (u64_id (tmp - pos)), (u64_id (_ + 1)), u64_id by lia. lia. }
    apply IH; try done; [by eapply only_pos_trans| |lia].
    rewrite Hsplit. unfold pre', suf'. rewrite <- !app_assoc. cbn. by rewrite <- Es.
Qed.

Lemma vstr__srch_chr_rev_slow_spec s pos len c :
  wf s → in_range s pos len → range_fits pos len →
  wp (vstr__srch_chr_rev_slow pos len c) s (λ r s',
    r = last_pos (is_chr c) pos (substr pos len (st_content s)) ∧ only_pos s s' ∧ wf s').
Proof.
  intros Hw Hr Hfit. pose proof (substr_length _ _ _ Hw Hr) as Hl. pose proof Hr as (?&?&?).
  unfold vstr__srch_chr_rev_slow.
  pose proof (srch_chr_rev_loop_spec pos len c s (Z.to_nat len) s [] (substr pos len (st_content s)) Hw
    (only_pos_refl s) Hr Hfit Hl eq_refl ltac:(lia)) as H'.
  rewrite Hl, Z.add_0_r in H'. exact H'.
Qed.

End others.
