(* ===== verification/SpnTheorems.v ===== *)
(** * The contracts of the span functions and of the search for a character,
    on both ways of going backwards. *)
From Stdlib Require Import ZArith Lia ZifyBool.
From stdpp Require Import base tactics list numbers option gmap.
From S2P Require Import Prelude State Wp Ref Cache Core Base Iter Spn Inv PosLemmas SpareLemmas SplitLemmas CacheLemmas AddLemmas StringLemmas IterLemmas IovecSpec SpnSpec.

Section others.
Context {OT : Others}.

(** What a reading function promises: its result, and that the string is
    unchanged but for the position it remembers *)
Definition reads {A} (s : St) (P : A → Prop) (r : A) (s' : St) : Prop := P r ∧ only_pos s s' ∧ wf s'.

(** Going backwards needs a vector that describes the string, and a remembered
    node with its own number, when the vector is up to date. *)
Definition rev_ok (s : St) : Prop :=
  iovec_upto_date (s_base s) = true → vec_describes s ∧ pos_num_ok (s_base s).

(** ** Over the vector *)
Section scan.
Context (non : bool) (p : Z → bool).
Local Abbreviation P := (span_chr non p).

Lemma spn_scan_body_spec s sr ret rest cur total :
  scan_at s sr rest cur → 0 < zlen cur → 0 ≤ ret → ret + zlen (rest ++ cur) ≤ SIZE_MAX →
  ret + count_while P (reverse (rest ++ cur)) = total →
  wp (spn_scan_body non p sr ret) s (λ r s', s' = s ∧
    match r with
    | Return x => x = total
    | Next ret' => 0 ≤ ret' ∧ ret' + zlen rest ≤ SIZE_MAX ∧ ret' + count_while P (reverse rest) = total
    end).
Proof.
  intros Hsr Hcur H0 Hmax Ht. rewrite length_app in Hmax. rewrite reverse_app, count_while_app, length_reverse in Ht.
  pose proof (sa_scan_len _ _ _ _ Hsr) as Hl. unfold spn_scan_body. destruct (decide (sr_type sr = NODE_NON)) as [Hty|Hty].
  - pose proof (sa_cur _ _ _ _ Hsr) as Hc. rewrite decide_True in Hc by done.
    replace (reverse cur) with cur in Ht by (rewrite Hc; unfold zrep; by rewrite reverse_replicate).
    rewrite Hc, count_while_zrep, length_zrep in Ht by lia. cbn in Ht.
    destruct non; wp_steps; (split; [done|]); cbn.
    + rewrite decide_False in Ht by lia. rewrite u64_id by lia. lia.
    + rewrite decide_True in Ht by lia. lia.
  - destruct (scan_at_bytes _ _ _ _ Hsr Hty) as (bs&->&Hb&Hwp). rewrite span_chr_bytes_rev, length_fmap in Ht.
    rewrite length_fmap in *. wp_step. wp_apply Hwp. intros r s1 [-> ->]. wp_steps. split; [done|].
    pose proof (count_while_bound p (reverse bs)). rewrite length_reverse in *. rewrite Hl.
    destruct (decide (count_while p (reverse bs) < zlen bs)); rewrite u64_id by lia; lia.
Qed.

Lemma spn_scan_loop_spec s pos len :
  wf s → vec_describes s → iovec_upto_date (s_base s) = true → pos_num_ok (s_base s) → in_range s pos len →
  wp (spn_scan_loop non p pos len) s
    (reads s (λ r, r = count_while P (reverse (substr pos len (st_content s))))).
Proof.
  intros Hw Hd Hup Hpn Hr. pose proof (substr_length _ _ _ Hw Hr) as Hl. pose proof (wf_len_max _ Hw).
  set (total := count_while P (reverse (substr pos len (st_content s)))).
  apply (scan_function_spec (spn_scan_body non p) loop_value 0 0 s pos len
    (λ ret l, 0 ≤ ret ∧ ret + zlen l ≤ SIZE_MAX ∧ ret + count_while P (reverse l) = total) (λ r, r = total)); [done..| | |].
  - intros s' _ _ sr ret rest cur Hsr Hc (H1&H2&H3). wp_apply spn_scan_body_spec; [exact Hsr|done..|].
    by intros [a|x] s2 [-> ?].
  - cbn. lia.
  - destruct Hr as (?&?&?). lia.
Qed.
End scan.

Lemma vstr__srch_chr_rev_fast_spec s pos len c :
  wf s → vec_describes s → iovec_upto_date (s_base s) = true → pos_num_ok (s_base s) →
  in_range s pos len → range_fits pos len →
  wp (vstr__srch_chr_rev_fast pos len c) s
    (reads s (λ r, r = last_pos (is_chr c) pos (substr pos len (st_content s)))).
Proof.
  intros Hw Hd Hup Hpn Hr Hfit. pose proof (substr_length _ _ _ Hw Hr) as Hl. unfold range_fits in Hfit.
  set (whole := substr pos len (st_content s)) in *. pose proof Hr as (Hp&_).
  eapply (scan_function_spec _ (λ r, match r with Return p => p | Next _ => 0 end) tt 0 s pos len
    (λ _ l, (∃ suf, whole = l ++ suf) ∧ last_pos (is_chr c) pos whole = last_pos (is_chr c) pos l)
    (λ r, r = last_pos (is_chr c) pos whole)); [done..| | |].
  - intros s' _ _ sr [] rest cur Hsr Hc ([suf Hsuf]&Hlast). cbn beta. pose proof (sa_scan_len _ _ _ _ Hsr) as Hsl.
    assert (Hgo : count_while (negb ∘ is_chr c) cur = zlen cur →
      (∃ suf, whole = rest ++ suf) ∧ last_pos (is_chr c) pos whole = last_pos (is_chr c) pos rest).
    { intros Hno. split; [exists (cur ++ suf); by rewrite app_assoc|]. rewrite Hlast. by apply last_pos_none. }
    destruct (decide (sr_type sr = NODE_NON)) as [Hty|Hty].
    + wp_steps. split; [done|]. apply Hgo. pose proof (sa_cur _ _ _ _ Hsr) as Hcur. rewrite decide_True in Hcur by done.
      rewrite Hcur, count_while_zrep, length_zrep by lia. cbn. lia.
    + destruct (scan_at_bytes _ _ _ _ Hsr Hty) as (bs&->&Hb&Hwp). wp_step. wp_apply Hwp. intros r s1 [-> ->]. wp_steps.
      split; [done|]. pose proof (not_chr_span c (reverse (Some <$> bs))) as Hns. rewrite span_chr_bytes_rev in Hns.
      rewrite length_fmap in *. rewrite Hsl. pose proof (count_while_bound (λ x, bool_decide (x ≠ c)) (reverse bs)) as Hcb.
      rewrite length_reverse in Hcb. set (n := count_while (λ x, bool_decide (x ≠ c)) (reverse bs)) in *.
      destruct (decide (n < zlen bs)) as [Hn|Hn].
      * assert (Hlen : zlen whole = zlen rest + zlen bs + zlen suf) by (rewrite Hsuf, !length_app, length_fmap; lia).
        rewrite Hlast. unfold last_pos. rewrite reverse_app, count_while_app, Hns, length_reverse, length_app, length_fmap.
        rewrite (decide_True (P := n < zlen bs)), decide_True by lia.
        rewrite (sa_len _ _ _ _ Hsr). rewrite u64_id by lia. lia.
      * apply Hgo. assert (Hall : Forall (λ x, (negb ∘ is_chr c) x = true) (reverse (Some <$> bs))).
        { apply count_while_all. rewrite Hns, length_reverse, length_fmap. lia. }
        rewrite <- (length_fmap Some bs). apply count_while_all. by apply (proj1 (Forall_reverse _ _)).
  - intros [] (_&Hlast). done.
  - split; [|done]. exists []. by rewrite app_nil_r.
Qed.

(** ** The functions of the interface *)

(** The characters that a set names; NULL names the NON data. *)
Definition in_chrs (chrs : option (list Z)) (x : byte_or_non) : bool :=
  match chrs, x with
  | None, None => true | Some cs, Some c => has_chr cs c | _, _ => false
  end.

Lemma in_chrs_None l : count_while (in_chrs None) l = count_while (span_chr true (λ _, false)) l.
Proof. apply count_while_ext. by intros []. Qed.
Lemma in_chrs_Some cs l : count_while (in_chrs (Some cs)) l = count_while (span_chr false (has_chr cs)) l.
Proof. apply count_while_ext. by intros []. Qed.
Lemma not_in_chrs_None l : count_while (negb ∘ in_chrs None) l = count_while (span_chr false (λ _, true)) l.
Proof. apply count_while_ext. by intros []. Qed.
Lemma not_in_chrs_Some cs l :
  count_while (negb ∘ in_chrs (Some cs)) l = count_while (span_chr true (λ c, negb (has_chr cs c))) l.
Proof. apply count_while_ext. by intros []. Qed.
Lemma has_chr_one c x : has_chr [c] x = bool_decide (c = x).
Proof. unfold has_chr. apply bool_decide_ext. rewrite list_elem_of_singleton. split; congruence. Qed.
Lemma in_chrs_one c x : in_chrs (Some [c]) x = is_chr c x.
Proof. destruct x as [x|]; [|done]. cbn. rewrite has_chr_one. apply bool_decide_ext. split; congruence. Qed.

(** A string without NON nodes has no NON data. *)
Lemma content_no_non s : wf s → node_non_used (s_base s) = false → Forall (λ x, in_chrs None x = false) (st_content s).
Proof.
  intros Hw Hn. unfold st_content, content, zdrop. apply Forall_drop. unfold chain_bytes.
  pose proof (bi_flags _ (wf_base _ Hw)) as Hf. revert Hf. induction (b_nodes (s_base s)) as [|nd ns IH]; intros Hf; cbn; [done|].
  apply Forall_app. split.
  - specialize (Hf nd ltac:(by left)). unfold node_bytes. destruct nd as [a l body]. destruct body as [| |p|r off]; cbn in Hf |- *.
    + destruct (load _ _ _); [|done]. apply Forall_fmap, Forall_true. done.
    + congruence.
    + destruct (load _ _ _); [|done]. apply Forall_fmap, Forall_true. done.
    + destruct (h_refs (s_heap s) !! r); [|done]. cbn. destruct (load _ _ _); [|done]. apply Forall_fmap, Forall_true. done.
  - apply IH. intros x Hx. apply Hf. by right.
Qed.
Lemma substr_forall (P : byte_or_non → Prop) pos len l : Forall P l → Forall P (substr pos len l).
Proof. intros H. unfold substr, ztake, zdrop. by apply Forall_take, Forall_drop. Qed.
Lemma count_while_none {A} (p : A → bool) l : Forall (λ x, p x = false) l → count_while p l = 0.
Proof. intros H. destruct H as [|x l Hx _]; [done|]. cbn. by rewrite Hx. Qed.
Lemma count_while_not_none {A} (p : A → bool) l : Forall (λ x, p x = false) l → count_while (negb ∘ p) l = zlen l.
Proof. intros H. apply count_while_all. eapply Forall_impl; [exact H|]. intros x Hx. cbn. by rewrite Hx. Qed.

Section functions.
Context (s : St) (pos len : Z).
Hypothesis Hw : wf s.
Hypothesis Hr : in_range s pos len.
Local Abbreviation range := (substr pos len (st_content s)).

Lemma reads_now {A} (P : A → Prop) r : P r → reads s P r s.
Proof. intros. split_and!; [done|apply only_pos_refl|done]. Qed.

Lemma vstr_spn_chrs_fwd_spec chrs :
  wp (vstr_spn_chrs_fwd pos len chrs) s (reads s (λ r, r = count_while (in_chrs chrs) range)).
Proof.
  unfold vstr_spn_chrs_fwd. wp_step. apply wp_gets. destruct chrs as [cs|].
  - rewrite in_chrs_Some. destruct cs as [|c [|c' cs]]; try by apply spn_fwd_loop_spec.
    eapply wp_mono; [by apply spn_fwd_loop_spec|]. intros r s' [-> ?]. split; [|done].
    apply count_while_ext. intros [x|] _; cbn; [|done]. by rewrite has_chr_one.
  - rewrite in_chrs_None. destruct (node_non_used (s_base s)) eqn:En; cbn [negb]; [by apply spn_fwd_loop_spec|].
    wp_steps. apply reads_now. rewrite <- in_chrs_None, count_while_none; [done|]. by apply substr_forall, content_no_non.
Qed.

Lemma vstr_spn_chrs_rev_spec chrs :
  rev_ok s → wp (vstr_spn_chrs_rev pos len chrs) s (reads s (λ r, r = count_while (in_chrs chrs) (reverse range))).
Proof.
  intros Hrev. unfold vstr_spn_chrs_rev. wp_step. apply wp_gets.
  assert (Hnone : node_non_used (s_base s) = false → count_while (in_chrs None) (reverse range) = 0).
  { intros En. apply count_while_none, Forall_reverse. by apply substr_forall, content_no_non. }
  destruct (iovec_upto_date (s_base s)) eqn:Eup.
  - destruct (Hrev Eup). unfold vstr__spn_chrs_rev_fast. wp_step. apply wp_gets. destruct chrs as [cs|].
    + rewrite in_chrs_Some. by apply spn_scan_loop_spec.
    + destruct (node_non_used (s_base s)) eqn:En; cbn [negb].
      * rewrite in_chrs_None. by apply spn_scan_loop_spec.
      * wp_steps. apply reads_now. by rewrite Hnone.
  - unfold vstr__spn_chrs_rev_slow. wp_step. apply wp_gets. destruct chrs as [cs|].
    + rewrite in_chrs_Some. by apply spn_rev_loop_spec.
    + destruct (node_non_used (s_base s)) eqn:En; cbn [negb].
      * rewrite in_chrs_None. by apply spn_rev_loop_spec.
      * wp_steps. apply reads_now. by rewrite Hnone.
Qed.

Hypothesis Hfit : range_fits pos len.

Lemma vstr_srch_chr_rev_spec c :
  rev_ok s → wp (vstr_srch_chr_rev pos len c) s (reads s (λ r, r = last_pos (is_chr c) pos range)).
Proof.
  intros Hrev. unfold vstr_srch_chr_rev. wp_step. apply wp_gets.
  destruct (iovec_upto_date (s_base s)) eqn:Eup; [|by apply vstr__srch_chr_rev_slow_spec].
  destruct (Hrev Eup). by apply vstr__srch_chr_rev_fast_spec.
Qed.

Lemma vstr_cspn_chrs_fwd_spec chrs :
  wp (vstr_cspn_chrs_fwd pos len chrs) s (reads s (λ r, r = count_while (negb ∘ in_chrs chrs) range)).
Proof.
  pose proof (substr_length _ _ _ Hw Hr) as Hl. pose proof Hr as (Hp&_). unfold range_fits in Hfit.
  unfold vstr_cspn_chrs_fwd. wp_step. apply wp_gets. destruct chrs as [cs|].
  - destruct cs as [|c [|c' cs]]; [rewrite not_in_chrs_Some; by apply spn_fwd_loop_spec| |rewrite not_in_chrs_Some; by apply spn_fwd_loop_spec].
    wp_step. wp_apply vstr_srch_chr_fwd_spec; [done..|]. intros f s1 (->&Ho&Hw1). wp_steps. split; [|done].
    assert (Hc : count_while (negb ∘ in_chrs (Some [c])) range = count_while (negb ∘ is_chr c) range).
    { apply count_while_ext. intros x _. unfold compose. by rewrite in_chrs_one. }
    rewrite Hc. pose proof (count_while_bound (negb ∘ is_chr c) range). unfold first_pos.
    destruct (decide (count_while (negb ∘ is_chr c) range < zlen range)).
    + rewrite decide_False by lia. rewrite u64_id by lia. lia.
    + rewrite decide_True by done. lia.
  - destruct (node_non_used (s_base s)) eqn:En; cbn [negb]; [rewrite not_in_chrs_None; by apply spn_fwd_loop_spec|].
    wp_steps. apply reads_now. rewrite count_while_not_none; [done|]. by apply substr_forall, content_no_non.
Qed.

Lemma vstr_cspn_chrs_rev_spec chrs :
  rev_ok s → wp (vstr_cspn_chrs_rev pos len chrs) s
    (reads s (λ r, r = count_while (negb ∘ in_chrs chrs) (reverse range))).
Proof.
  intros Hrev. pose proof (substr_length _ _ _ Hw Hr) as Hl. pose proof Hr as (Hp&_). unfold range_fits in Hfit.
  unfold vstr_cspn_chrs_rev. wp_step. apply wp_gets.
  assert (Hmany : ∀ cs, wp (if iovec_upto_date (s_base s) then vstr__cspn_chrs_rev_fast pos len (Some cs)
     else vstr__cspn_chrs_rev_slow pos len (Some cs)) s
     (reads s (λ r, r = count_while (negb ∘ in_chrs (Some cs)) (reverse range)))).
  { intros cs. rewrite not_in_chrs_Some. destruct (iovec_upto_date (s_base s)) eqn:Eup; [|by apply spn_rev_loop_spec].
    destruct (Hrev Eup). by apply spn_scan_loop_spec. }
  destruct chrs as [cs|].
  - destruct cs as [|c [|c' cs]]; [apply Hmany| |apply Hmany].
    wp_step. wp_apply vstr_srch_chr_rev_spec; [done|]. intros f s1 (->&Ho&Hw1). wp_steps. split; [|done].
    assert (Hc : count_while (negb ∘ in_chrs (Some [c])) (reverse range) = count_while (negb ∘ is_chr c) (reverse range)).
    { apply count_while_ext. intros x _. unfold compose. by rewrite in_chrs_one. }
    rewrite Hc. pose proof (count_while_bound (negb ∘ is_chr c) (reverse range)) as Hb. rewrite length_reverse in Hb.
    unfold last_pos. destruct (decide (count_while (negb ∘ is_chr c) (reverse range) < zlen range)).
    + rewrite decide_False by lia. rewrite (u64_id (pos + (len - 1))), u64_id by lia. lia.
    + rewrite decide_True by done. lia.
  - destruct (node_non_used (s_base s)) eqn:En; cbn [negb].
    + rewrite not_in_chrs_None. destruct (iovec_upto_date (s_base s)) eqn:Eup; [|by apply spn_rev_loop_spec].
      destruct (Hrev Eup). by apply spn_scan_loop_spec.
    + wp_steps. apply reads_now. rewrite count_while_not_none, length_reverse; [done|].
      apply Forall_reverse. by apply substr_forall, content_no_non.
Qed.
End functions.

End others.
