(* ===== verification/World.v ===== *)
(** * Several strings: a heap, configurations and strings that use them.

    A function of the library that takes two strings may be given the same
    one twice; an operation on one string runs on the heap, its configuration
    and the string, and its changes are put back. *)
From Stdlib Require Import ZArith Lia ZifyBool.
From stdpp Require Import base tactics list numbers option gmap.
From S2P Require Import Prelude State Wp.

(** The members of a configuration that only the functions that make and free
    strings and configurations use *)
Record conf_life := mkLife {
  cl_ref : Z; cl_user_ref : Z; cl_grpalloc : grpalloc_type; cl_no_cache : bool;
  cl_spare_base : list Vstr_base; cl_spare_base_num : Z }.

Record World := mkWorld {
  w_heap : heap; w_confs : gmap nat Vstr_conf; w_bases : gmap nat (nat * Vstr_base);
  w_lives : gmap nat conf_life }.

Definition W (A : Type) : Type := World → option (A * World).
#[export] Instance W_ret : MRet W := λ A a w, Some (a, w).
#[export] Instance W_bind : MBind W := λ A B f m w,
  match m w with None => None | Some (a, w') => f a w' end.

Definition wundef {A} : W A := λ _, None.

(** String [k] with its configuration *)
Definition st_of (w : World) (k : nat) : option St :=
  '(c, b) ← w_bases w !! k; conf ← w_confs w !! c; Some (mkSt (w_heap w) conf b).
Definition put_st (k : nat) (s : St) (w : World) : World :=
  match w_bases w !! k with
  | None => w
  | Some (c, _) => mkWorld (s_heap s) (<[c := s_conf s]> (w_confs w)) (<[k := (c, s_base s)]> (w_bases w)) (w_lives w)
  end.
Definition on_string {A} (k : nat) (m : M A) : W A := λ w,
  s ← st_of w k; '(a, s') ← m s; Some (a, put_st k s' w).

Definition wwp {A} (m : W A) (w : World) (Q : A → World → Prop) : Prop :=
  match m w with Some (a, w') => Q a w' | None => False end.

Section wwp.
Context {A B : Type}.
Implicit Types (w : World).

Lemma wwp_ret (a : A) w Q : Q a w → wwp (mret a) w Q.
Proof. done. Qed.
Lemma wwp_bind (m : W A) (f : A → W B) w Q :
  wwp m w (λ a w', wwp (f a) w' Q) → wwp (m ≫= f) w Q.
Proof. unfold wwp, mbind, W_bind. destruct (m w) as [[a w']|]; done. Qed.
Lemma wwp_mono (m : W A) w (P Q : A → World → Prop) :
  wwp m w P → (∀ a w', P a w' → Q a w') → wwp m w Q.
Proof. unfold wwp. destruct (m w) as [[a w']|]; auto. Qed.
Lemma wwp_run (m : W A) w Q :
  wwp m w Q ↔ ∃ a w', m w = Some (a, w') ∧ Q a w'.
Proof.
  unfold wwp. destruct (m w) as [[a w']|]; [|by split; [|intros (?&?&?&?)]].
  split; [eauto|]. by intros (?&?&[= <- <-]&?).
Qed.
Lemma wwp_on_string k (m : M A) w s Q :
  st_of w k = Some s → wp m s (λ a s', Q a (put_st k s' w)) → wwp (on_string k m) w Q.
Proof.
  unfold wwp, on_string, wp. intros ->. cbn. destruct (m s) as [[a s']|]; done.
Qed.
End wwp.

Ltac wwp_step :=
  lazymatch goal with
  | |- wwp (mbind _ _) _ _ => apply wwp_bind
  | |- wwp (mret _) _ _ => apply wwp_ret
  end.
Ltac wwp_steps := repeat (wwp_step; cbn beta).

Lemma st_of_Some w k s :
  st_of w k = Some s ↔ ∃ c, w_bases w !! k = Some (c, s_base s) ∧ w_confs w !! c = Some (s_conf s) ∧ s_heap s = w_heap w.
Proof.
  unfold st_of. destruct (w_bases w !! k) as [[c b]|] eqn:Eb; cbn.
  - destruct (w_confs w !! c) as [conf|] eqn:Ec; cbn.
    + split; [intros [= <-]; by exists c|]. intros (c'&[= <- ->]&E2&E3). rewrite Ec in E2.
      injection E2 as ->. rewrite <- E3. by destruct s.
    + split; [done|]. intros (c'&[= <- ->]&E2&_). congruence.
  - split; [done|]. by intros (?&?&_).
Qed.

Lemma st_of_put_same w k s s' : st_of w k = Some s → st_of (put_st k s' w) k = Some s'.
Proof.
  intros (c&Hb&Hc&Hh)%st_of_Some. unfold put_st. rewrite Hb. apply st_of_Some. exists c. cbn.
  by rewrite !lookup_insert_eq.
Qed.
(** A change that keeps the heap and the configuration is not seen by another string. *)
Lemma st_of_put_other w k j s s' t :
  st_of w k = Some s → s_heap s' = s_heap s → s_conf s' = s_conf s → j ≠ k →
  st_of w j = Some t → st_of (put_st k s' w) j = Some t.
Proof.
  intros (c&Hb&Hc&Hh)%st_of_Some Eh Ec Hne (d&Hb2&Hc2&Hh2)%st_of_Some. unfold put_st. rewrite Hb.
  apply st_of_Some. exists d. cbn. rewrite lookup_insert_ne by done. split_and!; [done| |congruence].
  destruct (decide (c = d)) as [->|]; [rewrite lookup_insert_eq; congruence|by rewrite lookup_insert_ne by done].
Qed.
Lemma put_st_refl w k s : st_of w k = Some s → put_st k s w = w.
Proof.
  intros (c&Hb&Hc&Hh)%st_of_Some. unfold put_st. rewrite Hb, Hh.
  rewrite !insert_id by done. by destruct w.
Qed.

(** A function that only reads a string leaves the world alone. *)
Lemma wwp_reads {A} k (m : M A) w s (Q : A → World → Prop) :
  st_of w k = Some s → wp m s (λ a s', s' = s ∧ Q a w) → wwp (on_string k m) w Q.
Proof.
  intros Hs Hm. eapply wwp_on_string; [exact Hs|]. eapply wp_mono; [exact Hm|]. intros a s' [-> HQ].
  by rewrite (put_st_refl _ _ _ Hs).
Qed.
