(* ===== verification/Frame.v ===== *)
(** * Framing: what a string shares with the others, seen from one of them and
    from all of them.

    [shared_inv h O N] is the part of the invariant that speaks of the heap,
    of the addresses [O] of nodes and spare nodes and of the nodes [N] in use.
    It holds of the nodes of all strings together just when it holds of one
    string with the rest as its [Others]; so that an operation proved for one
    string and any [Others] keeps the rest. *)
From Stdlib Require Import ZArith Lia ZifyBool.
From stdpp Require Import base tactics list numbers option gmap.
From S2P Require Import Prelude State Wp Ref Cache Core Inv PosLemmas SpareLemmas.

Record shared_inv {OT : Others} (h : heap) (O : list positive) (N : list Vstr_node) : Prop := {
  si_total : zlen O + o_num ≤ UINT_MAX;
  si_nodup : NoDup O;
  si_fresh_own : Forall (λ a, (a < h_next h)%positive) O;
  si_fresh_mem : ∀ a, is_Some (h_mem h !! a) → (a < h_next h)%positive;
  si_fresh_ref : ∀ r, is_Some (h_refs h !! r) → (r < h_next h)%positive;
  si_alias : ∀ nd p, nd ∈ N → node_ext (h_refs h) nd = Some p → (p_blk p ∉ O) ∧ p_blk p ∉ o_own;
  si_count : ∀ r, ref_count r N + held r ≠ 0 →
    ∃ ref, h_refs h !! r = Some ref ∧ ref_count r N + held r ≤ r_ref ref ≤ UINT_MAX;
  si_frees : ∀ r ref, h_refs h !! r = Some ref → 0 < r_ref ref →
    ref_freeable (h_mem h) ref ∧
    (∀ blk, ref_frees r ref blk → (blk ∉ O) ∧
      (∀ nd p, nd ∈ N → node_ext (h_refs h) nd = Some p → p_blk p = blk → node_ref_of nd = Some r));
  si_disj : ∀ r1 r2 ref1 ref2 blk, h_refs h !! r1 = Some ref1 → h_refs h !! r2 = Some ref2 →
    0 < r_ref ref1 → 0 < r_ref ref2 → ref_frees r1 ref1 blk → ref_frees r2 ref2 blk → r1 = r2;
  si_shown : ∀ a blk, o_mem !! a = Some blk → h_mem h !! a = Some blk;
  si_guard : ∀ a, guarded a → (a < h_next h)%positive ∧ (a ∉ O) ∧
    (∀ r ref, h_refs h !! r = Some ref → 0 < r_ref ref → ref_frees r ref a → (a ∉ o_own) ∧ 0 < held r);
  si_held : ∀ r ro, o_refs !! r = Some ro → ∃ ref, h_refs h !! r = Some ref ∧
    r_func ref = r_func ro ∧ r_ptr ref = r_ptr ro }.

(** The part of the invariant about the configuration and its string *)
Record conf_inv (m : memory) (c : Vstr_conf) : Prop := {
  cf_bsz : 0 < buf_sz c ≤ VSTR_MAX_NODE_BUF;
  cf_spare_num : spare_nums_ok c;
  cf_spare_buf : Forall (buf_ok m (buf_sz c)) (sp_nodes (spare_buf c)) }.

Lemma heap_inv_shared {OT : Others} h c ns :
  heap_inv h c ns ↔ conf_inv (h_mem h) c ∧ Forall (node_ok h (buf_sz c)) ns ∧ shared_inv h (own c ns) ns.
Proof.
  split.
  - intros []. split; [by split|]. split; [done|]. split; try done. intros nd p Hnd Hp. split; eauto.
  - intros ([]&?&[]). split; try done; intros nd p Hnd Hp; by apply (si_alias0 nd p).
Qed.

Lemma ref_count_perm r l1 l2 : l1 ≡ₚ l2 → ref_count r l1 = ref_count r l2.
Proof. induction 1; cbn; lia. Qed.
Lemma shared_inv_perm {OT : Others} h O O' N N' :
  O ≡ₚ O' → N ≡ₚ N' → shared_inv h O N → shared_inv h O' N'.
Proof.
  intros EO EN []. assert (ER : ∀ r, ref_count r N' = ref_count r N) by (intros; by apply ref_count_perm).
  split; try done; try (by rewrite <- EO).
  - intros nd p. rewrite <- EO, <- EN. apply si_alias0.
  - intros r. rewrite ER. apply si_count0.
  - intros r ref Hr Hp. destruct (si_frees0 r ref Hr Hp) as [? Hf]. split; [done|].
    intros blk Hb. rewrite <- EO. destruct (Hf blk Hb) as [? Hn]. split; [done|]. intros nd p. rewrite <- EN. eauto.
  - intros a Ha. rewrite <- EO. by apply si_guard0.
Qed.

(** ** The rest of the strings as the [Others] of one of them *)
Section others.
Context {OT : Others}.

(** The blocks the nodes [F] and their spare nodes read: their own, and those
    their data is in *)
Definition reads (h : heap) (rest : list positive) (F : list Vstr_node) : list positive :=
  rest ++ omap (λ nd, p_blk <$> node_ext (h_refs h) nd) F.
Definition holds (F : list Vstr_node) (r : positive) (ref : Vstr_ref) : option Vstr_ref :=
  if decide (0 < ref_count r F + held r)
  then Some (mkRef (r_func ref) (r_ptr ref) (ref_count r F + held r)) else None.

#[refine] Definition others_of (h : heap) (rest : list positive) (F : list Vstr_node) : Others :=
  {| o_mem := o_mem ∪ filter (λ p, p.1 ∈ reads h rest F) (h_mem h);
     o_own := o_own ∪ list_to_set rest;
     o_refs := map_imap (holds F) (h_refs h); o_refs_pos := _ |}.
Proof.
  intros r ro. rewrite map_lookup_imap. destruct (h_refs h !! r) as [ref|]; [|done]. cbn. unfold holds.
  case_decide; [|done]. by intros [= <-].
Defined.

Section focus.
Context (h : heap) (rest : list positive) (F : list Vstr_node).
Abbreviation OF := (others_of h rest F).

Lemma reads_elem a : a ∈ reads h rest F ↔ a ∈ rest ∨ ∃ nd p, nd ∈ F ∧ node_ext (h_refs h) nd = Some p ∧ p_blk p = a.
Proof.
  unfold reads. rewrite elem_of_app, list_elem_of_omap. apply or_iff_compat_l. split.
  - intros (nd&Hnd&Hp). destruct (node_ext (h_refs h) nd) as [p|] eqn:E; [|done]. injection Hp as <-. eauto.
  - intros (nd&p&Hnd&E&<-). exists nd. by rewrite E.
Qed.
Lemma others_of_mem a blk :
  @o_mem OF !! a = Some blk → o_mem !! a = Some blk ∨ (h_mem h !! a = Some blk ∧ a ∈ reads h rest F).
Proof. cbn. intros [?|[_ ?]]%lookup_union_Some_raw; [by left|right]. by rewrite map_lookup_filter_Some in *. Qed.
Lemma others_of_read a blk :
  (∀ x b, o_mem !! x = Some b → h_mem h !! x = Some b) →
  h_mem h !! a = Some blk → a ∈ reads h rest F → @o_mem OF !! a = Some blk.
Proof.
  intros Hs Ha Hr. cbn. apply lookup_union_Some_raw. destruct (o_mem !! a) as [b|] eqn:E.
  - left. rewrite <- Ha. symmetry. by apply Hs.
  - right. split; [done|]. by apply map_lookup_filter_Some.
Qed.
Lemma others_of_guarded a :
  guarded (OT := OF) a → guarded a ∨ a ∈ rest ∨ (is_Some (h_mem h !! a) ∧ a ∈ reads h rest F).
Proof.
  intros [[blk Hb]|Ha].
  - apply others_of_mem in Hb as [Hb|[Hb ?]]; [left; left; eauto|right; right; eauto].
  - cbn in Ha. apply elem_of_union in Ha as [?|?%elem_of_list_to_set]; [left; by right|right; by left].
Qed.
Lemma guarded_others_of a : guarded a → guarded (OT := OF) a.
Proof.
  intros [[blk Hb]|Ha]; [left|right; cbn; set_solver]. exists blk. cbn. apply lookup_union_Some_raw. by left.
Qed.
Lemma held_others_of O N r : shared_inv h O N → (∀ r, ref_count r F ≤ ref_count r N) →
  held (OT := OF) r = ref_count r F + held r.
Proof.
  intros S HF. unfold held at 1. cbn. rewrite map_lookup_imap. pose proof (ref_count_nonneg r F). pose proof (held_nonneg r).
  destruct (decide (ref_count r F + held r = 0)) as [E|E].
  - destruct (h_refs h !! r) as [ref|]; [|done]. cbn. unfold holds. rewrite decide_False by lia. done.
  - specialize (HF r). destruct (si_count _ _ _ S r) as (ref&->&_); [lia|]. cbn. unfold holds. by rewrite decide_True by lia.
Qed.
Lemma others_of_ref r ro : @o_refs OF !! r = Some ro →
  ∃ ref, h_refs h !! r = Some ref ∧ r_func ref = r_func ro ∧ r_ptr ref = r_ptr ro.
Proof.
  cbn. rewrite map_lookup_imap. destruct (h_refs h !! r) as [ref|]; [|done]. cbn. unfold holds.
  case_decide; [|done]. intros [= <-]. by exists ref.
Qed.

Context (o1 : list positive) (ns : list Vstr_node).
Context (S : shared_inv h (o1 ++ rest) (ns ++ F)).
Context (HF : Forall (λ nd, ∃ bsz, node_ok h bsz nd) F).

Lemma held_others r : held (OT := OF) r = ref_count r F + held r.
Proof. eapply held_others_of; [exact S|]. intros x. rewrite ref_count_app. pose proof (ref_count_nonneg x ns). lia. Qed.
Lemma rest_size : NoDup rest → (∀ a, a ∈ rest → a ∉ o_own) → o_num (OT := OF) = o_num + zlen rest.
Proof.
  intros Hd Hg. unfold o_num. cbn. rewrite size_union, size_list_to_set; [lia|done|].
  intros a Ha1 Ha2%elem_of_list_to_set. by apply (Hg a).
Qed.
Lemma rest_apart : NoDup rest ∧ (∀ a, a ∈ rest → a ∉ o_own).
Proof.
  pose proof (si_nodup _ _ _ S) as Hd. apply NoDup_app in Hd as (_&_&Hd). split; [done|]. intros a Ha Ho.
  destruct (si_guard _ _ _ S a) as (_&Hn&_); [by right|]. apply Hn, elem_of_app. by right.
Qed.
Lemma ext_apart nd p : nd ∈ F → node_ext (h_refs h) nd = Some p →
  is_Some (h_mem h !! p_blk p) ∧ (p_blk p ∉ o1 ++ rest) ∧ (p_blk p ∉ o_own) ∧ p_blk p ∈ reads h rest F.
Proof.
  intros Hnd Hp. rewrite Forall_forall in HF. destruct (HF nd Hnd) as [bsz Hok].
  destruct (si_alias _ _ _ S nd p) as [? ?]; [apply elem_of_app; by right|done|].
  split_and!; [by eapply node_ext_alloc|done|done|]. apply reads_elem. right. eauto.
Qed.

(** What is live and freed with a block that others read *)
Lemma rest_guard a r ref :
  a ∈ reads h rest F → h_refs h !! r = Some ref → 0 < r_ref ref → ref_frees r ref a →
  (a ∉ o_own ∪ list_to_set rest) ∧ 0 < ref_count r F + held r.
Proof.
  intros Ha Hr Hp Hf. destruct (si_frees _ _ _ S r ref Hr Hp) as [_ Hfr]. destruct (Hfr a Hf) as [Hn Hex].
  rewrite elem_of_app in Hn. apply reads_elem in Ha as [Ha|(nd&p&Hnd&Ep&Ea)]; [by destruct Hn; right|].
  destruct (ext_apart nd p Hnd Ep) as (_&Hn1&Hn2&_). rewrite Ea in *. split.
  - rewrite elem_of_union, elem_of_list_to_set. intros [?|?]; [done|]. apply Hn. by right.
  - specialize (Hex nd p). rewrite elem_of_app in Hex. specialize (Hex (or_intror Hnd) Ep Ea).
    assert (1 ≤ ref_count r F).
    { apply list_elem_of_split in Hnd as (l1&l2&->). rewrite ref_count_insert, decide_True by done.
      pose proof (ref_count_nonneg r (l1 ++ l2)). lia. }
    pose proof (held_nonneg r). lia.
Qed.

Lemma focus : shared_inv (OT := OF) h o1 ns.
Proof.
  destruct rest_apart as [Hd Ha0]. pose proof (si_nodup _ _ _ S) as HD. apply NoDup_app in HD as (HD1&HD2&_).
  pose proof (si_fresh_own _ _ _ S) as Hfo. apply Forall_app in Hfo as [Hfo1 Hfo2]. rewrite Forall_forall in Hfo2.
  split; try apply S; try done.
  - rewrite (rest_size Hd Ha0). pose proof (si_total _ _ _ S) as Ht. rewrite length_app in Ht. lia.
  - intros nd p Hnd Hp. destruct (si_alias _ _ _ S nd p) as [H1 H2]; [apply elem_of_app; by left|done|].
    rewrite elem_of_app in H1. cbn. rewrite elem_of_union, elem_of_list_to_set. tauto.
  - intros r. rewrite held_others. intros Hr. destruct (si_count _ _ _ S r) as (ref&Hr1&Hr2); rewrite ref_count_app in *; [lia|].
    exists ref. split; [done|lia].
  - intros r ref Hr Hp. destruct (si_frees _ _ _ S r ref Hr Hp) as [? Hf]. split; [done|]. intros blk Hb.
    destruct (Hf blk Hb) as [Hn He]. rewrite elem_of_app in Hn. split; [tauto|]. intros nd p Hnd. apply He, elem_of_app. by left.
  - intros a blk [Hb|[Hb _]]%others_of_mem; [by apply (si_shown _ _ _ S)|done].
  - intros a Ha. apply others_of_guarded in Ha as [Ha|Ha].
    + destruct (si_guard _ _ _ S a Ha) as (H1&H2&H3). rewrite elem_of_app in H2. split_and!; [done|tauto|].
      intros r ref Hr Hp Hf. destruct (H3 r ref Hr Hp Hf) as [H4 H5]. cbn. rewrite elem_of_union, elem_of_list_to_set.
      rewrite held_others. pose proof (ref_count_nonneg r F). split; [tauto|lia].
    + assert (Hr : a ∈ reads h rest F) by (destruct Ha as [?|[_ ?]]; [by apply elem_of_app; left|done]).
      split_and!.
      * destruct Ha as [Ha|[Ha _]]; [by apply Hfo2|by apply (si_fresh_mem _ _ _ S)].
      * intros Hin. apply reads_elem in Hr as [Hr|(nd&p&Hnd&Ep&<-)]; [by apply (HD2 a)|].
        destruct (ext_apart nd p Hnd Ep) as (_&Hn&_). apply Hn, elem_of_app. by left.
      * intros r ref Er Hp Hf. rewrite held_others. by apply (rest_guard a r ref).
  - intros r ro Hr. by apply (others_of_ref r ro).
Qed.

(** After changes for which the one string kept its invariant *)
Context (h' : heap) (o1' : list positive) (ns' : list Vstr_node).
Context (S' : shared_inv (OT := OF) h' o1' ns').

Lemma rest_mem a : is_Some (h_mem h !! a) → a ∈ reads h rest F → h_mem h' !! a = h_mem h !! a.
Proof.
  intros [blk Hb] Ha. rewrite Hb. apply (si_shown _ _ _ S'). apply others_of_read; [apply S|done|done].
Qed.
(** A reference others hold is the one it was, and is live. *)
Lemma rest_ref r : 0 < ref_count r F + held r → ∃ ref ref', h_refs h !! r = Some ref ∧ h_refs h' !! r = Some ref' ∧
  r_func ref' = r_func ref ∧ r_ptr ref' = r_ptr ref ∧ 0 < r_ref ref.
Proof.
  intros Hr. destruct (si_count _ _ _ S r) as (ref&E&Hc).
  { rewrite ref_count_app. pose proof (ref_count_nonneg r ns). lia. }
  assert (Ho : @o_refs OF !! r = Some (mkRef (r_func ref) (r_ptr ref) (ref_count r F + held r))).
  { cbn. rewrite map_lookup_imap, E. cbn. unfold holds. by rewrite decide_True. }
  destruct (si_held _ _ _ S' r _ Ho) as (ref'&E'&Ef&Ep). exists ref, ref'. cbn in Ef, Ep.
  rewrite ref_count_app in Hc. pose proof (ref_count_nonneg r ns). split_and!; [done|done|done|done|lia].
Qed.
Lemma rest_node bsz nd : nd ∈ F → nd_addr nd ∈ rest → node_ok h bsz nd →
  node_ok h' bsz nd ∧ node_bytes h' nd = node_bytes h nd ∧ node_ext (h_refs h') nd = node_ext (h_refs h) nd.
Proof.
  intros Hnd Ha Hok. apply node_frame; [done|..].
  - intros Ht. apply rest_mem; [|apply elem_of_app; by left].
    destruct nd as [a l []]; try done. destruct Hok as (_&_&blk&Hb&_). by rewrite Hb.
  - intros p Hp. destruct (ext_apart nd p Hnd Hp) as (?&_&_&?). by apply rest_mem.
  - intros r Hr. destruct (rest_ref r) as (ref&ref'&->&->&_&Ep&_); [|by cbn; rewrite Ep].
    apply list_elem_of_split in Hnd as (l1&l2&E). rewrite E, ref_count_insert, decide_True by done.
    pose proof (ref_count_nonneg r (l1 ++ l2)). pose proof (held_nonneg r). lia.
Qed.

Lemma unfocus : Forall (λ nd, nd_addr nd ∈ rest) F → shared_inv h' (o1' ++ rest) (ns' ++ F).
Proof.
  intros HA. pose proof HF as HF0. rewrite Forall_forall in HA, HF0. destruct rest_apart as [Hd Ha0].
  assert (Hg : ∀ a, guarded (OT := OF) a → (a < h_next h')%positive ∧ (a ∉ o1') ∧
    ∀ r ref, h_refs h' !! r = Some ref → 0 < r_ref ref → ref_frees r ref a → (a ∉ o_own ∪ list_to_set rest) ∧ 0 < ref_count r F + held r).
  { intros a Ha. destruct (si_guard _ _ _ S' a Ha) as (?&?&H3). split_and!; [done|done|]. intros r ref Hr Hp Hf.
    destruct (H3 r ref Hr Hp Hf) as [H4 H5]. rewrite held_others in H5. done. }
  assert (Hgr : ∀ a, a ∈ rest → guarded (OT := OF) a) by (intros; right; cbn; set_solver).
  assert (Hext : ∀ nd, nd ∈ F → node_ext (h_refs h') nd = node_ext (h_refs h) nd).
  { intros nd Hnd. destruct (HF0 nd Hnd) as [bsz Hok]. by eapply rest_node; [done|by apply HA|exact Hok]. }
  assert (Hgx : ∀ nd p, nd ∈ F → node_ext (h_refs h) nd = Some p → guarded (OT := OF) (p_blk p)).
  { intros nd p Hnd Hp. destruct (ext_apart nd p Hnd Hp) as ([blk Hb]&_&_&Hr). left. exists blk.
    apply others_of_read; [apply S|done|done]. }
  split; try apply S'.
  - rewrite length_app. pose proof (si_total _ _ _ S') as Ht. rewrite (rest_size Hd Ha0) in Ht. lia.
  - apply NoDup_app. split_and!; [apply S'| |done]. intros a Ha Hr. by apply (proj1 (proj2 (Hg a (Hgr a Hr)))).
  - apply Forall_app. split; [apply S'|]. apply Forall_forall. intros a Ha. by apply Hg, Hgr.
  - intros nd p [Hnd|Hnd]%elem_of_app Hp.
    + destruct (si_alias _ _ _ S' nd p Hnd Hp) as [H1 H2]. cbn in H2.
      rewrite elem_of_union, elem_of_list_to_set in H2. rewrite elem_of_app. tauto.
    + rewrite Hext in Hp by done. destruct (ext_apart nd p Hnd Hp) as (_&H1&H2&_). rewrite elem_of_app in H1 |- *.
      destruct (Hg _ (Hgx nd p Hnd Hp)) as (_&H3&_). tauto.
  - intros r Hr. pose proof (si_count _ _ _ S' r) as Hc. rewrite held_others in Hc. rewrite ref_count_app in *.
    destruct Hc as (ref&?&?); [lia|]. exists ref. split; [done|lia].
  - intros r ref Hr Hp. destruct (si_frees _ _ _ S' r ref Hr Hp) as [? Hf]. split; [done|]. intros blk Hb.
    destruct (Hf blk Hb) as [Hn He]. split.
    + rewrite elem_of_app. intros [?|Hin]; [done|]. destruct (Hg blk (Hgr blk Hin)) as (_&_&Hl).
      destruct (Hl r ref Hr Hp Hb) as [Hx _]. set_solver.
    + intros nd p [Hnd|Hnd]%elem_of_app Ep Eb; [by eapply He|]. rewrite Hext in Ep by done.
      destruct (Hg _ (Hgx nd p Hnd Ep)) as (_&_&Hl). rewrite Eb in Hl. destruct (Hl r ref Hr Hp Hb) as [_ Hh].
      destruct (rest_ref r Hh) as (ref0&ref1&E0&E1&Ef&Ep1&Hp0). rewrite Hr in E1. injection E1 as <-.
      destruct (si_frees _ _ _ S r ref0 E0 Hp0) as [_ Hf0]. destruct (Hf0 blk) as [_ He0].
      { unfold ref_frees in *. by rewrite <- Ef, <- Ep1. }
      apply (He0 nd p); [apply elem_of_app; by right|done|done].
  - intros a blk Hb. apply (si_shown _ _ _ S'). cbn. apply lookup_union_Some_raw. by left.
  - intros a Ha. destruct (Hg a (guarded_others_of a Ha)) as (H1&H2&H3). destruct (si_guard _ _ _ S a Ha) as (_&H5&H6).
    rewrite elem_of_app in *. split_and!; [done|tauto|]. intros r ref Hr Hp Hf. destruct (H3 r ref Hr Hp Hf) as [H7 H8].
    destruct (rest_ref r H8) as (ref0&ref1&E0&E1&Ef&Ep1&Hp0). rewrite Hr in E1. injection E1 as <-.
    apply (H6 r ref0 E0 Hp0). unfold ref_frees in *. by rewrite <- Ef, <- Ep1.
  - intros r ro Hr. destruct (si_held _ _ _ S r ro Hr) as (ref&E&?&?). destruct (rest_ref r) as (ref0&ref'&E0&E1&?&?&_).
    { unfold held. rewrite Hr. pose proof (o_refs_pos r ro Hr). pose proof (ref_count_nonneg r F). cbn in *. lia. }
    rewrite E in E0. injection E0 as <-. exists ref'. split; [done|]. split; congruence.
Qed.
End focus.
End others.
