(* ===== verification/WorldInv.v ===== *)
(** * The invariant of a world of strings, and that an operation on one of
    them keeps it and leaves the others as they are.

    Editing several strings is editing several lists.

    The strings share the heap, references and, as the caller likes,
    configurations with their spare nodes. *)
From Stdlib Require Import ZArith Lia ZifyBool.
From stdpp Require Import base tactics list numbers option gmap.
From S2P Require Import Prelude State Wp Ref Cache Core Add Del Base Inv PosLemmas SpareLemmas SplitLemmas CacheLemmas AddLemmas StringLemmas AddSpec AddOps AddTheorems DelTheorems Edits World Frame.

Definition all_nodes (m : gmap nat (nat * Vstr_base)) : list Vstr_node :=
  concat ((λ p, b_nodes p.2.2) <$> map_to_list m).
Definition all_spares (m : gmap nat Vstr_conf) : list positive :=
  concat ((λ p, spares p.2) <$> map_to_list m).
(** The addresses of the nodes and spare nodes of all strings and configurations *)
Definition owned (w : World) : list positive :=
  (nd_addr <$> all_nodes (w_bases w)) ++ all_spares (w_confs w).

Section others.
Context {OT : Others}.

Record world_inv (w : World) : Prop := {
  wi_conf : ∀ c conf, w_confs w !! c = Some conf → conf_inv (h_mem (w_heap w)) conf;
  wi_base : ∀ k c b, w_bases w !! k = Some (c, b) → ∃ conf, w_confs w !! c = Some conf ∧
    Forall (node_ok (w_heap w) (buf_sz conf)) (b_nodes b) ∧ base_inv b ∧ cache_inv b;
  wi_shared : shared_inv (w_heap w) (owned w) (all_nodes (w_bases w)) }.

(** Room in the 32-bit counters for [n] more nodes and [k] more references *)
Definition world_room (n k : Z) (w : World) : Prop :=
  zlen (owned w) + o_num + n ≤ UINT_MAX ∧ (∀ r ref, h_refs (w_heap w) !! r = Some ref → r_ref ref + k ≤ UINT_MAX).

(** What others than string [k] have *)
Definition rest_nodes (w : World) (k : nat) : list Vstr_node := all_nodes (delete k (w_bases w)).
Definition rest_own (w : World) (k c : nat) : list positive :=
  (nd_addr <$> rest_nodes w k) ++ all_spares (delete c (w_confs w)).
Definition world_others (w : World) (k : nat) : Others :=
  match w_bases w !! k with
  | Some (c, _) => others_of (w_heap w) (rest_own w k c) (rest_nodes w k)
  | None => OT
  end.

Lemma all_nodes_delete m k c b : m !! k = Some (c, b) → all_nodes m ≡ₚ b_nodes b ++ all_nodes (delete k m).
Proof. intros Hk. unfold all_nodes. by rewrite <- (map_to_list_delete m k (c, b) Hk). Qed.
Lemma all_spares_delete m c conf : m !! c = Some conf → all_spares m ≡ₚ spares conf ++ all_spares (delete c m).
Proof. intros Hc. unfold all_spares. by rewrite <- (map_to_list_delete m c conf Hc). Qed.
Lemma all_nodes_elem m nd : nd ∈ all_nodes m ↔ ∃ k c b, m !! k = Some (c, b) ∧ nd ∈ b_nodes b.
Proof.
  unfold all_nodes. rewrite list_elem_of_In, in_concat. split.
  - intros (l&Hl&Hnd). apply list_elem_of_In, list_elem_of_fmap in Hl as ([k [c b]]&->&Hin).
    apply elem_of_map_to_list in Hin. apply list_elem_of_In in Hnd. by exists k, c, b.
  - intros (k&c&b&Hk&Hnd). exists (b_nodes b). rewrite <- !list_elem_of_In. split; [|done].
    apply list_elem_of_fmap. exists (k, (c, b)). split; [done|]. by apply elem_of_map_to_list.
Qed.
Lemma all_spares_elem m a : a ∈ all_spares m ↔ ∃ c conf, m !! c = Some conf ∧ a ∈ spares conf.
Proof.
  unfold all_spares. rewrite list_elem_of_In, in_concat. split.
  - intros (l&Hl&Ha). apply list_elem_of_In, list_elem_of_fmap in Hl as ([c conf]&->&Hin).
    apply elem_of_map_to_list in Hin. apply list_elem_of_In in Ha. by exists c, conf.
  - intros (c&conf&Hc&Ha). exists (spares conf). rewrite <- !list_elem_of_In. split; [|done].
    apply list_elem_of_fmap. exists (c, conf). split; [done|]. by apply elem_of_map_to_list.
Qed.
Lemma owned_split w k c b conf :
  w_bases w !! k = Some (c, b) → w_confs w !! c = Some conf → owned w ≡ₚ own conf (b_nodes b) ++ rest_own w k c.
Proof.
  intros Hb Hc. unfold owned, rest_own, rest_nodes, own.
  rewrite (all_nodes_delete _ _ _ _ Hb), (all_spares_delete _ _ _ Hc), fmap_app, <- !app_assoc. f_equiv.
  rewrite !(app_assoc _ _ (all_spares (delete c _))). f_equiv. apply Permutation_app_comm.
Qed.

Section string.
Context (w : World) (k c : nat) (s : St).
Context (Hw : world_inv w) (Hb : w_bases w !! k = Some (c, s_base s)) (Hc : w_confs w !! c = Some (s_conf s)).
Context (Hh : s_heap s = w_heap w).

Lemma world_others_eq : world_others w k = others_of (s_heap s) (rest_own w k c) (rest_nodes w k).
Proof. unfold world_others. by rewrite Hb, Hh. Qed.
Lemma world_shared : shared_inv (s_heap s) (own (s_conf s) (b_nodes (s_base s)) ++ rest_own w k c) (b_nodes (s_base s) ++ rest_nodes w k).
Proof.
  rewrite Hh. eapply shared_inv_perm; [|..|apply (wi_shared _ Hw)]; [by apply owned_split|by eapply all_nodes_delete].
Qed.
Lemma rest_nodes_elem nd : nd ∈ rest_nodes w k ↔ ∃ j d b, j ≠ k ∧ w_bases w !! j = Some (d, b) ∧ nd ∈ b_nodes b.
Proof.
  unfold rest_nodes. rewrite all_nodes_elem. split.
  - intros (j&d&b&[Hj ?]%lookup_delete_Some&?). by exists j, d, b.
  - intros (j&d&b&?&?&?). exists j, d, b. by rewrite lookup_delete_Some.
Qed.
Lemma rest_nodes_ok : Forall (λ nd, ∃ bsz, node_ok (s_heap s) bsz nd) (rest_nodes w k).
Proof.
  apply Forall_forall. intros nd (j&d&b&_&Hj&Hnd)%rest_nodes_elem. destruct (wi_base _ Hw j d b Hj) as (conf&_&Hok&_).
  rewrite Forall_forall in Hok. exists (buf_sz conf). rewrite Hh. by apply Hok.
Qed.
Lemma rest_addr : Forall (λ nd, nd_addr nd ∈ rest_own w k c) (rest_nodes w k).
Proof. apply Forall_forall. intros nd Hnd. apply elem_of_app. left. by apply list_elem_of_fmap_2. Qed.

Lemma string_focus : wf (OT := world_others w k) s.
Proof.
  destruct (wi_base _ Hw k c _ Hb) as (conf&Hc'&Hok&HB&HC). rewrite Hc in Hc'. injection Hc' as <-.
  split; [|done|done]. apply heap_inv_shared. rewrite Hh. split_and!; [by eapply wi_conf|done|].
  rewrite <- Hh, world_others_eq. apply focus; [apply world_shared|apply rest_nodes_ok].
Qed.
Lemma string_room n m : world_room n m w → room (OT := world_others w k) n m s.
Proof.
  intros [H1 H2]. split; [|by rewrite Hh]. destruct (rest_apart _ _ _ _ _ world_shared) as [Hd Ha].
  rewrite world_others_eq, (rest_size _ _ _ Hd Ha).
  rewrite (owned_split _ _ _ _ _ Hb Hc), length_app in H1. lia.
Qed.

Context (s' : St) (Hw' : wf (OT := world_others w k) s') (Hbsz : buf_sz (s_conf s') = buf_sz (s_conf s)).
Abbreviation w' := (put_st k s' w).

Lemma put_st_eq : w' = mkWorld (s_heap s') (<[c := s_conf s']> (w_confs w)) (<[k := (c, s_base s')]> (w_bases w)) (w_lives w).
Proof. unfold put_st. by rewrite Hb. Qed.

Lemma rest_shared : shared_inv (OT := others_of (s_heap s) (rest_own w k c) (rest_nodes w k))
  (s_heap s') (own (s_conf s') (b_nodes (s_base s'))) (b_nodes (s_base s')).
Proof. rewrite <- world_others_eq. by apply (wf_heap (OT := world_others w k)), heap_inv_shared in Hw' as (_&_&?). Qed.

Lemma rest_spare_mem d conf a : d ≠ c → w_confs w !! d = Some conf → a ∈ spares conf → is_Some (h_mem (s_heap s) !! a) →
  h_mem (s_heap s') !! a = h_mem (s_heap s) !! a.
Proof.
  intros Hne Hd Ha Hm. eapply rest_mem; [apply world_shared|apply rest_shared|done|].
  apply elem_of_app. left. apply elem_of_app. right. apply all_spares_elem. exists d, conf. by rewrite lookup_delete_ne.
Qed.
Lemma rest_base_nodes j d b bsz : j ≠ k → w_bases w !! j = Some (d, b) → Forall (node_ok (s_heap s) bsz) (b_nodes b) →
  Forall (node_ok (s_heap s') bsz) (b_nodes b) ∧ chain_bytes (s_heap s') (b_nodes b) = chain_bytes (s_heap s) (b_nodes b).
Proof.
  intros Hne Hj Hok. rewrite Forall_forall in Hok.
  assert (HR : ∀ nd, nd ∈ b_nodes b → node_ok (s_heap s') bsz nd ∧ node_bytes (s_heap s') nd = node_bytes (s_heap s) nd).
  { intros nd Hnd. assert (Hin : nd ∈ rest_nodes w k) by (apply rest_nodes_elem; by exists j, d, b).
    pose proof rest_addr as HA. rewrite Forall_forall in HA.
    destruct (rest_node _ _ _ _ _ world_shared rest_nodes_ok _ _ _ rest_shared bsz nd Hin (HA nd Hin) (Hok nd Hnd)) as (?&?&_).
    done. }
  split; [apply Forall_forall; intros; by apply HR|]. apply chain_frame. intros. by apply HR.
Qed.

Lemma owned_put : owned w' ≡ₚ own (s_conf s') (b_nodes (s_base s')) ++ rest_own w k c.
Proof.
  rewrite put_st_eq. set (wn := mkWorld _ _ _ _).
  rewrite (owned_split wn k c (s_base s') (s_conf s')) by (cbn; apply lookup_insert_eq). f_equiv.
  unfold rest_own, rest_nodes. cbn. by rewrite !delete_insert_eq.
Qed.
Lemma nodes_put : all_nodes (w_bases w') ≡ₚ b_nodes (s_base s') ++ rest_nodes w k.
Proof.
  rewrite put_st_eq. cbn. rewrite (all_nodes_delete _ k c (s_base s')) by apply lookup_insert_eq.
  unfold rest_nodes. by rewrite delete_insert_eq.
Qed.

Lemma string_unfocus : world_inv w'.
Proof.
  pose proof (wf_heap (OT := world_others w k) _ Hw') as Hi. apply heap_inv_shared in Hi as (Hcf&Hns&_).
  assert (HS : shared_inv (w_heap w') (owned w') (all_nodes (w_bases w'))).
  { eapply shared_inv_perm; [symmetry; apply owned_put|symmetry; apply nodes_put|]. rewrite put_st_eq at 1.
    eapply unfocus; [apply world_shared|apply rest_nodes_ok|apply rest_shared|apply rest_addr]. }
  rewrite put_st_eq in HS |- *. split; [..|exact HS]; cbn.
  - intros d conf. rewrite lookup_insert. case_decide as E; [by intros [= <-]|]. intros Hd.
    pose proof (wi_conf _ Hw d conf Hd) as [? ? Hb']. split; [done|done|]. rewrite Forall_forall in Hb' |- *.
    intros a Ha. destruct (Hb' a Ha) as (blk&Hm&?). exists blk. split; [|done]. rewrite <- Hm, <- Hh.
    eapply rest_spare_mem; [done|exact Hd| |rewrite Hh, Hm; done]. by rewrite (spares_perm NODE_BUF), elem_of_app; left.
  - intros j d b. rewrite lookup_insert. case_decide as E.
    + intros [= <- <-]. exists (s_conf s'). rewrite lookup_insert_eq. split; [done|]. split; [done|]. split; apply Hw'.
    + intros Hj. destruct (wi_base _ Hw j d b Hj) as (conf&Hd&Hok&HB&HC).
      assert (Hok' : Forall (node_ok (s_heap s') (buf_sz conf)) (b_nodes b)).
      { eapply rest_base_nodes; [done|exact Hj|by rewrite Hh]. }
      destruct (decide (d = c)) as [->|Hne].
      * exists (s_conf s'). rewrite lookup_insert_eq. split; [done|]. rewrite Hc in Hd. injection Hd as <-. by rewrite Hbsz.
      * exists conf. by rewrite lookup_insert_ne.
Qed.
Lemma string_others j t : j ≠ k → st_of w j = Some t →
  ∃ t', st_of w' j = Some t' ∧ s_base t' = s_base t ∧ st_content t' = st_content t.
Proof.
  intros Hne (d&Hj&Hd&Ht)%st_of_Some. destruct (wi_base _ Hw j d _ Hj) as (conf&Hd'&Hok&_).
  rewrite Hd in Hd'. injection Hd' as <-. rewrite <- Hh in Hok. rewrite put_st_eq.
  destruct (rest_base_nodes j d (s_base t) _ Hne Hj Hok) as [_ Hch].
  set (conf' := if decide (d = c) then s_conf s' else s_conf t).
  exists (mkSt (s_heap s') conf' (s_base t)). split_and!; [|done|].
  - apply st_of_Some. exists d. cbn. rewrite lookup_insert_ne by done. split_and!; [done| |done].
    unfold conf'. rewrite lookup_insert. destruct (decide (d = c)) as [->|]; [by rewrite decide_True|by rewrite decide_False by done].
  - unfold st_content, content. cbn. by rewrite Hch, Ht, Hh.
Qed.
End string.

(** ** The characters of all strings *)
Definition strings (w : World) : gmap nat (list byte_or_non) := (λ cb, content (w_heap w) cb.2) <$> w_bases w.
Lemma strings_lookup w k : world_inv w → strings w !! k = st_content <$> st_of w k.
Proof.
  intros Hw. unfold strings, st_of. rewrite lookup_fmap. destruct (w_bases w !! k) as [[c b]|] eqn:Hb; [|done]. cbn.
  destruct (wi_base _ Hw k c b Hb) as (conf&->&_). done.
Qed.
Lemma strings_put w k s s' :
  world_inv w → st_of w k = Some s → wf (OT := world_others w k) s' → buf_sz (s_conf s') = buf_sz (s_conf s) →
  world_inv (put_st k s' w) ∧ strings (put_st k s' w) = <[k := st_content s']> (strings w).
Proof.
  intros Hw Hs Hw' Hz. pose proof Hs as (c&Hb&Hc&Hh)%st_of_Some.
  assert (Hi : world_inv (put_st k s' w)) by by eapply string_unfocus.
  split; [done|]. apply map_eq. intros j. rewrite strings_lookup by done. destruct (decide (j = k)) as [->|Hne].
  - by rewrite lookup_insert_eq, (st_of_put_same w k s s').
  - rewrite lookup_insert_ne by done. rewrite strings_lookup by done. destruct (st_of w j) as [t|] eqn:Hj.
    + destruct (string_others w k c s Hw Hb Hc Hh s' Hw' j t Hne Hj) as (t'&->&_&Ht). cbn. by rewrite Ht.
    + unfold st_of in *. rewrite (put_st_eq w k c s Hb s'). cbn. rewrite lookup_insert_ne by done.
      destruct (w_bases w !! j) as [[d b]|] eqn:Hjb; [|done]. cbn in *.
      destruct (wi_base _ Hw j d b Hjb) as (conf&E&_). by rewrite E in Hj.
Qed.

(** ** The frame rule: what is proved of an operation on one string for any
    [Others] holds in a world, where it changes that string only. *)
Record string_step (w : World) (k : nat) (s' : St) (w' : World) : Prop := {
  st_world : world_inv w';
  st_put : w' = put_st k s' w;
  st_self : st_of w' k = Some s';
  st_strings : strings w' = <[k := st_content s']> (strings w);
  st_others : ∀ j t, j ≠ k → st_of w j = Some t →
    ∃ t', st_of w' j = Some t' ∧ s_base t' = s_base t ∧ st_content t' = st_content t }.

Lemma wwp_string {A} k (m : M A) w s (Q : A → St → Prop) :
  world_inv w → st_of w k = Some s →
  (wf (OT := world_others w k) s → wp m s (λ a s', wf (OT := world_others w k) s' ∧
     buf_sz (s_conf s') = buf_sz (s_conf s) ∧ Q a s')) →
  wwp (on_string k m) w (λ a w', ∃ s', string_step w k s' w' ∧ Q a s').
Proof.
  intros Hw Hs Hm. pose proof Hs as (c&Hb&Hc&Hh)%st_of_Some. eapply wwp_on_string; [exact Hs|].
  eapply wp_mono; [apply Hm; by eapply string_focus|]. intros a s' (Hw'&Hz&HQ). exists s'. split; [|done].
  destruct (strings_put w k s s' Hw Hs Hw' Hz) as [Hi Hst].
  split; [done|done|by eapply st_of_put_same|done|]. intros j t. by eapply string_others.
Qed.
Lemma string_step_refl w k s : world_inv w → st_of w k = Some s → string_step w k s w.
Proof.
  intros Hw Hs. split; [done|by rewrite (put_st_refl _ _ _ Hs)|done| |by intros j t _ Ht; exists t].
  rewrite insert_id; [done|]. by rewrite strings_lookup, Hs.
Qed.
Lemma put_st_put k s s' w : put_st k s' (put_st k s w) = put_st k s' w.
Proof.
  unfold put_st. destruct (w_bases w !! k) as [[c b]|] eqn:E; [|by rewrite E]. cbn. rewrite lookup_insert_eq.
  by rewrite !insert_insert_eq.
Qed.
Lemma string_step_trans w k s1 w1 s2 w2 : string_step w k s1 w1 → string_step w1 k s2 w2 → string_step w k s2 w2.
Proof.
  intros [_ P1 _ T1 O1] [W2 P2 S2 T2 O2]. split; [done|by rewrite P2, P1, put_st_put|done| |].
  - by rewrite T2, T1, insert_insert_eq.
  - intros j t Hj Ht. destruct (O1 j t Hj Ht) as (t1&H1&Eb&Ec). destruct (O2 j t1 Hj H1) as (t2&H2&Eb2&Ec2).
    exists t2. split; [done|]. by rewrite Eb2, Ec2.
Qed.
Lemma string_step_room w k s s' w' n m a b :
  world_inv w → st_of w k = Some s → string_step w k s' w' →
  zlen (own (s_conf s') (b_nodes (s_base s'))) ≤ zlen (own (s_conf s) (b_nodes (s_base s))) + n →
  refs_step m (h_refs (s_heap s)) (h_refs (s_heap s')) →
  world_room (n + a) (m + b) w → world_room a b w'.
Proof.
  intros Hw Hs [_ -> _ _ _] Hn Hm [H1 H2]. pose proof Hs as (c&Hb&Hc&Hh)%st_of_Some. split.
  - rewrite (owned_put w k c s Hb s'), length_app. rewrite (owned_split _ _ _ _ _ Hb Hc), length_app in H1. lia.
  - intros r ref. rewrite (put_st_eq w k c s Hb s'). cbn. intros Hr.
    destruct (refs_step_get _ _ _ _ _ Hm Hr) as (ref0&Hr0&_&_&?&_). rewrite Hh in Hr0. specialize (H2 r ref0 Hr0). lia.
Qed.
Lemma world_string_room n m w k s : world_inv w → st_of w k = Some s → world_room n m w → room (OT := world_others w k) n m s.
Proof. intros Hw (c&Hb&Hc&Hh)%st_of_Some. by eapply string_room. Qed.
End others.

Section others.
Context {OT : Others}.

(** Edits of strings, one after the other: which string, and what *)
Fixpoint world_edits_run (es : list (nat * edit)) : W (list bool) :=
  match es with
  | [] => mret []
  | (k, e) :: es => ok ← on_string k (edit_run e); oks ← world_edits_run es; mret (ok :: oks)
  end.
(** Each edit is of a string there is, and legal for its caller, who may not
    point a string at the nodes of another one. *)
Definition world_edit_ok (w : World) (k : nat) (e : edit) : Prop :=
  ∃ s, st_of w k = Some s ∧ edit_ok (OT := world_others w k) s e.
Fixpoint world_edits_ok (es : list (nat * edit)) (w : World) : Prop :=
  match es with
  | [] => True
  | (k, e) :: es => world_edit_ok w k e ∧
      ∀ ok w', on_string k (edit_run e) w = Some (ok, w') → world_edits_ok es w'
  end.
(** The same edits of lists; those that returned FALSE leave them alone. *)
Fixpoint world_edits_abs (es : list (nat * edit)) (oks : list bool) (m : gmap nat (list byte_or_non))
    : gmap nat (list byte_or_non) :=
  match es, oks with
  | (k, e) :: es, ok :: oks =>
    world_edits_abs es oks (if ok then alter (λ l, default l (edit_abs e l)) k m else m)
  | _, _ => m
  end.

Lemma world_edit_spec w k e :
  world_inv w → world_edit_ok w k e →
  wwp (on_string k (edit_run e)) w (λ ok w', world_inv w' ∧
    strings w' = if (ok : bool) then alter (λ l, default l (edit_abs e l)) k (strings w) else strings w).
Proof.
  intros Hw (s&Hs&He). eapply wwp_mono; [eapply (wwp_string k _ w s); [done|done|]|].
  - intros Hws. eapply wp_mono; [by apply (edit_run_spec (OT := world_others w k))|]. intros ok s' HP. split.
    + by eapply (edit_post_wf (OT := world_others w k)).
    + split; [by apply (edit_post_conf (OT := world_others w k)) in HP as [? _]|exact HP].
  - cbn beta. intros ok w' (s'&HS&HP). split; [by eapply st_world|]. rewrite (st_strings _ _ _ _ HS).
    apply (edit_content (OT := world_others w k)) in HP as ->.
    assert (E : strings w !! k = Some (st_content s)) by by rewrite strings_lookup, Hs.
    destruct ok; [|by rewrite insert_id]. apply map_eq. intros j. destruct (decide (j = k)) as [->|].
    + by rewrite lookup_insert_eq, lookup_alter_eq, E.
    + by rewrite lookup_insert_ne, lookup_alter_ne.
Qed.

Lemma world_edits_spec es : ∀ w, world_inv w → world_edits_ok es w →
  wwp (world_edits_run es) w (λ oks w', world_inv w' ∧ length oks = length es ∧
    strings w' = world_edits_abs es oks (strings w)).
Proof.
  induction es as [|[k e] es IH]; intros w Hw Hok; cbn [world_edits_run]; [by wwp_steps|].
  destruct Hok as [He Hnext]. pose proof (world_edit_spec w k e Hw He) as HE.
  apply wwp_run in HE as (ok&w1&Hrun&Hw1&Hst). wwp_step. unfold wwp at 1. rewrite Hrun. wwp_step.
  eapply wwp_mono; [by apply IH; [|apply (Hnext ok)]|]. intros oks w' (Hw'&Hl&Hc).
  wwp_step. split_and!; [done|cbn; lia|]. rewrite Hc, Hst. cbn. by destruct ok.
Qed.
End others.
