(* ===== verification/AddVstr.v ===== *)
(** * Adding a range of a string to a string (vstr_add_vstr of
    src/vstr_add.c, vstr__cache_cstr_cpy of src/vstr_cache.c).

    The two strings may be the same one.  A [Vstr_node *] into the string that
    is read is the address of the node: the nodes after it are found in the
    string as it is then.  The two types of addition that turn the buffers of
    the string they read into references (vstr__convert_buf_ref and
    vstr__add_all_ref) are arguments of the model. *)
From Stdlib Require Import ZArith Lia ZifyBool.
From stdpp Require Import base tactics list numbers option gmap.
From S2P Require Import Prelude State Wp Ref Cache Core Add Del World.

Inductive add_type :=
| VSTR_TYPE_ADD_DEF | VSTR_TYPE_ADD_BUF_PTR | VSTR_TYPE_ADD_BUF_REF
| VSTR_TYPE_ADD_ALL_REF | VSTR_TYPE_ADD_ALL_BUF.
#[export] Instance add_type_eq_dec : EqDecision add_type.
Proof. solve_decision. Defined.

(** The node at an address, with its index *)
Definition node_of (a : positive) : M (nat * Vstr_node) :=
  b ← get_base; i ← of_option (node_index a (b_nodes b)); nd ← node_at i; mret (i, nd).
(** [scan->next] *)
Definition next_node (a : positive) : M (option positive) :=
  '(i, _) ← node_of a; b ← get_base; mret (nd_addr <$> b_nodes b !! S i).

Definition vstr__add_vstr_node (base : nat) (pos : Z) (from : nat) (scan : positive) (off len : Z)
    (type : add_type) : W bool :=
  '(_, nd) ← on_string from (node_of scan);
  match nd_body nd with
  | Node_buf =>
    if decide (type = VSTR_TYPE_ADD_BUF_PTR) then on_string base (vstr_add_ptr pos (Ptr (nd_addr nd) off) len)
    else on_string base (vstr_add_buf pos (Ptr (nd_addr nd) off) len)
  | Node_non => on_string base (vstr_add_non pos len)
  | Node_ptr ptr =>
    if decide (type = VSTR_TYPE_ADD_ALL_BUF) then on_string base (vstr_add_buf pos (ptr_add ptr off) len)
    else on_string base (vstr_add_ptr pos (ptr_add ptr off) len)
  | Node_ref r ref_off =>
    let off := u64 (off + ref_off) in
    if decide (type = VSTR_TYPE_ADD_ALL_BUF) then
      ref ← on_string from (ref_at r);
      on_string base (vstr_add_buf pos (ptr_add (r_ptr ref) off) len)
    else on_string base (vstr_add_ref pos r off len)
  end.

(** The first node is read from [off] on, the others whole; 0 if an addition fails *)
Fixpoint vstr__add_vstr_nodes (fuel : nat) (base : nat) (pos : Z) (from : nat) (scan : option positive)
    (off len : Z) (type : add_type) : W Z :=
  if decide (len = 0) then mret pos
  else match fuel, scan with
  | S fuel, Some a =>
    '(_, nd) ← on_string from (node_of a);
    let tmp := Z.min (u64 (nd_len nd - off)) len in
    ok ← vstr__add_vstr_node base pos from a off tmp type;
    if negb ok then mret 0
    else
      scan' ← on_string from (next_node a);
      vstr__add_vstr_nodes fuel base (u64 (pos + tmp)) from scan' 0 (len - tmp) type
  | _, _ => wundef
  end.

(** The C string cached of the range goes with it. *)
Definition cstr_cpy_wanted (b fb : Vstr_base) (len from_pos : Z) : option (cache_data_cstr * cache_data_cstr) :=
  if negb (cache_available b) then None
  else match cache_get_cstr b, cache_get_cstr fb with
  | Some data, Some from_data =>
    if decide ((is_Some (cc_ref data) ∧ cc_len data ≠ 0) ∨ cc_ref from_data = None ∨ cc_len from_data = 0) then None
    else if decide (from_pos ≤ vstr_sc_poslast (cc_pos from_data) (cc_len from_data) ∧
                    vstr_sc_poslast (cc_pos from_data) (cc_len from_data) ≤ vstr_sc_poslast from_pos len)
    then Some (data, from_data) else None
  | _, _ => None
  end.
Definition vstr__cache_cstr_cpy (base : nat) (pos len : Z) (from : nat) (from_pos : Z) : W () :=
  b ← on_string base get_base; fb ← on_string from get_base;
  match cstr_cpy_wanted b fb len from_pos with
  | None => mret tt
  | Some (data, from_data) =>
    let before := bool_decide (from_pos < cc_pos from_data) in
    let begskip := if before then u64 (cc_pos from_data - from_pos) else 0 in
    let offskip := if before then 0 else u64 (from_pos - cc_pos from_data) in
    on_string base (
      vstr_ref_del (cc_ref data);;
      match cc_ref from_data with
      | None => undef
      | Some r =>
        r ← vstr_ref_add r;
        upd_cache (c_set_cstr (Some (mkCstr (u64 (pos + 1 + begskip)) (u64 (cc_len from_data - offskip))
          (Some r) (cc_sz from_data) (u64 (cc_off from_data + offskip)))))
      end)
  end.

Section add_vstr.
Context (vstr__convert_buf_ref : nat → Z → Z → W bool).
Context (vstr__add_all_ref : nat → Z → nat → Z → Z → W bool).

(** [fail_beg] and [fail_end] *)
Definition add_vstr_fail_beg (base from : nat) : W bool :=
  on_string from (upd_conf (set_malloc_bad true));; on_string base (upd_conf (set_malloc_bad true));; mret false.
Definition add_vstr_fail_end (base from : nat) (orig_pos orig_base_len : Z) : W bool :=
  b ← on_string base get_base;
  on_string base (vstr_del (orig_pos + 1) (u64 (b_len b - orig_base_len)));;
  add_vstr_fail_beg base from.

(** A buffer that is copied into its own string is split where the copy
    begins, so that the copy does not overlap what it reads. *)
Definition add_vstr_split (base from : nat) (i : nat) (from_pos : Z) : W (option (positive * Z)) :=
  fb ← on_string from get_base;
  scan ← on_string from (node_at i);
  if decide (base = from ∧ nd_type scan = NODE_BUF ∧ from_pos ≠ (if decide (i = 0%nat) then b_used fb else 0) + 1) then
    ok ← on_string from (vstr__base_split_node i (from_pos - 1));
    if negb ok then mret None
    else nd ← on_string from (node_at (S i)); mret (Some (nd_addr nd, 1))
  else mret (Some (nd_addr scan, from_pos)).

(** The fuel of both loops: every node that is added has a character. *)
Definition vstr_add_vstr (base : nat) (pos : Z) (from : nat) (from_pos len : Z) (type : add_type) : W bool :=
  b ← on_string base get_base; fb ← on_string from get_base;
  let orig_pos := pos in let orig_from_pos := from_pos in let orig_len := len in
  let orig_base_len := b_len b in
  if decide (b_len b < pos ∨ (b_len fb < from_pos ∧ len ≠ 0)) then mret false
  else if decide (len = 0) then mret true
  else if decide (type = VSTR_TYPE_ADD_ALL_REF) then
    ok ← vstr__add_all_ref base pos from from_pos len;
    if negb ok then add_vstr_fail_beg base from else mret true
  else
    ok ← (if decide (type = VSTR_TYPE_ADD_BUF_REF) then vstr__convert_buf_ref from from_pos len else mret true);
    if negb ok then add_vstr_fail_beg base from
    else
      '(i, from_pos, _) ← on_string from (vstr_base__pos from_pos true);
      start ← add_vstr_split base from i from_pos;
      match start with
      | None => add_vstr_fail_beg base from
      | Some (scan, from_pos) =>
        (* the range is around the position: the part before it first *)
        r ← (if decide (base = from ∧ orig_from_pos ≤ orig_pos ∧ orig_pos < u64 (orig_from_pos + orig_len - 1)) then
               let before := vstr_sc_posdiff orig_from_pos orig_pos in
               pos ← vstr__add_vstr_nodes (Z.to_nat before) base pos from (Some scan) (from_pos - 1) before type;
               if decide (pos = 0) then mret None
               else
                 '(i, from_pos, _) ← on_string from (vstr_base__pos (u64 (orig_from_pos + before * 2)) true);
                 nd ← on_string from (node_at i);
                 mret (Some (pos, nd_addr nd, from_pos, len - before))
             else mret (Some (pos, scan, from_pos, len)));
        match r with
        | None => add_vstr_fail_end base from orig_pos orig_base_len
        | Some (pos, scan, from_pos, len) =>
          pos ← vstr__add_vstr_nodes (Z.to_nat len) base pos from (Some scan) (from_pos - 1) len type;
          if decide (pos = 0) then add_vstr_fail_end base from orig_pos orig_base_len
          else vstr__cache_cstr_cpy base orig_pos orig_len from orig_from_pos;; mret true
        end
      end.
End add_vstr.
