(* ===== verification/AddVstrSpec.v ===== *)
(** * Adding a range of another string inserts its characters and leaves the
    other string as it is. *)
From Stdlib Require Import ZArith Lia ZifyBool.
From stdpp Require Import base tactics list numbers option gmap.
From S2P Require Import Prelude State Wp Ref Cache Core Base Add Del Iter IterLemmas Inv PosLemmas SpareLemmas SplitLemmas CacheLemmas AddLemmas StringLemmas AddSpec AddOps AddTheorems DelTheorems DelAtomic Frame World WorldInv AddVstr.

Section others.
Context {OT : Others}.

(** ** What the nodes of the other string show *)
Section source.
Context (w : World) (base from : nat) (s t : St).
Context (Hw : world_inv w) (Hs : st_of w base = Some s) (Ht : st_of w from = Some t) (Hne : base ≠ from).
Abbreviation OB := (world_others w base).

Lemma from_heap : s_heap t = s_heap s ∧ s_heap s = w_heap w.
Proof. apply st_of_Some in Hs as (?&_&_&->), Ht as (?&_&_&->). done. Qed.
Lemma from_wf : wf (OT := world_others w from) t.
Proof. apply st_of_Some in Ht as (c&Hb&Hc&Hh). by eapply string_focus. Qed.
Lemma base_wf : wf (OT := OB) s.
Proof. apply st_of_Some in Hs as (c&Hb&Hc&Hh). by eapply string_focus. Qed.

Context (nd : Vstr_node) (Hnd : nd ∈ b_nodes (s_base t)).

Lemma from_node_ok : node_ok (s_heap s) (buf_sz (s_conf t)) nd.
Proof.
  pose proof (hi_nodes _ _ _ (wf_heap (OT := world_others w from) _ from_wf)) as H. rewrite Forall_forall in H.
  destruct from_heap as [<- _]. by apply H.
Qed.
Lemma from_node_in : ∃ c, w_bases w !! base = Some (c, s_base s) ∧ w_confs w !! c = Some (s_conf s) ∧ s_heap s = w_heap w ∧
  nd ∈ rest_nodes w base ∧ nd_addr nd ∈ rest_own w base c.
Proof.
  pose proof Hs as (c&Hb&Hc&Hh)%st_of_Some. pose proof Ht as (d&Hb'&_)%st_of_Some. exists c.
  assert (Hin : nd ∈ rest_nodes w base) by (apply rest_nodes_elem; by exists from, d, (s_base t)).
  split_and!; [done..|]. apply elem_of_app. left. by apply list_elem_of_fmap_2.
Qed.
Lemma from_node_apart : nd_addr nd ∉ st_own s.
Proof.
  destruct from_node_in as (c&Hb&Hc&Hh&_&Ha). pose proof (si_nodup _ _ _ (world_shared w base c s Hw Hb Hc Hh)) as Hd.
  apply NoDup_app in Hd as (_&Hd&_). intros Hin. by apply (Hd _ Hin).
Qed.
(** What it points to is no one's node, and is freed by its own reference only. *)
Lemma from_node_ext p : node_ext (h_refs (s_heap s)) nd = Some p →
  (p_blk p ∉ st_own s) ∧ stays (OT := OB) (s_heap s) (node_ref_of nd) (p_blk p).
Proof.
  intros Hp. destruct from_node_in as (c&Hb&Hc&Hh&Hin&_).
  pose proof (world_shared w base c s Hw Hb Hc Hh) as S.
  assert (Hin' : nd ∈ b_nodes (s_base s) ++ rest_nodes w base) by (apply elem_of_app; by right).
  destruct (si_alias _ _ _ S nd p Hin' Hp) as [H1 H2]. rewrite elem_of_app in H1. split; [unfold st_own; tauto|]. split.
  - rewrite (world_others_eq w base c s Hb Hh). cbn. rewrite elem_of_union, elem_of_list_to_set. tauto.
  - intros r ref Hr Hpos Hf. destruct (si_frees _ _ _ S r ref Hr Hpos) as [_ Hfr]. destruct (Hfr _ Hf) as [_ He].
    by apply (He nd p).
Qed.

Lemma from_source off n :
  0 ≤ off → 0 < n → off + n ≤ nd_len nd →
  let d := ztake n (zdrop off (node_bytes (s_heap s) nd)) in
  zlen d = n ∧
  match nd_body nd with
  | Node_buf => buf_src (s_heap s) (st_own s) (Ptr (nd_addr nd) off) d
  | Node_non => d = zrep n None
  | Node_ptr p => ptr_src (OT := OB) (s_heap s) (st_own s) (ptr_add p off) d
  | Node_ref r o => ref_src (OT := OB) r (s_heap s) (st_own s) (off + o) d ∧
      ∃ ref, h_refs (s_heap s) !! r = Some ref ∧ buf_src (s_heap s) (st_own s) (ptr_add (r_ptr ref) (off + o)) d
  end.
Proof.
  intros Hoff Hn Hle d. pose proof from_node_ok as Hok. pose proof Hok as [Hl2 _].
  assert (Hz : zlen d = n).
  { unfold d. rewrite length_ztake, length_zdrop. pose proof (node_bytes_length _ _ _ Hok). lia. }
  split; [done|]. pose proof from_node_apart as Hap. pose proof from_node_ext as Hex.
  pose proof (node_chunk s _ nd off n Hok Hoff ltac:(lia) Hle) as HC. fold d in HC.
  unfold node_ptr in HC. apply wp_unbind in HC. unfold wp in HC. cbn in HC.
  destruct nd as [a len [| |p|r o]] eqn:End; cbn in HC, Hap, Hex |- *.
  - destruct HC as (_&q&bs&[= <-]&Hl&->). exists bs. rewrite length_fmap in Hz. rewrite Hz. done.
  - by destruct HC as (_&_&->).
  - destruct HC as (_&q&bs&[= <-]&Hl&->). destruct (Hex p eq_refl) as [H1 H2]. split; [|done].
    exists bs. rewrite length_fmap in Hz. by rewrite Hz.
  - destruct Hok as (_&Ho&Hm&ref&Hr&_). cbn in Ho, Hm. rewrite Hr in HC, Hex. cbn in HC.
    destruct HC as (_&q&bs&[= <-]&Hl&->). destruct (Hex _ eq_refl) as [H1 H2]. cbn in H1.
    assert (Hb : buf_src (s_heap s) (st_own s) (ptr_add (r_ptr ref) (off + o)) (Some <$> bs)).
    { exists bs. rewrite length_fmap in Hz. rewrite Hz. rewrite ptr_add_add, (Z.add_comm o) in Hl. done. }
    split; [|by exists ref]. destruct (hi_count _ _ _ (wf_heap (OT := world_others w from) _ from_wf) r) as (ref'&Hr'&Hc).
    { pose proof (ref_count_pos r _ _ Hnd eq_refl). pose proof (held_nonneg (OT := world_others w from) r). lia. }
    destruct from_heap as [Eh _]. rewrite Eh, Hr in Hr'. injection Hr' as <-.
    pose proof (ref_count_pos r _ _ Hnd eq_refl). pose proof (held_nonneg (OT := world_others w from) r).
    unfold ref_src, byte_or_non in *. cbn [nd_len] in Hle, Hl2. split_and!; [lia|lia|lia|exists ref; split_and!; [done|lia|done|done]].
Qed.

(** ** One node *)
Lemma node_of_spec i : b_nodes (s_base t) !! i = Some nd →
  wp (node_of (nd_addr nd)) t (λ r t', t' = t ∧ r = (i, nd)).
Proof.
  intros Hi. unfold node_of, node_at. wp_steps. eapply wp_of_option.
  { eapply node_index_lookup; [|exact Hi|done].
    eapply (heap_inv_addrs (OT := world_others w from)), (wf_heap (OT := world_others w from)), from_wf. }
  cbn beta. wp_steps. eapply wp_of_option; [exact Hi|]. by wp_steps.
Qed.
End source.

Lemma add_needs_le {C} (op : add_op C) `{!AddOp (OT := OT) op} len s : wf s → 0 ≤ len → add_needs op len s ≤ 2 + len.
Proof.
  intros Hw Hl. pose proof (ao_max (op := op) (s_conf s) (hi_bsz _ _ _ (wf_heap _ Hw))).
  unfold add_needs, nodes_needed. pose proof (Z.div_le_upper_bound len (op_max op (s_conf s)) len ltac:(lia) ltac:(nia)).
  case_decide; lia.
Qed.
Lemma add_full_weaken k k' s pos d ok s' : add_full k s pos d ok s' → k ≤ k' → add_full k' s pos d ok s'.
Proof.
  intros (HP&[? ? ? ?]&HB) Hk. split; [done|]. split; [|done]. split; [done|lia|by eapply refs_step_weaken|done].
Qed.
Lemma add_full_wf k s pos d ok s' : wf s → add_full k s pos d ok s' →
  wf s' ∧ buf_sz (s_conf s') = buf_sz (s_conf s).
Proof.
  intros Hw (HP&HU&_). split; [|by apply HU]. unfold add_post in HP. case_decide; [by destruct HP as [_ ->]|tauto].
Qed.

(** How much adding [n] characters of a node may use *)
Definition node_uses (n : Z) : Z := 2 + n.
Lemma add_room_uses {C} (op : add_op C) `{!AddOp (OT := OT) op} len s : wf s → 0 ≤ len →
  room (node_uses len) (node_uses len) s → add_room op len s.
Proof.
  intros Hw Hl [H1 H2]. pose proof (add_needs_le op len s Hw Hl) as Hn. unfold node_uses, add_room, room in *. split; [lia|].
  intros r ref Hr. specialize (H2 r ref Hr). lia.
Qed.
Lemma wp_add_uses {C} (op : add_op C) `{!AddOp (OT := OT) op} m s pos d len : wf s → zlen d = len →
  wp m s (λ ok s', add_full (add_needs op len s) s pos d ok s') →
  wp m s (λ ok s', add_full (node_uses len) s pos d ok s').
Proof.
  intros Hw Hz Hm. eapply wp_mono; [exact Hm|]. intros ok s' HF. eapply add_full_weaken; [exact HF|].
  unfold node_uses. rewrite <- Hz. apply (add_needs_le op); [done|lia].
Qed.
End others.

Section others.
Context {OT : Others}.

Lemma vstr__add_vstr_node_spec w base from s t i nd pos off n type :
  world_inv w → st_of w base = Some s → st_of w from = Some t → base ≠ from →
  b_nodes (s_base t) !! i = Some nd → 0 ≤ off → 0 < n → off + n ≤ nd_len nd →
  0 ≤ pos → b_len (s_base s) + n ≤ VSTR_MAX_NODE_ALL → world_room (node_uses n) (node_uses n) w →
  type ≠ VSTR_TYPE_ADD_BUF_PTR →
  wwp (vstr__add_vstr_node base pos from (nd_addr nd) off n type) w (λ ok w', ∃ s', string_step w base s' w' ∧
    add_full (OT := world_others w base) (node_uses n) s pos (ztake n (zdrop off (node_bytes (s_heap s) nd))) ok s').
Proof.
  intros Hw Hs Ht Hne Hi Hoff Hn Hle Hpos Hmax Hroom Hty. unfold vstr__add_vstr_node.
  assert (Hin : nd ∈ b_nodes (s_base t)) by by eapply list_elem_of_lookup_2.
  wwp_step. eapply wwp_reads; [exact Ht|]. wp_apply (node_of_spec w from t Hw Ht nd i Hi).
  intros r t' [-> ->]. split; [done|]. cbn beta iota.
  destruct (from_source w base from s t Hw Hs Ht Hne nd Hin off n Hoff Hn Hle) as [Hz Hsrc].
  set (d := ztake n (zdrop off (node_bytes (s_heap s) nd))) in *.
  assert (Hgo : ∀ m : M bool, (wf (OT := world_others w base) s → room (OT := world_others w base) (node_uses n) (node_uses n) s →
      wp m s (λ ok s', add_full (OT := world_others w base) (node_uses n) s pos d ok s')) →
    wwp (on_string base m) w (λ ok w', ∃ s', string_step w base s' w' ∧ add_full (OT := world_others w base) (node_uses n) s pos d ok s')).
  { intros m Hm. apply (wwp_string base m w s); [done|done|]. intros Hws.
    pose proof (world_string_room _ _ _ _ _ Hw Hs Hroom) as Hrm.
    eapply wp_mono; [by apply Hm|]. intros ok s' HF. destruct (add_full_wf (OT := world_others w base) _ _ _ _ _ _ Hws HF). done. }
  clearbody d. subst n. revert Hsrc. destruct (nd_body nd) as [| |p|r o]; intros Hsrc.
  - rewrite decide_False by done. apply Hgo. intros Hws Hrm. apply (wp_add_uses (OT := world_others w base) add_buf_op); [done..|].
    apply (vstr_add_buf_full (OT := world_others w base)); [done..|]. apply (add_room_uses (OT := world_others w base) add_buf_op); [done|lia|done].
  - apply Hgo. intros Hws Hrm. apply (wp_add_uses (OT := world_others w base) add_non_op); [done..|]. pose proof (vstr_add_non_full (OT := world_others w base) s pos (zlen d)) as HN.
    rewrite <- Hsrc in HN. apply HN; [done|done|lia|]. apply (add_room_uses (OT := world_others w base) add_non_op); [done|lia|done].
  - case_decide; apply Hgo; intros Hws Hrm.
    + apply (wp_add_uses (OT := world_others w base) add_buf_op); [done..|].
      apply (vstr_add_buf_full (OT := world_others w base)); [done|done|apply Hsrc|]. apply (add_room_uses (OT := world_others w base) add_buf_op); [done|lia|done].
    + apply (wp_add_uses (OT := world_others w base) add_ptr_op); [done..|].
      apply (vstr_add_ptr_full (OT := world_others w base)); [done|done|done| |done]. apply (add_room_uses (OT := world_others w base) add_ptr_op); [done|lia|done].
  - destruct Hsrc as (Hrs&ref&Hr&Hbs). pose proof Hrs as (Ho&Hu&_).
    rewrite u64_id by (unfold UINT_MAX, SIZE_MAX in *; lia). case_decide.
    + wwp_step. eapply wwp_reads; [exact Ht|]. unfold ref_at. wp_steps. eapply wp_of_option.
      { destruct (from_heap w base from s t Hs Ht) as [-> _]. exact Hr. }
      split; [done|]. apply Hgo. intros Hws Hrm. apply (wp_add_uses (OT := world_others w base) add_buf_op); [done..|].
      apply (vstr_add_buf_full (OT := world_others w base)); [done|done|done|]. apply (add_room_uses (OT := world_others w base) add_buf_op); [done|lia|done].
    + apply Hgo. intros Hws Hrm. apply (wp_add_uses (OT := world_others w base) (add_ref_op r)); [done..|].
      apply (vstr_add_ref_full (OT := world_others w base)); [done|done|done| |done]. apply (add_room_uses (OT := world_others w base) (add_ref_op r)); [done|lia|done].
Qed.
End others.

(** ** The nodes of the range, one after the other *)
Section loop.
Context {OT : Others}.

Lemma ztake_add {A} n m (l : list A) : 0 ≤ n → 0 ≤ m → ztake (n + m) l = ztake n l ++ ztake m (zdrop n l).
Proof.
  intros Hn Hm. rewrite <- (ztake_zdrop n (ztake (n + m) l)), ztake_ztake, zdrop_ztake by lia. f_equal; f_equal; lia.
Qed.

(** A part of a node is a part of the characters of the string. *)
Lemma node_substr t i nd off n :
  wf t → b_nodes (s_base t) !! i = Some nd → 0 ≤ off → 0 ≤ n → off + n ≤ nd_len nd →
  let q := sum_len (take i (b_nodes (s_base t))) + off - b_used (s_base t) in 0 ≤ q →
  ztake n (zdrop off (node_bytes (s_heap t) nd)) = ztake n (zdrop q (st_content t)).
Proof.
  intros Hw Hi Hoff Hn Hle q Hq. pose proof (hi_nodes _ _ _ (wf_heap _ Hw)) as Hok.
  pose proof (wf_used_nonneg _ Hw) as Hu. unfold st_content, content. rewrite zdrop_zdrop by lia.
  pose proof (list_split_at _ _ _ Hi) as Es. rewrite Es in Hok. apply Forall_app in Hok as [Hok1 Hok2].
  apply Forall_cons in Hok2 as [Hnd _]. rewrite Es at 1. rewrite chain_bytes_app, chain_bytes_cons.
  pose proof (chain_bytes_length _ _ _ Hok1) as Hz1. pose proof (node_bytes_length _ _ _ Hnd) as Hz2.
  rewrite zdrop_app_r by lia. rewrite Hz1. unfold q.
  replace (_ + _ - _) with off by lia. rewrite zdrop_app_l by lia. rewrite ztake_app_l; [done|].
  rewrite length_zdrop. lia.
Qed.

(** [m] of the characters [D] were put in after [pos] characters. *)
Record some_added (s : St) (pos : Z) (D : list byte_or_non) (m : Z) (s' : St) : Prop := {
  sm_content : st_content s' = ztake pos (st_content s) ++ ztake m D ++ zdrop pos (st_content s);
  sm_conf : conf_same (s_conf s) (s_conf s');
  sm_boundary : 0 < m ∨ boundary s pos → boundary s' (pos + m) }.

Lemma some_added_refl s pos D : some_added s pos D 0 s.
Proof.
  split; [by rewrite (ztake_0 0), app_nil_l, ztake_zdrop|apply conf_same_refl|].
  intros [?|?]; [lia|by rewrite Z.add_0_r].
Qed.
Lemma some_added_none s pos D D' s' : some_added s pos D 0 s' → some_added s pos D' 0 s'.
Proof. intros [C F B]. split; [by rewrite C, !(ztake_0 0)|done|done]. Qed.
Lemma some_added_trans s pos D m s1 m' s2 :
  0 ≤ pos ≤ zlen (st_content s) → 0 < m ≤ zlen D → 0 ≤ m' →
  some_added s pos D m s1 → some_added s1 (pos + m) (zdrop m D) m' s2 → some_added s pos D (m + m') s2.
Proof.
  intros Hpos Hm Hm' [C1 F1 B1] [C2 F2 B2]. assert (Hz : zlen (ztake m D) = m) by (rewrite length_ztake; lia). split.
  - rewrite C2, C1. pose proof (insert_insert (st_content s) pos (ztake m D) (ztake m' (zdrop m D)) Hpos) as HI.
    cbv zeta in HI. rewrite Hz in HI. rewrite HI. by rewrite (ztake_add m m') by lia.
  - by eapply conf_same_trans.
  - intros _. rewrite Z.add_assoc. apply B2. right. apply B1. left. lia.
Qed.
Lemma add_full_some k s pos D m ok s' :
  0 ≤ pos ≤ b_len (s_base s) → 0 < m ≤ zlen D → add_full k s pos (ztake m D) ok s' →
  some_added s pos D (if ok then m else 0) s'.
Proof.
  intros Hpos Hm (HP&HU&HB&HF). assert (Hz : zlen (ztake m D) = m) by (rewrite length_ztake; lia). rewrite Hz in HB.
  unfold add_post in HP. rewrite decide_False in HP by lia. destruct HP as (_&_&HP). destruct ok.
  - split; [done|apply HU|]. intros _. apply HB; [done|lia].
  - destruct HP as [HP _]. split; [|apply HU|].
    + by rewrite HP, (ztake_0 0), app_nil_l, ztake_zdrop.
    + rewrite Z.add_0_r. intros [?|?]; [lia|by apply HF].
Qed.

End loop.

Section nodes.
Context {OT : Others}.

Definition nodes_done (w : World) (base : nat) (s : St) (pos L : Z) (D : list byte_or_non) (r : Z) (w' : World) : Prop :=
  ∃ s' m, string_step w base s' w' ∧ some_added s pos D m s' ∧ 0 ≤ m ≤ L ∧
    (r = 0 ∨ (r = pos + L ∧ m = L ∧ malloc_bad (s_conf s') = malloc_bad (s_conf s))) ∧
    (∀ a b, world_room (3 * L + a) (3 * L + b) w → world_room a b w').

Lemma next_node_spec w from t i nd : world_inv w → st_of w from = Some t → b_nodes (s_base t) !! i = Some nd →
  wp (next_node (nd_addr nd)) t (λ r t', t' = t ∧ r = nd_addr <$> b_nodes (s_base t) !! S i).
Proof.
  intros Hw Ht Hi. unfold next_node. wp_step. wp_apply (node_of_spec w from t Hw Ht nd i Hi).
  intros r t' [-> ->]. by wp_steps.
Qed.

Lemma vstr__add_vstr_nodes_spec base from type fuel : base ≠ from → type ≠ VSTR_TYPE_ADD_BUF_PTR →
  ∀ w s t i off pos L,
  world_inv w → st_of w base = Some s → st_of w from = Some t →
  let q := sum_len (take i (b_nodes (s_base t))) + off - b_used (s_base t) in
  0 ≤ q → 0 ≤ L → q + L ≤ b_len (s_base t) → 0 ≤ off →
  (∀ nd, b_nodes (s_base t) !! i = Some nd → off < nd_len nd) → L ≤ Z.of_nat fuel →
  0 ≤ pos ≤ b_len (s_base s) → 0 < pos + L → b_len (s_base s) + L ≤ VSTR_MAX_NODE_ALL →
  world_room (3 * L) (3 * L) w →
  wwp (vstr__add_vstr_nodes fuel base pos from (nd_addr <$> b_nodes (s_base t) !! i) off L type) w
    (λ r w', nodes_done w base s pos L (zdrop q (st_content t)) r w').
Proof.
  intros Hne Hty. induction fuel as [|fuel IH]; intros w s t i off pos L Hw Hs Ht q Hq HL Hle Hoff Hnd Hfuel Hpos Hr Hmax Hroom.
  all: pose proof (from_wf w from t Hw Ht) as Hwt; pose proof (base_wf w base s Hw Hs) as Hws.
  all: cbn [vstr__add_vstr_nodes].
  { assert (L = 0) as -> by lia. rewrite decide_True by done. wwp_step. exists s, 0.
    split_and!; [by apply string_step_refl|apply some_added_refl|lia|lia|right; split_and!; [lia|done|done]|done]. }
  case_decide as HL0; [subst L|].
  { wwp_step. exists s, 0. split_and!; [by apply string_step_refl|apply some_added_refl|lia|lia|right; split_and!; [lia|done|done]|done]. }
  pose proof (bi_len _ (wf_base (OT := world_others w from) _ Hwt)) as Hbl. pose proof (wf_lens (OT := world_others w from) _ Hwt) as Hlens.
  destruct (b_nodes (s_base t) !! i) as [nd|] eqn:Hi.
  2:{ exfalso. apply lookup_ge_None in Hi. unfold q in Hle. rewrite take_ge in Hle by lia. lia. }
  cbn [fmap option_fmap option_map]. specialize (Hnd nd eq_refl).
  wwp_step. eapply wwp_reads; [exact Ht|]. wp_apply (node_of_spec w from t Hw Ht nd i Hi).
  intros r t' [-> ->]. split; [done|]. cbn beta iota.
  pose proof (hi_nodes _ _ _ (wf_heap (OT := world_others w from) _ Hwt)) as Hok. rewrite Forall_lookup in Hok.
  pose proof (Hok _ _ Hi) as [Hl _]. unfold VSTR_MAX_NODE_ALL in Hl, Hmax.
  rewrite (u64_id (nd_len nd - off)) by (unfold SIZE_MAX; lia). set (tmp := Z.min (nd_len nd - off) L).
  assert (Htmp : 0 < tmp ≤ L ∧ off + tmp ≤ nd_len nd) by (unfold tmp; lia).
  assert (Hwhole : tmp < L → off + tmp = nd_len nd) by (unfold tmp; lia). clearbody tmp.
  pose proof (wf_content_length (OT := world_others w from) _ Hwt) as Hct.
  pose proof (wf_content_length (OT := world_others w base) _ Hws) as Hcs.
  set (D := zdrop q (st_content t)).
  assert (HD : zlen D = b_len (s_base t) - q) by (unfold D; rewrite length_zdrop; lia).
  assert (Hchunk : ztake tmp (zdrop off (node_bytes (s_heap s) nd)) = ztake tmp D).
  { destruct (from_heap w base from s t Hs Ht) as [<- _].
    by apply (node_substr (OT := world_others w from) t i nd off tmp Hwt Hi); [|lia|lia|]. }
  wwp_step. eapply wwp_mono.
  { apply (vstr__add_vstr_node_spec w base from s t i nd pos off tmp type); try done; try (unfold VSTR_MAX_NODE_ALL; lia).
    unfold node_uses. destruct Hroom as [R1 R2]. split; [lia|]. intros r ref Hrr. specialize (R2 r ref Hrr). lia. }
  rewrite Hchunk. intros ok w1 (s1&HS&HF). cbn beta.
  pose proof (add_full_some (OT := world_others w base) _ s pos D tmp ok s1 Hpos ltac:(lia) HF) as HM.
  assert (Hroom1 : ∀ a b, world_room (3 * L + a) (3 * L + b) w → world_room (3 * (L - tmp) + a) (3 * (L - tmp) + b) w1).
  { intros a b Hab. destruct HF as (_&[_ Ho Hrf _]&_). unfold node_uses in *.
    eapply (string_step_room w base s s1 w1 (3 * tmp) (3 * tmp)); [done|done|done|unfold st_own in Ho; lia|eapply refs_step_weaken; [exact Hrf|lia]|].
    destruct Hab as [A1 A2]. split; [lia|]. intros r ref Hrr. specialize (A2 r ref Hrr). lia. }
  destruct ok; cbn [negb].
  2:{ wwp_steps. exists s1, 0. split_and!; [done|done|lia|lia|by left|].
      intros a b Hab. specialize (Hroom1 a b Hab). destruct Hroom1 as [A1 A2]. split; [lia|].
      intros r ref Hrr. specialize (A2 r ref Hrr). lia. }
  pose proof (st_world _ _ _ _ HS) as Hw1. pose proof (st_self _ _ _ _ HS) as Hs1.
  destruct (st_others _ _ _ _ HS from t ltac:(done) Ht) as (t1&Ht1&Eb&Ec).
  pose proof (base_wf w1 base s1 Hw1 Hs1) as Hws1.
  pose proof (wf_content_length (OT := world_others w1 base) _ Hws1) as Hcs1.
  rewrite (sm_content _ _ _ _ _ HM), !length_app, !Nat2Z.inj_add, !length_ztake, length_zdrop in Hcs1.
  wwp_step. eapply wwp_reads; [exact Ht1|]. wp_apply (next_node_spec w1 from t1 i nd Hw1 Ht1); [by rewrite Eb|].
  intros r t' [-> ->]. split; [done|]. rewrite (u64_id (pos + tmp)) by (unfold SIZE_MAX; lia).
  pose proof (sum_len_take_S _ _ _ Hi) as HS2. pose proof (sum_len_split (S i) (b_nodes (s_base t))) as HS3.
  pose proof (sum_len_nonneg _ (lens_pos_drop _ (S i) Hlens)) as HS4.
  eapply wwp_mono.
  { apply (IH w1 s1 t1 (S i) 0 (pos + tmp) (L - tmp)); try done; rewrite ?Eb; try (unfold VSTR_MAX_NODE_ALL; lia).
    - intros nd2 Hi2. assert (Hp2 := Forall_lookup_1 _ _ _ _ Hlens Hi2). exact Hp2.
    - specialize (Hroom1 0 0). rewrite !Z.add_0_r in Hroom1. by apply Hroom1. }
  cbv zeta. rewrite Eb, Ec.
  intros r w2 (s2&m&HSS&HM2&Hm&Hr2&Hroom2). exists s2, (tmp + m). split_and!.
  - by eapply string_step_trans.
  - eapply some_added_trans; [lia|lia|lia|exact HM|]. unfold D. rewrite zdrop_zdrop by lia.
    destruct (decide (tmp < L)) as [Hlt|Hge].
    + replace (q + tmp) with (sum_len (take (S i) (b_nodes (s_base t))) + 0 - b_used (s_base t)) by lia. exact HM2.
    + assert (m = 0) as -> by lia. by eapply some_added_none.
  - lia.
  - lia.
  - destruct Hr2 as [?|(->&->&E)]; [by left|right]. split_and!; [lia|lia|]. rewrite E.
    apply (au_malloc _ _ _ _ (proj1 (proj2 HF))). done.
  - intros a b Hab. by apply Hroom2, Hroom1.
Qed.
End nodes.

(** ** The whole function *)
Lemma wf_malloc_bad {OT : Others} v s : wf s → wf (on_conf (set_malloc_bad v) s).
Proof. intros [? ? ?]. split; [by apply heap_inv_malloc_bad|done|done]. Qed.

(** No C string of the string is cached. *)
Definition no_cstr (b : Vstr_base) : Prop :=
  match cache_get_cstr b with Some data => cc_ref data = None ∨ cc_len data = 0 | None => True end.

Section whole.
Context {OT : Others}.

(** A step of a string that keeps its characters keeps those of all strings. *)
Lemma quiet_strings w k s s' w' : world_inv w → st_of w k = Some s → string_step w k s' w' →
  st_content s' = st_content s → strings w' = strings w.
Proof.
  intros Hw Hs HS Hc. rewrite (st_strings _ _ _ _ HS), Hc. apply insert_id. by rewrite strings_lookup, Hs.
Qed.
Lemma world_set_malloc_bad w k s : world_inv w → st_of w k = Some s →
  wwp (on_string k (upd_conf (set_malloc_bad true))) w
    (λ _ w', world_inv w' ∧ strings w' = strings w ∧ (∃ s', st_of w' k = Some s' ∧ malloc_bad (s_conf s') = true) ∧
       ∀ j t, st_of w j = Some t → ∃ t', st_of w' j = Some t' ∧ (malloc_bad (s_conf t) = true → malloc_bad (s_conf t') = true)).
Proof.
  intros Hw Hs. eapply wwp_mono.
  { apply (wwp_string k _ w s (λ _ s', s' = on_conf (set_malloc_bad true) s)); [done|done|]. intros Hws. wp_steps.
    split; [by apply (wf_malloc_bad (OT := world_others w k))|]. split; [by destruct s as [? [] ?]|done]. }
  intros _ w' (s'&HS&->). split; [by eapply st_world|]. split; [by eapply quiet_strings|]. split.
  - eexists. split; [apply (st_self _ _ _ _ HS)|]. by destruct s as [? [] ?].
  - intros j t Hj. destruct (decide (j = k)) as [->|Hne].
    + eexists. split; [apply (st_self _ _ _ _ HS)|]. by destruct s as [? [] ?].
    + pose proof (st_put _ _ _ _ HS) as ->. pose proof Hs as (c&Hb&Hc&Hh)%st_of_Some. pose proof Hj as (d&Hb2&Hc2&Hh2)%st_of_Some.
      rewrite (put_st_eq w k c s Hb). unfold st_of. cbn. rewrite lookup_insert_ne, Hb2 by done. cbn.
      rewrite lookup_insert. case_decide as E; cbn; [|by rewrite Hc2; eexists].
      eexists. split; [done|]. cbn. by destruct s as [? [] ?].
Qed.

Lemma add_vstr_fail_beg_spec w base from s t :
  world_inv w → st_of w base = Some s → st_of w from = Some t →
  wwp (add_vstr_fail_beg base from) w (λ ok w', ok = false ∧ world_inv w' ∧ strings w' = strings w ∧
    ∃ s' t', st_of w' base = Some s' ∧ st_of w' from = Some t' ∧
      malloc_bad (s_conf s') = true ∧ malloc_bad (s_conf t') = true).
Proof.
  intros Hw Hs Ht. unfold add_vstr_fail_beg. wwp_step. eapply wwp_mono; [by apply (world_set_malloc_bad w from t)|].
  intros _ w1 (Hw1&E1&(t1&Ht1&Hm1)&H1). destruct (H1 base s Hs) as (s1&Hs1&_).
  wwp_step. eapply wwp_mono; [by apply (world_set_malloc_bad w1 base s1)|].
  intros _ w2 (Hw2&E2&(s2&Hs2&Hm2)&H2). destruct (H2 from t1 Ht1) as (t2&Ht2&Hm3). wwp_step.
  split_and!; [done|done|by rewrite E2|]. exists s2, t2. auto.
Qed.

Lemma take_out_middle {A} (l d : list A) pos : 0 ≤ pos ≤ zlen l →
  let l' := ztake pos l ++ d ++ zdrop pos l in ztake pos l' ++ zdrop (pos + zlen d) l' = l.
Proof.
  intros Hp l'. assert (Hz : zlen (ztake pos l) = pos) by (rewrite length_ztake; lia). unfold l'.
  rewrite ztake_app_l, ztake_ztake, Z.min_id by lia. rewrite zdrop_app_r, Hz, zdrop_app_r by lia.
  replace (pos + zlen d - pos - zlen d) with 0 by lia. by rewrite (zdrop_0 0), ztake_zdrop.
Qed.

(** What was added before the failure is deleted again: it ends where a node
    ends, so that this needs no memory. *)
Lemma add_vstr_fail_end_spec w base from s t pos C d :
  world_inv w → st_of w base = Some s → st_of w from = Some t → base ≠ from →
  st_content s = ztake pos C ++ d ++ zdrop pos C → 0 ≤ pos ≤ zlen C → (0 < zlen d → boundary s (pos + zlen d)) →
  zlen C + zlen d ≤ VSTR_MAX_NODE_ALL → world_room 1 1 w →
  wwp (add_vstr_fail_end base from pos (zlen C)) w (λ ok w', ok = false ∧ world_inv w' ∧ strings w' = <[base := C]> (strings w) ∧
    ∃ s' t', st_of w' base = Some s' ∧ st_of w' from = Some t' ∧
      malloc_bad (s_conf s') = true ∧ malloc_bad (s_conf t') = true).
Proof.
  intros Hw Hs Ht Hne Hc Hpos HB Hmax Hroom. unfold add_vstr_fail_end. wwp_step. eapply wwp_reads; [exact Hs|]. wp_steps.
  split; [done|]. pose proof (base_wf w base s Hw Hs) as Hws.
  pose proof (wf_content_length (OT := world_others w base) _ Hws) as Hz.
  rewrite Hc, !length_app, !Nat2Z.inj_add, length_ztake, length_zdrop in Hz. unfold VSTR_MAX_NODE_ALL in Hmax.
  assert (Hb : b_len (s_base s) - zlen C = zlen d) by lia. rewrite Hb, u64_id by (unfold SIZE_MAX; lia).
  assert (Hnb : ¬ del_bad s (pos + 1) (zlen d)) by (unfold del_bad; lia).
  wwp_step. eapply wwp_mono.
  { apply (wwp_string base _ w s (λ _ s', st_content s' = C)); [done|done|]. intros _.
    eapply wp_mono; [apply (wp_returns _ _ (λ ok s', del_post (OT := world_others w base) s (pos + 1) (zlen d) ok s') (λ ok, 0 < zlen d → ok = true))|].
    - apply (vstr_del_spec (OT := world_others w base)); [done| |by eapply world_string_room].
      unfold del_range_ok, VSTR_MAX_NODE_BUF, SIZE_MAX. lia.
    - intros ok s' E Hd. eapply (vstr_del_true (OT := world_others w base)); [done|exact Hnb|lia|unfold SIZE_MAX; lia| |exact E].
      right. replace (pos + 1 - 1 + zlen d) with (pos + zlen d) by lia. by apply HB.
    - cbn beta. intros ok s' [HP Hok]. unfold del_post in HP. rewrite decide_False in HP by done.
      destruct HP as (Hw'&[? _]&HP). split; [done|]. split; [done|]. destruct ok.
      + destruct HP as [-> _]. rewrite Hc. replace (pos + 1 - 1) with pos by lia. by apply take_out_middle.
      + destruct (decide (0 < zlen d)) as [Hd|Hd]; [by specialize (Hok Hd)|]. destruct d; [|cbn in Hd; lia].
        destruct HP as [-> _]. by rewrite Hc, app_nil_l, ztake_zdrop. }
  intros _ w1 (s1&HS&Hc1). destruct (st_others _ _ _ _ HS from t ltac:(done) Ht) as (t1&Ht1&_).
  eapply wwp_mono; [apply (add_vstr_fail_beg_spec w1 base from s1 t1); [by eapply st_world|by eapply st_self|done]|].
  intros ok w2 (->&Hw2&E&HM). split_and!; [done|done| |done]. by rewrite E, (st_strings _ _ _ _ HS), Hc1.
Qed.

(** Both strings after a failure: the characters are as before. *)
Definition add_failed (w : World) (base from : nat) (w' : World) : Prop :=
  world_inv w' ∧ strings w' = strings w ∧
  ∃ s' t', st_of w' base = Some s' ∧ st_of w' from = Some t' ∧
    malloc_bad (s_conf s') = true ∧ malloc_bad (s_conf t') = true.

Lemma world_pos_spec w from t pos :
  world_inv w → st_of w from = Some t → 1 ≤ pos ≤ b_len (s_base t) →
  wwp (on_string from (vstr_base__pos pos true)) w (λ '(i, off, num) w',
    ∃ t', string_step w from t' w' ∧ pos_cached t t' ∧ at_pos (b_nodes (s_base t)) (pos + b_used (s_base t)) i off).
Proof.
  intros Hw Ht Hpos. eapply wwp_mono.
  { apply (wwp_string from _ w t (λ '(i, off, num) t', pos_cached t t' ∧
      at_pos (b_nodes (s_base t)) (pos + b_used (s_base t)) i off)); [done|done|]. intros Hwt.
    eapply wp_mono; [apply (vstr_base__pos_spec (OT := world_others w from)); [done|done]|].
    intros [[i off] num] t' (Hat&Hpc&Hwt'). split; [done|]. split; [|done]. destruct Hpc as [p ->]. by destruct t. }
  intros [[i off] num] w' (t'&HS&Hpc&Hat). by exists t'.
Qed.
Lemma pos_cached_same t t' : pos_cached t t' →
  s_heap t' = s_heap t ∧ s_conf t' = s_conf t ∧ b_nodes (s_base t') = b_nodes (s_base t) ∧
  b_used (s_base t') = b_used (s_base t) ∧ b_len (s_base t') = b_len (s_base t) ∧
  cache_get_cstr (s_base t') = cache_get_cstr (s_base t).
Proof. intros [p ->]. destruct t as [h c [? ? ? ? ? ? ? ? ? ? ? ? []]]. done. Qed.
Lemma pos_cached_content t t' : pos_cached t t' → st_content t' = st_content t.
Proof. intros H. apply pos_cached_same in H as (E1&_&E2&E3&_). unfold st_content, content. by rewrite E1, E2, E3. Qed.

(** The C string cached is not taken along when there is none. *)
Lemma cstr_cpy_none w base from s t pos len from_pos :
  st_of w base = Some s → st_of w from = Some t → no_cstr (s_base t) →
  wwp (vstr__cache_cstr_cpy base pos len from from_pos) w (λ _ w', w' = w).
Proof.
  intros Hs Ht Hn. unfold vstr__cache_cstr_cpy. wwp_step. eapply wwp_reads; [exact Hs|]. wp_steps. split; [done|].
  wwp_step. eapply wwp_reads; [exact Ht|]. wp_steps. split; [done|].
  replace (cstr_cpy_wanted _ _ _ _) with (@None (cache_data_cstr * cache_data_cstr)); [by wwp_steps|].
  unfold cstr_cpy_wanted. destruct (negb _); [done|]. destruct (cache_get_cstr (s_base s)); [|done].
  unfold no_cstr in Hn. destruct (cache_get_cstr (s_base t)) as [fd|]; [|done]. by rewrite decide_True by tauto.
Qed.
Lemma base_from_unchanged w w1 base from s t t1 : base ≠ from → string_step w from t1 w1 → pos_cached t t1 →
  st_of w from = Some t → st_of w base = Some s → st_of w1 base = Some s.
Proof.
  intros Hne HS Hpc Ht Hs. rewrite (st_put _ _ _ _ HS). apply pos_cached_same in Hpc as (E1&E2&_).
  by eapply st_of_put_other; [exact Ht|..].
Qed.

Definition add_vstr_result (w : World) (base from : nat) (pos : Z) (C D : list byte_or_non) (ok : bool) (w' : World) : Prop :=
  if ok then world_inv w' ∧ strings w' = <[base := ztake pos C ++ D ++ zdrop pos C]> (strings w)
  else add_failed w base from w'.

Lemma vstr_add_vstr_spec conv all_ref w base from s t pos from_pos len type :
  world_inv w → st_of w base = Some s → st_of w from = Some t → base ≠ from →
  type = VSTR_TYPE_ADD_DEF ∨ type = VSTR_TYPE_ADD_ALL_BUF → no_cstr (s_base t) →
  0 ≤ pos ≤ b_len (s_base s) → in_range t from_pos len →
  b_len (s_base s) + len ≤ VSTR_MAX_NODE_ALL → world_room (3 * len + 1) (3 * len + 1) w →
  wwp (vstr_add_vstr conv all_ref base pos from from_pos len type) w (λ ok w',
    add_vstr_result w base from pos (st_content s) (substr from_pos len (st_content t)) ok w').
Proof.
  intros Hw Hs Ht Hne Hty Hn Hpos (Hf1&Hf2&Hf3) Hmax Hroom. unfold vstr_add_vstr.
  wwp_step. eapply wwp_reads; [exact Hs|]. wp_steps. split; [done|].
  wwp_step. eapply wwp_reads; [exact Ht|]. wp_steps. split; [done|]. cbv zeta.
  rewrite decide_False by lia. rewrite decide_False by lia. rewrite decide_False by (destruct Hty; by subst).
  rewrite decide_False by (destruct Hty; by subst). wwp_step. wwp_step. cbn [negb].
  wwp_step. eapply wwp_mono; [apply (world_pos_spec w from t from_pos); [done|done|lia]|].
  intros [[i off] num] w1 (t1&HS&Hpc&nd&Hi&Hoff&Hsum).
  pose proof (st_world _ _ _ _ HS) as Hw1. pose proof (st_self _ _ _ _ HS) as Ht1.
  pose proof (base_from_unchanged _ _ _ _ _ _ _ Hne HS Hpc Ht Hs) as Hs1.
  pose proof (pos_cached_content _ _ Hpc) as Hct. pose proof (quiet_strings _ _ _ _ _ Hw Ht HS Hct) as E1.
  pose proof (pos_cached_same _ _ Hpc) as (Eh&Ecf&En&Eu&El&Ec). rewrite <- En in Hi.
  assert (Hroom1 : world_room (3 * len + 1) (3 * len + 1) w1).
  { eapply (string_step_room w from t t1 w1 0 0); [done|done|done|rewrite Ecf, En; lia|rewrite Eh; by apply refs_step_refl|].
    by rewrite !Z.add_0_l. }
  wwp_step. unfold add_vstr_split. wwp_step. eapply wwp_reads; [exact Ht1|]. wp_steps. split; [done|].
  wwp_step. eapply wwp_reads; [exact Ht1|]. unfold node_at. wp_steps. eapply wp_of_option; [exact Hi|]. split; [done|].
  rewrite decide_False by tauto. wwp_step. wwp_step. rewrite decide_False by tauto. wwp_step.
  pose proof (from_wf w1 from t1 Hw1 Ht1) as Hwt1. pose proof (base_wf w1 base s Hw1 Hs1) as Hws1.
  pose proof (wf_content_length (OT := world_others w1 base) _ Hws1) as Hzs.
  assert (Hq : sum_len (take i (b_nodes (s_base t1))) + (off - 1) - b_used (s_base t1) = from_pos - 1) by (rewrite En, Eu; lia).
  replace (Some (nd_addr nd)) with (nd_addr <$> b_nodes (s_base t1) !! i) by by rewrite Hi.
  wwp_step. eapply wwp_mono.
  { apply (vstr__add_vstr_nodes_spec base from type (Z.to_nat len) Hne ltac:(by destruct Hty; subst) w1 s t1 i (off - 1) pos len);
      rewrite ?Hq; try done; try lia.
    - intros nd' E. rewrite Hi in E. injection E as <-. lia.
    - destruct Hroom1 as [A1 A2]. split; [lia|]. intros r ref Hrr. specialize (A2 r ref Hrr). lia. }
  rewrite Hq, Hct. set (D := zdrop (from_pos - 1) (st_content t)).
  intros r w2 (s2&m&HS2&HM&Hm&Hr&Hroom2). specialize (Hroom2 1 1 Hroom1).
  pose proof (st_world _ _ _ _ HS2) as Hw2. pose proof (st_self _ _ _ _ HS2) as Hs2.
  destruct (st_others _ _ _ _ HS2 from t1 ltac:(done) Ht1) as (t2&Ht2&Eb2&_).
  assert (HzD : zlen D = b_len (s_base t) - (from_pos - 1)).
  { pose proof (from_wf w from t Hw Ht) as Hwt. unfold D. rewrite length_zdrop, (wf_content_length (OT := world_others w from) _ Hwt). lia. }
  case_decide as Er.
  - assert (Hzm : zlen (ztake m D) = m) by (rewrite length_ztake; lia). rewrite <- Hzs.
    eapply wwp_mono.
    { apply (add_vstr_fail_end_spec w2 base from s2 t2 pos (st_content s) (ztake m D)); try done.
      - apply HM.
      - lia.
      - rewrite Hzm. intros Hm0. apply (sm_boundary _ _ _ _ _ HM). by left.
      - rewrite Hzm, Hzs. lia. }
    intros ok w3 (->&Hw3&E3&HB). split; [done|]. split; [|done]. rewrite E3, (st_strings _ _ _ _ HS2), insert_insert_eq, E1.
    apply insert_id. by rewrite strings_lookup, Hs.
  - destruct Hr as [?|(_&->&_)]; [done|]. wwp_step. eapply wwp_mono; [apply (cstr_cpy_none w2 base from s2 t2); [done|done|]|].
    { unfold no_cstr in *. by rewrite Eb2, Ec. }
    intros _ w3 ->. wwp_step. split; [done|]. rewrite (st_strings _ _ _ _ HS2), (sm_content _ _ _ _ _ HM), E1. done.
Qed.

(** All cases of the arguments *)
Lemma vstr_add_vstr_full conv all_ref w base from s t pos from_pos len type :
  world_inv w → st_of w base = Some s → st_of w from = Some t → base ≠ from →
  type = VSTR_TYPE_ADD_DEF ∨ type = VSTR_TYPE_ADD_ALL_BUF → no_cstr (s_base t) →
  0 ≤ pos → 1 ≤ from_pos → 0 ≤ len → from_pos + len - 1 ≤ b_len (s_base t) ∨ b_len (s_base t) < from_pos →
  b_len (s_base s) + len ≤ VSTR_MAX_NODE_ALL → world_room (3 * len + 1) (3 * len + 1) w →
  wwp (vstr_add_vstr conv all_ref base pos from from_pos len type) w (λ ok w',
    if decide (b_len (s_base s) < pos ∨ b_len (s_base t) < from_pos ∧ len ≠ 0) then ok = false ∧ w' = w
    else add_vstr_result w base from pos (st_content s) (substr from_pos len (st_content t)) ok w').
Proof.
  intros Hw Hs Ht Hne Hty Hcs Hpos Hf Hl Hr Hmax Hroom. case_decide as Hb.
  - unfold vstr_add_vstr. wwp_step. eapply wwp_reads; [exact Hs|]. wp_steps. split; [done|].
    wwp_step. eapply wwp_reads; [exact Ht|]. wp_steps. split; [done|]. cbv zeta. rewrite decide_True by done. by wwp_step.
  - destruct (decide (len = 0)) as [->|Hz].
    + unfold vstr_add_vstr. wwp_step. eapply wwp_reads; [exact Hs|]. wp_steps. split; [done|].
      wwp_step. eapply wwp_reads; [exact Ht|]. wp_steps. split; [done|]. cbv zeta.
      rewrite decide_False by done. rewrite decide_True by done. wwp_step. split; [done|].
      unfold substr. rewrite (ztake_0 0), app_nil_l, ztake_zdrop by done. symmetry. apply insert_id.
      by rewrite strings_lookup, Hs.
    + apply vstr_add_vstr_spec; try done; [lia|]. unfold in_range. lia.
Qed.
End whole.
