(* ===== verification/Life.v ===== *)
(** * Making and freeing strings and configurations (vstr_make_base,
    vstr_free_base, vstr__add_conf, vstr__del_conf, vstr_free_conf,
    vstr_swap_conf and vstr__del_grpalloc of src/vstr.c, the options of
    src/vstr_cntl.c about them, src/vstr_dup.c).

    A configuration counts the strings and users that refer to it, and keeps
    the strings that were freed to be made again. *)
From Stdlib Require Import ZArith Lia ZifyBool.
From stdpp Require Import base tactics list numbers option gmap fin_maps infinite.
From S2P Require Import Prelude State Wp Ref Cache Core Base Add Del World AddVstr.

Definition set_ref v l := match l with mkLife _ u g n s sn => mkLife v u g n s sn end.
Definition set_user_ref v l := match l with mkLife r _ g n s sn => mkLife r v g n s sn end.
Definition set_grpalloc v n l := match l with mkLife r u _ _ s sn => mkLife r u v n s sn end.
Definition set_spare_base s sn l := match l with mkLife r u g n _ _ => mkLife r u g n s sn end.

Definition life_at (c : nat) : W conf_life := λ w, l ← w_lives w !! c; Some (l, w).
Definition upd_life (c : nat) (f : conf_life → conf_life) : W () := λ w,
  l ← w_lives w !! c; Some (tt, mkWorld (w_heap w) (w_confs w) (w_bases w) (<[c := f l]> (w_lives w))).

(** The configuration of a string *)
Definition conf_of (k : nat) : W nat := λ w, '(c, _) ← w_bases w !! k; Some (c, w).

(** The members that vstr__init_base sets *)
Definition no_base : Vstr_base := empty_base GRPALLOC_NONE (mkCache None None None).

(** What a configuration does without a string *)
Definition on_conf_of {A} (c : nat) (m : M A) : W A := λ w,
  conf ← w_confs w !! c; '(a, s') ← m (mkSt (w_heap w) conf no_base);
  Some (a, mkWorld (s_heap s') (<[c := s_conf s']> (w_confs w)) (w_bases w) (w_lives w)).

(** The memory of a string: allocated, freed *)
Definition new_string (c : nat) : W nat := λ w,
  let k := fresh (dom (w_bases w)) in
  Some (k, mkWorld (w_heap w) (w_confs w) (<[k := (c, no_base)]> (w_bases w)) (w_lives w)).
Definition free_string (k : nat) : W () := λ w,
  Some (tt, mkWorld (w_heap w) (w_confs w) (delete k (w_bases w)) (w_lives w)).
Definition drop_conf (c : nat) : W () := λ w,
  Some (tt, mkWorld (w_heap w) (delete c (w_confs w)) (w_bases w) (delete c (w_lives w))).

(** ** Configurations *)
Definition vstr__add_conf (c : nat) : W () := upd_life c (λ l, set_ref (u32 (cl_ref l + 1)) l).
Definition vstr__add_user_conf (c : nat) : W () :=
  upd_life c (λ l, set_user_ref (u32 (cl_user_ref l + 1)) l);; vstr__add_conf c.

(** The caches of the spare strings are freed with them. *)
Fixpoint del_grpalloc_loop (scan : list Vstr_base) (n num : Z) (fuel : nat) : list Vstr_base * Z :=
  match fuel, scan with
  | S fuel, _ :: rest => del_grpalloc_loop rest (u32 (n - 1)) (num - 1) fuel
  | _, _ => (scan, n)
  end.
Definition vstr__del_grpalloc (c : nat) (num : Z) : W () :=
  upd_life c (λ l,
    let '(s, n) := del_grpalloc_loop (cl_spare_base l) (cl_spare_base_num l) num (Z.to_nat num) in
    set_spare_base s n l).

Definition free_spares : M Z :=
  conf ← get_conf;
  vstr_free_spare_nodes NODE_BUF (Z.to_nat (sp_num (spare_buf conf)));;
  vstr_free_spare_nodes NODE_NON (Z.to_nat (sp_num (spare_non conf)));;
  vstr_free_spare_nodes NODE_PTR (Z.to_nat (sp_num (spare_ptr conf)));;
  vstr_free_spare_nodes NODE_REF (Z.to_nat (sp_num (spare_ref conf))).

(** The groups of references, the locale, the data and the formats of the user
    are parts of the configuration that the model keeps elsewhere or leaves out. *)
Definition vstr__del_conf (c : nat) : W () :=
  upd_life c (λ l, set_ref (u32 (cl_ref l - 1)) l);;
  life ← life_at c;
  if decide (cl_ref life = 0) then
    on_conf_of c free_spares;;
    vstr__del_grpalloc c (cl_spare_base_num life);;
    drop_conf c
  else mret tt.
Definition vstr_free_conf (c : nat) : W () :=
  upd_life c (λ l, set_user_ref (u32 (cl_user_ref l - 1)) l);; vstr__del_conf c.

(** ** Strings *)
Definition take_spare_base (c : nat) : W (option Vstr_base) :=
  life ← life_at c;
  if decide (cl_spare_base_num life = 0) then mret None
  else match cl_spare_base life with
  | [] => wundef
  | base :: rest => upd_life c (set_spare_base rest (u32 (cl_spare_base_num life - 1)));; mret (Some base)
  end.
Definition vstr_make_base (c : nat) : W (option nat) :=
  life ← life_at c;
  spare ← take_spare_base c;
  k ← new_string c;
  ok ← on_string k (make_base (cl_grpalloc life) spare);
  if negb ok then free_string k;; mret None
  else vstr__add_conf c;; mret (Some k).

Definition vstr_free_base (k : nat) : W () :=
  c ← conf_of k;
  on_string k vstr__free_cache;;
  on_string k (b ← get_base; vstr_del 1 (b_len b));;
  base ← on_string k get_base;
  life ← life_at c;
  (if decide (grpalloc_cache base = cl_grpalloc life)
   then upd_life c (set_spare_base (base :: cl_spare_base life) (u32 (cl_spare_base_num life + 1)))
   else mret tt);;
  free_string k;;
  vstr__del_conf c.

(** The string gets the configuration and its user the one of the string; the
    callbacks of the caches are the same when there are none of a user. *)
Definition set_conf_of (k c : nat) : W () := λ w,
  '(_, b) ← w_bases w !! k; Some (tt, mkWorld (w_heap w) (w_confs w) (<[k := (c, b)]> (w_bases w)) (w_lives w)).
Definition vstr_swap_conf (k c : nat) : W (bool * nat) :=
  d ← conf_of k;
  if decide (d = c) then mret (true, c)
  else
    life ← life_at c;
    let can_change_conf := bool_decide (cl_user_ref life = cl_ref life) in
    base_conf ← on_conf_of d get_conf; conf ← on_conf_of c get_conf;
    if decide (buf_sz base_conf ≠ buf_sz conf ∧ can_change_conf = false) then mret (false, c)
    else
      (if decide (buf_sz base_conf ≠ buf_sz conf) then
         on_conf_of c (vstr_free_spare_nodes NODE_BUF (Z.to_nat (sp_num (spare_buf conf)));;
                       upd_conf (set_buf_sz (buf_sz base_conf)))
       else mret tt);;
      upd_life c (λ l, set_user_ref (u32 (cl_user_ref l - 1)) l);;
      upd_life d (λ l, set_user_ref (u32 (cl_user_ref l + 1)) l);;
      set_conf_of k c;; mret (true, d).

(** ** Options *)
(** VSTR_CNTL_CONF_SET_TYPE_GRPALLOC_CACHE *)
Definition cntl_conf_set_grpalloc (c : nat) (val : grpalloc_type) : W bool :=
  life ← life_at c;
  if decide (cl_grpalloc life = val) then mret true
  else
    vstr__del_grpalloc c (cl_spare_base_num life);;
    upd_life c (set_grpalloc val (bool_decide (val = GRPALLOC_NONE)));; mret true.
(** VSTR_CNTL_CONF_SET_FLAG_ALLOC_CACHE *)
Definition cntl_conf_set_alloc_cache (c : nat) (val : bool) : W bool :=
  life ← life_at c;
  if decide (cl_no_cache life = negb val) then mret true
  else
    vstr__del_grpalloc c (cl_spare_base_num life);;
    upd_life c (set_grpalloc (if val then GRPALLOC_POS else GRPALLOC_NONE) (negb val));; mret true.

(** VSTR_CNTL_CONF_SET_NUM_SPARE_BASE: each new string is made with no spare
    ones, and freed to the spare ones *)
Fixpoint spare_base_loop (fuel : nat) (c : nat) (val : Z) : W bool :=
  life ← life_at c;
  if decide (cl_spare_base_num life < val) then
    match fuel with
    | O => wundef
    | S fuel =>
      upd_life c (set_spare_base [] 0);;
      tmp ← vstr_make_base c;
      upd_life c (set_spare_base (cl_spare_base life) (cl_spare_base_num life));;
      match tmp with
      | None => mret false
      | Some k => vstr_free_base k;; spare_base_loop fuel c val
      end
    end
  else mret true.
Definition cntl_conf_set_num_spare_base (c : nat) (val : Z) : W bool :=
  life ← life_at c;
  let spare_num := cl_spare_base_num life in
  if decide (val = spare_num) then mret true
  else if decide (spare_num < val) then spare_base_loop (Z.to_nat (val - spare_num)) c val
  else vstr__del_grpalloc c (spare_num - val);; mret true.
Definition cntl_conf_set_num_range_spare_base (c : nat) (val_min val_max : Z) : W bool :=
  life ← life_at c;
  if decide (cl_spare_base_num life < val_min) then cntl_conf_set_num_spare_base c val_min
  else if decide (val_max < cl_spare_base_num life) then cntl_conf_set_num_spare_base c val_max
  else mret true.

(** ** Strings made with data (src/vstr_dup.c) *)
Definition dup_with (c : nat) (len : Z) (add : nat → W bool) : W (option nat) :=
  ret ← vstr_make_base c;
  match ret with
  | None => mret None
  | Some k =>
    ok ← (if decide (len ≠ 0) then add k else mret true);
    if (ok : bool) then mret (Some k) else vstr_free_base k;; mret None
  end.
Definition vstr_dup_buf (c : nat) (data : pointer) (len : Z) : W (option nat) :=
  dup_with c len (λ k, on_string k (vstr_add_buf 0 data len)).
Definition vstr_dup_non (c : nat) (len : Z) : W (option nat) :=
  dup_with c len (λ k, on_string k (vstr_add_non 0 len)).
Definition vstr_dup_ptr (c : nat) (data : pointer) (len : Z) : W (option nat) :=
  dup_with c len (λ k, on_string k (vstr_add_ptr 0 data len)).
Definition vstr_dup_ref (c : nat) (ref : positive) (off len : Z) : W (option nat) :=
  dup_with c len (λ k, on_string k (vstr_add_ref 0 ref off len)).
Definition vstr_dup_rep_chr (c : nat) (chr : Z) (len : Z) : W (option nat) :=
  dup_with c len (λ k, on_string k (vstr_add_rep_chr 0 chr len)).

Section dup_vstr.
Context (vstr__convert_buf_ref : nat → Z → Z → W bool).
Context (vstr__add_all_ref : nat → Z → nat → Z → Z → W bool).
(** A failure marks the configuration of the string that is copied, too. *)
Definition vstr_dup_vstr (c : nat) (base : nat) (pos len : Z) (type : add_type) : W (option nat) :=
  ret ← dup_with c len (λ k, vstr_add_vstr vstr__convert_buf_ref vstr__add_all_ref k 0 base pos len type);
  match ret with
  | None => on_string base (upd_conf (set_malloc_bad true));; mret None
  | Some k => mret (Some k)
  end.
End dup_vstr.
