(* ===== verification/LifeSpec.v ===== *)
(** * Making and freeing strings keeps the invariant of the world, and a
    configuration counts its users. *)
From Stdlib Require Import ZArith Lia ZifyBool.
From stdpp Require Import base tactics list numbers option gmap fin_maps infinite.
From S2P Require Import Prelude State Wp Ref Cache Core Base Add Del Inv PosLemmas SpareLemmas SplitLemmas CacheLemmas AddLemmas StringLemmas AddSpec AddOps AddTheorems NoCstr BaseTheorems DelLemmas DelSpec DelTheorems DelAtomic Frame World WorldInv AddVstr AddVstrSpec Life.

(** The number of strings with a configuration *)
Definition users (m : gmap nat (nat * Vstr_base)) (c : nat) : Z :=
  zlen (filter (λ p, p.2.1 = c) (map_to_list m)).

Lemma users_insert m k c b d : m !! k = None →
  users (<[k := (c, b)]> m) d = users m d + if decide (c = d) then 1 else 0.
Proof.
  intros Hk. unfold users. rewrite (map_to_list_insert m k (c, b) Hk), filter_cons. cbn.
  case_decide; cbn [length]; lia.
Qed.
Lemma users_delete m k c b d : m !! k = Some (c, b) →
  users (delete k m) d = users m d - if decide (c = d) then 1 else 0.
Proof.
  intros Hk. rewrite <- (insert_delete_id m k (c, b) Hk) at 2. rewrite users_insert by apply lookup_delete_eq. lia.
Qed.
Lemma users_change m k c b b' d : m !! k = Some (c, b) → users (<[k := (c, b')]> m) d = users m d.
Proof.
  intros Hk. rewrite <- insert_delete_eq, users_insert by apply lookup_delete_eq.
  rewrite (users_delete m k c b d Hk). lia.
Qed.
Lemma users_nonneg m c : 0 ≤ users m c.
Proof. unfold users. lia. Qed.
Lemma users_none m c : users m c = 0 → ∀ k d b, m !! k = Some (d, b) → d ≠ c.
Proof.
  unfold users. intros H k d b Hk ->.
  assert (Hin : (k, (c, b)) ∈ filter (λ p, p.2.1 = c) (map_to_list m)).
  { apply list_elem_of_filter. split; [done|]. by apply elem_of_map_to_list. }
  destruct (filter _ _); [by apply elem_of_nil in Hin|cbn in H; lia].
Qed.

(** The counts of a configuration with [n] strings, and its spare strings *)
Record life_ok (n : Z) (l : conf_life) : Prop := {
  lo_ref : cl_ref l = cl_user_ref l + n;
  lo_user : 0 ≤ cl_user_ref l;
  lo_pos : 0 < cl_ref l ≤ UINT_MAX;
  lo_spare_num : cl_spare_base_num l = zlen (cl_spare_base l);
  lo_spare_max : zlen (cl_spare_base l) ≤ UINT_MAX;
  lo_spare : Forall (λ b, spare_ok (cl_grpalloc l) b ∧ no_cstr_ref b) (cl_spare_base l) }.
Definition lives_inv (w : World) : Prop := ∀ c,
  match w_confs w !! c, w_lives w !! c with
  | Some _, Some l => life_ok (users (w_bases w) c) l
  | None, None => True
  | _, _ => False
  end.

Lemma lives_inv_get w c conf : lives_inv w → w_confs w !! c = Some conf →
  ∃ l, w_lives w !! c = Some l ∧ life_ok (users (w_bases w) c) l.
Proof. intros H Hc. specialize (H c). rewrite Hc in H. destruct (w_lives w !! c) as [l|]; [by exists l|done]. Qed.
Lemma lives_inv_conf w c l : lives_inv w → w_lives w !! c = Some l → ∃ conf, w_confs w !! c = Some conf.
Proof. intros H Hc. specialize (H c). rewrite Hc in H. destruct (w_confs w !! c) as [conf|]; [by exists conf|done]. Qed.
Lemma lives_inv_put w k s : lives_inv w → st_of w k = Some s → ∀ s', lives_inv (put_st k s' w).
Proof.
  intros H (c&Hb&Hc&Hh)%st_of_Some s' d. unfold put_st. rewrite Hb. cbn. rewrite lookup_insert.
  specialize (H d). rewrite (users_change _ _ _ _ _ d Hb).
  case_decide as E; [subst; by rewrite Hc in H|done].
Qed.
(** A world with the counts of a configuration changed *)
Definition put_life (c : nat) (l : conf_life) (w : World) : World :=
  mkWorld (w_heap w) (w_confs w) (w_bases w) (<[c := l]> (w_lives w)).
Lemma lives_inv_put_life w c conf l : lives_inv w → w_confs w !! c = Some conf → life_ok (users (w_bases w) c) l →
  lives_inv (put_life c l w).
Proof.
  intros H Hc Hl d. cbn. rewrite lookup_insert. case_decide as E; [subst; by rewrite Hc|apply H].
Qed.
Lemma wwp_life_at w c l (Q : conf_life → World → Prop) : w_lives w !! c = Some l → Q l w → wwp (life_at c) w Q.
Proof. unfold wwp, life_at. by intros ->. Qed.
Lemma wwp_upd_life w c f l (Q : () → World → Prop) :
  w_lives w !! c = Some l → Q tt (put_life c (f l) w) → wwp (upd_life c f) w Q.
Proof. unfold wwp, upd_life. by intros ->. Qed.

Section others.
Context {OT : Others}.

(** ** Strings that come and go *)
Lemma all_nodes_insert m k c b : m !! k = None → all_nodes (<[k := (c, b)]> m) ≡ₚ b_nodes b ++ all_nodes m.
Proof. intros Hk. unfold all_nodes. by rewrite (map_to_list_insert m k (c, b) Hk). Qed.

Lemma world_inv_put_life w c l : world_inv w → world_inv (put_life c l w).
Proof. intros [? ? ?]. by split. Qed.

Lemma world_new_string w k c conf b :
  world_inv w → w_bases w !! k = None → w_confs w !! c = Some conf → b_nodes b = [] → base_inv b → cache_inv b →
  let w' := mkWorld (w_heap w) (w_confs w) (<[k := (c, b)]> (w_bases w)) (w_lives w) in
  world_inv w' ∧ strings w' = <[k := []]> (strings w).
Proof.
  intros [HC HB HS] Hk Hc En Hb Hca w'. split.
  - split; [done|..].
    + intros j d b0. cbn. rewrite lookup_insert. case_decide; [|by apply (HB j)]. intros [= <- <-]. exists conf.
      split; [done|]. by rewrite En.
    + pose proof (all_nodes_insert (w_bases w) k c b Hk) as Hp. rewrite En in Hp.
      eapply shared_inv_perm; [| |exact HS]; [|by symmetry]. unfold owned. cbn. by rewrite Hp.
  - unfold strings. cbn. rewrite fmap_insert. f_equal. unfold content. cbn. rewrite En, chain_bytes_nil.
    unfold zdrop. by rewrite drop_nil.
Qed.
Lemma world_free_string w k c b :
  world_inv w → w_bases w !! k = Some (c, b) → b_nodes b = [] →
  let w' := mkWorld (w_heap w) (w_confs w) (delete k (w_bases w)) (w_lives w) in
  world_inv w' ∧ strings w' = delete k (strings w).
Proof.
  intros [HC HB HS] Hk En w'. split.
  - split; [done|..].
    + intros j d b0. cbn. intros [_ Hj]%lookup_delete_Some. by apply (HB j).
    + pose proof (all_nodes_delete (w_bases w) k c b Hk) as Hp. rewrite En in Hp.
      eapply shared_inv_perm; [| |exact HS]; [|done]. unfold owned. cbn. by rewrite <- Hp.
  - unfold strings. cbn. by rewrite fmap_delete.
Qed.

Lemma no_base_inv : base_inv no_base ∧ cache_inv no_base.
Proof.
  split; [by apply base_inv_empty|]. split; [done|done|]. split; [intros [?|?]; [done|cbn in *; lia]|done].
Qed.

(** What is new in a world with one more string *)
Definition string_made (w : World) (c : nat) (k : nat) (w' : World) : Prop :=
  world_inv w' ∧ lives_inv w' ∧ strings w !! k = None ∧ strings w' = <[k := []]> (strings w) ∧
  (∃ s, st_of w' k = Some s ∧ no_cstr_ref (s_base s) ∧ b_nodes (s_base s) = []) ∧
  ∀ j, j ≠ k → w_bases w' !! j = w_bases w !! j.
Definition make_refused (w : World) (c : nat) (w' : World) : Prop :=
  world_inv w' ∧ lives_inv w' ∧ strings w' = strings w ∧ w_bases w' = w_bases w ∧
  ∃ conf, w_confs w' !! c = Some conf ∧ malloc_bad conf = true.

Lemma take_spare_base_spec w c conf l :
  lives_inv w → w_confs w !! c = Some conf → w_lives w !! c = Some l →
  wwp (take_spare_base c) w (λ sp w', ∃ l', w' = put_life c l' w ∧ life_ok (users (w_bases w) c) l' ∧
    cl_ref l' = cl_ref l ∧ cl_user_ref l' = cl_user_ref l ∧
    ∀ b, sp = Some b → spare_ok (cl_grpalloc l) b ∧ no_cstr_ref b).
Proof.
  intros HL Hc Hl. destruct (lives_inv_get _ _ _ HL Hc) as (l0&E&Hok). rewrite Hl in E. injection E as <-.
  unfold take_spare_base. wwp_step. eapply wwp_life_at; [done|]. case_decide as Hz.
  - wwp_step. exists l. split_and!; try done. unfold put_life. rewrite insert_id by done. by destruct w.
  - pose proof (lo_spare_num _ _ Hok) as Hn. destruct (cl_spare_base l) as [|b rest] eqn:Eb; [cbn in Hn; lia|].
    wwp_step. eapply wwp_upd_life; [done|]. wwp_step. eexists. split; [done|].
    pose proof Hok as [H1 H2 H3 H4 H5 H6]. rewrite Eb in *. apply Forall_cons in H6 as [Hb H6].
    destruct l. cbn in *. split_and!; try done; [|by intros ? [= <-]].
    split; cbn; try done; [|lia]. rewrite u32_id by (unfold UINT_MAX in *; lia). lia.
Qed.

Lemma make_base_world_spec w k c conf g sp :
  world_inv w → w_bases w !! k = Some (c, no_base) → w_confs w !! c = Some conf →
  (∀ b, sp = Some b → spare_ok g b ∧ no_cstr_ref b) →
  wwp (on_string k (make_base g sp)) w (λ ok w', ∃ s', string_step w k s' w' ∧ b_nodes (s_base s') = [] ∧
    if (ok : bool) then st_content s' = [] ∧ no_cstr_ref (s_base s') else malloc_bad (s_conf s') = true).
Proof.
  intros Hw Hb Hc Hsp. assert (Hs : st_of w k = Some (mkSt (w_heap w) conf no_base)).
  { apply st_of_Some. by exists c. }
  eapply wwp_string; [done|exact Hs|]. intros Hws. eapply wp_mono.
  { apply (make_base_spec (OT := world_others w k)); [exact (wf_heap (OT := world_others w k) _ Hws)|exact Hsp]. }
  intros ok s' (Em&Er&En&HP). destruct ok.
  - destruct HP as (Hw'&Hct&Ec&Enil&_&Hcs). rewrite Ec. split_and!; done.
  - destruct HP as [Ec Eb]. rewrite Ec, Eb. split_and!; try done; [|by destruct conf..].
    destruct Hws as [H HB HC]. split; rewrite ?Eb; [|done..]. rewrite Ec. apply heap_inv_malloc_bad.
    by eapply heap_inv_malloc_only.
Qed.

Lemma vstr_make_base_spec w c conf l :
  world_inv w → lives_inv w → w_confs w !! c = Some conf → w_lives w !! c = Some l → cl_ref l + 1 ≤ UINT_MAX →
  wwp (vstr_make_base c) w (λ r w', match r with Some k => string_made w c k w' | None => make_refused w c w' end).
Proof.
  intros Hw HL Hc Hl Hmax. unfold vstr_make_base. wwp_step. eapply wwp_life_at; [done|]. wwp_step.
  eapply wwp_mono; [by eapply take_spare_base_spec|]. intros sp w1 (l1&->&Hl1&Er1&Eu1&Hsp).
  pose proof (world_inv_put_life w c l1 Hw) as Hw1. pose proof (lives_inv_put_life w c conf l1 HL Hc Hl1) as HL1.
  assert (E1 : strings (put_life c l1 w) = strings w) by done.
  assert (Eb1 : w_bases (put_life c l1 w) = w_bases w) by done. set (w1 := put_life c l1 w) in *.
  assert (Hc1 : w_confs w1 !! c = Some conf) by done.
  assert (Hl1' : w_lives w1 !! c = Some l1) by apply lookup_insert_eq. clearbody w1.
  wwp_step. unfold new_string, wwp at 1. set (k := fresh _).
  assert (Hk : w_bases w1 !! k = None) by (apply not_elem_of_dom, is_fresh). clearbody k.
  destruct no_base_inv as [Hnb Hnc]. destruct (world_new_string w1 k c conf no_base Hw1 Hk Hc1 eq_refl Hnb Hnc) as [Hw2 E2].
  set (w2 := mkWorld _ _ _ _) in *. wwp_step.
  assert (Hb2 : w_bases w2 !! k = Some (c, no_base)) by apply lookup_insert_eq.
  assert (Hs2 : st_of w2 k = Some (mkSt (w_heap w2) conf no_base)) by (apply st_of_Some; by exists c).
  eapply wwp_mono; [by apply (make_base_world_spec w2 k c conf (cl_grpalloc l) sp)|].
  intros ok w3 (s3&HS&En3&HP). pose proof (st_world _ _ _ _ HS) as Hw3. pose proof (st_self _ _ _ _ HS) as Hs3.
  pose proof Hs3 as (c3&Hb3&Hc3&Hh3)%st_of_Some.
  pose proof (st_put _ _ _ _ HS) as E3. rewrite (put_st_eq w2 k c (mkSt (w_heap w2) conf no_base) Hb2) in E3.
  assert (c3 = c) as -> by (rewrite E3 in Hb3; cbn in Hb3; rewrite lookup_insert_eq in Hb3; by injection Hb3).
  assert (Hfree : (λ cb, content (w_heap w3) cb.2) <$> delete k (w_bases w3) = strings w).
  { rewrite fmap_delete. fold (strings w3). rewrite (st_strings _ _ _ _ HS), E2, insert_insert_eq, delete_insert_id; [done|].
    unfold strings. by rewrite lookup_fmap, Hk. }
  destruct ok; cbn [negb].
  - destruct HP as [Hct Hcs]. wwp_step. unfold vstr__add_conf. eapply (wwp_upd_life w3 c _ l1); [by rewrite E3|].
    wwp_step. split; [by apply world_inv_put_life|]. split; [|split; [|split; [|split]]].
    + intros d. rewrite E3. cbn. rewrite !lookup_insert.
      rewrite users_change with (c := c) (b := no_base) by apply lookup_insert_eq.
      rewrite users_insert by done. case_decide as Ed.
      * subst d. pose proof Hl1 as [? ? ? ? ? ?]. pose proof (lives_inv_get _ _ _ HL1 Hc1) as (l1'&Hx&Hok).
        rewrite Hl1' in Hx. injection Hx as <-. destruct Hok as [R1 R2 R3 R4 R5 R6].
        destruct l1. cbn in *. split; cbn; try done; rewrite u32_id by (unfold UINT_MAX in *; lia); lia.
      * rewrite Z.add_0_r. apply HL1.
    + rewrite <- E1. unfold strings. by rewrite lookup_fmap, Hk.
    + change (strings (put_life _ _ _)) with (strings w3). rewrite (st_strings _ _ _ _ HS), E2, insert_insert_eq, Hct. by rewrite E1.
    + exists s3. split_and!; [exact Hs3|done|done].
    + intros j Hj. cbn. rewrite E3. cbn. by rewrite !lookup_insert_ne, Eb1 by done.
  - wwp_step. unfold free_string, wwp at 1. wwp_step.
    destruct (world_free_string w3 k c (s_base s3) Hw3 Hb3 En3) as [Hw4 E4]. split; [done|]. split; [|split; [done|split]].
    + intros d. rewrite E3. cbn. rewrite lookup_insert.
      rewrite (users_delete _ k c (s_base s3)) by apply lookup_insert_eq.
      rewrite users_change with (c := c) (b := no_base) by apply lookup_insert_eq.
      rewrite users_insert by done. specialize (HL1 d). case_decide as Ed.
      * subst d. rewrite Hc1 in HL1. replace (_ + _ - _) with (users (w_bases w1) c) by lia. done.
      * replace (_ + _ - _) with (users (w_bases w1) d) by lia. done.
    + cbn. rewrite E3. cbn. rewrite insert_insert_eq, delete_insert_id by done. exact Eb1.
    + exists (s_conf s3). split; [exact Hc3|exact HP].
Qed.

(** ** Freeing a string *)

(** The caches were freed: nothing is remembered. *)
Record uncached (b b' : Vstr_base) : Prop := {
  un_nodes : b_nodes b' = b_nodes b;
  un_len : b_len b' = b_len b;
  un_used : b_used b' = b_used b;
  un_base : base_inv b → base_inv b';
  un_pos : cache_available b' = true → c_pos (b_cache b') = None;
  un_cstr : cache_available b' = true → c_cstr (b_cache b') = None;
  un_no_cstr : no_cstr_ref b';
  un_grpalloc : grpalloc_cache b' = grpalloc_cache b;
  un_vec : vec_ok b' }.

Lemma vstr__free_cache_spec s :
  vec_ok (s_base s) → no_cstr_ref (s_base s) →
  wp vstr__free_cache s (λ _ s', ∃ b', s' = mkSt (s_heap s) (s_conf s) b' ∧ uncached (s_base s) b').
Proof.
  intros [Hv Ha] Hcs. destruct s as [h c [ns bl bn used iu av ci f1 f2 f3 f4 gc [p v cs]]]. cbn in *.
  unfold vstr__free_cache. wp_step. apply wp_gets. cbn. destruct av.
  2:{ wp_steps. eexists. split; [done|]. by split. }
  assert (Hg : gc ≠ GRPALLOC_NONE) by (intros E; by specialize (Ha E)).
  unfold vstr__cache_cbs. wp_step. wp_step. apply wp_gets. cbn [s_base b_cache grpalloc_cache c_pos c_cstr].
  assert (Hc : ∀ data, cs = Some data → cc_ref data = None) by exact Hcs.
  assert (Hvec : 2 ≤ grpalloc_num gc → is_Some v) by (intros; apply Hv; by right). unfold wp.
  destruct (decide (grpalloc_num gc < 2)) as [Hlt|Hge];
    [rewrite (bool_decide_eq_true_2 (_ ∧ _)) by done|rewrite (bool_decide_eq_false_2 (_ ∧ _)) by tauto];
    destruct p as [p|], cs as [data|]; cbn; rewrite ?(Hc _ eq_refl); cbn;
    eexists; (split; [done|]); split; try done; cbn; try (by intros []);
    try (split; cbn; [|done]; intros [?|?]; [done|]; try lia; by apply Hvec).
Qed.

(** Deleting everything of a string without caches *)
Definition freed (s s' : St) : Prop :=
  b_nodes (s_base s') = [] ∧ heap_inv (s_heap s') (s_conf s') [] ∧
  spare_ok (grpalloc_cache (s_base s)) (s_base s') ∧ no_cstr_ref (s_base s') ∧
  conf_same (s_conf s) (s_conf s') ∧ malloc_bad (s_conf s') = malloc_bad (s_conf s) ∧
  spares (s_conf s') ≡ₚ own (s_conf s) (b_nodes (s_base s)) ∧ given_up (b_nodes (s_base s)) (s_heap s) (s_heap s').

Lemma cache_del_none s pos len :
  (cache_available (s_base s) = true → c_pos (b_cache (s_base s)) = None ∧ c_cstr (b_cache (s_base s)) = None) →
  wp (vstr__cache_del pos len) s (λ _ s', s' = s ∨ s' = on_base (b_set_cache_internal true) s).
Proof.
  intros H. destruct s as [h c [ns bl bn used iu av ci f1 f2 f3 f4 gc [p v cs]]]. cbn in H.
  unfold wp, vstr__cache_del, vstr__cache_run. cbn. destruct av; [|by left].
  destruct H as [-> ->]; [done|]. cbn. by right.
Qed.
Lemma del_uncached_spec s b' :
  wf s → uncached (s_base s) b' →
  wp (b ← get_base; vstr_del 1 (b_len b)) (mkSt (s_heap s) (s_conf s) b') (λ _ s', freed s s').
Proof.
  intros Hw [En El Eu HB Hp Hcs Hn Eg Hv]. pose proof (HB (wf_base _ Hw)) as HB'. pose proof (wf_heap _ Hw) as H.
  pose proof (wf_lens _ Hw) as Hlens. pose proof (bi_len _ HB') as Hl. rewrite En, Eu, El in Hl.
  pose proof (bi_size _ HB') as Hsz. rewrite En in Hsz. pose proof (wf_used_nonneg _ Hw) as Hu0.
  wp_step. apply wp_gets. cbn [s_base]. rewrite El. unfold vstr_del. wp_step. apply wp_gets. cbn [s_base].
  pose proof (wf_len_nonneg _ Hw). rewrite El, decide_False by lia. case_decide as Hz.
  { wp_step. destruct (b_nodes (s_base s)) as [|nd ns] eqn:Ens.
    - unfold freed. rewrite Ens. do 7 (split; [done|]). apply given_up_nil.
    - exfalso. pose proof (wf_used_first s nd Hw) as Hf. rewrite Ens in Hf. specialize (Hf eq_refl).
      apply Forall_cons in Hlens as [_ Hlens]. pose proof (sum_len_nonneg _ Hlens). cbn in Hl. lia. }
  destruct (b_nodes (s_base s)) as [|beg ns] eqn:Ens; [cbn in Hl; lia|].
  pose proof (wf_used_first s beg Hw) as Hf. rewrite Ens in Hf. specialize (Hf eq_refl).
  assert (Hgo : wp (vstr_extern_inline_del 1 (b_len (s_base s))) (mkSt (s_heap s) (s_conf s) b') (λ _ s', freed s s')).
  { unfold vstr_extern_inline_del. wp_step. apply wp_gets. cbn [s_base]. rewrite El. cbv zeta.
    rewrite bool_decide_eq_true_2 by (rewrite poslast_id by lia; lia). cbn [negb].
    rewrite decide_True by lia. rewrite decide_True by lia. wp_step.
    apply vstr__del_all_emptied; cbn [s_heap s_conf s_base]; rewrite ?En; try done.
    intros s4 [F1 F2 F3 F4 F5 F6 F7 F8 F9 H4 V4 C4 M4 E4 O4 G4]. cbn [s_base s_conf s_heap] in *. rewrite ?En in O4, G4.
    eapply wp_mono; [apply cache_del_none; rewrite F6, F7, F8; auto|].
    assert (Hn4 : no_cstr_ref (s_base s4)) by (intros d; rewrite F8; apply Hn). cbn beta.
    intros _ s5 Hs5. wp_step. destruct Hs5 as [->| ->]; unfold freed, spare_ok; rewrite <- Eg, ?Ens.
    - do 7 (split; [first [done|by split]|]). exact G4.
    - cbn [s_base s_heap s_conf on_base]. destruct (s_base s4). do 7 (split; [first [done|by split]|]). exact G4. }
  destruct (negb _); [exact Hgo|]. rewrite En. cbn [head].
  destruct (last (beg :: ns)) as [end_|] eqn:Elast; [|by apply last_None in Elast].
  rewrite decide_False.
  2:{ intros [_ H2]. rewrite Eu in H2. cbn in Hl, Hsz. apply Forall_cons in Hlens as [_ Hlens].
      pose proof (sum_len_nonneg _ Hlens). rewrite u64_id in H2 by lia. lia. }
  rewrite decide_False; [exact Hgo|]. intros [H2 _]. rewrite Eu in H2.
  apply last_Some in Elast as [l El2]. rewrite El2 in Hl, Hsz, Hlens. rewrite sum_len_app in Hl, Hsz. cbn in Hl, Hsz.
  apply Forall_app in Hlens as [Hl1 [Hl2 _]%Forall_cons]. cbn in Hl2. destruct l as [|x l].
  - injection El2 as -> ->. cbn in Hl. rewrite decide_True in H2 by done.
    pose proof (hi_nodes _ _ _ H) as Hok. apply Forall_cons in Hok as [[Hmax _] _].
    unfold VSTR_MAX_NODE_ALL in Hmax. destruct (decide (b_used (s_base s) = 0)) as [Hu|Hu].
    + rewrite Hu in *. rewrite u64_id in H2 by (unfold SIZE_MAX in *; lia). lia.
    + unfold u64 in H2. rewrite <- (Z.mod_add _ 1), Z.mod_small in H2 by lia. lia.
  - injection El2 as -> ->. rewrite decide_False in H2 by (cbn; rewrite length_app; cbn; lia).
    apply Forall_cons in Hl1 as [_ Hl1]. pose proof (sum_len_nonneg _ Hl1). cbn in Hl, Hsz.
    rewrite u64_id in H2 by (unfold SIZE_MAX in *; lia). lia.
Qed.

(** ** A configuration that is not used any more *)

(** What a configuration does on its own is done with a string that has nothing. *)
Lemma wwp_conf_of {A} c (m : M A) w conf (Q : A → St → Prop) :
  world_inv w → w_confs w !! c = Some conf →
  (∀ OT', heap_inv (OT := OT') (w_heap w) conf [] → wp m (mkSt (w_heap w) conf no_base) (λ a s', s_base s' = no_base ∧
     heap_inv (OT := OT') (s_heap s') (s_conf s') [] ∧ buf_sz (s_conf s') = buf_sz conf ∧ Q a s')) →
  wwp (on_conf_of c m) w (λ a w', ∃ s', Q a s' ∧ world_inv w' ∧ strings w' = strings w ∧
    w' = mkWorld (s_heap s') (<[c := s_conf s']> (w_confs w)) (w_bases w) (w_lives w)).
Proof.
  intros Hw Hc Hm. set (k := fresh (dom (w_bases w))).
  assert (Hk : w_bases w !! k = None) by (apply not_elem_of_dom, is_fresh). clearbody k.
  destruct no_base_inv as [Hnb Hnc]. destruct (world_new_string w k c conf no_base Hw Hk Hc eq_refl Hnb Hnc) as [Hw1 E1].
  set (w1 := mkWorld _ _ _ _) in *. set (s := mkSt (w_heap w) conf no_base) in *.
  assert (Hb1 : w_bases w1 !! k = Some (c, s_base s)) by apply lookup_insert_eq.
  assert (Hs1 : st_of w1 k = Some s) by (apply st_of_Some; by exists c).
  assert (Hf : wf (OT := world_others w1 k) s) by by eapply string_focus.
  specialize (Hm _ (wf_heap (OT := world_others w1 k) _ Hf)). apply wp_run in Hm as (a&s'&Hrun&Eb&Hi&Hz&HQ).
  unfold wwp, on_conf_of. rewrite Hc. cbn. unfold s in Hrun. rewrite Hrun. exists s'. split; [done|].
  assert (Hw' : wf (OT := world_others w1 k) s') by (split; rewrite ?Eb; [exact Hi|done..]).
  destruct (strings_put w1 k s s' Hw1 Hs1 Hw' Hz) as [Hw2 E2]. rewrite (put_st_eq w1 k c s Hb1) in Hw2, E2.
  destruct (world_free_string _ k c (s_base s') Hw2) as [Hw3 E3]; [apply lookup_insert_eq|by rewrite Eb|].
  match type of Hw3 with world_inv ?W => assert (Ew : W = mkWorld (s_heap s') (<[c := s_conf s']> (w_confs w)) (w_bases w) (w_lives w)) end.
  { cbn. by rewrite insert_insert_eq, delete_insert_id. }
  rewrite Ew in Hw3, E3. split_and!; [exact Hw3| |done]. rewrite E3, E2, E1, insert_insert_eq, delete_insert_id; [done|].
  unfold strings. by rewrite lookup_fmap, Hk.
Qed.

Lemma free_spares_spec OT' h conf b : b_nodes b = [] →
  heap_inv (OT := OT') h conf [] → wp free_spares (mkSt h conf b) (λ _ s', s_base s' = b ∧
    heap_inv (OT := OT') (s_heap s') (s_conf s') [] ∧ spares (s_conf s') = [] ∧ buf_sz (s_conf s') = buf_sz conf ∧
    mem_without (spares conf) h (s_heap s')).
Proof.
  intros Eb H. unfold free_spares. wp_step. apply wp_gets. cbn [s_conf].
  assert (Hn : ∀ t, Z.to_nat (sp_num (get_spare t conf)) = length (sp_nodes (get_spare t conf))).
  { intros t. rewrite (hi_spare_num (OT := OT') _ _ _ H t). lia. }
  wp_step. eapply wp_mono; [apply (vstr_free_spare_nodes_spec (OT := OT') NODE_BUF)|]; cbn [s_heap s_conf s_base]; rewrite ?Eb; [done|apply (Hn NODE_BUF)|].
  intros _ s1 (B1&H1&C1&M1). rewrite <- B1 in Eb.
  wp_step. eapply wp_mono; [apply (vstr_free_spare_nodes_spec (OT := OT') NODE_NON)|]; rewrite ?Eb; [done|rewrite C1, get_set_spare_ne by done; apply (Hn NODE_NON)|].
  intros _ s2 (B2&H2&C2&M2). rewrite <- B2 in Eb.
  wp_step. eapply wp_mono; [apply (vstr_free_spare_nodes_spec (OT := OT') NODE_PTR)|]; rewrite ?Eb; [done|rewrite C2, C1, !get_set_spare_ne by done; apply (Hn NODE_PTR)|].
  intros _ s3 (B3&H3&C3&M3). rewrite <- B3 in Eb.
  eapply wp_mono; [apply (vstr_free_spare_nodes_spec (OT := OT') NODE_REF)|]; rewrite ?Eb; [done|rewrite C3, C2, C1, !get_set_spare_ne by done; apply (Hn NODE_REF)|].
  intros _ s4 (B4&H4&C4&M4). cbn [s_base s_heap s_conf] in *.
  split; [congruence|]. split; [done|]. do 2 (split; [rewrite C4, C3, C2, C1; by destruct conf|]).
  rewrite C1, get_set_spare_ne in M2 by done. rewrite C2, C1, !get_set_spare_ne in M3 by done. rewrite C3, C2, C1, !get_set_spare_ne in M4 by done.
  unfold spares. eapply mem_without_trans; [exact M1|]. eapply mem_without_trans; [exact M2|]. by eapply mem_without_trans.
Qed.

(** A configuration without strings and spare nodes can be freed. *)
Lemma world_drop_conf w c conf :
  world_inv w → w_confs w !! c = Some conf → spares conf = [] → users (w_bases w) c = 0 →
  let w' := mkWorld (w_heap w) (delete c (w_confs w)) (w_bases w) (delete c (w_lives w)) in
  world_inv w' ∧ strings w' = strings w.
Proof.
  intros [HC HB HS] Hc Hsp Hu w'. split; [|done]. split.
  - intros d conf'. cbn. intros [_ Hd]%lookup_delete_Some. by apply (HC d).
  - intros j d b Hj. cbn. destruct (HB j d b Hj) as (conf'&Hd&?). exists conf'. split; [|done].
    apply lookup_delete_Some. split; [|done]. intros <-. by apply (users_none _ _ Hu j c b Hj).
  - eapply shared_inv_perm; [| |exact HS]; [|done]. unfold owned. cbn.
    rewrite (all_spares_delete _ _ _ Hc), Hsp. done.
Qed.

(** One reference to configuration [c] is not one of a string any more. *)
Definition lives_owed (c : nat) (w : World) : Prop := ∀ d,
  match w_confs w !! d, w_lives w !! d with
  | Some _, Some l => life_ok (users (w_bases w) d + if decide (d = c) then 1 else 0) l
  | None, None => True
  | _, _ => False
  end.
Lemma lives_owed_get w c conf : lives_owed c w → w_confs w !! c = Some conf →
  ∃ l, w_lives w !! c = Some l ∧ life_ok (users (w_bases w) c + 1) l.
Proof.
  intros H Hc. specialize (H c). rewrite Hc, decide_True in H by done.
  destruct (w_lives w !! c) as [l|]; [by exists l|done].
Qed.

(** The nodes [l] are spare nodes of the configuration, or freed with it. *)
Definition nodes_back (c : nat) (l : list positive) (w' : World) : Prop :=
  match w_confs w' !! c with
  | Some conf' => spares conf' ≡ₚ l
  | None => ∀ a, a ∈ l → h_mem (w_heap w') !! a = None
  end.

Lemma vstr__del_conf_spec w c conf :
  world_inv w → lives_owed c w → w_confs w !! c = Some conf →
  wwp (vstr__del_conf c) w (λ _ w', world_inv w' ∧ lives_inv w' ∧ strings w' = strings w ∧ w_bases w' = w_bases w ∧
    nodes_back c (spares conf) w' ∧ h_refs (w_heap w') = h_refs (w_heap w) ∧
    ∀ a, h_mem (w_heap w) !! a = None → h_mem (w_heap w') !! a = None).
Proof.
  intros Hw HL Hc. destruct (lives_owed_get _ _ _ HL Hc) as (l&Hl&Hok). destruct Hok as [R1 R2 R3 R4 R5 R6].
  pose proof (users_nonneg (w_bases w) c) as Hu. unfold vstr__del_conf. wwp_step. eapply wwp_upd_life; [done|].
  set (l1 := set_ref _ l). assert (Er : cl_ref l1 = cl_ref l - 1).
  { unfold l1. destruct l. cbn in *. rewrite u32_id; unfold UINT_MAX in *; lia. }
  assert (Ew1 : world_inv (put_life c l1 w)) by by apply world_inv_put_life.
  wwp_step. eapply (wwp_life_at _ c l1); [apply lookup_insert_eq|]. case_decide as Hz.
  2:{ wwp_step. split; [done|]. split; [|do 2 (split; [done|]); split; [unfold nodes_back; cbn; by rewrite Hc|done]]. intros d. specialize (HL d). cbn. rewrite lookup_insert.
      destruct (decide (c = d)) as [<-|E].
      - rewrite Hc. unfold l1 in *. destruct l. cbn in *. split; cbn in *; try done; lia.
      - by rewrite decide_False, Z.add_0_r in HL by congruence. }
  wwp_step. eapply wwp_mono.
  { apply (wwp_conf_of c free_spares (put_life c l1 w) conf (λ _ s', spares (s_conf s') = [] ∧ mem_without (spares conf) (w_heap w) (s_heap s'))); [done|done|].
    intros OT' H. eapply wp_mono; [by apply (free_spares_spec OT')|]. intros _ s' (?&?&?&?&?). split_and?; done. }
  intros _ w2 (s'&[Hsp [Hrf Hmm]]&Hw2&E2&Ew2). wwp_step. unfold vstr__del_grpalloc.
  eapply (wwp_upd_life w2 c _ l1); [rewrite Ew2; cbn; apply lookup_insert_eq|].
  match goal with |- wwp _ (put_life c ?x w2) _ => generalize x; intros l2 end. unfold wwp, drop_conf.
  destruct (world_drop_conf (put_life c l2 w2) c (s_conf s')) as [Hw3 E3].
  - by apply world_inv_put_life.
  - rewrite Ew2. apply lookup_insert_eq.
  - done.
  - rewrite Ew2. cbn. lia.
  - split; [exact Hw3|]. split; [|split; [by rewrite E3|split; [by rewrite Ew2|]]].
    2:{ rewrite Ew2. cbn. split; [|split; [done|]].
        - unfold nodes_back. cbn. rewrite lookup_delete_eq. intros a Ha. by rewrite Hmm, decide_True.
        - intros a Ha. rewrite Hmm. by case_decide. }
    intros d. rewrite Ew2. cbn. rewrite !lookup_delete.
    destruct (decide (c = d)) as [<-|E]; [done|]. rewrite !lookup_insert_ne by done. specialize (HL d).
    by rewrite decide_False, Z.add_0_r in HL by congruence.
Qed.

Lemma vstr_free_conf_spec w c conf l :
  world_inv w → lives_inv w → w_confs w !! c = Some conf → w_lives w !! c = Some l → 0 < cl_user_ref l →
  wwp (vstr_free_conf c) w (λ _ w', world_inv w' ∧ lives_inv w' ∧ strings w' = strings w ∧ w_bases w' = w_bases w).
Proof.
  intros Hw HL Hc Hl Hu. destruct (lives_inv_get _ _ _ HL Hc) as (l0&E&Hok). rewrite Hl in E. injection E as <-.
  unfold vstr_free_conf. wwp_step. eapply wwp_upd_life; [done|].
  eapply wwp_mono; [apply (vstr__del_conf_spec _ c conf); [by apply world_inv_put_life| |done]|by intros _ w' (?&?&?&?&_)].
  intros d. specialize (HL d). cbn. rewrite lookup_insert. pose proof (users_nonneg (w_bases w) c).
  destruct (decide (c = d)) as [<-|Hne].
  - rewrite Hc, decide_True by done. destruct Hok as [R1 R2 R3 R4 R5 R6]. destruct l. cbn in *.
    split; cbn; try done; rewrite u32_id; unfold UINT_MAX in *; lia.
  - by rewrite decide_False, Z.add_0_r by congruence.
Qed.

End others.

Section free.
Context {OT : Others}.

(** A string is freed: it is gone, and the others are as they were. *)
Lemma vstr_free_base_spec w k c s :
  world_inv w → lives_inv w → st_of w k = Some s → w_bases w !! k = Some (c, s_base s) → no_cstr_ref (s_base s) →
  (∀ c l, w_lives w !! c = Some l → cl_spare_base_num l + 1 ≤ UINT_MAX) →
  wwp (vstr_free_base k) w (λ _ w', world_inv w' ∧ lives_inv w' ∧ strings w' = delete k (strings w) ∧
    w_bases w' = delete k (w_bases w) ∧ nodes_back c (st_own s) w' ∧
    given_up (b_nodes (s_base s)) (w_heap w) (w_heap w')).
Proof.
  intros Hw HL Hs Hb Hcs Hmax. pose proof Hs as (c'&Hb'&Hc&Hh)%st_of_Some. rewrite Hb in Hb'. injection Hb' as <-.
  pose proof (base_wf w k s Hw Hs) as Hws. unfold vstr_free_base. wwp_step.
  unfold conf_of, wwp at 1. rewrite Hb. cbn. wwp_step. eapply wwp_on_string; [exact Hs|].
  eapply wp_mono; [apply vstr__free_cache_spec; [apply (ci_vec _ (wf_cache (OT := world_others w k) _ Hws))|done]|].
  intros _ s1 (b1&->&Hun). wwp_step. eapply wwp_on_string; [by eapply st_of_put_same|].
  eapply wp_mono; [by apply (del_uncached_spec (OT := world_others w k) s b1)|].
  intros ok s2 (En&Hi&Hsp&Hn2&Hcf&_&Ho&Hg2). cbn beta. rewrite put_st_put.
  assert (Hs2 : st_of (put_st k s2 w) k = Some s2) by by eapply st_of_put_same.
  wwp_step. eapply wwp_reads; [exact Hs2|]. apply wp_gets. split; [done|]. rewrite (put_st_eq w k c s Hb).
  destruct (lives_inv_get _ _ _ HL Hc) as (l&Hl&Hok).
  wwp_step. eapply (wwp_life_at _ c l); [exact Hl|]. wwp_step.
  (* with a string that has nothing in its place *)
  set (sn := mkSt (s_heap s2) (s_conf s2) no_base). destruct no_base_inv as [Hnb Hnc].
  assert (Hwn : wf (OT := world_others w k) sn) by by split.
  assert (Hzn : buf_sz (s_conf sn) = buf_sz (s_conf s)) by apply Hcf.
  destruct (strings_put w k s sn Hw Hs Hwn Hzn) as [Hwn2 En2]. rewrite (put_st_eq w k c s Hb) in Hwn2, En2.
  destruct (world_free_string _ k c no_base Hwn2 ltac:(apply lookup_insert_eq) eq_refl) as [Hw3 E3]. rewrite En2, delete_insert_eq in E3.
  match type of Hw3 with world_inv ?W => assert (Ew : W = mkWorld (s_heap s2) (<[c := s_conf s2]> (w_confs w)) (delete k (w_bases w)) (w_lives w)) end.
  { cbn. by rewrite delete_insert_eq. }
  rewrite Ew in Hw3, E3. set (w3 := mkWorld _ _ (delete k (w_bases w)) _) in *.
  assert (Hrest : ∀ l', life_ok (users (w_bases w) c) l' → wwp (free_string k;; vstr__del_conf c)
    (put_life c l' (mkWorld (s_heap s2) (<[c := s_conf s2]> (w_confs w)) (<[k := (c, s_base s2)]> (w_bases w)) (w_lives w)))
    (λ _ w', world_inv w' ∧ lives_inv w' ∧ strings w' = delete k (strings w) ∧ w_bases w' = delete k (w_bases w) ∧
      nodes_back c (st_own s) w' ∧
      given_up (b_nodes (s_base s)) (w_heap w) (w_heap w'))).
  { intros l' Hok'. wwp_step. unfold free_string, wwp at 1. cbn. rewrite delete_insert_eq.
    change (mkWorld _ _ (delete k (w_bases w)) _) with (put_life c l' w3).
    eapply wwp_mono; [apply (vstr__del_conf_spec _ c (s_conf s2)); [by apply world_inv_put_life| |apply lookup_insert_eq]|].
    - intros d. specialize (HL d). cbn. rewrite !lookup_insert, (users_delete _ k c (s_base s) d Hb).
      destruct (decide (c = d)) as [<-|Hne].
      + rewrite decide_True by done. by replace (_ - 1 + 1) with (users (w_bases w) c) by lia.
      + rewrite (decide_False (P := d = c)) by congruence. by rewrite Z.sub_0_r, Z.add_0_r.
    - intros _ w' (?&?&E&Eb&Eback&Erf&Emm). do 2 (split; [done|]). split; [by rewrite E|]. split; [by rewrite Eb|]. split.
      + unfold nodes_back, st_own in *. destruct (w_confs w' !! c); [by rewrite Eback, Ho|].
        intros a Ha. apply Eback. by rewrite Ho.
      + rewrite Hh in Hg2. eapply given_up_less; [exact Hg2|exact Erf|exact Emm]. }
  case_decide as Hg.
  - eapply (wwp_upd_life _ c _ l); [exact Hl|]. apply Hrest. pose proof (Hmax c l Hl) as Hm.
    destruct Hok as [R1 R2 R3 R4 R5 R6], Hsp as [Hgr2 Hv2]. destruct l. cbn in *.
    split; cbn; try done; [rewrite u32_id; unfold UINT_MAX in *; lia|unfold UINT_MAX in *; lia|].
    constructor; [|done]. split; [|done]. by split.
  - wwp_step. specialize (Hrest l Hok). unfold put_life in Hrest. cbn in Hrest. rewrite (insert_id (w_lives w)) in Hrest by done. exact Hrest.
Qed.
End free.
