(* ===== verification/WorldOps.v ===== *)
(** * The library as one machine: strings are made, edited, copied from one to
    another and freed, and configurations are used and given up; each is the
    same operation on a map of lists. *)
From Stdlib Require Import ZArith Lia ZifyBool.
From stdpp Require Import base tactics list numbers option gmap.
From S2P Require Import Prelude State Wp Ref Cache Core Base Add Del NoCstr Inv PosLemmas SpareLemmas SplitLemmas CacheLemmas AddLemmas StringLemmas AddSpec AddOps AddTheorems BaseTheorems DelTheorems Edits IterLemmas Frame World WorldInv AddVstr AddVstrSpec Life LifeSpec.

(** ** What all operations keep, whether or not they are used as they should *)
Definition kept (w : World) : Prop :=
  lives_inv w ∧ ∀ k c b, w_bases w !! k = Some (c, b) → no_cstr_ref b.
Definition wleaves {A} (m : W A) : Prop := ∀ w a w', m w = Some (a, w') → kept w → kept w'.

Section wleaves.
Context {A B : Type}.
Lemma wleaves_ret (a : A) : wleaves (mret a).
Proof. by intros w x w' [= <- <-]. Qed.
Lemma wleaves_undef : wleaves (@wundef A).
Proof. by intros w a w' [=]. Qed.
Lemma wleaves_bind (m : W A) (f : A → W B) : wleaves m → (∀ a, wleaves (f a)) → wleaves (m ≫= f).
Proof.
  intros Hm Hf w b w' E. unfold mbind, W_bind in E. destruct (m w) as [[a w1]|] eqn:E1; [|done].
  intros HP. by eapply Hf; [|eapply Hm].
Qed.
Lemma wleaves_on_string k (m : M A) : leaves m → wleaves (on_string k m).
Proof.
  intros Hm w a w' E [HL HN]. unfold on_string in E. destruct (st_of w k) as [s|] eqn:Hs; [|done]. cbn in E.
  destruct (m s) as [[a' s']|] eqn:Em; [|done]. injection E as <- <-. split; [by eapply lives_inv_put|].
  pose proof Hs as (c&Hb&_&_)%st_of_Some. unfold put_st. rewrite Hb. intros j d b. cbn. rewrite lookup_insert.
  case_decide; [|apply HN]. intros [= <- <-]. eapply Hm; [exact Em|]. by eapply HN.
Qed.
Lemma wleaves_get_base k (f : Vstr_base → W B) :
  (∀ b, no_cstr_ref b → wleaves (f b)) → wleaves (on_string k get_base ≫= f).
Proof.
  intros Hf w b w' E HK. unfold mbind, W_bind in E.
  destruct (on_string k get_base w) as [[b0 w1]|] eqn:E1; [|done].
  unfold on_string in E1. destruct (st_of w k) as [s|] eqn:Hs; [|done]. cbn in E1. injection E1 as <- <-.
  rewrite (put_st_refl _ _ _ Hs) in E. pose proof Hs as (c&Hb&_&_)%st_of_Some.
  eapply Hf; [|exact E|done]. destruct HK as [_ HN]. by eapply HN.
Qed.
End wleaves.

Create HintDb wleaves.
Ltac wleaves_step :=
  match goal with
  | |- wleaves (mret _) => apply wleaves_ret
  | |- wleaves wundef => apply wleaves_undef
  | |- wleaves (on_string _ get_base ≫= _) => apply wleaves_get_base; intros
  | |- wleaves (_ ≫= _) => apply wleaves_bind; [|intros]
  | |- wleaves (on_string _ _) => apply wleaves_on_string; solve [leaves]
  | |- wleaves (match ?x with _ => _ end) => destruct x eqn:?
  | |- wleaves _ => solve [auto with wleaves]
  end.
Ltac wleaves := cbv zeta; repeat (cbv beta zeta; wleaves_step).

Lemma leaves_node_of a : leaves (node_of a).
Proof. unfold node_of. leaves. Qed.
#[export] Hint Resolve leaves_node_of : leaves.
Lemma leaves_next_node a : leaves (next_node a).
Proof. unfold next_node. leaves. Qed.
#[export] Hint Resolve leaves_next_node : leaves.
Lemma wleaves_add_vstr_node base pos from scan off len type : wleaves (vstr__add_vstr_node base pos from scan off len type).
Proof. unfold vstr__add_vstr_node. wleaves. Qed.
#[export] Hint Resolve wleaves_add_vstr_node : wleaves.
Lemma wleaves_add_vstr_nodes fuel base from type : ∀ pos scan off len,
  wleaves (vstr__add_vstr_nodes fuel base pos from scan off len type).
Proof. induction fuel; intros; cbn [vstr__add_vstr_nodes]; wleaves. Qed.
#[export] Hint Resolve wleaves_add_vstr_nodes : wleaves.
Lemma wleaves_cstr_cpy base pos len from from_pos : wleaves (vstr__cache_cstr_cpy base pos len from from_pos).
Proof.
  unfold vstr__cache_cstr_cpy. apply wleaves_get_base. intros b Hb. apply wleaves_get_base. intros fb Hfb.
  replace (cstr_cpy_wanted b fb len from_pos) with (@None (cache_data_cstr * cache_data_cstr)); [apply wleaves_ret|].
  unfold cstr_cpy_wanted. destruct (negb _); [done|]. destruct (cache_get_cstr b); [|done].
  destruct (cache_get_cstr fb) as [d|] eqn:E; [|done]. rewrite decide_True; [done|]. right. left. by eapply no_cstr_get.
Qed.
Lemma wleaves_fail_beg base from : wleaves (add_vstr_fail_beg base from).
Proof. unfold add_vstr_fail_beg. wleaves. Qed.
#[export] Hint Resolve wleaves_cstr_cpy wleaves_fail_beg : wleaves.
Lemma wleaves_fail_end base from pos len : wleaves (add_vstr_fail_end base from pos len).
Proof. unfold add_vstr_fail_end. wleaves. Qed.
Lemma wleaves_add_vstr_split base from i pos : wleaves (add_vstr_split base from i pos).
Proof. unfold add_vstr_split. wleaves. Qed.
#[export] Hint Resolve wleaves_fail_end wleaves_add_vstr_split : wleaves.
Lemma wleaves_add_vstr conv all_ref base pos from from_pos len type :
  type = VSTR_TYPE_ADD_DEF ∨ type = VSTR_TYPE_ADD_ALL_BUF →
  wleaves (vstr_add_vstr conv all_ref base pos from from_pos len type).
Proof.
  intros Hty. unfold vstr_add_vstr. apply wleaves_get_base. intros b _. apply wleaves_get_base. intros fb _. cbv zeta.
  rewrite (decide_False (P := type = VSTR_TYPE_ADD_ALL_REF)) by (by destruct Hty; subst).
  rewrite (decide_False (P := type = VSTR_TYPE_ADD_BUF_REF)) by (by destruct Hty; subst). wleaves.
Qed.

(** ** The machine *)
Inductive world_op :=
| Op_make (c : nat)
| Op_free (k : nat)
| Op_edit (k : nat) (e : edit)
| Op_add_vstr (base : nat) (pos : Z) (from : nat) (from_pos len : Z) (copy : bool)
| Op_use_conf (c : nat)
| Op_free_conf (c : nat).
Inductive op_result := R_string (r : option nat) | R_done (ok : bool).

(** What the operation is on a map of lists: [op_spec o m r m'] *)
Inductive op_spec : world_op → gmap nat (list byte_or_non) → op_result → gmap nat (list byte_or_non) → Prop :=
| spec_make c m k : m !! k = None → op_spec (Op_make c) m (R_string (Some k)) (<[k := []]> m)
| spec_make_fails c m : op_spec (Op_make c) m (R_string None) m
| spec_free k m : is_Some (m !! k) → op_spec (Op_free k) m (R_done true) (delete k m)
| spec_edit k e m l l' : m !! k = Some l → edit_abs e l = Some l' → op_spec (Op_edit k e) m (R_done true) (<[k := l']> m)
| spec_edit_fails k e m : op_spec (Op_edit k e) m (R_done false) m
| spec_add_vstr base pos from from_pos len copy m C D :
    m !! base = Some C → m !! from = Some D → pos ≤ zlen C → len = 0 ∨ from_pos + len - 1 ≤ zlen D →
    op_spec (Op_add_vstr base pos from from_pos len copy) m (R_done true)
      (<[base := ztake pos C ++ substr from_pos len D ++ zdrop pos C]> m)
| spec_add_vstr_fails base pos from from_pos len copy m :
    op_spec (Op_add_vstr base pos from from_pos len copy) m (R_done false) m
| spec_use_conf c m : op_spec (Op_use_conf c) m (R_done true) m
| spec_free_conf c m : op_spec (Op_free_conf c) m (R_done true) m.
Inductive ops_spec : list world_op → gmap nat (list byte_or_non) → list op_result → gmap nat (list byte_or_non) → Prop :=
| ops_nil m : ops_spec [] m [] m
| ops_cons o os m r m1 rs m2 : op_spec o m r m1 → ops_spec os m1 rs m2 → ops_spec (o :: os) m (r :: rs) m2.

Section machine.
Context {OT : Others}.
Context (conv : nat → Z → Z → W bool) (all_ref : nat → Z → nat → Z → Z → W bool).

Definition op_run (o : world_op) : W op_result :=
  match o with
  | Op_make c => r ← vstr_make_base c; mret (R_string r)
  | Op_free k => vstr_free_base k;; mret (R_done true)
  | Op_edit k e => ok ← on_string k (edit_run e); mret (R_done ok)
  | Op_add_vstr base pos from from_pos len copy =>
    ok ← vstr_add_vstr conv all_ref base pos from from_pos len (if copy then VSTR_TYPE_ADD_ALL_BUF else VSTR_TYPE_ADD_DEF);
    mret (R_done ok)
  | Op_use_conf c => vstr__add_user_conf c;; mret (R_done true)
  | Op_free_conf c => vstr_free_conf c;; mret (R_done true)
  end.
Fixpoint ops_run (os : list world_op) : W (list op_result) :=
  match os with
  | [] => mret []
  | o :: os => r ← op_run o; rs ← ops_run os; mret (r :: rs)
  end.

(** What the caller owes: strings and configurations that there are, ranges
    inside the strings, data that is the caller's, and counters that do not
    overflow *)
Definition op_ok (w : World) (o : world_op) : Prop :=
  match o with
  | Op_make c => ∃ conf l, w_confs w !! c = Some conf ∧ w_lives w !! c = Some l ∧ cl_ref l + 1 ≤ UINT_MAX
  | Op_free k => is_Some (st_of w k) ∧ ∀ c l, w_lives w !! c = Some l → cl_spare_base_num l + 1 ≤ UINT_MAX
  | Op_edit k e => world_edit_ok w k e
  | Op_add_vstr base pos from from_pos len _ => ∃ s t, st_of w base = Some s ∧ st_of w from = Some t ∧ base ≠ from ∧
      0 ≤ pos ∧ 1 ≤ from_pos ∧ 0 ≤ len ∧ (from_pos + len - 1 ≤ b_len (s_base t) ∨ b_len (s_base t) < from_pos) ∧
      b_len (s_base s) + len ≤ VSTR_MAX_NODE_ALL ∧ world_room (3 * len + 1) (3 * len + 1) w
  | Op_use_conf c => ∃ l, w_lives w !! c = Some l ∧ cl_ref l + 1 ≤ UINT_MAX
  | Op_free_conf c => ∃ l, w_lives w !! c = Some l ∧ 0 < cl_user_ref l
  end.
Fixpoint ops_ok (os : list world_op) (w : World) : Prop :=
  match os with
  | [] => True
  | o :: os => op_ok w o ∧ ∀ r w', op_run o w = Some (r, w') → ops_ok os w'
  end.

Definition library_inv (w : World) : Prop := world_inv w ∧ kept w.
Definition op_post (o : world_op) (w : World) (r : op_result) (w' : World) : Prop :=
  library_inv w' ∧ op_spec o (strings w) r (strings w').

Lemma wwp_wleaves {A} (m : W A) w (Q : A → World → Prop) :
  wleaves m → kept w → wwp m w Q → wwp m w (λ a w', Q a w' ∧ kept w').
Proof. intros Hm Hk. unfold wwp. destruct (m w) as [[a w']|] eqn:E; [|done]. intros HQ. split; [done|by eapply Hm]. Qed.
End machine.

Section refine.
Context {OT : Others}.
Context (conv : nat → Z → Z → W bool) (all_ref : nat → Z → nat → Z → Z → W bool).

Lemma op_edit_spec w k e : library_inv w → world_edit_ok w k e →
  wwp (on_string k (edit_run e)) w (λ ok w', op_post (Op_edit k e) w (R_done ok) w').
Proof.
  intros [Hw Hk] (s&Hs&He). eapply wwp_mono.
  { apply wwp_wleaves; [apply wleaves_on_string; destruct e; cbn; auto with leaves|done|].
    apply (wwp_string k (edit_run e) w s (λ ok s', edit_post (OT := world_others w k) e s ok s')); [done|done|].
    intros Hws. eapply wp_mono; [by apply (edit_run_spec (OT := world_others w k))|]. intros ok s' HP.
    split; [by eapply (edit_post_wf (OT := world_others w k))|]. split; [|done].
    by apply (edit_post_conf (OT := world_others w k)) in HP as [? _]. }
  cbn beta. intros ok w' [(s'&HS&HP) Hk']. split; [split; [by eapply st_world|done]|].
  rewrite (st_strings _ _ _ _ HS). assert (E : strings w !! k = Some (st_content s)) by by rewrite strings_lookup, Hs.
  unfold edit_post in HP. destruct (edit_abs e (st_content s)) as [l|] eqn:Ea.
  - destruct HP as (_&_&HP). destruct ok; [rewrite HP; by econstructor|].
    destruct HP as [HP _]. rewrite HP, insert_id by done. constructor.
  - destruct HP as [-> ->]. rewrite insert_id by done. constructor.
Qed.

Lemma op_run_spec w o : library_inv w → op_ok w o → wwp (op_run conv all_ref o) w (λ r w', op_post o w r w').
Proof.
  intros Hi. pose proof Hi as [Hw [HL HN]]. destruct o as [c|k|k e|base pos from from_pos len copy|c|c]; cbn [op_ok op_run].
  - intros (conf&l&Hc&Hl&Hmax). wwp_step. eapply wwp_mono; [by eapply vstr_make_base_spec|].
    intros [k|] w'.
    + intros (Hw'&HL'&Hnew&Est&(s&Hs&Hcs&_)&Hrest). wwp_step. split; [|rewrite Est; by constructor].
      split; [done|]. split; [done|]. intros j d b Hj. destruct (decide (j = k)) as [->|Hne].
      * apply st_of_Some in Hs as (c'&Hb&_). rewrite Hb in Hj. by injection Hj as <- <-.
      * rewrite Hrest in Hj by done. by eapply HN.
    + intros (Hw'&HL'&Est&Eb&_). wwp_step. split; [|rewrite Est; constructor]. split; [done|]. split; [done|].
      rewrite Eb. exact HN.
  - intros ([s Hs]&Hmax). pose proof Hs as (c&Hb&_&_)%st_of_Some. wwp_step. eapply wwp_mono; [eapply vstr_free_base_spec; try done; by eapply HN|].
    intros _ w' (Hw'&HL'&Est&Eb&_). wwp_step. split.
    + split; [done|]. split; [done|]. rewrite Eb. intros j d b [_ Hj]%lookup_delete_Some. by eapply HN.
    + rewrite Est. constructor. rewrite strings_lookup, Hs by done. by eexists.
  - intros He. wwp_step. eapply wwp_mono; [by apply op_edit_spec|]. intros ok w' HP. by wwp_step.
  - intros (s&t&Hs&Ht&Hne&Hpos&Hfp&Hlen&Hrange&Hmax&Hroom). wwp_step.
    set (type := if copy then VSTR_TYPE_ADD_ALL_BUF else VSTR_TYPE_ADD_DEF).
    assert (Hty : type = VSTR_TYPE_ADD_DEF ∨ type = VSTR_TYPE_ADD_ALL_BUF) by (unfold type; destruct copy; auto).
    pose proof Ht as (c&Hb&_&_)%st_of_Some. pose proof (HN _ _ _ Hb) as Hcs.
    assert (Hn : no_cstr (s_base t)).
    { unfold no_cstr. destruct (cache_get_cstr (s_base t)) as [d|] eqn:E; [|done]. left. by eapply no_cstr_get. }
    assert (Es : strings w !! base = Some (st_content s)) by by rewrite strings_lookup, Hs.
    assert (Et : strings w !! from = Some (st_content t)) by by rewrite strings_lookup, Ht.
    pose proof (wf_content_length (OT := world_others w base) _ (base_wf w base s Hw Hs)) as Hzs.
    pose proof (wf_content_length (OT := world_others w from) _ (from_wf w from t Hw Ht)) as Hzt.
    eapply wwp_mono; [apply wwp_wleaves; [by apply wleaves_add_vstr|by split|by eapply vstr_add_vstr_full]|].
    cbn beta. intros ok w' [HP Hk']. wwp_step. case_decide as Hbad.
    + destruct HP as [-> ->]. split; [done|constructor].
    + destruct ok.
      * destruct HP as [Hw' Est]. split; [by split|]. rewrite Est. eapply spec_add_vstr; try done; lia.
      * destruct HP as (Hw'&Est&_). split; [by split|]. rewrite Est. constructor.
  - intros (l&Hl&Hmax). destruct (lives_inv_conf _ _ _ HL Hl) as [conf Hc].
    destruct (lives_inv_get _ _ _ HL Hc) as (l0&E&Hok). rewrite Hl in E. injection E as <-.
    unfold vstr__add_user_conf, vstr__add_conf. wwp_step. wwp_step. eapply wwp_upd_life; [done|].
    eapply wwp_upd_life; [apply lookup_insert_eq|]. wwp_step. split; [|constructor]. split; [by do 2 apply world_inv_put_life|].
    split; [|exact HN]. unfold put_life. cbn [w_heap w_confs w_bases w_lives]. rewrite insert_insert_eq.
    eapply (lives_inv_put_life w c conf); [done|done|]. destruct Hok as [R1 R2 R3 R4 R5 R6]. destruct l. cbn in *.
    split; cbn; try done; rewrite ?u32_id by (pose proof (users_nonneg (w_bases w) c); unfold UINT_MAX in *; lia);
      unfold UINT_MAX in *; lia.
  - intros (l&Hl&Hu). destruct (lives_inv_conf _ _ _ HL Hl) as [conf Hc]. wwp_step.
    eapply wwp_mono; [by eapply vstr_free_conf_spec|]. intros _ w' (Hw'&HL'&Est&Eb). wwp_step.
    split; [|rewrite Est; constructor]. split; [done|]. split; [done|]. rewrite Eb. exact HN.
Qed.

Lemma ops_run_spec os : ∀ w, library_inv w → ops_ok conv all_ref os w →
  wwp (ops_run conv all_ref os) w (λ rs w', library_inv w' ∧ ops_spec os (strings w) rs (strings w')).
Proof.
  induction os as [|o os IH]; intros w Hi Hok; cbn [ops_run]; [wwp_step; split; [done|constructor]|].
  destruct Hok as [Ho Hnext]. pose proof (op_run_spec w o Hi Ho) as HO. apply wwp_run in HO as (r&w1&Hrun&Hi1&HS).
  wwp_step. unfold wwp at 1. rewrite Hrun. wwp_step. eapply wwp_mono; [by apply IH; [|apply (Hnext r)]|].
  intros rs w' [Hi' HSS]. wwp_step. split; [done|]. by econstructor.
Qed.
End refine.
