(* ===== verification/Cmp.v ===== *)
(** * Comparing strings (src/vstr_cmp.c and the inline vstr_cmp_eq functions). *)
From Stdlib Require Import ZArith Lia ZifyBool.
From stdpp Require Import base tactics list numbers option gmap.
From S2P Require Import Prelude State Wp Ref Cache Core Iter World.

(** ** Comparing two runs of bytes *)

(** vstr_wrap_memcmp *)
Fixpoint memcmp (a b : list Z) : Z :=
  match a, b with
  | x :: a, y :: b => if decide (x - y = 0) then memcmp a b else x - y
  | _, _ => 0
  end.

Definition is_ascii_upper (c : Z) : bool := bool_decide (0x41 ≤ c ∧ c ≤ 0x5A).
Definition is_ascii_lower (c : Z) : bool := bool_decide (0x61 ≤ c ∧ c ≤ 0x7A).
Definition is_ascii_digit (c : Z) : bool := bool_decide (0x30 ≤ c ∧ c ≤ 0x39).
Definition to_lower (c : Z) : Z := if is_ascii_upper c then c + 0x20 else c.
Definition to_upper (c : Z) : Z := if is_ascii_lower c then c - 0x20 else c.

Fixpoint vstr__cmp_memcasecmp (str1 str2 : list Z) : Z :=
  match str1, str2 with
  | x :: str1, y :: str2 =>
    let a := to_lower x in
    let b := to_lower y in
    if decide (a - b ≠ 0) then a - b else vstr__cmp_memcasecmp str1 str2
  | _, _ => 0
  end.

(** *** Version numbers: the states of vstr__cmp_vers *)
Inductive vers_state := CMP_NORM | CMP_NUMB | CMP_FRAC | CMP_LEN_POS | CMP_LEN_NEG.
#[export] Instance vers_state_eq_dec : EqDecision vers_state.
Proof. solve_decision. Defined.

(** A plain [char] is signed. *)
Definition schar (c : Z) : Z := if decide (c < 128) then c else c - 256.

Definition vers_main_loop (state : vers_state) : bool :=
  match state with CMP_NORM | CMP_NUMB | CMP_FRAC => true | _ => false end.

(** The switch of the main loop, on a character that both strings have *)
Definition vers_next (state : vers_state) (c : Z) : vers_state :=
  match state with
  | CMP_NORM => if decide (c = 0x30) then CMP_FRAC else if is_ascii_digit c then CMP_NUMB else CMP_NORM
  | CMP_FRAC => if negb (is_ascii_digit c) then CMP_NORM else if decide (c ≠ 0x30) then CMP_NUMB else CMP_FRAC
  | CMP_NUMB => if negb (is_ascii_digit c) then CMP_NORM else CMP_NUMB
  | s => s
  end.

(** The main loop: it stops at the first difference or with the data *)
Fixpoint vers_scan (str1 str2 : list Z) (state : vers_state) : vers_state * Z * list Z * list Z :=
  match str1, str2 with
  | a :: str1', b :: str2' =>
    if vers_main_loop state then
      let diff := schar a - schar b in
      if decide (diff = 0) then vers_scan str1' str2' (vers_next state a)
      else (state, diff, str1, str2)
    else (state, 0, str1, str2)
  | _, _ => (state, 0, str1, str2)
  end.

(** What a difference means in each state; [None] is VSTR__CMP_DONE *)
Definition vers_diff (state : vers_state) (a b : Z) : option vers_state :=
  let state := match state with
    | CMP_NORM => if is_ascii_digit a && bool_decide (a ≠ 0x30) && is_ascii_digit b && bool_decide (b ≠ 0x30)
                  then CMP_NUMB else CMP_NORM
    | s => if negb (is_ascii_digit a) && negb (is_ascii_digit b) then CMP_NORM else s
    end in
  match state with
  | CMP_NORM => None
  | CMP_NUMB => Some CMP_LEN_POS
  | _ => Some CMP_LEN_NEG
  end.

(** The loop over the digits of the two numbers *)
Fixpoint vers_digits (str1 str2 : list Z) : list Z * list Z :=
  match str1, str2 with
  | a :: str1', b :: str2' => if is_ascii_digit a && is_ascii_digit b then vers_digits str1' str2' else (str1, str2)
  | _, _ => (str1, str2)
  end.

(** The value of the constants VSTR__CMP_LEN_POS and VSTR__CMP_LEN_NEG *)
Definition vers_len_val (state : vers_state) : Z := match state with CMP_LEN_POS => 4 | _ => 8 end.

(** [inr d]: VSTR__CMP_DONE with the difference [d] *)
Definition vstr__cmp_vers (str1 str2 : list Z) (state : vers_state) (difference : Z)
    : (vers_state * Z) + Z :=
  let '(state, diff, scan1, scan2) := vers_scan str1 str2 state in
  let difference := if decide (diff ≠ 0) then diff else difference in
  match (if decide (diff ≠ 0) then vers_diff state (hd 0 scan1) (hd 0 scan2) else Some state) with
  | None => inr difference
  | Some state =>
    if vers_main_loop state then inl (state, difference)
    else match vers_digits scan1 scan2 with
    | (a :: _, b :: _) =>
      let difference := if is_ascii_digit a then - vers_len_val state + 4 + 1 else difference in
      let difference := if is_ascii_digit b then vers_len_val state - 4 - 1 else difference in
      inr difference
    | _ => inl (state, difference)
    end
  end.

(** ** The loops over the nodes.  [cmpf] compares two runs of one length:
    [inr r] returns [r]; [longer x b] is the result when the first ([b]) or
    the second string goes on alone. *)
Record comparison (X : Type) := mkCmp {
  cm_cmpf : X → list Z → list Z → X + Z;
  cm_longer : X → bool → Z;
  cm_equal : X → Z;
  cm_init : X }.
Arguments mkCmp {X}. Arguments cm_cmpf {X}. Arguments cm_longer {X}. Arguments cm_equal {X}. Arguments cm_init {X}.

(** [it_len || vstr_iter_fwd_nxt] *)
Definition iter_more (it : Vstr_iter) : M (bool * Vstr_iter) :=
  if decide (it_len it ≠ 0) then mret (true, it) else vstr_iter_fwd_nxt it.

Definition iter_run (n : Z) (it : Vstr_iter) : M (list Z) :=
  match it_ptr it with Some p => mem_load p n | None => undef end.

(** The condition of the loop over two strings *)
Definition cmp_advance (s1 s2 : nat) (tmp : Z) (it1 it2 : Vstr_iter) : W (bool * Vstr_iter * Vstr_iter) :=
  '(more1, it1) ← on_string s1 (iter_more (iter_advance tmp it1));
  if negb more1 then mret (false, it1, iter_advance tmp it2)
  else
    '(more2, it2) ← on_string s2 (iter_more (iter_advance tmp it2));
    mret (more2, it1, it2).

Section compare.
Context {X : Type} (c : comparison X).

Fixpoint cmp_loop (fuel : nat) (s1 s2 : nat) (it1 it2 : Vstr_iter) (x : X) : W Z :=
  let tmp := Z.min (it_len it1) (it_len it2) in
  r ← (if negb (iter_non it1) && negb (iter_non it2) then
         a ← on_string s1 (iter_run tmp it1);
         b ← on_string s2 (iter_run tmp it2);
         mret (cm_cmpf c x a b)
       else if negb (iter_non it1) then mret (inr (cm_longer c x true))
       else if negb (iter_non it2) then mret (inr (cm_longer c x false))
       else mret (inl x));
  match r with
  | inr r => mret r
  | inl x =>
    '(more2, it1, it2) ← cmp_advance s1 s2 tmp it1 it2;
    if (more2 : bool) then
      match fuel with O => wundef | S fuel => cmp_loop fuel s1 s2 it1 it2 x end
    else if decide (it_node it1 ≠ []) then mret (cm_longer c x true)
    else if decide (vstr_iter_len it2 ≠ 0) then mret (cm_longer c x false)
    else mret (cm_equal c x)
  end.

(** VSTR__CMP_DOUBLE_ITER_BEG and the loop *)
Definition cmp_strings (s1 : nat) (pos1 len1 : Z) (s2 : nat) (pos2 len2 : Z) : W Z :=
  r1 ← on_string s1 (vstr_iter_fwd_beg pos1 len1);
  r2 ← on_string s2 (vstr_iter_fwd_beg pos2 len2);
  match r1, r2 with
  | None, None => mret 0
  | None, Some _ => mret (-1)
  | Some _, None => mret 1
  | Some it1, Some it2 => cmp_loop (length (it_node it1) + length (it_node it2)) s1 s2 it1 it2 (cm_init c)
  end.

(** Against a buffer; [None] is NULL, which stands for NON data *)
Fixpoint cmp_buf_loop (fuel : nat) (it : Vstr_iter) (buf : option (list Z)) (buf_len : Z) (x : X) : M Z :=
  let it := if decide (buf_len < it_len it)
            then mkIter (it_ptr it) buf_len (it_num it) (it_node it) (u64 (it_remaining it + 1)) else it in
  r ← match buf with
      | Some bs =>
        if iter_non it then mret (inr (cm_longer c x false))
        else a ← iter_bytes it; mret (cm_cmpf c x a (ztake (it_len it) bs))
      | None => if negb (iter_non it) then mret (inr (cm_longer c x true)) else mret (inl x)
      end;
  match r with
  | inr r => mret r
  | inl x =>
    let buf := zdrop (it_len it) <$> buf in
    let buf_len := buf_len - it_len it in
    '(more, it) ← (if decide (buf_len ≠ 0) then vstr_iter_fwd_nxt it else mret (false, it));
    if (more : bool) then
      match fuel with O => undef | S fuel => cmp_buf_loop fuel it buf buf_len x end
    else mret (if decide (it_remaining it ≠ 0) then cm_longer c x true
               else if decide (buf_len ≠ 0) then cm_longer c x false
               else cm_equal c x)
  end.

Definition cmp_string_buf (pos len : Z) (buf : option (list Z)) (buf_len : Z) : M Z :=
  r ← vstr_iter_fwd_beg pos len;
  match r with
  | None => mret (if decide (buf_len = 0) then 0 else -1)
  | Some it =>
    if decide (buf_len = 0) then mret 1
    else cmp_buf_loop (length (it_node it)) it buf buf_len (cm_init c)
  end.
End compare.

(** ** The functions of the interface *)
Definition cmp_return (r : Z) : () + Z := if decide (r ≠ 0) then inr r else inl tt.
Definition cmp_memcmp : comparison () :=
  mkCmp (λ _ a b, cmp_return (memcmp a b)) (λ _ first, if first then 1 else -1) (λ _, 0) tt.
Definition cmp_memcasecmp : comparison () :=
  mkCmp (λ _ a b, cmp_return (vstr__cmp_memcasecmp a b)) (λ _ first, if first then 1 else -1) (λ _, 0) tt.

(** scan_1_longer and scan_2_longer *)
Definition vers_longer (state : vers_state) (first : bool) : Z :=
  let r := if first then 1 else -1 in
  match state with CMP_FRAC | CMP_LEN_NEG => - r | _ => r end.
Definition cmp_vers : comparison (vers_state * Z) :=
  mkCmp (λ '(state, diff) a b, vstr__cmp_vers a b state diff) (λ '(state, _) first, vers_longer state first)
        (λ '(_, diff), diff) (CMP_NORM, 0).

Definition vstr_cmp := cmp_strings cmp_memcmp.
Definition vstr_cmp_buf := cmp_string_buf cmp_memcmp.
Definition vstr_cmp_case := cmp_strings cmp_memcasecmp.
Definition vstr_cmp_case_buf := cmp_string_buf cmp_memcasecmp.
Definition vstr_cmp_vers := cmp_strings cmp_vers.
Definition vstr_cmp_vers_buf := cmp_string_buf cmp_vers.

Definition vstr_cmp_eq (s1 : nat) (p1 l1 : Z) (s2 : nat) (p2 l2 : Z) : W bool :=
  if negb (bool_decide (l1 = l2)) then mret false
  else r ← vstr_cmp s1 p1 l1 s2 p2 l1; mret (bool_decide (r = 0)).
Definition vstr_cmp_buf_eq (p1 l1 : Z) (buf : option (list Z)) (buf_len : Z) : M bool :=
  if negb (bool_decide (l1 = buf_len)) then mret false
  else r ← vstr_cmp_buf p1 l1 buf buf_len; mret (bool_decide (r = 0)).
