(* ===== verification/CmpSpec.v ===== *)
(** * Comparing node by node is comparing character by character.

    Comparing with a buffer, and the order the comparisons are. *)
From Stdlib Require Import ZArith Lia ZifyBool.
From stdpp Require Import base tactics list numbers option gmap.
From S2P Require Import Prelude State Wp Ref Cache Core Inv PosLemmas SpareLemmas SplitLemmas CacheLemmas AddLemmas StringLemmas Iter IterLemmas World Cmp.

Section others.
Context {OT : Others}.

(** ** The reference: one character of each string at a time *)
Section spec.
Context {X : Type} (c : comparison X) (step : X → Z → Z → X + Z).

Fixpoint cmp_steps (x : X) (a b : list Z) : X + Z :=
  match a, b with
  | p :: a, q :: b => match step x p q with inl x => cmp_steps x a b | inr r => inr r end
  | _, _ => inl x
  end.

(** NON data comes before any byte, and a prefix before the string. *)
Fixpoint cmp_spec (x : X) (l1 l2 : list byte_or_non) : Z :=
  match l1, l2 with
  | [], [] => cm_equal c x
  | _ :: _, [] => cm_longer c x true
  | [], _ :: _ => cm_longer c x false
  | None :: l1, None :: l2 => cmp_spec x l1 l2
  | Some _ :: _, None :: _ => cm_longer c x true
  | None :: _, Some _ :: _ => cm_longer c x false
  | Some p :: l1, Some q :: l2 => match step x p q with inl x => cmp_spec x l1 l2 | inr r => r end
  end.

Lemma cmp_spec_bytes a : ∀ b x l1 l2, length a = length b →
  cmp_spec x ((Some <$> a) ++ l1) ((Some <$> b) ++ l2) =
  match cmp_steps x a b with inl x => cmp_spec x l1 l2 | inr r => r end.
Proof.
  induction a as [|p a IH]; intros [|q b] x l1 l2 Hl; try done. cbn. destruct (step x p q); [|done].
  apply IH. cbn in Hl. lia.
Qed.
Lemma cmp_spec_non n x l1 l2 : cmp_spec x (zrep n None ++ l1) (zrep n None ++ l2) = cmp_spec x l1 l2.
Proof. unfold zrep. by induction (Z.to_nat n). Qed.
Lemma cmp_spec_first x l1 : l1 ≠ [] → cmp_spec x l1 [] = cm_longer c x true.
Proof. by destruct l1 as [|[] ?]. Qed.
Lemma cmp_spec_second x l2 : l2 ≠ [] → cmp_spec x [] l2 = cm_longer c x false.
Proof. by destruct l2 as [|[] ?]. Qed.
End spec.

(** A comparison of runs that is a comparison of characters *)
Class Comparison {X} (c : comparison X) := {
  cs_step : X → Z → Z → X + Z;
  cs_runs : ∀ x a b, length a = length b → cm_cmpf c x a b = cmp_steps cs_step x a b;
  cs_equal : cm_equal c (cm_init c) = 0;
  cs_longer : ∀ b, cm_longer c (cm_init c) b = if b then 1 else -1 }.

(** ** Iterators that advance *)
Lemma iter_advance_at h it cur rest n :
  iter_at h it cur rest → 0 ≤ n ≤ zlen cur → iter_at h (iter_advance n it) (zdrop n cur) rest.
Proof.
  intros [Hl Hr (nd&R&En&Erest&HR&H)] Hn.
  split; cbn [iter_advance it_len it_remaining it_node it_ptr]; [rewrite length_zdrop; lia|done|].
  exists nd, R. split_and!; try done. case_decide.
  - destruct H as [-> Hc]. split; [done|]. rewrite Hc at 1. rewrite zdrop_zrep by lia. done.
  - destruct H as (p&bs&->&Hld&->). exists (ptr_add p n), (zdrop n bs). split; [done|]. split; [|by rewrite zdrop_fmap].
    pose proof (load_length _ _ _ _ Hld) as Hb. rewrite length_fmap in *.
    rewrite (load_sub _ _ _ n (it_len it - n) _ Hld) by lia. f_equal. apply ztake_all. rewrite length_zdrop. lia.
Qed.
Lemma iter_advance_non n it : iter_non (iter_advance n it) = iter_non it.
Proof. done. Qed.

Lemma iter_run_spec s it cur rest n :
  iter_at (s_heap s) it cur rest → iter_non it = false → 0 ≤ n ≤ zlen cur →
  ∃ bs, cur = Some <$> bs ∧ wp (iter_run n it) s (λ r s', r = ztake n bs ∧ s' = s).
Proof.
  intros [Hl Hr (nd&R&En&Erest&HR&H)] Hnon Hn. unfold iter_non in Hnon. rewrite En in Hnon.
  apply bool_decide_eq_false in Hnon. rewrite decide_False in H by done. destruct H as (p&bs&Hp&Hld&->).
  exists bs. split; [done|]. unfold iter_run. rewrite Hp. unfold mem_load. wp_steps.
  rewrite length_fmap in *. eapply wp_of_option; [|done]. rewrite <- (ptr_add_0 p).
  rewrite (load_sub _ _ _ 0 n _ Hld) by lia. by rewrite zdrop_0 by lia.
Qed.

(** The condition of a loop: go on in the node, or with the next one *)
Lemma iter_more_spec s it cur rest :
  iter_at (s_heap s) it cur rest →
  wp (iter_more it) s (λ '(more, it') s', s' = s ∧
    if more : bool then ∃ cur' rest', cur ++ rest = cur' ++ rest' ∧ 0 < zlen cur' ∧ iter_at (s_heap s) it' cur' rest' ∧
      (length (it_node it') + (if decide (cur = []) then 1 else 0) = length (it_node it))%nat
    else cur ++ rest = [] ∧ it_node it' = []).
Proof.
  intros Hit. pose proof (ia_len _ _ _ _ Hit) as Hl. unfold iter_more. case_decide as Hd.
  - wp_steps. split; [done|]. exists cur, rest. split_and!; [done|lia|done|]. rewrite decide_False; [lia|].
    intros ->. done.
  - assert (cur = []) as -> by (destruct cur; [done|cbn in Hl; lia]).
    wp_apply vstr_iter_fwd_nxt_spec; [done|]. intros [more it'] s1 [-> Hm]. split; [done|]. destruct more.
    + destruct Hm as (cur'&rest'&->&Hc&Hit'&Hlen&_). exists cur', rest'. rewrite decide_True by done.
      split_and!; [done|done|done|lia].
    + destruct Hm as (->&?&_). done.
Qed.

(** ** Two strings *)
Section two.
Context {X : Type} (c : comparison X) `{CO : !Comparison c}.
Context (w : World) (k1 k2 : nat) (s1 s2 : St).
Hypothesis Hs1 : st_of w k1 = Some s1.
Hypothesis Hs2 : st_of w k2 = Some s2.
Local Abbreviation spec := (cmp_spec c cs_step).

(** One run of both iterators *)
Lemma cmp_run_spec it1 it2 cur1 rest1 cur2 rest2 x :
  iter_at (s_heap s1) it1 cur1 rest1 → iter_at (s_heap s2) it2 cur2 rest2 → 0 < zlen cur1 → 0 < zlen cur2 →
  let tmp := Z.min (zlen cur1) (zlen cur2) in
  wwp (if negb (iter_non it1) && negb (iter_non it2) then
         a ← on_string k1 (iter_run tmp it1);
         b ← on_string k2 (iter_run tmp it2);
         mret (cm_cmpf c x a b)
       else if negb (iter_non it1) then mret (inr (cm_longer c x true))
       else if negb (iter_non it2) then mret (inr (cm_longer c x false))
       else mret (inl x)) w (λ r w', w' = w ∧
    spec x (cur1 ++ rest1) (cur2 ++ rest2) = match r with
      | inl x => spec x (zdrop tmp cur1 ++ rest1) (zdrop tmp cur2 ++ rest2) | inr r => r end).
Proof.
  intros H1 H2 Hc1 Hc2 tmp. destruct (iter_non it1) eqn:E1, (iter_non it2) eqn:E2; cbn [negb andb].
  - wwp_steps. split; [done|]. pose proof (iter_at_non _ _ _ _ H1 E1) as A1. pose proof (iter_at_non _ _ _ _ H2 E2) as A2.
    rewrite (ia_len _ _ _ _ H1) in A1. rewrite (ia_len _ _ _ _ H2) in A2.
    rewrite <- (ztake_zdrop tmp cur1) at 1. rewrite <- (ztake_zdrop tmp cur2) at 1. rewrite <- !app_assoc.
    assert (T1 : ztake tmp cur1 = zrep tmp None) by (rewrite A1, ztake_zrep; f_equal; lia).
    assert (T2 : ztake tmp cur2 = zrep tmp None) by (rewrite A2, ztake_zrep; f_equal; lia).
    rewrite T1, T2.
    apply cmp_spec_non.
  - wwp_steps. split; [done|]. pose proof (iter_at_non _ _ _ _ H1 E1) as A1.
    destruct (iter_run_spec _ _ _ _ 0 H2 E2 ltac:(lia)) as (bs&->&_). rewrite length_fmap in Hc2.
    rewrite (ia_len _ _ _ _ H1) in A1. destruct cur1 as [|y cur1]; [cbn in Hc1; lia|]. destruct bs as [|z bs]; [cbn in Hc2; lia|].
    rewrite A1. unfold zrep. replace (Z.to_nat (zlen (y :: cur1))) with (S (length cur1)) by (cbn; lia). done.
  - wwp_steps. split; [done|]. pose proof (iter_at_non _ _ _ _ H2 E2) as A2.
    destruct (iter_run_spec _ _ _ _ 0 H1 E1 ltac:(lia)) as (bs&->&_). rewrite length_fmap in Hc1.
    rewrite (ia_len _ _ _ _ H2) in A2. destruct cur2 as [|y cur2]; [cbn in Hc2; lia|]. destruct bs as [|z bs]; [cbn in Hc1; lia|].
    rewrite A2. unfold zrep. replace (Z.to_nat (zlen (y :: cur2))) with (S (length cur2)) by (cbn; lia). done.
  - destruct (iter_run_spec _ _ _ _ tmp H1 E1 ltac:(lia)) as (b1&Eb1&W1).
    destruct (iter_run_spec _ _ _ _ tmp H2 E2 ltac:(lia)) as (b2&Eb2&W2).
    wwp_step. eapply wwp_reads; [exact Hs1|]. eapply wp_mono; [exact W1|]. intros ? ? [-> ->]. split; [done|].
    wwp_step. eapply wwp_reads; [exact Hs2|]. eapply wp_mono; [exact W2|]. intros ? ? [-> ->]. split; [done|].
    wwp_steps. split; [done|]. assert (Ht : 0 ≤ tmp ≤ zlen b1 ∧ tmp ≤ zlen b2).
    { unfold tmp. rewrite Eb1, Eb2, !length_fmap. lia. }
    clearbody tmp. subst cur1 cur2.
    rewrite cs_runs by (apply Nat2Z.inj; rewrite !length_ztake; lia).
    rewrite <- (ztake_zdrop tmp b1) at 1. rewrite <- (ztake_zdrop tmp b2) at 1. rewrite !fmap_app, <- !app_assoc, !zdrop_fmap.
    apply cmp_spec_bytes. apply Nat2Z.inj. rewrite !length_ztake. lia.
Qed.
Lemma cmp_advance_spec it1 it2 tmp l1 rest1 l2 rest2 :
  iter_at (s_heap s1) (iter_advance tmp it1) l1 rest1 → iter_at (s_heap s2) (iter_advance tmp it2) l2 rest2 →
  l1 = [] ∨ l2 = [] →
  wwp (cmp_advance k1 k2 tmp it1 it2) w (λ '(more, i1, i2) w', w' = w ∧
    if more : bool then ∃ cur1 r1 cur2 r2, l1 ++ rest1 = cur1 ++ r1 ∧ l2 ++ rest2 = cur2 ++ r2 ∧
      iter_at (s_heap s1) i1 cur1 r1 ∧ iter_at (s_heap s2) i2 cur2 r2 ∧ 0 < zlen cur1 ∧ 0 < zlen cur2 ∧
      (length (it_node i1) + length (it_node i2) < length (it_node it1) + length (it_node it2))%nat
    else (l1 ++ rest1 = [] ∧ it_node i1 = [] ∧ iter_at (s_heap s2) i2 l2 rest2) ∨
         (l1 ++ rest1 ≠ [] ∧ it_node i1 ≠ [] ∧ l2 ++ rest2 = [])).
Proof.
  intros A1 A2 Hone. unfold cmp_advance. wwp_step. eapply wwp_reads; [exact Hs1|].
  eapply wp_mono; [apply iter_more_spec, A1|]. intros [more1 i1] t1 [-> H1]. split; [done|].
  destruct more1; cbn [negb]; [|wwp_steps; split; [done|]; left; tauto].
  destruct H1 as (cur1&r1&E1&Hc1&I1&L1). cbn [it_node iter_advance] in L1.
  wwp_step. eapply wwp_reads; [exact Hs2|].
  eapply wp_mono; [apply iter_more_spec, A2|]. intros [more2 i2] t2 [-> H2]. split; [done|]. wwp_steps. split; [done|].
  destruct more2.
  - destruct H2 as (cur2&r2&E2&Hc2&I2&L2). cbn [it_node iter_advance] in L2. exists cur1, r1, cur2, r2.
    split_and!; try done. repeat case_decide; try lia. tauto.
  - right. rewrite E1. split_and!; [|by destruct (ia_node _ _ _ _ I1) as (?&?&->&_)|tauto].
    intros Hn. apply app_nil in Hn as [-> _]. cbn in Hc1. lia.
Qed.

Lemma cmp_loop_spec fuel : ∀ it1 it2 cur1 rest1 cur2 rest2 x,
  iter_at (s_heap s1) it1 cur1 rest1 → iter_at (s_heap s2) it2 cur2 rest2 → 0 < zlen cur1 → 0 < zlen cur2 →
  zlen (cur2 ++ rest2) ≤ SIZE_MAX → (length (it_node it1) + length (it_node it2) ≤ fuel)%nat →
  wwp (cmp_loop c fuel k1 k2 it1 it2 x) w (λ r w', w' = w ∧ r = spec x (cur1 ++ rest1) (cur2 ++ rest2)).
Proof.
  induction fuel as [|fuel IH]; intros it1 it2 cur1 rest1 cur2 rest2 x H1 H2 Hc1 Hc2 Hmax Hf.
  { destruct (ia_node _ _ _ _ H1) as (nd&R&E&_). rewrite E in Hf. cbn in Hf. lia. }
  cbn [cmp_loop]. rewrite (ia_len _ _ _ _ H1), (ia_len _ _ _ _ H2).
  set (tmp := Z.min (zlen cur1) (zlen cur2)). wwp_step.
  eapply wwp_mono; [by apply cmp_run_spec|]. intros r w1 [-> ->]. destruct r as [x'|r]; [|by wwp_steps].
  fold tmp. pose proof (iter_advance_at _ _ _ _ tmp H1 ltac:(lia)) as A1.
  pose proof (iter_advance_at _ _ _ _ tmp H2 ltac:(lia)) as A2. rewrite length_app in Hmax.
  assert (Hm2 : zlen (zdrop tmp cur2 ++ rest2) ≤ SIZE_MAX) by (rewrite length_app, Nat2Z.inj_add, length_zdrop; lia).
  assert (Hone : zdrop tmp cur1 = [] ∨ zdrop tmp cur2 = []).
  { destruct (decide (zlen cur1 ≤ zlen cur2)); [left|right]; apply zdrop_all; lia. }
  wwp_step. eapply wwp_mono; [by apply cmp_advance_spec|]. intros [[more i1] i2] w2 [-> Hm]. destruct more.
  - destruct Hm as (c1&r1&c2&r2&E1&E2&I1&I2&L1&L2&HL). rewrite E1, E2. rewrite E2 in Hm2.
    apply IH; try done. lia.
  - destruct Hm as [(E1&N1&I2)|(E1&N1&E2)].
    + rewrite E1. rewrite decide_False by (rewrite N1; tauto).
      assert (Hl2 : vstr_iter_len i2 = zlen (zdrop tmp cur2 ++ rest2)).
      { unfold vstr_iter_len. rewrite (ia_len _ _ _ _ I2), (ia_remaining _ _ _ _ I2). rewrite length_app in *.
        rewrite u64_id; lia. }
      rewrite Hl2. case_decide as Hd; wwp_steps; (split; [done|]).
      * rewrite cmp_spec_second; [done|]. intros E. rewrite E in Hd. done.
      * destruct (zdrop tmp cur2 ++ rest2); [done|cbn in Hd; lia].
    + rewrite E2. rewrite decide_True by done. wwp_steps. split; [done|]. by rewrite cmp_spec_first.
Qed.
End two.

(** ** Reading functions and the world *)

(** Every string keeps everything but the position it remembers. *)
Definition world_reads (w w' : World) : Prop :=
  w_heap w' = w_heap w ∧ ∀ k s, st_of w k = Some s → ∃ s', st_of w' k = Some s' ∧ only_pos s s'.

Lemma world_reads_refl w : world_reads w w.
Proof. split; [done|]. intros k s Hs. exists s. split; [done|apply only_pos_refl]. Qed.
Lemma world_reads_trans w1 w2 w3 : world_reads w1 w2 → world_reads w2 w3 → world_reads w1 w3.
Proof.
  intros [E1 H1] [E2 H2]. split; [congruence|]. intros k s Hs. destruct (H1 k s Hs) as (s'&Hs'&O1).
  destruct (H2 k s' Hs') as (s''&Hs''&O2). exists s''. split; [done|by eapply only_pos_trans].
Qed.
Lemma world_reads_put w k s s' : st_of w k = Some s → only_pos s s' → world_reads w (put_st k s' w).
Proof.
  intros Hs Ho. destruct (only_pos_same _ _ Ho) as (Eh&Ec&_). split.
  - destruct (proj1 (st_of_Some _ _ _) Hs) as (c&Hb&_&Hh). unfold put_st. rewrite Hb. cbn. congruence.
  - intros j t Ht. destruct (decide (j = k)) as [->|Hne].
    + rewrite Hs in Ht. injection Ht as <-. exists s'. split; [by eapply st_of_put_same|done].
    + exists t. split; [by eapply st_of_put_other|apply only_pos_refl].
Qed.

(** A range of a string, possibly empty *)
Definition range_of (s : St) (pos len : Z) : Prop := 1 ≤ pos ∧ (len = 0 ∨ in_range s pos len).
Lemma substr_0 pos l : substr pos 0 l = [].
Proof. unfold substr. by rewrite ztake_0 by lia. Qed.
Lemma only_pos_range s s' pos len : only_pos s s' → range_of s pos len → range_of s' pos len.
Proof. intros Ho [? [?|?]]; (split; [done|]); [by left|right; by eapply only_pos_in_range]. Qed.

(** The beginning of an iteration, for any range *)
Lemma fwd_beg_range_spec s pos len :
  wf s → range_of s pos len →
  wp (vstr_iter_fwd_beg pos len) s (λ r s', only_pos s s' ∧ wf s' ∧
    match r with
    | None => substr pos len (st_content s) = []
    | Some it => ∃ cur rest, substr pos len (st_content s) = cur ++ rest ∧ 0 < zlen cur ∧ iter_at (s_heap s') it cur rest
    end).
Proof.
  intros Hw [Hp [->|Hr]].
  - unfold wp. pose proof (vstr_iter_fwd_beg_none s pos 0) as Hn.
    destruct (decide (pos - 1 ≤ SIZE_MAX)) as [Hm|Hm].
    + rewrite Hn; [|lia|lia|lia|unfold in_range; lia]. split_and!; [apply only_pos_refl|done|apply substr_0].
    + unfold vstr_iter_fwd_beg, mbind, M_bind, get_base, gets. rewrite bool_decide_eq_true_2 by lia. cbn [negb].
      rewrite decide_True by done. split_and!; [apply only_pos_refl|done|apply substr_0].
  - eapply wp_mono; [by apply vstr_iter_fwd_beg_spec|].
    intros r s' (Ho&Hw'&it&cur&rest&->&E&Hc&Hit). split_and!; [done|done|]. by exists cur, rest.
Qed.

(** ** The comparison functions *)
Section functions.
Context {X : Type} (c : comparison X) `{CO : !Comparison c}.
Local Abbreviation spec := (cmp_spec c cs_step (cm_init c)).

Lemma cmp_strings_spec w k1 s1 pos1 len1 k2 s2 pos2 len2 :
  st_of w k1 = Some s1 → st_of w k2 = Some s2 → wf s1 → wf s2 → range_of s1 pos1 len1 → range_of s2 pos2 len2 →
  wwp (cmp_strings c k1 pos1 len1 k2 pos2 len2) w (λ r w',
    r = spec (substr pos1 len1 (st_content s1)) (substr pos2 len2 (st_content s2)) ∧ world_reads w w').
Proof.
  intros Hs1 Hs2 Hw1 Hw2 Hr1 Hr2. unfold cmp_strings. wwp_step. eapply wwp_on_string; [exact Hs1|].
  eapply wp_mono; [by apply fwd_beg_range_spec|]. intros r1 t1 (Ho1&Hwt1&H1).
  pose proof (world_reads_put _ _ _ _ Hs1 Ho1) as WR1. set (w1 := put_st k1 t1 w) in *.
  destruct (proj2 WR1 _ _ Hs2) as (u2&Hu2&Oz2).
  assert (Hwu2 : wf u2) by by apply Oz2. wwp_step. eapply wwp_on_string; [exact Hu2|].
  eapply wp_mono; [apply fwd_beg_range_spec; [done|by eapply only_pos_range]|].
  intros r2 t2 (Ho2&Hwt2&H2). rewrite (only_pos_content _ _ Oz2) in H2.
  pose proof (world_reads_put _ _ _ _ Hu2 Ho2) as WR2. set (w2 := put_st k2 t2 w1) in *.
  pose proof (world_reads_trans _ _ _ WR1 WR2) as WR.
  assert (Hu1 : ∃ v1, st_of w2 k1 = Some v1 ∧ s_heap v1 = s_heap t1).
  { assert (Ht1 : st_of w1 k1 = Some t1) by by eapply st_of_put_same.
    destruct (proj2 WR2 _ _ Ht1) as (v1&Hv1&Hov). exists v1. split; [done|]. apply (only_pos_same _ _ Hov). }
  destruct Hu1 as (v1&Hv1&Ehv1). assert (Hv2 : st_of w2 k2 = Some t2) by by eapply st_of_put_same.
  pose proof (wf_len_max _ Hw2) as Hmax.
  destruct r1 as [it1|], r2 as [it2|].
  - destruct H1 as (cur1&rest1&E1&Hc1&I1). destruct H2 as (cur2&rest2&E2&Hc2&I2). rewrite E1, E2.
    rewrite <- Ehv1 in I1. eapply wwp_mono; [eapply (cmp_loop_spec c w2 k1 k2 v1 t2); try done|].
    + rewrite <- E2. unfold substr. rewrite length_ztake, length_zdrop, (wf_content_length _ Hw2).
      pose proof (wf_len_nonneg _ Hw2). lia.
    + intros r w3 [-> ->]. done.
  - destruct H1 as (cur1&rest1&E1&Hc1&I1). rewrite E1, H2. wwp_steps. split; [|done].
    rewrite cmp_spec_first; [by rewrite cs_longer|]. intros E. apply app_nil in E as [-> _]. cbn in Hc1. lia.
  - destruct H2 as (cur2&rest2&E2&Hc2&I2). rewrite E2, H1. wwp_steps. split; [|done].
    rewrite cmp_spec_second; [by rewrite cs_longer|]. intros E. apply app_nil in E as [-> _]. cbn in Hc2. lia.
  - rewrite H1, H2. wwp_steps. split; [|done]. cbn. by rewrite cs_equal.
Qed.
End functions.

(** ** The three comparisons *)
Definition step_bytes (f : Z → Z) (_ : ()) (a b : Z) : () + Z := cmp_return (f a - f b).

Lemma memcmp_runs a : ∀ x b, length a = length b → cmp_return (memcmp a b) = cmp_steps (step_bytes id) x a b.
Proof.
  induction a as [|p a IH]; intros [] [|q b] Hl; try done. cbn in Hl. cbn [memcmp cmp_steps].
  unfold step_bytes at 1, cmp_return at 1 2, id at 1 2. destruct (decide (p - q = 0)) as [E|E].
  - rewrite (decide_False (P := p - q ≠ 0)) by lia. apply IH. lia.
  - by rewrite !decide_True by done.
Qed.
Lemma memcasecmp_runs a : ∀ x b,
  length a = length b → cmp_return (vstr__cmp_memcasecmp a b) = cmp_steps (step_bytes to_lower) x a b.
Proof.
  induction a as [|p a IH]; intros [] [|q b] Hl; try done. cbn in Hl. cbn [vstr__cmp_memcasecmp cmp_steps].
  unfold step_bytes at 1, cmp_return at 1 2.
  destruct (decide (to_lower p - to_lower q ≠ 0)) as [E|E]; [by rewrite decide_True by done|]. apply IH. lia.
Qed.
#[export] Instance memcmp_comparison : Comparison cmp_memcmp :=
  Build_Comparison _ cmp_memcmp (step_bytes id) (λ x a, memcmp_runs a x) eq_refl (λ b, eq_refl).
#[export] Instance memcasecmp_comparison : Comparison cmp_memcasecmp :=
  Build_Comparison _ cmp_memcasecmp (step_bytes to_lower) (λ x a, memcasecmp_runs a x) eq_refl (λ b, eq_refl).

(** *** Versions: the state machine, a character of each string at a time *)
Definition vers_len_step (state : vers_state) (difference a b : Z) : (vers_state * Z) + Z :=
  if is_ascii_digit a && is_ascii_digit b then inl (state, difference)
  else inr (if is_ascii_digit b then vers_len_val state - 4 - 1
            else if is_ascii_digit a then - vers_len_val state + 4 + 1 else difference).
Definition vers_step (x : vers_state * Z) (a b : Z) : (vers_state * Z) + Z :=
  let '(state, difference) := x in
  if vers_main_loop state then
    let diff := schar a - schar b in
    if decide (diff = 0) then inl (vers_next state a, difference)
    else match vers_diff state a b with None => inr diff | Some state => vers_len_step state diff a b end
  else vers_len_step state difference a b.

Lemma vers_diff_len state a b state' : vers_diff state a b = Some state' → vers_main_loop state' = false.
Proof. unfold vers_diff. intros H. repeat case_match; simplify_eq; done. Qed.

(** The second loop, in one of the two LEN states *)
Lemma vers_digits_steps state d a : ∀ b, vers_main_loop state = false → length a = length b →
  match vers_digits a b with
  | (a :: _, b :: _) =>
    inr (if is_ascii_digit b then vers_len_val state - 4 - 1
         else if is_ascii_digit a then - vers_len_val state + 4 + 1 else d)
  | _ => inl (state, d)
  end = cmp_steps vers_step (state, d) a b.
Proof.
  induction a as [|p a IH]; intros [|q b] Hs Hl; try done. cbn. rewrite Hs. unfold vers_len_step.
  destruct (is_ascii_digit p && is_ascii_digit q) eqn:E; [|done]. apply IH; [done|]. cbn in Hl. lia.
Qed.
Lemma vers_runs a : ∀ x b, length a = length b → cm_cmpf cmp_vers x a b = cmp_steps vers_step x a b.
Proof.
  induction a as [|p a IH]; intros [state d] [|q b] Hl; try done; [by destruct state|]. cbn in Hl.
  specialize (IH (vers_next state p, d) b ltac:(lia)). cbn [cmp_vers cm_cmpf cmp_steps] in *. unfold vers_step at 1.
  unfold vstr__cmp_vers in *. cbn [vers_scan]. destruct (vers_main_loop state) eqn:Hm.
  - destruct (decide (schar p - schar q = 0)) as [E|E]; [exact IH|]. rewrite !decide_True by done. cbn [hd].
    destruct (vers_diff state p q) as [st|] eqn:Hd; [|done]. pose proof (vers_diff_len _ _ _ _ Hd) as Hn. rewrite Hn.
    pose proof (vers_digits_steps st (schar p - schar q) (p :: a) (q :: b) Hn ltac:(cbn; lia)) as Hg.
    cbn [cmp_steps] in Hg. unfold vers_step at 1 in Hg. rewrite Hn in Hg. rewrite <- Hg.
    destruct (vers_digits (p :: a) (q :: b)) as [[|y ys] [|z zs]]; done.
  - rewrite !(decide_False (P := 0 ≠ 0)) by tauto. rewrite Hm.
    pose proof (vers_digits_steps state d (p :: a) (q :: b) Hm ltac:(cbn; lia)) as Hg.
    cbn [cmp_steps] in Hg. unfold vers_step at 1 in Hg. rewrite Hm in Hg. rewrite <- Hg.
    destruct (vers_digits (p :: a) (q :: b)) as [[|y ys] [|z zs]]; done.
Qed.
Lemma vers_init_longer b : cm_longer cmp_vers (cm_init cmp_vers) b = if b then 1 else -1.
Proof. by destruct b. Qed.
#[export] Instance vers_comparison : Comparison cmp_vers :=
  Build_Comparison _ cmp_vers vers_step (λ x a, vers_runs a x) eq_refl vers_init_longer.

End others.

Section others.
Context {OT : Others}.

(** The characters a buffer stands for: a NULL one is NON data. *)
Definition buf_content (buf : option (list Z)) (buf_len : Z) : list byte_or_non :=
  match buf with Some bs => Some <$> bs | None => zrep buf_len None end.
Definition buf_fits (buf : option (list Z)) (buf_len : Z) : Prop :=
  0 ≤ buf_len ∧ ∀ bs, buf = Some bs → zlen bs = buf_len.
Lemma buf_content_length buf n : buf_fits buf n → zlen (buf_content buf n) = n.
Proof.
  intros [Hn H]. destruct buf as [bs|]; cbn; [rewrite length_fmap; by apply H|]. rewrite length_zrep. lia.
Qed.
Lemma buf_content_drop k buf n :
  buf_fits buf n → 0 ≤ k ≤ n →
  buf_content (zdrop k <$> buf) (n - k) = zdrop k (buf_content buf n) ∧ buf_fits (zdrop k <$> buf) (n - k).
Proof.
  intros [Hn H] Hk. destruct buf as [bs|]; cbn.
  - specialize (H bs eq_refl). rewrite zdrop_fmap. split; [done|]. split; [lia|].
    intros ? [= <-]. rewrite length_zdrop. lia.
  - rewrite zdrop_zrep by lia. split; [done|]. by split; [lia|].
Qed.

(** The iterator whose length was cut to that of the buffer *)
Definition clip (n : Z) (it : Vstr_iter) : Vstr_iter :=
  if decide (n < it_len it)
  then mkIter (it_ptr it) n (it_num it) (it_node it) (u64 (it_remaining it + 1)) else it.
Lemma clip_non n it : iter_non (clip n it) = iter_non it.
Proof. unfold clip. by case_decide. Qed.
Lemma clip_len n it : it_len (clip n it) = Z.min n (it_len it).
Proof. unfold clip. case_decide; cbn; lia. Qed.
Lemma clip_bytes n s it cur rest :
  iter_at (s_heap s) it cur rest → iter_non it = false → 0 ≤ n →
  ∃ bs, cur = Some <$> bs ∧ wp (iter_bytes (clip n it)) s (λ r s', r = ztake (Z.min n (zlen cur)) bs ∧ s' = s).
Proof.
  intros Hit Hnon Hn.
  destruct (iter_run_spec s it cur rest (Z.min n (zlen cur)) Hit Hnon ltac:(lia)) as (bs&Hc&Hrun).
  exists bs. split; [done|]. unfold iter_bytes. rewrite clip_len, (ia_len _ _ _ _ Hit).
  replace (it_ptr (clip n it)) with (it_ptr it) by (unfold clip; by case_decide). exact Hrun.
Qed.

Section buffer.
Context {X : Type} (c : comparison X) `{CO : !Comparison c}.
Local Abbreviation spec := (cmp_spec c cs_step).

(** One run: the clipped iterator against the start of the buffer *)
Lemma cmp_buf_run_spec s it cur rest buf n x :
  iter_at (s_heap s) it cur rest → 0 < zlen cur → buf_fits buf n → 0 < n →
  let k := Z.min n (zlen cur) in
  wp (match buf with
      | Some bs =>
        if iter_non (clip n it) then mret (inr (cm_longer c x false))
        else a ← iter_bytes (clip n it); mret (cm_cmpf c x a (ztake (it_len (clip n it)) bs))
      | None => if negb (iter_non (clip n it)) then mret (inr (cm_longer c x true)) else mret (inl x)
      end) s (λ r s', s' = s ∧ spec x (cur ++ rest) (buf_content buf n) = match r with
        | inl x => spec x (zdrop k cur ++ rest) (zdrop k (buf_content buf n)) | inr r => r end).
Proof.
  intros Hit Hc Hb Hn k. pose proof (buf_content_length _ _ Hb) as Hbl.
  rewrite clip_non, clip_len, (ia_len _ _ _ _ Hit). fold k.
  destruct (iter_non it) eqn:En.
  - pose proof (iter_at_non _ _ _ _ Hit En) as Hz. rewrite (ia_len _ _ _ _ Hit) in Hz.
    assert (Hcur : ztake k cur = zrep k None) by (rewrite Hz, ztake_zrep; f_equal; lia).
    destruct buf as [bs|]; cbn [negb]; wp_steps; (split; [done|]).
    + destruct cur as [|y cur]; [cbn in Hc; lia|]. rewrite Hz.
      destruct bs as [|b bs]; [cbn in Hbl; lia|]. unfold zrep.
      replace (Z.to_nat (zlen (y :: cur))) with (S (length cur)) by (cbn; lia). done.
    + rewrite <- (ztake_zdrop k cur) at 1. rewrite Hcur, <- app_assoc. cbn [buf_content].
      rewrite <- (ztake_zdrop k (zrep n None)) at 1. rewrite ztake_zrep. replace (Z.min k n) with k by lia.
      apply cmp_spec_non.
  - destruct (clip_bytes n s it cur rest Hit En ltac:(lia)) as (b1&E1&Hrun). fold k in Hrun.
    destruct buf as [bs|]; cbn [negb].
    + wp_step. eapply wp_mono; [exact Hrun|]. intros a s' [-> ->]. wp_steps. split; [done|].
      destruct Hb as [_ Hbs]. specialize (Hbs bs eq_refl). assert (Hl1 : zlen b1 = zlen cur) by (by rewrite E1, length_fmap).
      rewrite cs_runs by (apply Nat2Z.inj; rewrite !length_ztake; lia). cbn [buf_content].
      rewrite E1. rewrite <- (ztake_zdrop k b1) at 1. rewrite <- (ztake_zdrop k bs) at 1.
      rewrite !fmap_app, <- app_assoc, !zdrop_fmap. apply cmp_spec_bytes. apply Nat2Z.inj. rewrite !length_ztake. lia.
    + wp_steps. split; [done|]. destruct b1 as [|b b1]; [rewrite E1 in Hc; cbn in Hc; lia|]. rewrite E1. cbn [buf_content].
      unfold zrep. destruct (Z.to_nat n) eqn:Hnn; [lia|]. done.
Qed.

Lemma cmp_buf_loop_spec s fuel : ∀ it cur rest buf n x,
  iter_at (s_heap s) it cur rest → 0 < zlen cur → zlen (cur ++ rest) ≤ SIZE_MAX → buf_fits buf n → 0 < n →
  (length (it_node it) ≤ fuel)%nat →
  wp (cmp_buf_loop c fuel it buf n x) s (λ r s', s' = s ∧ r = spec x (cur ++ rest) (buf_content buf n)).
Proof.
  induction fuel as [|fuel IH]; intros it cur rest buf n x Hit Hc Hmax Hb Hn Hf.
  { destruct (ia_node _ _ _ _ Hit) as (nd&R&E&_). rewrite E in Hf. cbn in Hf. lia. }
  cbn [cmp_buf_loop]. fold (clip n it). set (k := Z.min n (zlen cur)). wp_step.
  eapply wp_mono; [by apply cmp_buf_run_spec|]. fold k. intros r s' [-> ->]. destruct r as [x'|r]; [|by wp_steps].
  pose proof (buf_content_length _ _ Hb) as Hbl. rewrite length_app in Hmax.
  rewrite clip_len, (ia_len _ _ _ _ Hit). fold k. destruct (buf_content_drop k _ _ Hb ltac:(lia)) as [Hdrop Hb'].
  rewrite <- Hdrop. assert (Hz : k < zlen cur ∧ k = n ∨ k = zlen cur) by lia. destruct Hz as [[Hk1 Hk2]|Hk].
  - wp_step. destruct (decide (n - k ≠ 0)); [lia|]. wp_steps.
    assert (Hrem : it_remaining (clip n it) = zlen rest + 1).
    { unfold clip. rewrite decide_True by (rewrite (ia_len _ _ _ _ Hit); lia). cbn.
      rewrite (ia_remaining _ _ _ _ Hit). rewrite u64_id; lia. }
    rewrite Hrem, decide_True by lia. split; [done|].
    replace (buf_content (zdrop k <$> buf) (n - k)) with ([] : list byte_or_non).
    { rewrite cmp_spec_first; [done|]. intros E. apply (f_equal (λ l, zlen l)) in E. rewrite length_app, Nat2Z.inj_add, length_zdrop in E.
      cbn in E. lia. }
    symmetry. apply nil_length_inv, Nat2Z.inj. rewrite (buf_content_length _ _ Hb'). cbn. lia.
  - assert (Ecl : clip n it = it) by (unfold clip; case_decide as Hx; [rewrite (ia_len _ _ _ _ Hit) in Hx; lia|done]).
    rewrite Ecl. rewrite (zdrop_all k cur) by lia. cbn [app]. destruct (decide (n - k ≠ 0)) as [Hnk|Hnk].
    + wp_step. wp_apply vstr_iter_fwd_nxt_spec; [done|]. intros [more it'] s1 [-> Hm]. destruct more.
      * destruct Hm as (cur'&rest'&->&Hc'&Hit'&Hlen&_). apply IH; try done; [rewrite length_app in *; lia|lia|lia].
      * destruct Hm as (->&_&_&Hr0&_). wp_steps. rewrite Hr0, decide_False by tauto.
        split; [done|]. rewrite cmp_spec_second; [done|].
        intros E. apply (f_equal (λ l, zlen l)) in E. rewrite (buf_content_length _ _ Hb') in E. cbn in E. lia.
    + wp_steps. split; [done|].
      replace (buf_content (zdrop k <$> buf) (n - k)) with ([] : list byte_or_non).
      { rewrite (ia_remaining _ _ _ _ Hit). case_decide as Hr; [by rewrite cmp_spec_first by (by intros ->)|].
        destruct rest; [done|cbn in Hr; lia]. }
      symmetry. apply nil_length_inv, Nat2Z.inj. rewrite (buf_content_length _ _ Hb'). cbn. lia.
Qed.

Lemma cmp_string_buf_spec s pos len buf n :
  wf s → range_of s pos len → buf_fits buf n →
  wp (cmp_string_buf c pos len buf n) s (λ r s',
    r = spec (cm_init c) (substr pos len (st_content s)) (buf_content buf n) ∧ only_pos s s' ∧ wf s').
Proof.
  intros Hw Hr Hb. pose proof (buf_content_length _ _ Hb) as Hbl. unfold cmp_string_buf. wp_step.
  eapply wp_mono; [by apply fwd_beg_range_spec|]. intros r s' (Ho&Hw'&H). destruct r as [it|].
  - destruct H as (cur&rest&E&Hc&Hit). rewrite E. assert (Hne : cur ++ rest ≠ []).
    { intros En. apply app_nil in En as [-> _]. cbn in Hc. lia. }
    case_decide as Hn.
    + wp_steps. split; [|done]. replace (buf_content buf n) with ([] : list byte_or_non).
      * by rewrite cmp_spec_first, cs_longer by done.
      * symmetry. apply nil_length_inv, Nat2Z.inj. cbn. lia.
    + eapply wp_mono; [apply cmp_buf_loop_spec; try done|].
      * rewrite <- E. unfold substr. rewrite length_ztake, length_zdrop, (wf_content_length _ Hw).
        pose proof (wf_len_nonneg _ Hw). pose proof (wf_len_max _ Hw). lia.
      * destruct Hb. lia.
      * intros r s2 [-> ->]. done.
  - rewrite H. case_decide as Hn; wp_steps; (split; [|done]).
    + replace (buf_content buf n) with ([] : list byte_or_non); [cbn; by rewrite cs_equal|].
      symmetry. apply nil_length_inv, Nat2Z.inj. cbn. lia.
    + rewrite cmp_spec_second, cs_longer; [done|]. intros E. rewrite E in Hbl. cbn in Hbl. lia.
Qed.
End buffer.

(** ** The byte comparison is an order with NON data below every byte and a
    prefix below the string. *)
Definition lower_chr (x : byte_or_non) : byte_or_non :=
  match x with Some c => Some (to_lower c) | None => None end.

Section order.
Local Abbreviation bytes_cmp := (cmp_spec cmp_memcmp (step_bytes id) tt).

Lemma bytes_cmp_cons p q l1 l2 :
  bytes_cmp (Some p :: l1) (Some q :: l2) = if decide (p - q = 0) then bytes_cmp l1 l2 else p - q.
Proof.
  cbn. unfold step_bytes, cmp_return, id. destruct (decide (p - q = 0)) as [E|E].
  - by rewrite decide_False by lia.
  - by rewrite decide_True by done.
Qed.

Lemma bytes_cmp_eq l1 : ∀ l2, bytes_cmp l1 l2 = 0 ↔ l1 = l2.
Proof.
  induction l1 as [|x l1 IH]; intros [|y l2]; [done|by destruct y|by destruct x|].
  destruct x as [p|], y as [q|]; [rewrite bytes_cmp_cons|done|done|].
  - case_decide as E; [rewrite IH; split; [intros ->; do 2 f_equal; lia|by intros [= _ ->]]|].
    split; [lia|]. intros [= -> ->]. lia.
  - cbn. rewrite IH. split; [by intros ->|by intros [= ->]].
Qed.
Lemma bytes_cmp_antisym l1 : ∀ l2, bytes_cmp l2 l1 = - bytes_cmp l1 l2.
Proof.
  induction l1 as [|x l1 IH]; intros [|y l2]; try done; try (by destruct x); try (by destruct y).
  destruct x as [p|], y as [q|]; [rewrite !bytes_cmp_cons| | |]; try done; [|apply IH].
  destruct (decide (p - q = 0)); [rewrite decide_True by lia; apply IH|rewrite decide_False by lia; lia].
Qed.
Lemma bytes_cmp_trans l1 : ∀ l2 l3, bytes_cmp l1 l2 < 0 → bytes_cmp l2 l3 < 0 → bytes_cmp l1 l3 < 0.
Proof.
  induction l1 as [|x l1 IH]; intros [|y l2] [|z l3]; try (destruct x as [p|]); try (destruct y as [q|]);
    try (destruct z as [r|]); rewrite ?bytes_cmp_cons; try (cbn; lia); [|exact (IH l2 l3)].
  repeat case_decide; try lia. apply IH.
Qed.

(** Without the case: the same comparison of the characters in lower case *)
Lemma case_cmp_lower l1 : ∀ l2,
  cmp_spec cmp_memcasecmp (step_bytes to_lower) tt l1 l2 = bytes_cmp (lower_chr <$> l1) (lower_chr <$> l2).
Proof.
  induction l1 as [|x l1 IH]; intros [|y l2]; try done; try (by destruct x); try (by destruct y).
  destruct x as [p|], y as [q|]; try done; [|apply IH]. rewrite !fmap_cons.
  cbn [lower_chr]. rewrite bytes_cmp_cons. cbn [cmp_spec]. unfold step_bytes at 1, cmp_return.
  destruct (decide (to_lower p - to_lower q = 0)) as [E|E].
  - rewrite (decide_False (P := to_lower p - to_lower q ≠ 0)) by lia. apply IH.
  - by rewrite (decide_True (P := to_lower p - to_lower q ≠ 0)) by done.
Qed.
End order.

End others.
