(* ===== verification/Srch.v ===== *)
(** * Searching (src/vstr_srch.c and src/vstr_srch_case.c).

    A search string is a list of bytes with its length, or NULL ([None]),
    which stands for NON data of that length. *)
From Stdlib Require Import ZArith Lia ZifyBool.
From stdpp Require Import base tactics list numbers option gmap.
From S2P Require Import Prelude State Wp Ref Cache Core Iter Spn World Cmp.

(** ** Sets of characters *)
Definition vstr_srch_chrs_fwd (pos len : Z) (srch : option (list Z)) : M Z :=
  num ← vstr_cspn_chrs_fwd pos len srch;
  mret (if decide (num = len) then 0 else u64 (pos + num)).
Definition vstr_srch_chrs_rev (pos len : Z) (srch : option (list Z)) : M Z :=
  num ← vstr_cspn_chrs_rev pos len srch;
  mret (if decide (num = len) then 0 else u64 (pos + u64 (len - num - 1))).
Definition vstr_csrch_chrs_fwd (pos len : Z) (srch : option (list Z)) : M Z :=
  num ← vstr_spn_chrs_fwd pos len srch;
  mret (if decide (num = len) then 0 else u64 (pos + num)).
Definition vstr_csrch_chrs_rev (pos len : Z) (srch : option (list Z)) : M Z :=
  num ← vstr_spn_chrs_rev pos len srch;
  mret (if decide (num = len) then 0 else u64 (pos + u64 (len - num - 1))).

(** ** Buffers, forward *)

(** do { body } while (vstr_iter_fwd_nxt(iter) && (vstr_iter_len(iter) >= str_len)) *)
Fixpoint srch_nodes (body : Vstr_iter → M (option Z)) (str_len : Z) (fuel : nat) (it : Vstr_iter) : M Z :=
  r ← body it;
  match r with
  | Some p => mret p
  | None =>
    '(more, it) ← vstr_iter_fwd_nxt it;
    if (more : bool) && bool_decide (str_len ≤ vstr_iter_len it) then
      match fuel with O => undef | S fuel => srch_nodes body str_len fuel it end
    else mret 0
  end.

(** The loop in a node, while what is left of the range can hold the string *)
Fixpoint srch_buf_in_node (fuel : nat) (pos len : Z) (str : list Z) (str_len : Z) (it : Vstr_iter) : M (option Z) :=
  if decide (str_len ≤ vstr_iter_len it) then
    match fuel with
    | O => undef
    | S fuel =>
      bs ← iter_bytes it;
      c ← of_option (head bs);
      c0 ← of_option (head str);
      if decide (c ≠ c0) then
        let som := count_while (λ x, bool_decide (x ≠ c0)) bs in
        if decide (som < it_len it) then srch_buf_in_node fuel pos len str str_len (iter_advance som it)
        else mret None
      else
        let tmp := Z.min (it_len it) str_len in
        let beg_pos := vstr_iter_pos it pos len in
        found ← (if decide (memcmp (ztake tmp bs) (ztake tmp str) = 0) then
                   if decide (tmp = str_len) then mret true
                   else r ← vstr_cmp_buf (u64 (beg_pos + tmp)) (str_len - tmp) (Some (zdrop tmp str)) (str_len - tmp);
                        mret (bool_decide (r = 0))
                 else mret false);
        if (found : bool) then mret (Some beg_pos)
        else
          let it := iter_advance 1 it in
          if decide (it_len it = 0) then mret None else srch_buf_in_node fuel pos len str str_len it
    end
  else mret None.

Definition srch_buf_node (pos len : Z) (str : option (list Z)) (str_len : Z) (it : Vstr_iter) : M (option Z) :=
  match str with
  | None =>
    if iter_non it then
      r ← vstr_cmp_buf (vstr_iter_pos it pos len) str_len None str_len;
      mret (if decide (r = 0) then Some (vstr_iter_pos it pos len) else None)
    else mret None
  | Some bs =>
    if iter_non it then mret None
    else srch_buf_in_node (S (Z.to_nat (it_len it))) pos len bs str_len it
  end.

Definition vstr_srch_buf_fwd (pos len : Z) (str : option (list Z)) (str_len : Z) : M Z :=
  b ← get_base;
  if decide (len = 0 ∨ len < str_len) then mret 0
  else if decide (str_len = 0) then mret pos
  else if decide (str = None ∧ node_non_used b = false) then mret 0
  else match str, decide (str_len = 1) with
  | Some bs, left _ => c ← of_option (head bs); vstr_srch_chr_fwd pos len c
  | _, _ =>
    iter ← vstr_iter_fwd_beg pos len;
    match iter with
    | None => mret 0
    | Some it => srch_nodes (srch_buf_node pos len str str_len) str_len (length (it_node it)) it
    end
  end.

(** ** Backward, the slow way: search forward again after each find.  [go] is
    the test of the loop on the position and the length left. *)
Section rev_slow.
Context {F : Type → Type} `{MRet F, MBind F} (stuck : ∀ A, F A).
Context (fwd : Z → Z → F Z) (go : Z → Z → bool).

Fixpoint srch_rev_loop (fuel : nat) (pos len ret scan_pos scan_len : Z) : F Z :=
  if negb (go scan_pos scan_len) then mret ret
  else match fuel with
  | O => stuck Z
  | S fuel =>
    tmp ← fwd scan_pos scan_len;
    if decide (tmp = 0) then mret ret
    else srch_rev_loop fuel pos len tmp (u64 (tmp + 1)) (u64 (len - vstr_sc_posdiff pos tmp))
  end.
Definition srch_rev_slow (pos len : Z) : F Z := srch_rev_loop (S (Z.to_nat len)) pos len 0 pos len.
End rev_slow.

Definition vstr__srch_buf_rev_slow (pos len : Z) (str : option (list Z)) (str_len : Z) : M Z :=
  srch_rev_slow (@undef) (λ p l, vstr_srch_buf_fwd p l str str_len) (λ _ l, bool_decide (str_len ≤ l)) pos len.

(** ** Backward, the fast way: over the I/O vector *)

(** Compare the end of the node, and of the nodes before it, with the buffer.
    The fuel is the number of nodes. *)
Fixpoint vstr__cmp_eq_rev_buf_loop (fuel : nat) (sr : scan_rev) (str : list Z) (str_len : Z) : M bool :=
  if decide (str_len = 0) then mret true
  else if decide (sr_type sr = NODE_NON) then mret false
  else
    let tmp := Z.min (sr_scan_len sr) str_len in
    bs ← scan_bytes sr;
    if decide (memcmp (ztake tmp (zdrop (str_len - tmp) str)) (ztake tmp (zdrop (sr_scan_len sr - tmp) bs)) ≠ 0)
    then mret false
    else
      let str_len := str_len - tmp in
      let left_ := sr_scan_len sr - tmp in
      if decide (left_ = 0) then
        sr' ← vstr__base_scan_rev_nxt sr;
        match sr', fuel with
        | Some sr', S fuel => vstr__cmp_eq_rev_buf_loop fuel sr' str str_len
        | Some _, O => undef
        | None, _ => if decide (str_len = 0) then mret true else undef
        end
      else
        match fuel with
        | S fuel => vstr__cmp_eq_rev_buf_loop fuel
            (mkRev (sr_len sr) (sr_num sr) (sr_type sr) (sr_str sr) left_) str str_len
        | O => undef
        end.
Definition vstr__cmp_eq_rev_buf (sr : scan_rev) (str : list Z) (str_len : Z) : M bool :=
  if decide (u64 (sr_len sr + sr_scan_len sr) < str_len) then mret false
  else vstr__cmp_eq_rev_buf_loop (S (Z.to_nat (sr_num sr))) sr str str_len.

Fixpoint vstr__cmp_eq_rev_non_loop (fuel : nat) (sr : scan_rev) (str_len : Z) : M bool :=
  if decide (sr_type sr ≠ NODE_NON) then mret false
  else if decide (str_len ≤ sr_scan_len sr) then mret true
  else
    sr' ← vstr__base_scan_rev_nxt sr;
    match sr', fuel with
    | Some sr', S fuel => vstr__cmp_eq_rev_non_loop fuel sr' (str_len - sr_scan_len sr)
    | _, _ => undef
    end.
Definition vstr__cmp_eq_rev_non (sr : scan_rev) (str_len : Z) : M bool :=
  if decide (u64 (sr_len sr + sr_scan_len sr) < str_len) then mret false
  else vstr__cmp_eq_rev_non_loop (S (Z.to_nat (sr_num sr))) sr str_len.

(** The loop in a node: [count] characters of its end are done *)
Fixpoint srch_buf_rev_in_node (fuel : nat) (pos : Z) (str : list Z) (str_len : Z) (sr : scan_rev) (bs : list Z) (count : Z)
    : M (option Z) :=
  if decide (count < sr_scan_len sr) then
    match fuel with
    | O => undef
    | S fuel =>
      let count := count + 1 in
      let rest := sr_scan_len sr - count in
      c ← of_option (bs !! Z.to_nat rest);
      e ← of_option (str !! Z.to_nat (str_len - 1));
      let som := count_while (λ x, bool_decide (x ≠ e)) (reverse (ztake rest bs)) in
      if decide (c ≠ e ∧ (rest = 0 ∨ rest ≤ som)) then srch_buf_rev_in_node fuel pos str str_len sr bs count
      else
        let count := if decide (c ≠ e) then count + (som + 1) else count in
        let len_end := vstr_sc_posdiff count (sr_scan_len sr) in
        eq ← vstr__cmp_eq_rev_buf (mkRev (sr_len sr) (sr_num sr) (sr_type sr) (sr_str sr) len_end) str str_len;
        if (eq : bool) then mret (Some (u64 (u64 (pos + u64 (sr_len sr + len_end)) - str_len)))
        else srch_buf_rev_in_node fuel pos str str_len sr bs count
    end
  else mret None.

Definition srch_buf_rev_node (pos : Z) (str : option (list Z)) (str_len : Z) (sr : scan_rev) : M (loop_next () Z) :=
  match str with
  | None =>
    if decide (sr_type sr = NODE_NON) then
      eq ← vstr__cmp_eq_rev_non sr str_len;
      mret (if (eq : bool) then Return (u64 (u64 (pos + u64 (sr_len sr + sr_scan_len sr)) - str_len)) else Next tt)
    else mret (Next tt)
  | Some s =>
    if decide (sr_type sr = NODE_NON) then mret (Next tt)
    else
      bs ← scan_bytes sr;
      r ← srch_buf_rev_in_node (S (Z.to_nat (sr_scan_len sr))) pos s str_len sr bs 0;
      mret (match r with Some p => Return p | None => Next tt end)
  end.

Definition vstr__srch_buf_rev_fast (pos len : Z) (str : option (list Z)) (str_len : Z) : M Z :=
  scan ← vstr__base_scan_rev_beg pos len;
  match scan with
  | None => mret 0
  | Some sr =>
    r ← scan_do_while (λ sr _, srch_buf_rev_node pos str str_len sr) sr tt;
    mret (match r with Return p => p | Next _ => 0 end)
  end.

Definition vstr_srch_buf_rev (pos len : Z) (str : option (list Z)) (str_len : Z) : M Z :=
  b ← get_base;
  if decide (len = 0 ∨ len < str_len) then mret 0
  else if decide (str_len = 0) then mret (u64 (u64 (pos + len) - 1))
  else match str, decide (str_len = 1) with
  | Some bs, left _ => c ← of_option (head bs); vstr_srch_chr_rev pos len c
  | _, _ =>
    if iovec_upto_date b then vstr__srch_buf_rev_fast pos len str str_len
    else vstr__srch_buf_rev_slow pos len str str_len
  end.

(** ** Another string.  [cmp] and [srch] are the comparison and the search for a
    buffer that are used, [go] the test on the position. *)
Section srch_vstr.
Context (cmp : nat → Z → Z → nat → Z → Z → W Z) (srch : Z → Z → option (list Z) → Z → M Z).
Context (go : Z → bool).

Fixpoint srch_vstr_loop (fuel : nat) (s ndl : nat) (ndl_pos ndl_len : Z) (it : Vstr_iter) (scan_pos scan_len : Z) : W Z :=
  if negb (go scan_pos && bool_decide (ndl_len ≤ scan_len)) then mret 0
  else match fuel with
  | O => wundef
  | S fuel =>
    r ← cmp s scan_pos ndl_len ndl ndl_pos ndl_len;
    if decide (r = 0) then mret scan_pos
    else
      let scan_len := scan_len - 1 in
      let scan_pos := u64 (scan_pos + 1) in
      if iter_non it then srch_vstr_loop fuel s ndl ndl_pos ndl_len it scan_pos scan_len
      else
        bs ← on_string ndl (iter_bytes it);
        tmp ← on_string s (srch scan_pos scan_len (Some bs) (it_len it));
        if decide (tmp = 0) then mret 0
        else srch_vstr_loop fuel s ndl ndl_pos ndl_len it tmp (u64 (scan_len - (tmp - scan_pos)))
  end.

Definition srch_vstr_fwd (s : nat) (pos len : Z) (ndl : nat) (ndl_pos ndl_len : Z) : W Z :=
  if decide (len < ndl_len) then mret 0
  else
    iter ← on_string ndl (vstr_iter_fwd_beg ndl_pos ndl_len);
    match iter with
    | None => mret 0
    | Some it => srch_vstr_loop (S (Z.to_nat len)) s ndl ndl_pos ndl_len it pos len
    end.
End srch_vstr.

(** scan_pos < vstr_sc_poslast(pos, len) *)
Definition vstr_srch_vstr_fwd (s : nat) (pos len : Z) (ndl : nat) (ndl_pos ndl_len : Z) : W Z :=
  srch_vstr_fwd vstr_cmp vstr_srch_buf_fwd (λ p, bool_decide (p < vstr_sc_poslast pos len)) s pos len ndl ndl_pos ndl_len.
Definition vstr_srch_vstr_rev (s : nat) (pos len : Z) (ndl : nat) (ndl_pos ndl_len : Z) : W Z :=
  srch_rev_slow (@wundef) (λ p l, vstr_srch_vstr_fwd s p l ndl ndl_pos ndl_len) (λ _ l, bool_decide (ndl_len ≤ l)) pos len.

(** ** Without the case of letters (src/vstr_srch_case.c) *)
Definition is_ascii_alpha (c : Z) : bool := is_ascii_upper c || is_ascii_lower c.

Definition vstr_srch_case_chr_fwd (pos len srch : Z) : M Z :=
  if negb (is_ascii_alpha srch) then vstr_srch_chr_fwd pos len srch
  else
    let srch := to_upper srch in
    iter ← vstr_iter_fwd_beg pos len;
    match iter with
    | None => mret 0
    | Some it =>
      r ← iter_do_while (A := ()) (R := Z) (λ it _,
            if iter_non it then mret (Next tt)
            else
              bs ← iter_bytes it;
              let count := count_while (λ c, bool_decide (to_upper c ≠ srch)) bs in
              mret (if decide (count < it_len it) then Return (u64 (vstr_iter_pos it pos len + count)) else Next tt))
            it tt;
      mret (match r with Return p => p | Next _ => 0 end)
    end.

Definition vstr_srch_case_chr_rev (pos len srch : Z) : M Z :=
  if negb (is_ascii_alpha srch) then vstr_srch_chr_rev pos len srch
  else vstr_srch_chrs_rev pos len (Some [srch; if is_ascii_lower srch then to_upper srch else to_lower srch]).

Fixpoint srch_case_buf_in_node (fuel : nat) (pos len : Z) (str : list Z) (str_len tmp : Z) (it : Vstr_iter) : M (option Z) :=
  if decide (it_len it ≠ 0 ∧ str_len ≤ vstr_iter_len it) then
    match fuel with
    | O => undef
    | S fuel =>
      bs ← iter_bytes it;
      c ← of_option (head bs);
      let beg_pos := vstr_iter_pos it pos len in
      found ← (if decide (to_upper c ≠ tmp) then mret false
               else r ← vstr_cmp_case_buf beg_pos str_len (Some str) str_len; mret (bool_decide (r = 0)));
      if (found : bool) then mret (Some beg_pos)
      else srch_case_buf_in_node fuel pos len str str_len tmp (iter_advance 1 it)
    end
  else mret None.

Definition vstr_srch_case_buf_fwd (pos len : Z) (str : option (list Z)) (str_len : Z) : M Z :=
  if decide (len = 0 ∨ len < str_len) then mret 0
  else if decide (str_len = 0) then mret pos
  else match str with
  | None => vstr_srch_buf_fwd pos len None str_len
  | Some bs =>
    c ← of_option (head bs);
    if decide (str_len = 1) then vstr_srch_case_chr_fwd pos len c
    else
      iter ← vstr_iter_fwd_beg pos len;
      match iter with
      | None => mret 0
      | Some it =>
        srch_nodes (λ it, if iter_non it then mret None
                          else srch_case_buf_in_node (Z.to_nat (it_len it)) pos len bs str_len (to_upper c) it)
          str_len (length (it_node it)) it
      end
  end.

(** scan_pos < (pos + len - 1) *)
Definition case_go (pos len scan_pos : Z) : bool := bool_decide (scan_pos < u64 (u64 (pos + len) - 1)).

Definition vstr_srch_case_buf_rev (pos len : Z) (str : option (list Z)) (str_len : Z) : M Z :=
  if decide (len = 0 ∨ len < str_len) then mret 0
  else if decide (str_len = 0) then mret (u64 (u64 (pos + len) - 1))
  else match str, decide (str_len = 1) with
  | Some bs, left _ => c ← of_option (head bs); vstr_srch_case_chr_rev pos len c
  | _, _ =>
    srch_rev_slow (@undef) (λ p l, vstr_srch_case_buf_fwd p l str str_len)
      (λ p l, case_go pos len p && bool_decide (str_len ≤ l)) pos len
  end.

Definition vstr_srch_case_vstr_fwd (s : nat) (pos len : Z) (ndl : nat) (ndl_pos ndl_len : Z) : W Z :=
  srch_vstr_fwd vstr_cmp_case vstr_srch_case_buf_fwd (case_go pos len) s pos len ndl ndl_pos ndl_len.
Definition vstr_srch_case_vstr_rev (s : nat) (pos len : Z) (ndl : nat) (ndl_pos ndl_len : Z) : W Z :=
  srch_rev_slow (@wundef) (λ p l, vstr_srch_case_vstr_fwd s p l ndl ndl_pos ndl_len)
    (λ p l, case_go pos len p && bool_decide (ndl_len ≤ l)) pos len.
