(* ===== verification/SrchSpec.v ===== *)
(** * Searches find the first and the last occurrence. *)
From Stdlib Require Import ZArith Lia ZifyBool.
From stdpp Require Import base tactics list numbers option gmap.
From S2P Require Import Prelude State Wp Ref Cache Core Iter World Cmp Inv PosLemmas SpareLemmas SplitLemmas CacheLemmas AddLemmas StringLemmas IterLemmas.
From S2P Require Import Spn IovecSpec SpnSpec SpnTheorems CmpSpec Srch.

Section others.
Context {OT : Others}.

(** ** Occurrences in a list, up to [f] *)
Definition occurs (f : byte_or_non → byte_or_non) (pat l : list byte_or_non) (i : Z) : Prop :=
  0 ≤ i ∧ f <$> ztake (zlen pat) (zdrop i l) = f <$> pat.
Definition first_occ f (pat : list byte_or_non) (pos : Z) (l : list byte_or_non) (r : Z) : Prop :=
  (r = 0 ∧ ∀ i, ¬ occurs f pat l i) ∨ (∃ i, r = pos + i ∧ occurs f pat l i ∧ ∀ j, occurs f pat l j → i ≤ j).
Definition last_occ f (pat : list byte_or_non) (pos : Z) (l : list byte_or_non) (r : Z) : Prop :=
  (r = 0 ∧ ∀ i, ¬ occurs f pat l i) ∨ (∃ i, r = pos + i ∧ occurs f pat l i ∧ ∀ j, occurs f pat l j → j ≤ i).

Lemma occurs_bound f pat l i : pat ≠ [] → occurs f pat l i → 0 ≤ i ∧ i + zlen pat ≤ zlen l.
Proof.
  intros Hp [Hi H]. apply (f_equal (λ l, zlen l)) in H. rewrite !length_fmap, length_ztake, length_zdrop in H.
  destruct pat; [done|]. cbn [length] in *. lia.
Qed.
Lemma occurs_short f pat l i : zlen l < zlen pat → ¬ occurs f pat l i.
Proof. intros Hl H. destruct pat as [|x pat]; [cbn in Hl; lia|]. apply occurs_bound in H; [|done]. lia. Qed.
Lemma occurs_head f x pat l i : occurs f (x :: pat) l i → ∃ y, l !! Z.to_nat i = Some y ∧ f y = f x.
Proof.
  intros H. assert (Hb := H). apply occurs_bound in Hb; [|done]. destruct H as [Hi H]. cbn [length] in Hb.
  destruct (l !! Z.to_nat i) as [y|] eqn:E; [|apply lookup_ge_None in E; lia]. exists y. split; [done|].
  rewrite (list_split_at _ _ _ E) in H. unfold zdrop in H. rewrite drop_app_length' in H by (rewrite length_take; lia).
  unfold ztake in H. replace (Z.to_nat (zlen (x :: pat))) with (S (length pat)) in H by (cbn; lia). cbn in H. congruence.
Qed.
Lemma occurs_app f pat pre l i : occurs f pat (pre ++ l) (zlen pre + i) ↔ 0 ≤ zlen pre + i ∧ f <$> ztake (zlen pat) (zdrop (zlen pre + i) (pre ++ l)) = f <$> pat.
Proof. done. Qed.
Lemma occurs_shift f pat pre l i : 0 ≤ i → occurs f pat (pre ++ l) (zlen pre + i) ↔ occurs f pat l i.
Proof.
  intros Hi. unfold occurs. rewrite zdrop_app_r by lia. replace (zlen pre + i - zlen pre) with i by lia.
  split; intros [? ?]; (split; [lia|done]).
Qed.
Lemma occurs_here f pat pre l : occurs f pat (pre ++ l) (zlen pre) ↔ f <$> ztake (zlen pat) l = f <$> pat.
Proof.
  rewrite <- (Z.add_0_r (zlen pre)), occurs_shift by lia. unfold occurs. rewrite zdrop_0 by lia.
  split; [by intros [_ ?]|intros ?; by split; [lia|]].
Qed.

(** A part of a range *)
Lemma substr_substr pos len i n l :
  1 ≤ pos → 0 ≤ i → i + n ≤ len → substr (pos + i) n l = ztake n (zdrop i (substr pos len l)).
Proof.
  intros. unfold substr. destruct (decide (0 ≤ n)) as [Hn|Hn].
  - rewrite zdrop_ztake by lia. rewrite ztake_ztake. rewrite zdrop_zdrop by lia. do 2 f_equal; lia.
  - rewrite !(ztake_0 n) by lia. done.
Qed.

(** Two comparisons that test equality up to a function *)
Lemma memcmp_eq a : ∀ b, length a = length b → memcmp a b = 0 ↔ a = b.
Proof.
  induction a as [|x a IH]; intros [|y b] Hl; try done. cbn in Hl |- *. case_decide as E.
  - rewrite IH by lia. split; [intros ->; f_equal; lia|by intros [= _ ->]].
  - split; [lia|]. intros [= -> ->]. lia.
Qed.
Class TestsUpTo (f : byte_or_non → byte_or_non) {X} (c : comparison X) `{!Comparison c} : Prop :=
  tests_up_to : ∀ l1 l2, cmp_spec c cs_step (cm_init c) l1 l2 = 0 ↔ f <$> l1 = f <$> l2.
#[export] Instance memcmp_tests : TestsUpTo id cmp_memcmp.
Proof. intros l1 l2. rewrite !list_fmap_id. apply bytes_cmp_eq. Qed.
#[export] Instance memcasecmp_tests : TestsUpTo lower_chr cmp_memcasecmp.
Proof. intros l1 l2. change (cs_step (c := cmp_memcasecmp)) with (step_bytes to_lower). rewrite case_cmp_lower. apply bytes_cmp_eq. Qed.

(** ** Searching forward, node by node *)
Section nodes.
Context (f : byte_or_non → byte_or_non) (s0 : St) (pos len : Z) (pat : list byte_or_non).
Local Abbreviation whole := (substr pos len (st_content s0)).
Hypothesis Hw0 : wf s0.
Hypothesis Hr : in_range s0 pos len.
Hypothesis Hfit : range_fits pos len.
Hypothesis Hpat : pat ≠ [].

Lemma whole_len : zlen whole = len.
Proof. by apply substr_length. Qed.

(** What the body does with a node *)
Definition node_searched (pre cur : list byte_or_non) (r : option Z) : Prop :=
  match r with
  | Some p => first_occ f pat pos whole p
  | None => ∀ j, occurs f pat whole j → zlen pre + zlen cur ≤ j
  end.
Lemma node_searched_cut n pre cur r :
  0 ≤ n ≤ zlen cur → node_searched (pre ++ ztake n cur) (zdrop n cur) r → node_searched pre cur r.
Proof.
  intros Hn. destruct r as [p|]; [done|]. intros H j Hj. specialize (H j Hj).
  rewrite length_app, Nat2Z.inj_add, length_ztake, length_zdrop in H. lia.
Qed.
Definition still (s : St) : Prop := only_pos s0 s ∧ wf s.
Lemma still_heap s : still s → s_heap s = s_heap s0.
Proof. intros [H _]. apply (only_pos_same _ _ H). Qed.
Lemma still_trans s s' : still s → only_pos s s' → wf s' → still s'.
Proof. intros [H _] ? ?. split; [by eapply only_pos_trans|done]. Qed.

(** The part of the range from index [i] on, as a range of the state now *)
Lemma still_range s i n : still s → 0 ≤ i → 1 ≤ n → i + n ≤ len →
  in_range s (pos + i) n ∧ substr (pos + i) n (st_content s) = ztake n (zdrop i whole).
Proof.
  intros [H _] ???. destruct (only_pos_same _ _ H) as (_&_&_&_&El&_&_&_&Ec). destruct Hr as (?&?&?).
  split; [unfold in_range; rewrite El; lia|]. rewrite Ec. by apply substr_substr.
Qed.

Lemma srch_nodes_spec body str_len fuel : ∀ it pre cur rest s,
  zlen pat = str_len →
  (∀ s it pre cur rest, still s → iter_at (s_heap s) it cur rest → 0 < zlen cur → whole = pre ++ cur ++ rest →
    (∀ j, occurs f pat whole j → zlen pre ≤ j) → str_len ≤ zlen cur + zlen rest →
    wp (body it) s (λ r s', still s' ∧ node_searched pre cur r)) →
  still s → iter_at (s_heap s) it cur rest → 0 < zlen cur → whole = pre ++ cur ++ rest → str_len ≤ zlen cur + zlen rest →
  (∀ j, occurs f pat whole j → zlen pre ≤ j) → (length (it_node it) ≤ fuel)%nat →
  wp (srch_nodes body str_len fuel it) s (λ r s', still s' ∧ first_occ f pat pos whole r).
Proof.
  induction fuel as [|fuel IH]; intros it pre cur rest s1 Hlen Hbody Hs Hit Hc Hsplit Hle Hno Hf.
  { destruct (ia_node _ _ _ _ Hit) as (nd&R&E&_). rewrite E in Hf. cbn in Hf. lia. }
  cbn [srch_nodes]. wp_step. eapply wp_mono; [by eapply Hbody|]. intros r s2 [Hs2 Hn]. destruct r as [p|]; [by wp_steps|].
  cbn in Hn. wp_step. rewrite (still_heap _ Hs) in Hit. rewrite <- (still_heap _ Hs2) in Hit.
  wp_apply vstr_iter_fwd_nxt_spec; [exact Hit|]. intros [more it'] s3 [-> Hm]. destruct more; cbn [andb].
  - destruct Hm as (cur'&rest'&->&Hc'&Hit'&Hlen'&_). pose proof whole_len as Hwl.
    assert (Hil : vstr_iter_len it' = zlen (cur' ++ rest')).
    { apply (iter_at_len _ _ _ _ Hit'). pose proof (f_equal (λ l, zlen l) Hsplit) as E. cbn beta in E.
      rewrite !length_app in *. unfold range_fits in Hfit. destruct Hr as (?&_). lia. }
    rewrite Hil. case_bool_decide as Hb.
    + eapply (IH it' (pre ++ cur) cur' rest'); try done; [by rewrite <- app_assoc|rewrite length_app in Hb; lia| |lia].
      intros j Hj. rewrite length_app. specialize (Hn j Hj). lia.
    + wp_steps. split; [done|]. left. split; [done|]. intros i Hi. specialize (Hn i Hi).
      pose proof (occurs_bound _ _ _ _ Hpat Hi) as [_ Hi2]. rewrite Hsplit, !length_app in Hi2. rewrite length_app in Hb. lia.
  - destruct Hm as (->&_). wp_steps. split; [done|]. left. split; [done|]. intros i Hi. specialize (Hn i Hi).
    pose proof (occurs_bound _ _ _ _ Hpat Hi) as [_ Hi2]. rewrite Hsplit, !length_app in Hi2.
    destruct pat; [done|]. cbn [length] in *. lia.
Qed.

(** The position of the iterator, and a comparison made there *)
Lemma still_pos s it pre cur rest :
  still s → iter_at (s_heap s) it cur rest → whole = pre ++ cur ++ rest → vstr_iter_pos it pos len = pos + zlen pre.
Proof.
  intros Hs Hit Hsplit. apply (iter_at_pos _ _ _ _ pos len pre Hit); [|by destruct Hr|done].
  rewrite <- Hsplit. symmetry. apply whole_len.
Qed.
Lemma still_len s it pre cur rest :
  iter_at (s_heap s) it cur rest → whole = pre ++ cur ++ rest → vstr_iter_len it = zlen (cur ++ rest).
Proof.
  intros Hit Hsplit. apply (iter_at_len _ _ _ _ Hit). pose proof whole_len as Hwl. rewrite Hsplit, length_app in Hwl.
  unfold range_fits in Hfit. destruct Hr as (?&_). lia.
Qed.
Lemma still_cmp_buf {X} (c : comparison X) `{CO : !Comparison c} g `{!TestsUpTo g c} s i n buf :
  still s → 0 ≤ i → 1 ≤ n → i + n ≤ len → buf_fits buf n →
  wp (cmp_string_buf c (pos + i) n buf n) s (λ r s',
    still s' ∧ (r = 0 ↔ g <$> ztake n (zdrop i whole) = g <$> buf_content buf n)).
Proof.
  intros Hs Hi Hn Hle Hb. destruct (still_range s i n Hs Hi Hn Hle) as [Hir Hsub].
  eapply wp_mono; [apply cmp_string_buf_spec; [apply Hs|split; [destruct Hr; lia|by right]|exact Hb]|].
  intros r s' (->&Ho&Hw'). split; [by eapply still_trans|]. rewrite Hsub. apply tests_up_to.
Qed.

End nodes.

(** ** The bodies for bytes as they are *)
Section exact.
Context (s0 : St) (pos len : Z) (pat : list byte_or_non).
Local Abbreviation whole := (substr pos len (st_content s0)).
Local Abbreviation still := (still s0).
Local Abbreviation searched := (node_searched id s0 pos len pat).
Hypothesis Hw0 : wf s0.
Hypothesis Hr : in_range s0 pos len.
Hypothesis Hfit : range_fits pos len.

(** A node of NON data *)
Lemma srch_non_node_spec str_len s it pre cur rest :
  pat = zrep str_len None → 1 ≤ str_len ≤ len →
  still s → iter_at (s_heap s) it cur rest → 0 < zlen cur → whole = pre ++ cur ++ rest →
  str_len ≤ zlen cur + zlen rest →
  (∀ j, occurs id pat whole j → zlen pre ≤ j) →
  wp (srch_buf_node pos len None str_len it) s (λ r s', still s' ∧ searched pre cur r).
Proof.
  intros Hpt Hsl Hs Hit Hc Hsplit Hfits Hno. unfold srch_buf_node.
  pose proof (whole_len s0 pos len Hw0 Hr) as Hwl. rewrite Hsplit, !length_app in Hwl.
  assert (Hlp : zlen pat = str_len) by (rewrite Hpt, length_zrep; lia). destruct (iter_non it) eqn:En.
  - rewrite (still_pos s0 pos len Hw0 Hr Hfit _ _ _ _ _ Hs Hit Hsplit). unfold vstr_cmp_buf. wp_step.
    eapply wp_mono; [apply (still_cmp_buf s0 pos len Hr cmp_memcmp id); [done|lia|lia|lia|]|].
    { split; [lia|done]. }
    intros r s1 (Hs1&Hr0). wp_steps. split; [done|]. cbn [buf_content] in Hr0. rewrite <- Hpt in Hr0.
    assert (Hocc : occurs id pat whole (zlen pre) ↔ r = 0).
    { rewrite Hr0. unfold occurs. rewrite Hlp. split; [by intros [_ ?]|]. intros ?. split; [lia|done]. }
    case_decide as H0.
    + cbn. right. exists (zlen pre). split; [done|]. split; [by apply Hocc|done].
    + cbn. intros j Hj. destruct (decide (zlen pre + zlen cur ≤ j)) as [|Hlt]; [done|exfalso].
      (* an occurrence inside the node makes one at its start *)
      assert (Hj0 := Hno j Hj). apply H0, Hocc. clear Hr0 Hocc.
      pose proof (iter_at_non _ _ _ _ Hit En) as Hz. rewrite (ia_len _ _ _ _ Hit) in Hz.
      rewrite Hsplit in Hj |- *. replace j with (zlen pre + (j - zlen pre)) in Hj by lia.
      rewrite occurs_shift in Hj by lia. apply occurs_here. destruct Hj as [_ Hj]. rewrite !list_fmap_id in *.
      set (d := j - zlen pre) in *. assert (Hd : 0 ≤ d < zlen cur) by lia.
      rewrite Hlp in *. rewrite Hpt. rewrite Hpt in Hj.
      rewrite zdrop_app_l in Hj by lia. rewrite Hz in Hj |- *. rewrite zdrop_zrep in Hj by lia.
      destruct (decide (str_len ≤ zlen cur)) as [Hle|Hgt].
      * rewrite ztake_app_l by (rewrite length_zrep; lia). rewrite ztake_zrep. f_equal. lia.
      * rewrite ztake_app_r by (rewrite length_zrep; lia). rewrite length_zrep.
        rewrite ztake_app_r in Hj by (rewrite length_zrep; lia). rewrite length_zrep in Hj.
        assert (Hrest : ztake (str_len - (zlen cur - d)) rest = zrep (str_len - (zlen cur - d)) None).
        { replace str_len with ((zlen cur - d) + (str_len - (zlen cur - d))) in Hj at 2 by lia.
          rewrite <- zrep_app in Hj by lia.
          replace (str_len - Z.max 0 (zlen cur - d)) with (str_len - (zlen cur - d)) in Hj by lia.
          by apply app_inv_head in Hj. }
        replace (Z.max 0 (zlen cur)) with (zlen cur) by lia.
        replace (str_len - zlen cur) with (Z.min (str_len - zlen cur) (str_len - (zlen cur - d))) by lia.
        rewrite <- ztake_ztake, Hrest, ztake_zrep, zrep_app by lia. f_equal. lia.
  - wp_steps. split; [done|]. cbn. intros j Hj. destruct (decide (zlen pre + zlen cur ≤ j)) as [|Hlt]; [done|exfalso].
    assert (Hj0 := Hno j Hj). destruct (iter_run_spec _ _ _ _ 0 Hit En ltac:(lia)) as (bs&->&_).
    rewrite length_fmap in *. replace (Z.to_nat str_len) with (S (pred (Z.to_nat str_len))) in Hpt by lia.
    unfold zrep in Hpt. replace (Z.to_nat str_len) with (S (pred (Z.to_nat str_len))) in Hpt by lia. cbn in Hpt.
    rewrite Hpt in Hj. apply occurs_head in Hj as (y&Hy&Ey). unfold id in Ey. subst y. rewrite Hsplit in Hy.
    rewrite lookup_app_r, lookup_app_l in Hy by (rewrite ?length_fmap; lia). rewrite list_lookup_fmap in Hy.
    destruct (bs !! _); done.
Qed.

(** Positions that a node rules out one after the other *)
Lemma rule_out_head n pre cur rest x y p :
  pat = x :: p → whole = pre ++ cur ++ rest → (∀ j, occurs id pat whole j → zlen pre ≤ j) →
  0 ≤ n ≤ zlen cur → Forall (λ z, z ≠ y) (ztake n cur) → x = y →
  ∀ j, occurs id pat whole j → zlen pre + n ≤ j.
Proof.
  intros Hpt Hsplit Hno Hn Hf -> j Hj. pose proof (Hno j Hj) as Hj0.
  destruct (decide (zlen pre + n ≤ j)) as [|Hlt]; [done|exfalso].
  rewrite Hpt in Hj. apply occurs_head in Hj as (z&Hz&E). unfold id in E. subst z.
  rewrite Hsplit, lookup_app_r in Hz by lia. rewrite lookup_app_l in Hz by lia.
  rewrite Forall_lookup in Hf. apply (Hf (Z.to_nat j - length pre)%nat y); [|done].
  unfold ztake. rewrite lookup_take_lt by lia. done.
Qed.

(** The test of one position: the bytes of the node, then what follows *)
Lemma found_spec str str_len s it pre cur bs rest :
  pat = Some <$> str → zlen str = str_len → 1 ≤ str_len →
  still s → iter_at (s_heap s) it cur rest → cur = Some <$> bs → 0 < zlen cur → whole = pre ++ cur ++ rest →
  str_len ≤ zlen cur + zlen rest →
  let tmp := Z.min (it_len it) str_len in
  wp (if decide (memcmp (ztake tmp bs) (ztake tmp str) = 0) then
        if decide (tmp = str_len) then mret true
        else r ← vstr_cmp_buf (u64 (vstr_iter_pos it pos len + tmp)) (str_len - tmp) (Some (zdrop tmp str)) (str_len - tmp);
             mret (bool_decide (r = 0))
      else mret false) s (λ r s', still s' ∧ (r = true ↔ occurs id pat whole (zlen pre))).
Proof.
  intros Hpt Hstr Hsl Hs Hit Hbs Hc Hsplit Hfits tmp.
  pose proof (whole_len s0 pos len Hw0 Hr) as Hwl. pose proof Hwl as Hwl'. rewrite Hsplit, !length_app in Hwl'.
  rewrite (still_pos s0 pos len Hw0 Hr Hfit _ _ _ _ _ Hs Hit Hsplit).
  assert (Htmp : tmp = Z.min (zlen cur) str_len) by (unfold tmp; by rewrite (ia_len _ _ _ _ Hit)).
  assert (Hlb : zlen bs = zlen cur) by (rewrite Hbs; by rewrite length_fmap).
  assert (Hlp : zlen pat = str_len) by (rewrite Hpt, length_fmap; done).
  assert (Hocc : occurs id pat whole (zlen pre) ↔ ztake str_len (cur ++ rest) = Some <$> str).
  { rewrite Hsplit at 1. rewrite occurs_here, !list_fmap_id, Hlp, Hpt. done. }
  assert (Hcut : ztake tmp (cur ++ rest) = Some <$> ztake tmp bs).
  { rewrite ztake_app_l by lia. by rewrite Hbs, ztake_fmap. }
  assert (Hsp : ztake str_len (cur ++ rest) = (Some <$> ztake tmp bs) ++ ztake (str_len - tmp) (zdrop tmp (cur ++ rest))).
  { rewrite <- Hcut. rewrite <- (ztake_zdrop tmp (ztake str_len (cur ++ rest))). rewrite ztake_ztake, zdrop_ztake by lia.
    do 2 f_equal. lia. }
  assert (Hss : Some <$> str = (Some <$> ztake tmp str) ++ (Some <$> zdrop tmp str)).
  { by rewrite <- fmap_app, ztake_zdrop. }
  assert (Hl1 : length (ztake tmp bs) = length (ztake tmp str)) by (apply Nat2Z.inj; rewrite !length_ztake; lia).
  pose proof (memcmp_eq _ _ Hl1) as Hm. rewrite Hsp, Hss in Hocc.
  assert (Hinj : ∀ t u : list byte_or_non, (Some <$> ztake tmp bs) ++ t = (Some <$> ztake tmp str) ++ u ↔
    ztake tmp bs = ztake tmp str ∧ t = u).
  { intros t u. split; [|by intros [-> ->]]. intros E. apply app_inj_1 in E as [E1 E2]; [|by rewrite !length_fmap].
    split; [|done]. apply (inj (fmap Some)) in E1. done. }
  rewrite Hinj in Hocc. case_decide as Hm0.
  - case_decide as Ht.
    + wp_steps. split; [done|]. rewrite Hocc. split; [intros _|done]. split; [by apply Hm|].
      rewrite (ztake_0 (str_len - tmp)), zdrop_all by lia. done.
    + wp_step. assert (Hpm : pos + len ≤ SIZE_MAX) by exact Hfit. destruct Hr as (Hp1&Hl1'&Hr1).
      rewrite u64_id by lia. replace (pos + zlen pre + tmp) with (pos + (zlen pre + tmp)) by lia.
      eapply wp_mono; [apply (still_cmp_buf s0 pos len Hr cmp_memcmp id); [done|lia|lia|lia|]|].
      { split; [lia|]. intros ? [= <-]. rewrite length_zdrop. lia. }
      intros r s1 (Hs1&Hr0). wp_steps. split; [done|]. rewrite Hocc, bool_decide_eq_true, Hr0, !list_fmap_id. cbn [buf_content].
      rewrite Hsplit, <- zdrop_zdrop, zdrop_app_len by lia. split; [intros ?; split; [by apply Hm|done]|by intros [_ ?]].
  - wp_steps. split; [done|]. rewrite Hocc. split; [done|]. intros [E _]. by apply Hm in E.
Qed.

Lemma srch_buf_in_node_spec str str_len fuel : ∀ it pre cur rest s,
  pat = Some <$> str → zlen str = str_len → 1 ≤ str_len →
  still s → iter_at (s_heap s) it cur rest → iter_non it = false → 0 < zlen cur → whole = pre ++ cur ++ rest →
  (∀ j, occurs id pat whole j → zlen pre ≤ j) → zlen cur ≤ Z.of_nat fuel →
  wp (srch_buf_in_node fuel pos len str str_len it) s (λ r s', still s' ∧ searched pre cur r).
Proof.
  induction fuel as [|fuel IH]; intros it pre cur rest s Hpt Hstr Hsl Hs Hit Hnon Hc Hsplit Hno Hf; [lia|].
  cbn [srch_buf_in_node]. rewrite (still_len s0 pos len Hw0 Hr Hfit _ _ _ _ _ Hit Hsplit).
  assert (Hlp : zlen pat = str_len) by (rewrite Hpt, length_fmap; done). rewrite length_app.
  destruct (decide (str_len ≤ _)) as [Hfits|Hfits].
  2:{ wp_steps. split; [done|]. intros j Hj. pose proof (Hno j Hj). apply occurs_bound in Hj as [_ Hj].
      - rewrite Hsplit, !length_app in Hj. lia.
      - intros ->. cbn in Hlp. lia. }
  destruct (iter_at_bytes _ _ _ _ Hit Hnon) as (bs&Hbs&Hlb&Hrun). wp_step. eapply wp_mono; [exact Hrun|].
  intros ? ? [-> ->]. destruct bs as [|c bs]; [rewrite Hbs in Hc; cbn in Hc; lia|].
  destruct str as [|c0 str]; [cbn in Hstr; lia|]. wp_step. eapply wp_of_option; [done|].
  wp_step. eapply wp_of_option; [done|]. case_decide as Hcc.
  - set (som := count_while (λ x, bool_decide (x ≠ c0)) (c :: bs)).
    pose proof (count_while_bound (λ x, bool_decide (x ≠ c0)) (c :: bs)) as Hb. fold som in Hb.
    pose proof (count_while_prefix (λ x, bool_decide (x ≠ c0)) (c :: bs)) as Hpre. fold som in Hpre.
    assert (Hout : ∀ j, occurs id pat whole j → zlen pre + som ≤ j).
    { apply (rule_out_head som pre cur rest (Some c0) (Some c0) (Some <$> str)); try done; [rewrite Hbs, length_fmap; lia|].
      rewrite Hbs, ztake_fmap, Forall_fmap. eapply Forall_impl; [exact Hpre|]. cbn. intros z ?%bool_decide_eq_true. congruence. }
    rewrite Hlb in Hb. case_decide as Hsom.
    + pose proof (ia_len _ _ _ _ Hit) as Hil.
      eapply wp_mono; [apply (IH (iter_advance som it) (pre ++ ztake som cur) (zdrop som cur) rest); try done|
        intros r s' [? Hr']; split; [done|]; eapply (node_searched_cut _ _ _ _ _ som); [|exact Hr']; lia].
      * apply iter_advance_at; [done|]. rewrite Hil in *. lia.
      * rewrite length_zdrop. lia.
      * rewrite <- app_assoc. rewrite (app_assoc (ztake som cur)), ztake_zdrop. done.
      * intros j Hj. rewrite length_app, Nat2Z.inj_add, length_ztake. specialize (Hout j Hj). lia.
      * rewrite length_zdrop. assert (0 < som); [|lia]. unfold som. cbn. rewrite bool_decide_eq_true_2 by done.
        pose proof (count_while_bound (λ x, bool_decide (x ≠ c0)) bs). lia.
    + wp_steps. split; [done|]. cbn. intros j Hj. specialize (Hout j Hj). rewrite (ia_len _ _ _ _ Hit) in *. lia.
  - wp_step. eapply wp_mono; [eapply (found_spec (c0 :: str) str_len s it pre cur (c :: bs) rest); try done; lia|].
    intros found s1 (Hs1&Hfound). pose proof (still_pos s0 pos len Hw0 Hr Hfit _ _ _ _ _ Hs Hit Hsplit) as Hpos.
    destruct found.
    + wp_steps. split; [done|]. cbn. right. exists (zlen pre). split; [done|]. split; [by apply Hfound|done].
    + assert (Hout : ∀ j, occurs id pat whole j → zlen pre + 1 ≤ j).
      { intros j Hj. pose proof (Hno j Hj). destruct (decide (j = zlen pre)) as [->|]; [|lia].
        apply Hfound in Hj. done. }
      pose proof (ia_len _ _ _ _ Hit) as Hil. cbn [it_len iter_advance]. case_decide as H1.
      * wp_steps. split; [done|]. cbn. intros j Hj. specialize (Hout j Hj). lia.
      * eapply wp_mono; [apply (IH (iter_advance 1 it) (pre ++ ztake 1 cur) (zdrop 1 cur) rest); try done|
        intros r s' [? Hr']; split; [done|]; eapply (node_searched_cut _ _ _ _ _ 1); [|exact Hr']; lia].
        -- rewrite (still_heap _ _ Hs1), <- (still_heap _ _ Hs). apply iter_advance_at; [done|lia].
        -- rewrite length_zdrop. lia.
        -- rewrite <- app_assoc. rewrite (app_assoc (ztake 1 cur)), ztake_zdrop. done.
        -- intros j Hj. rewrite length_app, Nat2Z.inj_add, length_ztake. specialize (Hout j Hj). lia.
        -- rewrite length_zdrop. lia.
Qed.
End exact.

(** ** vstr_srch_buf_fwd *)
Lemma occurs_nil f l : occurs f [] l 0.
Proof. split; [lia|]. by rewrite ztake_0 by (cbn; lia). Qed.
Lemma first_occ_nil f pos l : first_occ f [] pos l pos.
Proof. right. exists 0. split; [lia|]. split; [apply occurs_nil|]. by intros j [? _]. Qed.
Lemma occurs_one f x l i :
  occurs f [x] l i ↔ 0 ≤ i ∧ ∃ y, l !! Z.to_nat i = Some y ∧ f y = f x.
Proof.
  split.
  - intros H. split; [by destruct H|by apply occurs_head in H].
  - intros (Hi&y&Hy&E). split; [done|]. rewrite (list_split_at _ _ _ Hy). unfold zdrop.
    rewrite drop_app_length' by (apply lookup_lt_Some in Hy; rewrite length_take; lia).
    unfold ztake. replace (Z.to_nat (zlen [x])) with 1%nat by done. rewrite firstn_cons, take_0, !fmap_cons, E. done.
Qed.

(** The first place where a test on characters holds *)
Lemma first_pos_occ f (p : byte_or_non → bool) x pos l :
  1 ≤ pos → (∀ y, p y = true ↔ f y = f x) → first_occ f [x] pos l (first_pos p pos l).
Proof.
  intros Hpos Hp. unfold first_pos. pose proof (count_while_bound (negb ∘ p) l) as Hb.
  pose proof (count_while_prefix (negb ∘ p) l) as Hpre. pose proof (count_while_stops (negb ∘ p) l) as Hst.
  set (n := count_while (negb ∘ p) l) in *.
  assert (Hout : ∀ j, occurs f [x] l j → n ≤ j).
  { intros j (Hj&y&Hy&E)%occurs_one. destruct (decide (n ≤ j)) as [|Hlt]; [done|].
    rewrite Forall_lookup in Hpre. specialize (Hpre (Z.to_nat j) y). unfold ztake in Hpre.
    rewrite lookup_take_lt in Hpre by lia. specialize (Hpre Hy). cbn in Hpre. apply Hp in E. by rewrite E in Hpre. }
  case_decide as Hn.
  - right. exists n. split; [done|]. split; [|done]. apply occurs_one. split; [lia|].
    destruct (l !! Z.to_nat n) as [y|] eqn:Ey; [|apply lookup_ge_None in Ey; lia]. exists y. split; [done|].
    apply Hp. specialize (Hst y eq_refl). cbn in Hst. by apply negb_false_iff.
  - left. split; [done|]. intros i Hi. pose proof (Hout i Hi). apply occurs_one in Hi as (?&y&Hy&_).
    apply lookup_lt_Some in Hy. lia.
Qed.
Lemma is_chr_true c y : is_chr c y = true ↔ y = Some c.
Proof. destruct y as [d|]; cbn; [rewrite bool_decide_eq_true; naive_solver|done]. Qed.
Lemma no_non_occurs s pos len n :
  wf s → node_non_used (s_base s) = false → 1 ≤ n → ∀ i, ¬ occurs id (zrep n None) (substr pos len (st_content s)) i.
Proof.
  intros Hw Hn Hn1 i Hi. pose proof (substr_forall _ pos len _ (content_no_non s Hw Hn)) as Hf.
  unfold zrep in Hi. replace (Z.to_nat n) with (S (pred (Z.to_nat n))) in Hi by lia. cbn in Hi.
  apply occurs_head in Hi as (y&Hy&E). unfold id in E. subst y. rewrite Forall_lookup in Hf. by specialize (Hf _ _ Hy).
Qed.

Lemma vstr_srch_buf_fwd_spec s pos len str str_len :
  wf s → in_range s pos len → range_fits pos len → buf_fits str str_len →
  wp (vstr_srch_buf_fwd pos len str str_len) s
    (reads s (first_occ id (buf_content str str_len) pos (substr pos len (st_content s)))).
Proof.
  intros Hw Hr Hfit Hb. pose proof (substr_length _ _ _ Hw Hr) as Hl. pose proof (buf_content_length _ _ Hb) as Hbl.
  set (whole := substr pos len (st_content s)) in *. set (pat := buf_content str str_len) in *.
  pose proof Hr as (Hp&Hl1&_). pose proof Hb as [Hb0 Hb1].
  unfold vstr_srch_buf_fwd. wp_step. apply wp_gets. destruct (decide (len = 0 ∨ len < str_len)) as [Hs|Hs].
  { wp_steps. apply reads_now; [done|]. left. split; [done|]. intros i. apply occurs_short. lia. }
  destruct (decide (str_len = 0)) as [H0|H0].
  { wp_steps. apply reads_now; [done|]. replace pat with ([] : list byte_or_non); [apply first_occ_nil|].
    symmetry. apply nil_length_inv, Nat2Z.inj. cbn. lia. }
  destruct (decide (str = None ∧ node_non_used (s_base s) = false)) as [[-> Hn]|Hn].
  { wp_steps. apply reads_now; [done|]. left. split; [done|]. apply no_non_occurs; [done|done|lia]. }
  assert (Hne : pat ≠ []) by (intros E; rewrite E in Hbl; cbn in Hbl; lia).
  assert (Hnodes : wp (iter ← vstr_iter_fwd_beg pos len;
      match iter with
      | None => mret 0
      | Some it => srch_nodes (srch_buf_node pos len str str_len) str_len (length (it_node it)) it
      end) s (reads s (first_occ id pat pos whole))).
  { wp_step. wp_apply vstr_iter_fwd_beg_spec; [done|done|]. intros r s1 (Ho&Hw1&it&cur&rest&->&Hsplit&Hc&Hit).
    fold whole in Hsplit. pose proof Hsplit as Hwl. apply (f_equal (λ l, zlen l)) in Hwl. rewrite length_app in Hwl.
    assert (Hst : still s s1) by done.
    eapply wp_mono; [eapply (srch_nodes_spec id s pos len pat Hw Hr Hfit Hne (srch_buf_node pos len str str_len) str_len
      (length (it_node it)) it [] cur rest s1); try done| intros r s' [[? ?] ?]; by split_and!].
    - intros s2 it2 pre2 cur2 rest2 Hs2 Hit2 Hc2 Hsp2 Hno2 Hle2. destruct str as [bs|].
      + unfold srch_buf_node. destruct (iter_non it2) eqn:En.
        * wp_steps. split; [done|]. cbn. intros j Hj. destruct (decide (zlen pre2 + zlen cur2 ≤ j)) as [|Hlt]; [done|exfalso].
          pose proof (Hno2 j Hj). pose proof (iter_at_non _ _ _ _ Hit2 En) as Hz. rewrite (ia_len _ _ _ _ Hit2) in Hz.
          destruct bs as [|c0 bs]; [done|]. apply occurs_head in Hj as (y&Hy&E). unfold id in E. subst y.
          rewrite Hsp2, lookup_app_r, lookup_app_l in Hy by lia. rewrite Hz in Hy.
          by apply lookup_replicate_1 in Hy as [? _].
        * apply (srch_buf_in_node_spec s pos len pat Hw Hr Hfit bs str_len _ it2 pre2 cur2 rest2); try done; [by apply Hb1|lia|].
          rewrite (ia_len _ _ _ _ Hit2). lia.
      + by apply (srch_non_node_spec s pos len pat Hw Hr Hfit str_len s2 it2 pre2 cur2 rest2); try done; lia.
    - lia.
    - intros j [? _]. cbn. lia. }
  destruct str as [bs|]; [|exact Hnodes]. destruct (decide (str_len = 1)) as [H1|H1]; [|exact Hnodes].
  specialize (Hb1 bs eq_refl). destruct bs as [|c [|]]; cbn in Hb1; try lia.
  wp_step. eapply wp_of_option; [done|]. eapply wp_mono; [by apply vstr_srch_chr_fwd_spec|].
  intros r s' [-> ?]. split; [|done]. apply first_pos_occ; [done|]. intros y. apply is_chr_true.
Qed.

(** ** Backward by searching forward again.  [T m Q]: from every state of an
    invariant, [m] runs to one with a result in [Q]; the monad may be that of
    one string or of several. *)
Section rev_slow.
Context {F : Type → Type} `{MRet F, MBind F} (stuck : ∀ A, F A) (T : F Z → (Z → Prop) → Prop).
Hypothesis T_ret : ∀ (x : Z) (Q : Z → Prop), Q x → T (mret x) Q.
Hypothesis T_bind : ∀ (m : F Z) k (P Q : Z → Prop), T m P → (∀ x, P x → T (k x) Q) → T (m ≫= k) Q.
Context (fwd : Z → Z → F Z) (go : Z → Z → bool).
Context (f : byte_or_non → byte_or_non) (pat whole : list byte_or_non) (pos len : Z).
Hypothesis Hlen : zlen whole = len.
Hypothesis Hpos : 1 ≤ pos.
Hypothesis Hfit : pos + len ≤ SIZE_MAX.
Hypothesis Hpat : pat ≠ [].
Hypothesis Hgo_true : ∀ i, 0 ≤ i ≤ len → go (pos + i) (len - i) = true → zlen pat ≤ len - i.
Hypothesis Hgo_false : ∀ i, 0 ≤ i ≤ len → go (pos + i) (len - i) = false → ∀ j, occurs f pat whole j → j < i.
Hypothesis Hfwd : ∀ i, 0 ≤ i → zlen pat ≤ len - i →
  T (fwd (pos + i) (len - i)) (first_occ f pat (pos + i) (zdrop i whole)).

(** The last occurrence before index [i] *)
Definition last_before (i ret : Z) : Prop :=
  (ret = 0 ∧ ∀ j, occurs f pat whole j → i ≤ j) ∨
  (∃ k, ret = pos + k ∧ k < i ∧ occurs f pat whole k ∧ ∀ j, occurs f pat whole j → j < i → j ≤ k).

Lemma last_before_done i ret : last_before i ret → (∀ j, occurs f pat whole j → j < i) → last_occ f pat pos whole ret.
Proof.
  intros [[-> Hno]|(k&->&Hk&Hocc&Hmax)] Hall.
  - left. split; [done|]. intros j Hj. specialize (Hno j Hj). specialize (Hall j Hj). lia.
  - right. exists k. split_and!; [done|done|]. intros j Hj. by apply Hmax; [|apply Hall].
Qed.
Lemma occurs_zdrop i j : 0 ≤ i ≤ zlen whole → occurs f pat (zdrop i whole) j → occurs f pat whole (i + j).
Proof. intros Hi [Hj Hm]. split; [lia|]. by rewrite <- zdrop_zdrop by lia. Qed.
Lemma occurs_zdrop_inv i j : 0 ≤ i ≤ j → occurs f pat whole j → occurs f pat (zdrop i whole) (j - i).
Proof.
  intros Hi [Hj Hm]. split; [lia|]. rewrite zdrop_zdrop by lia. replace (i + (j - i)) with j by lia. done.
Qed.

Lemma srch_rev_loop_spec fuel : ∀ i ret,
  0 ≤ i ≤ len → last_before i ret → len - i < Z.of_nat fuel →
  T (srch_rev_loop stuck fwd go fuel pos len ret (pos + i) (len - i)) (last_occ f pat pos whole).
Proof.
  induction fuel as [|fuel IH]; intros i ret Hi Hlb Hf; [lia|]. cbn [srch_rev_loop].
  destruct (go (pos + i) (len - i)) eqn:Hg; cbn [negb].
  2:{ apply T_ret. eapply last_before_done; [exact Hlb|]. by apply Hgo_false. }
  pose proof (Hgo_true i Hi Hg) as Hpl. eapply T_bind; [apply Hfwd; lia|]. intros tmp Hocc.
  assert (Hp0 : 0 < zlen pat) by (destruct pat; [done|cbn; lia]).
  destruct Hocc as [[-> Hno]|(k&->&Hk&Hmin)].
  - rewrite decide_True by done. apply T_ret. eapply last_before_done; [exact Hlb|].
    intros j Hj. destruct (decide (j < i)) as [|Hge]; [done|exfalso]. apply (Hno (j - i)). apply occurs_zdrop_inv; [lia|done].
  - pose proof (occurs_bound _ _ _ _ Hpat Hk) as [Hk0 Hk1]. rewrite length_zdrop in Hk1.
    assert (Hocc : occurs f pat whole (i + k)) by (apply occurs_zdrop; [lia|done]).
    rewrite decide_False by lia. rewrite u64_id by lia.
    replace (u64 (len - vstr_sc_posdiff pos (pos + i + k))) with (len - (i + k + 1)).
    2:{ unfold vstr_sc_posdiff. rewrite (u64_id (pos + i + k - pos)), (u64_id (_ + 1)), u64_id by lia. lia. }
    replace (pos + i + k + 1) with (pos + (i + k + 1)) by lia.
    apply IH; [lia| |lia]. right. exists (i + k). split_and!; [lia|lia|done|]. intros j Hj Hlt. lia.
Qed.
Lemma srch_rev_slow_spec : T (srch_rev_slow stuck fwd go pos len) (last_occ f pat pos whole).
Proof.
  unfold srch_rev_slow. pose proof (srch_rev_loop_spec (S (Z.to_nat len)) 0 0) as Hl.
  rewrite Z.add_0_r, Z.sub_0_r in Hl. apply Hl; [lia| |lia]. left. split; [done|]. by intros j [? _].
Qed.
End rev_slow.

(** The triple of one string *)
Definition still_triple {A} (s0 : St) (m : M A) (Q : A → Prop) : Prop :=
  ∀ s, still s0 s → wp m s (λ r s', still s0 s' ∧ Q r).
Lemma still_triple_ret {A} s0 (x : A) (Q : A → Prop) : Q x → still_triple s0 (mret x) Q.
Proof. intros HQ s Hs. by wp_steps. Qed.
Lemma still_triple_bind {A B} s0 (m : M A) (k : A → M B) (P : A → Prop) Q :
  still_triple s0 m P → (∀ x, P x → still_triple s0 (k x) Q) → still_triple s0 (m ≫= k) Q.
Proof. intros Hm Hk s Hs. wp_step. eapply wp_mono; [by apply Hm|]. intros r s' [Hs' HP]. by apply Hk. Qed.

Lemma last_occ_sub f pat pos l r r' : r = r' → last_occ f pat pos l r → last_occ f pat pos l r'.
Proof. by intros ->. Qed.

Lemma zdrop_substr pos len i l :
  1 ≤ pos → 0 ≤ i ≤ len → substr (pos + i) (len - i) l = zdrop i (substr pos len l).
Proof. intros. unfold substr. rewrite zdrop_ztake by lia. rewrite zdrop_zdrop by lia. do 2 f_equal. lia. Qed.

Lemma vstr__srch_buf_rev_slow_spec s pos len str str_len :
  wf s → in_range s pos len → range_fits pos len → buf_fits str str_len → 1 ≤ str_len ≤ len →
  wp (vstr__srch_buf_rev_slow pos len str str_len) s
    (reads s (last_occ id (buf_content str str_len) pos (substr pos len (st_content s)))).
Proof.
  intros Hw Hr Hfit Hb Hsl. pose proof (substr_length _ _ _ Hw Hr) as Hl. pose proof (buf_content_length _ _ Hb) as Hbl.
  assert (Hne : buf_content str str_len ≠ []) by (intros E; rewrite E in Hbl; cbn in Hbl; lia).
  pose proof Hr as (Hp&_&Hle). unfold vstr__srch_buf_rev_slow.
  assert (HT : still_triple s (srch_rev_slow (@undef) (λ p l, vstr_srch_buf_fwd p l str str_len)
      (λ _ l, bool_decide (str_len ≤ l)) pos len)
      (last_occ id (buf_content str str_len) pos (substr pos len (st_content s)))).
  { apply srch_rev_slow_spec; try done; [by intros m k P Q; eapply still_triple_bind| | |].
    - intros i Hi Hg. apply bool_decide_eq_true in Hg. lia.
    - intros i Hi Hg j Hj. apply bool_decide_eq_false in Hg. apply occurs_bound in Hj; [|done]. lia.
    - intros i Hi Hpl s' Hs'. destruct (still_range s pos len Hr s' i (len - i) Hs') as [Hir Hsub]; [lia..|].
      eapply wp_mono; [apply vstr_srch_buf_fwd_spec; [apply Hs'|done|unfold range_fits in *; lia|done]|].
      intros r s2 (Hocc&Ho2&Hw2). split; [by eapply still_trans|]. rewrite Hsub, ztake_all in Hocc by (rewrite length_zdrop; lia).
      done. }
  eapply wp_mono; [apply HT; split; [apply only_pos_refl|done]|]. intros r s' [[? ?] ?]. by split_and!.
Qed.

End others.
