(* ===== verification/SrchRev.v ===== *)
(** * The backward search over the I/O vector. *)
From Stdlib Require Import ZArith Lia ZifyBool.
From stdpp Require Import base tactics list numbers option gmap.
From S2P Require Import Prelude State Wp Ref Cache Core Iter World Cmp Inv PosLemmas SpareLemmas SplitLemmas CacheLemmas AddLemmas StringLemmas IterLemmas.
From S2P Require Import Spn IovecSpec SpnSpec SpnTheorems CmpSpec Srch SrchSpec.

Section others.
Context {OT : Others}.

(** ** Occurrences by where they end *)
Lemma occurs_suffix pat l j :
  pat ≠ [] → occurs id pat l j ↔ 0 ≤ j ∧ j + zlen pat ≤ zlen l ∧ pat `suffix_of` ztake (j + zlen pat) l.
Proof.
  intros Hp. split.
  - intros H. pose proof (occurs_bound _ _ _ _ Hp H) as [? ?]. destruct H as [_ H]. rewrite !list_fmap_id in H.
    split_and!; [done|done|]. exists (ztake j l). assert (Hn : 0 ≤ zlen pat) by lia. revert H Hn. generalize (zlen pat). intros n <- Hn.
    rewrite <- (ztake_zdrop j (ztake (j + n) l)). rewrite ztake_ztake, zdrop_ztake by lia.
    f_equal; f_equal; lia.
  - intros (Hj&Hl&[k Hk]). split; [done|]. rewrite !list_fmap_id. assert (Hz : zlen k = j).
    { apply (f_equal (λ l, zlen l)) in Hk. rewrite length_app, length_ztake in Hk. lia. }
    replace (zlen pat) with (j + zlen pat - j) at 1 by lia. rewrite <- zdrop_ztake by lia. rewrite Hk, <- Hz. apply zdrop_app_len.
Qed.
Lemma suffix_cut {A} (p1 p2 k c1 c2 : list A) :
  length p2 = length c2 → (p1 ++ p2) `suffix_of` (k ++ c1 ++ c2) ↔ p2 = c2 ∧ p1 `suffix_of` (k ++ c1).
Proof.
  intros Hl. split.
  - intros [x Hx]. rewrite !app_assoc in Hx. apply app_inj_2 in Hx as [E ->]; [|done]. split; [done|]. by exists x.
  - intros [-> [x Hx]]. exists x. by rewrite app_assoc, Hx, <- app_assoc.
Qed.

(** ** A scan position that lost some of its end *)
Definition sr_cut (n : Z) (sr : scan_rev) : scan_rev := mkRev (sr_len sr) (sr_num sr) (sr_type sr) (sr_str sr) n.
Lemma scan_at_prefix s sr rest cur n :
  scan_at s sr rest cur → 0 ≤ n ≤ zlen cur → scan_at s (sr_cut n sr) rest (ztake n cur).
Proof.
  intros [Hl Hs Hc Hn] Hle. split; cbn; [done|rewrite length_ztake; lia| |done]. case_decide.
  - rewrite Hc, ztake_zrep. f_equal. lia.
  - destruct Hc as (p&bs&Hp&Hld&->). rewrite length_fmap in *. exists p, (ztake n bs). split; [done|].
    split; [|by rewrite ztake_fmap]. apply (load_prefix _ _ _ _ _ Hld). lia.
Qed.

Section eq_rev.
Context (s : St).
Hypothesis Hw : wf s.
Hypothesis Hd : vec_describes s.
Hypothesis Hup : iovec_upto_date (s_base s) = true.

Lemma cmp_eq_rev_buf_loop_spec str fuel : ∀ sr rest cur n,
  scan_at s sr rest cur → 0 ≤ n ≤ zlen str → n ≤ zlen rest + zlen cur → (0 < zlen cur ∧ sr_num sr ≤ Z.of_nat fuel) ∨ n = 0 →
  wp (vstr__cmp_eq_rev_buf_loop fuel sr str n) s (λ r s', s' = s ∧
    (r = true ↔ (Some <$> ztake n str) `suffix_of` (rest ++ cur))).
Proof.
  induction fuel as [|fuel IH]; intros sr rest cur n Hsr Hn Hfits Hf; cbn [vstr__cmp_eq_rev_buf_loop].
  all: case_decide as H0; [wp_steps; split; [done|]; split; [intros _|done]; rewrite ztake_0 by lia; exists (rest ++ cur); by rewrite app_nil_r|].
  { destruct Hf as [[Hc Hf]|?]; [|lia]. destruct (sa_node _ _ _ _ Hsr) as (i&?&?&_). lia. }
  destruct Hf as [[Hc Hf]|?]; [|lia]. pose proof (sa_scan_len _ _ _ _ Hsr) as Hsl.
  assert (Hpn : Some <$> ztake n str ≠ []).
  { intros E. apply (f_equal (λ l, zlen l)) in E. rewrite length_fmap, length_ztake in E. cbn in E. lia. }
  case_decide as Hty.
  { wp_steps. split; [done|]. split; [done|]. intros Hsuf. pose proof (sa_cur _ _ _ _ Hsr) as Hcur.
    rewrite decide_True in Hcur by done. destruct Hsuf as [k Hk].
    destruct (exists_last Hpn) as (q&e&Eq). rewrite Eq in Hk.
    assert (Hlast : last cur = Some e).
    { apply (f_equal last) in Hk. rewrite app_assoc, last_snoc in Hk. rewrite last_app in Hk.
      destruct (last cur) eqn:El; [done|]. apply last_None in El. subst cur. cbn in Hc. lia. }
    assert (He : e ≠ None).
    { assert (Hin : e ∈ (Some <$> ztake n str)) by (rewrite Eq; apply elem_of_app; right; by apply list_elem_of_singleton).
      apply list_elem_of_fmap in Hin as (c&->&_). done. }
    exfalso. apply He. rewrite Hcur in Hlast. apply last_Some_elem_of in Hlast. by apply elem_of_replicate in Hlast as [-> _]. }
  destruct (scan_at_bytes _ _ _ _ Hsr Hty) as (bs&Ecur&Hb&Hrun). wp_step. eapply wp_mono; [exact Hrun|].
  intros ? ? [-> ->]. assert (Hlb : zlen bs = zlen cur) by (by rewrite Ecur, length_fmap).
  set (tmp := Z.min (sr_scan_len sr) n). set (q2 := ztake tmp (zdrop (n - tmp) str)).
  set (c1 := ztake (zlen cur - tmp) bs). set (c2 := zdrop (zlen cur - tmp) bs).
  assert (Hc2 : ztake tmp (zdrop (sr_scan_len sr - tmp) bs) = c2).
  { rewrite Hsl. unfold c2. apply ztake_all. rewrite length_zdrop. lia. }
  rewrite Hc2.
  assert (Hq : ztake n str = ztake (n - tmp) str ++ q2).
  { unfold q2. rewrite <- (ztake_zdrop (n - tmp) (ztake n str)). rewrite ztake_ztake, zdrop_ztake by lia.
    f_equal; f_equal; lia. }
  assert (Hl2 : length q2 = length c2).
  { apply Nat2Z.inj. unfold q2, c2. rewrite length_ztake, !length_zdrop. lia. }
  assert (Hsuf : (Some <$> ztake n str) `suffix_of` (rest ++ cur) ↔
    q2 = c2 ∧ (Some <$> ztake (n - tmp) str) `suffix_of` (rest ++ (Some <$> c1))).
  { rewrite Hq, fmap_app, Ecur. rewrite <- (ztake_zdrop (zlen cur - tmp) bs) at 1. rewrite fmap_app.
    rewrite suffix_cut by (rewrite !length_fmap; done). fold c1 c2.
    split; intros [E ?]; (split; [|done]); [by apply (inj (fmap Some)) in E|by rewrite E]. }
  pose proof (memcmp_eq _ _ Hl2) as Hm. case_decide as Hm0.
  { wp_steps. split; [done|]. rewrite Hsuf. split; [done|]. intros [E _]. by apply Hm in E. }
  assert (Heq : q2 = c2) by (apply Hm; lia). rewrite Hsl. assert (Hlc1 : zlen c1 = zlen cur - tmp).
  { unfold c1. rewrite length_ztake. lia. }
  case_decide as Hleft.
  - assert (Ec1 : c1 = []) by (destruct c1; [done|cbn in Hlc1; lia]).
    wp_step. wp_apply vstr__base_scan_rev_nxt_spec; [done..|exact Hsr|]. intros r s1 [-> Hnx]. destruct r as [sr'|].
    + destruct Hnx as (rest'&cur'&->&Hc'&Hsr'&Hnum). eapply wp_mono; [apply (IH sr' rest' cur'); [done|lia| |left; split; [done|lia]]|].
      { rewrite length_app in Hfits. lia. }
      intros r s2 [-> Hr]. split; [done|]. rewrite Hr, Hsuf, Ec1, app_nil_r. split; [by intros|by intros [_ ?]].
    + subst rest. rewrite decide_True by (cbn in Hfits; lia). wp_steps. split; [done|]. split; [intros _|done].
      apply Hsuf. split; [done|]. rewrite ztake_0 by (cbn in Hfits; lia). exists (Some <$> c1). by rewrite app_nil_r.
  - eapply wp_mono; [eapply (IH (sr_cut (zlen cur - tmp) sr) rest (ztake (zlen cur - tmp) cur))|].
    + apply scan_at_prefix; [done|lia].
    + lia.
    + lia.
    + right. lia.
    + intros r s2 [-> Hr]. split; [done|]. rewrite Hr, Hsuf. unfold c1. rewrite Ecur at 2.
      rewrite ztake_fmap. tauto.
Qed.

Lemma vstr__cmp_eq_rev_buf_spec str n sr rest cur :
  zlen str = n → scan_at s sr rest cur → 0 < zlen cur → zlen (rest ++ cur) ≤ SIZE_MAX →
  wp (vstr__cmp_eq_rev_buf sr str n) s (λ r s', s' = s ∧
    (r = true ↔ (Some <$> str) `suffix_of` (rest ++ cur))).
Proof.
  intros <- Hsr Hc Hmax. unfold vstr__cmp_eq_rev_buf. rewrite (sa_len _ _ _ _ Hsr), (sa_scan_len _ _ _ _ Hsr).
  rewrite length_app in Hmax. rewrite u64_id by lia. case_decide as Hs.
  - wp_steps. split; [done|]. split; [done|]. intros [k Hk]. apply (f_equal (λ l, zlen l)) in Hk.
    rewrite !length_app, length_fmap in Hk. lia.
  - destruct (sa_node _ _ _ _ Hsr) as (i&?&?&_).
    pose proof (cmp_eq_rev_buf_loop_spec str (S (Z.to_nat (sr_num sr))) sr rest cur (zlen str) Hsr ltac:(lia) ltac:(lia) ltac:(lia)) as H'.
    rewrite ztake_all in H' by lia. exact H'.
Qed.

Lemma cmp_eq_rev_non_loop_spec fuel : ∀ sr rest cur n,
  scan_at s sr rest cur → 0 < zlen cur → 1 ≤ n ≤ zlen rest + zlen cur → sr_num sr ≤ Z.of_nat fuel →
  wp (vstr__cmp_eq_rev_non_loop fuel sr n) s (λ r s', s' = s ∧ (r = true ↔ zrep n None `suffix_of` (rest ++ cur))).
Proof.
  induction fuel as [|fuel IH]; intros sr rest cur n Hsr Hc Hn Hf.
  { destruct (sa_node _ _ _ _ Hsr) as (i&?&?&_). lia. }
  cbn [vstr__cmp_eq_rev_non_loop]. pose proof (sa_scan_len _ _ _ _ Hsr) as Hsl. case_decide as Hty.
  - wp_steps. split; [done|]. split; [done|]. intros [k Hk].
    destruct (scan_at_bytes _ _ _ _ Hsr Hty) as (bs&->&_&_). rewrite length_fmap in Hc.
    apply (f_equal last) in Hk. rewrite !last_app, fmap_last in Hk. destruct (last bs) as [b|] eqn:El.
    2:{ apply last_None in El. subst bs. cbn in Hc. lia. }
    cbn in Hk. destruct (last (zrep n None)) as [z|] eqn:Ez.
    + apply last_Some_elem_of, elem_of_replicate in Ez as [-> _]. done.
    + apply last_None in Ez. apply (f_equal (λ l, zlen l)) in Ez. rewrite length_zrep in Ez. cbn in Ez. lia.
  - pose proof (sa_cur _ _ _ _ Hsr) as Hcur. destruct (decide (sr_type sr = NODE_NON)) as [Ht|Ht]; [|tauto].
    rewrite Hsl in Hcur. case_decide as Hle.
    + wp_steps. split; [done|]. split; [intros _|done]. exists (rest ++ zrep (zlen cur - n) None).
      rewrite <- app_assoc, zrep_app by lia. rewrite Hcur at 1. do 2 f_equal. lia.
    + wp_step. wp_apply vstr__base_scan_rev_nxt_spec; [done..|exact Hsr|]. intros r s1 [-> Hnx]. destruct r as [sr'|].
      * destruct Hnx as (rest'&cur'&->&Hc'&Hsr'&Hnum). rewrite Hsl. rewrite length_app in Hn.
        eapply wp_mono; [apply (IH sr' rest' cur'); [done|done|lia|lia]|]. intros r s2 [-> Hr]. split; [done|]. rewrite Hr.
        replace (zrep n None) with (zrep (n - zlen cur) None ++ cur)
          by (rewrite Hcur at 2; rewrite zrep_app by lia; f_equal; lia).
        split; [by apply suffix_app|apply suffix_app_inv].
      * subst rest. cbn in Hn. lia.
Qed.
Lemma vstr__cmp_eq_rev_non_spec n sr rest cur :
  scan_at s sr rest cur → 0 < zlen cur → zlen (rest ++ cur) ≤ SIZE_MAX → 1 ≤ n →
  wp (vstr__cmp_eq_rev_non sr n) s (λ r s', s' = s ∧ (r = true ↔ zrep n None `suffix_of` (rest ++ cur))).
Proof.
  intros Hsr Hc Hmax Hn. unfold vstr__cmp_eq_rev_non. rewrite (sa_len _ _ _ _ Hsr), (sa_scan_len _ _ _ _ Hsr).
  rewrite length_app in Hmax. rewrite u64_id by lia. case_decide as Hs.
  - wp_steps. split; [done|]. split; [done|]. intros [k Hk]. apply (f_equal (λ l, zlen l)) in Hk.
    rewrite !length_app, !Nat2Z.inj_add, length_zrep in Hk. lia.
  - destruct (sa_node _ _ _ _ Hsr) as (i&?&?&_). apply cmp_eq_rev_non_loop_spec; [done|done|lia|lia].
Qed.
End eq_rev.

(** ** The loop in a node *)
Section in_node.
Context (s : St) (pos str_len : Z) (sr : scan_rev) (rest suf : list byte_or_non) (bs str : list Z) (e : Z).
Hypothesis Hw : wf s.
Hypothesis Hd : vec_describes s.
Hypothesis Hup : iovec_upto_date (s_base s) = true.
Hypothesis Hsr : scan_at s sr rest (Some <$> bs).
Hypothesis Hty : sr_type sr ≠ NODE_NON.
Hypothesis Hlen : zlen str = str_len.
Hypothesis He : str !! Z.to_nat (str_len - 1) = Some e.
Hypothesis Hpos : 1 ≤ pos.
Let pat : list byte_or_non := Some <$> str.
Let whole := rest ++ (Some <$> bs) ++ suf.
Hypothesis Hfit : pos + zlen whole ≤ SIZE_MAX.

Lemma in_node_str : 1 ≤ str_len.
Proof. apply lookup_lt_Some in He. destruct str; cbn in *; lia. Qed.
Lemma in_node_pat : pat ≠ [].
Proof. unfold pat. pose proof in_node_str. destruct str; [cbn in Hlen; lia|done]. Qed.

(** An occurrence that ends [k] characters into the node *)
Lemma ends_in_node j k :
  0 ≤ k ≤ zlen bs → j + str_len = zlen rest + k →
  occurs id pat whole j ↔ pat `suffix_of` (rest ++ (Some <$> ztake k bs)).
Proof.
  intros Hk Hj. rewrite occurs_suffix by apply in_node_pat.
  replace (j + zlen pat) with (zlen rest + k) by (unfold pat; rewrite length_fmap; lia).
  replace (ztake (zlen rest + k) whole) with (rest ++ (Some <$> ztake k bs)).
  2:{ unfold whole. rewrite (app_assoc rest), ztake_app_l by (rewrite length_app, length_fmap; lia).
      rewrite ztake_app_r by lia. rewrite ztake_fmap. do 3 f_equal. lia. }
  split; [by intros (_&_&?)|]. intros Hs. pose proof Hs as [x Hx]. apply (f_equal (λ l, zlen l)) in Hx.
  unfold pat in Hx. rewrite !length_app, !length_fmap, !Nat2Z.inj_add, length_ztake in Hx.
  split; [lia|]. split; [|done]. unfold whole. rewrite !length_app, length_fmap. lia.
Qed.
Lemma ends_with k : 1 ≤ k ≤ zlen bs → pat `suffix_of` (rest ++ (Some <$> ztake k bs)) → bs !! Z.to_nat (k - 1) = Some e.
Proof.
  intros Hk [x Hx]. pose proof in_node_str. assert (Hl : last pat = Some (Some e)).
  { unfold pat. rewrite fmap_last, last_lookup. replace (pred (length str)) with (Z.to_nat (str_len - 1)) by lia.
    by rewrite He. }
  apply (f_equal last) in Hx. rewrite !last_app, Hl in Hx. rewrite fmap_last, last_lookup in Hx.
  replace (pred (length (ztake k bs))) with (Z.to_nat (k - 1)) in Hx by (unfold ztake; rewrite length_take; lia).
  unfold ztake in Hx. rewrite lookup_take_lt in Hx by lia.
  destruct (bs !! Z.to_nat (k - 1)) as [b|] eqn:Eb; [cbn in Hx; by simplify_eq|].
  apply lookup_ge_None in Eb. lia.
Qed.
(** Characters that are not the last of the string end no occurrence *)
Lemma rule_out_ends m n :
  0 ≤ m ≤ n → n ≤ zlen bs → (∀ i, m ≤ i < n → bs !! Z.to_nat i ≠ Some e) →
  (∀ j, occurs id pat whole j → j + str_len ≤ zlen rest + n) → ∀ j, occurs id pat whole j → j + str_len ≤ zlen rest + m.
Proof.
  intros Hm Hn Hno Hall j Hj. pose proof (Hall j Hj). destruct (decide (j + str_len ≤ zlen rest + m)) as [|Hgt]; [done|exfalso].
  apply (Hno (j + str_len - zlen rest - 1)); [lia|].
  pose proof Hj as Hs. apply (ends_in_node j (j + str_len - zlen rest)) in Hs; [|lia|lia].
  apply ends_with; [lia|done].
Qed.

Lemma srch_buf_rev_in_node_spec fuel : ∀ count,
  0 ≤ count ≤ zlen bs → (∀ j, occurs id pat whole j → j + str_len ≤ zlen rest + (zlen bs - count)) →
  zlen bs - count < Z.of_nat fuel →
  wp (srch_buf_rev_in_node fuel pos str str_len sr bs count) s (λ r s', s' = s ∧
    match r with
    | Some p => last_occ id pat pos whole p
    | None => ∀ j, occurs id pat whole j → j + str_len ≤ zlen rest
    end).
Proof.
  pose proof (sa_scan_len _ _ _ _ Hsr) as Hsl. rewrite length_fmap in Hsl. pose proof in_node_str as Hs1.
  assert (Hwl : zlen whole = zlen rest + zlen bs + zlen suf) by (unfold whole; rewrite !length_app, length_fmap; lia).
  induction fuel as [|fuel IH]; intros count Hc Hall Hf; [lia|]. cbn [srch_buf_rev_in_node].
  case_decide as Hcount.
  2:{ wp_steps. split; [done|]. intros j Hj. specialize (Hall j Hj). lia. }
  rewrite Hsl. set (k := zlen bs - (count + 1)).
  destruct (bs !! Z.to_nat k) as [c|] eqn:Ec; [|apply lookup_ge_None in Ec; lia].
  wp_step. eapply wp_of_option; [done|]. wp_step. eapply wp_of_option; [exact He|].
  set (som := count_while (λ x, bool_decide (x ≠ e)) (reverse (ztake k bs))).
  pose proof (count_while_bound (λ x, bool_decide (x ≠ e)) (reverse (ztake k bs))) as Hb. fold som in Hb.
  rewrite length_reverse, length_ztake in Hb.
  pose proof (count_while_prefix (λ x, bool_decide (x ≠ e)) (reverse (ztake k bs))) as Hpre. fold som in Hpre.
  assert (Hsom : ∀ i, k - som ≤ i < k → bs !! Z.to_nat i ≠ Some e).
  { intros i Hi Hbi. rewrite Forall_lookup in Hpre. specialize (Hpre (Z.to_nat (k - 1 - i)) e).
    rewrite bool_decide_eq_true in Hpre. apply Hpre; [|done]. unfold ztake.
    rewrite lookup_take_lt by lia. rewrite reverse_lookup by (rewrite length_take; lia). rewrite length_take.
    rewrite lookup_take_lt by lia. rewrite <- Hbi. f_equal. lia. }
  case_decide as Hskip.
  - apply IH; [lia| |lia]. replace (zlen bs - (count + 1)) with k by lia.
    apply (rule_out_ends k (zlen bs - count)); [lia|lia| |done]. intros i Hi. replace i with k by lia. rewrite Ec. intros [= E]. by destruct Hskip.
  - set (count' := if decide (c ≠ e) then count + 1 + (som + 1) else count + 1). cbn zeta.
    assert (Hc' : count + 1 ≤ count' ≤ zlen bs) by (unfold count'; case_decide; lia).
    assert (Hall' : ∀ j, occurs id pat whole j → j + str_len ≤ zlen rest + (zlen bs - count' + 1)).
    { unfold count'. case_decide as Hce.
      - apply (rule_out_ends _ (zlen bs - count)); [lia|lia| |done]. intros i Hi. destruct (decide (i = k)) as [->|].
        + rewrite Ec. by intros [= ?].
        + apply Hsom. lia.
      - intros j Hj. specialize (Hall j Hj). lia. }
    assert (Hpd : vstr_sc_posdiff count' (zlen bs) = zlen bs - count' + 1).
    { unfold vstr_sc_posdiff. rewrite (u64_id (_ - _)), u64_id by lia. lia. }
    rewrite Hpd. set (q := zlen bs - count' + 1) in *. wp_step.
    wp_apply (vstr__cmp_eq_rev_buf_spec s Hw Hd Hup str str_len (sr_cut q sr) rest (Some <$> ztake q bs)); [done|..].
    { rewrite <- ztake_fmap. apply scan_at_prefix; [done|]. rewrite length_fmap. lia. }
    { rewrite length_fmap, length_ztake. lia. }
    { rewrite length_app, length_fmap, Nat2Z.inj_add, length_ztake. lia. }
    intros eq s1 [-> Heq]. destruct eq.
    + wp_steps. split; [done|]. right. exists (zlen rest + q - str_len). rewrite (sa_len _ _ _ _ Hsr).
      assert (Hocc : occurs id pat whole (zlen rest + q - str_len)).
      { apply (ends_in_node _ q); [lia|lia|]. by apply Heq. }
      pose proof (occurs_bound _ _ _ _ in_node_pat Hocc) as [? ?].
      split; [rewrite (u64_id (zlen rest + q)), (u64_id (pos + _)), u64_id by lia; lia|]. split; [done|].
      intros j Hj. specialize (Hall' j Hj). lia.
    + apply IH; [lia| |lia]. intros j Hj. pose proof (Hall' j Hj).
      destruct (decide (j + str_len = zlen rest + q)) as [Hjq|]; [|lia]. exfalso.
      apply (ends_in_node j q) in Hj; [|lia|done]. apply Heq in Hj. done.
Qed.
End in_node.

(** ** A node, and the loop over the nodes *)
Lemma occurs_lookup pat l j i x : occurs id pat l j → pat !! i = Some x → l !! (Z.to_nat j + i)%nat = Some x.
Proof.
  intros [Hj H] Hx. rewrite !list_fmap_id in H. rewrite <- H in Hx. unfold ztake, zdrop in Hx.
  apply lookup_take_Some in Hx as [Hx _]. by rewrite lookup_drop in Hx.
Qed.
Lemma occurs_zrep n (l : list byte_or_non) j :
  0 < n → occurs id (zrep n None) l j ↔ 0 ≤ j ∧ ∀ i, 0 ≤ i < n → l !! Z.to_nat (j + i) = Some (None : byte_or_non).
Proof.
  intros Hn. split.
  - intros H. pose proof H as [Hj _]. split; [done|]. intros i Hi. rewrite Z2Nat.inj_add by lia.
    eapply occurs_lookup; [exact H|]. apply lookup_replicate. split; [done|lia].
  - intros [Hj H]. split; [done|]. rewrite !list_fmap_id, length_zrep. rewrite Z.max_r by lia.
    apply list_eq_same_length with (n := Z.to_nat n); [unfold zrep; by rewrite length_replicate| |].
    + unfold ztake, zdrop. rewrite length_take, length_drop. specialize (H (n - 1) ltac:(lia)).
      apply lookup_lt_Some in H. lia.
    + intros i x y Hi Hx Hy. unfold ztake, zdrop in Hx. rewrite lookup_take_lt, lookup_drop in Hx by lia.
      specialize (H (Z.of_nat i) ltac:(lia)). replace (Z.to_nat (j + Z.of_nat i)) with (Z.to_nat j + i)%nat in H by lia.
      apply lookup_replicate in Hy as [-> _]. congruence.
Qed.

Section node.
Context (s : St) (pos str_len : Z) (str : option (list Z)).
Hypothesis Hw : wf s.
Hypothesis Hd : vec_describes s.
Hypothesis Hup : iovec_upto_date (s_base s) = true.
Hypothesis Hb : buf_fits str str_len.
Hypothesis Hl1 : 1 ≤ str_len.
Hypothesis Hpos : 1 ≤ pos.

Lemma srch_buf_rev_node_spec sr rest cur suf :
  scan_at s sr rest cur → 0 < zlen cur → pos + zlen (rest ++ cur ++ suf) ≤ SIZE_MAX →
  (∀ j, occurs id (buf_content str str_len) (rest ++ cur ++ suf) j → j + str_len ≤ zlen rest + zlen cur) →
  wp (srch_buf_rev_node pos str str_len sr) s (λ r s', s' = s ∧
    match r with
    | Return p => last_occ id (buf_content str str_len) pos (rest ++ cur ++ suf) p
    | Next _ => ∀ j, occurs id (buf_content str str_len) (rest ++ cur ++ suf) j → j + str_len ≤ zlen rest
    end).
Proof.
  intros Hsr Hc Hfit Hall. set (whole := rest ++ cur ++ suf) in *.
  assert (Hwl : zlen whole = zlen rest + zlen cur + zlen suf) by (unfold whole; rewrite !length_app; lia).
  pose proof (sa_scan_len _ _ _ _ Hsr) as Hsl. pose proof (sa_cur _ _ _ _ Hsr) as Hcur.
  unfold srch_buf_rev_node. destruct str as [bs|]; cbn [buf_content] in *.
  - destruct Hb as [_ Hbl]. specialize (Hbl bs eq_refl).
    destruct (bs !! Z.to_nat (str_len - 1)) as [e|] eqn:Ee; [|apply lookup_ge_None in Ee; lia].
    destruct (decide (sr_type sr = NODE_NON)) as [Hty|Hty].
    + wp_steps. split; [done|]. intros j Hj. pose proof (Hall j Hj).
      destruct (decide (j + str_len ≤ zlen rest)) as [|Hgt]; [done|exfalso].
      assert (Hpe : (Some <$> bs) !! Z.to_nat (str_len - 1) = Some (Some e)) by (rewrite list_lookup_fmap, Ee; done).
      assert (Hj0 : 0 ≤ j) by (by destruct Hj).
      apply (occurs_lookup _ _ _ _ _ Hj) in Hpe. unfold whole in Hpe.
      rewrite lookup_app_r, lookup_app_l in Hpe by lia. rewrite Hcur in Hpe. by apply lookup_replicate in Hpe as [? _].
    + destruct (scan_at_bytes _ _ _ _ Hsr Hty) as (ns&->&Hns&Hwp). wp_step. wp_apply Hwp. intros r s1 [-> ->].
      rewrite length_fmap in *. wp_step.
      wp_apply (srch_buf_rev_in_node_spec s pos str_len sr rest suf ns bs e); try done; try lia.
      { intros j Hj. specialize (Hall j Hj). lia. }
      intros r s1 [-> Hr]. destruct r as [p|]; by wp_steps.
  - destruct (decide (sr_type sr = NODE_NON)) as [Hty|Hty].
    + wp_step. wp_apply (vstr__cmp_eq_rev_non_spec s Hw Hd Hup str_len sr rest cur); [done|done| |done|].
      { rewrite length_app. lia. }
      intros eq s1 [-> Heq].
      assert (Hsuf : zrep str_len None `suffix_of` (rest ++ cur) ↔
        occurs id (zrep str_len None) whole (zlen rest + zlen cur - str_len)).
      { assert (Hne : zrep str_len (None : option Z) ≠ []) by (intros E; apply (f_equal (λ l, zlen l)) in E;
          rewrite length_zrep in E; cbn in E; lia).
        rewrite (occurs_suffix _ _ _ Hne), length_zrep.
        replace (zlen rest + zlen cur - str_len + Z.max 0 str_len) with (zlen (rest ++ cur)) by (rewrite length_app; lia).
        unfold whole. rewrite (app_assoc rest), ztake_app_len. split; [|by intros (_&_&?)].
        intros Hs. pose proof Hs as [x Hx]. apply (f_equal (λ l, zlen l)) in Hx.
        rewrite !length_app, !Nat2Z.inj_add, length_zrep in Hx. split; [lia|]. split; [|done]. rewrite !length_app. lia. }
      destruct eq.
      * wp_steps. split; [done|]. destruct (Hsuf) as [Ho _]. specialize (Ho (proj1 Heq eq_refl)).
        rewrite (sa_len _ _ _ _ Hsr), Hsl. right. exists (zlen rest + zlen cur - str_len).
        pose proof Ho as [Hge _]. split; [rewrite (u64_id (zlen rest + _)), (u64_id (pos + _)), u64_id by lia; lia|].
        split; [done|]. intros j Hj. specialize (Hall j Hj). lia.
      * wp_steps. split; [done|]. intros j Hj. pose proof (Hall j Hj).
        destruct (decide (j + str_len ≤ zlen rest)) as [|Hgt]; [done|exfalso].
        apply (occurs_zrep str_len _ _ ltac:(lia)) in Hj as [Hj0 Hj].
        assert (Hnone : ∀ k, (k < length cur)%nat → cur !! k = Some (None : byte_or_non)).
        { intros k Hk. rewrite Hcur. apply lookup_replicate. split; [done|lia]. }
        assert (Hf : false = true); [|done]. apply Heq, Hsuf, occurs_zrep; [lia|]. split; [lia|]. intros i Hi.
        destruct (decide (zlen rest ≤ zlen rest + zlen cur - str_len + i)) as [Hge|Hlt].
        -- unfold whole. rewrite lookup_app_r, lookup_app_l by lia. apply Hnone. lia.
        -- specialize (Hj (zlen rest + zlen cur - str_len + i - j) ltac:(lia)). rewrite <- Hj. f_equal. lia.
    + wp_steps. split; [done|]. intros j Hj. pose proof (Hall j Hj).
      destruct (scan_at_bytes _ _ _ _ Hsr Hty) as (ns&->&Hns&_). rewrite length_fmap in *.
      destruct (decide (j + str_len ≤ zlen rest)) as [|Hgt]; [done|exfalso].
      apply (occurs_zrep str_len _ _ ltac:(lia)) in Hj as [Hj0 Hj]. specialize (Hj (str_len - 1) ltac:(lia)).
      unfold whole in Hj. rewrite lookup_app_r, lookup_app_l in Hj by (rewrite ?length_fmap; lia).
      rewrite list_lookup_fmap in Hj. by destruct (ns !! _).
Qed.
End node.

Lemma vstr__srch_buf_rev_fast_spec s pos len str str_len :
  wf s → vec_describes s → iovec_upto_date (s_base s) = true → pos_num_ok (s_base s) →
  in_range s pos len → range_fits pos len → buf_fits str str_len → 1 ≤ str_len →
  wp (vstr__srch_buf_rev_fast pos len str str_len) s
    (reads s (last_occ id (buf_content str str_len) pos (substr pos len (st_content s)))).
Proof.
  intros Hw Hd Hup Hpn Hr Hfit Hb Hl1. pose proof (substr_length _ _ _ Hw Hr) as Hl. unfold range_fits in Hfit.
  pose proof (buf_content_length _ _ Hb) as Hbl. set (pat := buf_content str str_len) in *.
  assert (Hne : pat ≠ []) by (intros E; rewrite E in Hbl; cbn in Hbl; lia).
  set (whole := substr pos len (st_content s)) in *. pose proof Hr as (Hp&_).
  eapply (scan_function_spec _ (λ r, match r with Return p => p | Next _ => 0 end) tt 0 s pos len
    (λ _ l, (∃ suf, whole = l ++ suf) ∧ ∀ j, occurs id pat whole j → j + str_len ≤ zlen l)
    (last_occ id pat pos whole)); [done..| | |].
  - intros s' Ho Hw' sr [] rest cur Hsr Hc ([suf Hsuf]&Hall). rewrite <- app_assoc in Hsuf.
    pose proof (only_pos_same _ _ Ho) as (_&_&_&_&_&_&_&Eup&_).
    eapply wp_mono; [eapply (srch_buf_rev_node_spec s' pos str_len str Hw' (only_pos_vec _ _ Ho Hd)
      ltac:(congruence) Hb Hl1 Hp sr rest cur suf Hsr Hc)|].
    + rewrite <- Hsuf. lia.
    + intros j Hj. fold pat in Hj. rewrite <- Hsuf in Hj. specialize (Hall j Hj). rewrite length_app in Hall. lia.
    + rewrite <- Hsuf. intros [[]|p] s2 [-> Hr2]; split; try done. split; [|done]. exists (cur ++ suf). done.
  - intros [] (_&Hall). left. split; [done|]. intros j Hj. specialize (Hall j Hj). destruct Hj. cbn in Hall. lia.
  - split; [exists []; by rewrite app_nil_r|]. intros j Hj. apply occurs_bound in Hj; [|done]. fold whole. lia.
Qed.

(** ** vstr_srch_buf_rev *)
Lemma last_pos_occ f (p : byte_or_non → bool) x pos l :
  1 ≤ pos → (∀ y, p y = true ↔ f y = f x) → last_occ f [x] pos l (last_pos p pos l).
Proof.
  intros Hpos Hp. induction l as [|y l IH] using rev_ind.
  - left. split; [done|]. intros i Hi. apply occurs_one in Hi as (?&y&Hy&_). by rewrite lookup_nil in Hy.
  - destruct (p y) eqn:Ey.
    + rewrite last_pos_snoc by done. right. exists (zlen l). split; [done|]. split.
      * apply occurs_one. split; [lia|]. exists y. split; [|by apply Hp]. rewrite Nat2Z.id. rewrite lookup_app_r, Nat.sub_diag by done. done.
      * intros j (Hj&z&Hz&_)%occurs_one. apply lookup_lt_Some in Hz. rewrite length_app in Hz. cbn in Hz. lia.
    + assert (Hcw : count_while (negb ∘ p) [y] = zlen [y]) by (cbn; by rewrite Ey).
      rewrite (last_pos_none _ _ _ _ Hcw Hpos).
      assert (Hocc : ∀ j, occurs f [x] (l ++ [y]) j ↔ occurs f [x] l j).
      { intros j. rewrite !occurs_one. split; intros (Hj&z&Hz&E); (split; [done|]); exists z.
        - split; [|done]. apply lookup_app_Some in Hz as [?|[_ Hz]]; [done|]. apply list_lookup_singleton_Some in Hz as [_ <-].
          apply Hp in E. congruence.
        - split; [|done]. by apply lookup_app_l_Some. }
      unfold last_occ in *. setoid_rewrite Hocc. exact IH.
Qed.

Lemma vstr_srch_buf_rev_spec s pos len str str_len :
  wf s → rev_ok s → in_range s pos len → range_fits pos len → buf_fits str str_len → 1 ≤ str_len →
  wp (vstr_srch_buf_rev pos len str str_len) s
    (reads s (last_occ id (buf_content str str_len) pos (substr pos len (st_content s)))).
Proof.
  intros Hw Hrev Hr Hfit Hb Hl1. pose proof (substr_length _ _ _ Hw Hr) as Hl. pose proof (buf_content_length _ _ Hb) as Hbl.
  pose proof Hr as (Hp&Hle&_). unfold vstr_srch_buf_rev. wp_step. apply wp_gets. case_decide as Hs.
  { wp_steps. apply reads_now; [done|]. left. split; [done|]. intros i. apply occurs_short. lia. }
  rewrite decide_False by lia.
  assert (Hmain : wp (if iovec_upto_date (s_base s) then vstr__srch_buf_rev_fast pos len str str_len
    else vstr__srch_buf_rev_slow pos len str str_len) s
    (reads s (last_occ id (buf_content str str_len) pos (substr pos len (st_content s))))).
  { destruct (iovec_upto_date (s_base s)) eqn:Eup.
    - destruct (Hrev Eup). by apply vstr__srch_buf_rev_fast_spec.
    - apply vstr__srch_buf_rev_slow_spec; try done. lia. }
  destruct str as [bs|]; [|exact Hmain]. destruct (decide (str_len = 1)) as [->|]; [|exact Hmain].
  destruct Hb as [_ Hb1]. specialize (Hb1 bs eq_refl). destruct bs as [|c [|]]; cbn in Hb1; try lia.
  wp_step. eapply wp_of_option; [done|]. eapply wp_mono; [by apply vstr_srch_chr_rev_spec|].
  intros r s' [-> ?]. split; [|done]. apply last_pos_occ; [done|]. intros y. apply is_chr_true.
Qed.

End others.
