(* ===== verification/SrchCase.v ===== *)
(** * Searching without the case of letters (src/vstr_srch_case.c).

    Searching for another string (vstr_srch_vstr_fwd, vstr_srch_vstr_rev and
    their variants without case). *)
From Stdlib Require Import ZArith Lia ZifyBool.
From stdpp Require Import base tactics list numbers option gmap.
From S2P Require Import Prelude State Wp Ref Cache Core Inv PosLemmas CacheLemmas StringLemmas Iter IterLemmas Spn IovecSpec SpnSpec SpnTheorems World Cmp CmpSpec Srch SrchSpec SrchRev.

Section others.
Context {OT : Others}.

(** ** Letters *)
Lemma case_eq c d : to_upper c = to_upper d ↔ to_lower c = to_lower d.
Proof. unfold to_upper, to_lower, is_ascii_lower, is_ascii_upper. repeat case_bool_decide; lia. Qed.
Lemma case_upper c : is_ascii_alpha c = true → ∀ d, to_lower d = to_lower c ↔ to_upper d = to_upper c.
Proof. intros _ d. by rewrite case_eq. Qed.
Lemma case_not_alpha c : is_ascii_alpha c = false → ∀ d, to_lower d = to_lower c ↔ d = c.
Proof.
  unfold is_ascii_alpha, to_lower, is_ascii_lower, is_ascii_upper. intros H d. repeat case_bool_decide; cbn in H; try done; lia.
Qed.
Lemma case_two c : is_ascii_alpha c = true →
  ∀ d, to_lower d = to_lower c ↔ d = c ∨ d = (if is_ascii_lower c then to_upper c else to_lower c).
Proof.
  unfold is_ascii_alpha, to_lower, to_upper, is_ascii_lower, is_ascii_upper. intros H d.
  repeat case_bool_decide; cbn in *; try done; lia.
Qed.
Lemma lower_chr_Some x c : lower_chr x = lower_chr (Some c) ↔ ∃ d, x = Some d ∧ to_lower d = to_lower c.
Proof. destruct x as [d|]; cbn; [|by split; [|intros (?&?&?)]]. split; [intros [= ?]; eauto|]. by intros (?&[= ->]&->). Qed.

(** ** A character *)
Lemma vstr_srch_case_chr_fwd_spec s pos len c :
  wf s → in_range s pos len → range_fits pos len →
  wp (vstr_srch_case_chr_fwd pos len c) s
    (reads s (first_occ lower_chr [Some c] pos (substr pos len (st_content s)))).
Proof.
  intros Hw Hr Hfit. pose proof Hr as (Hp&_). unfold vstr_srch_case_chr_fwd. destruct (is_ascii_alpha c) eqn:Ea; cbn [negb].
  - set (P := λ x : byte_or_non, match x with Some d => bool_decide (to_upper d = to_upper c) | None => false end).
    eapply wp_mono; [apply (srch_fwd_loop_spec (λ d, bool_decide (to_upper d ≠ to_upper c)) P); [|done..]|].
    { intros [d|]; cbn; [|done]. repeat case_bool_decide; naive_solver. }
    intros r s' [-> ?]. split; [|done]. apply first_pos_occ; [done|]. intros y. rewrite lower_chr_Some. unfold P.
    destruct y as [d|]; [|by split; [|intros (?&?&?)]]. rewrite bool_decide_eq_true, case_eq. split; [eauto|]. by intros (?&[= <-]&?).
  - eapply wp_mono; [by apply vstr_srch_chr_fwd_spec|]. intros r s' [-> ?]. split; [|done]. apply first_pos_occ; [done|].
    intros y. rewrite is_chr_true, lower_chr_Some. split; [intros ->; eauto|]. intros (d&->&E). f_equal. by apply case_not_alpha.
Qed.

(** ** A buffer *)
Section buf.
Context (s0 : St) (pos len : Z) (str : list Z) (str_len c0 : Z).
Let pat : list byte_or_non := Some <$> str.
Local Abbreviation whole := (substr pos len (st_content s0)).
Hypothesis Hw0 : wf s0.
Hypothesis Hr : in_range s0 pos len.
Hypothesis Hfit : range_fits pos len.
Hypothesis Hstr : zlen str = str_len.
Hypothesis Hhead : head str = Some c0.

Lemma case_str_len : 1 ≤ str_len.
Proof. destruct str; [done|]. cbn in Hstr. lia. Qed.
Lemma case_pat_len : zlen pat = str_len.
Proof. unfold pat. by rewrite length_fmap. Qed.

(** The test of one position *)
Lemma case_found_spec s it pre cur c bs rest :
  still s0 s → iter_at (s_heap s) it cur rest → cur = Some <$> (c :: bs) → whole = pre ++ cur ++ rest →
  str_len ≤ zlen cur + zlen rest →
  wp (if decide (to_upper c ≠ to_upper c0) then mret false
      else r ← vstr_cmp_case_buf (vstr_iter_pos it pos len) str_len (Some str) str_len; mret (bool_decide (r = 0))) s
    (λ r s', still s0 s' ∧ (r = true ↔ occurs lower_chr pat whole (zlen pre))).
Proof.
  intros Hs Hit Hbs Hsplit Hfits. pose proof (whole_len s0 pos len Hw0 Hr) as Hwl. rewrite Hsplit, !length_app in Hwl.
  rewrite (still_pos s0 pos len Hw0 Hr Hfit _ _ _ _ _ Hs Hit Hsplit). pose proof case_str_len.
  assert (Hlc : zlen (c :: bs) = zlen cur) by (by rewrite Hbs, length_fmap). case_decide as Hc.
  - wp_steps. split; [done|]. split; [done|]. intros Hocc. exfalso. apply Hc. unfold pat in Hocc.
    destruct str as [|c1 st]; [done|]. cbn in Hhead. injection Hhead as ->.
    apply occurs_head in Hocc as (y&Hy&E). rewrite Nat2Z.id, Hsplit in Hy.
    rewrite lookup_app_r, Nat.sub_diag, lookup_app_l in Hy by (rewrite ?Hbs; cbn; lia).
    rewrite Hbs in Hy. injection Hy as <-. apply lower_chr_Some in E as (d&[= ->]&E). by apply case_eq.
  - wp_step. eapply wp_mono; [apply (still_cmp_buf s0 pos len Hr cmp_memcasecmp lower_chr); [done|lia|lia|lia|]|].
    { split; [lia|]. by intros ? [= <-]. }
    intros r s1 (Hs1&Hr0). wp_steps. split; [done|]. rewrite bool_decide_eq_true, Hr0. cbn [buf_content]. fold pat.
    unfold occurs. rewrite case_pat_len. split; [intros ?; split; [lia|done]|by intros [_ ?]].
Qed.

Lemma srch_case_buf_in_node_spec fuel : ∀ it pre cur rest s,
  still s0 s → iter_at (s_heap s) it cur rest → iter_non it = false → whole = pre ++ cur ++ rest →
  (∀ j, occurs lower_chr pat whole j → zlen pre ≤ j) → zlen cur ≤ Z.of_nat fuel →
  wp (srch_case_buf_in_node fuel pos len str str_len (to_upper c0) it) s
    (λ r s', still s0 s' ∧ node_searched lower_chr s0 pos len pat pre cur r).
Proof.
  pose proof case_str_len as Hsl. pose proof case_pat_len as Hpl.
  assert (Hdone : ∀ it pre cur rest s, still s0 s → iter_at (s_heap s) it cur rest → whole = pre ++ cur ++ rest →
    (∀ j, occurs lower_chr pat whole j → zlen pre ≤ j) → ¬ (it_len it ≠ 0 ∧ str_len ≤ zlen (cur ++ rest)) →
    node_searched lower_chr s0 pos len pat pre cur None).
  { intros it pre cur rest s Hs Hit Hsplit Hno Hge j Hj. pose proof (Hno j Hj). rewrite (ia_len _ _ _ _ Hit) in Hge.
    apply occurs_bound in Hj as [_ Hj]; [|intros E; rewrite E in Hpl; cbn in Hpl; lia].
    rewrite Hsplit, !length_app in Hj. rewrite length_app in Hge. lia. }
  induction fuel as [|fuel IH]; intros it pre cur rest s Hs Hit Hnon Hsplit Hno Hf; cbn [srch_case_buf_in_node];
    rewrite (still_len s0 pos len Hw0 Hr Hfit _ _ _ _ _ Hit Hsplit).
  all: destruct (decide (it_len it ≠ 0 ∧ str_len ≤ zlen (cur ++ rest))) as [Hgo|Hgo]; [|wp_steps; split; [done|by eapply Hdone]].
  { rewrite (ia_len _ _ _ _ Hit) in Hgo. lia. }
  destruct Hgo as [Hc Hfits]. pose proof (ia_len _ _ _ _ Hit) as Hil. rewrite length_app in Hfits.
  destruct (iter_at_bytes _ _ _ _ Hit Hnon) as (bs&Hbs&Hlb&Hrun). wp_step. eapply wp_mono; [exact Hrun|].
  intros ? ? [-> ->]. destruct bs as [|c bs]; [rewrite Hbs in Hil; cbn in Hil; lia|].
  wp_step. eapply wp_of_option; [done|]. cbn zeta. wp_step.
  eapply wp_mono; [eapply (case_found_spec s it pre cur c bs rest); try done; lia|]. intros found s1 (Hs1&Hfound). destruct found.
  - wp_steps. split; [done|]. cbn. right. exists (zlen pre).
    split; [apply (still_pos s0 pos len Hw0 Hr Hfit _ _ _ _ _ Hs Hit Hsplit)|]. split; [by apply Hfound|done].
  - eapply wp_mono; [apply (IH (iter_advance 1 it) (pre ++ ztake 1 cur) (zdrop 1 cur) rest); try done|
      intros r s' [? Hr']; split; [done|]; eapply (node_searched_cut _ _ _ _ _ 1); [|exact Hr']; lia].
    + rewrite (still_heap _ _ Hs1), <- (still_heap _ _ Hs). apply iter_advance_at; [done|lia].
    + rewrite <- app_assoc. rewrite (app_assoc (ztake 1 cur)), ztake_zdrop. done.
    + intros j Hj. rewrite length_app, Nat2Z.inj_add, length_ztake. pose proof (Hno j Hj).
      destruct (decide (j = zlen pre)) as [->|]; [|lia]. apply Hfound in Hj. done.
    + rewrite length_zdrop. lia.
Qed.
End buf.

Lemma no_case_non n l i : 0 < n → occurs lower_chr (zrep n None) l i ↔ occurs id (zrep n None) l i.
Proof.
  intros Hn. unfold occurs. rewrite !list_fmap_id.
  assert (E : ∀ l' : list byte_or_non, lower_chr <$> l' = lower_chr <$> zrep n None ↔ l' = zrep n None).
  { intros l'. split; [|by intros ->]. unfold zrep. generalize (Z.to_nat n). intros k. revert l'.
    induction k as [|k IH]; intros [|x l']; try done. cbn. intros [= E1 E2]. f_equal; [by destruct x|by apply IH]. }
  by rewrite E.
Qed.

Lemma first_occ_ext f g pat pos l r :
  (∀ i, occurs f pat l i ↔ occurs g pat l i) → first_occ f pat pos l r → first_occ g pat pos l r.
Proof.
  intros E [[-> H]|(i&->&Hi&H)].
  - left. split; [done|]. intros i Hi. by apply (H i), E.
  - right. exists i. split; [done|]. split; [by apply E|]. intros j Hj. by apply H, E.
Qed.

Lemma vstr_srch_case_buf_fwd_spec s pos len str str_len :
  wf s → in_range s pos len → range_fits pos len → buf_fits str str_len →
  wp (vstr_srch_case_buf_fwd pos len str str_len) s
    (reads s (first_occ lower_chr (buf_content str str_len) pos (substr pos len (st_content s)))).
Proof.
  intros Hw Hr Hfit Hb. pose proof (substr_length _ _ _ Hw Hr) as Hl. pose proof (buf_content_length _ _ Hb) as Hbl.
  pose proof Hr as (Hp&Hl1&_). pose proof Hb as [Hb0 Hb1]. unfold vstr_srch_case_buf_fwd.
  destruct (decide (len = 0 ∨ len < str_len)) as [Hs|Hs].
  { wp_steps. apply reads_now; [done|]. left. split; [done|]. intros i. apply occurs_short. lia. }
  destruct (decide (str_len = 0)) as [H0|H0].
  { wp_steps. apply reads_now; [done|]. replace (buf_content str str_len) with ([] : list byte_or_non); [apply first_occ_nil|].
    symmetry. apply nil_length_inv, Nat2Z.inj. cbn. lia. }
  destruct str as [bs|].
  2:{ eapply wp_mono; [by apply vstr_srch_buf_fwd_spec|]. intros r s' [Hocc ?]. split; [|done]. cbn [buf_content] in *.
      eapply first_occ_ext; [|exact Hocc]. intros i. symmetry. apply no_case_non. lia. }
  specialize (Hb1 bs eq_refl). destruct (head bs) as [c0|] eqn:Eh; [|destruct bs; [cbn in Hb1; lia|done]].
  wp_step. eapply wp_of_option; [done|]. destruct (decide (str_len = 1)) as [H1|H1].
  { destruct bs as [|c [|]]; cbn in Hb1; try lia. cbn in Eh. injection Eh as ->. by apply vstr_srch_case_chr_fwd_spec. }
  wp_step. wp_apply vstr_iter_fwd_beg_spec; [done|done|]. intros r s1 (Ho&Hw1&it&cur&rest&->&Hsplit&Hc&Hit).
  pose proof Hsplit as Hwl. apply (f_equal (λ l, zlen l)) in Hwl. rewrite length_app in Hwl.
  assert (Hst : still s s1) by done. pose proof (case_pat_len bs str_len Hb1) as Hpl.
  eapply wp_mono; [eapply (srch_nodes_spec lower_chr s pos len (Some <$> bs) Hw Hr Hfit _ _ str_len (length (it_node it)) it []
    cur rest s1 Hpl); try done| intros r s' [[? ?] ?]; by split_and!].
  - intros s2 it2 pre2 cur2 rest2 Hs2 Hit2 Hc2 Hsp2 Hno2 Hle2. destruct (iter_non it2) eqn:En.
    + wp_steps. split; [done|]. cbn. intros j Hj. destruct (decide (zlen pre2 + zlen cur2 ≤ j)) as [|Hlt]; [done|exfalso].
      pose proof (Hno2 j Hj). pose proof (iter_at_non _ _ _ _ Hit2 En) as Hz. rewrite (ia_len _ _ _ _ Hit2) in Hz.
      destruct bs as [|c1 bs]; [done|]. apply occurs_head in Hj as (y&Hy&E).
      rewrite Hsp2, lookup_app_r, lookup_app_l in Hy by lia. rewrite Hz in Hy.
      apply lookup_replicate_1 in Hy as [-> _]. done.
    + apply (srch_case_buf_in_node_spec s pos len bs str_len c0 Hw Hr Hfit Hb1 Eh _ it2 pre2 cur2 rest2); try done.
      rewrite (ia_len _ _ _ _ Hit2). lia.
  - lia.
  - intros j [? _]. cbn. lia.
  Unshelve. destruct bs; [done|]. done.
Qed.

End others.

Section others.
Context {OT : Others}.

Lemma occurs_prefix f p q l i : occurs f (p ++ q) l i → occurs f p l i.
Proof.
  intros [Hi H]. split; [done|]. apply (f_equal (ztake (zlen p))) in H. rewrite !ztake_fmap, ztake_ztake, ztake_app_len in H.
  rewrite <- H. do 2 f_equal. rewrite length_app. lia.
Qed.

Section fwd.
Context {X : Type} (c : comparison X) `{CO : !Comparison c} (f : byte_or_non → byte_or_non) `{!TestsUpTo f c}.
Context (srch : Z → Z → option (list Z) → Z → M Z) (go : Z → bool).
Hypothesis Hsrch : ∀ s pos len str n, wf s → in_range s pos len → range_fits pos len → buf_fits str n →
  wp (srch pos len str n) s (reads s (first_occ f (buf_content str n) pos (substr pos len (st_content s)))).
Context (w : World) (k ndl : nat) (s n : St) (pos len ndl_pos ndl_len : Z).
Local Abbreviation whole := (substr pos len (st_content s)).
Local Abbreviation pat := (substr ndl_pos ndl_len (st_content n)).
Hypothesis Hk : st_of w k = Some s.
Hypothesis Hn : st_of w ndl = Some n.
Hypothesis Hws : wf s.
Hypothesis Hwn : wf n.
Hypothesis Hr : in_range s pos len.
Hypothesis Hfit : range_fits pos len.
Hypothesis Hrn : in_range n ndl_pos ndl_len.
Hypothesis Hgo_true : ∀ i, 0 ≤ i ≤ len → go (pos + i) = true → i < len - 1.
Hypothesis Hgo_false : ∀ i, 0 ≤ i ≤ len → go (pos + i) = false → len - i < ndl_len.

Lemma world_reads_string k' t w' : world_reads w w' → st_of w k' = Some t → wf t →
  ∃ t', st_of w' k' = Some t' ∧ wf t' ∧ only_pos t t'.
Proof. intros [_ H] Ht Hwt. destruct (H _ _ Ht) as (t'&?&Ho). exists t'. split; [done|]. split; [by apply Ho|done]. Qed.

(** The comparison of the whole string at one position *)
Lemma cmp_here_spec w' i :
  world_reads w w' → 0 ≤ i → i + ndl_len ≤ len →
  wwp (cmp_strings c k (pos + i) ndl_len ndl ndl_pos ndl_len) w' (λ r w2, world_reads w w2 ∧ (r = 0 ↔ occurs f pat whole i)).
Proof.
  intros Hr' Hi Hle. destruct (world_reads_string k s w' Hr' Hk Hws) as (s'&Hs'&Hws'&Ho).
  destruct (world_reads_string ndl n w' Hr' Hn Hwn) as (n'&Hn'&Hwn'&Ho2). pose proof Hr as (Hp&_). destruct Hrn as (?&?&?).
  destruct (still_range s pos len Hr s' i ndl_len) as [Hir Hsub]; [done|done|lia|lia|].
  eapply wwp_mono; [apply (cmp_strings_spec c w' k s' (pos + i) ndl_len ndl n' ndl_pos ndl_len Hs' Hn' Hws' Hwn')|].
  - split; [lia|by right].
  - eapply only_pos_range; [exact Ho2|]. split; [lia|by right].
  - intros r w2 [-> Hr2]. split; [by eapply world_reads_trans|]. rewrite Hsub, (only_pos_content _ _ Ho2).
    rewrite tests_up_to. unfold occurs. rewrite substr_length by done. split; [by intros|by intros [_ ?]].
Qed.

Lemma srch_vstr_loop_spec it cur rest fuel : ∀ w' i,
  iter_at (s_heap n) it cur rest → 0 < zlen cur → pat = cur ++ rest →
  world_reads w w' → 0 ≤ i ≤ len → (∀ j, occurs f pat whole j → i ≤ j) → len - i < Z.of_nat fuel →
  wwp (srch_vstr_loop (cmp_strings c) srch go fuel k ndl ndl_pos ndl_len it (pos + i) (len - i)) w'
    (λ r w2, world_reads w w2 ∧ first_occ f pat pos whole r).
Proof.
  pose proof Hr as (Hp&Hl1&_). unfold range_fits in Hfit. pose proof (substr_length _ _ _ Hws Hr) as Hwl.
  pose proof (substr_length _ _ _ Hwn Hrn) as Hpl. destruct Hrn as (Hnp&Hnl&Hnle).
  assert (Hne : pat ≠ []) by (intros E; rewrite E in Hpl; cbn in Hpl; lia).
  induction fuel as [|fuel IH]; intros w' i Hit Hc Hpat Hr' Hi Hno Hf; [lia|]. cbn [srch_vstr_loop].
  destruct (go (pos + i) && bool_decide (ndl_len ≤ len - i)) eqn:Hg; cbn [negb].
  2:{ wwp_steps. split; [done|]. left. split; [done|]. intros j Hj. pose proof (Hno j Hj). apply occurs_bound in Hj as [_ Hj]; [|done].
      apply andb_false_iff in Hg as [Hg|?%bool_decide_eq_false]; [apply Hgo_false in Hg|]; lia. }
  apply andb_true_iff in Hg as [Hg Hle%bool_decide_eq_true]. apply Hgo_true in Hg; [|done].
  wwp_step. eapply wwp_mono; [apply cmp_here_spec; [done|lia|lia]|]. intros r w2 (Hr2&Hocc). case_decide as H0.
  { wwp_steps. split; [done|]. right. exists i. split; [done|]. split; [by apply Hocc|done]. }
  rewrite u64_id by lia. assert (Hno1 : ∀ j, occurs f pat whole j → i + 1 ≤ j).
  { intros j Hj. pose proof (Hno j Hj). destruct (decide (j = i)) as [->|]; [by apply Hocc in Hj|lia]. }
  replace (pos + i + 1) with (pos + (i + 1)) by lia. replace (len - i - 1) with (len - (i + 1)) by lia.
  destruct (iter_non it) eqn:En; [apply IH; try done; lia|].
  destruct (world_reads_string ndl n w2 Hr2 Hn Hwn) as (n2&Hn2&Hwn2&Hon2).
  assert (Hit2 : iter_at (s_heap n2) it cur rest) by (by rewrite (proj1 (only_pos_same _ _ Hon2))).
  destruct (iter_at_bytes _ _ _ _ Hit2 En) as (bs&Hbs&Hlb&Hrun). wwp_step. eapply wwp_reads; [exact Hn2|].
  eapply wp_mono; [exact Hrun|]. intros ? ? [-> ->]. split; [done|].
  destruct (world_reads_string k s w2 Hr2 Hk Hws) as (s2&Hs2&Hws2&Ho2).
  destruct (still_range s pos len Hr s2 (i + 1) (len - (i + 1))) as [Hir Hsub]; [done|lia|lia|lia|].
  rewrite (ztake_all (len - (i + 1))) in Hsub by (rewrite length_zdrop; lia).
  wwp_step. eapply wwp_on_string; [exact Hs2|]. eapply wp_mono.
  { apply Hsrch; [done|exact Hir|unfold range_fits; lia|]. split; [rewrite (ia_len _ _ _ _ Hit2); lia|]. by intros ? [= <-]. }
  intros tmp s3 (Hfirst&Ho3&Hw3). rewrite Hsub in Hfirst. cbn [buf_content] in Hfirst. rewrite <- Hbs in Hfirst.
  assert (Hr3 : world_reads w (put_st k s3 w2)) by (eapply world_reads_trans; [done|by eapply world_reads_put]).
  destruct Hfirst as [[-> Hnone]|(m&->&Hm&Hmin)].
  - rewrite decide_True by done. wwp_steps. split; [done|]. left. split; [done|]. intros j Hj. pose proof (Hno1 j Hj).
    apply (Hnone (j - (i + 1))). rewrite Hpat in Hj. apply occurs_prefix in Hj. by apply occurs_zdrop_inv; [lia|].
  - assert (Hcne : cur ≠ []) by (intros ->; cbn in Hc; lia). pose proof (occurs_bound _ _ _ _ Hcne Hm) as [Hm0 Hm1].
    rewrite length_zdrop in Hm1. rewrite decide_False by lia.
    replace (u64 (len - (i + 1) - (pos + (i + 1) + m - (pos + (i + 1))))) with (len - (i + 1 + m)) by (rewrite u64_id; lia).
    replace (pos + (i + 1) + m) with (pos + (i + 1 + m)) by lia. apply IH; try done; try lia.
    intros j Hj. pose proof (Hno1 j Hj). rewrite Hpat in Hj. apply occurs_prefix in Hj.
    apply (occurs_zdrop_inv _ _ _ (i + 1)) in Hj; [|lia]. specialize (Hmin _ Hj). lia.
Qed.

Lemma srch_vstr_fwd_spec :
  wwp (srch_vstr_fwd (cmp_strings c) srch go k pos len ndl ndl_pos ndl_len) w
    (λ r w2, world_reads w w2 ∧ first_occ f pat pos whole r).
Proof.
  pose proof (substr_length _ _ _ Hws Hr) as Hwl. pose proof (substr_length _ _ _ Hwn Hrn) as Hpl.
  unfold srch_vstr_fwd. case_decide as Hlt.
  { wwp_steps. split; [apply world_reads_refl|]. left. split; [done|]. intros i. apply occurs_short. lia. }
  wwp_step. eapply wwp_on_string; [exact Hn|]. eapply wp_mono; [by apply vstr_iter_fwd_beg_spec|].
  intros r n1 (Ho&Hw1&it&cur&rest&->&Hsub&Hc&Hit).
  replace pos with (pos + 0) at 1 by lia. replace len with (len - 0) at 2 by lia.
  apply (srch_vstr_loop_spec it cur rest); try done.
  - by rewrite <- (proj1 (only_pos_same _ _ Ho)).
  - by eapply world_reads_put.
  - destruct Hr. lia.
  - by intros j [? _].
  - destruct Hr. lia.
Qed.
End fwd.

(** ** The functions of the interface.  The test of the loop stops before the
    last position, so the string looked for has two characters or more. *)
Section functions.
Context (w : World) (k ndl : nat) (s n : St) (pos len ndl_pos ndl_len : Z).
Hypothesis Hk : st_of w k = Some s.
Hypothesis Hn : st_of w ndl = Some n.
Hypothesis Hws : wf s.
Hypothesis Hwn : wf n.
Hypothesis Hr : in_range s pos len.
Hypothesis Hfit : range_fits pos len.
Hypothesis Hrn : in_range n ndl_pos ndl_len.
Hypothesis Hl2 : 2 ≤ ndl_len.

Lemma vstr_srch_vstr_fwd_spec :
  wwp (vstr_srch_vstr_fwd k pos len ndl ndl_pos ndl_len) w (λ r w2, world_reads w w2 ∧
    first_occ id (substr ndl_pos ndl_len (st_content n)) pos (substr pos len (st_content s)) r).
Proof.
  unfold vstr_srch_vstr_fwd, vstr_cmp. pose proof Hr as (?&?&?). unfold range_fits in Hfit.
  apply (srch_vstr_fwd_spec cmp_memcmp (CO := memcmp_comparison) id); try done; [intros; by apply vstr_srch_buf_fwd_spec| |];
    unfold vstr_sc_poslast; rewrite (u64_id (len - 1)), u64_id by lia; intros i Hi;
    [intros ?%bool_decide_eq_true|intros ?%bool_decide_eq_false]; lia.
Qed.
Lemma vstr_srch_case_vstr_fwd_spec :
  wwp (vstr_srch_case_vstr_fwd k pos len ndl ndl_pos ndl_len) w (λ r w2, world_reads w w2 ∧
    first_occ lower_chr (substr ndl_pos ndl_len (st_content n)) pos (substr pos len (st_content s)) r).
Proof.
  unfold vstr_srch_case_vstr_fwd, vstr_cmp_case. pose proof Hr as (?&?&?). unfold range_fits in Hfit.
  apply (srch_vstr_fwd_spec cmp_memcasecmp (CO := memcasecmp_comparison) lower_chr); try done;
    [intros; by apply vstr_srch_case_buf_fwd_spec| |];
    unfold case_go; rewrite (u64_id (pos + len)), u64_id by lia; intros i Hi;
    [intros ?%bool_decide_eq_true|intros ?%bool_decide_eq_false]; lia.
Qed.
End functions.

(** The triple of a world: from every world that only read since [w] *)
Definition world_triple {A} (w : World) (m : W A) (Q : A → Prop) : Prop :=
  ∀ w', world_reads w w' → wwp m w' (λ r w2, world_reads w w2 ∧ Q r).
Lemma world_triple_bind {A B} w (m : W A) (k : A → W B) (P : A → Prop) Q :
  world_triple w m P → (∀ x, P x → world_triple w (k x) Q) → world_triple w (m ≫= k) Q.
Proof. intros Hm Hk w' Hr. wwp_step. eapply wwp_mono; [by apply Hm|]. intros r w2 [Hw2 HP]. by apply Hk. Qed.

Lemma vstr_srch_vstr_rev_spec w k ndl s n pos len ndl_pos ndl_len :
  st_of w k = Some s → st_of w ndl = Some n → wf s → wf n → in_range s pos len → range_fits pos len →
  in_range n ndl_pos ndl_len → 2 ≤ ndl_len →
  wwp (vstr_srch_vstr_rev k pos len ndl ndl_pos ndl_len) w (λ r w2, world_reads w w2 ∧
    last_occ id (substr ndl_pos ndl_len (st_content n)) pos (substr pos len (st_content s)) r).
Proof.
  intros Hk Hn Hws Hwn Hr Hfit Hrn Hl2. pose proof (substr_length _ _ _ Hws Hr) as Hwl.
  pose proof (substr_length _ _ _ Hwn Hrn) as Hpl. pose proof Hr as (Hp&Hl1&Hle). unfold range_fits in Hfit.
  set (pat := substr ndl_pos ndl_len (st_content n)) in *.
  assert (Hne : pat ≠ []) by (intros E; rewrite E in Hpl; cbn in Hpl; lia). unfold vstr_srch_vstr_rev.
  assert (HT : world_triple w (srch_rev_slow (@wundef) (λ p l, vstr_srch_vstr_fwd k p l ndl ndl_pos ndl_len)
      (λ _ l, bool_decide (ndl_len ≤ l)) pos len) (last_occ id pat pos (substr pos len (st_content s)))).
  2:{ apply HT, world_reads_refl. }
  apply (srch_rev_slow_spec (@wundef) (world_triple w)); try done.
  - intros m k' P Q. apply world_triple_bind.
  - intros i Hi Hg. apply bool_decide_eq_true in Hg. lia.
  - intros i Hi Hg j Hj. apply bool_decide_eq_false in Hg. apply occurs_bound in Hj; [|done]. lia.
  - intros i Hi Hpl' w' Hw'. destruct (world_reads_string w k s w' Hw' Hk Hws) as (s'&Hs'&Hws'&Ho).
    destruct (world_reads_string w ndl n w' Hw' Hn Hwn) as (n'&Hn'&Hwn'&Ho2).
    destruct (still_range s pos len Hr s' i (len - i)) as [Hir Hsub]; [done|lia|lia|lia|].
    rewrite (ztake_all (len - i)) in Hsub by (rewrite length_zdrop; lia).
    eapply wwp_mono; [apply (vstr_srch_vstr_fwd_spec w' k ndl s' n'); try done; [unfold range_fits; lia|by eapply only_pos_in_range]|].
    intros r w2 [Hw2 Hocc]. rewrite Hsub, (only_pos_content _ _ Ho2) in Hocc. split; [by eapply world_reads_trans|done].
Qed.

End others.
