(* ===== verification/Parse.v ===== *)
(** * Parsing numbers and IPv4 addresses (src/vstr_parse.c).

    Characters are those of ASCII.  [have_ascii_alpha] is the HAVE_ASCII_ALPHA
    of the configured header, with which the tests on local characters are
    compiled out; a char is signed. *)
From Stdlib Require Import ZArith Lia ZifyBool.
From stdpp Require Import base tactics list numbers option gmap.
From S2P Require Import Prelude State Wp Ref Cache Core Iter Spn.

Definition flag (flags bit : Z) : bool := bool_decide (Z.land flags bit ≠ 0).
Definition VSTR__MASK_PARSE_NUM_BASE : Z := 63.
Definition VSTR_FLAG_PARSE_NUM_LOCAL : Z := 64.
Definition VSTR_FLAG_PARSE_NUM_SEP : Z := 128.
Definition VSTR_FLAG_PARSE_NUM_OVERFLOW : Z := 256.
Definition VSTR_FLAG_PARSE_NUM_SPACE : Z := 512.
Definition VSTR_FLAG_PARSE_NUM_NO_BEG_ZERO : Z := 1024.
Definition VSTR_FLAG_PARSE_NUM_NO_BEG_PM : Z := 2048.
Definition VSTR_FLAG_PARSE_NUM_NO_NEGATIVE : Z := 4096.

Definition PARSE_NUM_ERR_NONE : Z := 0.
Definition PARSE_NUM_ERR_ONLY_S : Z := 1.
Definition PARSE_NUM_ERR_ONLY_SPM : Z := 2.
Definition PARSE_NUM_ERR_ONLY_SPMX : Z := 3.
Definition PARSE_NUM_ERR_OOB : Z := 4.
Definition PARSE_NUM_ERR_OVERFLOW : Z := 5.
Definition PARSE_NUM_ERR_NEGATIVE : Z := 6.
Definition PARSE_NUM_ERR_BEG_ZERO : Z := 7.

(** ** What is before the digits *)

(** What vstr__parse_num_beg gives: 0, 1 (the number is 0) or the base to use,
    the position and length to go on with, and the other results. *)
Record num_beg := mkBeg {
  nb_base : Z; nb_pos : Z; nb_len : Z; nb_neg : bool; nb_zeroed : bool; nb_err : Z }.

Definition spn (pos len : Z) (chrs : list Z) : M Z := vstr_spn_chrs_fwd pos len (Some chrs).

(** The sign: how many characters it is and whether it is a minus *)
Definition parse_num_sign (pos len flags : Z) : M (option (Z * bool)) :=
  if flag flags VSTR_FLAG_PARSE_NUM_NO_BEG_PM then mret (Some (0, false))
  else
    tmp ← spn pos len [0x2D];
    if decide (1 < tmp) then mret None
    else if decide (tmp = 0) then
      tmp ← spn pos len [0x2B];
      if decide (1 < tmp) then mret None else mret (Some (tmp, false))
    else mret (Some (tmp, true)).

(** The letter of a base after a 0: [None] when it is not there *)
Definition parse_num_mark (marks : list Z) (base pos len num_base : Z) (auto_base is_neg : bool)
    : M (option (num_beg + Z * Z * Z * Z)) :=
  tmp ← spn pos len marks;
  if decide (1 < tmp) then mret (Some (inl (mkBeg 1 pos len is_neg true PARSE_NUM_ERR_OOB)))
  else if decide (tmp = 1) then
    let num_base := if auto_base then base else num_base in
    let pos := u64 (pos + tmp) in
    let len := len - tmp in
    if decide (len = 0) then mret (Some (inl (mkBeg 0 pos 0 is_neg true PARSE_NUM_ERR_ONLY_SPMX)))
    else
      tmp ← spn pos len [0x30];
      mret (Some (inr (pos, len, num_base, tmp)))
  else mret None.

(** The base, and the zeros before the digits: position, length, base, zeros *)
Definition parse_num_prefix (pos len num_base tmp : Z) (auto_base is_neg : bool)
    : M (num_beg + Z * Z * Z * Z) :=
  if decide (tmp = 1 ∧ (auto_base = true ∨ num_base = 16 ∨ num_base = 2)) then
    if decide (tmp = len) then mret (inl (mkBeg 1 pos 0 is_neg true PARSE_NUM_ERR_NONE))
    else
      let pos := u64 (pos + tmp) in
      let len := len - tmp in
      r ← parse_num_mark [0x78; 0x58] 16 pos len num_base auto_base is_neg;
      match r with
      | Some r => mret r
      | None =>
        r ← parse_num_mark [0x62; 0x42] 2 pos len num_base auto_base is_neg;
        match r with
        | Some r => mret r
        | None => mret (inr (pos, len, if auto_base then 8 else num_base, 0))
        end
      end
  else if decide (tmp ≠ 0 ∧ auto_base = true) then mret (inr (pos, len, 8, tmp - 1))
  else mret (inr (pos, len, if auto_base then 10 else num_base, tmp)).

(** From the zeros on *)
Definition parse_num_zeros (pos len flags num_base : Z) (auto_base is_neg : bool) : M num_beg :=
  zeros ← spn pos len [0x30];
  let is_zeroed := bool_decide (zeros ≠ 0) in
  r ← parse_num_prefix pos len num_base zeros auto_base is_neg;
  match r with
  | inl b => mret b
  | inr (pos, len, num_base, tmp) =>
    if decide (tmp ≠ 0 ∧ flag flags VSTR_FLAG_PARSE_NUM_NO_BEG_ZERO = true) then
      mret (mkBeg 1 pos (len - 1) is_neg is_zeroed
        (if decide (tmp ≠ 1 ∨ len ≠ 1) then PARSE_NUM_ERR_BEG_ZERO else PARSE_NUM_ERR_NONE))
    else if decide (tmp = len) then mret (mkBeg 1 pos 0 is_neg is_zeroed PARSE_NUM_ERR_NONE)
    else mret (mkBeg num_base (u64 (pos + tmp)) (len - tmp) is_neg is_zeroed PARSE_NUM_ERR_NONE)
  end.

Definition vstr__parse_num_beg (pos len flags : Z) : M num_beg :=
  let num_base := Z.land flags VSTR__MASK_PARSE_NUM_BASE in
  let auto_base := bool_decide (num_base = 0) in
  let num_base := if decide (36 < num_base) then 36 else if decide (num_base = 1) then 2 else num_base in
  let space := flag flags VSTR_FLAG_PARSE_NUM_SPACE in
  tmp ← (if space then spn pos len [0x20] else mret 0);
  if space && bool_decide (len ≤ tmp) then mret (mkBeg 0 pos len false false PARSE_NUM_ERR_ONLY_S)
  else
    let pos := u64 (pos + tmp) in
    let len := len - tmp in
    sign ← parse_num_sign pos len flags;
    match sign with
    | None => mret (mkBeg 0 pos len false false PARSE_NUM_ERR_OOB)
    | Some (tmp, is_neg) =>
      let pos := u64 (pos + tmp) in
      let len := len - tmp in
      if decide (len = 0) then mret (mkBeg 0 pos len is_neg false PARSE_NUM_ERR_ONLY_SPM)
      else parse_num_zeros pos len flags num_base auto_base is_neg
    end.

(** ** The digits *)
Section digits.
Context (have_ascii_alpha : bool).

Definition local_let_low : list Z := (λ i, 0x61 + Z.of_nat i) <$> seq 0 26.
Definition local_let_high : list Z := (λ i, 0x41 + Z.of_nat i) <$> seq 0 26.
(** vstr_wrap_memchr: the offset of the first byte that is [c] *)
Definition memchr_off (l : list Z) (c : Z) : option Z :=
  let n := count_while (λ x, bool_decide (x ≠ c)) l in
  if decide (n < zlen l) then Some n else None.

Definition schar (c : Z) : Z := if decide (c < 128) then c else c - 256.

(** VSTR__PARSE_NUM_ASCII: sym_sep, ascii_num_end, ascii_let_low_end,
    ascii_let_high_end and local_num_end *)
Definition parse_num_ends (flags num_base : Z) : Z * Z * Z * Z * Z :=
  if negb (flag flags VSTR_FLAG_PARSE_NUM_LOCAL) then
    if decide (num_base ≤ 10) then (0x5F, 0x30 + num_base - 1, 0x7A, 0x5A, 0x39)
    else (0x5F, 0x39, 0x61 + (num_base - 11), 0x41 + (num_base - 11), 0x39)
  else if decide (num_base ≤ 10) then (0x5F, 0x39, 0x7A, 0x5A, 0x30 + num_base - 1)
  else (0x5F, 0x39, 0x7A, 0x5A, 0x39).

(** The value of a digit; [None] leaves the loop *)
Definition parse_digit (flags num_base c : Z) : option Z :=
  let '(_, ascii_num_end, ascii_let_low_end, ascii_let_high_end, local_num_end) := parse_num_ends flags num_base in
  let scan := schar c in
  if negb have_ascii_alpha && flag flags VSTR_FLAG_PARSE_NUM_LOCAL then
    if decide (0x30 ≤ scan ∧ scan ≤ local_num_end) then Some (scan - 0x30)
    else if decide (num_base ≤ 10) then None
    else match memchr_off (ztake (num_base - 10) local_let_low) c with
    | Some n => Some (10 + n)
    | None => match memchr_off (ztake (num_base - 10) local_let_high) c with
              | Some n => Some (10 + n)
              | None => None
              end
    end
  else
    if decide (scan < 0x30) then None
    else if decide (scan ≤ ascii_num_end) then Some (scan - 0x30)
    else if decide (num_base ≤ 10) then None
    else if decide (0x41 ≤ scan ∧ scan ≤ ascii_let_high_end) then Some (10 + (scan - 0x41))
    else if decide (0x61 ≤ scan ∧ scan ≤ ascii_let_low_end) then Some (10 + (scan - 0x61))
    else None.

(** The loop: [calc] takes a digit, what there is so far and the error, and
    gives [None] to return NULL from the function; the results are what there
    is at the end, the length left and the error. *)
Section loop.
Context {A : Type} (calc : Z → A → Z → option (A * Z)).
Fixpoint parse_num_loop (fuel : nat) (flags num_base : Z) (it : Vstr_iter) (len : Z) (done_once : bool) (ret : A) (err : Z)
    : M (option (A * Z * Z)) :=
  match fuel with
  | O => mret (Some (ret, len, err))
  | S fuel =>
    '(c, _, it) ← vstr_iter_fwd_chr it;
    let '(sym_sep, _, _, _, _) := parse_num_ends flags num_base in
    if done_once && bool_decide (schar c = sym_sep) then
      if negb (flag flags VSTR_FLAG_PARSE_NUM_SEP) then mret (Some (ret, len, err))
      else parse_num_loop fuel flags num_base it (len - 1) done_once ret err
    else match parse_digit flags num_base c with
    | None => mret (Some (ret, len, err))
    | Some add_num =>
      match calc add_num ret err with
      | None => mret None
      | Some (ret, err) => parse_num_loop fuel flags num_base it (len - 1) true ret err
      end
    end
  end.

Definition parse_num_digits (flags : Z) (b : num_beg) (ret : A) : M (option (A * Z * Z)) :=
  iter ← vstr_iter_fwd_beg (nb_pos b) (nb_len b);
  match iter with
  | None => undef
  | Some it => parse_num_loop (Z.to_nat (nb_len b)) flags (nb_base b) it (nb_len b) (nb_zeroed b) ret (nb_err b)
  end.
End loop.

(** ** The functions.  An unsigned type of [w] bits is computed with in [w]
    bits, or 32 when it is shorter. *)
Definition uwrap (w z : Z) : Z := z mod 2 ^ w.
Definition swrap (w z : Z) : Z := let u := uwrap w z in if decide (u < 2 ^ (w - 1)) then u else u - 2 ^ w.

(** VSTR__PARSE_NUM_BIN_CALC_NUM: its break only leaves its own block. *)
Definition bin_calc_num (w flags num_base add_num ret err : Z) : option (Z * Z) :=
  let old_ret := ret in
  let ret := uwrap w (ret * num_base + add_num) in
  if flag flags VSTR_FLAG_PARSE_NUM_OVERFLOW && bool_decide (uwrap (Z.max 32 w) (ret - add_num) / num_base ≠ old_ret)
  then Some (ret, PARSE_NUM_ERR_OVERFLOW) else Some (ret, err).

Definition parse_num_err (len err : Z) : Z :=
  if decide (len ≠ 0 ∧ err = PARSE_NUM_ERR_NONE) then PARSE_NUM_ERR_OOB else err.

(** VSTR__PARSE_NUM_UFUNC: the value, *ret_len and *err *)
Definition parse_num_ufunc (w pos len flags : Z) : M (Z * Z * Z) :=
  b ← vstr__parse_num_beg pos len flags;
  if decide (nb_base b = 0) then mret (0, 0, nb_err b)
  else if decide (nb_base b = 1) then mret (0, len - nb_len b, nb_err b)
  else if nb_neg b then mret (0, 0, PARSE_NUM_ERR_NEGATIVE)
  else
    r ← parse_num_digits (bin_calc_num w flags (nb_base b)) flags b 0;
    match r with
    | None => undef
    | Some (ret, rest, err) => mret (ret, len - rest, parse_num_err rest err)
    end.

(** VSTR__PARSE_NUM_SFUNC; [num_max + is_neg] is computed in the signed type,
    or an int when it is shorter. *)
Definition parse_num_sfunc (w pos len flags : Z) : M (Z * Z * Z) :=
  b ← vstr__parse_num_beg pos len flags;
  let neg := if nb_neg b then 1 else 0 in
  let num_max := 2 ^ (w - 1) - 1 in
  if decide (nb_base b = 0) then mret (0, 0, nb_err b)
  else if decide (nb_base b = 1) then mret (0, len - nb_len b, nb_err b)
  else if nb_neg b && flag flags VSTR_FLAG_PARSE_NUM_NO_NEGATIVE then mret (0, 0, PARSE_NUM_ERR_NEGATIVE)
  else
    r ← parse_num_digits (bin_calc_num w flags (nb_base b)) flags b 0;
    match r with
    | None => undef
    | Some (ret, rest, err) =>
      let over := flag flags VSTR_FLAG_PARSE_NUM_OVERFLOW &&
        bool_decide (num_max < (if decide (32 ≤ w) then uwrap w (ret - neg) else ret - neg)) in
      if over && bool_decide (32 ≤ w ∧ neg = 1) then undef
      else
        let err := if over then PARSE_NUM_ERR_OVERFLOW else err in
        let ret := if over then num_max + neg else ret in
        mret (swrap w (if nb_neg b then - ret else ret), len - rest, parse_num_err rest err)
    end.

Definition vstr_parse_short := parse_num_sfunc 16.
Definition vstr_parse_ushort := parse_num_ufunc 16.
Definition vstr_parse_int := parse_num_sfunc 32.
Definition vstr_parse_uint := parse_num_ufunc 32.
Definition vstr_parse_long := parse_num_sfunc 64.
Definition vstr_parse_ulong := parse_num_ufunc 64.
Definition vstr_parse_intmax := parse_num_sfunc 64.
Definition vstr_parse_uintmax := parse_num_ufunc 64.

(** The function that gives the digits to a callback: the callback takes the
    base, the digit, the error and the data so far; [None] is NULL. *)
Definition vstr_parse_num {D : Type} (func : Z → Z → Z → option D → option D * Z) (data : option D) (pos len flags : Z)
    : M (option D * Z * Z) :=
  b ← vstr__parse_num_beg pos len flags;
  if decide (nb_base b = 0) then mret (None, 0, nb_err b)
  else if decide (nb_base b = 1) then mret (None, len - nb_len b, nb_err b)
  else if nb_neg b && flag flags VSTR_FLAG_PARSE_NUM_NO_NEGATIVE then mret (None, 0, PARSE_NUM_ERR_NEGATIVE)
  else
    r ← parse_num_digits (λ add_num ret err,
          let '(ret, err) := func (nb_base b) (if nb_neg b then - add_num else add_num) err ret in
          if decide (ret = None ∧ err = 0) then None else Some (ret, err)) flags b data;
    match r with
    | None => mret (None, 0, 0)
    | Some (ret, rest, err) => mret (ret, len - rest, parse_num_err rest err)
    end.
End digits.

(** ** IPv4 addresses *)
Definition VSTR_FLAG_PARSE_IPV4_LOCAL : Z := 1.
Definition VSTR_FLAG_PARSE_IPV4_ZEROS : Z := 2.
Definition VSTR_FLAG_PARSE_IPV4_FULL : Z := 4.
Definition VSTR_FLAG_PARSE_IPV4_CIDR : Z := 8.
Definition VSTR_FLAG_PARSE_IPV4_CIDR_FULL : Z := 16.
Definition VSTR_FLAG_PARSE_IPV4_NETMASK : Z := 32.
Definition VSTR_FLAG_PARSE_IPV4_NETMASK_FULL : Z := 64.
Definition VSTR_FLAG_PARSE_IPV4_ONLY : Z := 128.
Definition PARSE_IPV4_ERR_IPV4_OOB : Z := 1.
Definition PARSE_IPV4_ERR_IPV4_FULL : Z := 2.
Definition PARSE_IPV4_ERR_CIDR_OOB : Z := 3.
Definition PARSE_IPV4_ERR_CIDR_FULL : Z := 4.
Definition PARSE_IPV4_ERR_NETMASK_OOB : Z := 5.
Definition PARSE_IPV4_ERR_NETMASK_FULL : Z := 6.
Definition PARSE_IPV4_ERR_ONLY : Z := 7.

Section ipv4.
Context (have_ascii_alpha : bool).
Local Abbreviation parse_uint := (vstr_parse_uint have_ascii_alpha).

(** len && (vstr_export_chr(base, pos) == c) *)
Definition next_is (c pos len : Z) : M bool :=
  if decide (len = 0) then mret false else x ← vstr_export_chr pos; mret (bool_decide (x = c)).

(** The bits of the part of a netmask that is not 255 *)
Definition netmask_bits (n : Z) : option Z :=
  if decide (n = 254) then Some 7 else if decide (n = 252) then Some 6 else if decide (n = 248) then Some 5
  else if decide (n = 240) then Some 4 else if decide (n = 224) then Some 3 else if decide (n = 192) then Some 2
  else if decide (n = 128) then Some 1 else if decide (n = 0) then Some 0 else None.

(** The loop: the length left, the parts seen, whether the rest is zero and
    *cidr; [inl] is the error it returns with, and *cidr then.  The fuel is the parts to come. *)
Fixpoint parse_netmask_loop (fuel : nat) (pos len num_flags scan : Z) (zero_rest : bool) (cidr : option Z)
    : M (Z * option Z + Z * Z * bool * option Z) :=
  if decide (len = 0) then mret (inr (len, scan, zero_rest, cidr))
  else match fuel with
  | O => undef
  | S fuel =>
    '(tmp, num_len, _) ← parse_uint pos (Z.min 3 len) (Z.lor 10 num_flags);
    if decide (num_len = 0) then mret (inr (len, scan, zero_rest, cidr))
    else
      let pos := u64 (pos + num_len) in
      let len := len - num_len in
      if decide (zero_rest = true ∧ tmp ≠ 0) then mret (inl (PARSE_IPV4_ERR_NETMASK_OOB, cidr))
      else if decide (zero_rest = false ∧ 255 < tmp) then mret (inl (PARSE_IPV4_ERR_NETMASK_OOB, cidr))
      else
        z ← (if decide (zero_rest = false ∧ tmp ≠ 255) then
               match cidr, netmask_bits tmp with
               | None, _ => undef
               | Some _, None => mret (None, Some (scan * 8))
               | Some _, Some n => mret (Some true, Some (scan * 8 + n))
               end
             else mret (Some zero_rest, cidr));
        match z with
        | (None, cidr) => mret (inl (PARSE_IPV4_ERR_NETMASK_OOB, cidr))
        | (Some zero_rest, cidr) =>
          let scan := scan + 1 in
          if decide (scan = 4) then mret (inr (len, scan, zero_rest, cidr))
          else
            dot ← next_is 0x2E pos len;
            if decide (len ≠ 0 ∧ dot = false) then mret (inr (len, scan, zero_rest, cidr))
            else
              let '(pos, len) := if decide (len ≠ 0) then (u64 (pos + 1), len - 1) else (pos, len) in
              parse_netmask_loop fuel pos len num_flags scan zero_rest cidr
        end
  end.

(** [inl] is the error of a FALSE, and *cidr; else the length left and *cidr *)
Definition vstr__parse_ipv4_netmask (pos len flags num_flags : Z) (cidr : option Z) : M (Z * option Z + Z * option Z) :=
  r ← parse_netmask_loop 4 pos len num_flags 0 false cidr;
  match r with
  | inl e => mret (inl e)
  | inr (len, scan, zero_rest, cidr) =>
    cidr ← (if (zero_rest : bool) then mret cidr
            else match cidr with None => undef | Some _ => mret (Some (scan * 8)) end);
    if decide (flag flags VSTR_FLAG_PARSE_IPV4_NETMASK_FULL = true ∧ scan ≠ 4) then mret (inl (PARSE_IPV4_ERR_NETMASK_FULL, cidr))
    else mret (inr (len, cidr))
  end.

Definition vstr__parse_ipv4_cidr (pos len flags num_flags : Z) (cidr : option Z) : M (Z * option Z + Z * option Z) :=
  '(cidr, num_len) ← (if decide (len = 0) then mret (cidr, 0)
    else '(n, num_len, _) ← parse_uint pos len (Z.lor 10 num_flags);
         match cidr with None => undef | Some _ => mret (Some n, num_len) end);
  if decide (num_len ≠ 0) then
    n ← of_option cidr;
    mask ← (if decide (flag flags VSTR_FLAG_PARSE_IPV4_NETMASK = true ∧ 32 < n ∧ num_len < len)
            then next_is 0x2E (u64 (pos + num_len)) len else mret false);
    if (mask : bool) then vstr__parse_ipv4_netmask pos len flags num_flags cidr
    else if decide (n ≤ 32) then mret (inr (len - num_len, cidr))
    else mret (inl (PARSE_IPV4_ERR_CIDR_OOB, cidr))
  else if flag flags VSTR_FLAG_PARSE_IPV4_CIDR_FULL then mret (inl (PARSE_IPV4_ERR_CIDR_FULL, cidr))
  else match cidr with None => undef | Some _ => mret (inr (len, Some 32)) end.

(** The parts: [inl] with the parts when one is over 255; else the position
    and the length left, and the parts. *)
Fixpoint parse_ipv4_loop (fuel : nat) (pos len num_flags : Z) (ips : list Z) : M (list Z + Z * Z * list Z) :=
  if decide (len = 0) then mret (inr (pos, len, ips))
  else match fuel with
  | O => undef
  | S fuel =>
    '(tmp, num_len, _) ← parse_uint pos (Z.min 3 len) (Z.lor 10 num_flags);
    if decide (num_len = 0) then mret (inr (pos, len, ips))
    else if decide (255 < tmp) then mret (inl ips)
    else
      let pos := u64 (pos + num_len) in
      let len := len - num_len in
      let ips := ips ++ [tmp] in
      if decide (length ips = 4%nat) then mret (inr (pos, len, ips))
      else
        slash ← next_is 0x2F pos len;
        if (slash : bool) then mret (inr (pos, len, ips))
        else
          dot ← next_is 0x2E pos len;
          if decide (len ≠ 0 ∧ dot = false) then mret (inr (pos, len, ips))
          else
            let '(pos, len) := if decide (len ≠ 0) then (u64 (pos + 1), len - 1) else (pos, len) in
            slash ← next_is 0x2F pos len;
            if (slash : bool) then mret (inr (pos, len, ips))
            else parse_ipv4_loop fuel pos len num_flags ips
  end.

(** The result: the parts that were written, *cidr, *ret_len and *err *)
Record ipv4_result := mkIpv4 { ip_ok : bool; ip_ips : list Z; ip_cidr : option Z; ip_len : Z; ip_err : Z }.

Definition vstr_parse_ipv4 (pos len : Z) (cidr : option Z) (flags : Z) : M ipv4_result :=
  let num_flags := Z.lor VSTR_FLAG_PARSE_NUM_NO_BEG_PM (Z.lor
    (if flag flags VSTR_FLAG_PARSE_IPV4_LOCAL then VSTR_FLAG_PARSE_NUM_LOCAL else 0)
    (if flag flags VSTR_FLAG_PARSE_IPV4_ZEROS then 0 else VSTR_FLAG_PARSE_NUM_NO_BEG_ZERO)) in
  let orig_len := len in
  r ← parse_ipv4_loop 4 pos len num_flags [];
  match r with
  | inl ips => mret (mkIpv4 false ips cidr 0 PARSE_IPV4_ERR_IPV4_OOB)
  | inr (pos, len, ips) =>
    if decide (length ips ≠ 4%nat ∧ flag flags VSTR_FLAG_PARSE_IPV4_FULL = true)
    then mret (mkIpv4 false ips cidr 0 PARSE_IPV4_ERR_IPV4_FULL)
    else
      let ips := ips ++ zrep (4 - zlen ips) 0 in
      let cidr := (λ _, 32) <$> cidr in
      slash ← next_is 0x2F pos len;
      r ← (if (slash : bool) then
             if flag flags VSTR_FLAG_PARSE_IPV4_CIDR
             then vstr__parse_ipv4_cidr (u64 (pos + 1)) (len - 1) flags num_flags cidr
             else if flag flags VSTR_FLAG_PARSE_IPV4_NETMASK
             then vstr__parse_ipv4_netmask (u64 (pos + 1)) (len - 1) flags num_flags cidr
             else mret (inr (len, cidr))
           else mret (inr (len, cidr)));
      match r with
      | inl (err, cidr) => mret (mkIpv4 false ips cidr 0 err)
      | inr (len, cidr) =>
        mret (mkIpv4 true ips cidr (orig_len - len)
          (if decide (len ≠ 0 ∧ flag flags VSTR_FLAG_PARSE_IPV4_ONLY = true) then PARSE_IPV4_ERR_ONLY else 0))
      end
  end.
End ipv4.
