(* ===== verification/ParseSpec.v ===== *)
(** * What the parsing functions give: numbers in any base, and addresses. *)
From Stdlib Require Import ZArith Lia ZifyBool.
From stdpp Require Import base tactics list numbers option gmap.
From S2P Require Import Prelude State Wp Ref Cache Core Iter Spn Parse Inv PosLemmas CacheLemmas StringLemmas IterLemmas.
From S2P Require Import IovecSpec SpnSpec SpnTheorems CmpSpec SrchSpec.

Section others.
Context {OT : Others}.

(** ** Reading one character after the other *)
Definition chr_val (x : byte_or_non) : Z := match x with Some c => c | None => 0 end.

Lemma vstr_iter_fwd_chr_spec s it cur rest x l :
  iter_at (s_heap s) it cur rest → cur ++ rest = x :: l →
  wp (vstr_iter_fwd_chr it) s (λ '(c, ern, it') s', s' = s ∧ c = chr_val x ∧
    ern = (if decide (x = None) then ITER_NON else ITER_DEF) ∧ (length (it_node it') ≤ length (it_node it))%nat ∧
    ∃ cur' rest', l = cur' ++ rest' ∧ iter_at (s_heap s) it' cur' rest').
Proof.
  intros Hit El. unfold vstr_iter_fwd_chr.
  assert (Hstep : ∀ it1 y cur1 rest1, iter_at (s_heap s) it1 (y :: cur1) rest1 →
    (length (it_node it1) ≤ length (it_node it))%nat → (y :: cur1) ++ rest1 = x :: l →
    wp (if iter_non it1 then mret (0, ITER_NON, mkIter (it_ptr it1) (it_len it1 - 1) (it_num it1) (it_node it1) (it_remaining it1))
        else bs ← iter_bytes it1; c ← of_option (head bs); mret (c, ITER_DEF, iter_advance 1 it1)) s
      (λ '(c, ern, it') s', s' = s ∧ c = chr_val x ∧ ern = (if decide (x = None) then ITER_NON else ITER_DEF) ∧
        (length (it_node it') ≤ length (it_node it))%nat ∧ ∃ cur' rest', l = cur' ++ rest' ∧ iter_at (s_heap s) it' cur' rest')).
  { intros it1 y cur1 rest1 Hit1 Hlen [= -> <-]. pose proof (iter_advance_at _ _ _ _ 1 Hit1 ltac:(cbn; lia)) as Ha.
    destruct (iter_non it1) eqn:En.
    - pose proof (iter_at_non _ _ _ _ Hit1 En) as Hz. rewrite (ia_len _ _ _ _ Hit1) in Hz. cbn in Hz.
      unfold zrep in Hz. rewrite Nat2Z.id in Hz. cbn in Hz. injection Hz as -> _. wp_steps. split_and!; [done|done|done|done|].
      exists cur1, rest1. split; [done|]. destruct Ha as [H1 H2 (nd&R&E1&E2&E3&E4)]. split; [done|done|]. cbn in E1.
      exists nd, R. split; [done|]. split; [done|]. split; [done|]. unfold iter_non in En. rewrite E1 in En.
      apply bool_decide_eq_true in En. rewrite decide_True in E4 |- * by done. destruct E4 as [E4 ?]. split; [|done].
      cbn in E4 |- *. by destruct (it_ptr it1).
    - destruct (iter_at_bytes _ _ _ _ Hit1 En) as (bs&Hbs&_&Hrun). destruct bs as [|c bs]; [done|].
      injection Hbs as -> Hbs. wp_step. eapply wp_mono; [exact Hrun|]. intros ? ? [-> ->].
      wp_step. eapply wp_of_option; [done|]. wp_steps. split_and!; [done|done|done|done|]. by exists cur1, rest1. }
  destruct cur as [|y cur].
  - rewrite decide_True by (rewrite (ia_len _ _ _ _ Hit); done). cbn in El. subst rest. wp_step.
    wp_apply vstr_iter_fwd_nxt_spec; [exact Hit|]. intros [more it1] s1 [-> Hm]. destruct more; cbn [negb].
    + destruct Hm as (cur1&rest1&E&Hc&Hit1&Hlen&_). destruct cur1 as [|y cur1]; [cbn in Hc; lia|].
      eapply Hstep; [exact Hit1|lia|done].
    + by destruct Hm.
  - rewrite decide_False by (rewrite (ia_len _ _ _ _ Hit); cbn; lia). wp_steps. cbn [negb]. by eapply Hstep.
Qed.

(** ** The digits of a list of characters *)
Section digits.
Context (ascii : bool).

(** What ends a number *)
Definition ends_number (flags base : Z) (rest : list byte_or_non) : Prop :=
  match rest with
  | [] => True
  | x :: _ => parse_digit ascii flags base (chr_val x) = None ∧
              (flag flags VSTR_FLAG_PARSE_NUM_SEP = false ∨ schar (chr_val x) ≠ 0x5F)
  end.

Lemma parse_num_ends_sep flags base : (parse_num_ends flags base).1.1.1.1 = 0x5F.
Proof. unfold parse_num_ends. repeat case_decide; by destruct (negb _). Qed.

Section loop.
Context {A : Type} (calc : Z → A → Z → option (A * Z)).
Fixpoint calc_all (ds : list Z) (ret : A) (err : Z) : option (A * Z) :=
  match ds with [] => Some (ret, err) | d :: ds => '(ret, err) ← calc d ret err; calc_all ds ret err end.

Lemma parse_num_loop_spec flags base fuel : ∀ s it cur rest cs ds l done ret err ret' err',
  iter_at (s_heap s) it cur rest → cur ++ rest = (Some <$> cs) ++ l → Z.of_nat fuel = zlen cs + zlen l →
  Forall2 (λ c d, parse_digit ascii flags base c = Some d ∧ schar c ≠ 0x5F) cs ds →
  ends_number flags base l → calc_all ds ret err = Some (ret', err') →
  wp (parse_num_loop ascii calc fuel flags base it (Z.of_nat fuel) done ret err) s
    (λ r s', s' = s ∧ r = Some (ret', zlen l, err')).
Proof.
  pose proof (parse_num_ends_sep flags base) as Hsep.
  induction fuel as [|fuel IH]; intros s it cur rest cs ds l done ret err ret' err' Hit El Hf Hds Hend Hcalc.
  { cbn [parse_num_loop]. wp_steps. split; [done|]. destruct l; [|cbn in Hf; lia]. destruct Hds; [|cbn in Hf; lia].
    cbn in Hcalc. by injection Hcalc as -> ->. }
  cbn [parse_num_loop]. destruct Hds as [|c d cs ds [Hd Hs] Hds].
  - destruct l as [|x l]; [cbn in Hf; lia|]. cbn in El, Hcalc. injection Hcalc as -> ->. destruct Hend as [Hnd Hns].
    wp_step. wp_apply vstr_iter_fwd_chr_spec; [exact Hit|exact El|]. intros [[c ern] it'] s' (->&->&_).
    destruct (parse_num_ends flags base) as [[[[sep e1] e2] e3] e4]. cbn in Hsep. subst sep.
    destruct (done && bool_decide (schar (chr_val x) = 0x5F)) eqn:Hd.
    + apply andb_true_iff in Hd as [_ Hd%bool_decide_eq_true]. destruct Hns as [->|]; [|done]. cbn [negb]. wp_steps.
      split; [done|]. cbn in Hf |- *. do 3 f_equal. lia.
    + rewrite Hnd. wp_steps. split; [done|]. cbn in Hf |- *. do 3 f_equal. lia.
  - cbn in El, Hcalc. destruct (calc d ret err) as [[ret1 err1]|] eqn:Ec; [|done]. cbn in Hcalc.
    wp_step. wp_apply vstr_iter_fwd_chr_spec; [exact Hit|exact El|]. intros [[c' ern] it'] s' (->&->&_&_&cur'&rest'&El'&Hit').
    destruct (parse_num_ends flags base) as [[[[sep e1] e2] e3] e4]. cbn in Hsep. subst sep. cbn [chr_val].
    rewrite (bool_decide_eq_false_2 (schar c = 0x5F)) by done. rewrite andb_false_r, Hd, Ec.
    replace (Z.of_nat (S fuel) - 1) with (Z.of_nat fuel) by lia.
    eapply IH; [exact Hit'|by symmetry|cbn in Hf; lia|exact Hds|exact Hend|exact Hcalc].
Qed.
End loop.

(** ** Numbers and their digits *)
Definition num_value (base : Z) (ds : list Z) : Z := fold_left (λ v d, v * base + d) ds 0.
Definition digit_chr (d : Z) : Z := if decide (d < 10) then 0x30 + d else 0x61 + (d - 10).

Lemma parse_digit_chr flags base d :
  flag flags VSTR_FLAG_PARSE_NUM_LOCAL = false → 2 ≤ base ≤ 36 → 0 ≤ d < base →
  parse_digit ascii flags base (digit_chr d) = Some d ∧ schar (digit_chr d) ≠ 0x5F.
Proof.
  intros Hl Hb Hd. unfold parse_digit, parse_num_ends, digit_chr, schar. rewrite Hl. cbn [negb]. rewrite andb_false_r.
  repeat case_decide; cbn; repeat case_decide; try lia; (split; [f_equal; lia|lia]).
Qed.
End digits.

Section numbers.
Context (base : Z).
Hypothesis Hbase : 2 ≤ base ≤ 36.

Lemma num_value_app ds : ∀ v d, fold_left (λ v d, v * base + d) (ds ++ [d]) v = fold_left (λ v d, v * base + d) ds v * base + d.
Proof. intros. by rewrite fold_left_app. Qed.
Lemma num_value_grows ds : ∀ v, Forall (λ d, 0 ≤ d < base) ds → 0 ≤ v → v ≤ fold_left (λ v d, v * base + d) ds v.
Proof.
  induction ds as [|d ds IH]; intros v Hds Hv; [done|]. inversion Hds; subst. cbn.
  assert (v ≤ v * base + d) by nia. specialize (IH (v * base + d)). eapply Z.le_trans; [|apply IH]; [done|done|lia].
Qed.

(** The digits of a number, the first not 0 unless the number is *)
Fixpoint digits_fuel (fuel : nat) (n : Z) : list Z :=
  match fuel with
  | O => []
  | S fuel => if decide (n < base) then [n] else digits_fuel fuel (n / base) ++ [n mod base]
  end.
Definition digits (n : Z) : list Z := digits_fuel (S (Z.to_nat (Z.log2 n))) n.

Lemma digits_fuel_spec fuel : ∀ n, 0 ≤ n < base ^ Z.of_nat fuel → fuel ≠ O →
  num_value base (digits_fuel fuel n) = n ∧ Forall (λ d, 0 ≤ d < base) (digits_fuel fuel n) ∧
  ∃ d ds, digits_fuel fuel n = d :: ds ∧ (1 ≤ n → 1 ≤ d) ∧ (n < base → ds = []).
Proof.
  induction fuel as [|fuel IH]; intros n Hn Hf; [done|]. cbn [digits_fuel]. case_decide as Hlt.
  - split; [done|]. split; [constructor; [lia|done]|]. exists n, []. done.
  - assert (Hq : 0 ≤ n / base < base ^ Z.of_nat fuel).
    { split; [apply Z.div_pos; lia|]. apply Z.div_lt_upper_bound; [lia|].
      rewrite Nat2Z.inj_succ, Z.pow_succ_r in Hn by lia. lia. }
    assert (Hq1 : 1 ≤ n / base) by (apply Z.div_le_lower_bound; lia).
    destruct fuel as [|fuel]; [cbn in Hq; lia|]. destruct (IH _ Hq ltac:(done)) as (Hv&Hds&d&ds&E&Hd&_).
    split; [|split].
    + unfold num_value in *. rewrite num_value_app, Hv. pose proof (Z.div_mod n base). lia.
    + apply Forall_app. split; [done|]. constructor; [|done]. apply Z.mod_pos_bound. lia.
    + rewrite E. exists d, (ds ++ [n mod base]). split; [done|]. split; [by intros _; apply Hd|lia].
Qed.
Lemma digits_spec n : 0 ≤ n →
  num_value base (digits n) = n ∧ Forall (λ d, 0 ≤ d < base) (digits n) ∧
  ∃ d ds, digits n = d :: ds ∧ (1 ≤ n → 1 ≤ d) ∧ (n < base → ds = []).
Proof.
  intros Hn. apply digits_fuel_spec; [|done]. split; [done|]. rewrite Nat2Z.inj_succ, Z2Nat.id by apply Z.log2_nonneg.
  destruct (decide (n = 0)) as [->|]; [cbn; lia|]. pose proof (Z.log2_spec n ltac:(lia)) as [_ Hl].
  eapply Z.lt_le_trans; [exact Hl|]. apply Z.pow_le_mono_l. lia.
Qed.

Lemma uwrap_step w v d : 0 < w → uwrap w (uwrap w v * base + d) = uwrap w (v * base + d).
Proof.
  intros Hw. unfold uwrap. rewrite <- Z.add_mod_idemp_l, Z.mul_mod_idemp_l, Z.add_mod_idemp_l by (apply Z.pow_nonzero; lia). done.
Qed.
Lemma uwrap_id w v : 0 ≤ v < 2 ^ w → uwrap w v = v.
Proof. apply Z.mod_small. Qed.

Lemma bin_calc_step w flags v d err :
  0 < w → 0 ≤ d < base → 0 ≤ v → (flag flags VSTR_FLAG_PARSE_NUM_OVERFLOW = true → v * base + d < 2 ^ w) →
  bin_calc_num w flags base d (uwrap w v) err = Some (uwrap w (v * base + d), err).
Proof.
  intros Hw Hd Hv Hfit. unfold bin_calc_num. rewrite uwrap_step by done.
  destruct (flag flags VSTR_FLAG_PARSE_NUM_OVERFLOW); cbn [andb]; [|done]. specialize (Hfit eq_refl).
  rewrite (uwrap_id w (v * base + d)), (uwrap_id w v) by nia.
  replace (v * base + d - d) with (v * base) by lia. rewrite (uwrap_id (Z.max 32 w)).
  2:{ split; [nia|]. eapply Z.lt_le_trans; [|apply (Z.pow_le_mono_r 2 w); lia]. nia. }
  rewrite Z.div_mul by lia. by rewrite bool_decide_eq_false_2 by (intros []; done).
Qed.
Lemma bin_calc_all w flags ds : ∀ v err,
  0 < w → Forall (λ d, 0 ≤ d < base) ds → 0 ≤ v →
  (flag flags VSTR_FLAG_PARSE_NUM_OVERFLOW = true → fold_left (λ v d, v * base + d) ds v < 2 ^ w) →
  calc_all (bin_calc_num w flags base) ds (uwrap w v) err = Some (uwrap w (fold_left (λ v d, v * base + d) ds v), err).
Proof.
  induction ds as [|d ds IH]; intros v err Hw Hds Hv Hfit; [done|]. inversion Hds as [|? ? Hd Hds']; subst.
  cbn [calc_all fold_left] in *. pose proof (num_value_grows ds (v * base + d) Hds' ltac:(nia)).
  rewrite bin_calc_step; [|done..|intros Ef; specialize (Hfit Ef); lia]. apply IH; try done. nia.
Qed.
End numbers.

(** ** Before the digits *)
Definition is_sign (flags : Z) (sg : list Z) : Prop :=
  sg = [] ∨ ((sg = [0x2D] ∨ sg = [0x2B]) ∧ flag flags VSTR_FLAG_PARSE_NUM_NO_BEG_PM = false).
Definition is_minus (sg : list Z) : bool := bool_decide (sg = [0x2D]).

Section beg.
Context (s0 : St) (pos len flags base : Z).
Local Abbreviation whole := (substr pos len (st_content s0)).
Hypothesis Hw0 : wf s0.
Hypothesis Hr : in_range s0 pos len.
Hypothesis Hfit : range_fits pos len.
Hypothesis Hflags : Z.land flags VSTR__MASK_PARSE_NUM_BASE = base.
Hypothesis Hbase : 2 ≤ base ≤ 36.
Hypothesis Hsp : flag flags VSTR_FLAG_PARSE_NUM_SPACE = false.

Lemma spn_spec s i chrs :
  still s0 s → 0 ≤ i < len →
  wp (spn (pos + i) (len - i) chrs) s (λ r s', still s0 s' ∧ r = count_while (in_chrs (Some chrs)) (zdrop i whole)).
Proof.
  intros Hs Hi. destruct (still_range s0 pos len Hr s i (len - i)) as [Hir Hsub]; [done|lia|lia|lia|].
  pose proof (substr_length _ _ _ Hw0 Hr) as Hwl.
  rewrite (ztake_all (len - i)) in Hsub by (rewrite length_zdrop; lia). rewrite <- Hsub.
  eapply wp_mono; [apply vstr_spn_chrs_fwd_spec; [apply Hs|exact Hir]|].
  intros r s' (->&Ho&Hw'). split; [by eapply still_trans|done].
Qed.

(** One character looked for *)
Lemma count_one c l : count_while (in_chrs (Some [c])) l =
  match l with x :: l' => if decide (x = Some c) then 1 + count_while (in_chrs (Some [c])) l' else 0 | [] => 0 end.
Proof.
  destruct l as [|x l]; [done|]. cbn [count_while]. destruct (in_chrs (Some [c]) x) eqn:E.
  - destruct x as [d|]; [|done]. rewrite in_chrs_one in E. cbn in E. apply bool_decide_eq_true in E as ->.
    by rewrite decide_True.
  - rewrite decide_False; [done|]. intros ->. rewrite in_chrs_one in E. cbn in E. by apply bool_decide_eq_false in E.
Qed.

Lemma count_none c x l : x ≠ Some c → count_while (in_chrs (Some [c])) (x :: l) = 0.
Proof. intros Hx. rewrite count_one. by rewrite decide_False. Qed.
Lemma count_single c x l : x ≠ Some c → count_while (in_chrs (Some [c])) (Some c :: x :: l) = 1.
Proof. intros Hx. rewrite count_one, count_none by done. by rewrite decide_True. Qed.

(** The sign, before a character that is not one *)
Lemma parse_num_sign_spec s sg x l :
  still s0 s → is_sign flags sg → whole = (Some <$> sg) ++ x :: l → x ≠ Some 0x2D → x ≠ Some 0x2B →
  wp (parse_num_sign pos len flags) s (λ r s', still s0 s' ∧ r = Some (zlen sg, is_minus sg)).
Proof.
  intros Hs Hsg Hsplit Hx1 Hx2. unfold parse_num_sign. pose proof Hr as (?&?&?). unfold is_minus.
  destruct (flag flags VSTR_FLAG_PARSE_NUM_NO_BEG_PM) eqn:Ef.
  { wp_steps. split; [done|]. destruct Hsg as [->|[_ ?]]; [done|congruence]. }
  assert (Hspn : ∀ c s1, still s0 s1 → wp (spn pos len [c]) s1 (λ r s',
    still s0 s' ∧ r = count_while (in_chrs (Some [c])) ((Some <$> sg) ++ x :: l))).
  { intros c s1 Hs1. pose proof (spn_spec s1 0 [c] Hs1 ltac:(lia)) as Hsp0.
    by rewrite Z.add_0_r, Z.sub_0_r, zdrop_0, Hsplit in Hsp0 by lia. }
  wp_step. eapply wp_mono; [by apply Hspn|]. intros tmp s1 [Hs1 ->].
  destruct Hsg as [->|[[->| ->] _]]; cbn [fmap list_fmap app] in *.
  2:{ rewrite count_single by done. by wp_steps. }
  all: rewrite count_none by done; rewrite decide_False, decide_True by lia; wp_step; (eapply wp_mono; [by apply Hspn|]); intros tmp s2 [Hs2 ->].
  - rewrite count_none by done. by wp_steps.
  - rewrite count_single by done. by wp_steps.
Qed.

(** Up to the zeros *)
Lemma parse_num_beg_eq s sg x l Q :
  still s0 s → is_sign flags sg → whole = (Some <$> sg) ++ x :: l → x ≠ Some 0x2D → x ≠ Some 0x2B →
  (∀ s', still s0 s' → wp (parse_num_zeros (pos + zlen sg) (len - zlen sg) flags base false (is_minus sg)) s' Q) →
  wp (vstr__parse_num_beg pos len flags) s Q.
Proof.
  intros Hs Hsg Hsplit Hx1 Hx2 HQ. unfold vstr__parse_num_beg. rewrite Hflags, Hsp. cbn [andb].
  pose proof Hr as (Hp&Hl1&Hle). unfold range_fits in Hfit. pose proof (substr_length _ _ _ Hw0 Hr) as Hwl.
  assert (Hlen : len = zlen sg + 1 + zlen l).
  { rewrite <- Hwl, Hsplit, length_app, length_fmap. cbn. lia. }
  wp_steps. rewrite Z.add_0_r, Z.sub_0_r, u64_id by lia.
  eapply wp_mono; [by eapply parse_num_sign_spec|]. intros r s1 [Hs1 ->]. rewrite u64_id by lia.
  rewrite decide_False by lia. rewrite (bool_decide_eq_false_2 (base = 0)) by lia.
  rewrite (decide_False (P := 36 < base)), (decide_False (P := base = 1)) by lia. by apply HQ.
Qed.

Section zeros.
Context (s : St) (i : Z) (neg : bool).
Hypothesis Hs : still s0 s.
Hypothesis Hi : 0 ≤ i < len.
Local Abbreviation zeros := (parse_num_zeros (pos + i) (len - i) flags base false neg).

(** No zero: the digits come. *)
Lemma parse_num_zeros_none x l :
  zdrop i whole = x :: l → x ≠ Some 0x30 →
  wp zeros s (λ r s', still s0 s' ∧ r = mkBeg base (pos + i) (len - i) neg false 0).
Proof.
  intros E Hx. pose proof Hr as (Hp&_). unfold range_fits in Hfit. unfold parse_num_zeros. wp_step.
  eapply wp_mono; [by apply spn_spec|]. intros z s1 [Hs1 ->]. rewrite E, count_one, decide_False by done.
  unfold parse_num_prefix. rewrite decide_False, decide_False by lia. wp_steps. rewrite decide_False by tauto.
  rewrite decide_False by lia. wp_steps. split; [done|]. rewrite Z.add_0_r, u64_id by lia. f_equal. lia.
Qed.
(** "0" alone *)
Lemma parse_num_zeros_alone :
  zdrop i whole = [Some 0x30] →
  wp zeros s (λ r s', still s0 s' ∧ nb_base r = 1 ∧ nb_len r = 0 ∧ nb_err r = 0 ∧ nb_neg r = neg).
Proof.
  intros E. pose proof (substr_length _ _ _ Hw0 Hr) as Hwl.
  assert (Hl : len - i = 1).
  { apply (f_equal (λ l, zlen l)) in E. rewrite length_zdrop in E. cbn in E. lia. }
  unfold parse_num_zeros. wp_step. eapply wp_mono; [by apply spn_spec|]. intros z s1 [Hs1 ->].
  rewrite E, count_one, decide_True by done. cbn [count_while]. rewrite Hl. change (1 + 0) with 1. wp_step.
  unfold parse_num_prefix. case_decide as H1.
  - rewrite decide_True by done. wp_steps. done.
  - rewrite decide_False by (intros [? ?]; done). wp_steps. destruct (flag flags VSTR_FLAG_PARSE_NUM_NO_BEG_ZERO).
    + rewrite decide_True by done. wp_steps. split; [done|]. rewrite decide_False by lia. done.
    + rewrite decide_False by (intros [? ?]; done). rewrite decide_True by done. wp_steps. done.
Qed.
(** One zero and something else, in base 10 *)
Lemma parse_num_zeros_ten (y : byte_or_non) (l : list byte_or_non) :
  base = 10 → zdrop i whole = Some 0x30 :: y :: l → y ≠ Some 0x30 →
  wp zeros s (λ r s', still s0 s' ∧
    if flag flags VSTR_FLAG_PARSE_NUM_NO_BEG_ZERO then nb_base r = 1 ∧ nb_len r = len - i - 1
    else r = mkBeg 10 (pos + (i + 1)) (len - (i + 1)) neg true 0).
Proof.
  intros -> E Hy. pose proof Hr as (Hp&_). unfold range_fits in Hfit. pose proof (substr_length _ _ _ Hw0 Hr) as Hwl.
  assert (Hl : len - i = 2 + zlen l).
  { apply (f_equal (λ l, zlen l)) in E. rewrite length_zdrop in E. cbn [length] in E. lia. }
  unfold parse_num_zeros. wp_step. eapply wp_mono; [by apply spn_spec|]. intros z s1 [Hs1 ->].
  rewrite E, count_one, decide_True by done. rewrite count_one, decide_False by done. change (1 + 0) with 1.
  unfold parse_num_prefix. rewrite decide_False by (intros [_ [|[|]]]; done). rewrite decide_False by (intros [? ?]; done).
  wp_steps. destruct (flag flags VSTR_FLAG_PARSE_NUM_NO_BEG_ZERO).
  - rewrite decide_True by done. by wp_steps.
  - rewrite decide_False by (intros [? ?]; done). rewrite decide_False by lia. wp_steps. split; [done|].
    rewrite u64_id by lia. f_equal; lia.
Qed.
End zeros.
End beg.

(** ** Numbers *)
Definition num_chrs (base n : Z) : list Z := digit_chr <$> digits base n.

Lemma num_chrs_head base n : 2 ≤ base ≤ 36 → 1 ≤ n →
  ∃ c cs, num_chrs base n = c :: cs ∧ c ≠ 0x30 ∧ c ≠ 0x2D ∧ c ≠ 0x2B.
Proof.
  intros Hb Hn. destruct (digits_spec base Hb n ltac:(lia)) as (_&Hds&d&ds&E&Hd&_). unfold num_chrs. rewrite E in *.
  inversion Hds; subst. exists (digit_chr d), (digit_chr <$> ds). split; [done|]. specialize (Hd Hn). unfold digit_chr.
  case_decide; lia.
Qed.
Lemma num_chrs_0 base : 2 ≤ base ≤ 36 → num_chrs base 0 = [0x30].
Proof. intros Hb. unfold num_chrs, digits. cbn. by rewrite decide_True by lia. Qed.

Section number.
Context (ascii : bool) (s0 : St) (pos len flags base w : Z).
Local Abbreviation whole := (substr pos len (st_content s0)).
Hypothesis Hw0 : wf s0.
Hypothesis Hr : in_range s0 pos len.
Hypothesis Hfit : range_fits pos len.
Hypothesis Hflags : Z.land flags VSTR__MASK_PARSE_NUM_BASE = base.
Hypothesis Hbase : 2 ≤ base ≤ 36.
Hypothesis Hsp : flag flags VSTR_FLAG_PARSE_NUM_SPACE = false.
Hypothesis Hloc : flag flags VSTR_FLAG_PARSE_NUM_LOCAL = false.
Hypothesis Hw : 0 < w.

Lemma parse_num_digits_eq s i neg z cs ds rest ret :
  still s0 s → 0 ≤ i < len → zdrop i whole = (Some <$> cs) ++ rest →
  Forall2 (λ c d, parse_digit ascii flags base c = Some d ∧ schar c ≠ 0x5F) cs ds →
  ends_number ascii flags base rest → calc_all (bin_calc_num w flags base) ds 0 0 = Some (ret, 0) →
  wp (parse_num_digits ascii (bin_calc_num w flags base) flags (mkBeg base (pos + i) (len - i) neg z 0) 0) s
    (λ r s', still s0 s' ∧ r = Some (ret, zlen rest, 0)).
Proof.
  intros Hs Hi E Hds Hend Hcalc. unfold parse_num_digits. cbn [nb_pos nb_len nb_base nb_zeroed nb_err].
  pose proof (substr_length _ _ _ Hw0 Hr) as Hwl.
  destruct (still_range s0 pos len Hr s i (len - i)) as [Hir Hsub]; [done|lia|lia|lia|].
  rewrite (ztake_all (len - i)), E in Hsub by (rewrite length_zdrop; lia).
  assert (Hl : len - i = zlen cs + zlen rest).
  { apply (f_equal (λ l, zlen l)) in E. rewrite length_zdrop, length_app, length_fmap in E. lia. }
  wp_step. eapply wp_mono; [apply vstr_iter_fwd_beg_spec; [apply Hs|done]|].
  intros r s1 (Ho&Hw1&it&cur&rest'&->&E'&Hc&Hit). rewrite Hsub in E'.
  pose proof (parse_num_loop_spec ascii (bin_calc_num w flags base) flags base (Z.to_nat (len - i)) s1 it cur rest'
    cs ds rest z 0 0 ret 0 Hit (eq_sym E') ltac:(lia) Hds Hend Hcalc) as Hloop.
  rewrite Z2Nat.id in Hloop by lia. eapply wp_mono; [exact Hloop|].
  intros r s2 [-> ->]. split; [by eapply still_trans|done].
Qed.

Lemma parse_num_digits_spec s i neg z n rest :
  still s0 s → 0 ≤ i < len → zdrop i whole = (Some <$> num_chrs base n) ++ rest → 0 ≤ n →
  ends_number ascii flags base rest → (flag flags VSTR_FLAG_PARSE_NUM_OVERFLOW = true → n < 2 ^ w) →
  wp (parse_num_digits ascii (bin_calc_num w flags base) flags (mkBeg base (pos + i) (len - i) neg z 0) 0) s
    (λ r s', still s0 s' ∧ r = Some (uwrap w n, zlen rest, 0)).
Proof.
  intros Hs Hi E Hn Hend Hov. destruct (digits_spec base Hbase n Hn) as (Hv&Hds&_).
  pose proof (bin_calc_all base Hbase w flags (digits base n) 0 0 Hw Hds ltac:(lia)) as Hcalc.
  unfold num_value in Hv. rewrite Hv in Hcalc. specialize (Hcalc Hov).
  replace (uwrap w 0) with 0 in Hcalc by (unfold uwrap; by rewrite Z.mod_0_l by (apply Z.pow_nonzero; lia)).
  eapply parse_num_digits_eq; try done.
  unfold num_chrs. apply Forall2_fmap_l, Forall_Forall2_diag. eapply Forall_impl; [exact Hds|]. intros d Hd.
  by apply parse_digit_chr.
Qed.

Definition number_err (rest : list byte_or_non) : Z := match rest with [] => PARSE_NUM_ERR_NONE | _ => PARSE_NUM_ERR_OOB end.
Lemma parse_num_err_rest rest : parse_num_err (zlen rest) 0 = number_err rest.
Proof. unfold parse_num_err. destruct rest as [|y rest]; cbn [number_err length]; [by rewrite decide_False by (intros [? ?]; done)|]. by rewrite decide_True by (split; [lia|done]). Qed.

Section signed.
Context (sg : list Z) (n : Z) (rest : list byte_or_non).
Hypothesis Hsg : is_sign flags sg.
Hypothesis Hsplit : whole = (Some <$> sg) ++ (Some <$> num_chrs base n) ++ rest.
Hypothesis Hn : 1 ≤ n ∨ n = 0 ∧ rest = [].
Hypothesis Hend : ends_number ascii flags base rest.
Hypothesis Hov : flag flags VSTR_FLAG_PARSE_NUM_OVERFLOW = true → n < 2 ^ w.

(** The beginning is 0, or the digits are to come *)
Lemma number_beg_spec s (Q : num_beg → St → Prop) :
  still s0 s →
  (∀ b s', still s0 s' → n = 0 → nb_base b = 1 ∧ nb_len b = 0 ∧ nb_err b = 0 ∧ nb_neg b = is_minus sg → Q b s') →
  (∀ s', still s0 s' → 1 ≤ n → zlen sg < len → zdrop (zlen sg) whole = (Some <$> num_chrs base n) ++ rest →
    Q (mkBeg base (pos + zlen sg) (len - zlen sg) (is_minus sg) false 0) s') →
  wp (vstr__parse_num_beg pos len flags) s Q.
Proof.
  intros Hs H0 H1. pose proof (substr_length _ _ _ Hw0 Hr) as Hwl.
  assert (Hz : zdrop (zlen sg) whole = (Some <$> num_chrs base n) ++ rest).
  { rewrite Hsplit. by rewrite <- (length_fmap Some), zdrop_app_len. }
  destruct Hn as [Hn1|[-> ->]].
  - destruct (num_chrs_head base n Hbase Hn1) as (c&cs&Ec&Hc0&Hc1&Hc2). rewrite Ec in Hsplit, Hz.
    assert (Hl : zlen sg < len) by (rewrite <- Hwl, Hsplit, length_app, length_fmap; cbn; lia).
    eapply parse_num_beg_eq; [done|done|exact Hfit|exact Hflags|done..|exact Hsplit|congruence|congruence|]. intros s1 Hs1.
    eapply wp_mono; [eapply parse_num_zeros_none; try done; [lia|exact Hz|congruence]|].
    intros r s2 [Hs2 ->]. apply H1; try done. by rewrite Ec.
  - rewrite (num_chrs_0 base Hbase) in Hsplit, Hz.
    assert (Hl : zlen sg < len) by (rewrite <- Hwl, Hsplit, length_app, length_fmap; cbn; lia).
    eapply parse_num_beg_eq; [done|done|exact Hfit|exact Hflags|done..|exact Hsplit|done|done|]. intros s1 Hs1.
    eapply wp_mono; [eapply parse_num_zeros_alone; try done; lia|]. intros r s2 [Hs2 Hb]. by apply H0.
Qed.

Lemma number_len : len = zlen sg + zlen (num_chrs base n) + zlen rest.
Proof.
  pose proof (substr_length _ _ _ Hw0 Hr) as Hwl. rewrite <- Hwl, Hsplit, !length_app, !length_fmap. lia.
Qed.

Lemma parse_num_ufunc_spec s :
  still s0 s → is_minus sg = false →
  wp (parse_num_ufunc ascii w pos len flags) s (λ r s', still s0 s' ∧
    r = (uwrap w n, zlen sg + zlen (num_chrs base n), number_err rest)).
Proof.
  intros Hs Hm. pose proof number_len as Hl. unfold parse_num_ufunc. wp_step. apply number_beg_spec; [done|..].
  - intros b s1 Hs1 -> (Hb&Hbl&Hbe&_). rewrite Hb, Hbl, Hbe. rewrite decide_False, decide_True by done. wp_steps.
    split; [done|]. destruct Hn as [|[_ ->]]; [lia|]. rewrite (uwrap_id w 0) by (split; [done|by apply Z.pow_pos_nonneg; lia]).
    cbn in Hl |- *. do 2 f_equal. lia.
  - intros s1 Hs1 Hn1 Hsl Hz. cbn [nb_base nb_neg]. rewrite !decide_False by lia. rewrite Hm. wp_step.
    eapply wp_mono; [apply parse_num_digits_spec with (n := n) (rest := rest); try done; lia|].
    intros r s2 [Hs2 ->]. wp_steps. split; [done|]. rewrite parse_num_err_rest. do 2 f_equal. lia.
Qed.
Lemma swrap_uwrap v : swrap w (uwrap w v) = swrap w v.
Proof. unfold swrap, uwrap. by rewrite Z.mod_mod by (apply Z.pow_nonzero; lia). Qed.
Lemma swrap_opp v : swrap w (- uwrap w v) = swrap w (- v).
Proof.
  unfold swrap, uwrap. assert (H : (- (v mod 2 ^ w)) mod 2 ^ w = (- v) mod 2 ^ w); [|by rewrite H].
  rewrite <- (Z.sub_0_l (v mod _)), Zminus_mod_idemp_r. f_equal.
Qed.

Lemma parse_num_sfunc_spec s :
  still s0 s → (is_minus sg = true → flag flags VSTR_FLAG_PARSE_NUM_NO_NEGATIVE = false) →
  (flag flags VSTR_FLAG_PARSE_NUM_OVERFLOW = true → n ≤ 2 ^ (w - 1) - 1 + (if is_minus sg then 1 else 0)) →
  wp (parse_num_sfunc ascii w pos len flags) s (λ r s', still s0 s' ∧
    r = (swrap w (if is_minus sg then - n else n), zlen sg + zlen (num_chrs base n), number_err rest)).
Proof.
  intros Hs Hm Hov2. pose proof number_len as Hl. unfold parse_num_sfunc.
  assert (Hpw : 2 ^ w = 2 * 2 ^ (w - 1)) by (rewrite <- Z.pow_succ_r by lia; f_equal; lia).
  assert (Hp1 : 0 < 2 ^ (w - 1)) by (apply Z.pow_pos_nonneg; lia).
  wp_step. apply number_beg_spec; [done|..].
  - intros b s1 Hs1 -> (Hb&Hbl&Hbe&_). rewrite Hb, Hbl, Hbe. rewrite decide_False, decide_True by done. wp_steps.
    split; [done|]. destruct Hn as [|[_ ->]]; [lia|].
    replace (if is_minus sg then - 0 else 0) with 0 by (by destruct (is_minus sg)).
    replace (swrap w 0) with 0.
    2:{ unfold swrap. rewrite (uwrap_id w 0) by lia. by rewrite decide_True by lia. }
    cbn in Hl |- *. do 2 f_equal. lia.
  - intros s1 Hs1 Hn1 Hsl Hz. cbn [nb_base nb_neg]. rewrite !decide_False by lia.
    replace (is_minus sg && flag flags VSTR_FLAG_PARSE_NUM_NO_NEGATIVE) with false
      by (symmetry; destruct (is_minus sg); [by rewrite Hm|done]). wp_step.
    eapply wp_mono; [apply parse_num_digits_spec with (n := n) (rest := rest); try done; lia|].
    intros r s2 [Hs2 ->]. set (neg := if is_minus sg then 1 else 0) in *.
    assert (Hneg : 0 ≤ neg ≤ 1) by (unfold neg; destruct (is_minus sg); lia).
    assert (Hover : flag flags VSTR_FLAG_PARSE_NUM_OVERFLOW && bool_decide (2 ^ (w - 1) - 1 <
      (if decide (32 ≤ w) then uwrap w (uwrap w n - neg) else uwrap w n - neg)) = false).
    { destruct (flag flags VSTR_FLAG_PARSE_NUM_OVERFLOW); [|done]. specialize (Hov2 eq_refl). cbn [andb].
      rewrite (uwrap_id w n) by lia. apply bool_decide_eq_false. case_decide; [rewrite uwrap_id by lia|]; lia. }
    rewrite Hover. cbn [andb]. wp_steps. split; [done|]. rewrite parse_num_err_rest.
    replace (swrap w (if is_minus sg then - uwrap w n else uwrap w n)) with (swrap w (if is_minus sg then - n else n))
      by (destruct (is_minus sg); [by rewrite swrap_opp|by rewrite swrap_uwrap]).
    do 2 f_equal. lia.
Qed.
End signed.
End number.

End others.
