(* ===== verification/ParseIp.v ===== *)
(** * Reading one character, and IPv4 addresses. *)
From Stdlib Require Import ZArith Lia ZifyBool.
From stdpp Require Import base tactics list numbers option gmap.
From S2P Require Import Prelude State Wp Ref Cache Core Iter Spn Parse Inv PosLemmas CacheLemmas StringLemmas IterLemmas.
From S2P Require Import AddLemmas SplitLemmas SpareLemmas IovecSpec SpnSpec SpnTheorems CmpSpec SrchSpec ParseSpec.

Section others.
Context {OT : Others}.

(** ** vstr_export_chr *)
Lemma content_at s i nd off pos :
  wf s → b_nodes (s_base s) !! i = Some nd → 0 < off ≤ nd_len nd →
  sum_len (take i (b_nodes (s_base s))) + off = pos + b_used (s_base s) → 1 ≤ pos →
  st_content s !! Z.to_nat (pos - 1) = node_bytes (s_heap s) nd !! Z.to_nat (off - 1).
Proof.
  intros Hw Hi Hoff Hsum Hp. pose proof (hi_nodes _ _ _ (wf_heap _ Hw)) as Hok. pose proof Hi as Hdrop.
  apply list_split_at in Hdrop. rewrite Hdrop, Forall_app, Forall_cons in Hok. destruct Hok as (HL&Hnd&_).
  pose proof (node_bytes_length _ _ _ Hnd) as Hz. pose proof (chain_bytes_length _ _ _ HL) as HzL.
  pose proof (wf_used_nonneg _ Hw). unfold st_content, content, zdrop. rewrite lookup_drop.
  rewrite Hdrop at 1. rewrite chain_bytes_app, chain_bytes_cons. rewrite lookup_app_r by lia. rewrite lookup_app_l by lia.
  f_equal. lia.
Qed.

Lemma vstr_export_chr_spec s pos :
  wf s → 1 ≤ pos ≤ b_len (s_base s) →
  wp (vstr_export_chr pos) s (λ r s', only_pos s s' ∧ wf s' ∧
    ∃ x, st_content s !! Z.to_nat (pos - 1) = Some x ∧ r = chr_val x).
Proof.
  intros Hw Hpos. unfold vstr_export_chr. wp_step. wp_apply vstr_base__pos_spec; [done|lia|].
  intros [[i off] num] s1 (Hat&Hpc&Hw1). assert (HO : only_pos s s1) by done.
  destruct (only_pos_same _ _ HO) as (Eh&Ec&En&Eu&El&_). destruct Hat as (nd&Hi&Hoff&Hsum). cbn beta iota.
  pose proof (hi_nodes _ _ _ (wf_heap _ Hw)) as Hok. rewrite Forall_lookup in Hok. specialize (Hok _ _ Hi).
  wp_step. unfold node_at. wp_steps. rewrite En. eapply wp_of_option; [exact Hi|]. wp_step.
  rewrite <- Eh in Hok. wp_apply (node_chunk s1 _ nd (off - 1) 1 Hok); [lia|lia|lia|]. intros p s2 [-> Hp].
  pose proof (content_at s i nd off pos Hw Hi Hoff Hsum ltac:(lia)) as Hx. rewrite Eh in Hp.
  assert (Hz : zlen (node_bytes (s_heap s) nd) = nd_len nd) by (rewrite Eh in Hok; by eapply node_bytes_length).
  destruct (node_bytes (s_heap s) nd !! Z.to_nat (off - 1)) as [x|] eqn:Ex; [|apply lookup_ge_None in Ex; lia].
  assert (Hcur : ztake 1 (zdrop (off - 1) (node_bytes (s_heap s) nd)) = [x]).
  { unfold ztake, zdrop. rewrite (drop_S _ _ _ Ex). done. }
  rewrite Hcur in Hp. case_decide.
  - destruct Hp as [-> Hp]. wp_steps. split; [done|]. split; [done|]. exists x. split; [done|].
    cbn in Hp. by injection Hp as ->.
  - destruct Hp as (q&bs&->&Hld&Hbs). destruct bs as [|c [|]]; try done. injection Hbs as ->.
    wp_step. unfold mem_load. wp_steps. rewrite Eh. eapply wp_of_option; [exact Hld|]. eapply wp_of_option; [done|].
    split; [done|]. split; [done|]. by exists (Some c).
Qed.

(** ** The parts of an address *)
Definition octet_chrs (n : Z) : list Z := num_chrs 10 n.
Lemma octet_chrs_len n : 0 ≤ n ≤ 255 → 1 ≤ zlen (octet_chrs n) ≤ 3.
Proof.
  intros Hn. assert (Hall : Forall (λ k, 1 ≤ zlen (octet_chrs (Z.of_nat k)) ≤ 3) (seq 0 256)).
  { apply Forall_forall. intros k Hk. revert k Hk. apply Forall_forall. apply (bool_decide_unpack _). by vm_compute. }
  rewrite Forall_forall in Hall. specialize (Hall (Z.to_nat n)). rewrite Z2Nat.id in Hall by lia. apply Hall.
  apply elem_of_seq. lia.
Qed.

(** What may come after a part *)
Definition ends_part (ascii : bool) (l : list byte_or_non) : Prop :=
  match l with [] => True | x :: _ => parse_digit ascii 2058 10 (chr_val x) = None end.
Lemma ends_part_number ascii nf l n :
  nf = 2058 ∨ nf = 3082 → ends_part ascii l → ends_number ascii nf 10 (ztake n l).
Proof.
  intros Hnf H. destruct l as [|x l]; [unfold ztake; by rewrite take_nil|]. unfold ztake.
  destruct (Z.to_nat n) as [|k]; [done|]. rewrite firstn_cons. cbn [ends_number]. split; [|by left; destruct Hnf; subst].
  by destruct Hnf; subst.
Qed.
Lemma parse_digit_zero ascii : parse_digit ascii 2058 10 0x30 = Some 0.
Proof. by destruct ascii. Qed.

Section part.
Context (ascii : bool) (s0 : St) (pos len nf : Z).
Local Abbreviation whole := (substr pos len (st_content s0)).
Hypothesis Hw0 : wf s0.
Hypothesis Hr : in_range s0 pos len.
Hypothesis Hfit : range_fits pos len.
Hypothesis Hnf : nf = 2058 ∨ nf = 3082.

Lemma parse_zero_part s l :
  still s0 s → whole = Some 0x30 :: l → l ≠ [] → ends_part ascii l →
  wp (vstr_parse_uint ascii pos len nf) s (λ r s', still s0 s' ∧ ∃ err, r = (0, 1, err)).
Proof.
  intros Hs E Hl Hend. destruct l as [|y l]; [done|]. cbn in Hend. pose proof (substr_length _ _ _ Hw0 Hr) as Hwl.
  assert (Hy : y ≠ Some 0x30) by (intros ->; cbn in Hend; by rewrite parse_digit_zero in Hend).
  assert (Hf : Z.land nf VSTR__MASK_PARSE_NUM_BASE = 10) by (by destruct Hnf; subst).
  assert (Hsp : flag nf VSTR_FLAG_PARSE_NUM_SPACE = false) by (by destruct Hnf; subst).
  unfold vstr_parse_uint, parse_num_ufunc. wp_step.
  eapply (parse_num_beg_eq s0 pos len nf 10 Hw0 Hr Hfit Hf ltac:(lia) Hsp s [] (Some 0x30) (y :: l)); try done; [by left|].
  intros s1 Hs1. assert (Hlen : 2 ≤ len) by (rewrite <- Hwl, E; cbn [length]; lia).
  eapply wp_mono; [apply (parse_num_zeros_ten s0 pos len nf 10 Hw0 Hr Hfit Hf ltac:(lia) Hsp s1 0 _ Hs1 ltac:(lia) y l eq_refl); [|done]|].
  { by rewrite zdrop_0 by lia. }
  intros b s2 [Hs2 Hb]. destruct (flag nf VSTR_FLAG_PARSE_NUM_NO_BEG_ZERO).
  - destruct Hb as [Hb1 Hb2]. rewrite Hb1, decide_False, decide_True by done. wp_steps. split; [done|].
    exists (nb_err b). rewrite Hb2. do 2 f_equal. cbn [length]. lia.
  - subst b. cbn [nb_base nb_neg]. rewrite !decide_False by done. change (is_minus []) with false. cbv iota. wp_step.
    assert (Hloc : flag nf VSTR_FLAG_PARSE_NUM_LOCAL = false) by (by destruct Hnf; subst).
    assert (Ez : zdrop (zlen ([] : list Z) + 1) whole = (Some <$> []) ++ y :: l) by (by rewrite E).
    eapply wp_mono; [eapply (parse_num_digits_eq ascii s0 pos len nf 10 32) with (i := 0 + 1) (cs := []) (ds := []) (rest := y :: l); try done|].
    + lia.
    + apply (ends_part_number ascii nf (y :: l) (zlen (y :: l))) in Hend; [|done]. by rewrite ztake_all in Hend by reflexivity.
    + intros r s3 [Hs3 ->]. wp_steps. split; [done|]. eexists. do 2 f_equal. apply (f_equal (λ l, zlen l)) in E.
      rewrite !length_cons in *. lia.
Qed.
End part.

(** ** Addresses *)
Section address.
Context (ascii : bool) (s0 : St) (pos len nf : Z).
Local Abbreviation whole := (substr pos len (st_content s0)).
Hypothesis Hw0 : wf s0.
Hypothesis Hr : in_range s0 pos len.
Hypothesis Hfit : range_fits pos len.
Hypothesis Hnf : Z.lor 10 nf = 2058 ∨ Z.lor 10 nf = 3082.

Lemma parse_part_spec s i n l :
  still s0 s → 0 ≤ i → zdrop i whole = (Some <$> octet_chrs n) ++ l → 0 ≤ n ≤ 255 → ends_part ascii l →
  wp (vstr_parse_uint ascii (pos + i) (Z.min 3 (len - i)) (Z.lor 10 nf)) s (λ r s',
    still s0 s' ∧ ∃ err, r = (n, zlen (octet_chrs n), err)).
Proof.
  intros Hs Hi E Hn Hend. pose proof (octet_chrs_len n Hn) as Hol. pose proof (substr_length _ _ _ Hw0 Hr) as Hwl.
  assert (Hl : len - i = zlen (octet_chrs n) + zlen l).
  { apply (f_equal (λ l, zlen l)) in E. rewrite length_zdrop, length_app, length_fmap in E. lia. }
  set (m := Z.min 3 (len - i)). destruct (still_range s0 pos len Hr s i m) as [Hir Hsub]; [done|lia|lia|lia|].
  rewrite E, ztake_app_r in Hsub by (rewrite length_fmap; lia). rewrite length_fmap in Hsub.
  assert (Hfit' : range_fits (pos + i) m) by (unfold range_fits in *; lia).
  assert (Hws : wf s) by apply Hs. assert (Hss : still s s) by (split; [apply only_pos_refl|done]).
  set (l' := ztake (m - zlen (octet_chrs n)) l) in *.
  assert (Hend' : ends_number ascii (Z.lor 10 nf) 10 l') by (by apply ends_part_number).
  destruct (decide (n = 0 ∧ l' ≠ [])) as [[-> Hne]|Hn0].
  - eapply wp_mono; [apply (parse_zero_part ascii s (pos + i) m (Z.lor 10 nf) Hws Hir Hfit' Hnf s l'); try done|].
    + unfold l', ztake. destruct l as [|y l]; [by rewrite take_nil|]. by destruct (Z.to_nat _).
    + intros r s1 [[? ?] He]. split; [by eapply still_trans|]. exact He.
  - unfold vstr_parse_uint. eapply wp_mono;
      [eapply (parse_num_ufunc_spec ascii s (pos + i) m (Z.lor 10 nf) 10 32 Hws Hir Hfit') with (sg := []) (n := n) (rest := l')|];
      try done; try lia.
    all: try by (destruct Hnf as [-> | ->]).
    + by left.
    + destruct (decide (n = 0)) as [->|]; [|left; lia]. right. split; [done|]. destruct l'; [done|]. exfalso. by apply Hn0.
    + intros r s1 [[? ?] ->]. split; [by eapply still_trans|]. eexists. rewrite uwrap_id by lia. done.
Qed.

(** The character at an index of the range *)
Lemma next_is_spec s i c x l :
  still s0 s → 0 ≤ i → zdrop i whole = x :: l →
  wp (next_is c (pos + i) (len - i)) s (λ r s', still s0 s' ∧ r = bool_decide (chr_val x = c)).
Proof.
  intros Hs Hi E. pose proof (substr_length _ _ _ Hw0 Hr) as Hwl. pose proof Hr as (Hp&Hl1&Hle).
  assert (Hl : i < len).
  { apply (f_equal (λ l, zlen l)) in E. rewrite length_zdrop in E. cbn [length] in E. lia. }
  unfold next_is. rewrite decide_False by lia. destruct Hs as [Ho Hws]. destruct (only_pos_same _ _ Ho) as (_&_&_&_&El&_&_&_&Ec).
  wp_step. eapply wp_mono; [apply vstr_export_chr_spec; [done|rewrite El; lia]|].
  intros r s1 (Ho1&Hw1&y&Hy&->). wp_steps. split; [split; [by eapply only_pos_trans|done]|]. rewrite Ec in Hy.
  assert (Hx : whole !! Z.to_nat i = Some x).
  { apply (f_equal (lookup O)) in E. unfold zdrop in E. by rewrite lookup_drop, Nat.add_0_r in E. }
  unfold substr, ztake, zdrop in Hx. rewrite lookup_take_lt, lookup_drop in Hx by lia.
  replace (Z.to_nat (pos - 1) + Z.to_nat i)%nat with (Z.to_nat (pos + i - 1)) in Hx by lia.
  rewrite Hy in Hx. injection Hx as ->. done.
Qed.
Lemma next_is_end s c p : still s0 s → wp (next_is c p 0) s (λ r s', still s0 s' ∧ r = false).
Proof. intros Hs. unfold next_is. rewrite decide_True by done. by wp_steps. Qed.

(** The text of an address *)
Fixpoint ip_chrs (os : list Z) : list Z :=
  match os with [] => [] | [o] => octet_chrs o | o :: os => octet_chrs o ++ 0x2E :: ip_chrs os end.
Lemma ip_chrs_cons o p os : ip_chrs (o :: p :: os) = octet_chrs o ++ 0x2E :: ip_chrs (p :: os).
Proof. done. Qed.
Lemma octet_head n : 0 ≤ n ≤ 255 → ∃ c cs, octet_chrs n = c :: cs ∧ c ≠ 0x2F.
Proof.
  intros Hn. destruct (digits_spec 10 ltac:(lia) n ltac:(lia)) as (_&Hds&d&ds&E&_). unfold octet_chrs, num_chrs. rewrite E in *.
  inversion Hds; subst. exists (digit_chr d), (digit_chr <$> ds). split; [done|]. unfold digit_chr. case_decide; lia.
Qed.
Lemma ip_head o os : 0 ≤ o ≤ 255 → ∃ c cs, ip_chrs (o :: os) = c :: cs ∧ c ≠ 0x2F.
Proof.
  intros Ho. destruct (octet_head o Ho) as (c&cs&E&Hc). destruct os as [|p os]; [cbn; eauto|].
  rewrite ip_chrs_cons, E. eexists _, _. done.
Qed.

Lemma parse_ipv4_loop_spec os rest : ∀ s i ips fuel,
  still s0 s → 0 ≤ i → zdrop i whole = (Some <$> ip_chrs os) ++ rest → os ≠ [] → Forall (λ o, 0 ≤ o ≤ 255) os →
  ends_part ascii rest → (length ips + length os = 4)%nat → (length os ≤ fuel)%nat →
  wp (parse_ipv4_loop ascii fuel (pos + i) (len - i) nf ips) s (λ r s',
    still s0 s' ∧ r = inr (pos + (len - zlen rest), zlen rest, ips ++ os)).
Proof.
  pose proof (substr_length _ _ _ Hw0 Hr) as Hwl. pose proof Hr as (Hp&Hl1&Hle). unfold range_fits in Hfit.
  induction os as [|o os IH]; intros s i ips fuel Hs Hi E Hos Hall Hend Hlen Hf; [done|].
  inversion Hall as [|? ? Ho Hall']; subst. destruct fuel as [|fuel]; [cbn in Hf; lia|]. cbn [parse_ipv4_loop].
  pose proof (octet_chrs_len o Ho) as Hol.
  set (tl := match os with [] => rest | _ => Some 0x2E :: (Some <$> ip_chrs os) ++ rest end).
  assert (E' : zdrop i whole = (Some <$> octet_chrs o) ++ tl).
  { rewrite E. unfold tl. destruct os as [|p os]; [done|]. rewrite ip_chrs_cons, fmap_app, <- app_assoc. done. }
  assert (Hlen' : len - i = zlen (octet_chrs o) + zlen tl).
  { apply (f_equal (λ l, zlen l)) in E'. rewrite length_zdrop, length_app, length_fmap in E'. lia. }
  rewrite decide_False by lia. wp_step. eapply wp_mono; [apply (parse_part_spec s i o tl Hs Hi E' Ho)|].
  { unfold tl. destruct os; [done|]. cbn. by destruct ascii. }
  intros r s1 (Hs1&err&->). rewrite decide_False by lia. rewrite decide_False by lia.
  rewrite u64_id by lia. replace (len - i - zlen (octet_chrs o)) with (zlen tl) by lia.
  destruct os as [|p os].
  - unfold tl in *. rewrite decide_True by (rewrite length_app; cbn in Hlen |- *; lia). wp_steps. split; [done|].
    do 3 f_equal. lia.
  - rewrite decide_False by (rewrite length_app; cbn in Hlen |- *; lia).
    set (j := i + zlen (octet_chrs o)). replace (pos + i + zlen (octet_chrs o)) with (pos + j) by lia.
    replace (zlen tl) with (len - j) by lia.
    assert (Ej : zdrop j whole = Some 0x2E :: (Some <$> ip_chrs (p :: os)) ++ rest).
    { unfold j. rewrite <- zdrop_zdrop, E' by lia. by rewrite <- (length_fmap Some), zdrop_app_len. }
    wp_step. eapply wp_mono; [eapply next_is_spec; [exact Hs1|lia|exact Ej]|]. intros r s2 [Hs2 ->].
    rewrite bool_decide_eq_false_2 by done. wp_step.
    eapply wp_mono; [eapply next_is_spec; [exact Hs2|lia|exact Ej]|]. intros r s3 [Hs3 ->].
    rewrite bool_decide_eq_true_2 by done. rewrite decide_False by (intros [_ ?]; done).
    assert (Hj : len - j ≠ 0) by (unfold tl in Hlen'; rewrite length_cons in Hlen'; lia).
    rewrite decide_True by done. rewrite u64_id by lia.
    replace (pos + j + 1) with (pos + (j + 1)) by lia. replace (len - j - 1) with (len - (j + 1)) by lia.
    assert (Ej1 : zdrop (j + 1) whole = (Some <$> ip_chrs (p :: os)) ++ rest).
    { rewrite <- zdrop_zdrop, Ej by lia. done. }
    inversion Hall'; subst. destruct (ip_head p os ltac:(done)) as (c&cs&Ec&Hc).
    assert (Ej2 : zdrop (j + 1) whole = Some c :: (Some <$> cs) ++ rest) by (by rewrite Ej1, Ec).
    wp_step. eapply wp_mono; [eapply next_is_spec; [exact Hs3|lia|exact Ej2]|]. intros r s4 [Hs4 ->].
    rewrite bool_decide_eq_false_2 by (cbn; congruence).
    eapply wp_mono; [apply IH; try done; [lia|rewrite length_app; cbn in Hlen |- *; lia|cbn in Hf |- *; lia]|].
    intros r s5 [Hs5 ->]. split; [done|]. by rewrite <- app_assoc.
Qed.
End address.

Definition ip_flags_ok (flags : Z) : Prop := flag flags VSTR_FLAG_PARSE_IPV4_LOCAL = false.

(** An address of four parts, before something that is not a slash *)
Lemma vstr_parse_ipv4_spec ascii s pos len cidr flags os rest :
  wf s → in_range s pos len → range_fits pos len → ip_flags_ok flags →
  length os = 4%nat → Forall (λ o, 0 ≤ o ≤ 255) os →
  substr pos len (st_content s) = (Some <$> ip_chrs os) ++ rest → ends_part ascii rest → head rest ≠ Some (Some 0x2F) →
  wp (vstr_parse_ipv4 ascii pos len cidr flags) s (reads s (λ r,
    r = mkIpv4 true os ((λ _, 32) <$> cidr) (len - zlen rest)
      (if decide (rest ≠ [] ∧ flag flags VSTR_FLAG_PARSE_IPV4_ONLY = true) then PARSE_IPV4_ERR_ONLY else 0))).
Proof.
  intros Hw Hr Hfit Hfl Hlen Hall E Hend Hslash. pose proof (substr_length _ _ _ Hw Hr) as Hwl.
  assert (Hlr : len = zlen (ip_chrs os) + zlen rest).
  { rewrite <- Hwl, E, length_app, length_fmap, Nat2Z.inj_add. reflexivity. }
  assert (Hdr : zdrop (zlen (ip_chrs os)) (substr pos len (st_content s)) = rest).
  { rewrite E. by rewrite <- (length_fmap Some), zdrop_app_len. }
  unfold vstr_parse_ipv4. rewrite Hfl.
  set (nf := Z.lor VSTR_FLAG_PARSE_NUM_NO_BEG_PM _).
  assert (Hnf : Z.lor 10 nf = 2058 ∨ Z.lor 10 nf = 3082).
  { unfold nf. destruct (flag flags VSTR_FLAG_PARSE_IPV4_ZEROS); [by left|by right]. }
  assert (Hs : still s s) by (split; [apply only_pos_refl|done]).
  assert (Hos : os ≠ []) by (by intros ->). wp_step.
  pose proof (parse_ipv4_loop_spec ascii s pos len nf Hw Hr Hfit Hnf os rest s 0 [] 4 Hs ltac:(lia)) as Hloop.
  rewrite zdrop_0, Z.add_0_r, Z.sub_0_r in Hloop by lia.
  eapply wp_mono; [apply Hloop; try done; cbn; lia|]. intros r s1 [Hs1 ->]. cbn [app].
  rewrite decide_False by (intros [? _]; done). rewrite Hlen.
  replace (os ++ zrep (4 - Z.of_nat 4) 0) with os by (by rewrite app_nil_r).
  assert (Hsl : wp (next_is 0x2F (pos + (len - zlen rest)) (zlen rest)) s1 (λ r s', still s s' ∧ r = false)).
  { destruct rest as [|x rest]; [by apply next_is_end|].
    pose proof (next_is_spec s pos len Hw Hr s1 (zlen (ip_chrs os)) 0x2F x rest Hs1 ltac:(lia) Hdr) as Hn.
    replace (len - zlen (ip_chrs os)) with (zlen (x :: rest)) in Hn by lia.
    replace (len - zlen (x :: rest)) with (zlen (ip_chrs os)) by lia. eapply wp_mono; [exact Hn|].
    intros r s2 [Hs2 ->]. split; [done|]. apply bool_decide_eq_false. intros Hx. apply Hslash. cbn. f_equal.
      destruct x as [c|]; [cbn in Hx; by subst|]. cbn in Hx. done. }
  wp_step. eapply wp_mono; [exact Hsl|]. intros slash s2 [[? ?] ->]. wp_steps. split; [|done].
  f_equal. destruct rest as [|x rest].
  - rewrite !decide_False; [done|by intros [? _]|by intros [? _]].
  - destruct (flag flags VSTR_FLAG_PARSE_IPV4_ONLY); [rewrite !decide_True by (split; [|done]; cbn; done || lia)|
      rewrite !decide_False by (intros [_ ?]; done)]; done.
Qed.

End others.
