(* ===== verification/Demo.v ===== *)
(** * Concrete states: a configuration with four byte buffers, the memory of a
    caller and strings built in it, on which the theorems are instantiated. *)
From Stdlib Require Import ZArith Lia ZifyBool.
From stdpp Require Import base tactics list numbers option gmap.
From S2P Require Import Prelude State Wp Ref Cache Core Base Add Inv PosLemmas SpareLemmas SplitLemmas CacheLemmas AddLemmas StringLemmas AddSpec AddOps AddTheorems BaseTheorems Del DelTheorems World.

Definition demo_conf : Vstr_conf :=
  mkConf (mkSpare [] 0) (mkSpare [] 0) (mkSpare [] 0) (mkSpare [] 0) 4 8 1 false false.

(** Memory of the caller: "abcdefghij" at address 10 and a reference 11 to it *)
Definition demo_heap : heap :=
  mkHeap {[ 10%positive := [97; 98; 99; 100; 101; 102; 103; 104; 105; 106] ]}
         {[ 11%positive := mkRef vstr_ref_cb_free_nothing (Ptr 10 0) 1 ]} 20 [].

Definition run {A} (m : M A) (s : St) : St := match m s with Some (_, s') => s' | None => s end.

Definition demo0 : St :=
  run (make_base GRPALLOC_CSTR None) (mkSt demo_heap demo_conf (empty_base GRPALLOC_NONE (mkCache None None None))).

Lemma demo_heap_inv : heap_inv demo_heap demo_conf [].
Proof.
  split; cbn; try done; try by constructor.
  - intros []; done.
  - intros a [x Hx]. apply lookup_singleton_Some in Hx as [<- _]. done.
  - intros r [x Hx]. apply lookup_singleton_Some in Hx as [<- _]. done.
  - intros nd p Hnd. by apply elem_of_nil in Hnd.
  - intros r ref [<- <-]%lookup_singleton_Some _. split; [done|]. intros blk Hblk. done.
  - by intros r1 r2 ref1 ref2 blk [<- <-]%lookup_singleton_Some [<- <-]%lookup_singleton_Some.
  - by intros a Ha%nobody_guarded.
Qed.

Lemma run_wp {A} (m : M A) s (P : St → Prop) : wp m s (λ _ s', P s') → P (run m s).
Proof. unfold wp, run. by destruct (m s) as [[a s']|]. Qed.

Lemma demo0_wf : wf demo0.
Proof.
  assert (H : wp (make_base GRPALLOC_CSTR None) (mkSt demo_heap demo_conf (empty_base GRPALLOC_NONE (mkCache None None None)))
    (make_post GRPALLOC_CSTR (mkSt demo_heap demo_conf (empty_base GRPALLOC_NONE (mkCache None None None))))).
  { apply make_base_spec; [apply demo_heap_inv|done]. }
  unfold demo0, run, wp in *. vm_compute in H. vm_compute. apply H.
Qed.

(** [room] is decided by looking at every reference. *)
Definition room_check (n k : Z) (s : St) : bool :=
  bool_decide (zlen (own (s_conf s) (b_nodes (s_base s))) + n ≤ UINT_MAX) &&
  forallb (λ p, bool_decide (r_ref p.2 + k ≤ UINT_MAX)) (map_to_list (h_refs (s_heap s))).
Lemma room_check_sound n k s : room_check n k s = true → room n k s.
Proof.
  unfold room_check. intros [H1%bool_decide_eq_true H2]%andb_prop. split; [unfold o_num; change (size o_own) with 0%nat; lia|].
  intros r ref Hr. rewrite forallb_forall in H2. apply elem_of_map_to_list in Hr.
  apply list_elem_of_In in Hr. specialize (H2 _ Hr). by apply bool_decide_eq_true in H2.
Qed.

(** "abcdef" in two BUF nodes *)
Definition demo1 : St := run (vstr_add_buf 0 (Ptr 10 0) 6) demo0.

Lemma add_post_wf s pos d ok s' : wf s → add_post s pos d ok s' → wf s'.
Proof. unfold add_post. intros Hw. case_decide; [by intros [_ ->]|tauto]. Qed.

Lemma demo1_wf : wf demo1.
Proof.
  apply (run_wp (vstr_add_buf 0 (Ptr 10 0) 6) demo0 wf). change 6 with (zlen (Some <$> [97; 98; 99; 100; 101; 102] : list byte_or_non)).
  eapply wp_mono; [apply vstr_add_buf_spec|].
  - apply demo0_wf.
  - lia.
  - exists [97; 98; 99; 100; 101; 102]. split; [done|]. split; [by vm_compute|].
    apply (bool_decide_unpack _). by vm_compute.
  - apply room_check_sound. by vm_compute.
  - intros ok s' H. eapply add_post_wf; [apply demo0_wf|exact H].
Qed.
Example demo1_content : st_content demo1 = Some <$> [97; 98; 99; 100; 101; 102].
Proof. by vm_compute. Qed.

Lemma del_post_wf s pos len ok s' : wf s → del_post s pos len ok s' → wf s'.
Proof. unfold del_post. intros Hw. case_decide; [by intros [_ ->]|tauto]. Qed.

(** "abc", two characters of NON data, "def" *)
Definition demo2 : St := run (vstr_add_non 3 2) demo1.
Lemma demo2_wf : wf demo2.
Proof.
  apply (run_wp (vstr_add_non 3 2) demo1 wf). eapply wp_mono; [apply vstr_add_non_spec|].
  - apply demo1_wf.
  - lia.
  - lia.
  - apply room_check_sound. by vm_compute.
  - intros ok s' H. eapply add_post_wf; [apply demo1_wf|exact H].
Qed.
Example demo2_content :
  st_content demo2 = (Some <$> [97; 98; 99]) ++ [None; None] ++ (Some <$> [100; 101; 102]).
Proof. by vm_compute. Qed.

(** A world with [demo2] as its string 0 *)
Definition demo_world : World :=
  mkWorld (s_heap demo2) {[ 0%nat := s_conf demo2 ]} {[ 0%nat := (0%nat, s_base demo2) ]} ∅.
Lemma demo_world_0 : st_of demo_world 0%nat = Some demo2.
Proof. by vm_compute. Qed.

(** "bcdef", with one used up byte in the first node *)
Definition demo3 : St := run (vstr_del 1 1) demo1.
Lemma demo3_wf : wf demo3.
Proof.
  apply (run_wp (vstr_del 1 1) demo1 wf). eapply wp_mono; [apply vstr_del_spec|].
  - apply demo1_wf.
  - split_and!; by vm_compute.
  - apply room_check_sound. by vm_compute.
  - intros ok s' H. eapply del_post_wf; [apply demo1_wf|exact H].
Qed.
Example demo3_content : st_content demo3 = Some <$> [98; 99; 100; 101; 102].
Proof. by vm_compute. Qed.
Example demo3_used : b_used (s_base demo3) = 1.
Proof. by vm_compute. Qed.

(** The memory of the caller, as the operations want it *)
Lemma demo1_src d : d = Some <$> [97; 98] → buf_src (s_heap demo1) (st_own demo1) (Ptr 10 0) d.
Proof. intros ->. exists [97; 98]. split; [done|]. split; [by vm_compute|]. apply (bool_decide_unpack _). by vm_compute. Qed.
Lemma demo1_stays owner blk : stays (s_heap demo1) owner blk.
Proof.
  split; [by cbn; set_solver|]. intros r ref Hr _ Hf. assert (h_refs (s_heap demo1) = h_refs demo_heap) as E by by vm_compute.
  rewrite E in Hr. unfold demo_heap in Hr. cbn [h_refs] in Hr. by apply lookup_singleton_Some in Hr as [<- <-].
Qed.

(** A string with a text, added at its end character by character *)
Fixpoint demo_add (l : list Z) (s : St) : St :=
  match l with [] => s | c :: l => demo_add l (run (vstr_add_rep_chr (b_len (s_base s)) c 1) s) end.
Fixpoint demo_add_check (l : list Z) (s : St) : bool :=
  match l with
  | [] => true
  | c :: l => let n := 1 + nodes_needed (op_max add_rep_chr_op (s_conf s)) 1 in
              room_check n n s && demo_add_check l (run (vstr_add_rep_chr (b_len (s_base s)) c 1) s)
  end.
Lemma demo_add_wf l : ∀ s, wf s → demo_add_check l s = true → wf (demo_add l s).
Proof.
  induction l as [|c l IH]; intros s Hw Hc; [done|]. cbn [demo_add demo_add_check] in *.
  apply andb_true_iff in Hc as [Hroom Hc]. apply IH; [|done].
  apply (run_wp (vstr_add_rep_chr (b_len (s_base s)) c 1) s wf). eapply wp_mono; [apply vstr_add_rep_chr_spec|].
  - done.
  - by apply wf_len_nonneg.
  - done.
  - by apply room_check_sound.
  - intros ok s' H. by eapply add_post_wf.
Qed.
Definition demo_text (l : list Z) : St := demo_add l demo0.
Lemma demo_text_wf l : demo_add_check l demo0 = true → wf (demo_text l).
Proof. apply demo_add_wf, demo0_wf. Qed.
