(* ===== verification/WorldDemo.v ===== *)
(** * A concrete world: one configuration, the memory of Demo and two strings,
    "abcdef" and the empty one. *)
From Stdlib Require Import ZArith Lia ZifyBool.
From stdpp Require Import base tactics list numbers option gmap.
From S2P Require Import Prelude State Wp Ref Cache Core Base Add Inv PosLemmas SpareLemmas SplitLemmas CacheLemmas AddLemmas StringLemmas AddSpec AddOps AddTheorems BaseTheorems Del DelTheorems Edits Frame World WorldInv AddVstr AddVstrSpec Life LifeSpec WorldOps Demo.

Definition wrun {A} (m : W A) (w : World) : World := match m w with Some (_, w') => w' | None => w end.
Lemma wrun_wwp {A} (m : W A) w (P : World → Prop) : wwp m w (λ _ w', P w') → P (wrun m w).
Proof. unfold wwp, wrun. by destruct (m w) as [[a w']|]. Qed.

Definition demo_life : conf_life := mkLife 1 1 GRPALLOC_CSTR false [] 0.
Definition demo_w0 : World := mkWorld demo_heap {[ 0%nat := demo_conf ]} ∅ {[ 0%nat := demo_life ]}.
Definition demo_w1 : World := wrun (vstr_make_base 0) demo_w0.
Definition demo_w2 : World := wrun (vstr_make_base 0) demo_w1.
Definition demo_text_w : list Z := [97; 98; 99; 100; 101; 102].

Definition world_ok (w : World) : Prop := world_inv w ∧ lives_inv w.
Lemma demo_w0_ok : world_ok demo_w0.
Proof.
  pose proof demo_heap_inv as H. apply heap_inv_shared in H as (Hc&_&Hs). split.
  - split.
    + intros c conf Hcc. cbn in Hcc. apply lookup_singleton_Some in Hcc as [_ <-]. exact Hc.
    + intros k c b Hk. cbn in Hk. by apply lookup_empty_Some in Hk.
    + exact Hs.
  - intros c. cbn. rewrite !lookup_singleton. case_decide; [|done]. split; try done; try by constructor.
Qed.
Lemma make_base_world w c : world_ok w →
  match w_confs w !! c, w_lives w !! c with Some _, Some l => bool_decide (cl_ref l + 1 ≤ UINT_MAX) | _, _ => false end = true →
  world_ok (wrun (vstr_make_base c) w).
Proof.
  intros [Hw HL] H. destruct (w_confs w !! c) as [conf|] eqn:Ec; [|done]. destruct (w_lives w !! c) as [l|] eqn:El; [|done].
  apply bool_decide_eq_true in H. apply wrun_wwp. eapply wwp_mono; [by eapply vstr_make_base_spec|].
  intros [k|] w'; [by intros (?&?&_)|by intros (?&?&_)].
Qed.
Lemma demo_w2_ok : world_ok demo_w2.
Proof. apply make_base_world; [apply make_base_world; [apply demo_w0_ok|]|]; by vm_compute. Qed.

(** Room in a world is decided like room for a string. *)
Definition world_room_check (n k : Z) (w : World) : bool :=
  bool_decide (zlen (owned w) + n ≤ UINT_MAX) &&
  forallb (λ p, bool_decide (r_ref p.2 + k ≤ UINT_MAX)) (map_to_list (h_refs (w_heap w))).
Lemma world_room_check_sound n k w : world_room_check n k w = true → world_room n k w.
Proof.
  unfold world_room_check. intros [H1%bool_decide_eq_true H2]%andb_prop.
  split; [unfold o_num; change (size o_own) with 0%nat; lia|].
  intros r ref Hr. rewrite forallb_forall in H2. apply elem_of_map_to_list in Hr.
  apply list_elem_of_In in Hr. specialize (H2 _ Hr). by apply bool_decide_eq_true in H2.
Qed.
(** Edits whose conditions can be evaluated *)
Definition edit_check (w : World) (k : nat) (e : edit) : bool :=
  match st_of w k with
  | None => false
  | Some s =>
    match e with
    | Add_buf pos p d => bool_decide (0 ≤ pos) && bool_decide (load (h_mem (s_heap s)) p (zlen d) = Some d) &&
        bool_decide (p_blk p ∉ st_own s) &&
        world_room_check (add_needs add_buf_op (zlen d) s) (add_needs add_buf_op (zlen d) s) w
    | Add_rep_chr pos _ n => bool_decide (0 ≤ pos) && bool_decide (0 ≤ n) &&
        world_room_check (add_needs add_rep_chr_op n s) (add_needs add_rep_chr_op n s) w
    | Add_non pos n => bool_decide (0 ≤ pos) && bool_decide (0 ≤ n) &&
        world_room_check (add_needs add_non_op n s) (add_needs add_non_op n s) w
    | Delete pos len => bool_decide (1 ≤ pos) && bool_decide (1 ≤ len) && bool_decide (pos + len ≤ VSTR_MAX_NODE_BUF) &&
        world_room_check 1 1 w
    | _ => false
    end
  end.
Fixpoint world_edits_check (es : list (nat * edit)) (w : World) : bool :=
  match es with
  | [] => true
  | (k, e) :: es => edit_check w k e &&
      match on_string k (edit_run e) w with Some (_, w') => world_edits_check es w' | None => false end
  end.
Lemma world_check_room w k s n : world_inv w → st_of w k = Some s → world_room_check n n w = true →
  room (OT := world_others w k) n n s.
Proof. intros Hw Hs H%world_room_check_sound. by eapply (world_string_room (OT := nobody)) in H; [|done|exact Hs]. Qed.
Lemma edit_check_ok w k e : world_inv w → edit_check w k e = true → world_edit_ok w k e.
Proof.
  intros Hw H. unfold edit_check in H. destruct (st_of w k) as [s|] eqn:Hs; [|done]. exists s. split; [done|].
  destruct e; try done; cbn [edit_ok].
  - apply andb_prop in H as [[[H1 H2]%andb_prop H3]%andb_prop H4]. apply bool_decide_eq_true in H1, H2, H3.
    split_and!; [done|by exists d|by apply world_check_room].
  - apply andb_prop in H as [[H1 H2]%andb_prop H3]. apply bool_decide_eq_true in H1, H2.
    split_and!; [done|done|by apply world_check_room].
  - apply andb_prop in H as [[H1 H2]%andb_prop H3]. apply bool_decide_eq_true in H1, H2.
    split_and!; [done|done|by apply world_check_room].
  - apply andb_prop in H as [[[H1 H2]%andb_prop H3]%andb_prop H4]. apply bool_decide_eq_true in H1, H2, H3.
    split; [|by apply world_check_room]. unfold del_range_ok, VSTR_MAX_NODE_BUF, SIZE_MAX in *. lia.
Qed.
Lemma world_edits_check_ok es : ∀ w, world_inv w → world_edits_check es w = true → world_edits_ok es w.
Proof.
  induction es as [|[k e] es IH]; intros w Hw H; [done|]. cbn [world_edits_check world_edits_ok] in *.
  apply andb_prop in H as [He H]. pose proof (edit_check_ok w k e Hw He) as Hok. split; [done|].
  pose proof (world_edit_spec w k e Hw Hok) as HS. intros ok w' E. unfold wwp in HS. rewrite E in H, HS.
  apply IH; [apply HS|done].
Qed.
Lemma world_edits_check_inv es : ∀ w, world_inv w → world_edits_check es w = true →
  world_inv (wrun (world_edits_run es) w).
Proof.
  intros w Hw H. apply wrun_wwp. eapply wwp_mono; [apply world_edits_spec; [done|by apply world_edits_check_ok]|].
  by intros oks w' (?&_).
Qed.

Definition demo_fill : list (nat * edit) := [(0%nat, Add_buf 0 (Ptr 10 0) demo_text_w)].
Definition demo_w3 : World := wrun (world_edits_run demo_fill) demo_w2.
Lemma demo_w3_inv : world_inv demo_w3.
Proof. apply world_edits_check_inv; [apply demo_w2_ok|by vm_compute]. Qed.
Example demo_w3_strings : strings demo_w3 = <[1%nat := []]> {[ 0%nat := Some <$> demo_text_w ]}.
Proof. by vm_compute. Qed.

Definition demo_string (k : nat) (w : World) : St := default demo0 (st_of w k).
Lemma demo_string_0 : st_of demo_w3 0%nat = Some (demo_string 0 demo_w3).
Proof. by vm_compute. Qed.
Lemma demo_string_1 : st_of demo_w3 1%nat = Some (demo_string 1 demo_w3).
Proof. by vm_compute. Qed.
Lemma demo_string_0_no_cstr : no_cstr (s_base (demo_string 0 demo_w3)).
Proof. vm_compute. by left. Qed.

(** ** Sequences of operations whose conditions can be evaluated *)
Definition no_conv : nat → Z → Z → W bool := λ _ _ _, mret false.
Definition no_all_ref : nat → Z → nat → Z → Z → W bool := λ _ _ _ _ _, mret false.
Definition lives_check (w : World) : bool :=
  forallb (λ p, bool_decide (cl_spare_base_num p.2 + 1 ≤ UINT_MAX)) (map_to_list (w_lives w)).
Lemma lives_check_ok w : lives_check w = true → ∀ c l, w_lives w !! c = Some l → cl_spare_base_num l + 1 ≤ UINT_MAX.
Proof.
  unfold lives_check. rewrite forallb_forall. intros H c l Hl. apply elem_of_map_to_list in Hl.
  apply list_elem_of_In in Hl. specialize (H _ Hl). by apply bool_decide_eq_true in H.
Qed.
Definition op_check (w : World) (o : world_op) : bool :=
  match o with
  | Op_make c => match w_confs w !! c, w_lives w !! c with
      | Some _, Some l => bool_decide (cl_ref l + 1 ≤ UINT_MAX) | _, _ => false end
  | Op_free k => bool_decide (is_Some (st_of w k)) && lives_check w
  | Op_edit k e => edit_check w k e
  | Op_add_vstr base pos from from_pos len _ => match st_of w base, st_of w from with
      | Some s, Some t => bool_decide (base ≠ from) && bool_decide (0 ≤ pos) && bool_decide (1 ≤ from_pos) &&
          bool_decide (0 ≤ len) && bool_decide (from_pos + len - 1 ≤ b_len (s_base t)) &&
          bool_decide (b_len (s_base s) + len ≤ VSTR_MAX_NODE_ALL) && world_room_check (3 * len + 1) (3 * len + 1) w
      | _, _ => false end
  | Op_use_conf c => match w_lives w !! c with Some l => bool_decide (cl_ref l + 1 ≤ UINT_MAX) | None => false end
  | Op_free_conf c => match w_lives w !! c with Some l => bool_decide (0 < cl_user_ref l) | None => false end
  end.
Fixpoint ops_check (os : list world_op) (w : World) : bool :=
  match os with
  | [] => true
  | o :: os => op_check w o && match op_run no_conv no_all_ref o w with Some (_, w') => ops_check os w' | None => false end
  end.
Lemma op_check_ok w o : world_inv w → op_check w o = true → op_ok w o.
Proof.
  intros Hw H. destruct o as [c|k|k e|base pos from from_pos len copy|c|c]; cbn [op_check op_ok] in *.
  - destruct (w_confs w !! c) as [conf|]; [|done]. destruct (w_lives w !! c) as [l|]; [|done].
    apply bool_decide_eq_true in H. by exists conf, l.
  - apply andb_prop in H as [H1%bool_decide_eq_true H2]. split; [done|by apply lives_check_ok].
  - by apply edit_check_ok.
  - destruct (st_of w base) as [s|] eqn:Hs; [|done]. destruct (st_of w from) as [t|] eqn:Ht; [|done].
    apply andb_prop in H as [[[[[[H1 H2]%andb_prop H3]%andb_prop H4]%andb_prop H5]%andb_prop H6]%andb_prop H7].
    apply bool_decide_eq_true in H1, H2, H3, H4, H5, H6. exists s, t. split_and!; try done; [by left|by apply world_room_check_sound].
  - destruct (w_lives w !! c) as [l|]; [|done]. apply bool_decide_eq_true in H. by exists l.
  - destruct (w_lives w !! c) as [l|]; [|done]. apply bool_decide_eq_true in H. by exists l.
Qed.
Lemma ops_check_ok os : ∀ w, library_inv w → ops_check os w = true → ops_ok no_conv no_all_ref os w.
Proof.
  induction os as [|o os IH]; intros w Hw H; [done|]. cbn [ops_check ops_ok] in *.
  apply andb_prop in H as [Ho H]. pose proof (op_check_ok w o (proj1 Hw) Ho) as Hok. split; [done|].
  pose proof (op_run_spec no_conv no_all_ref w o Hw Hok) as HS. intros r w' E. unfold wwp in HS. rewrite E in H, HS.
  apply IH; [apply HS|done].
Qed.
Lemma ops_check_inv os w : library_inv w → ops_check os w = true → library_inv (wrun (ops_run no_conv no_all_ref os) w).
Proof.
  intros Hw H. apply wrun_wwp. eapply wwp_mono; [apply ops_run_spec; [done|by apply ops_check_ok]|].
  by intros rs w' (?&_).
Qed.
Lemma demo_w0_library : library_inv demo_w0.
Proof.
  split; [apply demo_w0_ok|]. split; [apply demo_w0_ok|]. intros k c b Hk. cbn in Hk. by apply lookup_empty_Some in Hk.
Qed.
Lemma demo_w3_library : library_inv demo_w3.
Proof.
  replace demo_w3 with (wrun (ops_run no_conv no_all_ref [Op_make 0; Op_make 0; Op_edit 0 (Add_buf 0 (Ptr 10 0) demo_text_w)]) demo_w0).
  - apply ops_check_inv; [apply demo_w0_library|by vm_compute].
  - by vm_compute.
Qed.
