(* ===== verification/SrchTheorems.v ===== *)
(** * The functions that read strings: spans, searches and comparisons.

    The searches for buffers and for strings. *)
From Stdlib Require Import ZArith Lia ZifyBool.
From stdpp Require Import base tactics list numbers option gmap.
From S2P Require Import Prelude State Wp Ref Cache Core Add Del Base Inv PosLemmas SpareLemmas SplitLemmas CacheLemmas AddLemmas StringLemmas AddSpec AddOps AddTheorems BaseTheorems DelLemmas DelSpec DelTheorems Edits Iter IterLemmas Spn IovecSpec SpnSpec SpnTheorems World Cmp CmpSpec Srch SrchSpec SrchRev SrchCase Demo.

(** [m] reads the string and returns [r]. *)
Definition reads_as {A} (m : M A) (s : St) (r : A) : Prop := ∃ s', m s = Some (r, s') ∧ only_pos s s' ∧ wf s'.
Lemma reads_as_wp {A} (m : M A) s (r : A) : wp m s (λ x s', x = r ∧ only_pos s s' ∧ wf s') → reads_as m s r.
Proof. intros H. apply wp_run in H as (x&s'&E&->&H). by exists s'. Qed.

(** Strings for the instances: [demo1] has an I/O vector, [demo2] does not. *)
Lemma demo1_range pos len : 1 ≤ pos ∧ 1 ≤ len ∧ pos + len - 1 ≤ 6 → in_range demo1 pos len.
Proof. done. Qed.
Lemma demo1_rev_ok : rev_ok demo1.
Proof.
  intros _. split.
  - intros _. eexists _, _. split; [by vm_compute|]. split; [by vm_compute|]. split; [done|].
    intros i e He. destruct i as [|[|i]]; vm_compute in He |- *; congruence.
  - intros data i nd Hd _ Hn. vm_compute in Hd. injection Hd as <-. done.
Qed.

(** ** Spans *)

(** Where the code is right backwards: without an I/O vector, or when the one
    that is there was just made or checked. *)
Lemma rev_ok_no_vector s : iovec_upto_date (s_base s) = false → rev_ok s.
Proof. unfold rev_ok. by intros ->. Qed.
(** It does not hold always: adding several nodes at position 0 in front of a
    vector with an offset puts their entries into the wrong order
    (src/vstr_add.c, line 68).  "zzzzzzzzzzzz" with a vector, without its
    first eight characters and with "abcdefgh" in front: 'a' is found at 5,
    "ab" too, and of the 8 characters at the end that are in "zefgh" 4 are. *)
Definition stale_vector : option St :=
  snd <$> (vstr_add_rep_chr 0 122 12;; vstr__cache_iovec_valid;; vstr_del 1 8;; vstr_add_buf 0 (Ptr 10 0) 8) demo0.
Definition in_stale {A} (m : M A) : option A := s ← stale_vector; fst <$> m s.
Example rev_stale_vector :
  st_content <$> stale_vector = Some (Some <$> [97; 98; 99; 100; 101; 102; 103; 104; 122; 122; 122; 122]) ∧
  in_stale (vstr_srch_chr_fwd 1 12 97) = Some 1 ∧ in_stale (vstr_srch_chr_rev 1 12 97) = Some 5 ∧
  in_stale (vstr_srch_buf_rev 1 12 (Some [97; 98]) 2) = Some 5 ∧
  in_stale (vstr_spn_chrs_rev 1 12 (Some [122; 101; 102; 103; 104])) = Some 4.
Proof. by vm_compute. Qed.

(** C17: the spans of a set of characters (or of NON data, for a NULL set), at
    the start and at the end of the range, and the spans of characters that are
    not in it, are the number of characters before the first, or after the
    last, that ends them; only the remembered position changes.  Forwards this
    holds always.  Backwards it holds over the nodes, when there is no I/O
    vector that is up to date, and over a vector that describes the nodes of
    the string, as one that vstr__cache_iovec_valid has just made does, when
    the remembered node has its own number ([rev_ok]).  Adding several nodes at
    position 0 can leave a vector that does not, see [rev_stale_vector]. *)
Theorem vstr_spans_correct s pos len chrs :
  wf s → in_range s pos len → range_fits pos len →
  let l := substr pos len (st_content s) in
  (reads_as (vstr_spn_chrs_fwd pos len chrs) s (count_while (in_chrs chrs) l) ∧
   reads_as (vstr_cspn_chrs_fwd pos len chrs) s (count_while (negb ∘ in_chrs chrs) l)) ∧
  ((iovec_upto_date (s_base s) = true → vec_describes s ∧ pos_num_ok (s_base s)) →
   reads_as (vstr_spn_chrs_rev pos len chrs) s (count_while (in_chrs chrs) (reverse l)) ∧
   reads_as (vstr_cspn_chrs_rev pos len chrs) s (count_while (negb ∘ in_chrs chrs) (reverse l))).
Proof.
  intros Hw Hr Hf l. split; [|intros Hv]; split; apply reads_as_wp;
    [by apply vstr_spn_chrs_fwd_spec|by apply vstr_cspn_chrs_fwd_spec|by apply vstr_spn_chrs_rev_spec|by apply vstr_cspn_chrs_rev_spec].
Qed.
Lemma vstr_spans_correct_witness :
  let l := substr 2 5 (st_content demo1) in let chrs := Some [98; 99; 102] in
  (reads_as (vstr_spn_chrs_fwd 2 5 chrs) demo1 (count_while (in_chrs chrs) l) ∧
   reads_as (vstr_cspn_chrs_fwd 2 5 chrs) demo1 (count_while (negb ∘ in_chrs chrs) l)) ∧
  reads_as (vstr_spn_chrs_rev 2 5 chrs) demo1 (count_while (in_chrs chrs) (reverse l)) ∧
  reads_as (vstr_cspn_chrs_rev 2 5 chrs) demo1 (count_while (negb ∘ in_chrs chrs) (reverse l)).
Proof.
  intros l chrs. destruct (vstr_spans_correct demo1 2 5 chrs demo1_wf) as [HF HB]; [by vm_compute..|].
  split; [exact HF|]. exact (HB demo1_rev_ok).
Defined.

(** The two ways to find a span at the end agree: over an I/O vector that
    describes the string, and over the nodes from the start. *)
Theorem spn_chrs_rev_fast_slow s pos len chrs :
  wf s → in_range s pos len → vec_describes s → iovec_upto_date (s_base s) = true → pos_num_ok (s_base s) →
  ∃ r s1 s2, vstr__spn_chrs_rev_fast pos len (Some chrs) s = Some (r, s1) ∧
    vstr__spn_chrs_rev_slow pos len (Some chrs) s = Some (r, s2).
Proof.
  intros Hw Hr Hv Hup Hn.
  pose proof (spn_scan_loop_spec false (has_chr chrs) s pos len Hw Hv Hup Hn Hr) as HF.
  pose proof (spn_rev_loop_spec false (has_chr chrs) s pos len Hw Hr) as HS.
  apply wp_run in HF as (r1&s1&H1&->&_). apply wp_run in HS as (r2&s2&H2&->&_). by exists (count_while (span_chr false (has_chr chrs)) (reverse (substr pos len (st_content s)))), s1, s2.
Qed.
Lemma spn_chrs_rev_fast_slow_witness :
  ∃ r s1 s2, vstr__spn_chrs_rev_fast 1 6 (Some [101; 102]) demo1 = Some (r, s1) ∧
    vstr__spn_chrs_rev_slow 1 6 (Some [101; 102]) demo1 = Some (r, s2).
Proof.
  apply (spn_chrs_rev_fast_slow demo1 1 6 [101; 102] demo1_wf);
    [by vm_compute|apply demo1_rev_ok; by vm_compute|by vm_compute|apply demo1_rev_ok; by vm_compute].
Defined.

(** The spans over a table of the 256 characters: in each of the four
    forward functions, and each of the four backward ones, a character counts
    by its entry of the table. *)
Theorem vstr_spn_bmap_correct s pos len bmap val :
  wf s → in_range s pos len →
  let l := substr pos len (st_content s) in
  let eq c := bool_decide (bmap_get bmap c = val) in
  let and c := bool_decide (Z.land (bmap_get bmap c) val ≠ 0) in
  reads_as (vstr_spn_bmap_eq_fwd pos len bmap val) s (count_while (span_chr false eq) l) ∧
  reads_as (vstr_spn_bmap_and_fwd pos len bmap val) s (count_while (span_chr false and) l) ∧
  reads_as (vstr_cspn_bmap_eq_fwd pos len bmap val) s (count_while (span_chr true (negb ∘ eq)) l) ∧
  reads_as (vstr_cspn_bmap_and_fwd pos len bmap val) s (count_while (span_chr true (negb ∘ and)) l) ∧
  reads_as (vstr_spn_bmap_eq_rev pos len bmap val) s (count_while (span_chr false eq) (reverse l)) ∧
  reads_as (vstr_spn_bmap_and_rev pos len bmap val) s (count_while (span_chr false and) (reverse l)) ∧
  reads_as (vstr_cspn_bmap_eq_rev pos len bmap val) s (count_while (span_chr true (negb ∘ eq)) (reverse l)) ∧
  reads_as (vstr_cspn_bmap_and_rev pos len bmap val) s (count_while (span_chr true (negb ∘ and)) (reverse l)).
Proof.
  intros Hw Hr l eq and.
  assert (HF : ∀ non p q, (∀ c, p c = q c) → reads_as (spn_fwd_loop non p pos len) s (count_while (span_chr non q) l)).
  { intros non p q Hpq. pose proof (spn_fwd_loop_spec non p s pos len Hw Hr) as H.
    apply wp_run in H as (r&s'&Hrun&->&?). exists s'. split; [|done]. rewrite Hrun. do 2 f_equal.
    apply count_while_ext. intros [x|] _; [apply Hpq|done]. }
  assert (HR : ∀ non p q, (∀ c, p c = q c) → reads_as (spn_rev_loop non p pos len) s (count_while (span_chr non q) (reverse l))).
  { intros non p q Hpq. pose proof (spn_rev_loop_spec non p s pos len Hw Hr) as H.
    apply wp_run in H as (r&s'&Hrun&->&?). exists s'. split; [|done]. rewrite Hrun. do 2 f_equal.
    apply count_while_ext. intros [x|] _; [apply Hpq|done]. }
  split_and!; first [apply HF|apply HR]; intros c; unfold eq, and; cbn; repeat case_bool_decide; naive_solver.
Qed.
Lemma vstr_spn_bmap_correct_witness :
  let l := substr 2 6 (st_content demo2) in
  let bmap := zrep 98 0 ++ zrep 158 3 in
  let eq c := bool_decide (bmap_get bmap c = 3) in
  let and c := bool_decide (Z.land (bmap_get bmap c) 3 ≠ 0) in
  reads_as (vstr_spn_bmap_eq_fwd 2 6 bmap 3) demo2 (count_while (span_chr false eq) l) ∧
  reads_as (vstr_spn_bmap_and_fwd 2 6 bmap 3) demo2 (count_while (span_chr false and) l) ∧
  reads_as (vstr_cspn_bmap_eq_fwd 2 6 bmap 3) demo2 (count_while (span_chr true (negb ∘ eq)) l) ∧
  reads_as (vstr_cspn_bmap_and_fwd 2 6 bmap 3) demo2 (count_while (span_chr true (negb ∘ and)) l) ∧
  reads_as (vstr_spn_bmap_eq_rev 2 6 bmap 3) demo2 (count_while (span_chr false eq) (reverse l)) ∧
  reads_as (vstr_spn_bmap_and_rev 2 6 bmap 3) demo2 (count_while (span_chr false and) (reverse l)) ∧
  reads_as (vstr_cspn_bmap_eq_rev 2 6 bmap 3) demo2 (count_while (span_chr true (negb ∘ eq)) (reverse l)) ∧
  reads_as (vstr_cspn_bmap_and_rev 2 6 bmap 3) demo2 (count_while (span_chr true (negb ∘ and)) (reverse l)).
Proof. intros l bmap. apply (vstr_spn_bmap_correct demo2 2 6 bmap 3 demo2_wf). by vm_compute. Defined.

(** ** Searches for a character *)

(** C18: the first occurrence of a character in the range, as a position of
    the string, or 0, and the last, where NON data matches nothing.  The first
    is found always.  The last is found by searching forward again and again
    when there is no I/O vector that is up to date, and over a vector that
    describes the nodes of the string, with a remembered node that has its own
    number ([rev_ok]; see [rev_stale_vector] for one that does not). *)
Theorem vstr_srch_chr_correct s pos len c :
  wf s → in_range s pos len → range_fits pos len →
  let l := substr pos len (st_content s) in
  reads_as (vstr_srch_chr_fwd pos len c) s (first_pos (is_chr c) pos l) ∧
  ((iovec_upto_date (s_base s) = true → vec_describes s ∧ pos_num_ok (s_base s)) →
   reads_as (vstr_srch_chr_rev pos len c) s (last_pos (is_chr c) pos l)).
Proof.
  intros Hw Hr Hf l. split; [|intros Hv]; apply reads_as_wp; [by apply vstr_srch_chr_fwd_spec|by apply vstr_srch_chr_rev_spec].
Qed.
Lemma vstr_srch_chr_correct_witness :
  let l := substr 1 5 (st_content demo1) in
  reads_as (vstr_srch_chr_fwd 1 5 98) demo1 (first_pos (is_chr 98) 1 l) ∧
  reads_as (vstr_srch_chr_rev 1 5 98) demo1 (last_pos (is_chr 98) 1 l).
Proof.
  intros l. destruct (vstr_srch_chr_correct demo1 1 5 98 demo1_wf) as [HF HB]; [by vm_compute..|].
  split; [exact HF|]. exact (HB demo1_rev_ok).
Defined.

(** ** Comparisons *)

(** C19: comparing ranges of two strings (or of one string with itself) node
    by node gives what comparing character by character gives, however the
    characters are spread over nodes: the difference of the first bytes that
    differ, NON data below every byte, a prefix below the longer range; no
    string and no memory changes but remembered positions. *)
Theorem vstr_cmp_correct w k1 s1 pos1 len1 k2 s2 pos2 len2 :
  st_of w k1 = Some s1 → st_of w k2 = Some s2 → wf s1 → wf s2 → range_of s1 pos1 len1 → range_of s2 pos2 len2 →
  ∃ r w', vstr_cmp k1 pos1 len1 k2 pos2 len2 w = Some (r, w') ∧
    r = cmp_spec cmp_memcmp (step_bytes id) tt (substr pos1 len1 (st_content s1)) (substr pos2 len2 (st_content s2)) ∧
    world_reads w w'.
Proof. intros. unfold vstr_cmp. apply wwp_run. by apply (cmp_strings_spec cmp_memcmp (CO := memcmp_comparison) w k1 s1 pos1 len1 k2 s2 pos2 len2). Qed.
Lemma vstr_cmp_correct_witness :
  ∃ r w', vstr_cmp 0 1 5 0 4 3 demo_world = Some (r, w') ∧
    r = cmp_spec cmp_memcmp (step_bytes id) tt (substr 1 5 (st_content demo2)) (substr 4 3 (st_content demo2)) ∧
    world_reads demo_world w'.
Proof.
  apply (vstr_cmp_correct demo_world 0 demo2 1 5 0 demo2 4 3 demo_world_0 demo_world_0 demo2_wf demo2_wf);
    (split; [lia|right; by vm_compute]).
Defined.

(** C20: the comparison is an equality test and is antisymmetric: it gives 0
    exactly for equal characters, and the opposite number when the strings
    are exchanged. *)
Theorem vstr_cmp_order w k1 s1 pos1 len1 k2 s2 pos2 len2 :
  st_of w k1 = Some s1 → st_of w k2 = Some s2 → wf s1 → wf s2 → range_of s1 pos1 len1 → range_of s2 pos2 len2 →
  ∃ r w1 w2, vstr_cmp k1 pos1 len1 k2 pos2 len2 w = Some (r, w1) ∧ vstr_cmp k2 pos2 len2 k1 pos1 len1 w = Some (- r, w2) ∧
    (r = 0 ↔ substr pos1 len1 (st_content s1) = substr pos2 len2 (st_content s2)).
Proof.
  intros H1 H2 W1 W2 R1 R2.
  pose proof (cmp_strings_spec cmp_memcmp w k1 s1 pos1 len1 k2 s2 pos2 len2 H1 H2 W1 W2 R1 R2) as A.
  pose proof (cmp_strings_spec cmp_memcmp w k2 s2 pos2 len2 k1 s1 pos1 len1 H2 H1 W2 W1 R2 R1) as B.
  apply wwp_run in A as (r&w1&A&->&_). apply wwp_run in B as (r'&w2&B&->&_). eexists _, w1, w2. split; [exact A|].
  split; [|apply bytes_cmp_eq]. unfold vstr_cmp. rewrite B. do 2 f_equal. apply bytes_cmp_antisym.
Qed.
Lemma vstr_cmp_order_witness :
  ∃ r w1 w2, vstr_cmp 0 1 3 0 6 3 demo_world = Some (r, w1) ∧ vstr_cmp 0 6 3 0 1 3 demo_world = Some (- r, w2) ∧
    (r = 0 ↔ substr 1 3 (st_content demo2) = substr 6 3 (st_content demo2)).
Proof.
  apply (vstr_cmp_order demo_world 0 demo2 1 3 0 demo2 6 3 demo_world_0 demo_world_0 demo2_wf demo2_wf);
    (split; [lia|right; by vm_compute]).
Defined.

(** Comparing without regard to the case of ASCII letters is comparing
    the characters in lower case. *)
Theorem vstr_cmp_case_correct w k1 s1 pos1 len1 k2 s2 pos2 len2 :
  st_of w k1 = Some s1 → st_of w k2 = Some s2 → wf s1 → wf s2 → range_of s1 pos1 len1 → range_of s2 pos2 len2 →
  ∃ r w', vstr_cmp_case k1 pos1 len1 k2 pos2 len2 w = Some (r, w') ∧
    r = cmp_spec cmp_memcmp (step_bytes id) tt (lower_chr <$> substr pos1 len1 (st_content s1))
          (lower_chr <$> substr pos2 len2 (st_content s2)) ∧
    world_reads w w'.
Proof.
  intros. unfold vstr_cmp_case. apply wwp_run. rewrite <- case_cmp_lower.
  by apply (cmp_strings_spec cmp_memcasecmp (CO := memcasecmp_comparison) w k1 s1 pos1 len1 k2 s2 pos2 len2).
Qed.
Lemma vstr_cmp_case_correct_witness :
  ∃ r w', vstr_cmp_case 0 1 5 0 6 3 demo_world = Some (r, w') ∧
    r = cmp_spec cmp_memcmp (step_bytes id) tt (lower_chr <$> substr 1 5 (st_content demo2))
          (lower_chr <$> substr 6 3 (st_content demo2)) ∧ world_reads demo_world w'.
Proof.
  apply (vstr_cmp_case_correct demo_world 0 demo2 1 5 0 demo2 6 3 demo_world_0 demo_world_0 demo2_wf demo2_wf);
    (split; [lia|right; by vm_compute]).
Defined.

(** The comparison of version numbers keeps its state across the nodes:
    its two loops over runs of bytes are one automaton over characters,
    whatever the nodes the digits of a number are spread over. *)
Theorem vstr_cmp_vers_correct w k1 s1 pos1 len1 k2 s2 pos2 len2 :
  st_of w k1 = Some s1 → st_of w k2 = Some s2 → wf s1 → wf s2 → range_of s1 pos1 len1 → range_of s2 pos2 len2 →
  ∃ r w', vstr_cmp_vers k1 pos1 len1 k2 pos2 len2 w = Some (r, w') ∧
    r = cmp_spec cmp_vers vers_step (CMP_NORM, 0) (substr pos1 len1 (st_content s1)) (substr pos2 len2 (st_content s2)) ∧
    world_reads w w'.
Proof. intros. unfold vstr_cmp_vers. apply wwp_run. by apply (cmp_strings_spec cmp_vers (CO := vers_comparison) w k1 s1 pos1 len1 k2 s2 pos2 len2). Qed.
Lemma vstr_cmp_vers_correct_witness :
  ∃ r w', vstr_cmp_vers 0 1 5 0 4 3 demo_world = Some (r, w') ∧
    r = cmp_spec cmp_vers vers_step (CMP_NORM, 0) (substr 1 5 (st_content demo2)) (substr 4 3 (st_content demo2)) ∧
    world_reads demo_world w'.
Proof.
  apply (vstr_cmp_vers_correct demo_world 0 demo2 1 5 0 demo2 4 3 demo_world_0 demo_world_0 demo2_wf demo2_wf);
    (split; [lia|right; by vm_compute]).
Defined.

(** Two places where this comparison is not what Documentation/functions.txt
    says of it.  All data is to be greater than NON data, but behind a 0 the
    string that goes on is the smaller one, whatever follows: "0x" is less than
    "0" and a character without data.  And it is to be like strverscmp, which
    compares bytes as unsigned: here they are signed. *)
Example vers_step_0_non :
  cmp_spec cmp_vers vers_step (CMP_NORM, 0) [Some 48; Some 120] [Some 48; None] = -1 ∧
  cmp_spec cmp_vers vers_step (CMP_NORM, 0) [Some 120] [None] = 1.
Proof. by vm_compute. Qed.
Example vers_step_signed : cmp_spec cmp_vers vers_step (CMP_NORM, 0) [Some 200] [Some 97] < 0.
Proof. by vm_compute. Qed.

(** Comparing a range with a buffer is comparing it with the characters
    of the buffer, where a NULL buffer is NON data. *)
Theorem vstr_cmp_buf_correct s pos len buf buf_len :
  wf s → range_of s pos len → buf_fits buf buf_len →
  ∃ r s', vstr_cmp_buf pos len buf buf_len s = Some (r, s') ∧
    r = cmp_spec cmp_memcmp (step_bytes id) tt (substr pos len (st_content s)) (buf_content buf buf_len) ∧
    only_pos s s' ∧ wf s'.
Proof. intros. unfold vstr_cmp_buf. apply wp_run. by apply (cmp_string_buf_spec cmp_memcmp (CO := memcmp_comparison)). Qed.
Lemma vstr_cmp_buf_correct_witness :
  ∃ r s', vstr_cmp_buf 2 5 (Some [98; 99; 100]) 3 demo1 = Some (r, s') ∧
    r = cmp_spec cmp_memcmp (step_bytes id) tt (substr 2 5 (st_content demo1)) (buf_content (Some [98; 99; 100]) 3) ∧
    only_pos demo1 s' ∧ wf s'.
Proof.
  apply (vstr_cmp_buf_correct demo1 2 5 (Some [98; 99; 100]) 3 demo1_wf).
  - split; [lia|right; by vm_compute].
  - split; [lia|]. by intros bs [= <-].
Defined.

(** C22: the search for a buffer, or for NON data when the buffer is NULL,
    finds the first place of the range where the characters are, however they
    are spread over nodes, and gives 0 when there is none. *)
Theorem vstr_srch_buf_fwd_correct s pos len str str_len :
  wf s → in_range s pos len → range_fits pos len → buf_fits str str_len →
  ∃ r s', vstr_srch_buf_fwd pos len str str_len s = Some (r, s') ∧
    first_occ id (buf_content str str_len) pos (substr pos len (st_content s)) r ∧ only_pos s s' ∧ wf s'.
Proof. intros. apply wp_run. by apply vstr_srch_buf_fwd_spec. Qed.
Lemma vstr_srch_buf_fwd_correct_witness :
  ∃ r s', vstr_srch_buf_fwd 1 6 (Some [99; 100; 101]) 3 demo1 = Some (r, s') ∧
    first_occ id (buf_content (Some [99; 100; 101]) 3) 1 (substr 1 6 (st_content demo1)) r ∧ only_pos demo1 s' ∧ wf s'.
Proof.
  apply (vstr_srch_buf_fwd_correct demo1 1 6 (Some [99; 100; 101]) 3 demo1_wf); [by vm_compute|by vm_compute|].
  split; [done|]. by intros ? [= <-].
Defined.

(** C23: the search backward for a buffer finds the last place of the range
    where it is, when there is no I/O vector that is up to date, where it
    searches forward again and again, and when there is one that describes the
    nodes of the string, where it goes backwards over the vector, with a
    remembered node that has its own number.  Over a vector that does not
    describe the nodes it finds another place, see [rev_stale_vector]. *)
Theorem vstr_srch_buf_rev_correct s pos len str str_len :
  wf s → (iovec_upto_date (s_base s) = true → vec_describes s ∧ pos_num_ok (s_base s)) →
  in_range s pos len → range_fits pos len → buf_fits str str_len → 1 ≤ str_len →
  ∃ r s', vstr_srch_buf_rev pos len str str_len s = Some (r, s') ∧
    last_occ id (buf_content str str_len) pos (substr pos len (st_content s)) r ∧ only_pos s s' ∧ wf s'.
Proof. intros. apply wp_run. by apply vstr_srch_buf_rev_spec. Qed.
Lemma vstr_srch_buf_rev_correct_witness :
  ∃ r s', vstr_srch_buf_rev 2 5 (Some [99; 100; 101]) 3 demo1 = Some (r, s') ∧
    last_occ id (buf_content (Some [99; 100; 101]) 3) 2 (substr 2 5 (st_content demo1)) r ∧ only_pos demo1 s' ∧ wf s'.
Proof.
  apply (vstr_srch_buf_rev_correct demo1 2 5 (Some [99; 100; 101]) 3 demo1_wf demo1_rev_ok); [by vm_compute|by vm_compute| |done].
  split; [done|]. by intros ? [= <-].
Defined.

(** C24: the search for a range of at least two characters of a string, of the
    same one perhaps, finds the first place and the search backward the last;
    the strings keep all but the position they remember.  For a range of one
    character the code does not look at the last position, see
    [vstr_srch_vstr_fwd_last]. *)
Theorem vstr_srch_vstr_correct w k ndl s n pos len ndl_pos ndl_len :
  st_of w k = Some s → st_of w ndl = Some n → wf s → wf n → in_range s pos len → range_fits pos len →
  in_range n ndl_pos ndl_len → 2 ≤ ndl_len →
  (∃ r w', vstr_srch_vstr_fwd k pos len ndl ndl_pos ndl_len w = Some (r, w') ∧ world_reads w w' ∧
    first_occ id (substr ndl_pos ndl_len (st_content n)) pos (substr pos len (st_content s)) r) ∧
  (∃ r w', vstr_srch_vstr_rev k pos len ndl ndl_pos ndl_len w = Some (r, w') ∧ world_reads w w' ∧
    last_occ id (substr ndl_pos ndl_len (st_content n)) pos (substr pos len (st_content s)) r).
Proof.
  intros. split; apply wwp_run; [by apply vstr_srch_vstr_fwd_spec|by apply vstr_srch_vstr_rev_spec].
Qed.
Lemma vstr_srch_vstr_correct_witness :
  (∃ r w', vstr_srch_vstr_fwd 0 1 8 0 6 2 demo_world = Some (r, w') ∧ world_reads demo_world w' ∧
    first_occ id (substr 6 2 (st_content demo2)) 1 (substr 1 8 (st_content demo2)) r) ∧
  (∃ r w', vstr_srch_vstr_rev 0 1 8 0 6 2 demo_world = Some (r, w') ∧ world_reads demo_world w' ∧
    last_occ id (substr 6 2 (st_content demo2)) 1 (substr 1 8 (st_content demo2)) r).
Proof.
  apply (vstr_srch_vstr_correct demo_world 0 0 demo2 demo2 1 8 6 2 demo_world_0 demo_world_0 demo2_wf demo2_wf); by vm_compute.
Defined.

(** The place that is not looked at: "f" is at position 8. *)
Example vstr_srch_vstr_fwd_last :
  (∃ w', vstr_srch_vstr_fwd 0 1 8 0 8 1 demo_world = Some (0, w')) ∧
  (∃ s', vstr_srch_buf_fwd 1 8 (Some [102]) 1 demo2 = Some (8, s')).
Proof. split; eexists; by vm_compute. Qed.

(** C25: the search for a buffer without the case of letters finds the first
    place where the characters are the same in lower case. *)
Theorem vstr_srch_case_buf_fwd_correct s pos len str str_len :
  wf s → in_range s pos len → range_fits pos len → buf_fits str str_len →
  ∃ r s', vstr_srch_case_buf_fwd pos len str str_len s = Some (r, s') ∧
    first_occ lower_chr (buf_content str str_len) pos (substr pos len (st_content s)) r ∧ only_pos s s' ∧ wf s'.
Proof. intros. apply wp_run. by apply vstr_srch_case_buf_fwd_spec. Qed.
Lemma vstr_srch_case_buf_fwd_correct_witness :
  ∃ r s', vstr_srch_case_buf_fwd 1 8 (Some [68; 101; 70]) 3 demo2 = Some (r, s') ∧
    first_occ lower_chr (buf_content (Some [68; 101; 70]) 3) 1 (substr 1 8 (st_content demo2)) r ∧ only_pos demo2 s' ∧ wf s'.
Proof.
  apply (vstr_srch_case_buf_fwd_correct demo2 1 8 (Some [68; 101; 70]) 3 demo2_wf); [by vm_compute|by vm_compute|].
  split; [done|]. by intros ? [= <-].
Defined.
