(* ===== verification/ParseTheorems.v ===== *)
(** * Parsing numbers and addresses. *)
From Stdlib Require Import ZArith Lia ZifyBool.
From stdpp Require Import base tactics list numbers option gmap.
From S2P Require Import Prelude State Wp Ref Cache Core Iter Spn Parse Inv PosLemmas IterLemmas SpnSpec SpnTheorems SrchSpec ParseSpec ParseIp Demo.

Lemma still_refl s : wf s → still s s.
Proof. intros Hw. split; [apply only_pos_refl|done]. Qed.

(** C26: the text of a number in a base from 2 to 36, with a plus sign or
    without, parses as the number, reduced to the width of the type; the text
    is used up to its end, what follows it is the error; with the overflow
    flag there is no error when the number fits. *)
Theorem vstr_parse_unsigned_correct ascii w s pos len flags base sg n rest :
  wf s → in_range s pos len → range_fits pos len → 0 < w →
  Z.land flags VSTR__MASK_PARSE_NUM_BASE = base → 2 ≤ base ≤ 36 →
  flag flags VSTR_FLAG_PARSE_NUM_SPACE = false → flag flags VSTR_FLAG_PARSE_NUM_LOCAL = false →
  is_sign flags sg → is_minus sg = false →
  substr pos len (st_content s) = (Some <$> sg) ++ (Some <$> num_chrs base n) ++ rest →
  1 ≤ n ∨ n = 0 ∧ rest = [] → ends_number ascii flags base rest →
  (flag flags VSTR_FLAG_PARSE_NUM_OVERFLOW = true → n < 2 ^ w) →
  ∃ s', parse_num_ufunc ascii w pos len flags s =
          Some ((n mod 2 ^ w, zlen sg + zlen (num_chrs base n), number_err rest), s') ∧ only_pos s s' ∧ wf s'.
Proof.
  intros. assert (H' : wp (parse_num_ufunc ascii w pos len flags) s (λ r s', still s s' ∧
    r = (uwrap w n, zlen sg + zlen (num_chrs base n), number_err rest))) by (eapply parse_num_ufunc_spec; by try apply still_refl).
  apply wp_run in H' as (r&s'&Hrun&[Ho Hw']&->). by exists s'.
Qed.
(** "4096!" in base 10, in 32 bits *)
Lemma vstr_parse_unsigned_correct_witness :
  ∃ s', parse_num_ufunc true 32 1 5 (Z.lor 10 VSTR_FLAG_PARSE_NUM_OVERFLOW) (demo_text [0x34; 0x30; 0x39; 0x36; 0x21]) =
          Some ((4096 mod 2 ^ 32, zlen ([] : list Z) + zlen (num_chrs 10 4096), number_err [Some 0x21]), s') ∧
        only_pos (demo_text [0x34; 0x30; 0x39; 0x36; 0x21]) s' ∧ wf s'.
Proof.
  apply (vstr_parse_unsigned_correct true 32 (demo_text [0x34; 0x30; 0x39; 0x36; 0x21]) 1 5
    (Z.lor 10 VSTR_FLAG_PARSE_NUM_OVERFLOW) 10 [] 4096 [Some 0x21]).
  - apply demo_text_wf. by vm_compute.
  - by vm_compute.
  - by vm_compute.
  - done.
  - done.
  - done.
  - done.
  - done.
  - by left.
  - done.
  - by vm_compute.
  - by left.
  - split; [by vm_compute|by left].
  - by vm_compute.
Defined.

(** C27: with a sign, the text parses as the number or its opposite, in the
    signed type, and at the most negative number, too. *)
Theorem vstr_parse_signed_correct ascii w s pos len flags base sg n rest :
  wf s → in_range s pos len → range_fits pos len → 0 < w →
  Z.land flags VSTR__MASK_PARSE_NUM_BASE = base → 2 ≤ base ≤ 36 →
  flag flags VSTR_FLAG_PARSE_NUM_SPACE = false → flag flags VSTR_FLAG_PARSE_NUM_LOCAL = false →
  is_sign flags sg → (is_minus sg = true → flag flags VSTR_FLAG_PARSE_NUM_NO_NEGATIVE = false) →
  substr pos len (st_content s) = (Some <$> sg) ++ (Some <$> num_chrs base n) ++ rest →
  1 ≤ n ∨ n = 0 ∧ rest = [] → ends_number ascii flags base rest →
  n ≤ 2 ^ (w - 1) - 1 + (if is_minus sg then 1 else 0) →
  ∃ s', parse_num_sfunc ascii w pos len flags s =
          Some ((if is_minus sg then - n else n, zlen sg + zlen (num_chrs base n), number_err rest), s') ∧ only_pos s s' ∧ wf s'.
Proof.
  intros. assert (Hpw : 2 ^ w = 2 * 2 ^ (w - 1)) by (rewrite <- Z.pow_succ_r by lia; f_equal; lia).
  assert (Hp1 : 0 < 2 ^ (w - 1)) by (apply Z.pow_pos_nonneg; lia).
  assert (H' : wp (parse_num_sfunc ascii w pos len flags) s (λ r s', still s s' ∧
    r = (swrap w (if is_minus sg then - n else n), zlen sg + zlen (num_chrs base n), number_err rest))).
  { eapply parse_num_sfunc_spec; try done; [|by apply still_refl]. intros _. destruct (is_minus sg); lia. }
  apply wp_run in H' as (r&s'&Hrun&[Ho Hw']&->). exists s'. split; [|done]. rewrite Hrun. do 4 f_equal.
  unfold swrap, uwrap. destruct (is_minus sg).
  - destruct (decide (n = 0)) as [->|]; [by rewrite Z.mod_0_l, decide_True by lia|].
    replace ((- n) mod 2 ^ w) with (2 ^ w - n); [rewrite decide_False by lia; lia|].
    apply (Z.mod_unique _ _ (-1)); lia.
  - rewrite Z.mod_small by lia. by rewrite decide_True by lia.
Qed.
(** "-80" in base 16 is -128, the least of 8 bits. *)
Lemma vstr_parse_signed_correct_witness :
  ∃ s', parse_num_sfunc true 8 1 3 (Z.lor 16 VSTR_FLAG_PARSE_NUM_OVERFLOW) (demo_text [0x2D; 0x38; 0x30]) =
          Some ((- 128, zlen [0x2D] + zlen (num_chrs 16 128), number_err []), s') ∧
        only_pos (demo_text [0x2D; 0x38; 0x30]) s' ∧ wf s'.
Proof.
  apply (vstr_parse_signed_correct true 8 (demo_text [0x2D; 0x38; 0x30]) 1 3 (Z.lor 16 VSTR_FLAG_PARSE_NUM_OVERFLOW)
    16 [0x2D] 128 []).
  - apply demo_text_wf. by vm_compute.
  - by vm_compute.
  - by vm_compute.
  - done.
  - done.
  - done.
  - done.
  - done.
  - right. split; [by left|done].
  - done.
  - by vm_compute.
  - by left.
  - done.
  - by vm_compute.
Defined.

(** Where the code gives something else: an overflow by the last digit is not
    seen; "0b1" in base 16 loses its b; with the local flag and
    HAVE_ASCII_ALPHA a digit over the base is taken. *)
Example vstr_parse_uint_overflow_missed :
  ∃ s', vstr_parse_uint true 1 10 (Z.lor 10 VSTR_FLAG_PARSE_NUM_OVERFLOW)
    (demo_text [0x34; 0x32; 0x39; 0x34; 0x39; 0x36; 0x37; 0x32; 0x39; 0x36]) = Some ((0, 10, PARSE_NUM_ERR_NONE), s').
Proof. eexists. by vm_compute. Qed.
Example vstr_parse_uint_hex_mark :
  ∃ s', vstr_parse_uint true 1 3 16 (demo_text [0x30; 0x62; 0x31]) = Some ((1, 3, PARSE_NUM_ERR_NONE), s').
Proof. eexists. by vm_compute. Qed.
Example vstr_parse_uint_local_base :
  ∃ s', vstr_parse_uint true 1 1 (Z.lor 8 VSTR_FLAG_PARSE_NUM_LOCAL) (demo_text [0x39]) = Some ((9, 1, PARSE_NUM_ERR_NONE), s').
Proof. eexists. by vm_compute. Qed.

(** C28: the dotted text of four bytes parses as those bytes, with a netmask of
    32 bits, up to what follows. *)
Theorem vstr_parse_ipv4_correct ascii s pos len cidr flags os rest :
  wf s → in_range s pos len → range_fits pos len → flag flags VSTR_FLAG_PARSE_IPV4_LOCAL = false →
  length os = 4%nat → Forall (λ o, 0 ≤ o ≤ 255) os →
  substr pos len (st_content s) = (Some <$> ip_chrs os) ++ rest → ends_part ascii rest → head rest ≠ Some (Some 0x2F) →
  ∃ s', vstr_parse_ipv4 ascii pos len cidr flags s =
    Some (mkIpv4 true os ((λ _, 32) <$> cidr) (len - zlen rest)
      (if decide (rest ≠ [] ∧ flag flags VSTR_FLAG_PARSE_IPV4_ONLY = true) then PARSE_IPV4_ERR_ONLY else 0), s') ∧
    only_pos s s' ∧ wf s'.
Proof.
  intros. assert (H' := vstr_parse_ipv4_spec ascii s pos len cidr flags os rest). apply wp_run in H' as (r&s'&Hrun&->&?); [|done..].
  by exists s'.
Qed.
(** "10.0.0.255 " *)
Lemma vstr_parse_ipv4_correct_witness :
  let t := [0x31; 0x30; 0x2E; 0x30; 0x2E; 0x30; 0x2E; 0x32; 0x35; 0x35; 0x20] in
  ∃ s', vstr_parse_ipv4 true 1 11 (Some 0) VSTR_FLAG_PARSE_IPV4_FULL (demo_text t) =
    Some (mkIpv4 true [10; 0; 0; 255] (Some 32) (11 - zlen [Some 0x20])
      (if decide ([Some 0x20] ≠ [] ∧ flag VSTR_FLAG_PARSE_IPV4_FULL VSTR_FLAG_PARSE_IPV4_ONLY = true) then PARSE_IPV4_ERR_ONLY else 0), s') ∧
    only_pos (demo_text t) s' ∧ wf s'.
Proof.
  intros t. apply (vstr_parse_ipv4_correct true (demo_text t) 1 11 (Some 0) VSTR_FLAG_PARSE_IPV4_FULL [10; 0; 0; 255] [Some 0x20]).
  - apply demo_text_wf. by vm_compute.
  - by vm_compute.
  - by vm_compute.
  - done.
  - done.
  - apply (bool_decide_unpack _). by vm_compute.
  - by vm_compute.
  - by vm_compute.
  - done.
Defined.
