(* ===== verification/Split.v ===== *)
(** * Sections: positions and lengths kept beside a string (src/vstr_sect.c,
    vstr_sects_add of include/vstr-inline.h, VSTR_SECTS_INIT of
    include/vstr-extern.h).

    [sc_ptr] holds the entries that count: its length is [num].  Only the
    outcome of the allocations matters, so [ptr] has no address.  Sections that
    are updated with the string are the callback [vstr__sects_update_cb] on the
    list of them; putting them into a cache of the user is not modelled.

    Splitting a string into sections (src/vstr_split.c).

    vstr_split_buf and vstr_split_chrs are one text over what a separator is:
    [split_op]. *)
From Stdlib Require Import ZArith Lia ZifyBool.
From stdpp Require Import base tactics list numbers option gmap.
From S2P Require Import Prelude State Wp Ref Cache Core Base Iter Spn Cmp Srch.

Record Vstr_sect_node := mkSect { sn_pos : Z; sn_len : Z }.
Record Vstr_sects := mkSects {
  sc_sz : Z; sc_malloc_bad : bool; sc_free_ptr : bool; sc_can_add_sz : bool; sc_can_del_sz : bool;
  sc_alloc_double : bool; sc_ptr : list Vstr_sect_node }.
Definition sc_num (sects : Vstr_sects) : Z := zlen (sc_ptr sects).

Definition sc_set_sz v sc := match sc with mkSects _ m f a d al p => mkSects v m f a d al p end.
Definition sc_set_malloc_bad v sc := match sc with mkSects s _ f a d al p => mkSects s v f a d al p end.
Definition sc_set_ptr v sc := match sc with mkSects s m f a d al _ => mkSects s m f a d al v end.

Definition VSTR_SECTS_INIT (sz : Z) (free_ptr : bool) : Vstr_sects :=
  mkSects sz false free_ptr free_ptr false true [].

Definition vstr_sects_make (beg_num : Z) : M (option Vstr_sects) :=
  ok ← alloc_ok;
  if negb ok then mret None
  else
    ok ← (if decide (beg_num ≠ 0) then alloc_ok else mret true);
    if negb (ok : bool) then mret None else mret (Some (VSTR_SECTS_INIT beg_num true)).

(** ** Growing and shrinking *)
Definition vstr__sects_mv (sects : Vstr_sects) (sz : Z) : M (bool * Vstr_sects) :=
  ok ← alloc_ok;
  if negb ok then mret (false, sc_set_malloc_bad true sects) else mret (true, sc_set_sz sz sects).

Definition vstr__sects_add (sects : Vstr_sects) : M (bool * Vstr_sects) :=
  if decide (u32 (sc_sz sects) = 0) then
    ok ← alloc_ok;
    if negb ok then mret (false, sc_set_malloc_bad true sects) else mret (true, sc_set_sz 1 sects)
  else
    let sz := u32 (sc_sz sects) in
    let sz := if sc_alloc_double sects then u32 (Z.shiftl sz 1) else sz in
    let sz := if decide (sz ≤ sc_sz sects) then u32 (sc_sz sects + 1) else sz in
    if decide (sz ≤ sc_sz sects) then mret (false, sc_set_malloc_bad true sects)
    else vstr__sects_mv sects sz.

Definition vstr__sects_del (sects : Vstr_sects) : M (bool * Vstr_sects) :=
  vstr__sects_mv sects (Z.shiftr (u32 (sc_sz sects)) 1).

Definition vstr_sects_add (sects : Vstr_sects) (pos len : Z) : M (bool * Vstr_sects) :=
  '(ok, sects) ← (if decide (sc_sz sects = 0 ∨ sc_sz sects ≤ sc_num sects) then
                    if negb (sc_can_add_sz sects) then mret (false, sects) else vstr__sects_add sects
                  else mret (true, sects));
  if negb (ok : bool) then mret (false, sects)
  else mret (true, sc_set_ptr (sc_ptr sects ++ [mkSect pos len]) sects).

(** while (num && !ptr[num - 1].pos) --num *)
Fixpoint drop_unset (rev_ptr : list Vstr_sect_node) : list Vstr_sect_node :=
  match rev_ptr with
  | sn :: rest => if decide (sn_pos sn = 0) then drop_unset rest else rev_ptr
  | [] => []
  end.
Definition sects_shorten (sects : Vstr_sects) : M Vstr_sects :=
  let sects := sc_set_ptr (rev (drop_unset (rev (sc_ptr sects)))) sects in
  if decide (sc_can_del_sz sects = true ∧ sc_num sects < sc_sz sects / 2)
  then '(_, sects) ← vstr__sects_del sects; mret sects else mret sects.

Definition sect_unset (i : nat) (sects : Vstr_sects) : Vstr_sects :=
  sc_set_ptr (alter (λ sn, mkSect 0 (sn_len sn)) i (sc_ptr sects)) sects.

Definition vstr_sects_del (sects : Vstr_sects) (num : Z) : M (bool * Vstr_sects) :=
  if negb (bool_decide (sc_sz sects ≠ 0 ∧ num ≠ 0)) then mret (false, sects)
  else if negb (bool_decide (num ≤ sc_num sects)) then mret (false, sects)
  else
    let i := Z.to_nat (num - 1) in
    sn ← of_option (sc_ptr sects !! i);
    if decide (sn_pos sn = 0) then mret (false, sects)
    else sects ← sects_shorten (sect_unset i sects); mret (true, sects).

Fixpoint sects_srch (ptr : list Vstr_sect_node) (count pos len : Z) : Z :=
  match ptr with
  | [] => 0
  | sn :: ptr => if decide (sn_pos sn = pos ∧ sn_len sn = len) then count else sects_srch ptr (u32 (count + 1)) pos len
  end.
Definition vstr_sects_srch (sects : Vstr_sects) (pos len : Z) : Z :=
  if decide (sc_sz sects = 0) then 0 else sects_srch (sc_ptr sects) 1 pos len.

(** ** vstr_sects_foreach: [func] is given the data it changes *)
Inductive foreach_ret := SECTS_FOREACH_DEF | SECTS_FOREACH_DEL | SECTS_FOREACH_RET.
Section foreach.
Context {D : Type} (func : Z → Z → D → M (foreach_ret * D)) (allow_null : bool).
(** [order] are the entries in the order they are visited. *)
Fixpoint sects_foreach_loop (order : list nat) (sects : Vstr_sects) (count : Z) (data : D)
    : M (Vstr_sects * Z * D) :=
  match order with
  | [] => mret (sects, count, data)
  | scan :: order =>
    sn ← of_option (sc_ptr sects !! scan);
    if decide (sn_pos sn ≠ 0 ∧ (sn_len sn ≠ 0 ∨ allow_null = true)) then
      let count := u32 (count + 1) in
      '(r, data) ← func (sn_pos sn) (sn_len sn) data;
      match r with
      | SECTS_FOREACH_RET => mret (sects, count, data)
      | SECTS_FOREACH_DEL => sects_foreach_loop order (sect_unset scan sects) count data
      | SECTS_FOREACH_DEF => sects_foreach_loop order sects count data
      end
    else sects_foreach_loop order sects count data
  end.
Definition vstr_sects_foreach (sects : Vstr_sects) (backward : bool) (data : D) : M (Vstr_sects * Z * D) :=
  if decide (sc_sz sects = 0) then mret (sects, 0, data)
  else
    let order := seq 0 (length (sc_ptr sects)) in
    '(sects, count, data) ← sects_foreach_loop (if backward then rev order else order) sects 0 data;
    sects ← sects_shorten sects;
    mret (sects, count, data).
End foreach.

(** ** vstr__sects_update_cb: what an addition or a deletion does to the sections *)
Definition sect_update_add (pos len : Z) (sn : Vstr_sect_node) : Vstr_sect_node :=
  if decide (sn_pos sn ≠ 0 ∧ sn_len sn ≠ 0) then
    let sn := if decide (pos < sn_pos sn) then mkSect (u64 (sn_pos sn + len)) (sn_len sn) else sn in
    if decide (sn_pos sn ≤ pos ∧ pos < u64 (sn_pos sn + sn_len sn - 1)) then mkSect (sn_pos sn) (u64 (sn_len sn + len)) else sn
  else sn.

(** The length deleted is a variable of the function, which each section in
    which the deletion starts before it changes. *)
Definition sect_update_del (pos len : Z) (sn : Vstr_sect_node) : Vstr_sect_node * Z :=
  if decide (sn_pos sn ≠ 0 ∧ sn_len sn ≠ 0) then
    if decide (pos ≤ sn_pos sn) then
      let tmp := sn_pos sn - pos in
      if decide (len ≤ tmp) then (mkSect (sn_pos sn - len) (sn_len sn), len)
      else
        let len := len - tmp in
        if decide (sn_len sn ≤ len) then (mkSect 0 (sn_len sn), len)
        else (mkSect (sn_pos sn - tmp) (sn_len sn - len), len)
    else if decide (sn_pos sn < pos ∧ pos ≤ u64 (sn_pos sn + sn_len sn - 1)) then
      let tmp := pos - sn_pos sn in
      if decide (sn_len sn - tmp ≤ len) then (mkSect (sn_pos sn) tmp, len)
      else (mkSect (sn_pos sn) (sn_len sn - len), len)
    else (sn, len)
  else (sn, len).
Fixpoint sects_update_del (pos len : Z) (ptr : list Vstr_sect_node) : list Vstr_sect_node * Z :=
  match ptr with
  | [] => ([], len)
  | sn :: ptr =>
    let '(sn, len) := sect_update_del pos len sn in
    let '(ptr, len) := sects_update_del pos len ptr in
    (sn :: ptr, len)
  end.
Fixpoint vstr__sects_update_cb (pos len : Z) (type : cache_type) (updates : list Vstr_sects) : list Vstr_sects :=
  match updates with
  | [] => []
  | sects :: updates =>
    match type with
    | CACHE_ADD => sc_set_ptr (sect_update_add pos len <$> sc_ptr sects) sects :: vstr__sects_update_cb pos len type updates
    | CACHE_DEL =>
      let '(ptr, len) := sects_update_del pos len (sc_ptr sects) in
      sc_set_ptr ptr sects :: vstr__sects_update_cb pos len type updates
    | CACHE_FREE => []
    | _ => sects :: vstr__sects_update_cb pos len type updates
    end
  end.

Definition VSTR_FLAG_SPLIT_BEG_NULL : Z := 0.
Definition VSTR_FLAG_SPLIT_MID_NULL : Z := 1.
Definition VSTR_FLAG_SPLIT_END_NULL : Z := 2.
Definition VSTR_FLAG_SPLIT_POST_NULL : Z := 3.
Definition VSTR_FLAG_SPLIT_NO_RET : Z := 4.
Definition VSTR_FLAG_SPLIT_REMAIN : Z := 5.
Definition sflag (flags bit : Z) : bool := Z.testbit flags bit.

(** Do the null fields go to the end?  And how many are there? *)
Fixpoint split_null_loop (fuel : nat) (pos len : Z) (buf : list Z) (num : Z) : M (bool * Z) :=
  if decide (zlen buf ≤ len) then
    eq ← vstr_cmp_buf_eq pos (zlen buf) (Some buf) (zlen buf);
    if negb eq then mret (false, num)
    else match fuel with
    | O => undef
    | S fuel => split_null_loop fuel (u64 (pos + zlen buf)) (len - zlen buf) buf (u32 (num + 1))
    end
  else mret (bool_decide (len = 0), num).
Definition vstr__split_buf_null_end (pos len : Z) (buf : list Z) : M (bool * Z) :=
  if decide (len = zlen buf) then mret (true, 1)
  else split_null_loop (Z.to_nat len) (u64 (pos + zlen buf)) (len - zlen buf) buf 1.

(** The value returned when it is an early return, and the sections *)
Definition vstr__split_hdl_err (sects : Vstr_sects) (flags added : Z) : Vstr_sects * Z * bool :=
  if sc_malloc_bad sects
  then (sc_set_ptr (ztake (sc_num sects - added) (sc_ptr sects)) sects, 0, true)
  else (sects, 1, sflag flags VSTR_FLAG_SPLIT_NO_RET).

(** if (!vstr_sects_add(...)) VSTR__SPLIT_HDL_ERR(bad_ret); ++added: the last
    component is [bad_ret], and [added] is then what is returned. *)
Definition split_add (sects : Vstr_sects) (flags added pos len : Z) : M (Vstr_sects * Z * bool) :=
  '(ok, sects) ← vstr_sects_add sects pos len;
  if (ok : bool) then mret (sects, u32 (added + 1), false)
  else
    let '(sects, err_ret, bad) := vstr__split_hdl_err sects flags added in
    if (bad : bool) then mret (sects, err_ret, true) else mret (sects, u32 (added + 1), false).

(** The loops over empty fields; [put] tells if they become sections. *)
Fixpoint split_nulls (count : nat) (put : bool) (buf_len flags : Z) (sects : Vstr_sects) (added pos len : Z)
    : M (Vstr_sects * Z * Z * Z * bool) :=
  match count with
  | O => mret (sects, added, pos, len, false)
  | S count =>
    '(sects, added, bad) ← (if put then split_add sects flags added pos 0 else mret (sects, added, false));
    if (bad : bool) then mret (sects, added, pos, len, true)
    else split_nulls count put buf_len flags sects added (u64 (pos + buf_len)) (u64 (len - buf_len))
  end.

Definition split_count (count limit flags added : Z) : Z :=
  if decide (limit ≠ 0 ∧ u32 (limit - added) ≤ count)
  then u32 (limit - (if sflag flags VSTR_FLAG_SPLIT_REMAIN then 1 else 0) - added) else count.

Definition vstr__split_hdl_null_beg (pos len buf_len : Z) (sects : Vstr_sects) (flags count limit added : Z)
    : M (Vstr_sects * Z * Z * Z * bool) :=
  split_nulls (Z.to_nat (split_count count limit flags added)) (sflag flags VSTR_FLAG_SPLIT_BEG_NULL)
    buf_len flags sects added pos len.
Definition vstr__split_hdl_null_mid (pos len buf_len : Z) (sects : Vstr_sects) (flags count limit added : Z)
    : M (Vstr_sects * Z * Z * Z * bool) :=
  split_nulls (Z.to_nat (split_count count limit flags added)) (sflag flags VSTR_FLAG_SPLIT_MID_NULL)
    buf_len flags sects added pos len.

Definition vstr__split_hdl_null_end (pos len buf_len : Z) (sects : Vstr_sects) (flags count limit added : Z)
    : M (Vstr_sects * Z) :=
  '(sects, added, pos, len, bad) ←
    (if sflag flags VSTR_FLAG_SPLIT_END_NULL
     then split_nulls (Z.to_nat (split_count count limit flags added)) true buf_len flags sects added pos len
     else mret (sects, added, pos, len, false));
  if (bad : bool) then mret (sects, added)
  else if decide ((len ≠ 0 ∧ sflag flags VSTR_FLAG_SPLIT_REMAIN = true) ∨
                  (len = 0 ∧ sflag flags VSTR_FLAG_SPLIT_POST_NULL = true))
  then '(sects, added, _) ← split_add sects flags added pos len; mret (sects, added)
  else mret (sects, added).

Definition vstr__split_hdl_end (pos len split_pos : Z) (sects : Vstr_sects) (limit flags added : Z)
    : M (Vstr_sects * Z) :=
  if decide ((len ≠ 0 ∧ (sflag flags VSTR_FLAG_SPLIT_REMAIN = true ∨ split_pos = 0)) ∨
             (len = 0 ∧ sflag flags VSTR_FLAG_SPLIT_POST_NULL = true ∧ (limit = 0 ∨ added < limit)))
  then '(sects, added, _) ← split_add sects flags added pos len; mret (sects, added)
  else mret (sects, added).

Definition vstr__split_hdl_def (pos len split_pos buf_len : Z) (sects : Vstr_sects) (flags added : Z)
    : M (Vstr_sects * Z * Z * Z * bool) :=
  let split_len := u64 (split_pos - pos) in
  '(sects, added, bad) ← split_add sects flags added pos split_len;
  if (bad : bool) then mret (sects, added, pos, len, true)
  else
    let split_len := u64 (split_len + buf_len) in
    mret (sects, added, u64 (pos + split_len), u64 (len - split_len), false).

(** What separates: where the next separator is, if only separators are left
    and how many there are, and how long one is. *)
Record split_op := mkSplitOp {
  so_srch : Z → Z → M Z;
  so_null : Z → Z → M (bool * Z);
  so_len : Z }.

Section split.
Context (op : split_op) (limit flags orig_pos : Z).
Definition split_more (added : Z) : bool :=
  bool_decide (limit = 0 ∨ added < u32 (limit - (if sflag flags VSTR_FLAG_SPLIT_REMAIN then 1 else 0))).

Fixpoint split_loop (fuel : nat) (pos len split_pos added : Z) (sects : Vstr_sects) : M (Vstr_sects * Z) :=
  if decide (len ≠ 0 ∧ split_more added = true) then
    split_pos ← so_srch op pos len;
    if decide (split_pos = 0) then vstr__split_hdl_end pos len split_pos sects limit flags added
    else
      let next (r : Vstr_sects * Z * Z * Z * bool) :=
        let '(sects, added, pos, len, bad) := r in
        if (bad : bool) then mret (sects, added)
        else match fuel with O => undef | S fuel => split_loop fuel pos len split_pos added sects end in
      if decide (split_pos = orig_pos) then
        '(at_end, count) ← so_null op pos len;
        if (at_end : bool) then
          if negb (sflag flags VSTR_FLAG_SPLIT_BEG_NULL) then mret (sects, 0)
          else vstr__split_hdl_null_end pos len (so_len op) sects flags count limit added
        else r ← vstr__split_hdl_null_beg pos len (so_len op) sects flags count limit added; next r
      else if decide (split_pos = pos) then
        '(at_end, count) ← so_null op pos len;
        if (at_end : bool) then vstr__split_hdl_null_end pos len (so_len op) sects flags count limit added
        else r ← vstr__split_hdl_null_mid pos len (so_len op) sects flags count limit added; next r
      else r ← vstr__split_hdl_def pos len split_pos (so_len op) sects flags added; next r
  else vstr__split_hdl_end pos len split_pos sects limit flags added.
End split.

Definition split_buf_op (buf : list Z) : split_op :=
  mkSplitOp (λ pos len, vstr_srch_buf_fwd pos len (Some buf) (zlen buf))
    (λ pos len, vstr__split_buf_null_end pos len buf) (zlen buf).
Definition split_chrs_op (chrs : list Z) : split_op :=
  mkSplitOp (λ pos len, vstr_srch_chrs_fwd pos len (Some chrs))
    (λ pos len, n ← vstr_spn_chrs_fwd pos len (Some chrs); let count := u32 n in mret (bool_decide (count = len), count)) 1.

Definition vstr_split_buf (pos len : Z) (buf : list Z) (sects : Vstr_sects) (limit flags : Z) : M (Vstr_sects * Z) :=
  split_loop (split_buf_op buf) limit flags pos (Z.to_nat len) pos len 0 0 sects.
Definition vstr_split_chrs (pos len : Z) (chrs : list Z) (sects : Vstr_sects) (limit flags : Z) : M (Vstr_sects * Z) :=
  split_loop (split_chrs_op chrs) limit flags pos (Z.to_nat len) pos len 0 0 sects.
