(* ===== verification/Conv.v ===== *)
(** * Converting characters (src/vstr_conv.c).

    The functions substitute the bytes of a variable of their own: [tmp_at] is
    where it is, an allocation that is not the string's. *)
From Stdlib Require Import ZArith Lia ZifyBool.
From stdpp Require Import base tactics list numbers option gmap.
From S2P Require Import Prelude State Wp Ref Cache Core Base Add Del Iter Spn Cmp Srch Parse Sub Split.

(** ** VSTR__BUF_NEEDED: spare nodes for the substitutions, ahead of them *)
Record extra := mkExtra { ex_buf : Z; ex_ptr : Z; ex_ref : Z }.
(** ++extra_nodes[type - 1] *)
Definition extra_inc (t : node_type) (e : extra) : extra :=
  match t with
  | NODE_BUF => mkExtra (u32 (ex_buf e + 1)) (ex_ptr e) (ex_ref e)
  | NODE_PTR => mkExtra (ex_buf e) (u32 (ex_ptr e + 1)) (ex_ref e)
  | NODE_REF => mkExtra (ex_buf e) (ex_ptr e) (u32 (ex_ref e + 1))
  | NODE_NON => e
  end.

Section buf_needed.
(** [test]: the character stays as it is; [sub]: it is substituted, not deleted. *)
Context (test : Z → bool) (sub : bool).

(** The inner do ... while: [start] is the length at its start. *)
Fixpoint needed_skip (bsz start : Z) (bs : list Z) : list Z :=
  match bs with
  | [] => []
  | c :: rest =>
    if (negb sub || bool_decide (start - zlen bs ≤ bsz)) && negb (test c) then needed_skip bsz start rest else bs
  end.
Fixpoint needed_chars (fuel : nat) (bsz : Z) (t : node_type) (done first_pass : bool) (bs : list Z) (e : extra) : extra :=
  match bs, fuel with
  | [], _ | _, O => e
  | c :: rest, S fuel =>
    if test c then needed_chars fuel bsz t true true rest e
    else if sub || done then
      let e := if done && first_pass then extra_inc t e else e in
      let e := if sub then extra_inc NODE_BUF e else e in
      needed_chars fuel bsz t done false (needed_skip bsz (zlen bs) rest) e
    else needed_chars fuel bsz t done first_pass rest e
  end.
Definition needed_body (it : Vstr_iter) (e : extra) : M (loop_next extra ()) :=
  c ← get_conf;
  nd ← of_option (head (it_node it));
  if decide (nd_type nd = NODE_BUF ∧ (sub = true ∨ split_buf_del c = false)) then mret (Next e)
  else if decide (nd_type nd = NODE_NON) then mret (Next e)
  else
    bs ← iter_bytes it;
    mret (Next (needed_chars (length bs) (buf_sz c) (nd_type nd) false true bs e)).

Definition VSTR__BUF_NEEDED (pos len : Z) : M bool :=
  iter ← vstr_iter_fwd_beg pos len;
  match iter with
  | None => mret false
  | Some it =>
    b ← get_base;
    c ← get_conf;
    e ← (if node_ptr_used b || node_ref_used b || (sub && node_non_used b) || (negb sub && negb (split_buf_del c))
         then r ← iter_do_while needed_body it (mkExtra 0 0 0);
              mret (match r with Next e => e | Return _ => mkExtra 0 0 0 end)
         else mret (mkExtra 0 0 0));
    if decide ((node_ptr_used b || node_ref_used b) = true ∧ (sub || split_buf_del c) = true ∧
               ex_buf e = 0 ∧ ex_ptr e = 0 ∧ ex_ref e = 0)
    then mret true
    else
      ok ← cntl_conf_set_num_range_spare NODE_BUF (u32 (ex_buf e + 1)) UINT_MAX;
      if negb ok then mret false
      else
        ok ← cntl_conf_set_num_range_spare NODE_PTR (ex_ptr e) UINT_MAX;
        if negb ok then mret false
        else cntl_conf_set_num_range_spare NODE_REF (ex_ref e) UINT_MAX
  end.
End buf_needed.

(** ** Letters *)
Fixpoint lowercase_loop (len : nat) (tmp_at : pointer) (pos : Z) (miter : Vstr_iter) : M () :=
  match len with
  | O => mret tt
  | S len =>
    '(tmp, _, miter) ← vstr_iter_fwd_chr miter;
    if is_ascii_upper tmp then
      mem_store tmp_at [tmp + 0x20];;
      vstr_sub_buf pos 1 tmp_at 1;;
      iter ← vstr_iter_fwd_beg (u64 (pos + 1)) (Z.of_nat len);
      match iter, len with
      | Some miter, _ => lowercase_loop len tmp_at (u64 (pos + 1)) miter
      | None, O => mret tt
      | None, S _ => undef
      end
    else lowercase_loop len tmp_at (u64 (pos + 1)) miter
  end.
Definition vstr_conv_lowercase (tmp_at : pointer) (pos len : Z) : M bool :=
  ok ← VSTR__BUF_NEEDED (λ c, negb (is_ascii_upper c)) true pos len;
  if negb ok then mret false
  else
    iter ← vstr_iter_fwd_beg pos len;
    match iter with
    | None => undef
    | Some miter => lowercase_loop (Z.to_nat len) tmp_at pos miter;; mret true
    end.

Fixpoint uppercase_loop (len : nat) (tmp_at : pointer) (pos : Z) : M () :=
  match len with
  | O => mret tt
  | S len =>
    tmp ← vstr_export_chr pos;
    (if is_ascii_lower tmp then mem_store tmp_at [tmp - 0x20];; vstr_sub_buf pos 1 tmp_at 1;; mret tt else mret tt);;
    uppercase_loop len tmp_at (u64 (pos + 1))
  end.
Definition vstr_conv_uppercase (tmp_at : pointer) (pos len : Z) : M bool :=
  ok ← VSTR__BUF_NEEDED (λ c, negb (is_ascii_lower c)) true pos len;
  if negb ok then mret false else uppercase_loop (Z.to_nat len) tmp_at pos;; mret true.

(** ** Characters that do not print: the bits are the flags
    VSTR_FLAG_CONV_UNPRINTABLE_ALLOW_*, of which COMMA and DOT are the same. *)
Definition VSTR__IS_ASCII_PRINTABLE (flags x : Z) : bool :=
  if decide (x = 0x00) then Z.testbit flags 0
  else if decide (x = 0x07) then Z.testbit flags 1
  else if decide (x = 0x08) then Z.testbit flags 2
  else if decide (x = 0x09) then Z.testbit flags 3
  else if decide (x = 0x0A) then Z.testbit flags 4
  else if decide (x = 0x0B) then Z.testbit flags 5
  else if decide (x = 0x0C) then Z.testbit flags 6
  else if decide (x = 0x0D) then Z.testbit flags 7
  else if decide (x = 0x1B) then Z.testbit flags 11
  else if decide (x = 0x20) then Z.testbit flags 8
  else if decide (x = 0x2C) then Z.testbit flags 9
  else if decide (x = 0x2E) then Z.testbit flags 9
  else if decide (x = 0x5F) then Z.testbit flags 10
  else if decide (x = 0x7F) then Z.testbit flags 12
  else if decide (x = 0xA0) then Z.testbit flags 13
  else if decide (0xA1 ≤ x) then Z.testbit flags 14
  else bool_decide (0x21 ≤ x ∧ x ≤ 0x7E).

Fixpoint unprintable_chr_loop (fuel : nat) (swp_at : pointer) (swp flags pos len : Z) : M () :=
  if decide (len = 0) then mret tt
  else
    skip_non ← vstr_spn_chrs_fwd pos len None;
    let go pos len := match fuel with O => undef | S fuel => unprintable_chr_loop fuel swp_at swp flags pos len end in
    if decide (skip_non ≠ 0) then go (u64 (pos + skip_non)) (len - skip_non)
    else
      tmp ← vstr_export_chr pos;
      (if VSTR__IS_ASCII_PRINTABLE flags tmp then mret tt
       else mem_store swp_at [swp];; vstr_sub_buf pos 1 swp_at 1;; mret tt);;
      go (u64 (pos + 1)) (len - 1).
Definition vstr_conv_unprintable_chr (swp_at : pointer) (pos len flags swp : Z) : M bool :=
  ok ← VSTR__BUF_NEEDED (VSTR__IS_ASCII_PRINTABLE flags) true pos len;
  if negb ok then mret false
  else unprintable_chr_loop (Z.to_nat len) swp_at swp flags pos len;; mret true.

(** [del_pos] is where the run that is deleted starts, or 0. *)
Fixpoint unprintable_del_loop (fuel : nat) (flags pos len del_pos : Z) : M () :=
  if decide (len = 0) then
    when (bool_decide (del_pos ≠ 0)) (vstr_del del_pos (u64 (pos - del_pos));; mret tt)
  else
    skip_non ← vstr_spn_chrs_fwd pos len None;
    let go pos len del_pos := match fuel with O => undef | S fuel => unprintable_del_loop fuel flags pos len del_pos end in
    if decide (skip_non ≠ 0) then go (u64 (pos + skip_non)) (len - skip_non) del_pos
    else
      tmp ← vstr_export_chr pos;
      if negb (VSTR__IS_ASCII_PRINTABLE flags tmp)
      then go (u64 (pos + 1)) (len - 1) (if decide (del_pos = 0) then pos else del_pos)
      else if decide (del_pos ≠ 0)
      then vstr_del del_pos (u64 (pos - del_pos));; go (u64 (del_pos + 1)) (len - 1) 0
      else go (u64 (pos + 1)) (len - 1) del_pos.
Definition vstr_conv_unprintable_del (pos len flags : Z) : M bool :=
  ok ← VSTR__BUF_NEEDED (VSTR__IS_ASCII_PRINTABLE flags) false pos len;
  if negb ok then mret false else unprintable_del_loop (Z.to_nat len) flags pos len 0;; mret true.

(** ** Escapes of URIs *)
Definition VSTR__SECTS_SZ : Z := 8.
Definition byte_range (a b : Z) : list Z := (λ n, a + Z.of_nat n) <$> seq 0 (Z.to_nat (b - a + 1)).
Definition chrs_disallowed : list Z :=
  byte_range 0x00 0x20 ++ byte_range 0x22 0x27 ++ [0x2B; 0x2C; 0x2F] ++ byte_range 0x3A 0x40 ++
  [0x5B; 0x5C; 0x5D; 0x5E; 0x60; 0x7B; 0x7C; 0x7D] ++ byte_range 0x7F 0xFF.
Definition hex_digit (d : Z) : Z := if decide (d < 10) then 0x30 + d else 0x61 + (d - 10).

Definition uri_fail : M bool := upd_conf (set_malloc_bad true);; mret false.

(** Spare nodes of every type, or FALSE *)
Definition uri_spares (num_buf num : Z) : M bool :=
  ok ← cntl_conf_set_num_range_spare NODE_BUF (u32 num_buf) UINT_MAX;
  if negb ok then mret false
  else
    ok ← cntl_conf_set_num_range_spare NODE_NON (u32 num) UINT_MAX;
    if negb ok then mret false
    else
      ok ← cntl_conf_set_num_range_spare NODE_PTR (u32 num) UINT_MAX;
      if negb ok then mret false else cntl_conf_set_num_range_spare NODE_REF (u32 num) UINT_MAX.

Fixpoint encode_find (fuel : nat) (sects : Vstr_sects) (pos len : Z) : M (option Vstr_sects) :=
  if decide (len = 0) then mret (Some sects)
  else
    count ← vstr_cspn_chrs_fwd pos len (Some chrs_disallowed);
    let pos := u64 (pos + count) in
    let len := len - count in
    if decide (len = 0) then mret (Some sects)
    else
      '(ok, sects) ← vstr_sects_add sects pos 1;
      if negb (ok : bool) then mret None
      else match fuel with O => undef | S fuel => encode_find fuel sects (u64 (pos + 1)) (len - 1) end.
Fixpoint encode_sub (ptr : list Vstr_sect_node) (scan : Z) (sub_at : pointer) : M () :=
  match ptr with
  | [] => mret tt
  | sn :: ptr =>
    let tpos := u64 (sn_pos sn + scan * 2) in
    bad ← vstr_export_chr tpos;
    mem_store sub_at [0x25; hex_digit (Z.land (Z.shiftr bad 4) 0x0F); hex_digit (Z.land bad 0x0F)];;
    vstr_sub_buf tpos 1 sub_at 3;;
    encode_sub ptr (scan + 1) sub_at
  end.
Definition vstr_conv_encode_uri (sub_at : pointer) (pos len : Z) : M bool :=
  sects ← vstr_sects_make VSTR__SECTS_SZ;
  match sects with
  | None => uri_fail
  | Some sects =>
    sects ← encode_find (Z.to_nat len) sects pos len;
    match sects with
    | None => uri_fail
    | Some sects =>
      c ← get_conf;
      let multi := if decide (3 ≤ buf_sz c) then 1 else 3 in
      ok ← uri_spares (sc_num sects * multi + 2) (sc_num sects);
      if negb ok then uri_fail else encode_sub (sc_ptr sects) 0 sub_at;; mret true
    end
  end.

Definition decode_flags : Z := Z.lor 16 VSTR_FLAG_PARSE_NUM_NO_BEG_PM.
(** while ((srch_pos = vstr_srch_chr_fwd(...))): the escapes that parse *)
Fixpoint decode_find (ascii : bool) (fuel : nat) (sects : Vstr_sects) (pos len : Z) : M (option Vstr_sects) :=
  srch_pos ← vstr_srch_chr_fwd pos len 0x25;
  if decide (srch_pos = 0) then mret (Some sects)
  else
    let left := len - (srch_pos - pos) in
    if decide (left < 3) then mret (Some sects)
    else
      let go sects pos len := match fuel with O => undef | S fuel => decode_find ascii fuel sects pos len end in
      '(_, _, err) ← vstr_parse_ushort ascii (u64 (srch_pos + 1)) 2 decode_flags;
      if decide (err ≠ 0) then go sects (u64 (srch_pos + 1)) (left - 1)
      else
        '(ok, sects) ← vstr_sects_add sects srch_pos 3;
        if negb (ok : bool) then mret None else go sects (u64 (srch_pos + 3)) (left - 3).
Fixpoint decode_sub (ascii : bool) (ptr : list Vstr_sect_node) (scan : Z) (sub_at : pointer) : M () :=
  match ptr with
  | [] => mret tt
  | sn :: ptr =>
    let tpos := u64 (sn_pos sn - scan * 2) in
    '(sub, _, _) ← vstr_parse_ushort ascii (u64 (tpos + 1)) 2 decode_flags;
    mem_store sub_at [sub mod 256];;
    vstr_sub_buf tpos 3 sub_at 1;;
    decode_sub ascii ptr (scan + 1) sub_at
  end.
Definition vstr_conv_decode_uri (ascii : bool) (sub_at : pointer) (pos len : Z) : M bool :=
  sects ← vstr_sects_make VSTR__SECTS_SZ;
  match sects with
  | None => uri_fail
  | Some sects =>
    sects ← decode_find ascii (Z.to_nat len) sects pos len;
    match sects with
    | None => uri_fail
    | Some sects =>
      ok ← uri_spares (sc_num sects + 2) (sc_num sects);
      if negb ok then uri_fail else decode_sub ascii (sc_ptr sects) 0 sub_at;; mret true
    end
  end.
