(* ===== verification/Export.v ===== *)
(** * Copying data out of a string (src/vstr_export.c, src/vstr_cstr.c, and
    vstr_iter_fwd_buf and _cstr of include/vstr-inline.h).

    vstr_export_ref, which may turn nodes into references, is not here. *)
From Stdlib Require Import ZArith Lia ZifyBool.
From stdpp Require Import base tactics list numbers option gmap.
From S2P Require Import Prelude State Wp Ref Cache Core Base Iter.

(** base && pos && ((pos <= base->len && the last position <= base->len) || !len) *)
Definition export_bad (b : Vstr_base) (pos len : Z) : bool :=
  negb (bool_decide (pos ≠ 0 ∧ ((pos ≤ b_len b ∧ vstr_sc_poslast pos len ≤ b_len b) ∨ len = 0))).

(** A NON node leaves the bytes of the buffer as they are. *)
Definition export_chunk (it : Vstr_iter) (buf : pointer) : M () :=
  if iter_non it then mret tt
  else p ← of_option (it_ptr it); mem_move buf p (it_len it).
Definition export_body (it : Vstr_iter) (buf : pointer) : M (loop_next pointer ()) :=
  export_chunk it buf;; mret (Next (ptr_add buf (it_len it))).

Definition vstr_export_buf (pos len : Z) (buf : pointer) (buf_len : Z) : M Z :=
  b ← get_base;
  if export_bad b pos len then mret 0
  else if decide (buf_len = 0) then mret 0
  else
    let len := if decide (buf_len < len) then buf_len else len in
    iter ← vstr_iter_fwd_beg pos len;
    match iter with
    | None => mret 0
    | Some it => iter_do_while export_body it buf;; mret len
    end.

Definition vstr_export_cstr_buf (pos len : Z) (buf : pointer) (buf_len : Z) : M Z :=
  b ← get_base;
  if export_bad b pos len then mret 0
  else if decide (buf_len = 0) then mret 0
  else
    let cpy_len := if decide (buf_len ≤ len) then buf_len - 1 else len in
    vstr_export_buf pos len buf cpy_len;;
    mem_store (ptr_add buf cpy_len) [0];;
    mret (cpy_len + 1).

(** ** References to copies *)
Section fresh.
Context {JK : Junk}.

Definition made_ref (ref : option positive) (copy : positive → M ()) : M (option positive) :=
  match ref with
  | None => upd_conf (set_malloc_bad true);; mret None
  | Some r => copy r;; mret (Some r)
  end.
Definition vstr__export_buf_ref (pos len : Z) : M (option positive) :=
  ref ← vstr_ref_make_malloc len;
  made_ref ref (λ r, v ← ref_at r; vstr_export_buf pos len (r_ptr v) len;; mret tt).
Definition vstr__export_cstr_ref (pos len : Z) : M (option positive) :=
  ref ← vstr_ref_make_malloc (u64 (len + 1));
  made_ref ref (λ r, v ← ref_at r; vstr_export_cstr_buf pos len (r_ptr v) (u64 (len + 1));; mret tt).

(** malloc'd memory for the caller *)
Definition vstr_export_cstr_malloc (pos len : Z) : M (option pointer) :=
  ptr ← malloc;
  match ptr with
  | None => upd_conf (set_malloc_bad true);; mret None
  | Some a =>
    upd_heap (λ h, h_set_mem (<[a := junk_bytes a (len + 1)]> (h_mem h)) h);;
    vstr_export_cstr_buf pos len (Ptr a 0) (u64 (len + 1));;
    mret (Some (Ptr a 0))
  end.

(** ** The C string cache *)

(** The data of the cache, made when there is none: the array of the caches
    grows with it. *)
Definition cstr_cache_data : M (option cache_data_cstr) :=
  b ← get_base;
  match cache_get_cstr b with
  | Some data => mret (Some data)
  | None =>
    if negb (cache_available b) then mret None
    else
      ok ← alloc_all 2;
      if (ok : bool) then
        let data := mkCstr 0 0 None 0 0 in
        upd_cache (c_set_cstr (Some data));; mret (Some data)
      else upd_conf (set_malloc_bad true);; mret None
  end.

(** What *ret_off is set to; [None] is the NULL that is returned.  The data is
    then in the cache. *)
Definition vstr__export_cstr_cache (pos len : Z) : M (option Z) :=
  b ← get_base;
  if export_bad b pos len then mret None
  else
    data ← cstr_cache_data;
    match data with
    | None => mret None
    | Some data =>
      let tmp := pos - cc_pos data in
      if decide (cc_ref data ≠ None ∧ cc_len data ≠ 0 ∧ cc_pos data ≤ pos ∧ u64 (cc_len data - tmp) = len)
      then mret (Some (u64 (cc_off data + tmp)))
      else
        let put ref sz := upd_cache (c_set_cstr (Some (mkCstr pos len (Some ref) sz 0))) in
        let fresh (data : cache_data_cstr) :=
          ref ← vstr__export_cstr_ref pos len;
          match ref with
          | None => mret None
          | Some r => put r (u64 (len + 1));; mret (Some 0)
          end in
        match cc_ref data with
        | None => fresh data
        | Some r =>
          v ← ref_at r;
          if decide (cc_sz data ≤ len ∨ r_ref v ≠ 1) then
            vstr_ref_del (Some r);;
            let data := mkCstr (cc_pos data) (cc_len data) None (cc_sz data) (cc_off data) in
            upd_cache (c_set_cstr (Some data));;
            fresh data
          else
            vstr_export_cstr_buf pos len (r_ptr v) (u64 (len + 1));;
            put r (cc_sz data);; mret (Some 0)
        end
    end.

(** The reference of the data in the cache *)
Definition cstr_cache_ref : M positive :=
  b ← get_base;
  of_option (data ← cache_get_cstr b; cc_ref data).

Definition vstr_export_cstr_ptr (pos len : Z) : M (option pointer) :=
  off ← vstr__export_cstr_cache pos len;
  match off with
  | None => mret None
  | Some off => r ← cstr_cache_ref; v ← ref_at r; mret (Some (ptr_add (r_ptr v) off))
  end.
Definition vstr_export_cstr_ref (pos len : Z) : M (option (positive * Z)) :=
  b ← get_base;
  if negb (cache_available b) then
    ref ← vstr__export_cstr_ref pos len;
    mret ((λ r, (r, 0)) <$> ref)
  else
    off ← vstr__export_cstr_cache pos len;
    match off with
    | None => mret None
    | Some off => r ← cstr_cache_ref; r ← vstr_ref_add r; mret (Some (r, off))
    end.
End fresh.

(** ** Vectors of the caller *)

(** The vector of the cache: its length in bytes, and its entries *)
Definition vstr_export_iovec_ptr_all : M (Z * option (list iovec)) :=
  b ← get_base;
  if decide (b_num b = 0) then mret (0, None)
  else
    ok ← vstr__cache_iovec_valid;
    if negb ok then mret (0, None)
    else
      b ← get_base;
      vec ← of_option (c_vec (b_cache b));
      mret (b_len b, Some (ztake (b_num b) (zdrop (cv_off vec) (cv_v vec)))).

(** The entries filled so far are counted by [ret_num], [used] bytes of the next one are. *)
Fixpoint iovec_cpy_buf_loop (fuel : nat) (it : Vstr_iter) (iovs : list iovec) (num_max ret_len ret_num used : Z)
    : M (Z * Z * Z) :=
  iov ← of_option (iovs !! Z.to_nat ret_num);
  let tmp := if decide (u64 (iov_len iov - used) < it_len it) then u64 (iov_len iov - used) else it_len it in
  (if iter_non it then mret tt
   else
     dst ← of_option (iov_base iov);
     src ← of_option (it_ptr it);
     mem_move (ptr_add dst used) src tmp);;
  let used := used + tmp in
  let it := iter_advance tmp it in
  let ret_len := ret_len + tmp in
  let full := bool_decide (iov_len iov = used) in
  let used := if full then 0 else used in
  let ret_num := if full then u32 (ret_num + 1) else ret_num in
  if full && bool_decide (num_max ≤ ret_num) then mret (ret_len, ret_num, used)
  else
    '(more, it) ← (if decide (it_len it ≠ 0) then mret (true, it) else vstr_iter_fwd_nxt it);
    if negb (more : bool) then mret (ret_len, ret_num, used)
    else match fuel with
    | O => undef
    | S fuel => iovec_cpy_buf_loop fuel it iovs num_max ret_len ret_num used
    end.
(** The length, the number of entries used and the entries *)
Definition vstr_export_iovec_cpy_buf (pos len : Z) (iovs : list iovec) (num_max : Z) : M (Z * Z * list iovec) :=
  if decide (num_max = 0) then mret (0, 0, iovs)
  else
    iter ← vstr_iter_fwd_beg pos len;
    match iter with
    | None => mret (0, 0, iovs)
    | Some it =>
      '(ret_len, ret_num, used) ← iovec_cpy_buf_loop (length (it_node it) + Z.to_nat num_max) it iovs num_max 0 0 0;
      if decide (used ≠ 0)
      then mret (ret_len, u32 (ret_num + 1), alter (λ v, mkIov (iov_base v) used) (Z.to_nat ret_num) iovs)
      else mret (ret_len, ret_num, iovs)
    end.

Fixpoint iovec_cpy_ptr_loop (fuel : nat) (it : Vstr_iter) (num_max ret_len : Z) (iovs : list iovec) : M (Z * list iovec) :=
  let iovs := iovs ++ [mkIov (it_ptr it) (it_len it)] in
  let ret_len := ret_len + it_len it in
  if decide (num_max ≤ zlen iovs) then mret (ret_len, iovs)
  else
    '(more, it) ← vstr_iter_fwd_nxt it;
    if negb (more : bool) then mret (ret_len, iovs)
    else match fuel with O => undef | S fuel => iovec_cpy_ptr_loop fuel it num_max ret_len iovs end.
(** The length and the entries written *)
Definition vstr_export_iovec_cpy_ptr (pos len num_max : Z) : M (Z * list iovec) :=
  if decide (num_max = 0) then mret (0, [])
  else
    iter ← vstr_iter_fwd_beg pos len;
    match iter with
    | None => mret (0, [])
    | Some it => iovec_cpy_ptr_loop (length (it_node it)) it num_max 0 []
    end.

(** ** Copying from an iterator *)

(** while ((iter->len || vstr_iter_fwd_nxt(iter)) && len): what is left of
    [len], and the iterator after it *)
Fixpoint iter_fwd_buf_loop (fuel : nat) (it : Vstr_iter) (len : Z) (buf : pointer) (buf_len : Z) : M (Z * Vstr_iter) :=
  '(more, it) ← (if decide (it_len it ≠ 0) then mret (true, it) else vstr_iter_fwd_nxt it);
  if decide (more = true ∧ len ≠ 0) then
    let tmp := if decide (it_len it < len) then it_len it else len in
    let tmp_buf_len := if decide (buf_len < tmp) then buf_len else tmp in
    (if decide (tmp_buf_len ≠ 0 ∧ iter_non it = false)
     then src ← of_option (it_ptr it); mem_move buf src tmp_buf_len else mret tt);;
    match fuel with
    | O => undef
    | S fuel => iter_fwd_buf_loop fuel (iter_advance tmp it) (len - tmp) (ptr_add buf tmp_buf_len) (buf_len - tmp_buf_len)
    end
  else mret (len, it).
Definition vstr_iter_fwd_buf (it : Vstr_iter) (len : Z) (buf : pointer) (buf_len : Z) : M (Z * iter_ern * Vstr_iter) :=
  '(more, it) ← (if decide (it_len it = 0) then vstr_iter_fwd_nxt it else mret (true, it));
  if negb (more : bool) then mret (0, ITER_END, it)
  else
    '(rest, it) ← iter_fwd_buf_loop (S (length (it_node it))) it len buf buf_len;
    mret (len - rest, ITER_DEF, it).
Definition vstr_iter_fwd_cstr (it : Vstr_iter) (len : Z) (buf : pointer) (buf_len : Z) : M (Z * option iter_ern * Vstr_iter) :=
  if decide (buf_len = 0) then mret (0, None, it)
  else
    let buf_len := buf_len - 1 in
    mem_store (ptr_add buf buf_len) [0];;
    '(ret, ern, it) ← vstr_iter_fwd_buf it len buf buf_len;
    when (bool_decide (ret < buf_len)) (mem_store (ptr_add buf ret) [0]);;
    mret (ret, Some ern, it).
