(* ===== verification/SplitSpec.v ===== *)
(** * Splitting: the fields of a list of characters, and that the loop of
    Split.v makes them sections, for any separator that keeps [Separator]. *)
From Stdlib Require Import ZArith Lia ZifyBool.
From stdpp Require Import base tactics list numbers option gmap.
From S2P Require Import Prelude State Wp Ref Cache Core Base Iter Spn Cmp Srch Split Inv PosLemmas BaseTheorems IterLemmas SpnSpec SpnTheorems CmpSpec SrchSpec.

Section others.
Context {OT : Others}.

(** ** Sections *)

(** [n] more sections can be added, if the memory does not run out. *)
Record sects_ok (n : Z) (sc : Vstr_sects) : Prop := {
  so_sz : 0 ≤ sc_sz sc ≤ UINT_MAX;
  so_num : sc_num sc ≤ sc_sz sc;
  so_bad : sc_malloc_bad sc = false;
  so_room : sc_can_add_sz sc = true ∨ sc_num sc + n ≤ sc_sz sc }.

Lemma alloc_ok_spec s : wp alloc_ok s (λ _ s', malloc_only s s').
Proof. unfold alloc_ok. wp_step. wp_apply malloc_spec. intros r s' [H _]. by wp_steps. Qed.

(** The array grows: there is room for one more. *)
Lemma vstr__sects_add_spec s sc :
  0 ≤ sc_sz sc ≤ UINT_MAX → wp (vstr__sects_add sc) s (λ '(ok, sc') s', malloc_only s s' ∧
    if ok : bool then ∃ sz, sc' = sc_set_sz sz sc ∧ sc_sz sc < sz ≤ UINT_MAX else sc' = sc_set_malloc_bad true sc).
Proof.
  intros Hsz. assert (Hu : u32 (sc_sz sc) = sc_sz sc) by (apply u32_id; unfold UINT_MAX in *; lia).
  unfold vstr__sects_add. rewrite Hu. case_decide as H0.
  - wp_step. wp_apply alloc_ok_spec. intros [] s' HM; wp_steps; (split; [done|]); [|done].
    exists 1. split; [done|]. unfold UINT_MAX. lia.
  - cbv zeta. set (sz1 := if sc_alloc_double sc then _ else _).
    set (sz2 := if decide (sz1 ≤ sc_sz sc) then _ else _). case_decide as H2; [wp_steps; split; [apply malloc_only_refl|done]|].
    unfold vstr__sects_mv. wp_step. wp_apply alloc_ok_spec. intros [] s' HM; wp_steps; (split; [done|]); [|done].
    exists sz2. split; [done|]. split; [lia|].
    assert (sz1 ≤ UINT_MAX) by (unfold sz1; destruct (sc_alloc_double sc); [apply u32_range|lia]).
    unfold sz2. case_decide; [apply u32_range|done].
Qed.

Lemma vstr_sects_add_spec s sc n pos len :
  sects_ok n sc → 1 ≤ n → wp (vstr_sects_add sc pos len) s (λ '(ok, sc') s', malloc_only s s' ∧
    if ok : bool then sects_ok (n - 1) sc' ∧ sc_ptr sc' = sc_ptr sc ++ [mkSect pos len]
    else sc_malloc_bad sc' = true ∧ sc_ptr sc' = sc_ptr sc).
Proof.
  intros [Hsz Hnum Hbad Hroom] Hn. unfold vstr_sects_add. wp_step. unfold sc_num in *.
  assert (Hput : ∀ sz s', 0 ≤ sz ≤ UINT_MAX → zlen (sc_ptr sc) + 1 ≤ sz → (sc_can_add_sz sc = true ∨ zlen (sc_ptr sc) + n ≤ sz) →
    malloc_only s s' → wp (mret (true, sc_set_ptr (sc_ptr (sc_set_sz sz sc) ++ [mkSect pos len]) (sc_set_sz sz sc))) s'
      (λ '(ok, sc') s', malloc_only s s' ∧
        if ok : bool then sects_ok (n - 1) sc' ∧ sc_ptr sc' = sc_ptr sc ++ [mkSect pos len]
        else sc_malloc_bad sc' = true ∧ sc_ptr sc' = sc_ptr sc)).
  { intros sz s' H1 H2 H3 HM. wp_steps. split; [done|]. destruct sc as [z m f a d al p]. cbn in *. split; [|done].
    split; unfold sc_num; cbn; rewrite ?length_app; cbn; [lia|lia|done|]. destruct H3; [by left|right; lia]. }
  assert (Hid : sc = sc_set_sz (sc_sz sc) sc) by by destruct sc.
  case_decide as Hfull.
  - destruct Hroom as [Hcan|Hroom]; [|lia]. rewrite Hcan. cbn [negb].
    wp_apply vstr__sects_add_spec; [done|]. intros [ok sc'] s' [HM H]. destruct ok; cbn [negb].
    + destruct H as (sz&->&Hz). apply Hput; [lia|lia|by left|done].
    + wp_steps. split; [done|]. rewrite H. by destruct sc.
  - wp_steps. cbn [negb]. rewrite Hid at 1 2. apply Hput; [lia|lia|done|apply malloc_only_refl].
Qed.

(** ** The string stays as it is *)
Record kept (s s' : St) : Prop := {
  k_wf : wf s';
  k_conf : s_conf s' = s_conf s;
  k_nodes : b_nodes (s_base s') = b_nodes (s_base s);
  k_used : b_used (s_base s') = b_used (s_base s);
  k_len : b_len (s_base s') = b_len (s_base s);
  k_mem : h_mem (s_heap s') = h_mem (s_heap s);
  k_refs : h_refs (s_heap s') = h_refs (s_heap s) }.
Lemma kept_refl s : wf s → kept s s.
Proof. by split. Qed.
Lemma kept_trans s1 s2 s3 : kept s1 s2 → kept s2 s3 → kept s1 s3.
Proof. intros [] []. split; congruence. Qed.
Lemma kept_only_pos s s' : wf s' → only_pos s s' → kept s s'.
Proof. intros Hw HO. destruct (only_pos_same _ _ HO) as (Eh&Ec&En&Eu&El&_). split; rewrite ?Eh; done. Qed.
Lemma kept_malloc_only s s' : wf s → malloc_only s s' → kept s s'.
Proof.
  intros Hw (Ec&Eb&Em&Er&Hn). split; rewrite ?Eb; try done.
  split; rewrite ?Eb; [|apply Hw|apply Hw]. rewrite Ec. eapply heap_inv_malloc_only; [apply Hw|done|done|done].
Qed.
Lemma kept_content s s' : kept s s' → st_content s' = st_content s.
Proof.
  intros [_ _ En Eu _ Em Er]. unfold st_content, content. rewrite En, Eu. f_equal. apply chain_frame. intros nd _.
  unfold node_bytes. by rewrite Em, Er.
Qed.
Lemma kept_in_range s s' pos len : kept s s' → in_range s pos len → in_range s' pos len.
Proof. intros H. unfold in_range. by rewrite (k_len _ _ H). Qed.

(** ** Fields *)
Section fields.
Context (find : list byte_or_non → option Z) (n : Z).

Fixpoint fields_from (fuel : nat) (pos : Z) (l : list byte_or_non) : list Vstr_sect_node :=
  match fuel with
  | O => []
  | S fuel =>
    match find l with
    | None => [mkSect pos (zlen l)]
    | Some i => mkSect pos i :: fields_from fuel (pos + i + n) (zdrop (i + n) l)
    end
  end.
(** The pieces between the separators, with the position of the first character of [l] *)
Definition fields (pos : Z) (l : list byte_or_non) : list Vstr_sect_node := fields_from (S (length l)) pos l.

(** How many separators [l] starts with *)
Fixpoint lead_from (fuel : nat) (l : list byte_or_non) : Z :=
  match fuel with
  | O => 0
  | S fuel => if decide (find l = Some 0) then 1 + lead_from fuel (zdrop n l) else 0
  end.
Definition lead (l : list byte_or_non) : Z := lead_from (S (length l)) l.

Hypothesis Hn : 1 ≤ n.
Hypothesis Hfind : ∀ l i, find l = Some i → 0 ≤ i ∧ i + n ≤ zlen l.

Lemma fields_fuel fuel : ∀ fuel' pos l, (length l < fuel)%nat → (length l < fuel')%nat →
  fields_from fuel pos l = fields_from fuel' pos l.
Proof.
  induction fuel as [|fuel IH]; intros [|fuel'] pos l H1 H2; [lia..|]. cbn [fields_from].
  destruct (find l) as [i|] eqn:E; [|done]. f_equal. destruct (Hfind _ _ E).
  assert (zlen (zdrop (i + n) l) < zlen l) by (rewrite length_zdrop; lia). apply IH; lia.
Qed.
Lemma fields_unfold pos l : fields pos l =
  match find l with
  | None => [mkSect pos (zlen l)]
  | Some i => mkSect pos i :: fields (pos + i + n) (zdrop (i + n) l)
  end.
Proof.
  unfold fields at 1. cbn [fields_from]. destruct (find l) as [i|] eqn:E; [|done]. f_equal. destruct (Hfind _ _ E).
  assert (zlen (zdrop (i + n) l) < zlen l) by (rewrite length_zdrop; lia). apply fields_fuel; lia.
Qed.
Lemma lead_fuel fuel : ∀ fuel' l, (length l < fuel)%nat → (length l < fuel')%nat → lead_from fuel l = lead_from fuel' l.
Proof.
  induction fuel as [|fuel IH]; intros [|fuel'] l H1 H2; [lia..|]. cbn [lead_from].
  case_decide as E; [|done]. f_equal. destruct (Hfind _ _ E).
  assert (zlen (zdrop n l) < zlen l) by (rewrite length_zdrop; lia). apply IH; lia.
Qed.
Lemma lead_unfold l : lead l = if decide (find l = Some 0) then 1 + lead (zdrop n l) else 0.
Proof.
  unfold lead at 1. cbn [lead_from]. case_decide as E; [|done]. f_equal. destruct (Hfind _ _ E).
  assert (zlen (zdrop n l) < zlen l) by (rewrite length_zdrop; lia). apply lead_fuel; lia.
Qed.

Lemma fields_ind (P : list byte_or_non → Prop) :
  (∀ l, (∀ i, find l = Some i → P (zdrop (i + n) l)) → P l) → ∀ l, P l.
Proof.
  intros HP l. remember (length l) as m eqn:Em. revert l Em. induction m as [m IH] using lt_wf_ind. intros l ->.
  apply HP. intros i E. destruct (Hfind _ _ E). eapply IH; [|done].
  assert (zlen (zdrop (i + n) l) < zlen l) by (rewrite length_zdrop; lia). lia.
Qed.
Lemma lead_bound l : 0 ≤ lead l ∧ lead l * n ≤ zlen l.
Proof.
  revert l. apply fields_ind. intros l IH. rewrite lead_unfold. case_decide as E; [|lia].
  destruct (Hfind _ _ E). specialize (IH _ E). rewrite Z.add_0_l, length_zdrop in IH. nia.
Qed.

(** [c] empty fields *)
Fixpoint empties (c : nat) (pos : Z) : list Vstr_sect_node :=
  match c with O => [] | S c => mkSect pos 0 :: empties c (pos + n) end.
Lemma empties_length c pos : length (empties c pos) = c.
Proof. revert pos. induction c as [|c IH]; intros pos; cbn; [done|]. by rewrite IH. Qed.
Lemma fields_lead pos l :
  fields pos l = empties (Z.to_nat (lead l)) pos ++ fields (pos + lead l * n) (zdrop (lead l * n) l).
Proof.
  revert l pos. refine (fields_ind _ _). intros l IH pos. rewrite lead_unfold. case_decide as E.
  - rewrite fields_unfold, E. specialize (IH _ E). rewrite Z.add_0_l in IH. destruct (lead_bound (zdrop n l)) as [Hl _].
    rewrite Z2Nat.inj_add by lia. cbn [empties Z.to_nat Pos.to_nat Nat.add Pos.iter_op app]. f_equal.
    replace (pos + 0 + n) with (pos + n) by lia. rewrite Z.add_0_l, IH. f_equal. rewrite zdrop_zdrop by nia.
    replace (pos + n + lead (zdrop n l) * n) with (pos + (1 + lead (zdrop n l)) * n) by lia.
    by replace (n + lead (zdrop n l) * n) with ((1 + lead (zdrop n l)) * n) by lia.
  - cbn [empties Z.to_nat app]. by rewrite Z.mul_0_l, Z.add_0_r, zdrop_0 by lia.
Qed.
Lemma fields_length l : ∀ pos, 1 ≤ zlen (fields pos l) ≤ zlen l + 1.
Proof.
  revert l. apply (fields_ind (λ l, ∀ pos, 1 ≤ zlen (fields pos l) ≤ zlen l + 1)). intros l IH pos.
  rewrite fields_unfold. destruct (find l) as [i|] eqn:E; cbn [length]; [|lia].
  specialize (IH _ eq_refl (pos + i + n)). destruct (Hfind _ _ E). rewrite length_zdrop in IH. lia.
Qed.
Lemma fields_nil pos : fields pos [] = [mkSect pos 0].
Proof. rewrite fields_unfold. destruct (find []) as [i|] eqn:E; [|done]. destruct (Hfind _ _ E) as [? H]. cbn in H. lia. Qed.
End fields.

(** ** The interface: what the loop asks of a separator *)
Class Separator (op : split_op) (find : list byte_or_non → option Z) := {
  sep_len : 1 ≤ so_len op;
  sep_find : ∀ l i, find l = Some i → 0 ≤ i ∧ i + so_len op ≤ zlen l;
  sep_srch : ∀ s pos len, wf s → in_range s pos len → range_fits pos len →
    wp (so_srch op pos len) s (λ r s', kept s s' ∧
      r = match find (substr pos len (st_content s)) with Some i => pos + i | None => 0 end);
  sep_null : ∀ s pos len, wf s → in_range s pos len → range_fits pos len → len ≤ UINT_MAX →
    find (substr pos len (st_content s)) = Some 0 →
    wp (so_null op pos len) s (λ '(at_end, count) s', kept s s' ∧
      count = lead find (so_len op) (substr pos len (st_content s)) ∧
      (at_end = true ↔ count * so_len op = len)) }.

(** The four flags about empty fields are all given, or none is and the rest is
    not asked for. *)
Definition null_flags (flags : Z) (b : bool) : Prop :=
  sflag flags VSTR_FLAG_SPLIT_BEG_NULL = b ∧ sflag flags VSTR_FLAG_SPLIT_MID_NULL = b ∧
  sflag flags VSTR_FLAG_SPLIT_END_NULL = b ∧ sflag flags VSTR_FLAG_SPLIT_POST_NULL = b ∧
  (b = false → sflag flags VSTR_FLAG_SPLIT_REMAIN = false).
(** The fields that become sections *)
Definition wanted (b : bool) (fs : list Vstr_sect_node) : list Vstr_sect_node :=
  if b then fs else filter (λ sn, sn_len sn ≠ 0) fs.
Lemma wanted_app b l k : wanted b (l ++ k) = wanted b l ++ wanted b k.
Proof. destruct b; [done|]. apply filter_app. Qed.
Lemma wanted_length b l : (length (wanted b l) ≤ length l)%nat.
Proof. destruct b; [done|]. apply length_filter. Qed.
Lemma wanted_empties b n c pos : wanted b (empties n c pos) = if b then empties n c pos else [].
Proof.
  destruct b; [done|]. unfold wanted. revert pos. induction c as [|c IH]; intros pos; [done|]. cbn [empties].
  rewrite filter_cons_False; [apply IH|]. cbn. by intros [].
Qed.
Lemma wanted_full b pos len : len ≠ 0 → wanted b [mkSect pos len] = [mkSect pos len].
Proof. intros H. destruct b; [done|]. unfold wanted. by rewrite filter_cons_True. Qed.

(** [K] has been added to [A], and [m] more sections can be. *)
Record adding (A K : list Vstr_sect_node) (m : Z) (sc : Vstr_sects) (added : Z) : Prop := {
  ad_ok : sects_ok m sc;
  ad_ptr : sc_ptr sc = A ++ K;
  ad_num : added = zlen K }.
(** The memory ran out: nothing is added. *)
Definition failed (A : list Vstr_sect_node) (sc : Vstr_sects) (r : Z) : Prop :=
  sc_malloc_bad sc = true ∧ sc_ptr sc = A ∧ r = 0.

Lemma split_add_spec s A K m sc flags added pos len :
  wf s → adding A K m sc added → 1 ≤ m → zlen K + 1 ≤ UINT_MAX →
  wp (split_add sc flags added pos len) s (λ '(sc', r, bad) s', kept s s' ∧
    if bad : bool then failed A sc' r else adding A (K ++ [mkSect pos len]) (m - 1) sc' r).
Proof.
  intros Hw [Hok Hptr ->] Hm HK. unfold split_add. wp_step. wp_apply vstr_sects_add_spec; [done|done|].
  intros [ok sc'] s1 [HM H]. pose proof (kept_malloc_only _ _ Hw HM) as HR. destruct ok.
  - destruct H as [Hok' Hp]. wp_steps. split; [done|]. rewrite Hptr, <- app_assoc in Hp. split; [done|done|].
    rewrite length_app. cbn. unfold UINT_MAX in *. rewrite u32_id; lia.
  - destruct H as [Hbad Hp]. unfold vstr__split_hdl_err. rewrite Hbad. wp_steps. split; [done|].
    split; [by destruct sc'|]. split; [|done].
    assert (sc_num sc' - zlen K = zlen A) as ->.
    { unfold sc_num. rewrite Hp, Hptr, length_app. lia. }
    destruct sc' as [z mb f a d al p]. cbn in *. rewrite Hp, Hptr. apply ztake_app_len.
Qed.

Lemma split_nulls_spec (b : bool) n flags A count : ∀ s K m sc added pos len,
  wf s → adding A K m sc added → (b = true → Z.of_nat count ≤ m ∧ zlen K + Z.of_nat count ≤ UINT_MAX) →
  1 ≤ n → 0 ≤ pos → Z.of_nat count * n ≤ len → pos + len ≤ SIZE_MAX →
  wp (split_nulls count b n flags sc added pos len) s (λ '(sc', r, pos', len', bad) s', kept s s' ∧
    if bad : bool then failed A sc' r
    else adding A (K ++ if b then empties n count pos else []) (if b then m - Z.of_nat count else m) sc' r ∧
      pos' = pos + Z.of_nat count * n ∧ len' = len - Z.of_nat count * n).
Proof.
  induction count as [|count IH]; intros s K m sc added pos len Hw HA Hb Hn Hp Hlen Hmax; cbn [split_nulls].
  { wp_steps. split; [by apply kept_refl|]. cbn [empties]. split; [|lia]. destruct b; rewrite app_nil_r; [|done].
    by replace (m - Z.of_nat 0) with m by lia. }
  wp_step. eapply (wp_mono _ _ (λ '(sc', r, bad) s', kept s s' ∧
    if bad : bool then failed A sc' r
    else adding A (K ++ if b then [mkSect pos 0] else []) (if b then m - 1 else m) sc' r)).
  { destruct b; [apply split_add_spec; [done|done|lia|lia]|]. wp_steps. split; [by apply kept_refl|]. by rewrite app_nil_r. }
  intros [[sc' r] bad] s1 [HR H]. destruct bad; [by wp_steps|].
  rewrite (u64_id (pos + n)), (u64_id (len - n)) by nia.
  eapply wp_mono.
  - eapply (IH s1 _ _ sc' r); [apply HR|exact H| |done|lia|nia|lia].
    intros ->. specialize (Hb eq_refl). rewrite length_app. cbn. lia.
  - intros [[[[sc2 r2] pos2] len2] bad2] s2 [HR2 H2]. split; [by eapply kept_trans|]. destruct bad2; [done|].
    destruct H2 as (H2&->&->). split; [|lia]. destruct b; cbn [empties].
    + rewrite <- app_assoc in H2. cbn [app] in H2. by replace (m - Z.of_nat (S count)) with (m - 1 - Z.of_nat count) by lia.
    + by rewrite app_nil_r in H2.
Qed.

(** What a call gives: the sections, or nothing when the memory ran out *)
Definition split_done (A K : list Vstr_sect_node) (sc : Vstr_sects) (r : Z) : Prop :=
  failed A sc r ∨ (sc_malloc_bad sc = false ∧ sc_ptr sc = A ++ K ∧ r = zlen K).
Lemma adding_done A K m sc added : adding A K m sc added → split_done A K sc added.
Proof. intros [[_ _ Hb _] Hp ->]. by right. Qed.

Section split_loop.
Context (op : split_op) (find : list byte_or_non → option Z) `{SP : !Separator op find}.
Context (s0 : St) (b : bool) (flags orig : Z) (A : list Vstr_sect_node).
Hypothesis Hflags : null_flags flags b.
Local Abbreviation n := (so_len op).
Local Abbreviation flds := (fields find (so_len op)).
Let Hn : 1 ≤ n := sep_len.
Let Hfind := sep_find (op := op) (find := find).

Lemma split_hdl_end_spec s pos len split_pos K m sc added :
  kept s0 s → adding A K m sc added → m = zlen (wanted b [mkSect pos len]) → zlen K + m ≤ UINT_MAX →
  (len ≠ 0 → split_pos = 0) →
  wp (vstr__split_hdl_end pos len split_pos sc 0 flags added) s (λ '(sc', r) s', kept s0 s' ∧
    split_done A (K ++ wanted b [mkSect pos len]) sc' r).
Proof.
  intros HK HA Hm Hmax Hsp. destruct Hflags as (_&_&_&HP&_). unfold vstr__split_hdl_end. rewrite HP.
  destruct (decide (len ≠ 0 ∨ b = true)) as [Hc|Hc].
  - assert (Ew : wanted b [mkSect pos len] = [mkSect pos len]) by (destruct Hc as [Hc| ->]; [by apply wanted_full|done]).
    rewrite Ew in Hm |- *. cbn in Hm. rewrite decide_True.
    + wp_step. wp_apply split_add_spec; [apply HK|exact HA|lia|lia|]. intros [[sc' r] bad] s' [HR H]. wp_steps.
      split; [by eapply kept_trans|]. destruct bad; [by left|]. by eapply adding_done.
    + destruct (decide (len = 0)); [right|left; auto]. destruct Hc; [done|]. auto.
  - assert (len = 0 ∧ b = false) as [-> ->] by (destruct b; destruct (decide (len = 0)); tauto).
    rewrite decide_False by (intros [[]|(_&?&_)]; done). wp_steps. split; [done|]. rewrite app_nil_r. by eapply adding_done.
Qed.

Lemma split_null_end_spec s pos len l K m sc added :
  kept s0 s → adding A K m sc added → m = zlen (wanted b (flds pos l)) → zlen K + m ≤ UINT_MAX →
  zlen l = len → lead find n l * n = len → len ≠ 0 → 0 ≤ pos → pos + len ≤ SIZE_MAX →
  wp (vstr__split_hdl_null_end pos len n sc flags (lead find n l) 0 added) s (λ '(sc', r) s', kept s0 s' ∧
    split_done A (K ++ wanted b (flds pos l)) sc' r).
Proof.
  intros HK HA Hm Hmax Hl Hlead Hlen Hp Hfits. pose proof Hflags as (_&_&HE&HP&HR). unfold vstr__split_hdl_null_end.
  rewrite HE, HP. destruct (lead_bound find n Hn Hfind l) as [Hl0 _]. set (c := Z.to_nat (lead find n l)).
  assert (Hc : Z.of_nat c = lead find n l) by (unfold c; lia).
  assert (Ef : flds pos l = empties n c pos ++ [mkSect (pos + len) 0]).
  { rewrite (fields_lead _ _ Hn Hfind). rewrite Hlead, zdrop_all by lia. by rewrite fields_nil. }
  unfold split_count. rewrite decide_False by (intros [? _]; lia). fold c.
  rewrite Ef, wanted_app, wanted_empties in Hm |- *. destruct b.
  - cbn [wanted] in Hm |- *. rewrite length_app, empties_length in Hm. cbn in Hm.
    wp_step. wp_apply (split_nulls_spec true n flags A c s K m sc added pos len); [apply HK|done|lia|done|lia|lia|lia|].
    intros [[[[sc' r] pos'] len'] bad] s1 [HR1 H]. destruct bad; [wp_steps; split; [by eapply kept_trans|by left]|].
    destruct H as (HA'&->&->). rewrite Hc, Hlead, Z.sub_diag.
    rewrite decide_True by (right; done). wp_step.
    wp_apply split_add_spec; [apply HR1|exact HA'|lia|rewrite length_app, empties_length; lia|].
    intros [[sc2 r2] bad2] s2 [HR2 H2]. wp_steps. split; [by eapply kept_trans; [by eapply kept_trans|]|].
    destruct bad2; [by left|]. rewrite <- app_assoc in H2. by eapply adding_done.
  - wp_steps. rewrite (HR eq_refl). rewrite decide_False by (intros [[_ ?]|[_ ?]]; done). wp_steps. split; [done|].
    change (wanted false [mkSect (pos + len) 0]) with (@nil Vstr_sect_node). rewrite !app_nil_r. by eapply adding_done.
Qed.

Lemma split_loop_spec fuel : ∀ s pos len l split_pos K m sc added,
  kept s0 s → adding A K m sc added → m = zlen (wanted b (flds pos l)) → zlen K + m ≤ UINT_MAX →
  (len ≠ 0 → in_range s0 pos len ∧ l = substr pos len (st_content s0)) → zlen l = len →
  1 ≤ orig ≤ pos → (pos = orig → K = []) → pos + len ≤ SIZE_MAX → len ≤ UINT_MAX → len ≤ Z.of_nat fuel →
  wp (split_loop op 0 flags orig fuel pos len split_pos added sc) s (λ '(sc', r) s', kept s0 s' ∧
    split_done A (K ++ wanted b (flds pos l)) sc' r).
Proof.
  induction fuel as [|fuel IH]; intros s pos len l split_pos K m sc added HK HA Hm Hmax Hr Hl Ho HK0 Hfits Hlm Hf;
    pose proof Hflags as (HB&HM&HE&HP&HR); pose proof split_null_end_spec as Hnend; cbn [split_loop].
  - assert (len = 0) as -> by lia. rewrite decide_False by lia. destruct l; [|cbn in Hl; lia].
    rewrite (fields_nil _ _ Hn Hfind) in *. by eapply split_hdl_end_spec.
  - unfold split_more. rewrite bool_decide_eq_true_2 by by left.
    case_decide as H0.
    2:{ destruct (decide (len = 0)) as [->|]; [|by destruct H0]. destruct l; [|cbn in Hl; lia].
        rewrite (fields_nil _ _ Hn Hfind) in *. by eapply split_hdl_end_spec. }
    destruct (Hr (proj1 H0)) as [Hir El]. wp_step.
    wp_apply sep_srch; [apply HK|by eapply kept_in_range|exact Hfits|]. intros x s1 [HK1 ->].
    rewrite (kept_content _ _ HK), <- El. pose proof (kept_trans _ _ _ HK HK1) as HK2. pose proof (k_wf _ _ HK2) as Hw1.
    destruct (find l) as [i|] eqn:Ei.
    2:{ rewrite decide_True by done. rewrite (fields_unfold _ _ Hn Hfind), Ei, Hl in Hm |- *. by eapply split_hdl_end_spec. }
    destruct (Hfind _ _ Ei) as [Hi0 Hi1]. rewrite decide_False by lia. cbv zeta.
    set (next := λ r : Vstr_sects * Z * Z * Z * bool, let '(_, _, _, _, _) := r in _).
    assert (Hnext : ∀ F d sc' r pos' len' (bad : bool) s2, kept s0 s2 →
      flds pos l = F ++ flds (pos + d) (zdrop d l) → 1 ≤ d ≤ len →
      (if bad then failed A sc' r else adding A (K ++ wanted b F) (m - zlen (wanted b F)) sc' r ∧ pos' = pos + d ∧ len' = len - d) →
      wp (next (sc', r, pos', len', bad)) s2 (λ '(sc', r) s', kept s0 s' ∧ split_done A (K ++ wanted b (flds pos l)) sc' r)).
    { intros F d sc' r pos' len' bad s2 HK3 EF Hd H. unfold next. destruct bad; [wp_steps; split; [done|by left]|].
      destruct H as (HA'&->&->). rewrite EF, wanted_app in Hm |- *. rewrite length_app in Hm. rewrite app_assoc.
      eapply (IH s2 (pos + d) (len - d) (zdrop d l) _ (K ++ wanted b F)); [exact HK3|exact HA'|lia|rewrite length_app; lia| |rewrite length_zdrop; lia|lia|lia|lia|lia|lia].
      intros Hne. split; [unfold in_range in *; lia|]. rewrite El. symmetry. apply zdrop_substr; unfold in_range in Hir; lia. }
    clearbody next. destruct (lead_bound find n Hn Hfind l) as [Hc0 Hc1].
    assert (Hlead : i = 0 → 1 ≤ lead find n l).
    { intros ->. rewrite (lead_unfold find n Hn Hfind), decide_True by done.
      destruct (lead_bound find n Hn Hfind (zdrop n l)). lia. }
    assert (Enull : i = 0 → wp (so_null op pos len) s1 (λ '(at_end, count) s', kept s0 s' ∧
      count = lead find n l ∧ (at_end = true ↔ count * n = len))).
    { intros ->. wp_apply sep_null; [apply HK2|by eapply kept_in_range|exact Hfits|done|by rewrite (kept_content _ _ HK2), <- El|].
      intros [at_end count] s2 [HK3 H]. rewrite (kept_content _ _ HK2), <- El in H. split; [by eapply kept_trans|done]. }
    assert (Ecount : split_count (lead find n l) 0 flags added = lead find n l).
    { unfold split_count. rewrite decide_False by (intros [? _]; lia). done. }
    assert (Hnulls : ∀ s2, i = 0 → kept s0 s2 →
      wp (r ← split_nulls (Z.to_nat (lead find n l)) b n flags sc added pos len; next r) s2
        (λ '(sc', r) s', kept s0 s' ∧ split_done A (K ++ wanted b (flds pos l)) sc' r)).
    { intros s2 Hi HK3. pose proof (fields_lead _ _ Hn Hfind pos l) as EF. set (c := Z.to_nat (lead find n l)) in *.
      assert (Hc : Z.of_nat c = lead find n l) by (unfold c; lia). specialize (Hlead Hi).
      assert (Hwe : zlen (wanted b (empties n c pos)) = if b then Z.of_nat c else 0).
      { rewrite wanted_empties. destruct b; [by rewrite empties_length|done]. }
      wp_step. wp_apply (split_nulls_spec b n flags A c s2 K m sc added pos len); [apply HK3|exact HA| |done|lia|lia|lia|].
      - intros ->. rewrite EF, wanted_app, length_app in Hm. cbn [wanted] in Hm. rewrite empties_length in Hm. lia.
      - intros [[[[sc' r] pos'] len'] bad] s3 [HR3 H]. eapply (Hnext (empties n c pos) (lead find n l * n));
          [by eapply kept_trans|exact EF|nia|]. destruct bad; [exact H|]. rewrite Hc in H. rewrite Hwe.
        rewrite wanted_empties. destruct H as (H&->&->). split; [|done]. rewrite Hc. destruct b; [done|]. by rewrite Z.sub_0_r. }
    case_decide as E1; [|case_decide as E2].
    + assert (i = 0 ∧ pos = orig) as [Hi Hpo] by lia. wp_step. wp_apply (Enull Hi). intros [at_end count] s2 (HK3&->&Hend).
      destruct at_end.
      * rewrite HB. destruct b; cbn [negb].
        -- eapply Hnend; [exact HK3|exact HA|exact Hm|lia|done|by apply Hend|tauto|lia|lia].
        -- wp_steps. split; [done|]. rewrite (fields_lead _ _ Hn Hfind), wanted_app, wanted_empties in Hm |- *.
           rewrite (proj1 Hend) in Hm |- * by done. rewrite zdrop_all, (fields_nil _ _ Hn Hfind) in Hm |- * by lia.
           change (wanted false [mkSect (pos + len) 0]) with (@nil Vstr_sect_node). rewrite !app_nil_r.
           destruct HA as [[_ _ Hb _] Hp ->]. right. rewrite (HK0 Hpo) in *. done.
      * unfold vstr__split_hdl_null_beg. rewrite HB, Ecount. by apply Hnulls.
    + assert (i = 0) as Hi by lia. wp_step. wp_apply (Enull Hi). intros [at_end count] s2 (HK3&->&Hend). destruct at_end.
      * eapply Hnend; [exact HK3|exact HA|exact Hm|lia|done|by apply Hend|tauto|lia|lia].
      * unfold vstr__split_hdl_null_mid. rewrite HM, Ecount. by apply Hnulls.
    + assert (Hi : 1 ≤ i) by lia. unfold vstr__split_hdl_def. rewrite (u64_id (pos + i - pos)) by lia.
      replace (pos + i - pos) with i by lia. pose proof (fields_unfold _ _ Hn Hfind pos l) as EF. rewrite Ei in EF.
      assert (EF' : flds pos l = [mkSect pos i] ++ flds (pos + (i + n)) (zdrop (i + n) l)).
      { rewrite EF. cbn [app]. by replace (pos + i + n) with (pos + (i + n)) by lia. }
      assert (Ew : wanted b [mkSect pos i] = [mkSect pos i]) by (apply wanted_full; lia).
      wp_step. rewrite EF', wanted_app, Ew in Hm. cbn in Hm. wp_step.
      wp_apply split_add_spec; [exact Hw1|exact HA|lia|lia|]. intros [[sc' r] bad] s2 [HR2 H].
      destruct bad.
      * wp_steps. eapply (Hnext [mkSect pos i] (i + n)); [by eapply kept_trans|exact EF'|lia|done].
      * rewrite (u64_id (i + n)), (u64_id (pos + (i + n))), (u64_id (len - (i + n))) by lia. wp_steps.
        eapply (Hnext [mkSect pos i] (i + n)); [by eapply kept_trans|exact EF'|lia|].
        rewrite Ew. cbn. split; [done|]. lia.
Qed.
End split_loop.

(** ** The implementations *)
Definition find_chrs (chrs : list Z) (l : list byte_or_non) : option Z :=
  let c := count_while (negb ∘ in_chrs (Some chrs)) l in if decide (c < zlen l) then Some c else None.
Lemma find_chrs_cons chrs x l : find_chrs chrs (x :: l) =
  if in_chrs (Some chrs) x then Some 0 else Z.succ <$> find_chrs chrs l.
Proof.
  unfold find_chrs. cbn [count_while length]. unfold compose. destruct (in_chrs _ x); cbn [negb].
  - by rewrite decide_True by lia.
  - do 2 case_decide; try lia; cbn; [|done]. f_equal. lia.
Qed.
Lemma lead_chrs chrs l : lead (find_chrs chrs) 1 l = count_while (in_chrs (Some chrs)) l.
Proof.
  assert (Hf : ∀ l i, find_chrs chrs l = Some i → 0 ≤ i ∧ i + 1 ≤ zlen l).
  { intros l' i. unfold find_chrs. cbv zeta. pose proof (count_while_bound (negb ∘ in_chrs (Some chrs)) l').
    case_decide; intros [= <-]. lia. }
  induction l as [|x l IH]; rewrite (lead_unfold _ 1 ltac:(lia) Hf); [by rewrite decide_False|].
  rewrite find_chrs_cons. cbn [count_while]. destruct (in_chrs _ x).
  - rewrite decide_True by done. by rewrite <- IH.
  - rewrite decide_False; [done|]. destruct (find_chrs chrs l) as [i|] eqn:E; [|done]. destruct (Hf _ _ E). cbn. intros [= ?]. lia.
Qed.
#[export] Instance split_chrs_separator chrs : Separator (split_chrs_op chrs) (find_chrs chrs).
Proof.
  split; cbn [so_len so_srch so_null split_chrs_op].
  - lia.
  - intros l i. unfold find_chrs. cbv zeta. pose proof (count_while_bound (negb ∘ in_chrs (Some chrs)) l).
    case_decide; intros [= <-]. lia.
  - intros s pos len Hw Hr Hfit. pose proof (substr_length _ _ _ Hw Hr) as Hl. unfold vstr_srch_chrs_fwd. wp_step.
    wp_apply vstr_cspn_chrs_fwd_spec; [done..|]. intros n s' (->&HO&Hw'). wp_steps. split; [by apply kept_only_pos|].
    unfold find_chrs. cbv zeta. pose proof (count_while_bound (negb ∘ in_chrs (Some chrs)) (substr pos len (st_content s))).
    unfold in_range, range_fits in *. do 2 case_decide; try lia. rewrite u64_id; lia.
  - intros s pos len Hw Hr Hfit Hmax Hf. pose proof (substr_length _ _ _ Hw Hr) as Hl. wp_step.
    wp_apply vstr_spn_chrs_fwd_spec; [done..|]. intros n s' (->&HO&Hw'). wp_steps. split; [by apply kept_only_pos|].
    pose proof (count_while_bound (in_chrs (Some chrs)) (substr pos len (st_content s))).
    rewrite u32_id by (unfold UINT_MAX in *; lia). rewrite lead_chrs. split; [done|]. rewrite bool_decide_eq_true. lia.
Qed.

(** The first place where [pat] is *)
Fixpoint find_sub (pat l : list byte_or_non) : option Z :=
  if decide (ztake (zlen pat) l = pat) then Some 0
  else match l with [] => None | _ :: l => Z.succ <$> find_sub pat l end.
Lemma find_sub_occ pat l : pat ≠ [] → match find_sub pat l with
  | Some i => occurs id pat l i ∧ ∀ j, occurs id pat l j → i ≤ j
  | None => ∀ j, ¬ occurs id pat l j end.
Proof.
  intros Hpat. induction l as [|x l IH]; cbn [find_sub].
  - case_decide as E; [exfalso; apply Hpat; rewrite <- E; unfold ztake; by rewrite take_nil|].
    intros j Hj. apply occurs_bound in Hj as [H1 H2]; [|done]. cbn in H2. destruct pat; cbn in *; [done|lia].
  - case_decide as E.
    + split; [|by intros j [? _]]. split; [done|]. rewrite zdrop_0 by lia. by rewrite E.
    + assert (Hs : ∀ j, occurs id pat (x :: l) j ↔ 0 < j ∧ occurs id pat l (j - 1)).
      { intros j. split.
        - intros Hj. assert (0 < j).
          { destruct (decide (j = 0)) as [->|]; [|destruct Hj; lia]. destruct Hj as [_ Hj]. rewrite zdrop_0, !list_fmap_id in Hj by lia. done. }
          split; [done|]. apply (occurs_shift id pat [x]); [lia|]. by replace (zlen [x] + (j - 1)) with j by (cbn; lia).
        - intros [Hj H]. apply (occurs_shift id pat [x]) in H; [|lia]. by replace (zlen [x] + (j - 1)) with j in H by (cbn; lia). }
      destruct (find_sub pat l) as [i|]; cbn.
      * destruct IH as [H1 H2]. split; [apply Hs; split; [destruct H1; lia|]; by replace (Z.succ i - 1) with i by lia|].
        intros j [Hj Hj']%Hs. specialize (H2 _ Hj'). lia.
      * intros j [_ Hj]%Hs. by eapply IH.
Qed.
Lemma first_occ_find_sub pat pos l r : 1 ≤ pos → pat ≠ [] → first_occ id pat pos l r →
  r = match find_sub pat l with Some i => pos + i | None => 0 end.
Proof.
  intros Hp Hpat H. pose proof (find_sub_occ pat l Hpat) as Hf. destruct (find_sub pat l) as [i|].
  - destruct Hf as [H1 H2]. destruct H as [[_ H]|(k&->&H3&H4)]; [by destruct (H i)|]. specialize (H2 _ H3). specialize (H4 _ H1). lia.
  - destruct H as [[-> _]|(k&_&H3&_)]; [done|]. by destruct (Hf k).
Qed.

Lemma find_sub_here pat l : pat ≠ [] → find_sub pat l = Some 0 ↔ ztake (zlen pat) l = pat.
Proof.
  intros Hpat. destruct l as [|x l]; cbn [find_sub]; case_decide as E; try done.
  split; [|done]. destruct (find_sub pat l) as [i|] eqn:Ei; [|done]. cbn. intros [= Hi].
  pose proof (find_sub_occ pat l Hpat) as Ho. rewrite Ei in Ho. destruct Ho as [[? _] _]. lia.
Qed.
Lemma find_sub_bound pat l i : pat ≠ [] → find_sub pat l = Some i → 0 ≤ i ∧ i + zlen pat ≤ zlen l.
Proof. intros Hpat E. pose proof (find_sub_occ pat l Hpat) as Ho. rewrite E in Ho. eapply occurs_bound; [done|apply Ho]. Qed.

Section buf.
Context (buf : list Z).
Hypothesis Hbuf : buf ≠ [].
Local Abbreviation pat := (Some <$> buf : list byte_or_non).
Local Abbreviation fnd := (find_sub (Some <$> buf)).
Lemma pat_not_nil : pat ≠ [].
Proof. destruct buf; done. Qed.
Lemma pat_length : zlen pat = zlen buf.
Proof. by rewrite length_fmap. Qed.
Lemma buf_bound l i : fnd l = Some i → 0 ≤ i ∧ i + zlen buf ≤ zlen l.
Proof. intros E. rewrite <- pat_length. by eapply find_sub_bound; [apply pat_not_nil|]. Qed.
Lemma buf_pos : 1 ≤ zlen buf.
Proof. destruct buf; [done|]. cbn. lia. Qed.

Lemma vstr_cmp_buf_eq_spec s0 pos len s i :
  in_range s0 pos len → still s0 s → 0 ≤ i → i + zlen buf ≤ len →
  wp (vstr_cmp_buf_eq (pos + i) (zlen buf) (Some buf) (zlen buf)) s (λ r s', still s0 s' ∧
    (r = true ↔ fnd (zdrop i (substr pos len (st_content s0))) = Some 0)).
Proof.
  intros Hr Hs Hi Hle. unfold vstr_cmp_buf_eq. rewrite bool_decide_eq_true_2 by done. cbn [negb]. wp_step.
  eapply wp_mono; [apply (still_cmp_buf s0 pos len Hr cmp_memcmp id); [done|lia|apply buf_pos|lia|]|].
  - split; [lia|]. by intros ? [= <-].
  - intros r s' [Hs' Hr0]. wp_steps. split; [done|]. cbn [buf_content] in Hr0.
    rewrite bool_decide_eq_true, Hr0, !list_fmap_id, (find_sub_here _ _ pat_not_nil). by rewrite pat_length.
Qed.

Lemma split_null_loop_spec s0 pos len fuel : ∀ s i num, in_range s0 pos len → range_fits pos len →
  still s0 s → 0 ≤ i ≤ len → 0 ≤ num → num + (len - i) ≤ UINT_MAX → len - i ≤ Z.of_nat fuel →
  wp (split_null_loop fuel (pos + i) (len - i) buf num) s (λ '(at_end, count) s', still s0 s' ∧
    let rest := zdrop i (substr pos len (st_content s0)) in
    count = num + lead fnd (zlen buf) rest ∧ (at_end = true ↔ lead fnd (zlen buf) rest * zlen buf = len - i)).
Proof.
  pose proof buf_pos as Hb. pose proof buf_bound as Hfind.
  induction fuel as [|fuel IH]; intros s i num Hr Hfit Hs Hi Hnum Hmax Hf; cbn [split_null_loop].
  all: assert (Hw0 : wf s0 → zlen (substr pos len (st_content s0)) = len) by (intros; by apply substr_length).
  all: assert (Hl : zlen (substr pos len (st_content s0)) = len)
    by (destruct Hs as [HO Hw]; rewrite <- (only_pos_content _ _ HO); apply substr_length; [done|by eapply only_pos_in_range]).
  all: set (rest := zdrop i (substr pos len (st_content s0))).
  all: assert (Hrl : zlen rest = len - i) by (unfold rest; rewrite length_zdrop; lia).
  all: assert (Hshort : len - i < zlen buf → lead fnd (zlen buf) rest = 0).
  all: try (intros Hlt; rewrite (lead_unfold fnd (zlen buf) Hb Hfind); rewrite decide_False; [done|];
            intros E; destruct (Hfind _ _ E); lia).
  - rewrite decide_False by lia. wp_steps. split; [done|]. cbv zeta. rewrite Hshort by lia.
    split; [lia|]. rewrite bool_decide_eq_true. lia.
  - case_decide as Hle.
    2:{ wp_steps. split; [done|]. cbv zeta. rewrite Hshort by lia. split; [lia|]. rewrite bool_decide_eq_true. lia. }
    wp_step. wp_apply vstr_cmp_buf_eq_spec; [exact Hr|exact Hs|lia|lia|]. intros eq s1 [Hs1 Heq]. fold rest in Heq.
    rewrite (lead_unfold fnd (zlen buf) Hb Hfind rest). destruct eq; cbn [negb].
    + rewrite decide_True by by apply Heq. unfold in_range, range_fits, UINT_MAX in *. rewrite u64_id, u32_id by lia.
      replace (pos + i + zlen buf) with (pos + (i + zlen buf)) by lia.
      replace (len - i - zlen buf) with (len - (i + zlen buf)) by lia.
      eapply wp_mono; [apply (IH s1 (i + zlen buf) (num + 1)); try done; lia|].
      intros [at_end count] s2 [Hs2 H]. split; [done|]. cbv zeta in H |- *.
      assert (Er : zdrop (zlen buf) rest = zdrop (i + zlen buf) (substr pos len (st_content s0))) by (unfold rest; apply zdrop_zdrop; lia).
      rewrite Er. destruct H as [-> H]. split; [lia|]. rewrite H. lia.
    + rewrite decide_False by (intros E; by apply Heq in E). wp_steps. split; [done|]. cbv zeta.
      split; [lia|]. rewrite Z.mul_0_l. split; [done|]. lia.
Qed.

Lemma split_buf_separator : Separator (split_buf_op buf) fnd.
Proof.
  pose proof buf_pos as Hb. pose proof buf_bound as Hfind.
  split; cbn [so_len so_srch so_null split_buf_op]; [done|done|..].
  - intros s pos len Hw Hr Hfit.
    wp_apply vstr_srch_buf_fwd_spec; [exact Hw|exact Hr|exact Hfit|split; [lia|]; by intros ? [= <-]|].
    intros r s' (Ho&HO&Hw'). split; [by apply kept_only_pos|]. cbn [buf_content] in Ho.
    eapply first_occ_find_sub; [apply Hr|apply pat_not_nil|exact Ho].
  - intros s pos len Hw Hr Hfit Hmax Hf. pose proof (substr_length _ _ _ Hw Hr) as Hl.
    destruct (Hfind _ _ Hf) as [_ Hle]. unfold vstr__split_buf_null_end.
    assert (El : lead fnd (zlen buf) (substr pos len (st_content s)) =
      1 + lead fnd (zlen buf) (zdrop (zlen buf) (substr pos len (st_content s)))).
    { by rewrite (lead_unfold fnd (zlen buf) Hb Hfind), decide_True. }
    rewrite El. case_decide as E.
    + wp_steps. split; [by apply kept_refl|]. rewrite zdrop_all by lia.
      rewrite (lead_unfold fnd (zlen buf) Hb Hfind). rewrite decide_False; [split; [lia|]; split; [lia|done]|].
      intros E'. destruct (Hfind _ _ E') as [_ H]. cbn in H. lia.
    + unfold in_range, range_fits in *. rewrite u64_id by lia.
      eapply wp_mono; [apply (split_null_loop_spec s pos len (Z.to_nat len) s (zlen buf) 1); try done; lia || split; [apply only_pos_refl|done]|].
      intros [at_end count] s' [[HO Hw'] H]. split; [by apply kept_only_pos|]. cbv zeta in H. destruct H as [-> H].
      split; [done|]. rewrite H. lia.
Qed.
End buf.

(** ** Joining the fields again *)
Fixpoint join (sep : list byte_or_non) (ls : list (list byte_or_non)) : list byte_or_non :=
  match ls with
  | [] => []
  | l :: ls => match ls with [] => l | _ :: _ => l ++ sep ++ join sep ls end
  end.
(** The characters of a section *)
Definition sect_text (C : list byte_or_non) (sn : Vstr_sect_node) : list byte_or_non := substr (sn_pos sn) (sn_len sn) C.

Lemma join_fields pat C : pat ≠ [] → ∀ l pos, 1 ≤ pos → l = substr pos (zlen l) C →
  join pat (sect_text C <$> fields (find_sub pat) (zlen pat) pos l) = l ∧
  Forall (λ sn, ∀ j, ¬ occurs id pat (sect_text C sn) j) (fields (find_sub pat) (zlen pat) pos l).
Proof.
  intros Hpat. assert (Hn : 1 ≤ zlen pat) by (destruct pat; [done|cbn; lia]).
  pose proof (λ l i, find_sub_bound pat l i Hpat) as Hfind.
  refine (fields_ind _ _ Hn Hfind _ _). intros l IH pos Hpos El. rewrite (fields_unfold _ _ Hn Hfind).
  pose proof (find_sub_occ pat l Hpat) as Ho. destruct (find_sub pat l) as [i|] eqn:Ei.
  - destruct (Hfind _ _ Ei) as [Hi0 Hi1]. destruct Ho as [[_ Ho] Hmin]. rewrite !list_fmap_id in Ho.
    assert (Hs : ∀ k m, 0 ≤ k → 0 ≤ m → k + m ≤ zlen l → substr (pos + k) m C = ztake m (zdrop k l)).
    { intros k m ? ? ?. rewrite El. apply substr_substr; lia. }
    assert (Ed : zdrop (i + zlen pat) l = substr (pos + i + zlen pat) (zlen (zdrop (i + zlen pat) l)) C).
    { rewrite <- Z.add_assoc, Hs by (rewrite ?length_zdrop; lia). by rewrite ztake_all by lia. }
    destruct (IH _ eq_refl (pos + i + zlen pat) ltac:(lia) Ed) as [IHj IHf].
    assert (Et : sect_text C (mkSect pos i) = ztake i l).
    { unfold sect_text. cbn. rewrite <- (Z.add_0_r pos), Hs by lia. by rewrite zdrop_0 by lia. }
    split.
    + rewrite fmap_cons, Et. pose proof (fields_length _ _ Hn Hfind (zdrop (i + zlen pat) l) (pos + i + zlen pat)) as Hfl.
      destruct (fields _ _ _ _) as [|f fs]; [cbn in Hfl; lia|]. cbn [join fmap list_fmap] in IHj |- *. rewrite IHj.
      rewrite <- Ho at 1. rewrite <- (ztake_zdrop i l) at 4. f_equal.
      rewrite <- (ztake_zdrop (zlen pat) (zdrop i l)) at 2. by rewrite zdrop_zdrop by lia.
    + constructor; [|done]. rewrite Et. intros j Hj. pose proof (occurs_bound _ _ _ _ Hpat Hj) as [Hj0 Hj1].
      rewrite length_ztake in Hj1. specialize (Hmin j). destruct Hj as [_ Hj]. rewrite zdrop_ztake, ztake_ztake, Z.min_l in Hj by lia.
      assert (i ≤ j) by (apply Hmin; split; [lia|done]). lia.
  - split.
    + cbn. unfold sect_text. cbn. by rewrite <- El.
    + constructor; [|done]. unfold sect_text. cbn. by rewrite <- El.
Qed.

End others.
