(* ===== verification/SplitTheorems.v ===== *)
(** * The theorems on splitting. *)
From Stdlib Require Import ZArith Lia ZifyBool.
From stdpp Require Import base tactics list numbers option gmap.
From S2P Require Import Prelude State Wp Ref Cache Core Base Iter Spn Cmp Srch Split Inv PosLemmas BaseTheorems IterLemmas SpnSpec SpnTheorems CmpSpec SrchSpec SplitSpec Demo.

(** A call of the loop: from the start of a range, or with nothing to split *)
Lemma split_spec {OT : Others} op find `{SP : !Separator op find} s pos len sects flags b :
  wf s → 1 ≤ pos → 0 ≤ len → (len ≠ 0 → in_range s pos len) → pos + len ≤ SIZE_MAX → len < UINT_MAX →
  null_flags flags b → sects_ok (len + 1) sects →
  let F := fields find (so_len op) pos (substr pos len (st_content s)) in
  wp (split_loop op 0 flags pos (Z.to_nat len) pos len 0 0 sects) s (λ '(sc, r) s', kept s s' ∧
    split_done (sc_ptr sects) (wanted b F) sc r).
Proof.
  intros Hw Hp Hl Hr Hfit Hmax Hfl Hok F. pose proof (sep_len (op := op)) as Hn. pose proof (sep_find (op := op) (find := find)) as Hfind.
  set (l := substr pos len (st_content s)) in *.
  assert (Hz : zlen l = len).
  { destruct (decide (len = 0)) as [->|]; [unfold l, substr; by rewrite ztake_0 by lia|]. apply substr_length; auto. }
  pose proof (fields_length find _ Hn Hfind l pos) as HF. pose proof (wanted_length b F) as HW. fold F in HF.
  eapply (split_loop_spec op find s b flags pos (sc_ptr sects) Hfl (Z.to_nat len) s pos len l 0 []);
    [by apply kept_refl| |done|fold F; cbn [length]; lia|by auto|done|lia|done|done|lia|lia].
  destruct Hok as [H1 H2 H3 H4]. split; [split; [done|done|done|]|by rewrite app_nil_r|done].
  destruct H4 as [H4|H4]; [by left|right]. fold F. lia.
Qed.

(** C33: vstr_split_chrs and vstr_split_buf without a limit add a section for
    each piece of the range between the separators, all of them when the empty
    ones are asked for and else those with a character, and return how many;
    when the memory runs out the sections are as before and 0 is returned. *)
Theorem vstr_split_correct {OT : Others} s pos len sects flags b :
  wf s → 1 ≤ pos → 0 ≤ len → (len ≠ 0 → in_range s pos len) → pos + len ≤ SIZE_MAX → len < UINT_MAX →
  null_flags flags b → sects_ok (len + 1) sects →
  let range := substr pos len (st_content s) in
  (∀ chrs, ∃ sc r s', vstr_split_chrs pos len chrs sects 0 flags s = Some ((sc, r), s') ∧ kept s s' ∧
     split_done (sc_ptr sects) (wanted b (fields (find_chrs chrs) 1 pos range)) sc r) ∧
  (∀ buf, buf ≠ [] → ∃ sc r s', vstr_split_buf pos len buf sects 0 flags s = Some ((sc, r), s') ∧ kept s s' ∧
     split_done (sc_ptr sects) (wanted b (fields (find_sub (Some <$> buf)) (zlen buf) pos range)) sc r).
Proof.
  intros Hw Hp Hl Hr Hfit Hmax Hfl Hok range. split.
  - intros chrs. destruct (proj1 (wp_run _ _ _) (split_spec (split_chrs_op chrs) _ s pos len sects flags b Hw Hp Hl Hr Hfit Hmax Hfl Hok))
      as ([sc r]&s'&E&H). by exists sc, r, s'.
  - intros buf Hb. pose proof (split_buf_separator buf Hb) as SP.
    destruct (proj1 (wp_run _ _ _) (split_spec (split_buf_op buf) _ s pos len sects flags b Hw Hp Hl Hr Hfit Hmax Hfl Hok))
      as ([sc r]&s'&E&H). by exists sc, r, s'.
Qed.
(** "abc", two characters without data, "def" at "b" and "e", with a new array *)
Lemma vstr_split_correct_witness :
  let range := substr 1 8 (st_content demo2) in
  let sects := VSTR_SECTS_INIT 0 true in
  (∀ chrs, ∃ sc r s', vstr_split_chrs 1 8 chrs sects 0 15 demo2 = Some ((sc, r), s') ∧ kept demo2 s' ∧
     split_done [] (wanted true (fields (find_chrs chrs) 1 1 range)) sc r) ∧
  (∀ buf, buf ≠ [] → ∃ sc r s', vstr_split_buf 1 8 buf sects 0 15 demo2 = Some ((sc, r), s') ∧ kept demo2 s' ∧
     split_done [] (wanted true (fields (find_sub (Some <$> buf)) (zlen buf) 1 range)) sc r).
Proof.
  apply (vstr_split_correct demo2 1 8 (VSTR_SECTS_INIT 0 true) 15 true).
  - apply demo2_wf.
  - lia.
  - lia.
  - intros _. by vm_compute.
  - by vm_compute.
  - by vm_compute.
  - by split_and!.
  - split; [by vm_compute|by vm_compute|done|by left].
Defined.
Example split_demo : fields (find_chrs [98; 101]) 1 1 (substr 1 8 (st_content demo2)) =
  [mkSect 1 1; mkSect 3 4; mkSect 8 1].
Proof. by vm_compute. Qed.

(** C34: the sections that vstr_split_buf adds with the empty ones, joined with
    the separator, are the range again, and none has the separator in it. *)
Theorem vstr_split_buf_join {OT : Others} s pos len sects flags buf :
  wf s → 1 ≤ pos → 0 ≤ len → (len ≠ 0 → in_range s pos len) → pos + len ≤ SIZE_MAX → len < UINT_MAX →
  null_flags flags true → sects_ok (len + 1) sects → buf ≠ [] →
  ∃ sc r s', vstr_split_buf pos len buf sects 0 flags s = Some ((sc, r), s') ∧ kept s s' ∧
    (failed (sc_ptr sects) sc r ∨ ∃ K, sc_ptr sc = sc_ptr sects ++ K ∧ r = zlen K ∧
      join (Some <$> buf) (sect_text (st_content s') <$> K) = substr pos len (st_content s') ∧
      Forall (λ sn, ∀ j, ¬ occurs id (Some <$> buf) (sect_text (st_content s') sn) j) K).
Proof.
  intros Hw Hp Hl Hr Hfit Hmax Hfl Hok Hb. pose proof (split_buf_separator buf Hb) as SP.
  destruct (proj1 (wp_run _ _ _) (split_spec (split_buf_op buf) _ s pos len sects flags true Hw Hp Hl Hr Hfit Hmax Hfl Hok))
    as ([sc r]&s'&E&HK&H). exists sc, r, s'. split; [exact E|]. split; [done|]. rewrite (kept_content _ _ HK).
  destruct H as [H|(_&Hp'&->)]; [by left|right]. eexists. split; [exact Hp'|]. split; [done|]. cbn [wanted so_len split_buf_op].
  set (pat := Some <$> buf : list byte_or_non). assert (Hpat : pat ≠ []) by by destruct buf.
  replace (zlen buf) with (zlen pat) by by unfold pat; rewrite length_fmap.
  apply join_fields; [done|done|]. f_equal.
  destruct (decide (len = 0)) as [->|]; [unfold substr; by rewrite ztake_0 by lia|]. symmetry. apply substr_length; auto.
Qed.
Lemma vstr_split_buf_join_witness :
  ∃ sc r s', vstr_split_buf 2 7 [99] (VSTR_SECTS_INIT 0 true) 0 15 demo2 = Some ((sc, r), s') ∧ kept demo2 s' ∧
    (failed [] sc r ∨ ∃ K, sc_ptr sc = [] ++ K ∧ r = zlen K ∧
      join (Some <$> [99]) (sect_text (st_content s') <$> K) = substr 2 7 (st_content s') ∧
      Forall (λ sn, ∀ j, ¬ occurs id (Some <$> [99]) (sect_text (st_content s') sn) j) K).
Proof.
  apply (vstr_split_buf_join demo2 2 7 (VSTR_SECTS_INIT 0 true) 15 [99]).
  - apply demo2_wf.
  - lia.
  - lia.
  - intros _. by vm_compute.
  - by vm_compute.
  - by vm_compute.
  - by split_and!.
  - split; [by vm_compute|by vm_compute|done|by left].
  - done.
Defined.

(** An empty separator is found everywhere, and the loop that counts the
    separators does not end: no fuel is enough. *)
Lemma vstr_cmp_buf_eq_nothing pos s : vstr_cmp_buf_eq pos 0 (Some []) 0 s = Some (true, s).
Proof.
  unfold vstr_cmp_buf_eq, vstr_cmp_buf, cmp_string_buf, vstr_iter_fwd_beg, mbind, M_bind, get_base, gets.
  rewrite bool_decide_eq_true_2 by done. cbn [negb]. by destruct (negb _).
Qed.
Lemma split_empty_separator fuel : ∀ pos len num s, 0 ≤ len → split_null_loop fuel pos len [] num s = None.
Proof.
  induction fuel as [|fuel IH]; intros pos len num s Hl; cbn [split_null_loop]; rewrite decide_True by done;
    change (zlen []) with 0; unfold mbind, M_bind; rewrite vstr_cmp_buf_eq_nothing; [done|]. cbn [negb]. apply IH. lia.
Qed.
