(* ===== verification/Data.v ===== *)
(** * Data of the user kept in a configuration (src/vstr_data.c, vstr_data_get
    and vstr_data_set of include/vstr-inline.h).

    The table is what data_usr_ents, data_usr_len and data_usr_sz of the
    configuration hold; only the outcome of the allocations matters, so it has
    no address.  A name is the characters the caller's string has.

    The theorems on the data of the user. *)
From Stdlib Require Import ZArith Lia ZifyBool.
From stdpp Require Import base tactics list numbers option gmap.
From S2P Require Import Prelude State Wp Ref Base BaseTheorems Demo SplitSpec.

Record Vstr_data_usr := mkData { du_name : option (list Z); du_data : option positive }.
(** [dt_len] entries are in use, and [dt_sz] are allocated. *)
Record data_table := mkTable { dt_ents : list Vstr_data_usr; dt_len : Z; dt_sz : Z }.

Definition vstr__data_conf_init : M (option data_table) :=
  ok ← alloc_ok;
  mret (if ok : bool then Some (mkTable [mkData None None] 0 1) else None).

Fixpoint data_free_loop (ents : list Vstr_data_usr) : M () :=
  match ents with
  | [] => mret tt
  | e :: ents => when (bool_decide (is_Some (du_name e))) (vstr_ref_del (du_data e));; data_free_loop ents
  end.
Definition vstr__data_conf_free (t : data_table) : M () := data_free_loop (ztake (dt_len t) (dt_ents t)).

(** pos++ is evaluated only when the entry has a name.  The fuel bounds the
    rounds of the loop; [None]: it has not ended. *)
Fixpoint data_srch_loop (fuel : nat) (t : data_table) (name : list Z) (pos : Z) : option Z :=
  if decide (dt_len t ≤ pos) then Some 0
  else match fuel with
  | O => None
  | S fuel =>
    e ← dt_ents t !! Z.to_nat pos;
    match du_name e with
    | Some n => if decide (n = name) then Some (u32 (pos + 1)) else data_srch_loop fuel t name (u32 (pos + 1))
    | None => data_srch_loop fuel t name pos
    end
  end.
Definition vstr_data_srch (t : data_table) (name : list Z) : option Z :=
  data_srch_loop (Z.to_nat (dt_len t)) t name 0.

(** while ((len < conf->data_usr_len) && conf->data_usr_ents[len].name) ++len *)
Fixpoint data_first_free (fuel : nat) (t : data_table) (len : Z) : option Z :=
  if decide (dt_len t ≤ len) then Some len
  else
    e ← dt_ents t !! Z.to_nat len;
    match du_name e, fuel with
    | None, _ => Some len
    | Some _, O => None
    | Some _, S fuel => data_first_free fuel t (u32 (len + 1))
    end.

Definition data_put (t : data_table) (i : Z) (e : Vstr_data_usr) : data_table :=
  mkTable (<[Z.to_nat i := e]> (dt_ents t)) (dt_len t) (dt_sz t).
Definition ref_keep (data : option positive) : M (option positive) :=
  match data with Some r => r ← vstr_ref_add r; mret (Some r) | None => mret None end.

(** The value returned and the table *)
Definition vstr_data_add (t : data_table) (name : list Z) (data : option positive) : M (Z * data_table) :=
  let len := if decide (dt_len t = dt_sz t) then 0 else dt_len t in
  len ← of_option (data_first_free (Z.to_nat (dt_len t)) t len);
  let put (t : data_table) :=
    data ← ref_keep data;
    let t := data_put t len (mkData (Some name) data) in
    let len := u32 (len + 1) in
    mret (len, if decide (dt_len t < len) then mkTable (dt_ents t) len (dt_sz t) else t) in
  if decide (len = dt_sz t) then
    ok ← alloc_ok;
    if (ok : bool) then
      let sz := u32 (dt_sz t * 2) in
      put (mkTable (dt_ents t ++ zrep (sz - dt_sz t) (mkData None None)) (dt_len t) sz)
    else upd_conf (set_malloc_bad true);; mret (0, t)
  else put t.

(** while (pos && !conf->data_usr_ents[pos - 1].name) --pos *)
Fixpoint data_shrink (fuel : nat) (t : data_table) (pos : Z) : option Z :=
  if decide (pos = 0) then Some 0
  else
    e ← dt_ents t !! Z.to_nat (pos - 1);
    match du_name e, fuel with
    | Some _, _ => Some pos
    | None, O => None
    | None, S fuel => data_shrink fuel t (pos - 1)
    end.
Definition vstr_data_del (t : data_table) (pos : Z) : M data_table :=
  if negb (bool_decide (pos ≠ 0 ∧ pos ≤ dt_len t)) then mret t
  else
    e ← of_option (dt_ents t !! Z.to_nat (pos - 1));
    vstr_ref_del (du_data e);;
    let t := data_put t (pos - 1) (mkData None None) in
    if decide (pos = dt_len t) then
      len ← of_option (data_shrink (Z.to_nat pos) t pos);
      mret (mkTable (dt_ents t) len (dt_sz t))
    else mret t.

Definition vstr_data_get (t : data_table) (pos : Z) : M (option pointer) :=
  if negb (bool_decide (pos ≠ 0 ∧ pos ≤ dt_len t)) then mret None
  else
    e ← of_option (dt_ents t !! Z.to_nat (pos - 1));
    match du_data e with
    | None => mret None
    | Some r => v ← ref_at r; mret (Some (r_ptr v))
    end.
Definition vstr_data_set (t : data_table) (pos : Z) (ref : option positive) : M data_table :=
  if negb (bool_decide (pos ≠ 0 ∧ pos ≤ dt_len t)) then mret t
  else
    e ← of_option (dt_ents t !! Z.to_nat (pos - 1));
    vstr_ref_del (du_data e);;
    data ← ref_keep ref;
    mret (data_put t (pos - 1) (mkData (du_name e) data)).

(** The entries that are allocated, and those in use.  After the last there is
    nothing, and the last has a name. *)
Record table_ok (t : data_table) : Prop := {
  tk_sz : 1 ≤ dt_sz t ≤ UINT_MAX;
  tk_ents : zlen (dt_ents t) = dt_sz t;
  tk_len : 0 ≤ dt_len t ≤ dt_sz t;
  tk_last : ∀ e, dt_len t ≠ 0 → dt_ents t !! Z.to_nat (dt_len t - 1) = Some e → is_Some (du_name e) }.

(** ** Searching *)

(** The entries at which the search stops, or stands still *)
Definition stops (name : list Z) (e : Vstr_data_usr) : Prop := du_name e = None ∨ du_name e = Some name.
#[export] Instance stops_dec name e : Decision (stops name e).
Proof. unfold stops. apply _. Defined.

Lemma data_srch_hole fuel t name pos e :
  pos < dt_len t → dt_ents t !! Z.to_nat pos = Some e → du_name e = None → data_srch_loop fuel t name pos = None.
Proof.
  intros Hp He Hn. induction fuel as [|fuel IH]; cbn [data_srch_loop]; rewrite decide_False by lia; [done|].
  rewrite He. cbn. by rewrite Hn.
Qed.
Lemma data_srch_loop_spec t name fuel : ∀ pos, table_ok t → 0 ≤ pos ≤ dt_len t → dt_len t - pos ≤ Z.of_nat fuel →
  data_srch_loop fuel t name pos =
  match list_find (stops name) (ztake (dt_len t - pos) (zdrop pos (dt_ents t))) with
  | None => Some 0
  | Some (i, e) => if decide (du_name e = Some name) then Some (pos + Z.of_nat i + 1) else None
  end.
Proof.
  induction fuel as [|fuel IH]; intros pos Hok Hp Hf; pose proof Hok as [Hs He Hl _].
  { cbn. rewrite decide_True by lia. by rewrite ztake_0 by lia. }
  destruct (decide (dt_len t ≤ pos)) as [Hle|Hlt].
  { cbn. rewrite decide_True by done. by rewrite ztake_0 by lia. }
  destruct (lookup_lt_is_Some_2 (dt_ents t) (Z.to_nat pos) ltac:(lia)) as [e Hpe].
  assert (Ed : ztake (dt_len t - pos) (zdrop pos (dt_ents t)) = e :: ztake (dt_len t - (pos + 1)) (zdrop (pos + 1) (dt_ents t))).
  { unfold ztake, zdrop. rewrite (drop_S _ _ _ Hpe). replace (Z.to_nat (dt_len t - pos)) with (S (Z.to_nat (dt_len t - (pos + 1)))) by lia.
    cbn. by replace (S (Z.to_nat pos)) with (Z.to_nat (pos + 1)) by lia. }
  rewrite Ed. cbn [list_find]. destruct (decide (stops name e)) as [Hst|Hst].
  - destruct (du_name e) as [n|] eqn:En.
    + destruct Hst as [?|Hst]; [congruence|]. assert (n = name) as -> by congruence.
      cbn [data_srch_loop]. rewrite decide_False by done. rewrite Hpe. cbn. rewrite En. rewrite !decide_True by done.
      unfold UINT_MAX in *. rewrite u32_id by lia. f_equal. lia.
    + rewrite (data_srch_hole _ _ _ _ e) by (done || lia). rewrite decide_False by congruence. done.
  - destruct (du_name e) as [n|] eqn:En; [|by destruct Hst; left].
    cbn [data_srch_loop]. rewrite decide_False by done. rewrite Hpe. cbn. rewrite En.
    rewrite decide_False by (intros ->; apply Hst; by right). unfold UINT_MAX in *. rewrite u32_id by lia.
    rewrite IH by (done || lia). destruct (list_find _ _) as [[i x]|]; cbn; [|done].
    case_decide; [f_equal; lia|done].
Qed.

(** C39: vstr_data_srch gives the place of the first entry with the name, from
    1, and 0 when there is none, if no entry before was deleted.  At a deleted
    entry it stays for ever: no number of rounds is enough. *)
Theorem vstr_data_srch_correct t name :
  table_ok t →
  match list_find (stops name) (ztake (dt_len t) (dt_ents t)) with
  | None => vstr_data_srch t name = Some 0
  | Some (i, e) =>
    if decide (du_name e = Some name) then vstr_data_srch t name = Some (Z.of_nat i + 1)
    else ∀ fuel, data_srch_loop fuel t name 0 = None
  end.
Proof.
  intros Hok. pose proof Hok as [Hs He Hl _]. unfold vstr_data_srch.
  pose proof (λ fuel, data_srch_loop_spec t name fuel 0 Hok ltac:(lia)) as H. rewrite Z.sub_0_r in H.
  rewrite (zdrop_0 0) in H by lia. destruct (list_find _ _) as [[i e]|] eqn:E; [|by rewrite H by lia].
  destruct (decide (du_name e = Some name)) as [En|En]; [rewrite H by lia; f_equal; lia|].
  intros fuel. apply list_find_Some in E as (Hi&[Hst|Hst]&Hbefore); [|done].
  destruct (decide (dt_len t ≤ Z.of_nat fuel)) as [Hf|Hf]; [by rewrite H by lia|].
  (* with fewer rounds it has not ended either *)
  assert (Hmono : ∀ f f' pos, (f ≤ f')%nat → data_srch_loop f' t name pos = None → data_srch_loop f t name pos = None).
  { clear. induction f as [|f IH]; intros f' pos Hf; cbn [data_srch_loop].
    - destruct f'; cbn [data_srch_loop]; case_decide; done.
    - destruct f' as [|f']; [lia|]. cbn [data_srch_loop]. case_decide; [done|].
      destruct (dt_ents t !! Z.to_nat pos) as [e|]; cbn; [|done]. destruct (du_name e); [case_decide; [done|]|]; apply IH; lia. }
  eapply (Hmono fuel (Z.to_nat (dt_len t))); [lia|]. by rewrite H by lia.
Qed.

(** Three entries; the second was deleted *)
Definition demo_table : data_table :=
  mkTable [mkData (Some [97]) None; mkData None None; mkData (Some [99]) None; mkData None None] 3 4.
Lemma demo_table_ok : table_ok demo_table.
Proof. split; [by vm_compute|done|by vm_compute|]. intros e _ [= <-]. by eexists. Qed.
Lemma vstr_data_srch_correct_witness :
  vstr_data_srch demo_table [97] = Some 1 ∧ ∀ fuel, data_srch_loop fuel demo_table [99] 0 = None.
Proof.
  split.
  - exact (vstr_data_srch_correct demo_table [97] demo_table_ok).
  - exact (vstr_data_srch_correct demo_table [99] demo_table_ok).
Defined.

(** ** Adding *)

Lemma data_first_free_spec t fuel : ∀ pos, table_ok t → 0 ≤ pos ≤ dt_len t → dt_len t - pos ≤ Z.of_nat fuel →
  ∃ i, data_first_free fuel t pos = Some i ∧ pos ≤ i ≤ dt_len t ∧
    (i < dt_len t → ∃ e, dt_ents t !! Z.to_nat i = Some e ∧ du_name e = None) .
Proof.
  induction fuel as [|fuel IH]; intros pos Hok Hp Hf; pose proof Hok as [Hs He Hl _].
  - cbn. rewrite decide_True by lia. exists pos. split_and!; [done|lia|lia|lia].
  - destruct (decide (dt_len t ≤ pos)) as [Hle|Hlt].
    { cbn. rewrite decide_True by done. exists pos. split_and!; [done|lia|lia|lia]. }
    destruct (lookup_lt_is_Some_2 (dt_ents t) (Z.to_nat pos) ltac:(lia)) as [e Hpe].
    cbn [data_first_free]. rewrite decide_False, Hpe by done. cbn. destruct (du_name e) as [n|] eqn:En.
    + unfold UINT_MAX in *. rewrite u32_id by lia. destruct (IH (pos + 1)) as (i&E&Hi&Hfree); [done|lia|lia|].
      exists i. split_and!; [done|lia|lia|done].
    + exists pos. split_and!; [done|lia|lia|]. intros _. by exists e.
Qed.

(** What adding data does: an entry that had no name has it now. *)
Definition data_added (t : data_table) (name : list Z) (data : option positive) (r : Z) (t' : data_table) : Prop :=
  1 ≤ r ≤ dt_len t' ∧ dt_ents t' !! Z.to_nat (r - 1) = Some (mkData (Some name) data) ∧
  (∀ e, r ≤ dt_len t → dt_ents t !! Z.to_nat (r - 1) = Some e → du_name e = None) ∧
  (∀ i e, i ≠ Z.to_nat (r - 1) → dt_ents t !! i = Some e → dt_ents t' !! i = Some e) ∧
  dt_len t' = Z.max (dt_len t) r.

(** One more use of the reference *)
Definition ref_counted (data : option positive) (rs : gmap positive Vstr_ref) : gmap positive Vstr_ref :=
  match data with
  | Some r => match rs !! r with Some v => <[r := mkRef (r_func v) (r_ptr v) (u32 (r_ref v + 1))]> rs | None => rs end
  | None => rs
  end.
Lemma ref_keep_spec s data :
  (∀ r, data = Some r → is_Some (h_refs (s_heap s) !! r)) →
  wp (ref_keep data) s (λ d s', d = data ∧ h_refs (s_heap s') = ref_counted data (h_refs (s_heap s))).
Proof.
  intros Hd. destruct data as [r|]; cbn [ref_keep]; [|by wp_steps]. destruct (Hd r eq_refl) as [v Hv].
  unfold vstr_ref_add, ref_at, ref_put. wp_steps. eapply wp_of_option; [exact Hv|]. cbn beta. wp_steps.
  split; [done|]. destruct s as [[] c b]; cbn in *. by rewrite Hv.
Qed.

Lemma data_put_spec t name data i :
  table_ok t → 0 ≤ i ≤ dt_len t → i < dt_sz t → (∀ e, i < dt_len t → dt_ents t !! Z.to_nat i = Some e → du_name e = None) →
  let t1 := data_put t i (mkData (Some name) data) in
  let t' := if decide (dt_len t1 < i + 1) then mkTable (dt_ents t1) (i + 1) (dt_sz t1) else t1 in
  table_ok t' ∧ data_added t name data (i + 1) t'.
Proof.
  intros [Hs He Hl Hlast] Hi Hlt Hfree t1 t'.
  assert (Hin : (Z.to_nat i < length (dt_ents t))%nat) by lia.
  assert (E' : dt_ents t' = <[Z.to_nat i := mkData (Some name) data]> (dt_ents t) ∧ dt_sz t' = dt_sz t ∧ dt_len t' = Z.max (dt_len t) (i + 1)).
  { unfold t', t1. cbn. case_decide; cbn; split_and!; try done; lia. }
  destruct E' as (Ee&Es&El). split.
  - split; rewrite ?Es, ?Ee, ?El; [done|by rewrite length_insert|lia|].
    intros e _. destruct (decide (i + 1 ≤ dt_len t)) as [Hc|Hc].
    + rewrite Z.max_l by lia. destruct (decide (i = dt_len t - 1)) as [->|Hne].
      * rewrite list_lookup_insert_eq by done. intros [= <-]. by eexists.
      * rewrite list_lookup_insert_ne by lia. apply Hlast. lia.
    + rewrite Z.max_r by lia. replace (i + 1 - 1) with i by lia. rewrite list_lookup_insert_eq by done. intros [= <-]. by eexists.
  - unfold data_added. rewrite Ee, El. replace (i + 1 - 1) with i by lia. split_and!; [lia|lia|by apply list_lookup_insert_eq| | |done].
    + intros e Hle. apply Hfree. lia.
    + intros j e Hj Hje. by rewrite list_lookup_insert_ne.
Qed.

Lemma vstr_data_add_spec s t name data :
  table_ok t → dt_sz t * 2 ≤ UINT_MAX → (∀ r, data = Some r → is_Some (h_refs (s_heap s) !! r)) →
  wp (vstr_data_add t name data) s (λ '(r, t') s',
    if decide (r = 0) then t' = t ∧ malloc_bad (s_conf s') = true ∧ dt_len t = dt_sz t
    else table_ok t' ∧ data_added t name data r t' ∧ h_refs (s_heap s') = ref_counted data (h_refs (s_heap s))).
Proof.
  intros Hok Hmax Hd. pose proof Hok as [Hs He Hl Hlast]. unfold vstr_data_add.
  set (beg := if decide (dt_len t = dt_sz t) then 0 else dt_len t).
  destruct (data_first_free_spec t (Z.to_nat (dt_len t)) beg Hok) as (i&E&Hi&Hfree); [unfold beg; case_decide; lia|unfold beg; case_decide; lia|].
  assert (Hbeg : 0 ≤ beg) by (unfold beg; case_decide; lia).
  wp_step. eapply wp_of_option; [exact E|]. cbn beta. cbv zeta.
  assert (Hfree' : ∀ e, i < dt_len t → dt_ents t !! Z.to_nat i = Some e → du_name e = None).
  { intros e Hlt He'. destruct (Hfree Hlt) as (e'&He2&Hn). congruence. }
  unfold UINT_MAX in *. case_decide as Hfull.
  - wp_step. wp_apply alloc_ok_spec. intros ok s1 (Ec&Eb&Em&Er&_). destruct ok.
    + set (sz := u32 (dt_sz t * 2)). assert (Esz : sz = dt_sz t * 2) by (unfold sz; apply u32_id; lia).
      set (t2 := mkTable _ (dt_len t) sz).
      assert (Hok2 : table_ok t2).
      { split; cbn; unfold UINT_MAX; [lia| |lia|].
        - rewrite length_app, Nat2Z.inj_add, length_zrep. lia.
        - intros e Hne. rewrite lookup_app_l by lia. by apply Hlast. }
      wp_step. wp_apply ref_keep_spec; [by rewrite Er|]. intros d s2 [-> Er2]. wp_steps. rewrite (u32_id (i + 1)) by lia.
      rewrite decide_False by lia.
      destruct (data_put_spec t2 name data i Hok2) as [H1 H2]; cbn; [lia|lia| |].
      { intros e Hlt He'. rewrite lookup_app_l in He' by lia. by apply Hfree'. }
      split; [exact H1|]. rewrite Er2, Er. split; [|done]. destruct H2 as (A1&A2&A3&A4&A5).
      split; [exact A1|]. split; [exact A2|]. split; [|split; [|exact A5]].
      * intros e Hle He'. apply A3; [exact Hle|]. cbn. rewrite lookup_app_l; [exact He'|]. by apply lookup_lt_Some in He'.
      * intros j e Hj He'. apply A4; [done|]. apply lookup_lt_Some in He' as Hlt. cbn. by rewrite lookup_app_l.
    + wp_steps. split_and!; [done| |].
      * by destruct s1 as [h [] b].
      * clearbody beg. lia.
  - wp_step. wp_apply ref_keep_spec; [done|]. intros d s2 [-> Er2]. wp_steps. rewrite (u32_id (i + 1)) by lia.
    rewrite decide_False by lia.
    destruct (data_put_spec t name data i Hok) as [H1 H2]; [lia|lia|done|]. cbn in *. done.
Qed.

(** C40: vstr_data_add puts the data in an entry without a name, which after
    that vstr_data_get shows, leaves every other entry and counts the use of the
    reference; it fails only when a full table cannot grow. *)
Theorem vstr_data_add_get s t name r v :
  table_ok t → dt_sz t * 2 ≤ UINT_MAX → h_refs (s_heap s) !! r = Some v →
  ∃ pos t' s', vstr_data_add t name (Some r) s = Some ((pos, t'), s') ∧
    if decide (pos = 0) then t' = t ∧ malloc_bad (s_conf s') = true ∧ dt_len t = dt_sz t
    else table_ok t' ∧ data_added t name (Some r) pos t' ∧
      h_refs (s_heap s') !! r = Some (mkRef (r_func v) (r_ptr v) (u32 (r_ref v + 1))) ∧
      vstr_data_get t' pos s' = Some (Some (r_ptr v), s').
Proof.
  intros Hok Hmax Hv.
  assert (Hd : ∀ r', Some r = Some r' → is_Some (h_refs (s_heap s) !! r')) by (intros ? [= <-]; by eexists).
  destruct (proj1 (wp_run _ _ _) (vstr_data_add_spec s t name (Some r) Hok Hmax Hd)) as ([pos t']&s'&E&H).
  exists pos, t', s'. split; [exact E|]. case_decide as H0; [done|]. destruct H as (Hok'&Ha&Er). cbn in Er. rewrite Hv in Er.
  assert (Hr' : h_refs (s_heap s') !! r = Some (mkRef (r_func v) (r_ptr v) (u32 (r_ref v + 1)))) by (rewrite Er; apply lookup_insert_eq).
  split_and!; try done. destruct Ha as (Hp&He&_).
  assert (Hg : wp (vstr_data_get t' pos) s' (λ x s2, x = Some (r_ptr v) ∧ s2 = s')).
  { unfold vstr_data_get. rewrite bool_decide_eq_true_2 by lia. cbn [negb]. wp_step. eapply wp_of_option; [exact He|].
    cbn [du_data]. unfold ref_at. wp_steps. eapply wp_of_option; [exact Hr'|]. cbn beta. by wp_steps. }
  apply wp_run in Hg as (x&s2&Eg&->&->). exact Eg.
Qed.
(** Data for "b" goes where the entry was deleted only when the table is full *)
Lemma vstr_data_add_get_witness : ∃ pos t' s', vstr_data_add demo_table [98] (Some 11%positive) demo0 = Some ((pos, t'), s') ∧
    if decide (pos = 0) then t' = demo_table ∧ malloc_bad (s_conf s') = true ∧ dt_len demo_table = dt_sz demo_table
    else table_ok t' ∧ data_added demo_table [98] (Some 11%positive) pos t' ∧
      h_refs (s_heap s') !! 11%positive = Some (mkRef vstr_ref_cb_free_nothing (Ptr 10 0) (u32 (1 + 1))) ∧
      vstr_data_get t' pos s' = Some (Some (Ptr 10 0), s').
Proof.
  apply (vstr_data_add_get demo0 demo_table [98] 11 (mkRef vstr_ref_cb_free_nothing (Ptr 10 0) 1) demo_table_ok); by vm_compute.
Defined.
