(* ===== verification/ExportTheorems.v ===== *)
(** * Exporting: the functions of Export.v that copy to a buffer.

    The theorems on exporting. *)
From Stdlib Require Import ZArith Lia ZifyBool.
From stdpp Require Import base tactics list numbers option gmap.
From S2P Require Import Prelude State Wp Ref Cache Core Add Base Inv PosLemmas SpareLemmas SplitLemmas CacheLemmas AddLemmas StringLemmas AddSpec AddOps AddTheorems BaseTheorems Iter IterLemmas InPlace Demo Export.

Section others.
Context {OT : Others} {JK : Junk}.

(** The characters an iterator is at *)
Lemma iter_in_chunk s it i off nd :
  wf s → iter_in (h_refs (s_heap s)) (b_nodes (s_base s)) it i off → b_nodes (s_base s) !! i = Some nd →
  b_used (s_base s) ≤ sum_len (take i (b_nodes (s_base s))) + off →
  let cur := ztake (it_len it) (zdrop (sum_len (take i (b_nodes (s_base s))) + off - b_used (s_base s)) (st_content s)) in
  if iter_non it then cur = zrep (it_len it) None
  else ∃ q bs, it_ptr it = Some q ∧ load (h_mem (s_heap s)) q (it_len it) = Some bs ∧ cur = Some <$> bs.
Proof.
  intros Hw [(nd'&Hi'&Hoff&Hle&_&p&Hp&Hptr) Hn Hl _] Hi Hu cur. rewrite Hi in Hi'. injection Hi' as <-.
  set (ns := b_nodes (s_base s)) in *. pose proof (list_split_at _ _ _ Hi) as Hs.
  assert (HF : Forall (node_ok (s_heap s) (buf_sz (s_conf s))) ns) by apply (wf_heap _ Hw).
  rewrite Hs, Forall_app, Forall_cons in HF. destruct HF as (HF1&Hnd&HF2).
  pose proof (chain_bytes_length _ _ _ HF1) as Hz1. pose proof (node_bytes_length _ _ _ Hnd) as Hzn.
  pose proof (wf_used_nonneg _ Hw) as Hu0.
  assert (Ecur : cur = ztake (it_len it) (zdrop off (node_bytes (s_heap s) nd))).
  { unfold cur, st_content, content. fold ns. rewrite zdrop_zdrop by lia. rewrite Hs at 2.
    rewrite chain_bytes_app, chain_bytes_cons, zdrop_app_r by lia.
    replace (b_used (s_base s) + _ - _) with off by lia.
    rewrite zdrop_app_l, ztake_app_l by (rewrite ?length_zdrop; lia). done. }
  pose proof (node_chunk s _ nd off (it_len it) Hnd ltac:(lia) ltac:(lia) ltac:(lia)) as Hc.
  rewrite <- Ecur in Hc. unfold wp in Hc. rewrite (node_ptr_run _ _ _ Hp) in Hc. destruct Hc as [_ Hc].
  unfold iter_non. rewrite Hn, (drop_S _ _ _ Hi). case_decide as Hty.
  - rewrite bool_decide_eq_true_2 by done. apply Hc.
  - rewrite bool_decide_eq_false_2 by done. destruct Hc as (q&bs&->&Hld&E). exists (ptr_add q off), bs. by rewrite Hptr.
Qed.

(** Where there is no data the old bytes stay. *)
Definition overlay (src : list byte_or_non) (old : list Z) : list Z := zip_with (λ (c : byte_or_non) o, default o c) src old.

Lemma overlay_length src old : zlen src ≤ zlen old → length (overlay src old) = length src.
Proof. intros. unfold overlay. rewrite length_zip_with. lia. Qed.
Lemma overlay_app s1 s2 o : zlen s1 ≤ zlen o → overlay (s1 ++ s2) o = overlay s1 o ++ overlay s2 (zdrop (zlen s1) o).
Proof.
  unfold overlay, zdrop. rewrite Nat2Z.id. revert o. induction s1 as [|c s1 IH]; intros o H; [done|].
  destruct o as [|x o]; cbn in H |- *; [lia|]. f_equal. apply IH. lia.
Qed.
Lemma overlay_data bs o : zlen bs ≤ zlen o → overlay (Some <$> bs) o = bs.
Proof.
  revert o. induction bs as [|b bs IH]; intros [|x o] H; cbn in *; try done. f_equal. apply IH. lia.
Qed.
Lemma overlay_none n o : overlay (zrep n None) o = ztake n o.
Proof.
  unfold zrep, ztake, overlay. induction (Z.to_nat n) as [|m IH] in o |- *; [done|]. destruct o; cbn; [done|].
  f_equal. apply IH.
Qed.
Lemma zwrite_same {A} n k m (l : list A) :
  0 ≤ n → 0 ≤ m → n + zlen k + m ≤ zlen l → zwrite n (k ++ ztake m (zdrop (n + zlen k) l)) l = zwrite n k l.
Proof.
  intros ?? Hle. unfold zwrite. rewrite length_app, Nat2Z.inj_add, length_ztake, length_zdrop.
  rewrite <- !app_assoc. do 2 f_equal. rewrite <- (ztake_zdrop m (zdrop (n + zlen k) l)) at 2.
  rewrite zdrop_zdrop by lia. do 2 f_equal. lia.
Qed.
Lemma write_mem_twice blk off bs1 bs2 bytes s :
  0 ≤ off → off + zlen bs1 + zlen bs2 ≤ zlen bytes →
  write_mem blk (off + zlen bs1) bs2 (zwrite off bs1 bytes) (write_mem blk off bs1 bytes s) =
  write_mem blk off (bs1 ++ bs2) bytes s.
Proof.
  intros. unfold write_mem. destruct s as [[]]. unfold on_heap. cbn.
  by rewrite insert_insert_eq, zwrite_zwrite by lia.
Qed.
Lemma write_mem_keep blk off bs m bytes s :
  0 ≤ off → 0 ≤ m → off + zlen bs + m ≤ zlen bytes →
  write_mem blk off (bs ++ ztake m (zdrop (off + zlen bs) bytes)) bytes s = write_mem blk off bs bytes s.
Proof. intros. unfold write_mem. by rewrite zwrite_same. Qed.
Lemma write_mem_nil blk off bytes s : 0 ≤ off → h_mem (s_heap s) !! blk = Some bytes → write_mem blk off [] bytes s = s.
Proof.
  intros Ho Hb. unfold write_mem. destruct s as [[]]. unfold on_heap. cbn in *. rewrite zwrite_nil.
  by rewrite insert_id.
Qed.
Lemma write_mem_lookup blk off bs bytes s :
  h_mem (s_heap (write_mem blk off bs bytes s)) !! blk = Some (zwrite off bs bytes).
Proof. unfold write_mem. destruct s as [[]]. apply lookup_insert_eq. Qed.
Lemma write_mem_same blk off bs bytes s : let s' := write_mem blk off bs bytes s in
  s_base s' = s_base s ∧ s_conf s' = s_conf s ∧ h_refs (s_heap s') = h_refs (s_heap s).
Proof. unfold write_mem. by destruct s as [[]]. Qed.

(** What is written to the buffer *)
Definition exported (src : list byte_or_non) (off : Z) (bytes : list Z) : list Z := overlay src (zdrop off bytes).

Lemma export_loop_spec s it i off nd0 src buf bytes :
  wf s → foreign s (p_blk buf) → h_mem (s_heap s) !! p_blk buf = Some bytes →
  0 ≤ p_off buf → p_off buf + zlen src ≤ zlen bytes →
  iter_in (h_refs (s_heap s)) (b_nodes (s_base s)) it i off → b_nodes (s_base s) !! i = Some nd0 →
  b_used (s_base s) ≤ sum_len (take i (b_nodes (s_base s))) + off →
  src = ztake (it_len it + it_remaining it)
    (zdrop (sum_len (take i (b_nodes (s_base s))) + off - b_used (s_base s)) (st_content s)) →
  zlen src = it_len it + it_remaining it →
  wp (iter_do_while export_body it buf) s (λ _ s',
    s' = write_mem (p_blk buf) (p_off buf) (exported src (p_off buf) bytes) bytes s).
Proof.
  intros Hw Hf Hb Ho Hfit Hit Hi Hu Esrc Hz. set (ns := b_nodes (s_base s)) in *.
  remember (sum_len (take i ns) + off) as start eqn:Est.
  eapply (in_do_while_spec _ (h_refs (s_heap s)) ns start (zlen src)
    (λ b k s', b = ptr_add buf k ∧ 0 ≤ k ≤ zlen src ∧
       s' = write_mem (p_blk buf) (p_off buf) (exported (ztake k src) (p_off buf) bytes) bytes s)).
  - by apply wf_nodes_ok.
  - intros b k s' (_&_&->). destruct (write_mem_same (p_blk buf) (p_off buf) (exported (ztake k src) (p_off buf) bytes) bytes s) as (->&_&->). done.
  - remember (it_len it + it_remaining it) as total. clear it i off nd0 Hit Hi Est Heqtotal. intros it i off nd b k s1 Hit Hi Hat Hk Hkl (->&Hk2&->).
    set (D := exported (ztake k src) (p_off buf) bytes) in *. set (s1 := write_mem _ _ D _ _).
    destruct (write_mem_same (p_blk buf) (p_off buf) D bytes s) as (Eb&Ec&Er). fold s1 in Eb, Ec, Er.
    pose proof (ii_len _ _ _ _ _ Hit) as Hn. pose proof (ii_remaining _ _ _ _ _ Hit) as Hrem.
    assert (HD : zlen D = k).
    { unfold D, exported. rewrite overlay_length; [rewrite length_ztake; lia|].
      rewrite length_ztake, length_zdrop. lia. }
    destruct (write_foreign s (p_blk buf) (p_off buf) D bytes Hw Hf Hb Ho ltac:(lia)) as (Hw1&Hc1&Hf1). fold s1 in Hw1, Hc1, Hf1.
    pose proof (write_mem_lookup (p_blk buf) (p_off buf) D bytes s) as Hb1. fold s1 in Hb1.
    pose proof (iter_in_chunk s1 it i off nd Hw1) as Hch. rewrite Eb, Er in Hch. fold ns in Hch.
    specialize (Hch Hit Hi ltac:(lia)). cbv zeta in Hch. rewrite Hc1 in Hch.
    set (cur := ztake (it_len it) (zdrop k src)).
    assert (Ecur : ztake (it_len it) (zdrop (sum_len (take i ns) + off - b_used (s_base s)) (st_content s)) = cur).
    { unfold cur. rewrite Esrc at 1. rewrite zdrop_ztake, ztake_ztake, zdrop_zdrop by (lia).
      rewrite Z.min_l by lia. do 2 f_equal. lia. }
    rewrite Ecur in Hch.
    assert (Hnext : ztake (k + it_len it) src = ztake k src ++ cur).
    { unfold cur. rewrite ztake_zdrop_comm by lia. rewrite <- (ztake_zdrop k (ztake (k + it_len it) src)) at 1.
      rewrite ztake_ztake, Z.min_l by lia. done. }
    assert (Hcl : zlen cur = it_len it) by (unfold cur; rewrite length_ztake, length_zdrop; lia).
    assert (Hov : exported (ztake (k + it_len it) src) (p_off buf) bytes = D ++ overlay cur (zdrop (p_off buf + k) bytes)).
    { unfold exported. rewrite Hnext. rewrite overlay_app by (rewrite length_ztake, length_zdrop; lia). unfold D, exported.
      f_equal. rewrite zdrop_zdrop by lia. do 2 f_equal. rewrite length_ztake. lia. }
    unfold export_body, export_chunk. destruct (iter_non it); wp_step.
    + wp_steps. split_and!; [by rewrite ptr_add_add|lia|lia|]. rewrite Hov, Hch, overlay_none.
      rewrite <- HD. symmetry. apply write_mem_keep; lia.
    + destruct Hch as (q&bs&->&Hld&Ebs). wp_step. eapply wp_of_option; [done|]. cbn beta.
      assert (Hbl : zlen bs = it_len it) by (rewrite Ebs, length_fmap in Hcl; done).
      change (ptr_add buf k) with (Ptr (p_blk buf) (p_off buf + k)) at 1.
      wp_apply (mem_move_write s1 (p_blk buf) (p_off buf + k) q (it_len it) bs _ Hld Hb1);
        [lia|rewrite length_zwrite; lia|]. intros _ s2 ->. wp_steps.
      split_and!; [by rewrite ptr_add_add|lia|lia|]. rewrite Hov, Ebs, overlay_data.
      * rewrite <- write_mem_twice by lia. by rewrite HD.
      * rewrite length_zdrop. lia.
  - intros b s' (_&_&->). by rewrite ztake_all by lia.
  - exact Hit.
  - done.
  - done.
  - split_and!; [by rewrite ptr_add_0|lia|lia|]. rewrite ztake_0 by lia. symmetry. by apply write_mem_nil.
Qed.

(** The block [blk] now holds [new], and nothing else is different. *)
Record wrote (s : St) (blk : positive) (new : list Z) (s' : St) : Prop := {
  wr_wf : wf s';
  wr_content : st_content s' = st_content s;
  wr_base : b_nodes (s_base s') = b_nodes (s_base s) ∧ b_len (s_base s') = b_len (s_base s);
  wr_conf : s_conf s' = s_conf s;
  wr_heap : s_heap s' = h_set_mem (<[blk := new]> (h_mem (s_heap s))) (s_heap s);
  wr_foreign : foreign s' blk }.

Lemma foreign_only_pos s s' blk : only_pos s s' → foreign s blk → foreign s' blk.
Proof. intros HO. destruct (only_pos_same _ _ HO) as (Eh&Ec&En&_). unfold foreign, st_own. by rewrite Eh, Ec, En. Qed.

Lemma wrote_intro s s1 blk off bs bytes :
  wf s → only_pos s s1 → foreign s blk → h_mem (s_heap s) !! blk = Some bytes → 0 ≤ off → off + zlen bs ≤ zlen bytes →
  wrote s blk (zwrite off bs bytes) (write_mem blk off bs bytes s1).
Proof.
  intros Hw HO Hf Hb Ho Hle. pose proof (proj2 HO Hw) as Hw1. pose proof (foreign_only_pos _ _ _ HO Hf) as Hf1.
  destruct (only_pos_same _ _ HO) as (Eh&Ec&En&_&El&_&_&_&Ect). rewrite <- Eh in Hb.
  destruct (write_foreign s1 blk off bs bytes Hw1 Hf1 Hb Ho Hle) as (Hw2&Hc2&Hf2).
  split; [done|by rewrite Hc2|done|done|by unfold write_mem; rewrite <- Eh; destruct s1 as [[]]|done].
Qed.
Lemma wrote_id s blk bytes : wf s → foreign s blk → h_mem (s_heap s) !! blk = Some bytes → wrote s blk bytes s.
Proof. intros Hw Hf Hb. split; try done. rewrite insert_id by done. by destruct s as [[]]. Qed.
Lemma wrote_store s s1 blk off bs bytes new :
  wrote s blk new s1 → 0 ≤ off → off + zlen bs ≤ zlen new → bytes = zwrite off bs new →
  wp (mem_store (Ptr blk off) bs) s1 (λ _ s', wrote s blk bytes s').
Proof.
  intros [Hw Hc [Hn Hl] Hcf Hh Hf] Ho Hle ->.
  assert (Hb : h_mem (s_heap s1) !! blk = Some new) by (rewrite Hh; destruct s as [[]]; apply lookup_insert_eq).
  wp_apply (mem_store_write s1 blk off bs new); [done|done|done|]. intros _ s' ->.
  destruct (wrote_intro s1 s1 blk off bs new Hw (only_pos_refl _) Hf Hb Ho Hle) as [Hw' Hc' [Hn' Hl'] Hcf' Hh' Hf'].
  split; [done|by rewrite Hc'|by rewrite Hn', Hl'|by rewrite Hcf'| |done].
  rewrite Hh', Hh. destruct s as [[]]. cbn. by rewrite insert_insert_eq.
Qed.

Lemma vstr_export_buf_spec s pos len buf buf_len bytes :
  wf s → foreign s (p_blk buf) → h_mem (s_heap s) !! p_blk buf = Some bytes → 0 ≤ p_off buf →
  in_range s pos len → 1 ≤ buf_len → p_off buf + Z.min len buf_len ≤ zlen bytes →
  wp (vstr_export_buf pos len buf buf_len) s (λ r s', r = Z.min len buf_len ∧
    wrote s (p_blk buf) (zwrite (p_off buf) (exported (substr pos r (st_content s)) (p_off buf) bytes) bytes) s').
Proof.
  intros Hw Hf Hb Ho Hr Hl Hfit. pose proof Hr as (Hp&Hlen&Hle). pose proof (wf_len_max _ Hw) as Hmax.
  unfold vstr_export_buf. wp_step. apply wp_gets. unfold export_bad.
  rewrite bool_decide_eq_true_2 by (rewrite poslast_id by lia; lia). cbn [negb]. rewrite decide_False by lia.
  set (n := Z.min len buf_len). replace (if decide (buf_len < len) then buf_len else len) with n by (case_decide; lia).
  assert (Hrn : in_range s pos n) by (unfold in_range; lia). wp_step. wp_apply vstr_iter_fwd_beg_in; [done|exact Hrn|].
  intros r s1 (HO&Hw1&it&i&off&->&Hit&Hat&Hlen'). destruct (only_pos_same _ _ HO) as (Eh&Ec&En&Eu&El&_&_&_&Ect).
  destruct (ii_node _ _ _ _ _ Hit) as (nd&Hi&_). pose proof (substr_length _ _ _ Hw Hrn) as Hz.
  wp_step. rewrite <- Eh, <- En in Hit. rewrite <- En in Hi.
  wp_apply (export_loop_spec s1 it i off nd (substr pos n (st_content s)) buf bytes Hw1); [by eapply foreign_only_pos|by rewrite Eh|done|lia|exact Hit|exact Hi|..].
  - rewrite En, Eu. lia.
  - rewrite En, Eu, Ect, Hlen', Hat. unfold substr. do 2 f_equal. lia.
  - lia.
  - intros _ s2 ->. wp_steps. split; [done|]. apply wrote_intro; [done..|].
    unfold exported. rewrite overlay_length by (rewrite length_zdrop; lia). lia.
Qed.

Lemma vstr_export_cstr_buf_spec s pos len buf buf_len bytes :
  wf s → foreign s (p_blk buf) → h_mem (s_heap s) !! p_blk buf = Some bytes → 0 ≤ p_off buf →
  in_range s pos len ∨ len = 0 ∧ pos ≠ 0 → 1 ≤ buf_len → p_off buf + Z.min (len + 1) buf_len ≤ zlen bytes →
  wp (vstr_export_cstr_buf pos len buf buf_len) s (λ r s', r = Z.min (len + 1) buf_len ∧
    wrote s (p_blk buf) (zwrite (p_off buf) (exported (substr pos (r - 1) (st_content s)) (p_off buf) bytes ++ [0]) bytes) s').
Proof.
  intros Hw Hf Hb Ho Hr Hl Hfit. pose proof (wf_len_max _ Hw) as Hmax.
  assert (Hbad : export_bad (s_base s) pos len = false).
  { unfold export_bad. destruct Hr as [(?&?&?)|[-> ?]]; rewrite bool_decide_eq_true_2; try done; [|lia].
    rewrite poslast_id by lia. lia. }
  assert (Hlen : 0 ≤ len) by (destruct Hr as [(?&?&?)|[-> ?]]; lia).
  unfold vstr_export_cstr_buf. wp_step. apply wp_gets. rewrite Hbad, decide_False by lia. cbv zeta.
  set (n := Z.min (len + 1) buf_len). replace (if decide (buf_len ≤ len) then buf_len - 1 else len) with (n - 1) by (case_decide; lia).
  wp_step. refine (wp_mono _ _ (λ _ s', wrote s (p_blk buf)
    (zwrite (p_off buf) (exported (substr pos (n - 1) (st_content s)) (p_off buf) bytes) bytes) s') _ _ _).
  - destruct (decide (n = 1)) as [->|Hn].
    + unfold vstr_export_buf. wp_step. apply wp_gets. rewrite Hbad. rewrite decide_True by done. wp_steps.
      unfold substr. rewrite ztake_0 by lia. change (exported [] _ _) with (@nil Z). rewrite zwrite_nil. by apply wrote_id.
    + destruct Hr as [Hr|[-> _]]; [|lia].
      wp_apply (vstr_export_buf_spec s pos len buf (n - 1) bytes); [done..|lia|lia|].
      intros r s' [-> HW]. by replace (Z.min len (n - 1)) with (n - 1) in HW by lia.
  - intros _ s1 HW. set (D := exported _ _ _) in HW |- *.
    assert (HD : zlen D = n - 1).
    { unfold D, exported. assert (zlen (substr pos (n - 1) (st_content s)) = n - 1).
      { destruct (decide (n = 1)) as [->|]; [unfold substr; by rewrite ztake_0 by lia|].
        destruct Hr as [(?&?&?)|[-> _]]; [|lia]. apply substr_length; [done|]. unfold in_range. lia. }
      rewrite overlay_length; [done|]. rewrite length_zdrop. lia. }
    wp_step. eapply wp_mono; [eapply (wrote_store s s1 _ (p_off buf + (n - 1)) [0] _ _ HW); [lia| |reflexivity]|].
    + rewrite length_zwrite by lia. cbn. lia.
    + intros [] s2 HW2. wp_steps. split; [lia|]. replace (n - 1 + 1 - 1) with (n - 1) by lia. fold D.
      rewrite <- (zwrite_zwrite (p_off buf) D [0]) by (cbn; lia). rewrite HD. exact HW2.
Qed.

(** ** Copies in memory of their own *)
Lemma heap_inv_new_block h c ns bytes ma :
  heap_inv h c ns →
  let h' := mkHeap (<[h_next h := bytes]> (h_mem h)) (h_refs h) (Pos.succ (h_next h)) ma in
  heap_inv h' c ns ∧ heap_grows h h'.
Proof.
  intros H h'. destruct (heap_inv_fresh _ _ _ H) as (Hown&Hmem&Href).
  assert (Hg : heap_grows h h').
  { split; [|done]. intros a Ha. cbn. rewrite lookup_insert_ne; [done|]. intros <-. by rewrite Hmem in Ha. }
  split; [|done]. pose proof (hi_nodes _ _ _ H) as Hns. rewrite Forall_forall in Hns.
  split; try apply H.
  - rewrite Forall_forall. intros nd Hnd. eapply heap_grows_node; eauto.
  - eapply Forall_impl; [apply (hi_spare_buf _ _ _ H)|]. intros x (b&Hb&Hz). exists b. split; [|done].
    rewrite <- Hb. apply Hg. by rewrite Hb.
  - eapply Forall_impl; [apply (hi_fresh_own _ _ _ H)|]. cbn. lia.
  - cbn. intros a. rewrite lookup_insert. case_decide; [subst; lia|]. intros Ha%(hi_fresh_mem _ _ _ H). lia.
  - cbn. intros r Hr%(hi_fresh_ref _ _ _ H). lia.
  - intros r ref Hr Hpos. destruct (hi_frees _ _ _ H r ref Hr Hpos) as [Hf Hs]. split; [|done].
    unfold ref_freeable in *. destruct (r_func ref); try done.
    all: destruct Hf as [? Ha]; split; [done|]; by rewrite (proj1 Hg).
  - intros a blk Ha. rewrite (proj1 Hg); [by apply (hi_shown _ _ _ H)|]. by rewrite (hi_shown _ _ _ H _ _ Ha).
  - cbn. intros a Ha. destruct (hi_guard _ _ _ H a Ha) as (?&?&?). split_and!; [lia|done|done].
Qed.

(** The reference vstr_ref_make_malloc makes, with data in it *)
Definition data_ref (r : positive) : Vstr_ref := mkRef vstr_ref_cb_free_ref (Ptr r 0) 1.
Lemma heap_inv_data_ref h c ns bytes ma :
  heap_inv h c ns →
  let r := h_next h in
  let h' := mkHeap (<[r := bytes]> (h_mem h)) (<[r := data_ref r]> (h_refs h)) (Pos.succ r) ma in
  heap_inv h' c ns ∧ chain_bytes h' ns = chain_bytes h ns.
Proof.
  intros H r h'. destruct (heap_inv_fresh _ _ _ H) as (Hown&Hmem&Href). fold r in Hown, Hmem, Href.
  destruct (heap_inv_new_block h c ns bytes ma H) as [H1 Hg]. fold r in H1, Hg. set (h1 := mkHeap _ _ _ _) in H1, Hg.
  pose proof (hi_nodes _ _ _ H1) as Hns. rewrite Forall_forall in Hns.
  assert (Hor : ∀ r', is_Some (h_refs h !! r') → h_refs h' !! r' = h_refs h !! r').
  { intros r' Hs. cbn. rewrite lookup_insert_ne; [done|]. intros <-. by rewrite Href in Hs. }
  assert (Hn : ∀ nd, nd ∈ ns → node_ok h' (buf_sz c) nd ∧ node_bytes h' nd = node_bytes h1 nd ∧
    node_ext (h_refs h') nd = node_ext (h_refs h1) nd).
  { intros nd Hnd. eapply node_frame; [by apply Hns|done|done|]. intros r' Hr'. rewrite Hor; [done|].
    specialize (Hns _ Hnd). destruct nd as [a l []]; cbn in Hr'; try done. injection Hr' as ->.
    destruct Hns as (_&_&_&ref&E&_). cbn in E. by rewrite E. }
  split.
  2:{ rewrite (chain_frame h1 h' ns) by (intros; by apply Hn). eapply heap_grows_chain; [exact Hg|apply H]. }
  assert (Hext : ∀ nd p, nd ∈ ns → node_ext (h_refs h') nd = Some p → node_ext (h_refs h) nd = Some p ∧ p_blk p ≠ r).
  { intros nd p Hnd Hp. destruct (Hn _ Hnd) as (_&_&E). rewrite E in Hp. cbn in Hp. split; [done|]. intros E'.
    pose proof (hi_nodes _ _ _ H) as Hns0. rewrite Forall_forall in Hns0.
    pose proof (node_ext_alloc _ _ _ _ (Hns0 _ Hnd) Hp) as Ha. by rewrite E', Hmem in Ha. }
  assert (Hblk : ∀ r1 ref1, h_refs h !! r1 = Some ref1 → 0 < r_ref ref1 → ¬ ref_frees r1 ref1 r).
  { intros r1 ref1 Hr1 Hpos Hf. destruct (hi_frees _ _ _ H r1 ref1 Hr1 Hpos) as [Hfr _].
    unfold ref_frees, ref_freeable in *.
    assert (r ≠ r1) by (intros <-; by rewrite Href in Hr1).
    destruct (r_func ref1); try done; destruct Hfr as [_ Ha]; rewrite ?Hmem in Ha.
    - by rewrite <- Hf, Hmem in Ha.
    - destruct Hf as [Hf|?]; [by rewrite <- Hf, Hmem in Ha|done]. }
  split; try apply H1.
  - rewrite Forall_forall. intros nd Hnd. by apply Hn.
  - cbn. intros r'. rewrite lookup_insert. case_decide; [subst; lia|]. intros Ha%(hi_fresh_ref _ _ _ H). fold r in Ha. lia.
  - intros nd p Hnd Hp. destruct (Hext _ _ Hnd Hp) as [Hp' _]. by eapply (hi_alias _ _ _ H).
  - intros nd p Hnd Hp. destruct (Hext _ _ Hnd Hp) as [Hp' _]. by eapply (hi_alias_others _ _ _ H).
  - intros r' Hc. destruct (hi_count _ _ _ H r' Hc) as (ref&Hr&Hle). exists ref. split; [|done]. by rewrite Hor, Hr by done.
  - cbn. intros r' ref. rewrite lookup_insert. case_decide as E.
    + intros [= <-] _. subst r'. split; [done|]. cbn. intros blk ->. split; [done|].
      intros nd p Hnd Hp Eb. by destruct (Hext _ _ Hnd Hp).
    + intros Hr Hpos. destruct (hi_frees _ _ _ H1 r' ref Hr Hpos) as [Hf Hs]. split; [done|].
      intros blk Hb. destruct (Hs _ Hb) as [Hb1 Hb2]. split; [done|]. intros nd p Hnd Hp. destruct (Hext _ _ Hnd Hp) as [Hp' _].
      by apply Hb2.
  - cbn. intros r1 r2 ref1 ref2 blk. rewrite !lookup_insert. do 2 case_decide; subst.
    + done.
    + intros [= <-] Hr2 _ Hpos Hf1 Hf2. cbn in Hf1. subst blk. by destruct (Hblk _ _ Hr2 Hpos).
    + intros Hr1 [= <-] Hpos _ Hf1 Hf2. cbn in Hf2. subst blk. by destruct (Hblk _ _ Hr1 Hpos).
    + intros Hr1 Hr2. by apply (hi_disj _ _ _ H).
  - cbn. intros a Ha. destruct (hi_guard _ _ _ H a Ha) as (Hlt&?&Hgd). fold r in Hlt. split_and!; [lia|done|].
    intros x rx. rewrite lookup_insert. case_decide as E; [|by apply Hgd].
    intros [= <-] _. cbn. intros ->. lia.
  - cbn. intros x ro Hx. destruct (hi_held _ _ _ H x ro Hx) as (r0&Hr0&?&?). exists r0.
    split; [|done]. by rewrite Hor, Hr0 by (by rewrite Hr0).
Qed.

(** A new reference [r] shows [bytes], and nothing else is different. *)
Record copied (s : St) (r : positive) (bytes : list Z) (s' : St) : Prop := {
  cp_wf : wf s';
  cp_content : st_content s' = st_content s;
  cp_base : b_nodes (s_base s') = b_nodes (s_base s) ∧ b_len (s_base s') = b_len (s_base s);
  cp_conf : s_conf s' = s_conf s;
  cp_ref : h_refs (s_heap s') = <[r := data_ref r]> (h_refs (s_heap s));
  cp_mem : h_mem (s_heap s') = <[r := bytes]> (h_mem (s_heap s));
  cp_foreign : foreign s' r }.

Lemma vstr_ref_make_malloc_spec s n :
  wf s → wp (vstr_ref_make_malloc n) s (λ r s',
    match r with
    | None => malloc_only s s' ∧ wf s'
    | Some r => copied s r (junk_bytes r n) s'
    end).
Proof.
  intros Hw. unfold vstr_ref_make_malloc. wp_step. pose proof (wf_heap _ Hw) as Hh.
  destruct s as [[m rs nx ma] c b]. unfold malloc. unfold wp at 1. cbn [s_heap].
  destruct (heap_inv_data_ref _ _ _ (junk_bytes nx n) (tail ma) Hh) as [Hh' Hc']. destruct (heap_inv_fresh _ _ _ Hh) as (Hown&Hmem&Href).
  cbn in Hh', Hc', Hown, Hmem, Href.
  assert (Hsome : wp (upd_heap (λ h, h_set_mem (<[nx := junk_bytes nx n]> (h_mem h)) h);; ref_put nx (mkRef vstr_ref_cb_free_ref (Ptr nx 0) 1);; mret (Some nx))
    (mkSt (mkHeap m rs (Pos.succ nx) (tail ma)) c b) (λ r s',
    match r with
    | None => malloc_only (mkSt (mkHeap m rs nx ma) c b) s' ∧ wf s'
    | Some r => copied (mkSt (mkHeap m rs nx ma) c b) r (junk_bytes r n) s'
    end)).
  { wp_steps. unfold ref_put. wp_steps. cbn.
    split; cbn; [split; [done|apply Hw|apply Hw]|exact (f_equal (zdrop (b_used b)) Hc')|done..|].
    split; [done|]. split; [eapply heap_inv_unguarded; [exact Hh|cbn; lia]|]. intros nd p Hnd Hp E. cbn in Hp.
    pose proof (hi_nodes _ _ _ Hh) as Hns. rewrite Forall_forall in Hns. specialize (Hns _ Hnd).
    assert (Hp' : node_ext rs nd = Some p).
    { destruct nd as [a l [| |q|r off]]; try done. cbn in Hp |- *. rewrite lookup_insert_ne in Hp; [done|].
      intros <-. destruct Hns as (_&_&_&ref&Hr&_). cbn in Hr. by rewrite Href in Hr. }
    pose proof (node_ext_alloc _ _ _ _ Hns Hp') as Ha. cbn in Ha. by rewrite E, Hmem in Ha. }
  destruct ma as [|[] ma]; cbn; [exact Hsome|exact Hsome|]. wp_steps.
  assert (HM : malloc_only (mkSt (mkHeap m rs nx (false :: ma)) c b) (on_heap (λ _, mkHeap m rs nx ma) (mkSt (mkHeap m rs nx (false :: ma)) c b))).
  { split_and!; try done; cbn; lia. }
  split; [done|]. split; [|apply Hw|apply Hw]. eapply heap_inv_malloc_only; [exact Hh|done|done|cbn; lia].
Qed.

Lemma copied_wrote s r bytes s1 new s' : copied s r bytes s1 → wrote s1 r new s' → copied s r new s'.
Proof.
  intros [Hw Hc [Hn Hl] Hcf Hr Hm Hf] [Hw' Hc' [Hn' Hl'] Hcf' Hh' Hf'].
  split; [done|by rewrite Hc'|by rewrite Hn', Hl'|by rewrite Hcf'|..|done]; rewrite Hh'; destruct (s_heap s1); cbn in *.
  - done.
  - by rewrite Hm, insert_insert_eq.
Qed.

(** The bytes of a copy: those of the data, and any where there is none *)
Definition shows_chrs (l : list byte_or_non) (bytes : list Z) : Prop := Forall2 (λ (c : byte_or_non) b, ∀ x, c = Some x → b = x) l bytes.
Lemma overlay_shows src old : zlen src ≤ zlen old → shows_chrs src (overlay src old).
Proof.
  revert old. induction src as [|c src IH]; intros [|o old] H; cbn in H; try lia; [constructor..|].
  constructor; [by intros x ->|]. apply IH. lia.
Qed.

Lemma copied_src s r bytes extra s' :
  copied s r (bytes ++ extra) s' → 0 < zlen bytes → zlen bytes ≤ VSTR_MAX_NODE_ALL →
  ref_src r (s_heap s') (st_own s') 0 (Some <$> bytes).
Proof.
  intros [Hw _ _ _ Hr Hm Hf] Hl Hmax. unfold VSTR_MAX_NODE_ALL, UINT_MAX in *.
  assert (Hr' : h_refs (s_heap s') !! r = Some (data_ref r)) by (rewrite Hr; apply lookup_insert_eq).
  unfold ref_src. rewrite length_fmap. unfold VSTR_MAX_NODE_ALL, UINT_MAX. split_and!; [lia|lia|lia|].
  exists (data_ref r). split_and!; [done|done|..].
  - exists bytes. split; [done|]. split; [|apply Hf]. unfold load. cbn [p_blk p_off ptr_add data_ref r_ptr].
    rewrite Hm, lookup_insert_eq. cbn. rewrite decide_True by (rewrite length_app; lia).
    rewrite zdrop_0 by lia. by rewrite ztake_app_len.
  - split; [destruct Hf as (_&Hg&_); intros Ho; apply Hg; by right|].
    intros r' ref Hr'' Hpos Hfr. destruct (decide (r' = r)) as [->|Hne]; [done|]. exfalso. apply Hne.
    eapply (hi_disj _ _ _ (wf_heap _ Hw)); [exact Hr''|exact Hr'|done|done|exact Hfr|done].
Qed.

(** The reference [r] shows the characters and [extra]. *)
Definition copied_chrs (s : St) (r : positive) (l : list byte_or_non) (extra : list Z) (s' : St) : Prop :=
  ∃ bytes, shows_chrs l bytes ∧ copied s r (bytes ++ extra) s'.
Lemma copied_fresh s r n src extra s1 s' :
  copied s r (junk_bytes r n) s1 → wrote s1 r (zwrite 0 (exported src 0 (junk_bytes r n) ++ extra) (junk_bytes r n)) s' →
  zlen src + zlen extra = n → copied_chrs s r src extra s'.
Proof.
  intros Hc HW Hn. pose proof (length_junk_bytes r n) as Hj.
  assert (Hz : zlen (exported src 0 (junk_bytes r n)) = zlen src).
  { unfold exported. rewrite zdrop_0 by lia. rewrite overlay_length by lia. done. }
  exists (exported src 0 (junk_bytes r n)). split; [unfold exported; rewrite zdrop_0 by lia; apply overlay_shows; lia|].
  eapply copied_wrote; [exact Hc|]. rewrite zwrite_0 in HW by (rewrite length_app; lia).
  rewrite zdrop_all, app_nil_r in HW by (rewrite length_app; lia). done.
Qed.

Definition export_failed (s s' : St) : Prop :=
  wf s' ∧ st_content s' = st_content s ∧ b_nodes (s_base s') = b_nodes (s_base s) ∧ b_len (s_base s') = b_len (s_base s) ∧
  conf_same (s_conf s) (s_conf s') ∧ malloc_bad (s_conf s') = true.

Lemma made_ref_spec s n (copy : positive → M ()) (Q : positive → St → Prop) :
  wf s →
  (∀ r s1, copied s r (junk_bytes r n) s1 → wp (copy r) s1 (λ _ s', Q r s')) →
  wp (ref ← vstr_ref_make_malloc n; made_ref ref copy) s (λ r s',
    match r with None => export_failed s s' | Some r => Q r s' end).
Proof.
  intros Hw Hcopy. wp_step. wp_apply vstr_ref_make_malloc_spec; [done|]. intros [r|] s1 H1; cbn [made_ref].
  - wp_step. wp_apply Hcopy; [done|]. intros _ s' Hc. by wp_steps.
  - destruct H1 as ((Ec&Eb&Em&Er&_)&Hw1). wp_steps. destruct s1 as [h1 c1 b1]. cbn in *. subst c1 b1.
    split_and!.
    + split; [|apply Hw1|apply Hw1]. apply heap_inv_malloc_bad, Hw1.
    + unfold st_content, content. cbn. f_equal. eapply (heap_grows_chain (s_heap s)); [|apply Hw].
      split; [|done]. intros a _. cbn. by rewrite Em.
    + done.
    + done.
    + apply conf_same_malloc_bad.
    + by destruct (s_conf s).
Qed.

Lemma copied_at s r bytes s1 : copied s r bytes s1 → wp (ref_at r) s1 (λ v s', s' = s1 ∧ v = data_ref r).
Proof.
  intros [_ _ _ _ Hr _ _]. unfold ref_at. wp_step. wp_step. eapply wp_of_option; [rewrite Hr; apply lookup_insert_eq|done].
Qed.

Lemma vstr__export_buf_ref_spec s pos len :
  wf s → in_range s pos len →
  wp (vstr__export_buf_ref pos len) s (λ r s',
    match r with None => export_failed s s' | Some r => copied_chrs s r (substr pos len (st_content s)) [] s' end).
Proof.
  intros Hw Hr. apply (made_ref_spec s _ _ (λ r s', copied_chrs s r _ _ s')); [done|]. intros r s1 Hc. pose proof Hc as [Hw1 Hct [Hn Hl] _ _ Hm Hf].
  pose proof (substr_length _ _ _ Hw Hr) as Hz. pose proof Hr as (?&?&?).
  wp_step. wp_apply copied_at; [exact Hc|]. intros v s2 [-> ->]. wp_step.
  wp_apply (vstr_export_buf_spec s1 pos len (Ptr r 0) len (junk_bytes r len)); cbn [p_blk p_off]; [done|done|by rewrite Hm, lookup_insert_eq|lia| |lia| |].
  - unfold in_range. by rewrite Hl.
  - rewrite length_junk_bytes. lia.
  - intros n s2 [-> HW]. wp_steps. rewrite Z.min_id, Hct in HW.
    eapply copied_fresh; [exact Hc|by rewrite app_nil_r|cbn; lia].
Qed.

Lemma vstr__export_cstr_ref_spec s pos len :
  wf s → in_range s pos len ∨ len = 0 ∧ pos ≠ 0 → len < SIZE_MAX →
  wp (vstr__export_cstr_ref pos len) s (λ r s',
    match r with None => export_failed s s' | Some r => copied_chrs s r (substr pos len (st_content s)) [0] s' end).
Proof.
  intros Hw Hr Hmax. assert (Hl0 : 0 ≤ len) by (unfold in_range in Hr; lia). unfold vstr__export_cstr_ref.
  rewrite u64_id by lia. apply (made_ref_spec s _ _ (λ r s', copied_chrs s r _ _ s')); [done|]. intros r s1 Hc. pose proof Hc as [Hw1 Hct [Hn Hl] _ _ Hm Hf].
  assert (Hz : zlen (substr pos len (st_content s)) = len).
  { destruct Hr as [Hr|[-> _]]; [by apply substr_length|]. unfold substr. by rewrite ztake_0 by lia. }
  wp_step. wp_apply copied_at; [exact Hc|]. intros v s2 [-> ->]. wp_step.
  wp_apply (vstr_export_cstr_buf_spec s1 pos len (Ptr r 0) (len + 1) (junk_bytes r (len + 1))); cbn [p_blk p_off];
    [done|done|by rewrite Hm, lookup_insert_eq|lia| |lia| |].
  - unfold in_range in *. by rewrite Hl.
  - rewrite length_junk_bytes. lia.
  - intros n s2 [-> HW]. wp_steps. rewrite Z.min_id, Hct in HW. replace (len + 1 - 1) with len in HW by lia.
    eapply copied_fresh; [exact Hc|exact HW|cbn; lia].
Qed.

End others.

#[export] Instance in_range_dec s pos len : Decision (in_range s pos len).
Proof. unfold in_range. apply _. Defined.

Lemma foreign_demo2 : foreign demo2 10.
Proof.
  split; [by vm_compute; intros H; repeat (apply elem_of_cons in H as [H|H]; [done|]); apply elem_of_nil in H|].
  split; [apply nobody_guarded|].
  assert (H : Forall (λ nd, node_ext (h_refs (s_heap demo2)) nd = None) (b_nodes (s_base demo2))) by (vm_compute; repeat constructor).
  rewrite Forall_forall in H. intros nd p Hnd Hp. by rewrite (H _ Hnd) in Hp.
Qed.

(** C31: vstr_export_cstr_buf writes as many characters of the range as fit
    with the 0 after them, leaves the bytes that stand for characters without
    data and those behind the 0 alone, returns how many it wrote, and changes
    nothing of the string.  A range outside of the string gives 0. *)
Theorem vstr_export_cstr_buf_correct {OT : Others} s pos len buf buf_len bytes :
  wf s → 0 ≤ pos → 0 ≤ len → pos + len - 1 ≤ SIZE_MAX →
  foreign s (p_blk buf) → h_mem (s_heap s) !! p_blk buf = Some bytes → 0 ≤ p_off buf →
  1 ≤ buf_len → p_off buf + Z.min (len + 1) buf_len ≤ zlen bytes →
  ∃ r s', vstr_export_cstr_buf pos len buf buf_len s = Some (r, s') ∧
    if decide (in_range s pos len ∨ len = 0 ∧ pos ≠ 0) then
      r = Z.min (len + 1) buf_len ∧
      wrote s (p_blk buf) (zwrite (p_off buf) (exported (substr pos (r - 1) (st_content s)) (p_off buf) bytes ++ [0]) bytes) s'
    else r = 0 ∧ s' = s.
Proof.
  intros Hw Hp Hl Hmax Hf Hb Ho Hbl Hfit. apply wp_run. case_decide as Hr.
  - by apply vstr_export_cstr_buf_spec.
  - unfold vstr_export_cstr_buf. wp_step. apply wp_gets. replace (export_bad (s_base s) pos len) with true; [by wp_steps|].
    symmetry. unfold export_bad. rewrite bool_decide_eq_false_2; [done|]. intros (H0&[[H1 H2]|H1]); apply Hr; [left|by right].
    rewrite poslast_id in H2; unfold in_range; lia.
Qed.
(** "bc", characters without data and "de" into 7 bytes of "abcdefghij" *)
Lemma vstr_export_cstr_buf_correct_witness :
  ∃ r s', vstr_export_cstr_buf 2 6 (Ptr 10 1) 7 demo2 = Some (r, s') ∧
    r = 7 ∧ wrote demo2 10 [97; 98; 99; 100; 101; 100; 101; 0; 105; 106] s'.
Proof.
  set (bytes := [97; 98; 99; 100; 101; 102; 103; 104; 105; 106]).
  assert (Hr : in_range demo2 2 6) by by vm_compute.
  assert (E2 : zwrite 1 (exported (substr 2 6 (st_content demo2)) 1 bytes ++ [0]) bytes =
    [97; 98; 99; 100; 101; 100; 101; 0; 105; 106]) by by vm_compute.
  rewrite <- E2. destruct (vstr_export_cstr_buf_correct demo2 2 6 (Ptr 10 1) 7 bytes) as (r&s'&E&H).
  - apply demo2_wf.
  - lia.
  - lia.
  - done.
  - exact foreign_demo2.
  - by vm_compute.
  - done.
  - lia.
  - by vm_compute.
  - exists r, s'. split; [exact E|]. case_decide as Hd; [|by destruct Hd; left]. destruct H as [-> H].
    split; [lia|exact H].
Defined.

(** C32: a copy of a range made with vstr__export_buf_ref and added by
    reference with vstr_add_ref puts the characters of the range at the
    position, where those without data show whatever the new memory held;
    if the memory runs out in either the string keeps its characters. *)
Theorem export_ref_add_correct {OT : Others} {JK : Junk} s pos len at_pos k :
  wf s → in_range s pos len → 0 ≤ at_pos ≤ b_len (s_base s) →
  k = add_needs (add_ref_op 1%positive) len s → room k k s → k < UINT_MAX → b_len (s_base s) + len ≤ VSTR_MAX_NODE_ALL →
  ∃ ok s', (r ← vstr__export_buf_ref pos len;
            match r with Some r => vstr_add_ref at_pos r 0 len | None => mret false end) s = Some (ok, s') ∧
    wf s' ∧ if (ok : bool) then ∃ bytes, shows_chrs (substr pos len (st_content s)) bytes ∧
        st_content s' = ztake at_pos (st_content s) ++ (Some <$> bytes) ++ zdrop at_pos (st_content s)
      else st_content s' = st_content s.
Proof.
  intros Hw Hr Hat -> Hroom Hk Hmax. apply wp_run. wp_step. pose proof Hr as (Hp1&Hp2&Hp3).
  pose proof (substr_length _ _ _ Hw Hr) as Hz.
  wp_apply vstr__export_buf_ref_spec; [done|done|]. intros [r|] s1 H1.
  - destruct H1 as (bytes&Hsh&H1). pose proof (Forall2_length _ _ _ Hsh) as Hzb. pose proof H1 as [Hw1 Hct [Hn Hl] Hcf Href _ _].
    pose proof (copied_src _ _ _ _ _ H1 ltac:(lia) ltac:(lia)) as Hsrc. set (d := Some <$> bytes : list byte_or_non) in *.
    assert (Hzd : zlen d = len) by (unfold d; rewrite length_fmap; lia). rewrite <- Hzd.
    wp_apply (vstr_add_ref_spec s1 at_pos r 0 d Hw1); [lia|done| |rewrite Hl; lia|].
    + destruct Hroom as [H1' H2']. unfold add_room, add_needs in *. rewrite Hcf, Hzd. split.
      * rewrite Hcf, Hn. exact H1'.
      * rewrite Href. intros r' ref. rewrite lookup_insert. case_decide; [intros [= <-]; cbn in *; lia|apply H2'].
    + intros ok s2 HP. unfold add_post in HP. rewrite Hl, decide_False in HP by lia. destruct HP as (Hw2&_&HP). split; [done|].
      rewrite Hct in HP. destruct ok; [exists bytes; split; [by rewrite Hzd|exact HP]|apply HP].
  - destruct H1 as (Hw1&Hct&_). by wp_steps.
Qed.
(** "bc" and a character without data, added in front *)
Definition demo_junk : Junk := λ _ i, 200 + i.
Lemma export_ref_add_correct_witness :
  ∃ ok s', (r ← vstr__export_buf_ref (JK := demo_junk) 2 3;
            match r with Some r => vstr_add_ref 0 r 0 3 | None => mret false end) demo2 = Some (ok, s') ∧
    wf s' ∧ if (ok : bool) then ∃ bytes, shows_chrs [Some 98; Some 99; None] bytes ∧
        st_content s' = (Some <$> bytes) ++ st_content demo2
      else st_content s' = st_content demo2.
Proof.
  apply (export_ref_add_correct (JK := demo_junk) demo2 2 3 0 (add_needs (add_ref_op 1%positive) 3 demo2)).
  - apply demo2_wf.
  - by vm_compute.
  - by vm_compute.
  - done.
  - apply room_check_sound. by vm_compute.
  - by vm_compute.
  - by vm_compute.
Defined.
