(* ===== verification/StringTheorems.v ===== *)
(** * The functions that build and change strings: what they do, stated of
    their runs.  Each theorem is followed by an instance on the strings of
    Demo.v.

    The theorems about substituting. *)
From Stdlib Require Import ZArith Lia ZifyBool.
From stdpp Require Import base tactics list numbers option gmap.
From S2P Require Import Prelude State Wp Ref Cache Core Add Del Base Inv PosLemmas SpareLemmas SplitLemmas CacheLemmas AddLemmas StringLemmas AddSpec AddOps AddTheorems BaseTheorems DelLemmas DelSpec DelTheorems Edits Iter IterLemmas InPlace Sub DelAtomic SubSpec Spn IovecSpec SpnSpec SpnTheorems World Demo.

(** ** Editing *)

(** Any sequence of the operations that add to or delete from a string is
    defined - it reads and writes only memory it may - keeps the invariant of
    the string, its caches and its memory, and the characters of the string
    are those that the same edits of a list give, where an edit that returns
    FALSE leaves them alone. *)
Theorem edits_refine_lists {OT : Others} es s :
  wf s → edits_ok es s →
  ∃ oks s', edits_run es s = Some (oks, s') ∧ wf s' ∧ length oks = length es ∧
    st_content s' = edits_abs es oks (st_content s).
Proof. intros Hw Hok. apply wp_run. by apply edits_run_spec. Qed.

Lemma edits_refine_lists_witness :
  let es := [Add_rep_chr 2 120 3; Delete 9 4; Delete 3 5] in
  edits_ok es demo1 ∧ ∃ oks s', edits_run es demo1 = Some (oks, s') ∧ wf s' ∧ length oks = length es ∧
    st_content s' = edits_abs es oks (st_content demo1).
Proof.
  intros es. assert (H : edits_ok es demo1).
  { split; [split_and!; [lia|lia|by apply room_check_sound; vm_compute]|].
    intros ok s' Hs. vm_compute in Hs. injection Hs as <- <-.
    split; [split; [split_and!; by vm_compute|by apply room_check_sound; vm_compute]|].
    intros ok s' Hs. vm_compute in Hs. injection Hs as <- <-.
    split; [split; [split_and!; by vm_compute|by apply room_check_sound; vm_compute]|done]. }
  split; [exact H|]. exact (edits_refine_lists es demo1 demo1_wf H).
Defined.

(** C4: adding a buffer inserts its bytes after [pos] characters, in the fast
    path and in the general one, and touches no memory but the string's; it
    returns FALSE on a position after the end, changing nothing, and when
    memory runs out, keeping the characters. *)
Theorem vstr_add_buf_correct {OT : Others} s pos buffer d :
  wf s → 0 ≤ pos → buf_src (s_heap s) (st_own s) buffer d → add_room add_buf_op (zlen d) s →
  ∃ ok s', vstr_add_buf pos buffer (zlen d) s = Some (ok, s') ∧ add_post s pos d ok s'.
Proof. intros. apply wp_run. by apply vstr_add_buf_spec. Qed.

Lemma vstr_add_buf_correct_witness :
  let d : list byte_or_non := Some <$> [97; 98] in
  ∃ ok s', vstr_add_buf 1 (Ptr 10 0) (zlen d) demo1 = Some (ok, s') ∧ add_post demo1 1 d ok s'.
Proof.
  intros d. apply (vstr_add_buf_correct demo1 1 (Ptr 10 0) d).
  - exact demo1_wf.
  - lia.
  - by apply demo1_src.
  - apply room_check_sound. by vm_compute.
Defined.

(** C5: deleting removes the range, from the front, from the end, within a
    node or across nodes, by the fast paths or the general one; an illegal
    range is refused and changes nothing; without memory for a split the
    characters stay. *)
Theorem vstr_del_correct {OT : Others} s pos len :
  wf s → del_range_ok s pos len → room 1 1 s →
  ∃ ok s', vstr_del pos len s = Some (ok, s') ∧ del_post s pos len ok s'.
Proof. intros. apply wp_run. by apply vstr_del_spec. Qed.

Lemma vstr_del_correct_witness :
  ∃ ok s', vstr_del 2 4 demo2 = Some (ok, s') ∧ del_post demo2 2 4 ok s'.
Proof.
  apply (vstr_del_correct demo2 2 4).
  - exact demo2_wf.
  - split_and!; by vm_compute.
  - apply room_check_sound. by vm_compute.
Defined.

(** C6: adding a reference inserts the bytes it shows, counts the references
    the new nodes hold and shares the memory. *)
Theorem vstr_add_ref_correct {OT : Others} s pos r off d :
  wf s → 0 ≤ pos → (0 < zlen d → ref_src r (s_heap s) (st_own s) off d) →
  add_room (add_ref_op r) (zlen d) s → b_len (s_base s) + zlen d ≤ VSTR_MAX_NODE_ALL →
  ∃ ok s', vstr_add_ref pos r off (zlen d) s = Some (ok, s') ∧ add_post s pos d ok s'.
Proof. intros. apply wp_run. by apply vstr_add_ref_spec. Qed.

Lemma vstr_add_ref_correct_witness :
  let d : list byte_or_non := Some <$> [99; 100; 101] in
  ∃ ok s', vstr_add_ref 6 11 2 (zlen d) demo1 = Some (ok, s') ∧ add_post demo1 6 d ok s'.
Proof.
  intros d. apply (vstr_add_ref_correct demo1 6 11 2 d).
  - exact demo1_wf.
  - lia.
  - intros _. split_and!; [done|by vm_compute|by vm_compute|].
    exists (mkRef vstr_ref_cb_free_nothing (Ptr 10 0) 1). split_and!; [by vm_compute|done| |].
    + exists [99; 100; 101]. split; [done|]. split; [by vm_compute|]. apply (bool_decide_unpack _). by vm_compute.
    + apply demo1_stays.
  - apply room_check_sound. by vm_compute.
  - by vm_compute.
Defined.

(** C7: adding a pointer inserts the bytes it points to. *)
Theorem vstr_add_ptr_correct {OT : Others} s pos ptr d :
  wf s → 0 ≤ pos → ptr_src (s_heap s) (st_own s) ptr d → add_room add_ptr_op (zlen d) s →
  b_len (s_base s) + zlen d ≤ VSTR_MAX_NODE_ALL →
  ∃ ok s', vstr_add_ptr pos ptr (zlen d) s = Some (ok, s') ∧ add_post s pos d ok s'.
Proof. intros. apply wp_run. by apply vstr_add_ptr_spec. Qed.

Lemma vstr_add_ptr_correct_witness :
  let d : list byte_or_non := Some <$> [97; 98] in
  ∃ ok s', vstr_add_ptr 0 (Ptr 10 0) (zlen d) demo1 = Some (ok, s') ∧ add_post demo1 0 d ok s'.
Proof.
  intros d. apply (vstr_add_ptr_correct demo1 0 (Ptr 10 0) d).
  - exact demo1_wf.
  - lia.
  - split; [by apply demo1_src|].
    apply demo1_stays.
  - apply room_check_sound. by vm_compute.
  - by vm_compute.
Defined.

(** C8: adding a repeated character inserts [n] copies of it, and adding NON
    data inserts [n] characters without a value, of any length, in as many
    nodes as it needs. *)
Theorem vstr_add_repeated_correct {OT : Others} s pos chr n :
  wf s → 0 ≤ pos → 0 ≤ n → add_room add_rep_chr_op n s → add_room add_non_op n s →
  (∃ ok s', vstr_add_rep_chr pos chr n s = Some (ok, s') ∧ add_post s pos (zrep n (Some chr)) ok s') ∧
  (∃ ok s', vstr_add_non pos n s = Some (ok, s') ∧ add_post s pos (zrep n None) ok s').
Proof. intros. split; apply wp_run; [by apply vstr_add_rep_chr_spec|by apply vstr_add_non_spec]. Qed.

Lemma vstr_add_repeated_correct_witness :
  (∃ ok s', vstr_add_rep_chr 3 120 300000000 demo2 = Some (ok, s') ∧ add_post demo2 3 (zrep 300000000 (Some 120)) ok s') ∧
  (∃ ok s', vstr_add_non 3 300000000 demo2 = Some (ok, s') ∧ add_post demo2 3 (zrep 300000000 None) ok s').
Proof.
  apply (vstr_add_repeated_correct demo2 3 120 300000000).
  - exact demo2_wf.
  - lia.
  - lia.
  - apply room_check_sound. by vm_compute.
  - apply room_check_sound. by vm_compute.
Defined.

(** C10: what was added can be deleted again: after an addition that
    succeeded, deleting as many characters there gives the characters of the
    beginning back, or, without memory, keeps those of the longer string. *)
Theorem add_del_roundtrip {OT : Others} s pos buffer d s1 :
  wf s → 0 ≤ pos → buf_src (s_heap s) (st_own s) buffer d → add_room add_buf_op (zlen d) s → 0 < zlen d →
  vstr_add_buf pos buffer (zlen d) s = Some (true, s1) → del_range_ok s1 (pos + 1) (zlen d) → room 1 1 s1 →
  ∃ ok s2, vstr_del (pos + 1) (zlen d) s1 = Some (ok, s2) ∧
    st_content s2 = if ok then st_content s else st_content s1.
Proof.
  intros Hw Hp Hsrc Hroom Hd Hadd Hdel Hroom1.
  pose proof (vstr_add_buf_spec s pos buffer d Hw Hp Hsrc Hroom) as HA. unfold wp, add_post in HA. rewrite Hadd in HA.
  destruct (decide (b_len (s_base s) < pos)) as [|Hle]; [by destruct HA|]. destruct HA as (Hw1&_&Hc).
  pose proof (vstr_del_spec s1 (pos + 1) (zlen d) Hw1 Hdel Hroom1) as HD.
  apply wp_run in HD as (ok&s2&Hrun&HD). exists ok, s2. split; [done|]. unfold del_post in HD.
  destruct (decide (del_bad s1 (pos + 1) (zlen d))) as [_|_]; [by destruct HD as [-> ->]|].
  destruct HD as (_&_&HD). destruct ok; [|by destruct HD]. destruct HD as [-> _]. rewrite Hc.
  pose proof (wf_content_length _ Hw) as Hl.
  assert (Hz : zlen (ztake pos (st_content s)) = pos) by (rewrite length_ztake; lia).
  replace (pos + 1 - 1) with pos by lia. rewrite <- Hz at 1. rewrite ztake_app_len, app_assoc.
  replace (pos + zlen d) with (zlen (ztake pos (st_content s) ++ d)) by (rewrite length_app; lia).
  by rewrite zdrop_app_len, ztake_zdrop.
Qed.

Lemma add_del_roundtrip_witness :
  let d : list byte_or_non := Some <$> [97; 98] in
  let s1 := run (vstr_add_buf 2 (Ptr 10 0) 2) demo1 in
  ∃ ok s2, vstr_del (2 + 1) (zlen d) s1 = Some (ok, s2) ∧
    st_content s2 = if ok then st_content demo1 else st_content s1.
Proof.
  intros d s1. apply (add_del_roundtrip demo1 2 (Ptr 10 0) d s1).
  - exact demo1_wf.
  - lia.
  - by apply demo1_src.
  - apply room_check_sound. by vm_compute.
  - done.
  - by vm_compute.
  - split_and!; by vm_compute.
  - apply room_check_sound. by vm_compute.
Defined.

(** ** Nodes *)

(** C13: finding the node of a position, by the first node, the last node, the
    remembered node or the scan, gives the same node and offset as the scan
    from the beginning; only the remembered position changes, with its number. *)
Theorem vstr_base__pos_is_scan {OT : Others} s pos cache :
  wf s → 1 ≤ pos ≤ b_len (s_base s) →
  ∃ k off num num' s', vstr_base__pos pos cache s = Some (k, off, num, s') ∧
    vstr__base_ptr_pos pos s = Some (k, off, num', s) ∧ only_pos s s' ∧
    (pos_num_ok (s_base s) → num = num' ∧ pos_num_ok (s_base s')).
Proof.
  intros Hw Hp. pose proof (vstr_base__pos_full s pos cache Hw Hp) as H.
  apply wp_run in H as ([[k off] num]&s'&Hrun&(Hat&Hc&Hw')&_&Hnum).
  pose proof (wf_lens _ Hw) as Hlens. pose proof (bi_len _ (wf_base _ Hw)) as Hlen.
  pose proof (bi_size _ (wf_base _ Hw)) as Hsz.
  assert (Hu : 0 ≤ b_used (s_base s)) by (destruct (bi_used _ (wf_base _ Hw)) as [->|(?&_&_&?)]; lia).
  destruct (scan_pos_spec (b_nodes (s_base s)) 0 (pos + b_used (s_base s)) 1) as (k'&off'&Hscan&Hat'); [done|lia|].
  destruct (at_pos_unique _ _ _ _ _ _ Hlens Hat Hat') as [-> ->].
  exists k', off', num, (1 + Z.of_nat k'), s'. split_and!; [done| | |].
  - unfold vstr__base_ptr_pos, mbind, M_bind, get_base, gets, of_option. cbn. rewrite u64_id by lia. rewrite Hscan. done.
  - split; [done|by intros _].
  - intros Hn. destruct (Hnum Hn). split; [lia|done].
Qed.

Lemma vstr_base__pos_is_scan_witness :
  ∃ k off num num' s', vstr_base__pos 5 true demo2 = Some (k, off, num, s') ∧
    vstr__base_ptr_pos 5 demo2 = Some (k, off, num', demo2) ∧ only_pos demo2 s' ∧
    (pos_num_ok (s_base demo2) → num = num' ∧ pos_num_ok (s_base s')).
Proof. apply (vstr_base__pos_is_scan demo2 5 true); [exact demo2_wf|by vm_compute]. Defined.

(** C14: splitting a node makes two of its type that show the same bytes, with
    the references counted and the invariant of the memory kept; it fails
    only when no spare node can be made, and then changes nothing. *)
Theorem vstr__base_split_node_correct {OT : Others} s i nd pos :
  wf s → b_nodes (s_base s) !! i = Some nd → 0 < pos < nd_len nd → room 1 1 s →
  ∃ ok s', vstr__base_split_node i pos s = Some (ok, s') ∧
    if ok : bool then split_post s i nd pos s'
    else s_base s' = s_base s ∧ malloc_bad (s_conf s') = true.
Proof.
  intros Hw Hi Hp Hroom.
  pose proof (vstr__base_split_node_spec s i nd pos (wf_heap _ Hw) (bi_num _ (wf_base _ Hw)) Hi Hp Hroom) as H.
  apply wp_run in H as (ok&s'&Hrun&H). exists ok, s'. split; [done|]. destruct ok; [done|].
  destruct H as [[] ?]. done.
Qed.

Lemma vstr__base_split_node_correct_witness :
  ∃ ok s', vstr__base_split_node 0 2 demo1 = Some (ok, s') ∧
    if ok : bool then split_post demo1 0 (mkNode 25 4 Node_buf) 2 s'
    else s_base s' = s_base demo1 ∧ malloc_bad (s_conf s') = true.
Proof.
  apply (vstr__base_split_node_correct demo1 0 (mkNode 25 4 Node_buf) 2).
  - exact demo1_wf.
  - by vm_compute.
  - done.
  - apply room_check_sound. by vm_compute.
Defined.

(** C15: moving the bytes of the first node to the start of its buffer keeps
    the characters of the string and its length. *)
Theorem vstr__base_zero_used_correct {OT : Others} s :
  wf s → ∃ s', vstr__base_zero_used s = Some (tt, s') ∧ zero_post s s' ∧ st_content s' = st_content s.
Proof.
  intros Hw. pose proof (vstr__base_zero_used_spec s (wf_heap _ Hw) (wf_base _ Hw)) as H.
  apply wp_run in H as ([]&s'&Hrun&H). exists s'. split_and!; [done|done|].
  assert (Hu : b_used (s_base s') = 0) by (rewrite (zp_base _ _ H); by destruct (s_base s)).
  unfold st_content at 1, content. rewrite Hu, zdrop_0 by lia. apply (zp_bytes _ _ H).
Qed.

Lemma vstr__base_zero_used_correct_witness :
  ∃ s', vstr__base_zero_used demo3 = Some (tt, s') ∧ zero_post demo3 s' ∧ st_content s' = st_content demo3.
Proof. apply (vstr__base_zero_used_correct demo3 demo3_wf). Defined.



(** C29: vstr_sub_buf puts the data in the place of a range that is all in BUF
    nodes, or has nothing in one: in place and then by deleting or adding the
    difference, or by adding and deleting.  FALSE means that nothing has
    changed and that the memory ran out.  TRUE means that the range has been
    replaced, unless the memory ran out in between and the lengths differ:
    then only the characters of the shorter length are. *)
Theorem vstr_sub_buf_correct {OT : Others} (b : bool) s pos len D buf :
  wf s → in_range s pos len → range_type s pos len b → 0 < zlen D →
  buf_src (s_heap s) (st_own s) buf (Some <$> D) →
  pos + zlen D + len + VSTR_MAX_NODE_BUF ≤ SIZE_MAX → sub_room (zlen D) s →
  ∃ ok s', vstr_sub_buf pos len buf (zlen D) s = Some (ok, s') ∧ sub_buf_post s pos len D ok s'.
Proof. intros. by apply wp_run, (vstr_sub_buf_spec b). Qed.
(** "ab" for the "bcd" of "abcdef" *)
Lemma vstr_sub_buf_correct_witness :
  let D := [97; 98] in
  ∃ ok s', vstr_sub_buf 2 3 (Ptr 10 0) (zlen D) demo1 = Some (ok, s') ∧ sub_buf_post demo1 2 3 D ok s'.
Proof.
  intros D. apply (vstr_sub_buf_correct true).
  - apply demo1_wf.
  - by vm_compute.
  - apply only_buf_range; [apply demo1_wf|by vm_compute].
  - done.
  - by apply demo1_src.
  - by vm_compute.
  - apply room_check_sound. by vm_compute.
Defined.

(** C30: vstr_sub_rep_chr is atomic.  Although it adds first and deletes then,
    it either replaces the range or leaves the characters as they were: the
    deletion starts at the end of a node, so it needs no memory. *)
Theorem vstr_sub_rep_chr_correct {OT : Others} s pos len chr n chr_at :
  wf s → in_range s pos len → 0 ≤ n → n ≠ 1 → pos + n + len + VSTR_MAX_NODE_BUF ≤ SIZE_MAX →
  room (1 + add_needs add_rep_chr_op n s) (1 + add_needs add_rep_chr_op n s) s →
  ∃ ok s', vstr_sub_rep_chr pos len chr n chr_at s = Some (ok, s') ∧
    sub_post s pos len (zrep n (Some chr)) ok s'.
Proof. intros. by apply wp_run, vstr_sub_rep_chr_spec. Qed.
(** "xxxxxxxxx" for "c", two characters without data and "d" *)
Lemma vstr_sub_rep_chr_correct_witness :
  ∃ ok s', vstr_sub_rep_chr 3 4 120 9 (Ptr 10 0) demo2 = Some (ok, s') ∧
    sub_post demo2 3 4 (zrep 9 (Some 120)) ok s'.
Proof.
  apply vstr_sub_rep_chr_correct.
  - apply demo2_wf.
  - by vm_compute.
  - done.
  - done.
  - by vm_compute.
  - apply room_check_sound. by vm_compute.
Defined.

(** ** What the theorems leave out *)

(** "abc", two characters without data, "d", one without data and "ef" *)
Definition demo_mixed : St := run (vstr_add_non 6 1) demo2.
Example demo_mixed_content : st_content demo_mixed =
  (Some <$> [97; 98; 99]) ++ [None; None; Some 100; None; Some 101; Some 102].
Proof. by vm_compute. Qed.

(** The second deletion of vstr__sub_buf_slow is one character too far on:
    characters 5 to 7 are replaced, but "e" is deleted and a character without
    data is left. *)
Example sub_buf_slow_wrong_delete :
  st_content <$> (snd <$> vstr_sub_buf 5 3 (Ptr 10 0) 3 demo_mixed) =
  Some ((Some <$> [97; 98; 99]) ++ [None; Some 97; Some 98; Some 99; None; Some 102]).
Proof. by vm_compute. Qed.
(** With more of them it copies to a node without memory. *)
Example sub_buf_slow_undefined : vstr_sub_buf 3 7 (Ptr 10 0) 7 demo_mixed = None.
Proof. by vm_compute. Qed.
