(* ===== verification/WorldTheorems.v ===== *)
(** * Properties of several strings together: edits, adding from string to
    string, making and freeing. *)
From Stdlib Require Import ZArith Lia ZifyBool.
From stdpp Require Import base tactics list numbers option gmap.
From S2P Require Import Prelude State Wp Ref Cache Core Base Add Inv PosLemmas SpareLemmas SplitLemmas CacheLemmas AddLemmas StringLemmas AddSpec AddOps AddTheorems BaseTheorems Del DelLemmas DelTheorems Edits IterLemmas Frame World WorldInv AddVstr AddVstrSpec Life LifeSpec WorldOps Demo WorldDemo.

(** C1: any sequence of making strings, adding to them and deleting from them,
    adding a part of one to another, freeing them and using and giving up
    configurations is the same sequence on a map from strings to lists, where
    making adds an empty list, an edit changes one list and freeing removes
    it: every call returns, the invariant of the library (the memory, the
    spare nodes, the reference counts of blocks and of configurations, the
    spare strings, the caches) holds afterwards, and a call that is out of
    memory changes no list. *)
Theorem library_refines {OT : Others} conv all_ref os w :
  library_inv w → ops_ok conv all_ref os w →
  ∃ rs w', ops_run conv all_ref os w = Some (rs, w') ∧ library_inv w' ∧ ops_spec os (strings w) rs (strings w').
Proof. intros Hw Ho. apply wwp_run. by apply ops_run_spec. Qed.

Definition demo_ops : list world_op :=
  [Op_make 0; Op_make 0; Op_edit 0 (Add_buf 0 (Ptr 10 0) demo_text_w); Op_add_vstr 1 0 0 2 3 false; Op_use_conf 0;
   Op_edit 1 (Add_rep_chr 1 120 2); Op_edit 0 (Delete 2 3); Op_free 0; Op_free_conf 0; Op_make 0; Op_free 1].
Lemma library_refines_witness :
  ∃ rs w', ops_run no_conv no_all_ref demo_ops demo_w0 = Some (rs, w') ∧ library_inv w' ∧
    ops_spec demo_ops (strings demo_w0) rs (strings w').
Proof.
  apply (library_refines no_conv no_all_ref demo_ops demo_w0 demo_w0_library).
  apply ops_check_ok; [apply demo_w0_library|by vm_compute].
Defined.

(** C11: vstr_make_base gives a new empty string and changes no other, whether
    it reuses a freed one or allocates; when memory runs out it gives none,
    everything is as it was and the configuration is marked. *)
Theorem vstr_make_base_correct {OT : Others} w c conf l :
  library_inv w → w_confs w !! c = Some conf → w_lives w !! c = Some l → cl_ref l + 1 ≤ UINT_MAX →
  ∃ r w', vstr_make_base c w = Some (r, w') ∧
    match r with Some k => string_made w c k w' | None => make_refused w c w' end.
Proof. intros [Hw [HL _]] Hc Hl Hmax. apply wwp_run. by eapply vstr_make_base_spec. Qed.

Lemma vstr_make_base_correct_witness :
  ∃ r w', vstr_make_base 0 demo_w0 = Some (r, w') ∧
    match r with Some k => string_made demo_w0 0 k w' | None => make_refused demo_w0 0 w' end.
Proof. by apply (vstr_make_base_correct demo_w0 0 demo_conf demo_life demo_w0_library). Defined.



(** C2: vstr_add_vstr puts the characters of a range of one string into
    another one, whatever kinds of nodes they are in, and leaves every other
    string alone; when memory runs out in the middle, what was added already
    is taken out again and both configurations are marked; a position outside
    is refused and no characters are no work. *)
Theorem vstr_add_vstr_correct {OT : Others} conv all_ref w base from s t pos from_pos len type :
  world_inv w → st_of w base = Some s → st_of w from = Some t → base ≠ from →
  type = VSTR_TYPE_ADD_DEF ∨ type = VSTR_TYPE_ADD_ALL_BUF → no_cstr (s_base t) →
  0 ≤ pos → 1 ≤ from_pos → 0 ≤ len → from_pos + len - 1 ≤ b_len (s_base t) ∨ b_len (s_base t) < from_pos →
  b_len (s_base s) + len ≤ VSTR_MAX_NODE_ALL → world_room (3 * len + 1) (3 * len + 1) w →
  ∃ ok w', vstr_add_vstr conv all_ref base pos from from_pos len type w = Some (ok, w') ∧
    if decide (b_len (s_base s) < pos ∨ b_len (s_base t) < from_pos ∧ len ≠ 0) then ok = false ∧ w' = w
    else add_vstr_result w base from pos (st_content s) (substr from_pos len (st_content t)) ok w'.
Proof.
  intros. apply wwp_run. by apply vstr_add_vstr_full.
Qed.

Definition demo_add_vstr : W bool :=
  vstr_add_vstr no_conv no_all_ref 1 0 0 2 3 VSTR_TYPE_ADD_DEF.
Lemma vstr_add_vstr_correct_witness :
  let s := demo_string 1 demo_w3 in let t := demo_string 0 demo_w3 in
  ∃ ok w', demo_add_vstr demo_w3 = Some (ok, w') ∧
    if decide (b_len (s_base s) < 0 ∨ b_len (s_base t) < 2 ∧ 3 ≠ 0) then ok = false ∧ w' = demo_w3
    else add_vstr_result demo_w3 1 0 0 (st_content s) (substr 2 3 (st_content t)) ok w'.
Proof.
  apply (vstr_add_vstr_correct no_conv no_all_ref demo_w3 1 0 (demo_string 1 demo_w3)
    (demo_string 0 demo_w3) 0 2 3 VSTR_TYPE_ADD_DEF demo_w3_inv demo_string_1 demo_string_0).
  - discriminate.
  - by left.
  - exact demo_string_0_no_cstr.
  - lia.
  - lia.
  - lia.
  - left. by vm_compute.
  - by vm_compute.
  - apply world_room_check_sound. by vm_compute.
Defined.

(** A part of a string put into the middle of the part itself *)
Example vstr_add_vstr_self :
  strings (wrun (vstr_add_vstr no_conv no_all_ref 0 3 0 2 4 VSTR_TYPE_ADD_DEF) demo_w3) !! 0%nat =
  Some (Some <$> [97; 98; 99; 98; 99; 100; 101; 100; 101; 102]).
Proof. by vm_compute. Qed.
