(* ===== verification/Fmt.v ===== *)
(** * Formatted output: specifications, locales and what is written for each
    conversion (src/vstr_add_fmt.c, the locale functions of src/vstr.c,
    vstr_sc_add_grpbasenum_buf of src/vstr_sc.c).

    The types of C are those of LP64.  A local array whose address is passed
    on is an allocation of its own, which no node refers to.  The build is the
    one without wide characters (USE_WIDE_CHAR_T 0); the conversions of
    doubles, of which the configuration has three versions, are an argument. *)
From Stdlib Require Import ZArith Lia ZifyBool Ascii.
From stdpp Require Import base tactics list numbers option gmap.
From S2P Require Import Prelude State Wp Ref Cache Core Add Del Iter Spn Parse.

Definition ch (a : ascii) : Z := Z.of_N (N_of_ascii a).
Definition chrs (l : list ascii) : list Z := ch <$> l.

(** ** Flags *)
Definition ZEROPAD : Z := Z.shiftl 1 8.
Definition SIGN : Z := Z.shiftl 1 9.
Definition PLUS : Z := Z.shiftl 1 10.
Definition SPACE : Z := Z.shiftl 1 11.
Definition LEFT : Z := Z.shiftl 1 12.
Definition SPECIAL : Z := Z.shiftl 1 13.
Definition LARGE : Z := Z.shiftl 1 14.
Definition THOUSAND_SEP : Z := Z.shiftl 1 15.
Definition ALT_DIGITS : Z := Z.shiftl 1 16.
Definition PREC_USR : Z := Z.shiftl 1 28.
Definition NUM_IS_ZERO : Z := Z.shiftl 1 29.
Definition NUM_IS_NEGATIVE : Z := Z.shiftl 1 30.
Definition flag_off (flags bit : Z) : Z := Z.ldiff flags bit.

(** ** The types of integers that are converted *)
Inductive int_type :=
| FMT_UCHAR | FMT_USHORT | FMT_UINT | FMT_ULONG | FMT_ULONG_LONG
| FMT_SIZE_T | FMT_PTRDIFF_T | FMT_UINTMAX_T | FMT_PTR_VOID.
#[export] Instance int_type_eq_dec : EqDecision int_type.
Proof. solve_decision. Defined.
Definition int_bits (t : int_type) : Z :=
  match t with FMT_UCHAR => 8 | FMT_USHORT => 16 | FMT_UINT => 32 | _ => 64 end.

(** ** Locales: for each base of numbers the grouping (a C string) and the
    separator of thousands *)
Record Vstr_locale_num_base := mkLocNum {
  ln_num_base : Z; ln_grouping : list Z; ln_thousands_sep : pointer; ln_thousands_sep_len : Z }.
Record Vstr_locale := mkLoc { loc_num : list Vstr_locale_num_base; loc_null : pointer; loc_null_len : Z }.

(** vstr__loc_num_srch without clone: the values of the base, or those of 0 *)
Definition loc_find (num_base : Z) (loc : Vstr_locale) : option Vstr_locale_num_base :=
  head (filter (λ l, ln_num_base l = num_base) (loc_num loc)).
Definition vstr__loc_num_srch (loc : Vstr_locale) (num_base : Z) : option Vstr_locale_num_base :=
  match loc_find num_base loc with Some l => Some l | None => loc_find 0 loc end.

(** The length of the first group of [num] digits *)
Fixpoint grouping_mod_loop (fuel : nat) (grouping : list Z) (num tmp : Z) : Z :=
  match fuel, grouping with
  | S fuel, g :: rest =>
    if decide (g < 127 ∧ tmp + g < num)
    then grouping_mod_loop fuel (match rest with [] => grouping | _ => rest end) num (tmp + g)
    else num - tmp
  | _, _ => num - tmp
  end.
Definition vstr__add_fmt_grouping_mod (grouping : list Z) (num : Z) : Z :=
  grouping_mod_loop (Z.to_nat num) grouping num 0.

(** The groups of a number, and its length with the separators *)
Fixpoint num_groups (fuel : nat) (grouping : list Z) (len : Z) : list Z :=
  match fuel with
  | O => []
  | S fuel =>
    if decide (len = 0) then []
    else let num := vstr__add_fmt_grouping_mod grouping (u32 len) in num :: num_groups fuel grouping (len - num)
  end.
Definition vstr__add_fmt_grouping_num_sz (l : Vstr_locale_num_base) (len : Z) : Z :=
  let groups := num_groups (Z.to_nat len) (ln_grouping l) len in
  foldr Z.add 0 groups + (Z.max 1 (zlen groups) - 1) * ln_thousands_sep_len l.

(** ** Specifications *)
(** The union of a specification; a double is its image in memory. *)
Inductive fmt_val := U_num (z : Z) | U_ptr (p : option pointer) | U_dbl (bits : Z).

(** The types of arguments of a format of the user *)
Inductive fmt_type :=
| T_INT | T_UINT | T_LONG | T_ULONG | T_LONG_LONG | T_ULONG_LONG | T_SSIZE_T | T_SIZE_T | T_PTRDIFF_T
| T_INTMAX_T | T_UINTMAX_T | T_DOUBLE | T_DOUBLE_LONG | T_PTR_VOID | T_PTR_CHAR | T_PTR_WCHAR_T | T_ERRNO
| T_PTR_SIGNED_CHAR | T_PTR_SHORT | T_PTR_INT | T_PTR_LONG | T_PTR_LONG_LONG | T_PTR_SSIZE_T
| T_PTR_PTRDIFF_T | T_PTR_INTMAX_T.
#[export] Instance fmt_type_eq_dec : EqDecision fmt_type.
Proof. solve_decision. Defined.
(** A format of the user: its name, its types without the end mark, its function *)
Record usr_name_node := mkUsr { un_name : list Z; un_types : list fmt_type; un_func : nat }.

Record fmt_spec := mkSpec {
  fs_u : fmt_val; fs_code : Z; fs_num_base : Z; fs_int_type : int_type; fs_flags : Z;
  fs_field_width : Z; fs_precision : Z;
  fs_main_param : Z; fs_field_width_param : Z; fs_precision_param : Z;
  fs_usr_spec : option usr_name_node; fs_field_width_usr : bool; fs_escape_usr : bool }.
Definition vstr__fmt_init_spec : fmt_spec :=
  mkSpec (U_ptr None) 0 10 FMT_UINT 0 0 0 0 0 0 None false false.

Definition fs_set_u v s := match s with mkSpec _ c b t f w p m wp pp us wu eu => mkSpec v c b t f w p m wp pp us wu eu end.
Definition fs_set_code v s := match s with mkSpec u _ b t f w p m wp pp us wu eu => mkSpec u v b t f w p m wp pp us wu eu end.
Definition fs_set_base v s := match s with mkSpec u c _ t f w p m wp pp us wu eu => mkSpec u c v t f w p m wp pp us wu eu end.
Definition fs_set_type v s := match s with mkSpec u c b _ f w p m wp pp us wu eu => mkSpec u c b v f w p m wp pp us wu eu end.
Definition fs_set_flags v s := match s with mkSpec u c b t _ w p m wp pp us wu eu => mkSpec u c b t v w p m wp pp us wu eu end.
Definition fs_add_flag v s := fs_set_flags (Z.lor (fs_flags s) v) s.
(** The field width, which the user gave *)
Definition fs_set_width v s := match s with mkSpec u c b t f _ p m wp pp us _ eu => mkSpec u c b t f v p m wp pp us true eu end.
Definition fs_set_precision v s := match s with mkSpec u c b t f w _ m wp pp us wu eu => mkSpec u c b t f w v m wp pp us wu eu end.
Definition fs_set_main v s := match s with mkSpec u c b t f w p _ wp pp us wu eu => mkSpec u c b t f w p v wp pp us wu eu end.
Definition fs_set_width_param v s := match s with mkSpec u c b t f w p m _ pp us wu eu => mkSpec u c b t f w p m v pp us wu eu end.
Definition fs_set_prec_param v s := match s with mkSpec u c b t f w p m wp _ us wu eu => mkSpec u c b t f w p m wp v us wu eu end.
Definition fs_set_usr us eu s := match s with mkSpec u c b t f w p m wp pp _ wu _ => mkSpec u c b t f w p m wp pp us wu eu end.
Definition has (spec : fmt_spec) (bit : Z) : bool := flag (fs_flags spec) bit.

(** ** Adding at the place that moves with what is added *)
(** A local array with these bytes *)
Definition local_array (bs : list Z) : M pointer := λ s,
  match s_heap s with mkHeap me r n m =>
    Some (Ptr n 0, on_heap (λ _, mkHeap (<[n := bs]> me) r (Pos.succ n) m) s) end.

Definition and_then (m k : M bool) : M bool := ok ← m; if (ok : bool) then k else mret false.
Definition only_if (c : bool) (m : M bool) : M bool := if c then m else mret true.

(** VSTR__FMT_ADD and VSTR__FMT_ADD_REP_CHR *)
Definition fmt_add (pos_diff : Z) (buf : pointer) (len : Z) : M bool :=
  b ← get_base; vstr_add_buf (u64 (b_len b - pos_diff)) buf len.
Definition fmt_add_rep_chr (pos_diff chr len : Z) : M bool :=
  b ← get_base; vstr_add_rep_chr (u64 (b_len b - pos_diff)) chr len.

(** The groups with the separators between them; what was added is deleted
    again if an addition fails. *)
Fixpoint grpbasenum_loop (l : Vstr_locale_num_base) (groups : list Z) (done : bool) (pos : Z) (buf : pointer) : M (bool * Z) :=
  match groups with
  | [] => mret (true, pos)
  | num :: groups =>
    ok ← (if done then vstr_add_buf pos (ln_thousands_sep l) (ln_thousands_sep_len l) else mret true);
    if negb ok then mret (false, pos)
    else
      let pos := if done then u64 (pos + ln_thousands_sep_len l) else pos in
      ok ← vstr_add_buf pos buf num;
      if negb ok then mret (false, pos)
      else grpbasenum_loop l groups true (u64 (pos + num)) (ptr_add buf num)
  end.
Definition vstr_sc_add_grpbasenum_buf (loc : Vstr_locale) (pos num_base : Z) (buf : pointer) (len : Z) : M bool :=
  srch ← of_option (vstr__loc_num_srch loc num_base);
  '(ok, pos') ← grpbasenum_loop srch (num_groups (Z.to_nat len) (ln_grouping srch) len) false pos buf;
  if (ok : bool) then mret true else vstr_del (pos + 1) (u64 (pos' - pos));; mret false.

(** ** Numbers *)
Definition chrs_lower : list Z := chrs ["0"; "1"; "2"; "3"; "4"; "5"; "6"; "7"; "8"; "9"; "a"; "b"; "c"; "d"; "e"; "f"; "g"; "h";
  "i"; "j"; "k"; "l"; "m"; "n"; "o"; "p"; "q"; "r"; "s"; "t"; "u"; "v"; "w"; "x"; "y"; "z"]%char.
Definition chrs_upper : list Z := chrs ["0"; "1"; "2"; "3"; "4"; "5"; "6"; "7"; "8"; "9"; "A"; "B"; "C"; "D"; "E"; "F"; "G"; "H";
  "I"; "J"; "K"; "L"; "M"; "N"; "O"; "P"; "Q"; "R"; "S"; "T"; "U"; "V"; "W"; "X"; "Y"; "Z"]%char.
Definition chrs_at (l : list Z) (n : Z) : Z := default 0 (l !! Z.to_nat n).

(** VSTR__ADD_FMT_NUM: the digits, backwards, before those in [buf].  A
    number of 64 bits has at most 64. *)
Fixpoint add_fmt_num (fuel : nat) (chrs_base : list Z) (num_base num : Z) (buf : list Z) : list Z :=
  match fuel with
  | O => buf
  | S fuel =>
    if decide (num = 0) then buf
    else add_fmt_num fuel chrs_base num_base (num / num_base) (chrs_at chrs_base (num mod num_base) :: buf)
  end.
Definition VSTR__ADD_FMT_NUM (chrs_base : list Z) (num_base num : Z) : list Z := add_fmt_num 64 chrs_base num_base num [].

(** The number in the member of the union that the type says; an address
    other than NULL has no number in the model. *)
Definition fmt_number_of (spec : fmt_spec) : option Z :=
  match fs_u spec with
  | U_num z => Some (z mod 2 ^ int_bits (fs_int_type spec))
  | U_ptr None => Some 0
  | _ => None
  end.

(** The sign and the field width that is left for it *)
Definition fmt_sign (flags field_width : Z) : Z * Z :=
  if negb (flag flags SIGN) then (0, field_width)
  else
    let '(sign, field_width) :=
      if flag flags NUM_IS_NEGATIVE then (ch "-", field_width)
      else if flag flags PLUS then (ch "+", field_width)
      else if flag flags SPACE then (ch " ", field_width)
      else (0, u32 (field_width + 1)) in
    (sign, if decide (field_width = 0) then 0 else field_width - 1).

(** The mark of the base: is it written, the field width and the precision *)
Definition fmt_special (flags num_base real_i field_width precision : Z) : bool * Z * Z :=
  if negb (flag flags SPECIAL) then (false, field_width, precision)
  else if bool_decide (num_base = 16) && negb (flag flags NUM_IS_ZERO) then (true, Z.max 0 (field_width - 2), precision)
  else if bool_decide (num_base = 8) && (flag flags NUM_IS_ZERO && bool_decide (precision = 0) || bool_decide (precision ≤ real_i))
       then (false, field_width, u32 (real_i + 1))
  else (false, field_width, precision).

(** The pieces of a number: spaces, the sign, the mark of the base, zeros to
    fill the field and zeros of the precision, the digits, spaces *)
Definition fmt_number_write (pos_diff : Z) (left zeropad : bool) (field_width sign : Z) (wr_hex_0x : bool) (x zeros : Z)
    (some : bool) (number : M bool) : M bool :=
  let before := negb zeropad && negb left && bool_decide (0 < field_width) in
  and_then (only_if before (fmt_add_rep_chr pos_diff (ch " ") field_width))
  (let field_width := if before then 0 else field_width in
   and_then (only_if (bool_decide (sign ≠ 0)) (fmt_add_rep_chr pos_diff sign 1))
  (and_then (only_if wr_hex_0x (fmt_add_rep_chr pos_diff (ch "0") 1))
  (and_then (only_if wr_hex_0x (fmt_add_rep_chr pos_diff x 1))
  (and_then (only_if (negb left && bool_decide (0 < field_width)) (fmt_add_rep_chr pos_diff (ch "0") field_width))
  (let field_width := if left then field_width else 0 in
   and_then (only_if (bool_decide (0 < zeros)) (fmt_add_rep_chr pos_diff (ch "0") zeros))
  (and_then (only_if some number)
   (only_if (bool_decide (0 < field_width)) (fmt_add_rep_chr pos_diff (ch " ") field_width)))))))).

Section number.
Context (loc : Vstr_locale).
Definition vstr__add_fmt_number (pos_diff : Z) (spec : fmt_spec) : M bool :=
  let flags := fs_flags spec in
  let precision := if flag flags PREC_USR then fs_precision spec else 1 in
  let field_width := if fs_field_width_usr spec then fs_field_width spec else 0 in
  let flags := if flag flags PREC_USR then flag_off flags ZEROPAD else flags in
  let chrs_base := if flag flags LARGE then chrs_upper else chrs_lower in
  let flags := if flag flags LEFT then flag_off flags ZEROPAD else flags in
  let '(sign, field_width) := fmt_sign flags field_width in
  l ← of_option (vstr__loc_num_srch loc (fs_num_base spec));
  let grp_num := default 0 (head (ln_grouping l)) in
  let flags := if decide (ln_thousands_sep_len l = 0 ∨ 127 ≤ grp_num ∨ grp_num ≤ 0)
               then flag_off flags THOUSAND_SEP else flags in
  num ← of_option (fmt_number_of spec);
  let digits := VSTR__ADD_FMT_NUM chrs_base (fs_num_base spec) num in
  let i := zlen digits in
  let real_i := if flag flags THOUSAND_SEP then vstr__add_fmt_grouping_num_sz l i else i in
  let '(wr_hex_0x, field_width, precision) := fmt_special flags (fs_num_base spec) real_i field_width precision in
  let max_p_i := Z.max real_i precision in
  let field_width := if decide (field_width < max_p_i) then 0 else field_width - max_p_i in
  fmt_number_write pos_diff (flag flags LEFT) (flag flags ZEROPAD) field_width sign wr_hex_0x (chrs_at chrs_base 33) (precision - real_i)
    (bool_decide (i ≠ 0))
    (buf ← local_array digits;
     if flag flags THOUSAND_SEP
     then b ← get_base; vstr_sc_add_grpbasenum_buf loc (u64 (b_len b - pos_diff)) (fs_num_base spec) buf i
     else fmt_add pos_diff buf i).

(** ** Characters and C strings *)
Definition mem_cstr (p : pointer) (max : option Z) : M Z :=
  h ← get_heap;
  of_option (blk ← h_mem h !! p_blk p;
    if decide (0 ≤ p_off p ≤ zlen blk) then
      let l := zdrop (p_off p) blk in
      let n := count_while (λ c, bool_decide (c ≠ 0)) l in
      match max with
      | Some m => if decide (n < zlen l ∨ m ≤ n) then Some (Z.min n m) else None
      | None => if decide (n < zlen l) then Some n else None
      end
    else None).

(** Something of [len] characters in a field: spaces before it or after it *)
Definition fmt_field (pos_diff : Z) (spec : fmt_spec) (field_width len : Z) (add : M bool) : M bool :=
  let wide := fs_field_width_usr spec && bool_decide (len < field_width) in
  let before := wide && negb (has spec LEFT) in
  and_then (only_if before (fmt_add_rep_chr pos_diff (ch " ") (field_width - len)))
  (and_then add
  (only_if (wide && negb before) (fmt_add_rep_chr pos_diff (ch " ") (field_width - len)))).

(** The field width without the character *)
Definition vstr__add_fmt_char (pos_diff : Z) (spec : fmt_spec) : M bool :=
  match fs_u spec with
  | U_num c =>
    let field_width := if decide (0 < fs_field_width spec) then fs_field_width spec - 1 else fs_field_width spec in
    fmt_field pos_diff spec field_width 0 (fmt_add_rep_chr pos_diff (c mod 2 ^ 8) 1)
  | _ => undef
  end.

Definition vstr__add_fmt_cstr (pos_diff : Z) (spec : fmt_spec) : M bool :=
  match fs_u spec with
  | U_ptr str =>
    '(str, len) ← match str with
      | None => mret (loc_null loc, if has spec PREC_USR && bool_decide (fs_precision spec < loc_null_len loc)
                                    then fs_precision spec else loc_null_len loc)
      | Some p => len ← mem_cstr p (if has spec PREC_USR then Some (fs_precision spec) else None); mret (p, len)
      end;
    let field_width := if has spec PREC_USR && fs_field_width_usr spec && bool_decide (fs_precision spec < fs_field_width spec)
                       then fs_precision spec else fs_field_width spec in
    fmt_field pos_diff spec field_width len (fmt_add pos_diff str len)
  | _ => undef
  end.
(** The build without wide characters *)
Definition vstr__add_fmt_wide_char (pos_diff : Z) (spec : fmt_spec) : M bool := mret false.
Definition vstr__add_fmt_wide_cstr (pos_diff : Z) (spec : fmt_spec) : M bool :=
  match fs_u spec with U_ptr None => vstr__add_fmt_cstr pos_diff spec | _ => mret false end.
End number.
