(* ===== verification/FmtUsr.v ===== *)
(** * The formats a user has registered with a configuration (src/vstr_fmt.c).

    While all names are in brackets they are kept in 37 lists by the character
    after the bracket, then in one list; a list is in the order of the lengths
    of the names.  [vstr__fmt_usr_match] finds the format whose name a text
    starts with. *)
From Stdlib Require Import ZArith Lia ZifyBool Ascii.
From stdpp Require Import base tactics list numbers option gmap.
From S2P Require Import Prelude State Wp Ref Cache Core Add Base Iter Spn Parse Fmt.

Record fmt_names := mkNames {
  fmt_usr_curly_braces : bool; fmt_usr_names : list usr_name_node;
  fmt_usr_name_hash : list (list usr_name_node); fmt_name_max : Z }.
Definition no_names : fmt_names := mkNames true [] (replicate 37 []) 0.
Definition fn_set_max v t := match t with mkNames c n h _ => mkNames c n h v end.
Definition name_len (n : usr_name_node) : Z := zlen (un_name n).

(** The list a name is in: digits, letters of either case, the rest *)
Definition vstr__fmt_beg (val : Z) : nat :=
  if decide (ch "0" ≤ val ≤ ch "9") then Z.to_nat (val - ch "0")
  else if decide (ch "A" ≤ val ≤ ch "Z") then Z.to_nat (10 + (val - ch "A"))
  else if decide (ch "a" ≤ val ≤ ch "z") then Z.to_nat (10 + (val - ch "a"))
  else 36%nat.
(** VSTR__FMT_ADD_Q *)
Definition fmt_add_q (name : list Z) (b1 b2 : Z) : bool :=
  let inner := ztake (zlen name - 2) (zdrop 1 name) in
  bool_decide (head name = Some b1) && bool_decide (last name = Some b2) && bool_decide (2 ≤ zlen name) &&
  bool_decide (b1 ∉ inner) && bool_decide (b2 ∉ inner).
Definition in_brackets (name : list Z) : bool :=
  fmt_add_q name (ch "{") (ch "}") || fmt_add_q name (ch "[") (ch "]") ||
  fmt_add_q name (ch "<") (ch ">") || fmt_add_q name (ch "(") (ch ")").
(** [name[1]], which is the end of the string after one character *)
Definition second (name : list Z) : Z := default 0 (name !! 1%nat).

Definition bucket (t : fmt_names) (k : nat) : list usr_name_node := default [] (fmt_usr_name_hash t !! k).
Definition set_bucket (k : nat) (l : list usr_name_node) (t : fmt_names) : fmt_names :=
  match t with mkNames c n h m => mkNames c n (<[k := l]> h) m end.
Definition set_names (l : list usr_name_node) (t : fmt_names) : fmt_names :=
  match t with mkNames c _ h m => mkNames c l h m end.

(** The list in which a name is, or is to be: none for a name without
    brackets while all have them *)
Definition usr_list (t : fmt_names) (name : list Z) : option (list usr_name_node) :=
  if fmt_usr_curly_braces t then
    if in_brackets name then Some (bucket t (vstr__fmt_beg (second name))) else None
  else Some (fmt_usr_names t).
Definition set_usr_list (name : list Z) (l : list usr_name_node) (t : fmt_names) : fmt_names :=
  if fmt_usr_curly_braces t then set_bucket (vstr__fmt_beg (second name)) l t else set_names l t.
Definition has_name (name : list Z) (n : usr_name_node) : bool := bool_decide (un_name n = name).
Definition vstr__fmt_usr_srch (t : fmt_names) (name : list Z) : option usr_name_node :=
  l ← usr_list t name; head (filter (λ n, has_name name n = true) l).
Definition vstr_fmt_srch (t : fmt_names) (name : list Z) : bool := bool_decide (is_Some (vstr__fmt_usr_srch t name)).

Fixpoint vstr__fmt_insert (node : usr_name_node) (scan : list usr_name_node) : list usr_name_node :=
  match scan with
  | [] => [node]
  | n :: rest => if decide (name_len node ≤ name_len n) then node :: scan else n :: vstr__fmt_insert node rest
  end.
Definition vstr__fmt_flatten_hash (t : fmt_names) : fmt_names :=
  mkNames (fmt_usr_curly_braces t) (foldl (λ l n, vstr__fmt_insert n l) (fmt_usr_names t) (concat (fmt_usr_name_hash t)))
    (replicate 37 []) (fmt_name_max t).

(** The memory is for the node and, again, for each of its types. *)
Definition vstr_fmt_add (t : fmt_names) (name : list Z) (func : nat) (types : list fmt_type) : M (bool * fmt_names) :=
  if decide (is_Some (vstr__fmt_usr_srch t name)) then mret (false, t)
  else
    ok ← alloc_ok;
    if negb ok then upd_conf (set_malloc_bad true);; mret (false, t)
    else
      let node := mkUsr name types func in
      let t := if fmt_usr_curly_braces t && negb (in_brackets name)
               then vstr__fmt_flatten_hash (mkNames false (fmt_usr_names t) (fmt_usr_name_hash t) (fmt_name_max t)) else t in
      ok ← alloc_all (length types);
      if negb ok then upd_conf (set_malloc_bad true);; mret (false, t)
      else
        let scan := default [] (usr_list t name) in
        let t := if decide (scan = [] ∨ fmt_name_max t ≠ 0 ∧ fmt_name_max t < name_len node)
                 then fn_set_max (name_len node) t else t in
        mret (true, set_usr_list name (vstr__fmt_insert node scan) t).

Fixpoint remove_name (name : list Z) (l : list usr_name_node) : list usr_name_node :=
  match l with [] => [] | n :: l => if has_name name n then l else n :: remove_name name l end.
Definition vstr_fmt_del (t : fmt_names) (name : list Z) : fmt_names :=
  let t := match vstr__fmt_usr_srch t name with
    | None => t
    | Some n =>
      let t' := set_usr_list name (remove_name name (default [] (usr_list t name))) t in
      if decide (name_len n = fmt_name_max t') then fn_set_max 0 t' else t'
    end in
  if negb (fmt_usr_curly_braces t) && bool_decide (fmt_usr_names t = [])
  then mkNames true [] (fmt_usr_name_hash t) (fmt_name_max t) else t.

(** ** Which format a text starts with *)
Definition closing (c : Z) : option Z :=
  if decide (c = ch "{") then Some (ch "}") else if decide (c = ch "[") then Some (ch "]")
  else if decide (c = ch "<") then Some (ch ">") else if decide (c = ch "(") then Some (ch ")") else None.
(** The length up to the bracket that closes *)
Definition bracket_len (fmt : list Z) : option Z :=
  c ← head fmt; b ← closing c;
  let n := count_while (λ x, bool_decide (x ≠ b)) fmt in
  if decide (n < zlen fmt) then Some (n + 1) else None.
Fixpoint match_bracket (len : Z) (fmt : list Z) (scan : list usr_name_node) : option usr_name_node :=
  match scan with
  | [] => None
  | n :: rest =>
    if decide (name_len n = len ∧ un_name n = ztake len fmt) then Some n
    else if decide (len < name_len n) then None else match_bracket len fmt rest
  end.
Fixpoint match_prefix (max_len : Z) (fmt : list Z) (scan : list usr_name_node) : option usr_name_node :=
  match scan with
  | [] => None
  | n :: rest =>
    if decide (max_len < name_len n) then None
    else if decide (ztake (name_len n) fmt = un_name n) then Some n else match_prefix max_len fmt rest
  end.
(** The length of the longest name is found when it is not known. *)
Definition vstr__fmt_usr_match (t : fmt_names) (fmt : list Z) : option usr_name_node * fmt_names :=
  if fmt_usr_curly_braces t then
    (len ← bracket_len fmt; match_bracket len fmt (bucket t (vstr__fmt_beg (second fmt))), t)
  else
    let t := if decide (fmt_name_max t = 0) then fn_set_max (foldl Z.max 0 (name_len <$> fmt_usr_names t)) t else t in
    (match_prefix (Z.min (zlen fmt) (fmt_name_max t)) fmt (fmt_usr_names t), t).
