(* ===== verification/FmtParse.v ===== *)
(** * Formatted output: reading a format, fetching the arguments and writing
    (vstr__add_vfmt and what it calls, src/vstr_add_fmt.c).

    A format is a C string in memory, since text without conversions is added
    from where it is.  The specifications of a configuration that are not in
    use are counted, as each is initialised when it is taken.  A variable
    argument list is a list of values of the promoted types. *)
From Stdlib Require Import ZArith Lia ZifyBool Ascii.
From stdpp Require Import base tactics list numbers option gmap.
From S2P Require Import Prelude State Wp Ref Cache Core Add Del Base Iter Spn Parse Fmt FmtUsr.

Definition is_digit (c : Z) : bool := bool_decide (ch "0" ≤ c ≤ ch "9").
Definition next_chr (l : list Z) : Z := default 0 (head l).

(** VSTR__ADD_FMT_STRTOL at a digit: the digits are taken, as a long that is
    converted to an int. *)
Definition fmt_strtol (l : list Z) : Z * list Z :=
  let n := count_while is_digit l in
  let v := foldl (λ v c, v * 10 + (c - ch "0")) 0 (ztake n l) in
  (swrap 32 (Z.min v (2 ^ 63 - 1)), zdrop n l).

(** What is known while a specification is read: the text left, the
    specification, the number of parameters and if they are numbered *)
Record spec_state := mkSS { ss_fmt : list Z; ss_spec : fmt_spec; ss_params : Z; ss_dollars : bool }.

Definition fmt_flag (c : Z) : option Z :=
  if decide (c = ch "-") then Some LEFT else if decide (c = ch "+") then Some PLUS
  else if decide (c = ch " ") then Some SPACE else if decide (c = ch "#") then Some SPECIAL
  else if decide (c = ch "0") then Some ZEROPAD else if decide (c = ch "'") then Some THOUSAND_SEP
  else if decide (c = ch "I") then Some ALT_DIGITS else None.
Fixpoint fmt_flags (l : list Z) (spec : fmt_spec) : list Z * fmt_spec :=
  match l with
  | c :: rest => match fmt_flag c with Some f => fmt_flags rest (fs_add_flag f spec) | None => (l, spec) end
  | [] => ([], spec)
  end.
(** A '*' was read: the next parameter, or the one whose number and a dollar follow *)
Definition fmt_star (l : list Z) (params : Z) : list Z * Z * Z :=
  let '(n, rest) := if is_digit (next_chr l) then fmt_strtol l else (0, l) in
  if decide (next_chr rest = ch "$") then (drop 1 rest, u32 n, params) else (l, u32 (params + 1), u32 (params + 1)).

Definition fmt_width (s : spec_state) : spec_state :=
  match s with mkSS l spec params dollars =>
    if is_digit (next_chr l) then
      let '(n, l) := fmt_strtol l in mkSS l (fs_set_width (u32 n) spec) params dollars
    else if decide (next_chr l = ch "*") then
      let '(l, p, params) := fmt_star (drop 1 l) params in
      mkSS l (fs_set_width_param p (fs_set_width (fs_field_width spec) spec)) params dollars
    else s
  end.
Definition fmt_precision (s : spec_state) : spec_state :=
  match s with mkSS l spec params dollars =>
    if decide (next_chr l = ch ".") then
      let l := drop 1 l in
      let spec := fs_add_flag PREC_USR spec in
      if is_digit (next_chr l) then
        let '(n, l) := fmt_strtol l in mkSS l (fs_set_precision (u32 n) spec) params dollars
      else if decide (next_chr l = ch "*") then
        let '(l, p, params) := fmt_star (drop 1 l) params in mkSS l (fs_set_prec_param p spec) params dollars
      else mkSS l spec params dollars
    else s
  end.
(** A number that does not start with 0 and that no dollar follows is the
    field width at once. *)
Definition vstr__add_fmt_spec (s : spec_state) : spec_state :=
  match s with mkSS l spec params dollars =>
    let c := next_chr l in
    let '(n, rest) := fmt_strtol l in
    if is_digit c && bool_decide (c ≠ ch "0") && bool_decide (next_chr rest ≠ ch "$")
    then fmt_precision (mkSS rest (fs_set_width (u32 n) spec) params dollars)
    else
      let s := if is_digit c && bool_decide (c ≠ ch "0")
               then mkSS (drop 1 rest) (fs_set_main (u32 n) spec) params true else s in
      let '(l, spec) := fmt_flags (ss_fmt s) (ss_spec s) in
      fmt_precision (fmt_width (mkSS l spec (ss_params s) (ss_dollars s)))
  end.

(** The width of the type *)
Definition fmt_int_type (l : list Z) : int_type * list Z :=
  let c := next_chr l in let r := drop 1 l in
  if decide (c = ch "h") then if decide (next_chr r = ch "h") then (FMT_UCHAR, drop 1 r) else (FMT_USHORT, r)
  else if decide (c = ch "l") then if decide (next_chr r = ch "l") then (FMT_ULONG_LONG, drop 1 r) else (FMT_ULONG, r)
  else if decide (c = ch "L") then (FMT_ULONG_LONG, r)
  else if decide (c = ch "z") then (FMT_SIZE_T, r)
  else if decide (c = ch "t") then (FMT_PTRDIFF_T, r)
  else if decide (c = ch "j") then (FMT_UINTMAX_T, r)
  else (FMT_UINT, l).
Definition fmt_dbl_chrs : list Z := chrs ["a"; "e"; "f"; "g"; "A"; "E"; "F"; "G"]%char.
(** The conversion; [None] is a character that is none *)
Definition fmt_conversion (c : Z) (spec : fmt_spec) : option fmt_spec :=
  let spec := fs_set_code c spec in
  let long := bool_decide (fs_int_type spec = FMT_ULONG) in
  if decide (c = ch "c") then Some (if long then fs_set_code (ch "C") spec else spec)
  else if decide (c = ch "C" ∨ c = ch "S" ∨ c = ch "u" ∨ c = ch "n") then Some spec
  else if decide (c = ch "m") then Some (fs_set_main 0 spec)
  else if decide (c = ch "s") then Some (if long then fs_set_code (ch "S") spec else spec)
  else if decide (c = ch "d" ∨ c = ch "i") then Some (fs_add_flag SIGN spec)
  else if decide (c = ch "X") then Some (fs_set_base 16 (fs_add_flag LARGE spec))
  else if decide (c = ch "x") then Some (fs_set_base 16 spec)
  else if decide (c = ch "o") then Some (fs_set_base 8 spec)
  else if decide (c = ch "p") then Some (fs_add_flag SPECIAL (fs_set_type FMT_PTR_VOID (fs_set_base 16 spec)))
  else if decide (c ∈ fmt_dbl_chrs) then
    Some (if bool_decide (c = ch "A" ∨ c = ch "E" ∨ c = ch "F" ∨ c = ch "G") then fs_add_flag LARGE spec else spec)
  else None.

(** ** The specifications of a format *)
Record parse_state := mkPS {
  ps_fmt : list Z; ps_off : Z; ps_specs : list fmt_spec; ps_make : nat; ps_params : Z; ps_dollars : bool; ps_names : fmt_names }.
(** Go on with [l], a rest of the text *)
Definition ps_at (l : list Z) (s : parse_state) : parse_state :=
  match s with mkPS f off sp mk pa d n => mkPS l (off + (zlen f - zlen l)) sp mk pa d n end.
Definition ps_set_make v (s : parse_state) : parse_state :=
  match s with mkPS f off sp _ pa d n => mkPS f off sp v pa d n end.
Definition ps_set_params v d (s : parse_state) : parse_state :=
  match s with mkPS f off sp mk _ _ n => mkPS f off sp mk v d n end.
Definition ps_set_names v (s : parse_state) : parse_state :=
  match s with mkPS f off sp mk pa d _ => mkPS f off sp mk pa d v end.
(** vstr__fmt_mv_spec *)
Definition vstr__fmt_mv_spec (spec : fmt_spec) (main_param : bool) (s : parse_state) : parse_state :=
  match s with mkPS f off sp mk pa d n =>
    if main_param && bool_decide (fs_main_param spec = 0)
    then mkPS f off (sp ++ [fs_set_main (u32 (pa + 1)) spec]) (pred mk) (u32 (pa + 1)) d n
    else mkPS f off (sp ++ [spec]) (pred mk) pa d n
  end.
(** A specification to use, allocated if there is none *)
Definition vstr__fmt_add_spec (s : parse_state) : M (bool * parse_state) :=
  if decide (ps_make s = 0%nat) then
    ok ← alloc_ok; mret (ok, if (ok : bool) then ps_set_make 1 s else s)
  else mret (true, s).

(** How a type of a format of the user is fetched: the conversion, the type
    of integer, whether it is signed, whether there is an argument *)
Definition usr_type (t : fmt_type) : Z * int_type * bool * bool :=
  match t with
  | T_INT => (ch "d", FMT_UINT, true, true) | T_UINT => (ch "u", FMT_UINT, false, true)
  | T_LONG => (ch "d", FMT_ULONG, true, true) | T_ULONG => (ch "u", FMT_ULONG, false, true)
  | T_LONG_LONG => (ch "d", FMT_ULONG_LONG, true, true) | T_ULONG_LONG => (ch "u", FMT_ULONG_LONG, false, true)
  | T_SSIZE_T => (ch "d", FMT_SIZE_T, true, true) | T_SIZE_T => (ch "u", FMT_SIZE_T, false, true)
  | T_PTRDIFF_T => (ch "d", FMT_PTRDIFF_T, true, true)
  | T_INTMAX_T => (ch "d", FMT_UINTMAX_T, true, true) | T_UINTMAX_T => (ch "u", FMT_UINTMAX_T, false, true)
  | T_DOUBLE => (ch "f", FMT_UINT, false, true) | T_DOUBLE_LONG => (ch "f", FMT_ULONG_LONG, false, true)
  | T_PTR_VOID => (ch "p", FMT_UINT, false, true) | T_PTR_CHAR => (ch "s", FMT_UINT, false, true)
  | T_PTR_WCHAR_T => (ch "S", FMT_UINT, false, true) | T_ERRNO => (0, FMT_UINT, false, false)
  | T_PTR_SIGNED_CHAR => (ch "n", FMT_UCHAR, false, true) | T_PTR_SHORT => (ch "n", FMT_USHORT, false, true)
  | T_PTR_INT => (ch "n", FMT_UINT, false, true) | T_PTR_LONG => (ch "n", FMT_ULONG, false, true)
  | T_PTR_LONG_LONG => (ch "n", FMT_ULONG_LONG, false, true) | T_PTR_SSIZE_T => (ch "n", FMT_SIZE_T, false, true)
  | T_PTR_PTRDIFF_T => (ch "n", FMT_PTRDIFF_T, false, true) | T_PTR_INTMAX_T => (ch "n", FMT_UINTMAX_T, false, true)
  end.
Definition usr_type_spec (t : fmt_type) (spec : fmt_spec) : fmt_spec * bool :=
  let '(code, ty, sign, arg) := usr_type t in
  let spec := fs_set_code code spec in
  let spec := if decide (ty = FMT_UINT) then spec else fs_set_type ty spec in
  let spec := if sign then fs_add_flag SIGN spec else spec in
  ((if arg then spec else fs_set_main 0 spec), arg).
(** A specification for each type; the first has the flags *)
Fixpoint usr_specs (types : list fmt_type) (spec : fmt_spec) (i18n : Z) (s : parse_state) : M (bool * parse_state) :=
  match types with
  | [] => mret (true, s)
  | t :: types =>
    let '(spec, arg) := usr_type_spec t spec in
    let next := bool_decide (i18n ≠ 0) && arg in
    let spec := if next then fs_set_main i18n spec else spec in
    let i18n := if next then u32 (i18n + 1) else i18n in
    let s := vstr__fmt_mv_spec spec arg s in
    match types with
    | [] => mret (true, s)
    | _ =>
      '(ok, s) ← vstr__fmt_add_spec s;
      if negb ok then mret (false, s)
      else usr_specs types (fs_set_usr None true vstr__fmt_init_spec) i18n s
    end
  end.
(** The text after the name, [None] when memory runs out *)
Definition vstr__add_fmt_usr_esc (spec : fmt_spec) (s : parse_state) : M (option (list Z) * parse_state) :=
  let '(node, names) := vstr__fmt_usr_match (ps_names s) (ps_fmt s) in
  let s := ps_set_names names s in
  match node with
  | None => mret (Some (ps_fmt s), s)
  | Some n =>
    let spec' := fs_set_usr (Some n) true spec in
    match un_types n with
    | [] => mret (Some (zdrop (name_len n) (ps_fmt s)), vstr__fmt_mv_spec (fs_set_main 0 (fs_set_code 0 spec')) false s)
    | types =>
      '(ok, s) ← usr_specs types spec' (fs_main_param spec) s;
      mret (if (ok : bool) then Some (zdrop (name_len n) (ps_fmt s)) else None, s)
    end
  end.

(** Text up to the next escape: a C string whose length is the precision *)
Definition fmt_text (fmt_at : pointer) (esc : Z) (s : parse_state) : parse_state :=
  let n := count_while (λ c, bool_decide (c ≠ ch "%" ∧ (esc = 0 ∨ c ≠ esc))) (ps_fmt s) in
  let spec := fs_set_u (U_ptr (Some (ptr_add fmt_at (ps_off s)))) (fs_set_code (ch "s") vstr__fmt_init_spec) in
  let spec := if decide (n < zlen (ps_fmt s)) then fs_add_flag PREC_USR (fs_set_precision (u32 n) spec) else spec in
  ps_at (zdrop n (ps_fmt s)) (vstr__fmt_mv_spec spec false s).
(** A conversion of the library; the format ends at one that is not known. *)
Definition fmt_sys_escape (spec : fmt_spec) (s : parse_state) : parse_state :=
  let '(ty, l) := fmt_int_type (ps_fmt s) in
  match fmt_conversion (next_chr l) (if decide (ty = FMT_UINT) then spec else fs_set_type ty spec) with
  | None => ps_at [] s
  | Some spec => ps_at (drop 1 l) (vstr__fmt_mv_spec spec true s)
  end.

Definition fmt_step (fmt_at : pointer) (esc c : Z) (s : parse_state) : M (bool * parse_state) :=
  '(ok, s) ← vstr__fmt_add_spec s;
  if negb ok then mret (false, s)
  else if decide (c ≠ ch "%" ∧ (esc = 0 ∨ c ≠ esc)) then mret (true, fmt_text fmt_at esc s)
  else if decide (next_chr (drop 1 (ps_fmt s)) = c) then
    mret (true, ps_at (drop 2 (ps_fmt s))
      (vstr__fmt_mv_spec (fs_set_u (U_num c) (fs_set_code (ch "c") vstr__fmt_init_spec)) false s))
  else
    let r := vstr__add_fmt_spec (mkSS (drop 1 (ps_fmt s)) vstr__fmt_init_spec (ps_params s) (ps_dollars s)) in
    let s := ps_set_params (ss_params r) (ss_dollars r) (ps_at (ss_fmt r) s) in
    if decide (esc ≠ 0 ∧ c = esc) then
      '(l, s) ← vstr__add_fmt_usr_esc (ss_spec r) s;
      match l with
      | None => mret (false, s)
      | Some l =>
        if decide (zlen l = zlen (ps_fmt s)) then
          mret (true, if decide (esc = ch "%") then fmt_sys_escape (ss_spec r) s else ps_at [] s)
        else mret (true, ps_at l s)
      end
    else mret (true, fmt_sys_escape (ss_spec r) s).
(** Every step takes a character or more. *)
Fixpoint fmt_specs (fuel : nat) (fmt_at : pointer) (esc : Z) (s : parse_state) : M (bool * parse_state) :=
  match ps_fmt s with
  | [] => mret (true, s)
  | c :: _ =>
    match fuel with
    | O => undef
    | S fuel =>
      '(ok, s) ← fmt_step fmt_at esc c s;
      if negb ok then mret (false, s) else fmt_specs fuel fmt_at esc s
    end
  end.

(** ** The arguments *)
Inductive va_arg := V_num (bits z : Z) | V_ptr (p : option pointer) | V_dbl (long : bool) (bits : Z).

(** [VSTR__FMT_ARG_NUM]: the value in the union and the flags *)
Definition fmt_arg_num (ty : int_type) (signed : bool) (z : Z) : Z * Z :=
  let w := int_bits ty in
  let tmp := swrap w z in
  let '(u, neg) := if signed && bool_decide (tmp < 0) then (uwrap w (- tmp), NUM_IS_NEGATIVE) else (uwrap w z, 0) in
  (u, Z.lor neg (if decide (u = 0) then NUM_IS_ZERO else 0)).
Definition fmt_int_chrs : list Z := chrs ["d"; "i"; "u"; "X"; "x"; "o"]%char.
(** The value of an argument of a conversion, and the flags it sets *)
Definition fmt_fetch (spec : fmt_spec) (args : list va_arg) : option (fmt_val * Z * list va_arg) :=
  let c := fs_code spec in
  if decide (c = ch "m") then Some (U_ptr None, 0, args)
  else match args with
  | [] => None
  | a :: args =>
    if decide (c = ch "c" ∨ c = ch "C") then
      match a with V_num 32 z => Some (U_num (uwrap (if decide (c = ch "c") then 8 else 32) z), 0, args) | _ => None end
    else if decide (c ∈ fmt_int_chrs) then
      match a with
      | V_num bits z =>
        if decide (bits = Z.max 32 (int_bits (fs_int_type spec))) then
          let '(u, f) := fmt_arg_num (fs_int_type spec) (has spec SIGN || bool_decide (fs_int_type spec = FMT_PTRDIFF_T)) z in
          Some (U_num u, f, args)
        else None
      | _ => None
      end
    else if decide (c = ch "s" ∨ c = ch "S" ∨ c = ch "p" ∨ c = ch "n") then
      match a with V_ptr p => Some (U_ptr p, 0, args) | _ => None end
    else match a with
      | V_dbl long bits =>
        if decide (long = bool_decide (fs_int_type spec = FMT_ULONG_LONG)) then Some (U_dbl bits, 0, args) else None
      | _ => None
      end
  end.
(** An int for a field width or a precision: the argument fetched already, or the next one *)
Definition fmt_fetch_int (u : option fmt_val) (args : list va_arg) : option (Z * fmt_val * list va_arg) :=
  match u with
  | Some (U_num z) => Some (swrap 32 z, U_num z, args)
  | Some _ => None
  | None => match args with V_num 32 z :: args => Some (swrap 32 z, U_num (u32 z), args) | _ => None end
  end.

(** What one specification takes of the parameter [count]: the specification,
    the value of the parameter if it was fetched, the arguments left and
    whether the others are not looked at *)
Definition fill_width (count : Z) (spec : fmt_spec) (u : option fmt_val) (args : list va_arg)
    : option (fmt_spec * option fmt_val * list va_arg * bool) :=
  if decide (count = fs_field_width_param spec) then
    '(n, v, args) ← fmt_fetch_int u args;
    let spec := if decide (n < 0) then fs_set_width (u32 (- n)) (fs_add_flag LEFT spec) else fs_set_width n spec in
    Some (fs_set_width_param 0 spec, Some v, args, true)
  else Some (spec, u, args, false).
Definition fill_precision (count : Z) (spec : fmt_spec) (u : option fmt_val) (args : list va_arg)
    : option (fmt_spec * option fmt_val * list va_arg * bool) :=
  if decide (count = fs_precision_param spec) then
    '(n, v, args) ← fmt_fetch_int u args;
    let spec := if decide (n < 0) then fs_set_flags (flag_off (fs_flags spec) PREC_USR) spec else fs_set_precision n spec in
    Some (fs_set_prec_param 0 spec, Some v, args, true)
  else Some (spec, u, args, false).
(** A parameter that was fetched for another specification sets no flags. *)
Definition fill_main (count : Z) (spec : fmt_spec) (u : option fmt_val) (args : list va_arg)
    : option (fmt_spec * option fmt_val * list va_arg * bool) :=
  if decide (count = fs_main_param spec) then
    match u with
    | Some v => Some (fs_set_main 0 (fs_set_u v spec), u, args, true)
    | None =>
      '(v, f, args) ← fmt_fetch spec args;
      let spec := if decide (fs_int_type spec = FMT_PTRDIFF_T ∧ fs_code spec ∈ fmt_int_chrs) then fs_set_type FMT_UINTMAX_T spec else spec in
      Some (fs_set_main 0 (fs_set_u v (fs_add_flag f spec)), Some v, args, true)
    end
  else Some (spec, u, args, false).
Fixpoint fill_pass (count : Z) (dollars : bool) (specs : list fmt_spec) (u : option fmt_val) (args : list va_arg)
    : option (list fmt_spec * option fmt_val * list va_arg) :=
  match specs with
  | [] => Some ([], u, args)
  | spec :: rest =>
    '(spec, u, args, hit) ← fill_width count spec u args;
    if hit && negb dollars then Some (spec :: rest, u, args)
    else
      '(spec, u, args, hit) ← fill_precision count spec u args;
      if hit && negb dollars then Some (spec :: rest, u, args)
      else
        '(spec, u, args, hit) ← fill_main count spec u args;
        if hit && negb dollars then Some (spec :: rest, u, args)
        else '(rest, u, args) ← fill_pass count dollars rest u args; Some (spec :: rest, u, args)
  end.
Definition wants (spec : fmt_spec) : bool :=
  bool_decide (fs_field_width_param spec ≠ 0 ∨ fs_precision_param spec ≠ 0 ∨ fs_main_param spec ≠ 0).
(** [Some None] is FALSE: a parameter number is missing.  Every pass but the
    last takes a parameter from a specification. *)
Fixpoint fillin_loop (fuel : nat) (count : Z) (dollars : bool) (need_to_fin_now : bool) (specs : list fmt_spec) (args : list va_arg)
    : option (option (list fmt_spec)) :=
  if negb (existsb wants specs) then Some (Some specs)
  else if need_to_fin_now then Some None
  else match fuel with
  | O => None
  | S fuel =>
    '(specs, u, args) ← fill_pass count dollars specs None args;
    fillin_loop fuel (count + 1) dollars (bool_decide (u = None)) specs args
  end.
Definition vstr__fmt_fillin_spec (dollars : bool) (specs : list fmt_spec) (args : list va_arg) : option (option (list fmt_spec)) :=
  fillin_loop (S (3 * length specs)) 1 dollars false specs args.

(** ** Writing *)
(** What a function of the user is given *)
Record Vstr_fmt_spec := mkUsrSpec {
  us_orig_len : Z; us_name : list Z; us_fmt_precision : bool; us_obj_precision : Z; us_fmt_field_width : bool; us_obj_field_width : Z;
  us_fmt_minus : bool; us_fmt_plus : bool; us_fmt_space : bool; us_fmt_hash : bool; us_fmt_zero : bool; us_fmt_quote : bool;
  us_fmt_I : bool; us_data : list fmt_val }.
Definition usr_spec_of (orig_len : Z) (spec : fmt_spec) (n : usr_name_node) (vals : list fmt_val) : Vstr_fmt_spec :=
  mkUsrSpec orig_len (un_name n) (has spec PREC_USR) (if has spec PREC_USR then fs_precision spec else 0)
    (fs_field_width_usr spec) (if fs_field_width_usr spec then fs_field_width spec else 0)
    (has spec LEFT) (has spec PLUS) (has spec SPACE) (has spec SPECIAL) (has spec ZEROPAD) (has spec THOUSAND_SEP)
    (has spec ALT_DIGITS) vals.
(** An integer in memory, the low byte first *)
Definition le_bytes (n z : Z) : list Z := (λ i, Z.shiftr z (8 * Z.of_nat i) mod 256) <$> seq 0 (Z.to_nat n).

Section write.
Context (loc : Vstr_locale) (vstr__add_fmt_dbl : Z → fmt_spec → M bool).
Context (usr_func : nat → Z → Vstr_fmt_spec → M bool) (strerror : list Z).

(** A function of the user gets a ptrdiff_t with its sign, and the union itself otherwise. *)
Definition usr_val (t : fmt_type) (spec : fmt_spec) : fmt_val :=
  match t, fs_u spec with
  | T_PTRDIFF_T, U_num z => U_num (if has spec NUM_IS_NEGATIVE then swrap 64 (- z) else z)
  | _, u => u
  end.
Definition vstr__add_fmt_usr_write_spec (orig_len pos_diff : Z) (spec : fmt_spec) (rest : list fmt_spec) : M (option (list fmt_spec)) :=
  match fs_usr_spec spec with
  | None => undef
  | Some n =>
    let sz := zlen (un_types n) + 1 in
    ok ← (if decide (sz ≤ 8) then mret true else alloc_ok);
    if negb ok then mret None
    else
      let k := length (un_types n) in
      let vals := zip_with usr_val (un_types n) (spec :: rest) in
      b ← get_base;
      ok ← usr_func (un_func n) (u64 (b_len b - pos_diff)) (usr_spec_of orig_len spec n vals);
      mret (if (ok : bool) then Some (drop (pred k) rest) else None)
  end.

(** One conversion of the library *)
Definition fmt_write_one (pos_diff orig_len : Z) (spec : fmt_spec) : M bool :=
  let c := fs_code spec in
  if decide (c = ch "c") then vstr__add_fmt_char pos_diff spec
  else if decide (c = ch "C") then vstr__add_fmt_wide_char pos_diff spec
  else if decide (c = ch "m") then
    buf ← local_array (strerror ++ [0]); vstr__add_fmt_cstr loc pos_diff (fs_set_u (U_ptr (Some buf)) spec)
  else if decide (c = ch "s") then vstr__add_fmt_cstr loc pos_diff spec
  else if decide (c = ch "S") then vstr__add_fmt_wide_cstr loc pos_diff spec
  else if decide (c = ch "p" ∨ c ∈ fmt_int_chrs) then vstr__add_fmt_number loc pos_diff spec
  else if decide (c = ch "n") then
    b ← get_base;
    match fs_u spec with
    | U_ptr (Some p) => mem_store p (le_bytes (int_bits (fs_int_type spec) / 8) (b_len b - orig_len));; mret true
    | _ => undef
    end
  else vstr__add_fmt_dbl pos_diff spec.
Fixpoint vstr__fmt_write_spec (fuel : nat) (pos_diff orig_len : Z) (specs : list fmt_spec) : M bool :=
  match fuel, specs with
  | _, [] => mret true
  | O, _ => undef
  | S fuel, spec :: rest =>
    if fs_escape_usr spec then
      r ← vstr__add_fmt_usr_write_spec orig_len pos_diff spec rest;
      match r with None => mret false | Some rest => vstr__fmt_write_spec fuel pos_diff orig_len rest end
    else and_then (fmt_write_one pos_diff orig_len spec) (vstr__fmt_write_spec fuel pos_diff orig_len rest)
  end.

(** What a configuration keeps for formats: the specifications to use, the
    formats of the user and their escape, 0 when there is none *)
Record fmt_conf := mkFC { fc_spec_make : nat; fc_usr_escape : Z; fc_names : fmt_names }.

Definition fmt_restore_bad (orig : bool) : M () := upd_conf (λ c, set_malloc_bad (malloc_bad c || orig) c).
(** The length added, 0 if that fails: then what was added is deleted. *)
Definition vstr__add_vfmt (fc : fmt_conf) (pos : Z) (userfmt : bool) (fmt_at : pointer) (args : list va_arg) : M (Z * fmt_conf) :=
  b ← get_base; c ← get_conf;
  if decide (b_len b < pos) then mret (0, fc)
  else
    let orig_len := b_len b in
    let orig_malloc_bad := malloc_bad c in
    upd_conf (set_malloc_bad false);;
    let pos_diff := orig_len - pos in
    let esc := if userfmt then fc_usr_escape fc else 0 in
    n ← mem_cstr fmt_at None; fmt ← mem_load fmt_at n;
    '(ok, s) ← fmt_specs (length fmt) fmt_at esc (mkPS fmt 0 [] (fc_spec_make fc) 0 false (fc_names fc));
    let fc := mkFC (ps_make s + length (ps_specs s)) (fc_usr_escape fc) (ps_names s) in
    if negb ok then fmt_restore_bad orig_malloc_bad;; mret (0, fc)
    else
      specs ← of_option (vstr__fmt_fillin_spec (ps_dollars s) (ps_specs s) args);
      match specs with
      | None => fmt_restore_bad orig_malloc_bad;; mret (0, fc)
      | Some specs =>
        ok ← vstr__fmt_write_spec (length specs) pos_diff orig_len specs;
        b ← get_base;
        if (ok : bool) then
          upd_conf (set_malloc_bad orig_malloc_bad);; mret (u64 (b_len b - orig_len), fc)
        else
          (if decide (b_len b - orig_len ≠ 0) then vstr_del (pos + 1) (u64 (b_len b - orig_len));; mret tt else mret tt);;
          fmt_restore_bad orig_malloc_bad;; mret (0, fc)
      end.
Definition vstr_add_vfmt (fc : fmt_conf) (pos : Z) (fmt : pointer) (args : list va_arg) : M (Z * fmt_conf) :=
  vstr__add_vfmt fc pos true fmt args.
Definition vstr_add_vsysfmt (fc : fmt_conf) (pos : Z) (fmt : pointer) (args : list va_arg) : M (Z * fmt_conf) :=
  vstr__add_vfmt fc pos false fmt args.
Definition vstr_add_fmt := vstr_add_vfmt.
Definition vstr_add_sysfmt := vstr_add_vsysfmt.
End write.
