(* ===== verification/Puts.v ===== *)
(** * Sequences of additions at a place that moves with what is added: the
    pieces of formatted output, and what a failure in the middle leaves. *)
From Stdlib Require Import ZArith Lia ZifyBool.
From stdpp Require Import base tactics list numbers option gmap.
From S2P Require Import Prelude State Wp Ref Cache Core Base Add Del Inv PosLemmas SpareLemmas SplitLemmas CacheLemmas AddLemmas StringLemmas AddSpec AddOps AddTheorems DelTheorems DelAtomic SubSpec Export ExportTheorems AddVstrSpec Fmt.

(** An addition of nothing at a position of the string *)
Lemma add_inline_nothing write slow pos s : pos ≤ b_len (s_base s) →
  vstr__add_inline write slow pos 0 s = Some (true, s).
Proof.
  intros Hp. unfold vstr__add_inline, get_base, get_conf, gets, mbind, M_bind, mret, M_ret. rewrite decide_False by lia. by rewrite decide_True.
Qed.

Section puts.
Context {OT : Others}.
(** The string before, the position and how much may be used *)
Context (s0 : St) (pos K : Z).

(** [d] was put after [pos] characters, with [k] nodes and references. *)
Record put (d : list byte_or_non) (k : Z) (s : St) : Prop := {
  pu_wf : wf s;
  pu_frame : mem_frame s0 s;
  pu_content : st_content s = ztake pos (st_content s0) ++ d ++ zdrop pos (st_content s0);
  pu_uses : add_uses k s0 true s;
  pu_boundary : 0 < zlen d → boundary s (pos + zlen d);
  pu_le : zlen d ≤ k }.
(** A part was put there before the memory ran out. *)
Record unput (s : St) : Prop := {
  un_wf : wf s;
  un_frame : mem_frame s0 s;
  un_bad : malloc_bad (s_conf s) = true;
  un_uses : add_uses K s0 false s;
  un_part : ∃ d, st_content s = ztake pos (st_content s0) ++ d ++ zdrop pos (st_content s0) ∧ zlen d ≤ K ∧
    (0 < zlen d → boundary s (pos + zlen d)) }.
Definition puts (d : list byte_or_non) (n : Z) (m : M bool) : Prop := 0 ≤ n ∧ ∀ d0 k s,
  put d0 k s → k + n ≤ K → wp m s (λ ok s', if ok then put (d0 ++ d) (k + n) s' else unput s').

Context (Hw0 : wf s0) (Hpos : 0 ≤ pos ≤ b_len (s_base s0)) (HK : b_len (s_base s0) + K ≤ VSTR_MAX_NODE_ALL) (Hroom : room (K + 1) (K + 1) s0).

Lemma put_refl : put [] 0 s0.
Proof.
  split; [done|done| |by apply add_uses_refl|cbn; lia|done]. by rewrite app_nil_l, ztake_zdrop.
Qed.
Lemma put_len d k s : put d k s → b_len (s_base s) = b_len (s_base s0) + zlen d.
Proof.
  intros HP. rewrite <- (wf_content_length _ (pu_wf _ _ _ HP)), <- (wf_content_length _ Hw0), (pu_content _ _ _ HP).
  rewrite !length_app, !Nat2Z.inj_add, length_ztake, length_zdrop. pose proof (wf_content_length _ Hw0). lia.
Qed.
Lemma put_place d k s : put d k s → k ≤ K →
  u64 (b_len (s_base s) - (b_len (s_base s0) - pos)) = pos + zlen d.
Proof.
  intros HP Hk. rewrite (put_len _ _ _ HP). pose proof (pu_le _ _ _ HP). unfold VSTR_MAX_NODE_ALL in HK.
  rewrite u64_id by (unfold SIZE_MAX; lia). lia.
Qed.
Lemma put_room d k n s : put d k s → k + n ≤ K → room n n s.
Proof.
  intros HP Hk. eapply add_uses_room; [apply HP|].
  eapply room_le; [exact Hroom|lia|lia].
Qed.
Lemma put_weaken d k k' s : put d k s → k ≤ k' → put d k' s.
Proof.
  intros [? ? ? [? ? ? ?] ? ?] Hk. split; try done; [|lia]. split; [done|lia|by eapply refs_step_weaken|done].
Qed.
Lemma add_uses_trans' k n s ok s' : add_uses k s0 true s → add_uses n s ok s' → add_uses (k + n) s0 ok s'.
Proof.
  intros [C1 O1 R1 M1] [C2 O2 R2 M2]. split; [by eapply conf_same_trans|lia|by eapply refs_step_trans|].
  intros E. rewrite M2 by done. by apply M1.
Qed.

(** One addition that is not empty *)
Lemma put_add d0 k s n d ok s' : put d0 k s → k + n ≤ K → 0 < zlen d ≤ n →
  add_full n s (pos + zlen d0) d ok s' → if ok then put (d0 ++ d) (k + n) s' else unput s'.
Proof.
  intros HP Hk Hd (HA&HU&HB&HF). pose proof (put_len _ _ _ HP) as Hlen.
  pose proof (wf_content_length _ Hw0) as Hz0.
  unfold add_post in HA. rewrite decide_False in HA by lia. destruct HA as (Hw'&Hfr&HA).
  pose proof (add_uses_trans' _ _ _ _ _ (pu_uses _ _ _ HP) HU) as HU'.
  pose proof (mem_frame_trans _ _ _ (pu_frame _ _ _ HP) Hfr) as Hfr'.
  destruct ok.
  - split; [done|done| |done| |].
    + rewrite HA, (pu_content _ _ _ HP). apply insert_insert. lia.
    + intros _. rewrite length_app, Nat2Z.inj_add, Z.add_assoc. apply HB; [done|lia].
    + rewrite length_app, Nat2Z.inj_add. pose proof (pu_le _ _ _ HP). lia.
  - destruct HA as [Hc Hbad]. split; [done|done|done| |].
    + destruct HU' as [C O R M]. split; [done|lia|eapply refs_step_weaken; [exact R|lia]|done].
    + exists d0. split_and!; [by rewrite Hc, (pu_content _ _ _ HP)|pose proof (pu_le _ _ _ HP); lia|].
      intros H0. apply HF; [done|by apply HP].
Qed.

Lemma puts_nothing m : (∀ d0 k s, put d0 k s → k ≤ K → wp m s (λ ok s', ok = true ∧ s' = s)) → puts [] 0 m.
Proof.
  intros Hm. split; [done|]. intros d0 k s HP Hk. eapply wp_mono; [apply (Hm d0 k s HP); lia|]. intros ok s' [-> ->]. rewrite app_nil_r.
  eapply put_weaken; [exact HP|lia].
Qed.
Lemma puts_skip : puts [] 0 (mret true).
Proof. apply puts_nothing. intros. wp_steps. done. Qed.
Lemma puts_weaken d n n' m : puts d n m → n ≤ n' → puts d n' m.
Proof.
  intros [H0 Hm] Hn. split; [lia|]. intros d0 k s HP Hk. eapply wp_mono; [eapply Hm; [done|lia]|]. intros [] s'; [|done]. intros. eapply put_weaken; [done|lia].
Qed.
Lemma puts_and d1 n1 m1 d2 n2 m2 : puts d1 n1 m1 → puts d2 n2 m2 → puts (d1 ++ d2) (n1 + n2) (and_then m1 m2).
Proof.
  intros [Hn1 H1] [Hn2 H2]. split; [lia|]. intros d0 k s HP Hk. unfold and_then. wp_step. eapply wp_mono; [eapply H1; [done|lia]|]. cbn beta.
  intros [] s1 HP1; [|by wp_steps]. eapply wp_mono; [eapply H2; [done|lia]|]. intros [] s2; [|done].
  by rewrite app_assoc, Z.add_assoc.
Qed.
Lemma puts_only_if (c : bool) d n m : (c = true → puts d n m) → 0 ≤ n → puts (if c then d else []) n (only_if c m).
Proof.
  intros Hm Hn. unfold only_if. destruct c; [by apply Hm|]. eapply puts_weaken; [apply puts_skip|done].
Qed.
Lemma puts_bind {A} (m : M A) (f : A → M bool) d n : 0 ≤ n → (∀ d0 k s, put d0 k s → k + n ≤ K →
    wp m s (λ a s', put d0 k s' ∧ puts d n (f a))) → puts d n (m ≫= f).
Proof.
  intros Hn Hm. split; [done|]. intros d0 k s HP Hk. wp_step. eapply wp_mono; [by eapply Hm|]. intros a s' [HP' [_ Hf]]. by apply Hf.
Qed.

(** The additions of formatted output *)
Abbreviation pos_diff := (b_len (s_base s0) - pos).
Definition shown (p : pointer) (bs : list Z) : Prop := load (h_mem (s_heap s0)) p (zlen bs) = Some bs ∧ p_blk p ∉ st_own s0.
Lemma shown_src p bs d k s : put d k s → shown p bs → buf_src (s_heap s) (st_own s) p (Some <$> bs).
Proof.
  intros HP [Hl Hn]. destruct (mem_frame_load _ _ _ _ _ (pu_frame _ _ _ HP) Hl Hn) as [Hl' Hn']. by exists bs.
Qed.
Lemma puts_rep_chr chr n : 0 ≤ n → puts (zrep n (Some chr)) (2 + n) (fmt_add_rep_chr pos_diff chr n).
Proof.
  intros Hn. split; [lia|]. intros d0 k s HP Hk. unfold fmt_add_rep_chr. wp_step. apply wp_gets. rewrite (put_place _ _ _ HP) by lia.
  pose proof (put_len _ _ _ HP) as Hlen.
  destruct (decide (n = 0)) as [->|Hn0].
  { unfold wp. unfold vstr_add_rep_chr. rewrite add_inline_nothing by lia. change (zrep 0 _) with (@nil byte_or_non).
    rewrite app_nil_r. eapply put_weaken; [done|lia]. }
  assert (Hz : zlen (zrep n (Some chr) : list byte_or_non) = n) by (rewrite length_zrep; lia).
  eapply wp_mono.
  - apply (wp_add_uses add_rep_chr_op _ s (pos + zlen d0) (zrep n (Some chr)) n (pu_wf _ _ _ HP) Hz).
    apply vstr_add_rep_chr_full; [apply HP|lia|lia|]. apply (add_room_uses add_rep_chr_op); [apply HP|lia|].
    eapply put_room; [done|]. unfold node_uses. lia.
  - intros ok s' HF. eapply put_add; [done|lia| |exact HF]. rewrite Hz. unfold node_uses. lia.
Qed.
Lemma put_buf d0 k s p bs : put d0 k s → k + (2 + zlen bs) ≤ K → buf_src (s_heap s) (st_own s) p (Some <$> bs) →
  wp (vstr_add_buf (pos + zlen d0) p (zlen bs)) s (λ ok s', if ok then put (d0 ++ (Some <$> bs)) (k + (2 + zlen bs)) s' else unput s').
Proof.
  intros HP Hk Hsrc. pose proof (put_len _ _ _ HP) as Hlen.
  assert (Hz : zlen (Some <$> bs : list byte_or_non) = zlen bs) by by rewrite length_fmap.
  destruct (decide (bs = [])) as [->|Hn0].
  { unfold wp. unfold vstr_add_buf. change (zlen []) with 0. rewrite add_inline_nothing by lia. rewrite app_nil_r. eapply put_weaken; [done|cbn; lia]. }
  assert (Hnz : 0 < zlen bs) by (destruct bs; [done|cbn; lia]).
  eapply wp_mono.
  - apply (wp_add_uses add_buf_op _ s (pos + zlen d0) (Some <$> bs) (zlen bs) (pu_wf _ _ _ HP) Hz).
    rewrite <- Hz. apply vstr_add_buf_full; [apply HP|lia|done|]. rewrite Hz. apply (add_room_uses add_buf_op); [apply HP|lia|].
    eapply put_room; [done|]. unfold node_uses. lia.
  - intros ok s' HF. eapply put_add; [done|lia| |exact HF]. rewrite Hz. unfold node_uses. lia.
Qed.
Lemma puts_buf p bs : shown p bs → puts (Some <$> bs) (2 + zlen bs) (fmt_add pos_diff p (zlen bs)).
Proof.
  intros Hsh. split; [lia|]. intros d0 k s HP Hk. unfold fmt_add. wp_step. apply wp_gets. rewrite (put_place _ _ _ HP) by lia.
  apply put_buf; [done|lia|]. by eapply shown_src.
Qed.

(** A local array *)
Lemma local_array_put bs d k s : put d k s →
  wp (local_array bs) s (λ p s', put d k s' ∧ buf_src (s_heap s') (st_own s') p (Some <$> bs)).
Proof.
  intros HP. pose proof (pu_wf _ _ _ HP) as Hw. pose proof (wf_heap _ Hw) as HH.
  destruct (heap_inv_new_block _ _ _ bs (h_malloc (s_heap s)) HH) as [HH' Hg].
  destruct (heap_inv_fresh _ _ _ HH) as (Hown&Hmem&_).
  unfold wp, local_array. destruct s as [[me r n m] c b]. cbn [s_heap h_mem h_refs h_next h_malloc s_conf s_base on_heap] in *.
  set (h := mkHeap me r n m) in *. set (h' := mkHeap (<[n := bs]> me) r (Pos.succ n) m) in *. set (s' := mkSt h' c b).
  split.
  - split.
    + split; [exact HH'|apply Hw|apply Hw].
    + eapply mem_frame_trans; [apply HP|]. intros a Ha Hn. split; [|done].
      cbn. rewrite lookup_insert_ne; [done|]. intros <-. cbn in Ha. rewrite Hmem in Ha. by apply is_Some_None in Ha.
    + rewrite <- (pu_content _ _ _ HP). unfold st_content, content, s'. cbn [s_heap s_base]. f_equal.
      eapply heap_grows_chain; [exact Hg|]. apply (hi_nodes _ _ _ HH).
    + by destruct (pu_uses _ _ _ HP).
    + apply (pu_boundary _ _ _ HP).
    + apply HP.
  - exists bs. split_and!; [done| |].
    + cbn. unfold load. cbn [p_blk p_off]. rewrite lookup_insert_eq. cbn [mbind option_bind].
      rewrite decide_True by lia. rewrite (zdrop_0 0), ztake_all by lia. done.
    + exact Hown.
Qed.
Lemma puts_local bs : puts (Some <$> bs) (2 + zlen bs) (buf ← local_array bs; fmt_add pos_diff buf (zlen bs)).
Proof.
  split; [lia|]. intros d0 k s HP Hk. wp_step. eapply wp_mono; [by apply local_array_put|]. intros p s' [HP' Hsrc]. cbn beta.
  unfold fmt_add. wp_step. apply wp_gets. rewrite (put_place _ _ _ HP') by lia. apply put_buf; [done|lia|done].
Qed.
End puts.
