(* ===== verification/FmtSpec.v ===== *)
(** * Formatted output: what the conversions write. *)
From Stdlib Require Import ZArith Lia ZifyBool Ascii.
From stdpp Require Import base tactics list numbers option gmap.
From S2P Require Import Prelude State Wp Ref Cache Core Base Add Del Iter Spn Parse Inv SpnSpec SpnTheorems PosLemmas SpareLemmas SplitLemmas CacheLemmas AddLemmas StringLemmas AddSpec AddOps AddTheorems DelTheorems DelAtomic SubSpec AddVstrSpec ParseSpec Fmt FmtUsr FmtParse Puts.

(** ** The digits *)
Definition to_upper (c : Z) : Z := if decide (ch "a" ≤ c ≤ ch "z") then c - 32 else c.
Definition number_chrs (large : bool) (base n : Z) : list Z :=
  if decide (n = 0) then [] else (if large then to_upper else id) <$> num_chrs base n.

Lemma chrs_at_digit (large : bool) d : 0 ≤ d < 36 →
  chrs_at (if large then chrs_upper else chrs_lower) d = (if large then to_upper else id) (digit_chr d).
Proof.
  intros Hd. assert (H : Forall (λ d, chrs_at (if large then chrs_upper else chrs_lower) d = (if large then to_upper else id) (digit_chr d)) (seqZ 0 36)).
  { apply (bool_decide_unpack _). destruct large; by vm_compute. }
  rewrite Forall_forall in H. apply H. apply elem_of_seqZ. lia.
Qed.
Section digits.
Context (base : Z) (Hbase : 2 ≤ base ≤ 36).
Lemma digits_fuel_enough f1 : ∀ f2 n, 0 ≤ n < base ^ Z.of_nat f1 → n < base ^ Z.of_nat f2 → f1 ≠ O → f2 ≠ O →
  digits_fuel base f1 n = digits_fuel base f2 n.
Proof.
  induction f1 as [|f1 IH]; intros [|f2] n Hn Hn2 H1 H2; try done. cbn [digits_fuel]. case_decide as Hlt; [done|].
  rewrite Nat2Z.inj_succ, Z.pow_succ_r in Hn, Hn2 by lia.
  assert (1 ≤ n / base) by (apply Z.div_le_lower_bound; lia).
  assert (n / base < base ^ Z.of_nat f1) by (apply Z.div_lt_upper_bound; lia).
  assert (n / base < base ^ Z.of_nat f2) by (apply Z.div_lt_upper_bound; lia).
  rewrite (IH f2); [done|lia|done| |].
  - intros ->. cbn in *. lia.
  - intros ->. cbn in *. lia.
Qed.
Lemma add_fmt_num_digits chrs_base fuel : ∀ n buf, 0 < n < base ^ Z.of_nat fuel →
  add_fmt_num fuel chrs_base base n buf = (chrs_at chrs_base <$> digits_fuel base fuel n) ++ buf.
Proof.
  induction fuel as [|fuel IH]; intros n buf Hn; [cbn in Hn; lia|]. cbn [add_fmt_num digits_fuel].
  rewrite decide_False by lia. rewrite Nat2Z.inj_succ, Z.pow_succ_r in Hn by lia. case_decide as Hlt.
  - rewrite Z.div_small, Z.mod_small by lia. by destruct fuel.
  - rewrite IH; [by rewrite fmap_app, <- app_assoc|].
    split; [apply Z.div_str_pos; lia|apply Z.div_lt_upper_bound; lia].
Qed.
Lemma number_chrs_digits (large : bool) n : 0 ≤ n < 2 ^ 64 →
  VSTR__ADD_FMT_NUM (if large then chrs_upper else chrs_lower) base n = number_chrs large base n.
Proof.
  intros Hn. unfold VSTR__ADD_FMT_NUM, number_chrs. case_decide as H0; [by subst|].
  assert (Hb : n < base ^ Z.of_nat 64).
  { eapply Z.lt_le_trans; [apply Hn|]. change (Z.of_nat 64) with 64. apply Z.pow_le_mono_l. lia. }
  rewrite add_fmt_num_digits, app_nil_r by lia. unfold num_chrs. rewrite <- list_fmap_compose.
  destruct (digits_spec base Hbase n ltac:(lia)) as (_&Hds&_).
  rewrite (digits_fuel_enough 64 (S (Z.to_nat (Z.log2 n)))); [|lia| |done|done].
  - fold (digits base n). apply Forall_fmap_ext_1. eapply Forall_impl; [exact Hds|]. intros d Hd. cbn beta in Hd. apply chrs_at_digit. lia.
  - rewrite Nat2Z.inj_succ, Z2Nat.id by apply Z.log2_nonneg. pose proof (Z.log2_spec n ltac:(lia)) as [_ Hl].
    eapply Z.lt_le_trans; [exact Hl|]. apply Z.pow_le_mono_l. lia.
Qed.
End digits.

(** ** What a conversion writes, as the C standard says it *)
(** The field is filled up on the left with spaces, or zeros after the sign
    and the mark of the base, or on the right. *)
Definition fmt_fill (flags width : Z) (lead body : list Z) : list Z :=
  let fill := width - (zlen lead + zlen body) in
  if flag flags LEFT then lead ++ body ++ zrep fill (ch " ")
  else if flag flags ZEROPAD && negb (flag flags PREC_USR) then lead ++ zrep fill (ch "0") ++ body
  else zrep fill (ch " ") ++ lead ++ body.
Definition sign_text (flags : Z) : list Z :=
  if flag flags SIGN then
    if flag flags NUM_IS_NEGATIVE then [ch "-"] else if flag flags PLUS then [ch "+"]
    else if flag flags SPACE then [ch " "] else []
  else [].
Definition spec_width (spec : fmt_spec) : Z := if fs_field_width_usr spec then fs_field_width spec else 0.
(** With [#] a number that is not 0 has 0x before it in base 16, and one in
    base 8 starts with a 0. *)
Definition number_text (spec : fmt_spec) (n : Z) : list Z :=
  let flags := fs_flags spec in
  let digits := number_chrs (flag flags LARGE) (fs_num_base spec) n in
  let mark := if flag flags SPECIAL && bool_decide (fs_num_base spec = 16 ∧ n ≠ 0)
              then [ch "0"; if flag flags LARGE then ch "X" else ch "x"] else [] in
  let precision := if flag flags PREC_USR then fs_precision spec else 1 in
  let precision := if flag flags SPECIAL && bool_decide (fs_num_base spec = 8) then Z.max precision (zlen digits + 1) else precision in
  fmt_fill flags (spec_width spec) (sign_text flags ++ mark) (zrep (precision - zlen digits) (ch "0") ++ digits).

(** A specification as reading a format and its arguments makes it: the base,
    the union and the flag of zero agree, the numbers are unsigned ints. *)
Record number_spec (spec : fmt_spec) (n : Z) : Prop := {
  ns_base : fs_num_base spec = 8 ∨ fs_num_base spec = 10 ∨ fs_num_base spec = 16;
  ns_num : fmt_number_of spec = Some n;
  ns_range : 0 ≤ n < 2 ^ 64;
  ns_zero : flag (fs_flags spec) NUM_IS_ZERO = bool_decide (n = 0);
  ns_width : 0 ≤ fs_field_width spec < UINT_MAX;
  ns_prec : 0 ≤ fs_precision spec ≤ UINT_MAX }.
(** The locale does not separate the digits of this base. *)
Definition not_grouped (loc : Vstr_locale) (base : Z) : Prop :=
  ∃ l, vstr__loc_num_srch loc base = Some l ∧ ln_thousands_sep_len l = 0.

Lemma flag_off_other flags a b : Z.land a b = 0 → flag (flag_off flags a) b = flag flags b.
Proof.
  intros H. unfold flag, flag_off. f_equal. assert (E : Z.land (Z.ldiff flags a) b = Z.land flags b); [|by rewrite E].
  apply Z.bits_inj'. intros i Hi. rewrite !Z.land_spec, Z.ldiff_spec.
  assert (Hab : Z.testbit a i && Z.testbit b i = false) by (rewrite <- Z.land_spec, H; apply Z.bits_0).
  destruct (Z.testbit flags i), (Z.testbit a i), (Z.testbit b i); done.
Qed.
Lemma flag_off_same flags a : flag (flag_off flags a) a = false.
Proof.
  unfold flag, flag_off. assert (E : Z.land (Z.ldiff flags a) a = 0); [|by rewrite E].
  apply Z.bits_inj'. intros i Hi. rewrite Z.land_spec, Z.ldiff_spec, Z.bits_0. destruct (Z.testbit flags i), (Z.testbit a i); done.
Qed.

Lemma flag_if (c : bool) a b flags : Z.land a b = 0 → flag (if c then flag_off flags a else flags) b = flag flags b.
Proof. intros H. destruct c; [by apply flag_off_other|done]. Qed.
Lemma sign_text_flags f f' : (∀ b, Z.land ZEROPAD b = 0 → flag f' b = flag f b) → sign_text f' = sign_text f.
Proof. intros H. unfold sign_text. by rewrite !H by done. Qed.
Lemma fmt_sign_spec flags fw : 0 ≤ fw < UINT_MAX →
  ∃ sign, fmt_sign flags fw = (sign, Z.max 0 (fw - zlen (sign_text flags))) ∧
    sign_text flags = (if decide (sign = 0) then [] else [sign]).
Proof.
  intros Hfw. unfold fmt_sign, sign_text. destruct (flag flags SIGN); cbn [negb].
  2:{ exists 0. rewrite decide_True by done. split; [|done]. f_equal. cbn. lia. }
  destruct (flag flags NUM_IS_NEGATIVE); [exists (ch "-")|destruct (flag flags PLUS); [exists (ch "+")|destruct (flag flags SPACE); [exists (ch " ")|exists 0]]].
  1-3: split; [f_equal; case_decide; simpl length; lia|by rewrite decide_False by done].
  rewrite (decide_True (P := 0 = 0)) by done. split; [|done]. f_equal. unfold UINT_MAX in *. rewrite u32_id by lia. case_decide; cbn; lia.
Qed.

Lemma zrep_none {A} n (x : A) : n ≤ 0 → zrep n x = [].
Proof. intros H. unfold zrep. by replace (Z.to_nat n) with O by lia. Qed.
Lemma zrep_1 {A} (x : A) : zrep 1 x = [x].
Proof. done. Qed.
Lemma zrep_pos_if {A} n (x : A) : zrep (if bool_decide (0 < n) then n else 0) x = zrep n x.
Proof. destruct (decide (0 < n)); [by rewrite bool_decide_eq_true_2|rewrite bool_decide_eq_false_2 by done]. by rewrite !zrep_none by lia. Qed.

Lemma add_fmt_num_length l base fuel : ∀ n buf, zlen (add_fmt_num fuel l base n buf) ≤ Z.of_nat fuel + zlen buf.
Proof.
  induction fuel as [|fuel IH]; intros n buf; cbn [add_fmt_num]; [lia|]. case_decide; [lia|].
  eapply Z.le_trans; [apply IH|]. rewrite length_cons. lia.
Qed.
Lemma fmt_special_spec flags base n real_i fw prec : flag flags NUM_IS_ZERO = bool_decide (n = 0) → 0 ≤ real_i ≤ 64 → 0 ≤ prec →
  (n = 0 → real_i = 0) →
  let hex := flag flags SPECIAL && bool_decide (base = 16 ∧ n ≠ 0) in
  fmt_special flags base real_i fw prec =
    (hex, if hex then Z.max 0 (fw - 2) else fw,
     if flag flags SPECIAL && bool_decide (base = 8) then Z.max prec (real_i + 1) else prec).
Proof.
  intros Hz Hi Hp Hn hex. unfold fmt_special, hex. rewrite Hz. destruct (flag flags SPECIAL); [|done]. cbn [negb andb].
  destruct (decide (base = 16)) as [->|H16].
  - rewrite (bool_decide_eq_true_2 (16 = 16)) by done. rewrite (bool_decide_eq_false_2 (16 = 8)) by done. cbn [andb].
    destruct (decide (n = 0)) as [->|].
    + by rewrite (bool_decide_eq_true_2 (0 = 0)), (bool_decide_eq_false_2 (16 = 16 ∧ _)) by (try done; intros []; done).
    + by rewrite (bool_decide_eq_false_2 (n = 0)), (bool_decide_eq_true_2 (16 = 16 ∧ _)) by done.
  - rewrite (bool_decide_eq_false_2 (base = 16)) by done. rewrite (bool_decide_eq_false_2 (base = 16 ∧ _)) by tauto. cbn [andb].
    destruct (decide (base = 8)) as [->|]; [|by rewrite (bool_decide_eq_false_2 (base = 8)) by done].
    rewrite (bool_decide_eq_true_2 (8 = 8)) by done. cbn [andb]. rewrite u32_id by lia.
    destruct (decide (prec ≤ real_i)).
    + rewrite (bool_decide_eq_true_2 (prec ≤ real_i)), orb_true_r by done. f_equal. lia.
    + rewrite (bool_decide_eq_false_2 (prec ≤ real_i)), orb_false_r by done.
      destruct (decide (n = 0 ∧ prec = 0)) as [[-> ->]|]; [lia|].
      replace (bool_decide (n = 0) && bool_decide (prec = 0)) with false; [f_equal; lia|].
      symmetry. apply andb_false_iff. destruct (decide (n = 0)); [right|left]; apply bool_decide_eq_false_2; tauto.
Qed.

Lemma fill_if a b : (if decide (a < b) then 0 else a - b) = Z.max 0 (a - b).
Proof. case_decide; lia. Qed.

(** The field of a specification with the characters in it *)
Definition field_text (spec : fmt_spec) (width : Z) (d : list Z) : list Z :=
  let fill := zrep (if fs_field_width_usr spec then width - zlen d else 0) (ch " ") in
  if flag (fs_flags spec) LEFT then d ++ fill else fill ++ d.

Section writing.
Context {OT : Others}.
Context (s0 : St) (pos K : Z).
Context (Hw0 : wf s0) (Hpos : 0 ≤ pos ≤ b_len (s_base s0)) (HK : b_len (s_base s0) + K ≤ VSTR_MAX_NODE_ALL) (Hroom : room (K + 1) (K + 1) s0).
Abbreviation pos_diff := (b_len (s_base s0) - pos).
Abbreviation writes d n m := (puts s0 pos K (Some <$> (d : list Z)) n m).

Lemma writes_eq d n m d' n' : writes d n m → d = d' → n ≤ n' → writes d' n' m.
Proof. intros Hm <- Hn. by eapply puts_weaken. Qed.
Lemma writes_text c d n m d' : writes d n m → d = d' → n ≤ c + zlen d → writes d' (c + zlen d') m.
Proof. intros Hm <- Hn. by eapply puts_weaken. Qed.
Lemma writes_and d1 n1 m1 d2 n2 m2 : writes d1 n1 m1 → writes d2 n2 m2 → writes (d1 ++ d2) (n1 + n2) (and_then m1 m2).
Proof. rewrite fmap_app. apply puts_and. Qed.
(** The budget of a list of pieces, of which those that are empty are not written *)
Definition cost (d : list Z) : Z := if decide (d = []) then 0 else 2 + zlen d.
Lemma cost_nonneg d : 0 ≤ cost d.
Proof. unfold cost. case_decide; lia. Qed.
Lemma cost_le d : cost d ≤ 2 + zlen d.
Proof. unfold cost. case_decide; lia. Qed.
Lemma writes_if (c : bool) d m : writes d (2 + zlen d) m → (c = false → d = []) → writes d (2 + zlen d) (only_if c m).
Proof.
  intros Hm Hc. unfold only_if. destruct c; [done|]. rewrite Hc by done. eapply puts_weaken; [by apply puts_skip|cbn; lia].
Qed.
Lemma writes_skip : writes [] 2 (mret true).
Proof. eapply puts_weaken; [by apply puts_skip|done]. Qed.
Lemma writes_rep c n : 0 ≤ n → writes (zrep n c) (2 + zlen (zrep n c)) (fmt_add_rep_chr pos_diff c n).
Proof. intros Hn. rewrite zrep_fmap, length_zrep, Z.max_r by lia. by apply puts_rep_chr. Qed.
Lemma writes_rep_if (c : bool) a n : (c = true → 0 ≤ n) →
  let d := zrep (if c then n else 0) a in writes d (2 + zlen d) (only_if c (fmt_add_rep_chr pos_diff a n)).
Proof.
  intros Hn d. destruct c; [by apply writes_rep, Hn|]. unfold only_if, d. eapply puts_weaken; [by apply puts_skip|cbn; lia].
Qed.
Lemma writes_of_option {A} (o : option A) a (f : A → M bool) d n : o = Some a → writes d n (f a) → writes d n (of_option o ≫= f).
Proof. intros -> [Hn Hf]. split; [done|]. intros d0 k s HP Hk. wp_step. eapply wp_of_option; [done|]. by apply Hf. Qed.

Lemma fmt_number_write_spec left zeropad fw sign (hex : bool) x zeros (some : bool) number ds :
  0 ≤ fw → (some = true → writes ds (2 + zlen ds) number) → (some = false → ds = []) →
  let lead := (if decide (sign = 0) then [] else [sign]) ++ (if hex then [ch "0"; x] else []) in
  let body := zrep zeros (ch "0") ++ ds in
  let text := if (left : bool) then lead ++ body ++ zrep fw (ch " ")
    else if (zeropad : bool) then lead ++ zrep fw (ch "0") ++ body else zrep fw (ch " ") ++ lead ++ body in
  writes text (16 + zlen text) (fmt_number_write pos_diff left zeropad fw sign hex x zeros some number).
Proof.
  intros Hfw Hnum Hno lead body text. unfold fmt_number_write. cbv zeta.
  set (before := negb zeropad && negb left && bool_decide (0 < fw)).
  set (fw1 := if before then 0 else fw). set (fw2 := if left then fw1 else 0).
  eapply (writes_text 16).
  - apply writes_and; [apply (writes_rep_if before); done|].
    apply writes_and; [apply (writes_rep_if (bool_decide (sign ≠ 0))); done|].
    apply writes_and; [apply (writes_rep_if hex); done|].
    apply writes_and; [apply (writes_rep_if hex); done|].
    apply writes_and; [apply (writes_rep_if (negb left && bool_decide (0 < fw1)))|].
    { unfold fw1. destruct before; lia. }
    apply writes_and; [apply (writes_rep_if (bool_decide (0 < zeros)))|].
    { intros H%bool_decide_eq_true. lia. }
    apply writes_and; [|apply (writes_rep_if (bool_decide (0 < fw2)))].
    { destruct some; [by apply Hnum|]. rewrite Hno by done. by apply writes_skip. }
    intros H%bool_decide_eq_true. lia.
  - unfold text, lead, body, fw2, fw1, before. rewrite !zrep_pos_if. clear -Hfw Hno. destruct hex, left, zeropad; cbn [negb andb];
      (destruct (decide (0 < fw)) as [Hf|Hf];
       [rewrite ?(bool_decide_eq_true_2 (0 < fw)) by done|rewrite ?(bool_decide_eq_false_2 (0 < fw)) by done; replace fw with 0 by lia]);
      (destruct (decide (sign = 0)) as [->|Hs0]; [rewrite (bool_decide_eq_false_2 (0 ≠ 0)) by (intros ?; done)|rewrite (bool_decide_eq_true_2 (sign ≠ 0)) by done]);
      cbn [bool_decide decide]; rewrite ?zrep_1, ?zrep_pos_if, ?(zrep_none 0) by done; cbn; rewrite ?app_nil_r, <- ?app_assoc; done.
  - rewrite !length_app. lia.
Qed.

Lemma fmt_number_spec loc spec n : number_spec spec n → not_grouped loc (fs_num_base spec) →
  writes (number_text spec n) (16 + zlen (number_text spec n)) (vstr__add_fmt_number loc pos_diff spec).
Proof.
  intros [Hb Hn Hr Hz Hfw Hp] (l&Hl&Hsep). unfold vstr__add_fmt_number. cbv zeta.
  set (f := fs_flags spec) in *.
  set (f1 := if flag f PREC_USR then flag_off f ZEROPAD else f).
  set (f2 := if flag f1 LEFT then flag_off f1 ZEROPAD else f1).
  assert (H1 : ∀ b, Z.land ZEROPAD b = 0 → flag f1 b = flag f b) by (intros; by apply flag_if).
  assert (H2 : ∀ b, Z.land ZEROPAD b = 0 → flag f2 b = flag f b) by (intros; unfold f2; rewrite flag_if by done; by apply H1).
  assert (HZ : flag f2 ZEROPAD = flag f ZEROPAD && negb (flag f PREC_USR) && negb (flag f LEFT)).
  { unfold f2. rewrite H1 by done. destruct (flag f LEFT); [by rewrite flag_off_same, andb_false_r|]. unfold f1.
    destruct (flag f PREC_USR); [by rewrite flag_off_same, andb_false_r|]. by rewrite !andb_true_r. }
  assert (HU : fs_field_width spec < UINT_MAX ∧ 0 ≤ (if fs_field_width_usr spec then fs_field_width spec else 0) < UINT_MAX)
    by (unfold UINT_MAX in *; destruct (fs_field_width_usr spec); lia).
  destruct (fmt_sign_spec f2 _ (proj2 HU)) as (sign&->&Hsg).
  assert (Est : sign_text f2 = sign_text f) by by apply sign_text_flags.
  rewrite Est in Hsg |- *. apply (writes_of_option _ l); [done|]. apply (writes_of_option _ n); [done|].
  rewrite Hsep. rewrite decide_True by by left.
  rewrite (H1 LARGE) by done. rewrite number_chrs_digits by lia.
  set (ds := number_chrs (flag f LARGE) (fs_num_base spec) n). set (f3 := flag_off f2 THOUSAND_SEP).
  assert (HT : flag f3 THOUSAND_SEP = false) by apply flag_off_same.
  assert (H3 : ∀ b, Z.land ZEROPAD b = 0 → Z.land THOUSAND_SEP b = 0 → flag f3 b = flag f b).
  { intros b E1 E2. unfold f3. rewrite flag_off_other by done. by apply H2. }
  assert (H3Z : flag f3 ZEROPAD = flag f2 ZEROPAD) by (by apply flag_off_other). rewrite HT.
  assert (Hds : zlen ds ≤ 64) by (unfold ds; rewrite <- number_chrs_digits by lia; apply add_fmt_num_length).
  set (prec := if flag f PREC_USR then fs_precision spec else 1).
  assert (Hprec : 0 ≤ prec ≤ UINT_MAX) by (unfold prec, UINT_MAX in *; destruct (flag f PREC_USR); lia).
  set (w := if fs_field_width_usr spec then fs_field_width spec else 0) in *.
  rewrite (fmt_special_spec f3 (fs_num_base spec) n (zlen ds) _ prec); [|by rewrite H3|lia|lia|by intros E0; unfold ds, number_chrs; rewrite decide_True by done].
  rewrite !(H3 SPECIAL) by done. set (hex := flag f SPECIAL && bool_decide (fs_num_base spec = 16 ∧ n ≠ 0)).
  set (prec' := if flag f SPECIAL && _ then _ else prec).
  rewrite fill_if. set (fill := Z.max 0 _).
  assert (Etext : number_text spec n = fmt_fill f w (sign_text f ++ (if hex then [ch "0"; if flag f LARGE then ch "X" else ch "x"] else []))
    (zrep (prec' - zlen ds) (ch "0") ++ ds)) by done.
  eapply (writes_text 16); [apply (fmt_number_write_spec _ _ _ _ _ _ _ _ _ ds)| |done].
  - lia.
  - intros _. unfold ds. apply puts_local; done.
  - intros E%bool_decide_eq_false. destruct ds; [done|]. cbn in E. lia.
  - rewrite Etext. unfold fmt_fill. rewrite H3Z, HZ, (H3 LEFT), <- Hsg by done.
    replace (chrs_at (if flag f LARGE then chrs_upper else chrs_lower) 33) with (if flag f LARGE then ch "X" else ch "x") by (destruct (flag f LARGE); done).
    set (lead := sign_text f ++ _). set (body := zrep (prec' - zlen ds) (ch "0") ++ ds).
    assert (Ef : zlen body = Z.max (zlen ds) prec') by (unfold body; rewrite length_app, Nat2Z.inj_add, length_zrep; lia).
    assert (El : zlen lead = zlen (sign_text f) + (if hex then 2 else 0)) by (unfold lead; rewrite length_app, Nat2Z.inj_add; by destruct hex).
    assert (Efill : ∀ a : Z, zrep fill a = zrep (w - (zlen lead + zlen body)) a).
    { intros a. destruct (decide (0 < w - (zlen lead + zlen body))).
      - f_equal. unfold fill. rewrite Ef in *. destruct hex; lia.
      - rewrite !zrep_none; [done|lia|]. unfold fill. rewrite Ef in *. destruct hex; lia. }
    rewrite !Efill. destruct (flag f LEFT); [done|]. by rewrite andb_true_r.
Qed.

(** ** Characters and C strings *)
Lemma fmt_field_spec spec width width' len d n add : writes d n add → (fs_field_width_usr spec = true → Z.max 0 (width - len) = Z.max 0 (width' - zlen d)) →
  n ≤ 12 + zlen d →
  writes (field_text spec width' d) (16 + zlen (field_text spec width' d)) (fmt_field pos_diff spec width len add).
Proof.
  intros Hadd Hw Hn. unfold fmt_field. cbv zeta. set (wide := fs_field_width_usr spec && bool_decide (len < width)).
  set (before := wide && negb (has spec LEFT)).
  eapply (writes_text 16).
  - apply writes_and; [apply (writes_rep_if before)|apply writes_and; [exact Hadd|apply (writes_rep_if (wide && negb before))]].
    + unfold before, wide. intros [[_ H%bool_decide_eq_true]%andb_prop _]%andb_prop. lia.
    + unfold wide. intros [[_ H%bool_decide_eq_true]%andb_prop _]%andb_prop. lia.
  - unfold field_text, before, has. assert (Ez : ∀ a : Z, zrep (if wide then width - len else 0) a = zrep (if fs_field_width_usr spec then width' - zlen d else 0) a).
    { intros a. unfold wide. destruct (fs_field_width_usr spec); [specialize (Hw eq_refl)|done]. cbn [andb]. destruct (decide (len < width)).
      - rewrite bool_decide_eq_true_2 by done. f_equal. lia.
      - rewrite bool_decide_eq_false_2, !zrep_none by lia. done. }
    rewrite <- Ez. destruct wide, (flag (fs_flags spec) LEFT); cbn [andb negb]; rewrite ?app_nil_r; done.
  - rewrite !length_app. lia.
Qed.

Definition char_text (spec : fmt_spec) (c : Z) : list Z := field_text spec (fs_field_width spec) [c].
Lemma fmt_char_spec spec c : fs_u spec = U_num c → 0 ≤ c < 256 →
  writes (char_text spec c) (16 + zlen (char_text spec c)) (vstr__add_fmt_char pos_diff spec).
Proof.
  intros Hu Hc. unfold vstr__add_fmt_char. rewrite Hu. cbv zeta. rewrite Z.mod_small by lia.
  apply (fmt_field_spec _ _ _ _ [c] 3); [by apply (writes_rep c 1)| |cbn; lia].
  intros _. change (zlen [c]) with 1. case_decide; lia.
Qed.

(** Not more characters of a string than the precision, in its field *)
Definition cstr_text (spec : fmt_spec) (str : list Z) : list Z :=
  field_text spec (fs_field_width spec) (if has spec PREC_USR then ztake (fs_precision spec) str else str).
(** A string with a field that is wider than its precision: the code makes the
    field as wide as the precision. *)
Definition cstr_cut (spec : fmt_spec) : bool :=
  match fs_u spec with
  | U_ptr _ => has spec PREC_USR && fs_field_width_usr spec && bool_decide (fs_precision spec < fs_field_width spec)
  | _ => false
  end.

Definition cstr_at (p : pointer) (bs : list Z) : Prop := shown s0 p (bs ++ [0]) ∧ Forall (λ c, c ≠ 0) bs.
Lemma shown_take p bs n : 0 ≤ n → shown s0 p bs → shown s0 p (ztake n bs).
Proof.
  intros Hn [Hl Ho]. split; [|done]. apply load_Some in Hl as (blk&Hb&H1&H2&H3&H4). apply load_Some. exists blk.
  rewrite length_ztake. split_and!; [done|done|lia|lia|]. rewrite H4 at 1. rewrite ztake_ztake. f_equal. lia.
Qed.
Lemma shown_frame p bs d k s : put s0 pos d k s → shown s0 p bs → load (h_mem (s_heap s)) p (zlen bs) = Some bs.
Proof. intros HP [Hl Hn]. by destruct (mem_frame_load _ _ _ _ _ (pu_frame _ _ _ _ _ HP) Hl Hn). Qed.
Lemma count_while_cstr (bs l : list Z) : Forall (λ c, c ≠ 0) bs → count_while (λ c, bool_decide (c ≠ 0)) (bs ++ 0 :: l) = zlen bs.
Proof.
  intros Hbs. induction Hbs as [|c bs Hc Hbs IH]; [done|]. cbn [app count_while]. rewrite bool_decide_eq_true_2 by done. rewrite IH, length_cons. lia.
Qed.
Lemma mem_cstr_spec d k s p bs max : put s0 pos d k s → cstr_at p bs → (∀ m, max = Some m → 0 ≤ m) →
  wp (mem_cstr p max) s (λ n s', s' = s ∧ n = match max with Some m => Z.min (zlen bs) m | None => zlen bs end).
Proof.
  intros HP [Hsh Hnz] Hmax. pose proof (shown_frame _ _ _ _ _ HP Hsh) as Hl. apply load_Some in Hl as (blk&Hb&H1&H2&H3&H4).
  rewrite length_app in H3, H4. cbn [length] in H3, H4.
  assert (E : zdrop (p_off p) blk = bs ++ 0 :: zdrop (zlen bs + 1) (zdrop (p_off p) blk)).
  { rewrite <- (ztake_zdrop (zlen bs + 1) (zdrop (p_off p) blk)) at 1.
    replace (zlen bs + 1) with (Z.of_nat (length bs + 1)) by lia. rewrite <- H4, <- app_assoc. done. }
  unfold mem_cstr. wp_step. apply wp_gets. eapply wp_of_option; [|split; [done|reflexivity]].
  rewrite Hb. cbn [mbind option_bind]. rewrite decide_True by lia. cbv zeta. rewrite E, count_while_cstr by done.
  assert (Hz : zlen bs < zlen (bs ++ 0 :: zdrop (zlen bs + 1) (zdrop (p_off p) blk))) by (rewrite length_app, length_cons; lia).
  destruct max as [m|]; [rewrite decide_True by lia|rewrite decide_True by lia]; done.
Qed.
Lemma fmt_cstr_spec loc spec p bs : fs_u spec = U_ptr (Some p) → cstr_at p bs → 0 ≤ fs_precision spec → cstr_cut spec = false →
  writes (cstr_text spec bs) (16 + zlen (cstr_text spec bs)) (vstr__add_fmt_cstr loc pos_diff spec).
Proof.
  intros Hu Hp Hprec Hcut. unfold cstr_cut in Hcut. rewrite Hu in Hcut. unfold vstr__add_fmt_cstr. rewrite Hu. apply puts_bind; [lia|]. intros d0 k s HP Hk.
  wp_step. eapply wp_mono; [eapply mem_cstr_spec; [done|done|]|].
  { intros m. destruct (has spec PREC_USR); [|done]. by intros [= <-]. }
  cbn beta. intros n s' [-> ->]. wp_steps. split; [done|]. cbv zeta. unfold cstr_text. destruct (has spec PREC_USR) eqn:EP.
  - set (t := ztake (fs_precision spec) bs). assert (Ht : zlen t = Z.min (zlen bs) (fs_precision spec)) by (unfold t; rewrite length_ztake; lia).
    rewrite <- Ht. eapply fmt_field_spec; [eapply puts_buf; try done| |lia].
    + unfold t. eapply (shown_take _ _ (fs_precision spec)) in Hprec as Hs; [|apply Hp].
      apply (shown_take _ _ (zlen t)) in Hs; [|lia]. replace (ztake (zlen t) (ztake (fs_precision spec) (bs ++ [0]))) with t in Hs; [done|].
      rewrite ztake_ztake, Ht. destruct (decide (zlen bs ≤ fs_precision spec)).
      * replace (_ `min` _ `min` _) with (zlen bs) by lia. unfold t. by rewrite ztake_all, ztake_app_len by lia.
      * replace (_ `min` _ `min` _) with (fs_precision spec) by lia. by rewrite ztake_app_l by lia.
    + intros Eu. rewrite Eu in *. cbn [andb] in *. rewrite Hcut. lia.
  - cbn [andb]. eapply fmt_field_spec; [eapply puts_buf; try done|done|lia].
    destruct Hp as [Hs _]. apply (shown_take _ _ (zlen bs)) in Hs; [|lia]. by rewrite ztake_app_len in Hs.
Qed.
End writing.
