(* ===== verification/FmtRead.v ===== *)
(** * Formatted output: formats as data, what they look like, and that
    reading one gives its specifications.

    A format is made of pieces of text and directives.  This file covers the
    directives whose parameters are taken in order; those with a number and a
    dollar, and those of the user, are in the definitions only. *)
From Stdlib Require Import ZArith Lia ZifyBool Ascii.
From stdpp Require Import base tactics list numbers option gmap.
From S2P Require Import Prelude State Wp Ref Cache Core Base Add Del Iter Spn Parse Inv SpnSpec SpnTheorems PosLemmas StringLemmas ParseSpec Fmt FmtUsr FmtParse.

(** ** Directives *)
(** A field width or a precision: none, a number, or the next argument *)
Inductive dir_num := Num_none | Num_lit (n : Z) | Num_star.
Inductive conversion := Conv_c | Conv_s | Conv_d | Conv_i | Conv_u | Conv_x | Conv_X | Conv_o.
Record conv_dir := mkDir { d_flags : list Z; d_width : dir_num; d_prec : dir_num; d_type : int_type; d_conv : conversion }.
Inductive directive := Dir_percent | Dir_conv (d : conv_dir).

Definition conv_chr (k : conversion) : Z :=
  match k with
  | Conv_c => ch "c" | Conv_s => ch "s" | Conv_d => ch "d" | Conv_i => ch "i"
  | Conv_u => ch "u" | Conv_x => ch "x" | Conv_X => ch "X" | Conv_o => ch "o"
  end.
Definition type_chrs (t : int_type) : list Z :=
  match t with
  | FMT_UCHAR => [ch "h"; ch "h"] | FMT_USHORT => [ch "h"] | FMT_ULONG => [ch "l"] | FMT_ULONG_LONG => [ch "l"; ch "l"]
  | FMT_SIZE_T => [ch "z"] | FMT_PTRDIFF_T => [ch "t"] | FMT_UINTMAX_T => [ch "j"] | FMT_UINT | FMT_PTR_VOID => []
  end.
Definition num_text (d : dir_num) : list Z :=
  match d with Num_none => [] | Num_lit n => num_chrs 10 n | Num_star => [ch "*"] end.
Definition prec_text (d : dir_num) : list Z := match d with Num_none => [] | _ => ch "." :: num_text d end.
Definition dir_chrs (d : directive) : list Z :=
  match d with
  | Dir_percent => [ch "%"; ch "%"]
  | Dir_conv d => ch "%" :: d_flags d ++ num_text (d_width d) ++ prec_text (d_prec d) ++ type_chrs (d_type d) ++ [conv_chr (d_conv d)]
  end.

(** Characters and strings have no type; unsigned conversions of a ptrdiff_t
    are left out, as the code takes the absolute value for them. *)
Definition type_ok (k : conversion) (t : int_type) : bool :=
  match k, t with
  | (Conv_c | Conv_s), FMT_UINT => true
  | (Conv_c | Conv_s), _ => false
  | (Conv_d | Conv_i), FMT_PTRDIFF_T => true
  | _, (FMT_PTRDIFF_T | FMT_PTR_VOID) => false
  | _, _ => true
  end.
Definition num_ok (least : Z) (d : dir_num) : bool := match d with Num_lit n => bool_decide (least ≤ n < 2 ^ 31) | _ => true end.
Definition dir_ok (d : directive) : bool :=
  match d with
  | Dir_percent => true
  | Dir_conv d => forallb (λ c, bool_decide (is_Some (fmt_flag c))) (d_flags d) && num_ok 1 (d_width d) && num_ok 0 (d_prec d) &&
                  type_ok (d_conv d) (d_type d)
  end.

(** A format: pieces of text, each before a directive, and the text at the end *)
Definition format : Type := list (list Z * directive) * list Z.
Definition body_chrs (items : list (list Z * directive)) : list Z := concat ((λ '(t, d), t ++ dir_chrs d) <$> items).
Definition format_chrs (f : format) : list Z := body_chrs (f.1) ++ f.2.
Definition text_ok (t : list Z) : bool := forallb (λ c, bool_decide (c ≠ ch "%" ∧ c ≠ 0)) t.
Definition format_ok (f : format) : bool := forallb (λ '(t, d), text_ok t && dir_ok d) (f.1) && text_ok (f.2).

(** ** The specifications of a format *)
Definition dir_flags (d : conv_dir) : Z :=
  let flags := foldl (λ f c, Z.lor f (default 0 (fmt_flag c))) 0 (d_flags d) in
  let flags := match d_prec d with Num_none => flags | _ => Z.lor flags PREC_USR end in
  match d_conv d with Conv_d | Conv_i => Z.lor flags SIGN | Conv_X => Z.lor flags LARGE | _ => flags end.
Definition dir_base (k : conversion) : Z := match k with Conv_x | Conv_X => 16 | Conv_o => 8 | _ => 10 end.
Definition num_lit (d : dir_num) : Z := match d with Num_lit n => n | _ => 0 end.
Definition num_param (d : dir_num) (params : Z) : Z * Z :=
  match d with Num_star => (params + 1, params + 1) | _ => (0, params) end.
Definition has_width (d : conv_dir) : bool := match d_width d with Num_none => false | _ => true end.
(** The specification of a conversion after [params] parameters, and the
    number of parameters after it *)
Definition dir_spec (d : conv_dir) (params : Z) : fmt_spec * Z :=
  let '(wp, params) := num_param (d_width d) params in
  let '(pp, params) := num_param (d_prec d) params in
  (mkSpec (U_ptr None) (conv_chr (d_conv d)) (dir_base (d_conv d)) (d_type d) (dir_flags d) (num_lit (d_width d)) (num_lit (d_prec d))
     (params + 1) wp pp None (has_width d) false, params + 1).

Definition text_spec (p : pointer) (t : list Z) (more : bool) : list fmt_spec :=
  match t with
  | [] => []
  | _ => [mkSpec (U_ptr (Some p)) (ch "s") 10 FMT_UINT (if more then PREC_USR else 0) 0 (if more then zlen t else 0) 0 0 0 None false false]
  end.
Definition percent_spec : fmt_spec := mkSpec (U_num (ch "%")) (ch "c") 10 FMT_UINT 0 0 0 0 0 0 None false false.
Definition directive_spec (d : directive) (params : Z) : fmt_spec * Z :=
  match d with Dir_percent => (percent_spec, params) | Dir_conv d => dir_spec d params end.
(** [p] is where the text is. *)
Fixpoint format_specs (p : pointer) (params : Z) (items : list (list Z * directive)) (tail : list Z) : list fmt_spec :=
  match items with
  | [] => text_spec p tail false
  | (t, d) :: items =>
    let '(spec, params) := directive_spec d params in
    text_spec p t true ++ spec :: format_specs (ptr_add p (zlen t + zlen (dir_chrs d))) params items tail
  end.
Fixpoint format_params (params : Z) (items : list (list Z * directive)) : Z :=
  match items with [] => params | (_, d) :: items => format_params ((directive_spec d params).2) items end.

(** ** Numbers in a format *)
Lemma flag_not_digit c : is_Some (fmt_flag c) → c = ch "0" ∨ is_digit c = false.
Proof.
  unfold fmt_flag. intros H.
  repeat (case_decide; [match goal with E : c = _ |- _ => rewrite E end; first [by left|right; by vm_compute]|]). by destruct H.
Qed.
Lemma is_digit_chr d : 0 ≤ d < 10 → is_digit (digit_chr d) = true.
Proof. intros H. unfold is_digit, digit_chr. rewrite decide_True by lia. apply bool_decide_eq_true. change (ch "0") with 0x30. change (ch "9") with 0x39. lia. Qed.
Lemma foldl_digits ds : Forall (λ d, 0 ≤ d < 10) ds → ∀ v,
  foldl (λ v c, v * 10 + (c - ch "0")) v (digit_chr <$> ds) = fold_left (λ v d, v * 10 + d) ds v.
Proof.
  induction 1 as [|d ds Hd Hds IH]; intros v; [done|]. cbn [fmap list_fmap foldl fold_left]. rewrite IH. f_equal.
  unfold digit_chr. rewrite decide_True by lia. change (ch "0") with 0x30. lia.
Qed.
Lemma count_while_stop {A} (p : A → bool) l k : Forall (λ x, p x = true) l → (∀ x k', k = x :: k' → p x = false) → count_while p (l ++ k) = zlen l.
Proof.
  intros Hl Hk. induction Hl as [|x l Hx Hl IH]; cbn [app count_while].
  - destruct k as [|x k]; [done|]. cbn. by rewrite (Hk x k).
  - rewrite Hx, IH, length_cons. lia.
Qed.
Lemma next_chr_not (p : Z → bool) l : p (next_chr l) = false → ∀ x k, l = x :: k → p x = false.
Proof. by intros H x k ->. Qed.
Lemma fmt_strtol_spec n l : 0 ≤ n < 2 ^ 31 → is_digit (next_chr l) = false → fmt_strtol (num_chrs 10 n ++ l) = (n, l).
Proof.
  intros Hn Hl. destruct (digits_spec 10 ltac:(lia) n ltac:(lia)) as (Hv&Hds&_). unfold fmt_strtol, num_chrs.
  rewrite count_while_stop; [|apply Forall_fmap; eapply Forall_impl; [exact Hds|]; intros d Hd; by apply is_digit_chr|by apply next_chr_not].
  rewrite ztake_app_len, zdrop_app_len, foldl_digits by done. unfold num_value in Hv. rewrite Hv. f_equal. rewrite Z.min_l by lia.
  unfold swrap, uwrap. rewrite Z.mod_small by lia. cbn. rewrite decide_True by lia. done.
Qed.
Lemma num_chrs_digit n l : 0 ≤ n → is_digit (next_chr (num_chrs 10 n ++ l)) = true.
Proof.
  intros Hn. destruct (digits_spec 10 ltac:(lia) n Hn) as (_&Hds&d&ds&E&_). unfold num_chrs. rewrite E in *. inversion Hds; subst. by apply is_digit_chr.
Qed.

(** ** Reading a conversion *)
(** What can follow a width or a precision *)
Definition quiet (l : list Z) : bool :=
  let c := next_chr l in
  bool_decide (fmt_flag c = None) && negb (is_digit c) && bool_decide (c ≠ ch "*" ∧ c ≠ ch "." ∧ c ≠ ch "$" ∧ c ≠ ch "%").
Lemma quiet_spec l : quiet l = true → fmt_flag (next_chr l) = None ∧ is_digit (next_chr l) = false ∧
  next_chr l ≠ ch "*" ∧ next_chr l ≠ ch "." ∧ next_chr l ≠ ch "$" ∧ next_chr l ≠ ch "%".
Proof.
  unfold quiet. intros [[H1%bool_decide_eq_true H2%negb_true_iff]%andb_prop H3%bool_decide_eq_true]%andb_prop. by split_and!; try apply H3.
Qed.
Lemma quiet_tail t k l : quiet (type_chrs t ++ conv_chr k :: l) = true.
Proof. by destruct t, k; vm_compute. Qed.

Definition set_prec (d : dir_num) (params : Z) (spec : fmt_spec) : fmt_spec :=
  match d with
  | Num_none => spec | Num_lit n => fs_set_precision n (fs_add_flag PREC_USR spec)
  | Num_star => fs_set_prec_param (params + 1) (fs_add_flag PREC_USR spec)
  end.
Definition set_width (d : dir_num) (params : Z) (spec : fmt_spec) : fmt_spec :=
  match d with
  | Num_none => spec | Num_lit n => fs_set_width n spec
  | Num_star => fs_set_width_param (params + 1) (fs_set_width (fs_field_width spec) spec)
  end.
Lemma u32_small n : 0 ≤ n ≤ UINT_MAX → u32 n = n.
Proof. unfold UINT_MAX. intros. apply u32_id. lia. Qed.
Lemma fmt_star_spec l params : is_digit (next_chr l) = false → next_chr l ≠ ch "$" → 0 ≤ params < UINT_MAX →
  fmt_star l params = (l, params + 1, params + 1).
Proof. intros H1 H2 H3. unfold fmt_star. rewrite H1. rewrite decide_False by done. by rewrite !u32_small by lia. Qed.
Lemma fmt_precision_spec d l spec params dollars : quiet l = true → num_ok 0 d = true → 0 ≤ params < UINT_MAX →
  fmt_precision (mkSS (prec_text d ++ l) spec params dollars) = mkSS l (set_prec d params spec) (num_param d params).2 dollars.
Proof.
  intros (Hf&Hd&Hst&Hdot&Hdol&_)%quiet_spec Hn Hp. destruct d as [|n|]; cbn [prec_text num_text app].
  - unfold fmt_precision. by rewrite decide_False.
  - unfold num_ok in Hn. apply bool_decide_eq_true in Hn. unfold fmt_precision.
    rewrite decide_True by done. cbn [drop]. rewrite drop_0.
    rewrite num_chrs_digit by lia. rewrite fmt_strtol_spec by done.
    rewrite u32_small by (unfold UINT_MAX; lia). done.
  - unfold fmt_precision. rewrite decide_True by done. cbn [drop]. rewrite drop_0. change (is_digit (next_chr (ch "*" :: l))) with false. cbn iota.
    rewrite decide_True by done. cbn [drop]. rewrite ?drop_0, fmt_star_spec by done. done.
Qed.
Lemma fmt_width_spec d l spec params dollars : is_digit (next_chr l) = false → next_chr l ≠ ch "*" → next_chr l ≠ ch "$" →
  num_ok 1 d = true → 0 ≤ params < UINT_MAX →
  fmt_width (mkSS (num_text d ++ l) spec params dollars) = mkSS l (set_width d params spec) (num_param d params).2 dollars.
Proof.
  intros Hd Hst Hdol Hn Hp. destruct d as [|n|]; cbn [num_text app]; unfold fmt_width.
  - by rewrite Hd, decide_False.
  - unfold num_ok in Hn. apply bool_decide_eq_true in Hn. rewrite num_chrs_digit by lia. rewrite fmt_strtol_spec by (done || lia).
    rewrite u32_small by (unfold UINT_MAX; lia). done.
  - change (is_digit (next_chr (ch "*" :: l))) with false. cbn iota. rewrite decide_True by done. cbn [drop].
    rewrite ?drop_0, fmt_star_spec by done. done.
Qed.
Definition add_flags (l : list Z) (spec : fmt_spec) : fmt_spec := foldl (λ s c, fs_add_flag (default 0 (fmt_flag c)) s) spec l.
Lemma fmt_flags_spec fl l : ∀ spec, Forall (λ c, is_Some (fmt_flag c)) fl → fmt_flag (next_chr l) = None →
  fmt_flags (fl ++ l) spec = (l, add_flags fl spec).
Proof.
  induction fl as [|c fl IH]; intros spec Hfl Hl; cbn [app fmt_flags add_flags foldl].
  - destruct l as [|c l]; [done|]. cbn in *. by rewrite Hl.
  - inversion Hfl as [|? ? [f Hc]]; subst. rewrite Hc. cbn. by apply IH.
Qed.
Lemma prec_text_head d l : quiet l = true →
  let k := prec_text d ++ l in fmt_flag (next_chr k) = None ∧ is_digit (next_chr k) = false ∧ next_chr k ≠ ch "*" ∧ next_chr k ≠ ch "$".
Proof. intros Hq%quiet_spec. destruct d; [split_and!; apply Hq|by split_and!; vm_compute..]. Qed.

Lemma num_chrs_no_flag n l : 1 ≤ n → fmt_flag (next_chr (num_chrs 10 n ++ l)) = None ∧ next_chr (num_chrs 10 n ++ l) ≠ ch "0".
Proof.
  intros Hn. pose proof (num_chrs_digit n l ltac:(lia)) as Hd. destruct (num_chrs_head 10 n ltac:(lia) Hn) as (c&cs&E&Hc&_).
  rewrite E in *. cbn [app next_chr head default] in *. assert (H0 : c ≠ ch "0") by done. split; [|done].
  destruct (fmt_flag c) as [f|] eqn:Ef; [|done]. destruct (flag_not_digit c ltac:(eauto)) as [|E']; [done|]. cbn in Hd. congruence.
Qed.
Lemma vstr__add_fmt_spec_spec d l spec params : dir_ok (Dir_conv d) = true → quiet l = true → 0 ≤ params → params + 2 ≤ UINT_MAX →
  vstr__add_fmt_spec (mkSS (d_flags d ++ num_text (d_width d) ++ prec_text (d_prec d) ++ l) spec params false) =
  let p1 := (num_param (d_width d) params).2 in
  mkSS l (set_prec (d_prec d) p1 (set_width (d_width d) params (add_flags (d_flags d) spec))) (num_param (d_prec d) p1).2 false.
Proof.
  intros [[[Hfl Hw]%andb_prop Hp]%andb_prop _]%andb_prop Hq Hp0 Hp1. destruct d as [fl w p ty k]. cbn [d_flags d_width d_prec d_type d_conv] in *.
  assert (Hf : Forall (λ c, is_Some (fmt_flag c)) fl).
  { apply Forall_forall. intros c Hc. rewrite forallb_forall in Hfl. apply list_elem_of_In in Hc. by apply Hfl, bool_decide_eq_true in Hc. }
  clear Hfl. destruct (prec_text_head p l Hq) as (Hk1&Hk2&Hk3&Hk4). set (k2 := prec_text p ++ l) in *.
  assert (Hnp : 0 ≤ (num_param w params).2 < UINT_MAX) by (destruct w; cbn; lia).
  assert (Hprec : ∀ spec, fmt_precision (mkSS k2 spec (num_param w params).2 false) =
    mkSS l (set_prec p (num_param w params).2 spec) (num_param p (num_param w params).2).2 false) by (intros; by apply fmt_precision_spec).
  assert (Hlong : is_digit (next_chr (fl ++ num_text w ++ k2)) && bool_decide (next_chr (fl ++ num_text w ++ k2) ≠ ch "0") = false →
    fmt_flag (next_chr (num_text w ++ k2)) = None →
    vstr__add_fmt_spec (mkSS (fl ++ num_text w ++ k2) spec params false) =
    mkSS l (set_prec p (num_param w params).2 (set_width w params (add_flags fl spec))) (num_param p (num_param w params).2).2 false).
  { intros Hc Hflag. unfold vstr__add_fmt_spec. destruct (fmt_strtol _) as [n rest]. rewrite Hc. cbn [andb]. cbn [ss_fmt ss_spec ss_params ss_dollars].
    rewrite fmt_flags_spec by done. rewrite fmt_width_spec by (done || lia). apply Hprec. }
  destruct fl as [|c fl].
  - cbn [app] in *. destruct w as [|n|]; [apply Hlong; [cbn [num_text app]; by rewrite Hk2|done]| |by apply Hlong].
    unfold num_ok in Hw. apply bool_decide_eq_true in Hw. cbn [num_text] in *.
    destruct (num_chrs_no_flag n k2 ltac:(lia)) as [_ H0]. unfold vstr__add_fmt_spec.
    rewrite num_chrs_digit, (bool_decide_eq_true_2 (next_chr _ ≠ ch "0")) by (done || lia). rewrite fmt_strtol_spec by (done || lia).
    rewrite (bool_decide_eq_true_2 (next_chr k2 ≠ ch "$")) by done. cbn [andb]. rewrite u32_small by (unfold UINT_MAX; lia). apply Hprec.
  - apply Hlong.
    + inversion Hf; subst. cbn [app next_chr head default]. destruct (flag_not_digit c) as [->|E]; [done|done|]. by cbn; rewrite E.
    + destruct w as [|n|]; [done| |done]. unfold num_ok in Hw. apply bool_decide_eq_true in Hw. apply num_chrs_no_flag. lia.
Qed.

Definition flags_of (l : list Z) : Z := foldl (λ f c, Z.lor f (default 0 (fmt_flag c))) 0 l.
Lemma add_flags_init fl : add_flags fl vstr__fmt_init_spec = fs_set_flags (flags_of fl) vstr__fmt_init_spec.
Proof.
  assert (H : ∀ f spec, fs_flags spec = f → add_flags fl spec = fs_set_flags (foldl (λ f c, Z.lor f (default 0 (fmt_flag c))) f fl) spec).
  { unfold add_flags. induction fl as [|c fl IH]; intros f spec <-; cbn [foldl]; [by destruct spec|]. rewrite (IH (Z.lor (fs_flags spec) (default 0 (fmt_flag c)))).
    - by destruct spec.
    - by destruct spec. }
  by apply H.
Qed.
Lemma fmt_int_type_spec t k l : type_ok k t = true → fmt_int_type (type_chrs t ++ conv_chr k :: l) = (t, conv_chr k :: l).
Proof. by destruct t, k. Qed.
Lemma fmt_conversion_spec d params :
  dir_ok (Dir_conv d) = true → 0 ≤ params → params + 3 ≤ UINT_MAX →
  let p1 := (num_param (d_width d) params).2 in
  let spec := set_prec (d_prec d) p1 (set_width (d_width d) params (add_flags (d_flags d) vstr__fmt_init_spec)) in
  fmt_conversion (conv_chr (d_conv d)) (if decide (d_type d = FMT_UINT) then spec else fs_set_type (d_type d) spec) =
  Some (fs_set_main 0 (dir_spec d params).1).
Proof.
  intros [_ Ht]%andb_prop Hp0 Hp1 p1 spec. unfold spec, p1, dir_spec, dir_flags, has_width.
  destruct d as [fl w p t k]. cbn [d_flags d_width d_prec d_type d_conv] in *. rewrite add_flags_init. fold (flags_of fl). generalize (flags_of fl) as f. intros f.
  assert (Hc : ∀ k' s, fmt_conversion (conv_chr k') s = Some
    (let s := fs_set_code (conv_chr k') s in let long := bool_decide (fs_int_type s = FMT_ULONG) in
     match k' with
     | Conv_c => if long then fs_set_code (ch "C") s else s | Conv_s => if long then fs_set_code (ch "S") s else s
     | Conv_d | Conv_i => fs_add_flag SIGN s | Conv_u => s | Conv_x => fs_set_base 16 s
     | Conv_X => fs_set_base 16 (fs_add_flag LARGE s) | Conv_o => fs_set_base 8 s end)) by (by intros []).
  rewrite Hc. f_equal. clear Hc. destruct k; destruct t; try (by cbn in Ht); destruct w, p; reflexivity.
Qed.
Lemma dir_spec_main d params : fs_main_param (dir_spec d params).1 = (dir_spec d params).2.
Proof. unfold dir_spec. by destruct d as [? [] [] ? ?]. Qed.
Lemma dir_spec_params d params : (dir_spec d params).2 = (num_param (d_prec d) (num_param (d_width d) params).2).2 + 1.
Proof. unfold dir_spec. by destruct d as [? [] [] ? ?]. Qed.
Lemma set_main_main spec n : fs_main_param (fs_set_main n spec) = n.
Proof. by destruct spec. Qed.
Lemma set_main_set spec n m : fs_set_main n (fs_set_main m spec) = fs_set_main n spec.
Proof. by destruct spec. Qed.
Lemma set_main_self spec n : fs_set_main (fs_main_param spec) (fs_set_main n spec) = spec.
Proof. by destruct spec. Qed.

(** ** Reading a format *)
(** One round of the loop when there is no escape of the user, without the allocation *)
Definition sys_step (fmt_at : pointer) (c : Z) (s : parse_state) : parse_state :=
  if decide (c ≠ ch "%") then fmt_text fmt_at 0 s
  else if decide (next_chr (drop 1 (ps_fmt s)) = c) then
    ps_at (drop 2 (ps_fmt s)) (vstr__fmt_mv_spec (fs_set_u (U_num c) (fs_set_code (ch "c") vstr__fmt_init_spec)) false s)
  else
    let r := vstr__add_fmt_spec (mkSS (drop 1 (ps_fmt s)) vstr__fmt_init_spec (ps_params s) (ps_dollars s)) in
    fmt_sys_escape (ss_spec r) (ps_set_params (ss_params r) (ss_dollars r) (ps_at (ss_fmt r) s)).
Fixpoint sys_specs (fuel : nat) (fmt_at : pointer) (s : parse_state) : option parse_state :=
  match ps_fmt s, fuel with
  | [], _ => Some s
  | _, O => None
  | c :: _, S fuel => sys_specs fuel fmt_at (ps_set_make 0 (sys_step fmt_at c s))
  end.

Lemma sys_step_directive fmt_at d rest off sp params nm : dir_ok d = true → 0 ≤ params → params + 3 ≤ UINT_MAX →
  ps_set_make 0 (sys_step fmt_at (ch "%") (mkPS (dir_chrs d ++ rest) off sp 0 params false nm)) =
  mkPS rest (off + zlen (dir_chrs d)) (sp ++ [(directive_spec d params).1]) 0 (directive_spec d params).2 false nm.
Proof.
  intros Hd Hp0 Hp1. unfold sys_step. rewrite decide_False by (intros H; by apply H). destruct d as [|d].
  - cbn [dir_chrs app ps_fmt drop next_chr head default]. rewrite decide_True by done. cbn [vstr__fmt_mv_spec andb ps_at ps_set_make pred].
    rewrite drop_0. f_equal. rewrite !length_cons. cbn [length]. lia.
  - cbn [dir_chrs app]. rewrite <- !app_assoc. cbn [app ps_fmt drop]. rewrite drop_0.
    assert (Hq : quiet (type_chrs (d_type d) ++ conv_chr (d_conv d) :: rest) = true) by apply quiet_tail.
    cbn [app]. set (k := type_chrs (d_type d) ++ _) in *.
    set (r := d_flags d ++ _). rewrite decide_False.
    2:{ unfold r. pose proof Hd as [[[Hfl Hw]%andb_prop _]%andb_prop _]%andb_prop. destruct (d_flags d) as [|c fl].
      - destruct (d_width d) as [|n|]; [|cbn [num_text]|done].
        + destruct (d_prec d); [|done..]. apply quiet_spec in Hq as (_&_&_&_&_&Hq). exact Hq.
        + apply bool_decide_eq_true in Hw. intros E. pose proof (num_chrs_digit n (prec_text (d_prec d) ++ k) ltac:(lia)) as H.
          cbn [app] in E. by rewrite E in H.
      - cbn. intros ->. by cbn in Hfl. }
    cbn [ps_params ps_dollars]. unfold r. rewrite vstr__add_fmt_spec_spec by (done || lia). cbv zeta. cbn [ss_spec ss_params ss_dollars ss_fmt ps_at ps_set_params].
    unfold fmt_sys_escape. cbn [ps_fmt]. unfold k. rewrite fmt_int_type_spec by (by apply andb_prop in Hd as [_ ?]).
    change (next_chr (conv_chr (d_conv d) :: rest)) with (conv_chr (d_conv d)). rewrite fmt_conversion_spec by (done || lia). cbn [drop]. rewrite drop_0.
    cbn [vstr__fmt_mv_spec andb]. rewrite bool_decide_eq_true_2 by apply set_main_main. cbn [ps_at ps_set_make].
    cbn [directive_spec]. rewrite dir_spec_params, u32_small.
    2:{ destruct (d_width d), (d_prec d); cbn; lia. }
    rewrite <- dir_spec_params, <- (dir_spec_main d params), set_main_self. rewrite dir_spec_main. f_equal. repeat (rewrite ?length_app, ?length_cons; cbn [length]). lia.
Qed.

Lemma text_ok_spec t : text_ok t = true ↔ Forall (λ c, c ≠ ch "%" ∧ c ≠ 0) t.
Proof.
  unfold text_ok. rewrite Forall_forall, forallb_forall. split.
  - intros H c Hc. apply list_elem_of_In in Hc. apply H in Hc. by apply bool_decide_eq_true in Hc.
  - intros H c Hc. apply list_elem_of_In in Hc. apply bool_decide_eq_true. by apply H.
Qed.
Lemma count_text t rest : text_ok t = true → (∀ c k, rest = c :: k → c = ch "%") →
  count_while (λ c, bool_decide (c ≠ ch "%" ∧ (0 = 0 ∨ c ≠ 0))) (t ++ rest) = zlen t.
Proof.
  intros Ht%text_ok_spec Hr. apply count_while_stop.
  - eapply Forall_impl; [exact Ht|]. intros c [Hc _]. apply bool_decide_eq_true. split; [done|by left].
  - intros c k E. apply Hr in E as ->. by apply bool_decide_eq_false; intros [].
Qed.
Lemma sys_step_text fmt_at c t rest off sp params nm :
  text_ok (c :: t) = true → (∀ x k, rest = x :: k → x = ch "%") → zlen (c :: t) ≤ UINT_MAX →
  ps_set_make 0 (sys_step fmt_at c (mkPS ((c :: t) ++ rest) off sp 0 params false nm)) =
  mkPS rest (off + zlen (c :: t)) (sp ++ text_spec (ptr_add fmt_at off) (c :: t) (bool_decide (rest ≠ []))) 0 params false nm.
Proof.
  intros Ht Hr Hlen. unfold sys_step. pose proof Ht as Hc%text_ok_spec. inversion_clear Hc as [|? ? [Hc0 _] _]. rewrite decide_True by done.
  unfold fmt_text. cbn [ps_fmt ps_off]. rewrite count_text by done. rewrite zdrop_app_len.
  cbn [vstr__fmt_mv_spec andb ps_at ps_set_make pred ps_fmt]. f_equal; [rewrite length_app; lia|]. f_equal. cbn [text_spec]. rewrite u32_small by lia.
  rewrite length_app. destruct rest as [|x k].
  - rewrite decide_False by (cbn [length]; lia). by rewrite bool_decide_eq_false_2 by (intros H; by apply H).
  - rewrite decide_True by (cbn [length]; lia). by rewrite bool_decide_eq_true_2 by done.
Qed.

Lemma sys_specs_step fuel fmt_at s c l : ps_fmt s = c :: l → sys_specs (S fuel) fmt_at s = sys_specs fuel fmt_at (ps_set_make 0 (sys_step fmt_at c s)).
Proof. intros E. cbn [sys_specs]. by rewrite E. Qed.
(** A piece of text takes one round, or none when it is empty. *)
Lemma sys_specs_text fuel fmt_at t rest off sp params nm :
  text_ok t = true → (∀ x k, rest = x :: k → x = ch "%") → zlen t ≤ UINT_MAX → (length (t ++ rest) ≤ fuel)%nat →
  ∃ fuel', (length rest ≤ fuel')%nat ∧ sys_specs fuel fmt_at (mkPS (t ++ rest) off sp 0 params false nm) =
    sys_specs fuel' fmt_at (mkPS rest (off + zlen t) (sp ++ text_spec (ptr_add fmt_at off) t (bool_decide (rest ≠ []))) 0 params false nm).
Proof.
  intros Ht Hr Hlen Hf. destruct t as [|c t].
  - exists fuel. split; [done|]. cbn [app text_spec length]. rewrite app_nil_r. by replace (off + Z.of_nat 0) with off by lia.
  - rewrite length_app, length_cons in Hf. destruct fuel as [|fuel]; [lia|]. exists fuel. split; [lia|].
    rewrite (sys_specs_step _ _ _ c (t ++ rest)) by done. by rewrite sys_step_text.
Qed.
Lemma dir_chrs_head d : ∃ l, dir_chrs d = ch "%" :: l.
Proof. destruct d; by eexists. Qed.
Lemma directive_params d params : params ≤ (directive_spec d params).2 ≤ params + 3.
Proof. destruct d as [|d]; [cbn; lia|]. cbn [directive_spec]. rewrite dir_spec_params. destruct (d_width d), (d_prec d); cbn; lia. Qed.

Lemma sys_specs_format fmt_at nm items tail : ∀ fuel off sp params,
  format_ok (items, tail) = true → zlen (format_chrs (items, tail)) ≤ UINT_MAX → 0 ≤ params → params + 3 * zlen items ≤ UINT_MAX →
  (length (format_chrs (items, tail)) ≤ fuel)%nat →
  sys_specs fuel fmt_at (mkPS (format_chrs (items, tail)) off sp 0 params false nm) =
  Some (mkPS [] (off + zlen (format_chrs (items, tail))) (sp ++ format_specs (ptr_add fmt_at off) params items tail) 0
    (format_params params items) false nm).
Proof.
  induction items as [|[t d] items IH]; intros fuel off sp params Hok Hlen Hp0 Hp Hf; unfold format_chrs, body_chrs in *; cbn [fst snd fmap list_fmap concat app] in *.
  - cbn in Hok. destruct (sys_specs_text fuel fmt_at tail [] off sp params nm) as (fuel'&_&E); [done|done|lia|by rewrite app_nil_r|].
    rewrite app_nil_r in E. rewrite E. by destruct fuel'.
  - unfold format_ok in *. cbn [fst snd forallb] in *. apply andb_prop in Hok as [[[Ht Hd]%andb_prop Hit]%andb_prop Htail].
    rewrite <- !app_assoc in *. set (rest := concat _ ++ tail) in *. rewrite !length_app in Hlen, Hf. destruct (dir_chrs_head d) as (l&El).
    destruct (sys_specs_text fuel fmt_at t (dir_chrs d ++ rest) off sp params nm) as (fuel1&Hf1&E).
    { done. } { intros x k. rewrite El. by intros [= <- _]. } { lia. } { rewrite !length_app. lia. }
    rewrite E. rewrite bool_decide_eq_true_2 by by rewrite El. clear E.
    assert (Hl1 : (1 ≤ length (dir_chrs d))%nat) by (rewrite El; cbn; lia). rewrite length_app in Hf1. destruct fuel1 as [|fuel1]; [lia|].
    rewrite (sys_specs_step _ _ _ (ch "%") (l ++ rest)) by (cbn [ps_fmt]; by rewrite El).
    rewrite length_cons in Hp. rewrite sys_step_directive by (done || lia). pose proof (directive_params d params).
    rewrite (IH fuel1); [|by rewrite Hit|lia|lia|lia|lia]. cbn [format_specs format_params]. destruct (directive_spec d params) as [spec params'].
    cbn [fst snd]. rewrite <- !app_assoc. cbn [app]. rewrite !ptr_add_add, !length_app. f_equal. f_equal; [lia|]. do 3 f_equal. f_equal. f_equal. lia.
Qed.
