(* ===== verification/FmtText.v ===== *)
(** * Formatted output: the arguments of a format, the text it stands for, and
    that writing its specifications writes this text. *)
From Stdlib Require Import ZArith Lia ZifyBool Ascii.
From stdpp Require Import base tactics list numbers option gmap.
From S2P Require Import Prelude State Wp Ref Cache Core Base Add Del Iter Spn Parse Inv SpnSpec PosLemmas SpareLemmas SplitLemmas CacheLemmas AddLemmas StringLemmas AddSpec AddOps AddTheorems DelTheorems DelAtomic SubSpec AddVstrSpec ParseSpec Fmt FmtUsr FmtParse Puts FmtSpec FmtRead.

(** ** Taking the parameters in order *)
(** The parameters a specification still needs *)
Definition slots (spec : fmt_spec) : list Z :=
  filter (λ n, n ≠ 0) [fs_field_width_param spec; fs_precision_param spec; fs_main_param spec].
Definition fill_part (f : Z → fmt_spec → option fmt_val → list va_arg → option (fmt_spec * option fmt_val * list va_arg * bool))
    (n : Z) (spec : fmt_spec) (args : list va_arg) : option (fmt_spec * list va_arg) :=
  if decide (n = 0) then Some (spec, args) else '(spec, _, args, _) ← f n spec None args; Some (spec, args).
Definition fill_one (spec : fmt_spec) (args : list va_arg) : option (fmt_spec * list va_arg) :=
  '(spec, args) ← fill_part fill_width (fs_field_width_param spec) spec args;
  '(spec, args) ← fill_part fill_precision (fs_precision_param spec) spec args;
  fill_part fill_main (fs_main_param spec) spec args.
Fixpoint fill_seq (specs : list fmt_spec) (args : list va_arg) : option (list fmt_spec * list va_arg) :=
  match specs with
  | [] => Some ([], args)
  | spec :: specs => '(spec, args) ← fill_one spec args; '(specs, args) ← fill_seq specs args; Some (spec :: specs, args)
  end.

Lemma slots_nil spec : slots spec = [] → fs_field_width_param spec = 0 ∧ fs_precision_param spec = 0 ∧ fs_main_param spec = 0.
Proof.
  destruct spec as [u c b t f w p m wp pp us wu eu]. unfold slots. cbn [fs_field_width_param fs_precision_param fs_main_param]. intros H.
  assert (HF : Forall (λ n, n = 0) [wp; pp; m]).
  { apply Forall_forall. intros n Hn. destruct (decide (n = 0)) as [|H0]; [done|].
    assert (Hf : n ∈ filter (λ n, n ≠ 0) [wp; pp; m]) by (by apply list_elem_of_filter). rewrite H in Hf. by apply elem_of_nil in Hf. }
  by rewrite !Forall_cons in HF; destruct HF as (?&?&?&_).
Qed.
Lemma fill_none spec args : slots spec = [] → fill_one spec args = Some (spec, args).
Proof. intros (H1&H2&H3)%slots_nil. destruct spec. cbn in H1, H2, H3. by subst. Qed.
Lemma not_wanted spec : slots spec = [] → wants spec = false.
Proof. intros (H1&H2&H3)%slots_nil. apply bool_decide_eq_false. rewrite H1, H2, H3. tauto. Qed.
Lemma wanted spec n l : slots spec = n :: l → wants spec = true.
Proof.
  intros H. apply bool_decide_eq_true. destruct spec as [u c b t f w p m wp pp us wu eu]. unfold slots in H. cbn [fs_field_width_param fs_precision_param fs_main_param] in *.
  destruct (decide (wp = 0)) as [->|]; [|by left].
  destruct (decide (pp = 0)) as [->|]; [|by right; left]. destruct (decide (m = 0)) as [->|]; [done|by right; right].
Qed.

Lemma fill_part_0 f spec args : fill_part f 0 spec args = Some (spec, args).
Proof. done. Qed.
Lemma fill_part_hit f n spec args : n ≠ 0 → fill_part f n spec args = '(spec, _, args, _) ← f n spec None args; Some (spec, args).
Proof. intros H. unfold fill_part. by rewrite decide_False. Qed.

Lemma fill_width_miss n spec u args : n ≠ fs_field_width_param spec → fill_width n spec u args = Some (spec, u, args, false).
Proof. intros H. unfold fill_width. by rewrite decide_False. Qed.
Lemma fill_precision_miss n spec u args : n ≠ fs_precision_param spec → fill_precision n spec u args = Some (spec, u, args, false).
Proof. intros H. unfold fill_precision. by rewrite decide_False. Qed.
Lemma fill_main_miss n spec u args : n ≠ fs_main_param spec → fill_main n spec u args = Some (spec, u, args, false).
Proof. intros H. unfold fill_main. by rewrite decide_False. Qed.

(** The first parameter that a specification needs is taken, and no more. *)
Ltac bind_step := cbn [mbind option_bind negb andb fs_field_width_param fs_precision_param fs_main_param].
Lemma fill_first count spec specs l args res : 1 ≤ count → slots spec = count :: l → fill_one spec args = Some res →
  ∃ spec1 v args1, fill_pass count false (spec :: specs) None args = Some (spec1 :: specs, Some v, args1) ∧
    slots spec1 = l ∧ fill_one spec1 args1 = Some res.
Proof.
  intros Hc Hs Hf. destruct spec as [u c b t f w p m wp pp us wu eu]. unfold slots in Hs. cbn [fs_field_width_param fs_precision_param fs_main_param] in Hs.
  unfold fill_one in Hf. cbn [fs_field_width_param] in Hf. cbn [fill_pass].
  destruct (decide (wp = 0)) as [->|Hw].
  2:{ rewrite filter_cons_True in Hs by done. injection Hs as -> Hs. rewrite fill_part_hit in Hf by done. unfold fill_width in Hf |- * at 1.
      cbn [fs_field_width_param] in *. rewrite decide_True in Hf |- * by done.
      destruct (fmt_fetch_int None args) as [[[n v] args1]|]; [|done]. cbn [mbind option_bind] in Hf |- *. bind_step.
      eexists _, v, args1. split; [done|]. case_decide; (split; [exact Hs|exact Hf]). }
  rewrite filter_cons_False in Hs by (intros X; by apply X). rewrite fill_part_0 in Hf. cbn [mbind option_bind fs_precision_param] in Hf.
  rewrite fill_width_miss by (cbn; lia). bind_step. destruct (decide (pp = 0)) as [->|Hpp].
  2:{ rewrite filter_cons_True in Hs by done. injection Hs as -> Hs. rewrite fill_part_hit in Hf by done. unfold fill_precision in Hf |- * at 1.
      cbn [fs_precision_param] in *. rewrite decide_True in Hf |- * by done.
      destruct (fmt_fetch_int None args) as [[[n v] args1]|]; [|done]. cbn [mbind option_bind] in Hf |- *. bind_step.
      eexists _, v, args1. split; [done|]. case_decide; (split; [exact Hs|exact Hf]). }
  rewrite filter_cons_False in Hs by (intros X; by apply X). rewrite fill_part_0 in Hf. cbn [mbind option_bind fs_main_param] in Hf.
  rewrite fill_precision_miss by (cbn; lia). bind_step. destruct (decide (m = 0)) as [->|Hm]; [by rewrite filter_cons_False in Hs by (intros X; by apply X)|].
  rewrite filter_cons_True in Hs by done. injection Hs as -> Hs. rewrite fill_part_hit in Hf by done. unfold fill_main in Hf |- * at 1.
  cbn [fs_main_param] in *. rewrite decide_True in Hf |- * by done.
  destruct (fmt_fetch _ args) as [[[v fl] args1]|]; [|done]. cbn [mbind option_bind] in Hf |- *. bind_step.
  injection Hf as <-. rewrite <- Hs. match goal with |- context [Some (?x :: specs, _, _)] => assert (Hx : slots x = []) by (by case_decide); exists x, v, args1 end.
  split_and!; [done|exact Hx|]. by apply fill_none.
Qed.

Lemma fill_pass_take count specs : ∀ l args res, 1 ≤ count → concat (slots <$> specs) = count :: l → fill_seq specs args = Some res →
  ∃ specs1 v args1, fill_pass count false specs None args = Some (specs1, Some v, args1) ∧
    concat (slots <$> specs1) = l ∧ fill_seq specs1 args1 = Some res ∧ length specs1 = length specs.
Proof.
  induction specs as [|spec specs IH]; intros l args res Hc Hs Hf; [done|]. cbn [fmap list_fmap concat] in Hs. cbn [fill_seq] in Hf.
  destruct (slots spec) as [|k ls] eqn:Es.
  - rewrite fill_none in Hf by done. cbn [mbind option_bind] in Hf. destruct (fill_seq specs args) as [[specs' rest]|] eqn:E; [|done].
    destruct (IH _ _ _ Hc Hs E) as (specs1&v&args1&E1&Hs1&Hf1&Hl). destruct (slots_nil _ Es) as (H1&H2&H3). cbn [fill_pass].
    rewrite fill_width_miss by lia. bind_step. rewrite fill_precision_miss by lia. bind_step. rewrite fill_main_miss by lia. bind_step. rewrite E1.
    bind_step. exists (spec :: specs1), v, args1. split; [done|]. cbn [fmap list_fmap concat length fill_seq]. rewrite Es, Hl. split; [done|]. split; [|done]. rewrite fill_none by done. bind_step. rewrite Hf1. done.
  - injection Hs as -> <-. destruct (fill_one spec args) as [[spec' args']|] eqn:E; [|done].
    destruct (fill_first count spec specs ls args _ Hc Es E) as (spec1&v&args1&E1&Hs1&Hf1). exists (spec1 :: specs), v, args1. split; [done|].
    cbn [fmap list_fmap concat length fill_seq]. rewrite Hs1, Hf1. done.
Qed.
Lemma existsb_wants specs : existsb wants specs = match concat (slots <$> specs) with [] => false | _ => true end.
Proof.
  induction specs as [|spec specs IH]; [done|]. cbn [existsb fmap list_fmap concat]. destruct (slots spec) as [|n l] eqn:E; [by rewrite not_wanted by done|by rewrite (wanted _ _ _ E)].
Qed.
Lemma fill_seq_none specs : ∀ args, concat (slots <$> specs) = [] → fill_seq specs args = Some (specs, args).
Proof.
  induction specs as [|spec specs IH]; intros args H; [done|]. cbn in H. apply app_eq_nil in H as [H1 H2]. cbn. rewrite fill_none by done. cbn. by rewrite IH.
Qed.
(** Parameters numbered in order are taken in order. *)
Lemma fillin_loop_seq n : ∀ fuel count nf specs args specs' rest,
  1 ≤ count → concat (slots <$> specs) = seqZ count (Z.of_nat n) → (nf = true → n = O) → (n ≤ fuel)%nat →
  fill_seq specs args = Some (specs', rest) → fillin_loop fuel count false nf specs args = Some (Some specs').
Proof.
  induction n as [|n IH]; intros fuel count nf specs args specs' rest Hc Hs Hnf Hfu Hf.
  - rewrite fill_seq_none in Hf by done. injection Hf as <- <-. destruct fuel; cbn [fillin_loop]; by rewrite existsb_wants, Hs.
  - rewrite seqZ_cons in Hs by lia. destruct fuel as [|fuel]; [lia|]. cbn [fillin_loop]. rewrite existsb_wants, Hs. cbn [negb].
    destruct nf; [by specialize (Hnf eq_refl)|]. destruct (fill_pass_take _ _ _ _ _ Hc Hs Hf) as (specs1&v&args1&->&Hs1&Hf1&_). bind_step.
    eapply IH; [lia| | |lia|exact Hf1].
    + rewrite Hs1. f_equal; lia.
    + by rewrite bool_decide_eq_false_2.
Qed.
Lemma slots_length specs : (length (concat (slots <$> specs)) ≤ 3 * length specs)%nat.
Proof.
  induction specs as [|spec specs IH]; [done|]. cbn [fmap list_fmap concat length]. rewrite length_app.
  assert (H : (length (slots spec) ≤ 3)%nat) by (unfold slots; etrans; [apply length_filter|done]). lia.
Qed.
Lemma vstr__fmt_fillin_spec_seq n specs args specs' rest :
  concat (slots <$> specs) = seqZ 1 n → fill_seq specs args = Some (specs', rest) → vstr__fmt_fillin_spec false specs args = Some (Some specs').
Proof.
  intros Hs Hf. pose proof (slots_length specs) as Hl. rewrite Hs, length_seqZ in Hl. unfold vstr__fmt_fillin_spec.
  destruct (decide (0 ≤ n)).
  - eapply (fillin_loop_seq (Z.to_nat n)); [done|by rewrite Z2Nat.id|done|lia|done].
  - eapply (fillin_loop_seq 0); [done| |done|lia|done]. rewrite Hs. unfold seqZ. by replace (Z.to_nat n) with O by lia.
Qed.

(** ** The parameters of a format *)
Lemma dir_slots d params : 0 ≤ params → slots (dir_spec d params).1 = seqZ (params + 1) ((dir_spec d params).2 - params).
Proof.
  intros Hp. destruct d as [fl w p t k]. unfold dir_spec, slots. cbn [d_width d_prec d_flags d_type d_conv].
  destruct w, p; cbn [num_param fst snd fs_field_width_param fs_precision_param fs_main_param];
    repeat first [rewrite filter_cons_True by lia|rewrite filter_cons_False by (intros X; by apply X)].
  all: match goal with |- _ = seqZ _ ?n => first [replace n with 1 by lia|replace n with 2 by lia|replace n with 3 by lia] end.
  all: repeat (rewrite seqZ_cons by lia); cbn; repeat f_equal; lia.
Qed.
Lemma text_slots p t more : concat (slots <$> text_spec p t more) = [].
Proof. by destruct t. Qed.
Lemma format_slots items tail : ∀ p params, 0 ≤ params →
  concat (slots <$> format_specs p params items tail) = seqZ (params + 1) (format_params params items - params) ∧
  params ≤ format_params params items.
Proof.
  induction items as [|[t d] items IH]; intros p params Hp; cbn [format_specs format_params].
  - rewrite text_slots. split; [|done]. by replace (params - params) with 0 by lia.
  - pose proof (directive_params d params) as Hd. destruct (directive_spec d params) as [spec params'] eqn:E. cbn [fst snd] in *.
    destruct (IH (ptr_add p (zlen t + zlen (dir_chrs d))) params' ltac:(lia)) as [IH1 IH2]. split; [|lia].
    rewrite fmap_app, concat_app, text_slots. cbn [app fmap list_fmap concat]. rewrite IH1.
    assert (Es : slots spec = seqZ (params + 1) (params' - params)).
    { destruct d as [|d]; cbn in E; [injection E as <- <-; by replace (params - params) with 0 by lia|].
      pose proof (dir_slots d params Hp) as H. unfold directive_spec in E. by rewrite E in H. }
    rewrite Es. replace (format_params params' items - params) with ((params' - params) + (format_params params' items - params')) by lia.
    rewrite seqZ_app by lia. do 2 f_equal. lia.
Qed.

(** ** The text of a directive *)
(** A '*': an int *)
Definition star_value (d : dir_num) (args : list va_arg) : option (option Z * list va_arg) :=
  match d, args with
  | Num_star, V_num 32 z :: args => Some (Some (swrap 32 z), args)
  | Num_star, _ => None
  | _, _ => Some (None, args)
  end.
Definition conv_signed (k : conversion) : bool := match k with Conv_d | Conv_i => true | _ => false end.
(** The value that is converted, and the flags of its sign *)
Definition dir_value (d : conv_dir) (a : va_arg) : option (fmt_val * Z) :=
  match d_conv d, a with
  | Conv_c, V_num 32 z => Some (U_num (uwrap 8 z), 0)
  | Conv_s, V_ptr p => Some (U_ptr p, 0)
  | (Conv_c | Conv_s), _ => None
  | k, V_num bits z =>
    if decide (bits = Z.max 32 (int_bits (d_type d)))
    then let '(u, f) := fmt_arg_num (d_type d) (conv_signed k) z in Some (U_num u, f) else None
  | _, _ => None
  end.
(** The specification with its arguments: a negative field width is a minus
    flag, a negative precision is none. *)
Definition dir_final (d : conv_dir) (w p : option Z) (u : fmt_val) (f : Z) : fmt_spec :=
  let flags := dir_flags d in
  let flags := if decide (default 0 w < 0) then Z.lor flags LEFT else flags in
  let flags := if decide (default 0 p < 0) then flag_off flags PREC_USR else flags in
  mkSpec u (conv_chr (d_conv d)) (dir_base (d_conv d)) (if decide (d_type d = FMT_PTRDIFF_T) then FMT_UINTMAX_T else d_type d) (Z.lor flags f)
    (match w with Some n => Z.abs n | None => num_lit (d_width d) end) (match p with Some n => Z.max 0 n | None => num_lit (d_prec d) end)
    0 0 0 None (has_width d) false.
Definition dir_fill (d : conv_dir) (args : list va_arg) : option (fmt_spec * list va_arg) :=
  '(w, args) ← star_value (d_width d) args;
  '(p, args) ← star_value (d_prec d) args;
  match args with [] => None | a :: args => '(u, f) ← dir_value d a; Some (dir_final d w p u f, args) end.
Definition spec_text (strs : option pointer → list Z) (spec : fmt_spec) : list Z :=
  match fs_u spec with
  | U_ptr p => cstr_text spec (strs p)
  | U_num n => if decide (fs_code spec = ch "c") then char_text spec n else number_text spec n
  | U_dbl _ => []
  end.
(** [strs] are the C strings the arguments point to. *)
Definition directive_text (strs : option pointer → list Z) (d : directive) (args : list va_arg) : option (list Z * list va_arg) :=
  match d with
  | Dir_percent => Some ([ch "%"], args)
  | Dir_conv d => '(spec, args) ← dir_fill d args; Some (spec_text strs spec, args)
  end.
Fixpoint format_text (strs : option pointer → list Z) (items : list (list Z * directive)) (tail : list Z) (args : list va_arg) : option (list Z) :=
  match items with
  | [] => Some tail
  | (t, d) :: items =>
    '(text, args) ← directive_text strs d args;
    rest ← format_text strs items tail args; Some (t ++ text ++ rest)
  end.
(** No field of a string is wider than its precision. *)
Fixpoint no_cut (items : list (list Z * directive)) (args : list va_arg) : bool :=
  match items with
  | [] => true
  | (_, Dir_percent) :: items => no_cut items args
  | (_, Dir_conv d) :: items =>
    match dir_fill d args with Some (spec, args) => negb (cstr_cut spec) && no_cut items args | None => true end
  end.

Lemma flag_lor a b m : flag (Z.lor a b) m = flag a m || flag b m.
Proof.
  unfold flag. rewrite Z.land_lor_distr_l.
  destruct (decide (Z.land a m = 0)) as [E1|E1].
  - rewrite E1. rewrite (bool_decide_eq_false_2 (0 ≠ 0)) by (intros X; by apply X). by rewrite Z.lor_0_l.
  - rewrite (bool_decide_eq_true_2 (Z.land a m ≠ 0)) by done. apply bool_decide_eq_true. intros [H _]%Z.lor_eq_0_iff. done.
Qed.
Lemma fmt_flag_other c m : m ∈ [SIGN; LARGE; PREC_USR; NUM_IS_ZERO; NUM_IS_NEGATIVE] → flag (default 0 (fmt_flag c)) m = false.
Proof.
  intros Hm. assert (H : Forall (λ f, flag f m = false) [LEFT; PLUS; SPACE; SPECIAL; ZEROPAD; THOUSAND_SEP; ALT_DIGITS; 0]).
  { revert m Hm. apply Forall_forall. apply (bool_decide_unpack _). by vm_compute. }
  rewrite !Forall_cons in H. unfold fmt_flag. repeat case_decide; cbn [default]; apply H.
Qed.
Lemma flags_of_other fl m : m ∈ [SIGN; LARGE; PREC_USR; NUM_IS_ZERO; NUM_IS_NEGATIVE] → flag (flags_of fl) m = false.
Proof.
  intros Hm. unfold flags_of. assert (H : ∀ f, flag f m = false → flag (foldl (λ f c, Z.lor f (default 0 (fmt_flag c))) f fl) m = false).
  { induction fl as [|c fl IH]; intros f Hf; [done|]. cbn [foldl]. apply IH. by rewrite flag_lor, Hf, fmt_flag_other. }
  by apply H.
Qed.
Lemma dir_flags_sign d : flag (dir_flags d) SIGN = conv_signed (d_conv d).
Proof.
  unfold dir_flags. fold (flags_of (d_flags d)). assert (H : flag (flags_of (d_flags d)) SIGN = false) by (apply flags_of_other; by left).
  destruct (d_conv d), (d_prec d); cbn [conv_signed]; rewrite ?flag_lor, H; done.
Qed.
Lemma dir_flags_num d m : m = NUM_IS_ZERO ∨ m = NUM_IS_NEGATIVE → flag (dir_flags d) m = false.
Proof.
  intros Hm. unfold dir_flags. fold (flags_of (d_flags d)). assert (H : flag (flags_of (d_flags d)) m = false).
  { apply flags_of_other. destruct Hm as [->| ->]; set_solver. }
  destruct Hm as [->| ->]; destruct (d_conv d), (d_prec d); rewrite ?flag_lor, H; done.
Qed.

Lemma star_value_spec d args w args' : star_value d args = Some (w, args') →
  match d with
  | Num_star => ∃ z, args = V_num 32 z :: args' ∧ w = Some (swrap 32 z)
  | _ => w = None ∧ args' = args
  end.
Proof.
  unfold star_value. destruct d; [by intros [= <- <-]..|]. destruct args as [|[bits z| |] args]; try done.
  intros H. repeat case_match; simplify_eq. by exists z.
Qed.
Lemma fetch_int_32 z args : fmt_fetch_int None (V_num 32 z :: args) = Some (swrap 32 z, U_num (u32 z), args).
Proof. done. Qed.
Lemma swrap_range z : - 2 ^ 31 ≤ swrap 32 z < 2 ^ 31.
Proof. unfold swrap, uwrap. pose proof (Z.mod_pos_bound z (2 ^ 32) ltac:(lia)). case_decide; lia. Qed.
(** The integer conversions, once it is known what they fetch *)
Ltac by_int H :=
  rewrite decide_False by (intros []; done); rewrite decide_True by (apply (bool_decide_unpack _); by vm_compute);
  match goal with a : va_arg |- _ => destruct a; [|done..] end; case_decide; [|done]; by eapply H.
Lemma fmt_fetch_value d spec a args u f : type_ok (d_conv d) (d_type d) = true →
  fs_code spec = conv_chr (d_conv d) → fs_int_type spec = d_type d → has spec SIGN = conv_signed (d_conv d) →
  dir_value d a = Some (u, f) → fmt_fetch spec (a :: args) = Some (u, f, args).
Proof.
  intros Ht Hc Hty Hs Hv. unfold fmt_fetch. rewrite Hc, Hty, Hs. cbv zeta. unfold dir_value in Hv.
  assert (Hint : ∀ bits z, a = V_num bits z → bits = Z.max 32 (int_bits (d_type d)) →
    (let '(u, f) := fmt_arg_num (d_type d) (conv_signed (d_conv d)) z in Some (U_num u, f)) = Some (u, f) →
    (let '(u0, f0) := fmt_arg_num (d_type d) (conv_signed (d_conv d) || bool_decide (d_type d = FMT_PTRDIFF_T)) z in Some (U_num u0, f0, args)) =
    Some (u, f, args)).
  { intros bits z -> Hb H. replace (_ || bool_decide _) with (conv_signed (d_conv d)).
    - destruct (fmt_arg_num (d_type d) (conv_signed (d_conv d)) z) as [u0 f0]. congruence.
    - destruct (d_conv d), (d_type d); try done. }
  destruct (d_conv d); cbn [conv_chr] in *; rewrite decide_False by done.
  - rewrite decide_True by by left. destruct a as [bits z| |]; [|done..]. repeat (case_match; try done). by injection Hv as <- <-.
  - rewrite decide_False by (intros []; done). rewrite decide_False by (apply (bool_decide_unpack _); by vm_compute). rewrite decide_True by by left.
    destruct a; [done| |done]. by injection Hv as <- <-.
  - by_int Hint.
  - by_int Hint.
  - by_int Hint.
  - by_int Hint.
  - by_int Hint.
  - by_int Hint.
Qed.

(** The arguments of a directive are taken as the reference takes them. *)
Lemma fill_width_star spec n args z : n ≠ 0 → fs_field_width_param spec = n → fs_field_width_usr spec = true →
  fill_part fill_width n spec (V_num 32 z :: args) =
  Some (fs_set_width_param 0 (fs_set_width (Z.abs (swrap 32 z)) (if decide (swrap 32 z < 0) then fs_add_flag LEFT spec else spec)), args).
Proof.
  intros Hn Hw Hu. rewrite fill_part_hit by done. unfold fill_width. rewrite decide_True by done. rewrite fetch_int_32. cbn [mbind option_bind].
  pose proof (swrap_range z). case_decide; (do 3 f_equal); [|by rewrite Z.abs_eq by lia].
  rewrite u32_small by (unfold UINT_MAX; lia). by rewrite Z.abs_neq by lia.
Qed.
Lemma fill_precision_star spec n args z : n ≠ 0 → fs_precision_param spec = n → fs_precision spec = 0 →
  fill_part fill_precision n spec (V_num 32 z :: args) =
  Some (fs_set_prec_param 0 (fs_set_precision (Z.max 0 (swrap 32 z))
    (if decide (swrap 32 z < 0) then fs_set_flags (flag_off (fs_flags spec) PREC_USR) spec else spec)), args).
Proof.
  intros Hn Hw H0. rewrite fill_part_hit by done. unfold fill_precision. rewrite decide_True by done. rewrite fetch_int_32. cbn [mbind option_bind].
  case_decide; (do 3 f_equal); [|by rewrite Z.max_r by lia]. rewrite Z.max_l by lia. destruct spec. cbn in *. by subst.
Qed.
Lemma fill_dir d params args res : dir_ok (Dir_conv d) = true → 0 ≤ params → dir_fill d args = Some res →
  fill_one (dir_spec d params).1 args = Some res.
Proof.
  intros [_ Ht]%andb_prop Hp. unfold dir_fill. destruct (star_value (d_width d) args) as [[w args1]|] eqn:Ew; [|done]. cbn [mbind option_bind].
  destruct (star_value (d_prec d) args1) as [[p args2]|] eqn:Ep; [|done]. cbn [mbind option_bind].
  destruct args2 as [|a args2]; [done|]. destruct (dir_value d a) as [[u f]|] eqn:Ev; [|done]. cbn [mbind option_bind]. intros [= <-].
  apply star_value_spec in Ew, Ep.
  assert (Hmain : ∀ m width prec flags, m ≠ 0 → flag flags SIGN = conv_signed (d_conv d) →
    fill_part fill_main m (mkSpec (U_ptr None) (conv_chr (d_conv d)) (dir_base (d_conv d)) (d_type d) flags width prec m 0 0 None (has_width d) false) (a :: args2) =
    Some (mkSpec u (conv_chr (d_conv d)) (dir_base (d_conv d)) (if decide (d_type d = FMT_PTRDIFF_T) then FMT_UINTMAX_T else d_type d)
      (Z.lor flags f) width prec 0 0 0 None (has_width d) false, args2)).
  { intros m width prec flags Hm Hs. rewrite fill_part_hit by done. unfold fill_main. cbn [fs_main_param]. rewrite decide_True by done.
    rewrite (fmt_fetch_value d _ a args2 u f) by done. cbn [mbind option_bind]. cbn [fs_int_type fs_code].
    destruct (decide (d_type d = FMT_PTRDIFF_T)) as [E|E].
    - rewrite decide_True; [done|]. split; [done|]. rewrite E in Ht.
      destruct (d_conv d); cbn in Ht; try done; apply (bool_decide_unpack _); by vm_compute.
    - by rewrite decide_False by tauto. }
  pose proof (dir_flags_sign d) as Hsign. unfold dir_spec, dir_final. destruct d as [fl wd pd t k].
  cbn [d_width d_prec d_type d_conv] in *. set (flags := dir_flags _) in *.
  assert (HL : ∀ c : bool, flag (if c then Z.lor flags LEFT else flags) SIGN = conv_signed k).
  { intros []; [|done]. rewrite flag_lor, Hsign. by rewrite orb_false_r. }
  assert (HP : ∀ (c : bool) g, flag g SIGN = conv_signed k → flag (if c then flag_off g PREC_USR else g) SIGN = conv_signed k).
  { intros [] g Hg; [|done]. by rewrite flag_off_other. }
  unfold fill_one.
  destruct wd as [|n|]; [destruct Ew as [-> ->]|destruct Ew as [-> ->]|destruct Ew as (z&->&->)];
    (destruct pd as [|m|]; [destruct Ep as [-> <-]|destruct Ep as [-> <-]|destruct Ep as (z'&->&->)]);
    cbn [num_param fst snd fs_field_width_param fs_precision_param fs_main_param from_option id].
  all: repeat match goal with |- context [decide (swrap 32 ?x < 0)] => destruct (decide (swrap 32 x < 0)) end.
  all: rewrite ?(decide_False (P := 0 < 0)) by lia.
  all: do 2 (first [rewrite fill_part_0|rewrite fill_width_star by (done || lia)|rewrite fill_precision_star by (done || lia)];
    rewrite ?decide_True, ?decide_False by done;
    cbn [mbind option_bind fs_precision_param fs_main_param fs_set_width_param fs_set_width fs_set_prec_param fs_set_precision fs_add_flag fs_set_flags fs_flags]).
  all: apply Hmain; [lia|first [exact Hsign|exact (HL true)|exact (HP true _ Hsign)|exact (HP true _ (HL true))]].
Qed.

(** ** The numbers *)
Lemma uwrap_range w z : 0 ≤ w → 0 ≤ uwrap w z < 2 ^ w.
Proof. intros Hw. apply Z.mod_pos_bound. by apply Z.pow_pos_nonneg. Qed.
Lemma fmt_arg_num_spec ty signed z u f : fmt_arg_num ty signed z = (u, f) →
  0 ≤ u < 2 ^ int_bits ty ∧ flag f NUM_IS_ZERO = bool_decide (u = 0) ∧
  u = (if signed then Z.abs (swrap (int_bits ty) z) else uwrap (int_bits ty) z) ∧
  flag f NUM_IS_NEGATIVE = signed && bool_decide (swrap (int_bits ty) z < 0).
Proof.
  unfold fmt_arg_num. assert (Hw : 0 < int_bits ty) by by destruct ty. set (w := int_bits ty) in *.
  assert (Hr : - 2 ^ (w - 1) ≤ swrap w z < 2 ^ (w - 1) ∧ (0 ≤ swrap w z → swrap w z = uwrap w z)).
  { pose proof (uwrap_range w z ltac:(lia)). assert (E : 2 ^ w = 2 * 2 ^ (w - 1)) by (rewrite <- Z.pow_succ_r by lia; f_equal; lia).
    unfold swrap. cbv zeta. case_decide; lia. }
  destruct Hr as [Hr Hpos]. assert (E2 : 2 ^ w = 2 * 2 ^ (w - 1)) by (rewrite <- Z.pow_succ_r by lia; f_equal; lia).
  assert (Hz : ∀ n v, flag (Z.lor n (if decide (v = 0) then NUM_IS_ZERO else 0)) NUM_IS_ZERO = flag n NUM_IS_ZERO || bool_decide (v = 0)).
  { intros n v. rewrite flag_lor. f_equal. case_decide; [by rewrite bool_decide_eq_true_2|by rewrite (bool_decide_eq_false_2 (v = 0))]. }
  assert (Hn : ∀ n v, flag (Z.lor n (if decide (v = 0) then NUM_IS_ZERO else 0)) NUM_IS_NEGATIVE = flag n NUM_IS_NEGATIVE).
  { intros n v. rewrite flag_lor. case_decide; by rewrite orb_false_r. }
  destruct signed; cbn [andb]; [destruct (decide (swrap w z < 0)) as [Hneg|Hneg]|].
  - rewrite bool_decide_eq_true_2 by done. intros [= <- <-]. rewrite Hz, Hn. rewrite (uwrap_id w (- swrap w z)) by lia.
    split; [lia|]. split; [done|]. split; [lia|done].
  - rewrite bool_decide_eq_false_2 by done. intros [= <- <-]. rewrite Hz, Hn. pose proof (uwrap_range w z ltac:(lia)). split; [done|]. split; [done|].
    split; [|done]. rewrite <- Hpos by lia. lia.
  - intros [= <- <-]. rewrite Hz, Hn. split; [apply uwrap_range; lia|done].
Qed.
Lemma dir_number_spec d w p bits z u f : type_ok (d_conv d) (d_type d) = true → num_ok 1 (d_width d) = true → num_ok 0 (d_prec d) = true →
  (∀ n, w = Some n → - 2 ^ 31 ≤ n < 2 ^ 31) → (∀ n, p = Some n → - 2 ^ 31 ≤ n < 2 ^ 31) →
  d_conv d ≠ Conv_c → dir_value d (V_num bits z) = Some (u, f) →
  ∃ n, u = U_num n ∧ number_spec (dir_final d w p u f) n.
Proof.
  intros Ht Hwd Hpd Hw Hp Hc Hv.
  assert (Hv' : ∃ n, u = U_num n ∧ fmt_arg_num (d_type d) (conv_signed (d_conv d)) z = (n, f)).
  { unfold dir_value in Hv. destruct (d_conv d); try done; (case_decide; [|done]);
      destruct (fmt_arg_num _ _ z) as [n f'] eqn:E; injection Hv as <- <-; by exists n. }
  clear Hv. destruct Hv' as (n&->&(Hr&Hz&_&_)%fmt_arg_num_spec). exists n. split; [done|].
  assert (Hb : 2 ^ int_bits (d_type d) ≤ 2 ^ 64) by (destruct (d_type d); by vm_compute).
  split; unfold dir_final; cbn [fs_num_base fs_u fs_flags fs_field_width fs_precision].
  - destruct (d_conv d); cbn; tauto.
  - unfold fmt_number_of. cbn [fs_u fs_int_type]. f_equal. apply Z.mod_small. destruct (decide (d_type d = FMT_PTRDIFF_T)) as [E|]; [|done].
    rewrite E in Hr. exact Hr.
  - lia.
  - rewrite flag_lor, Hz. set (g := if decide (default 0 w < 0) then _ else _).
    assert (Hg : flag g NUM_IS_ZERO = false).
    { unfold g. destruct (decide (default 0 w < 0)); [rewrite flag_lor|]; (rewrite (dir_flags_num d) by by left); done. }
    assert (Hg2 : flag (if decide (default 0 p < 0) then flag_off g PREC_USR else g) NUM_IS_ZERO = false)
      by (destruct (decide (default 0 p < 0)); [by rewrite flag_off_other|done]).
    by rewrite Hg2.
  - destruct w as [m|]; [specialize (Hw m eq_refl); unfold UINT_MAX; lia|]. unfold num_ok, num_lit in *. unfold UINT_MAX.
    destruct (d_width d); [lia|apply bool_decide_eq_true in Hwd; lia|lia].
  - destruct p as [m|]; [specialize (Hp m eq_refl); unfold UINT_MAX; lia|]. unfold num_ok, num_lit in *. unfold UINT_MAX.
    destruct (d_prec d); [lia|apply bool_decide_eq_true in Hpd; lia|lia].
Qed.

Section writing.
Context {OT : Others}.
Context (s0 : St) (pos K : Z).
Context (Hw0 : wf s0) (Hpos : 0 ≤ pos ≤ b_len (s_base s0)) (HK : b_len (s_base s0) + K ≤ VSTR_MAX_NODE_ALL) (Hroom : room (K + 1) (K + 1) s0).
Context (loc : Vstr_locale) (vstr__add_fmt_dbl : Z → fmt_spec → M bool) (usr_func : nat → Z → Vstr_fmt_spec → M bool) (strerror : list Z).
Context (orig_len : Z) (strs : option pointer → list Z).
Abbreviation pos_diff := (b_len (s_base s0) - pos).
Abbreviation writes d n m := (puts s0 pos K (Some <$> (d : list Z)) n m).

(** The locale: no separators, and the text for a null pointer *)
Definition plain_locale : Prop :=
  (∀ base, base = 8 ∨ base = 10 ∨ base = 16 → not_grouped loc base) ∧
  shown s0 (loc_null loc) (strs None) ∧ loc_null_len loc = zlen (strs None).
(** The strings that the arguments point to *)
Definition arg_ok (a : va_arg) : Prop := match a with V_ptr (Some p) => cstr_at s0 p (strs (Some p)) | _ => True end.
Context (Hloc : plain_locale).

Lemma fmt_cstr_null_spec spec : fs_u spec = U_ptr None → 0 ≤ fs_precision spec → cstr_cut spec = false →
  writes (cstr_text spec (strs None)) (16 + zlen (cstr_text spec (strs None))) (vstr__add_fmt_cstr loc pos_diff spec).
Proof.
  destruct Hloc as (_&Hsh&Hlen). set (bs := strs None) in *. intros Hu Hprec Hcut. unfold cstr_cut in Hcut. rewrite Hu in Hcut. unfold vstr__add_fmt_cstr. rewrite Hu.
  apply puts_bind; [lia|]. intros d0 k s HP Hk. wp_steps. split; [done|]. cbv zeta. unfold cstr_text. rewrite Hlen.
  destruct (has spec PREC_USR) eqn:EP; cbn [andb].
  - set (t := ztake (fs_precision spec) bs). assert (Ht : zlen t = Z.min (zlen bs) (fs_precision spec)) by (unfold t; rewrite length_ztake; lia).
    replace (if bool_decide (fs_precision spec < zlen bs) then fs_precision spec else zlen bs) with (zlen t).
    2:{ rewrite Ht. destruct (decide (fs_precision spec < zlen bs)); [rewrite bool_decide_eq_true_2 by done|rewrite bool_decide_eq_false_2 by done]; lia. }
    assert (HA : writes t (2 + zlen t) (fmt_add pos_diff (loc_null loc) (zlen t))) by (eapply puts_buf; try done; by apply shown_take).
    eapply fmt_field_spec with (n := 2 + zlen t); try done; [|lia]. intros Eu. rewrite Eu in *.
    cbn [andb] in *. rewrite Hcut. lia.
  - assert (HA : writes bs (2 + zlen bs) (fmt_add pos_diff (loc_null loc) (zlen bs))) by by eapply puts_buf.
    eapply fmt_field_spec with (n := 2 + zlen bs); try done. lia.
Qed.

(** One specification that is not of the user writes this text. *)
Definition spec_writes (spec : fmt_spec) (text : list Z) : Prop :=
  fs_escape_usr spec = false ∧
  writes text (16 + zlen text) (fmt_write_one loc vstr__add_fmt_dbl strerror pos_diff orig_len spec).

Lemma spec_writes_number spec n : fs_escape_usr spec = false → fs_code spec ∈ fmt_int_chrs → number_spec spec n → spec_writes spec (number_text spec n).
Proof.
  intros He Hc Hn. split; [done|]. unfold fmt_write_one. cbv zeta.
  assert (H : Forall (λ c, fs_code spec ≠ c) [ch "c"; ch "C"; ch "m"; ch "s"; ch "S"]).
  { rewrite list_elem_of_In in Hc. apply (bool_decide_unpack _).
    repeat destruct Hc as [<-|Hc]; [by vm_compute..|done]. }
  rewrite !Forall_cons in H. destruct H as (H1&H2&H3&H4&H5&_). rewrite !decide_False by done. rewrite decide_True by by right.
  apply fmt_number_spec; try done. apply Hloc. apply Hn.
Qed.
Lemma spec_writes_cstr spec p : fs_escape_usr spec = false → fs_code spec = ch "s" → fs_u spec = U_ptr p → 0 ≤ fs_precision spec →
  cstr_cut spec = false → (∀ q, p = Some q → cstr_at s0 q (strs p)) → spec_writes spec (cstr_text spec (strs p)).
Proof.
  intros He Hc Hu Hp Hcut Hq. split; [done|]. unfold fmt_write_one. cbv zeta. rewrite Hc. rewrite !decide_False by done. rewrite decide_True by done.
  destruct p as [q|]; [|by apply fmt_cstr_null_spec]. eapply fmt_cstr_spec; try done. by apply Hq.
Qed.
Lemma spec_writes_char spec c : fs_escape_usr spec = false → fs_code spec = ch "c" → fs_u spec = U_num c → 0 ≤ c < 256 →
  spec_writes spec (char_text spec c).
Proof.
  intros He Hc Hu Hr. split; [done|]. unfold fmt_write_one. cbv zeta. rewrite decide_True by done. by apply fmt_char_spec.
Qed.

Lemma star_value_args (P : va_arg → Prop) d args w args' : star_value d args = Some (w, args') → Forall P args → Forall P args' ∧
  (∀ n, w = Some n → - 2 ^ 31 ≤ n < 2 ^ 31).
Proof.
  intros H%star_value_spec HP. destruct d; [destruct H as [-> ->]; by split..|]. destruct H as (z&->&->). inversion HP; subst.
  split; [done|]. intros n [= <-]. apply swrap_range.
Qed.
Lemma dir_writes d args spec args' : dir_ok (Dir_conv d) = true → dir_fill d args = Some (spec, args') → cstr_cut spec = false → Forall arg_ok args →
  spec_writes spec (spec_text strs spec) ∧ Forall arg_ok args'.
Proof.
  intros [[[_ Hwd]%andb_prop Hpd]%andb_prop Ht]%andb_prop Hf Hcut Ha. unfold dir_fill in Hf.
  destruct (star_value (d_width d) args) as [[w args1]|] eqn:Ew; [|done]. cbn [mbind option_bind] in Hf.
  destruct (star_value (d_prec d) args1) as [[p args2]|] eqn:Ep; [|done]. cbn [mbind option_bind] in Hf.
  destruct args2 as [|a args2]; [done|]. destruct (dir_value d a) as [[u f]|] eqn:Ev; [|done]. cbn [mbind option_bind] in Hf.
  injection Hf as <- <-. destruct (star_value_args _ _ _ _ _ Ew Ha) as [Ha1 Hw]. destruct (star_value_args _ _ _ _ _ Ep Ha1) as [Ha2 Hp].
  inversion Ha2 as [|? ? Hok Ha3]; subst. split; [|done].
  assert (Hprec : 0 ≤ fs_precision (dir_final d w p u f)).
  { unfold dir_final. cbn [fs_precision]. destruct p as [m|]; [lia|]. unfold num_ok, num_lit in *. destruct (d_prec d); [lia|apply bool_decide_eq_true in Hpd; lia|lia]. }
  assert (Hint : ∀ bits z, a = V_num bits z → d_conv d ≠ Conv_c → conv_chr (d_conv d) ∈ fmt_int_chrs → conv_chr (d_conv d) ≠ ch "c" →
    spec_writes (dir_final d w p u f) (spec_text strs (dir_final d w p u f))).
  { intros bits z -> Hc Hin Hch. destruct (dir_number_spec d w p bits z u f) as (n&->&Hn); try done.
    unfold spec_text. cbn [fs_u dir_final fs_code]. rewrite decide_False by done. by apply spec_writes_number. }
  unfold dir_value in Ev. destruct (d_conv d) eqn:Ek; destruct a as [bits z|q|]; try done.
  3-8: apply (Hint bits z); [done..|apply (bool_decide_unpack _); by vm_compute|done].
  - repeat (case_match; try done). injection Ev as <- <-. unfold spec_text. cbn [fs_u dir_final fs_code]. rewrite Ek, decide_True by done.
    apply spec_writes_char; try done; [cbn; by rewrite Ek|]. by apply uwrap_range.
  - injection Ev as <- <-. unfold spec_text. cbn [fs_u dir_final fs_code]. apply spec_writes_cstr; try done; [cbn; by rewrite Ek|].
    intros ? ->. exact Hok.
Qed.

(** ** The whole format *)
Lemma spec_writes_text p t more k : cstr_at s0 p (t ++ k) → (more = false → k = []) → Forall2 spec_writes (text_spec p t more) (if decide (t = []) then [] else [t]).
Proof.
  intros Hp Hk. destruct t as [|c t]; [done|]. rewrite decide_False by done. cbn [text_spec]. set (l := c :: t) in *. constructor; [|done]. split; [done|].
  unfold fmt_write_one. cbv zeta. cbn [fs_code]. rewrite !decide_False by done. rewrite decide_True by done.
  set (spec := mkSpec _ _ _ _ _ _ _ _ _ _ _ _ _).
  assert (E : cstr_text spec (l ++ k) = l).
  { unfold cstr_text, field_text, spec, has. cbn [fs_flags fs_field_width fs_precision fs_field_width_usr]. destruct more.
    - change (flag PREC_USR PREC_USR) with true. change (flag PREC_USR LEFT) with false. cbn iota. change (zrep 0 (ch " ")) with (@nil Z).
      by rewrite app_nil_l, ztake_app_len.
    - change (flag 0 PREC_USR) with false. change (flag 0 LEFT) with false. cbn iota. change (zrep 0 (ch " ")) with (@nil Z).
      by rewrite app_nil_l, (Hk eq_refl), app_nil_r. }
  rewrite <- E at 1 2. eapply fmt_cstr_spec; try done; unfold spec; cbn; destruct more; (lia || done).
Qed.
Lemma spec_writes_percent : spec_writes percent_spec [ch "%"].
Proof. apply (spec_writes_char percent_spec (ch "%")); done. Qed.
Lemma fill_seq_app specs1 : ∀ specs2 args, concat (slots <$> specs1) = [] →
  fill_seq (specs1 ++ specs2) args = '(specs, rest) ← fill_seq specs2 args; Some (specs1 ++ specs, rest).
Proof.
  induction specs1 as [|spec specs1 IH]; intros specs2 args H; [cbn; by destruct (fill_seq specs2 args) as [[? ?]|]|]. cbn [fmap list_fmap concat] in H. apply app_eq_nil in H as [H1 H2].
  cbn [app fill_seq]. rewrite fill_none by done. cbn [mbind option_bind]. rewrite IH by done. by destruct (fill_seq specs2 args) as [[? ?]|].
Qed.
Lemma cstr_at_drop p a b : cstr_at s0 p (a ++ b) → cstr_at s0 (ptr_add p (zlen a)) b.
Proof.
  intros [[Hl Ho] [_ Hb]%Forall_app]. split; [|done]. split; [|done]. rewrite <- app_assoc, length_app, Nat2Z.inj_add in Hl.
  apply (load_sub _ _ _ (zlen a) (zlen (b ++ [0]))) in Hl; [|lia..]. by rewrite zdrop_app_len, ztake_all in Hl by lia.
Qed.
Lemma text_spec_length p t more : (length (text_spec p t more) ≤ 1)%nat.
Proof. destruct t; cbn; lia. Qed.
Lemma concat_text (t : list Z) : concat (if decide (t = []) then [] else [t]) = t.
Proof. case_decide; [by subst|]. cbn. by rewrite app_nil_r. Qed.
Lemma format_writes items tail : ∀ p params args text,
  format_ok (items, tail) = true → 0 ≤ params → cstr_at s0 p (format_chrs (items, tail)) → Forall arg_ok args →
  format_text strs items tail args = Some text → no_cut items args = true →
  ∃ specs texts rest, fill_seq (format_specs p params items tail) args = Some (specs, rest) ∧ Forall2 spec_writes specs texts ∧
    concat texts = text ∧ zlen specs ≤ 2 * zlen items + 1.
Proof.
  induction items as [|[t d] items IH]; intros p params args text Hok Hp0 Hp Ha Htext Hcut; cbn [format_specs format_text no_cut] in *.
  - injection Htext as <-. exists (text_spec p tail false), (if decide (tail = []) then [] else [tail]), args.
    split; [apply fill_seq_none, text_slots|]. split; [|split; [apply concat_text|]].
    + apply (spec_writes_text _ _ _ []); [by rewrite app_nil_r|done].
    + pose proof (text_spec_length p tail false). cbn [length]. lia.
  - unfold format_ok in *. cbn [fst snd forallb] in *. apply andb_prop in Hok as [[[Ht Hd]%andb_prop Hit]%andb_prop Htail].
    destruct (directive_text strs d args) as [[txt args']|] eqn:Edt; [|done]. cbn [mbind option_bind] in Htext.
    destruct (format_text strs items tail args') as [rest|] eqn:Eft; [|done]. injection Htext as <-.
    unfold format_chrs, body_chrs in *. cbn [fst snd fmap list_fmap concat] in *. rewrite <- !app_assoc in Hp.
    pose proof (directive_params d params) as Hdp.
    assert (Hdir : ∃ spec', fill_one (directive_spec d params).1 args = Some (spec', args') ∧ spec_writes spec' txt ∧ Forall arg_ok args' ∧
      no_cut items args' = true).
    { destruct d as [|d]; cbn [directive_text directive_spec] in *.
      - injection Edt as <- <-. exists percent_spec. split; [done|]. split; [apply spec_writes_percent|by split].
      - destruct (dir_fill d args) as [[spec' args1]|] eqn:Ef; [|done]. cbn [mbind option_bind] in Edt. injection Edt as <- <-.
        apply andb_prop in Hcut as [Hc1%negb_true_iff Hc2]. exists spec'. split; [by apply fill_dir|]. destruct (dir_writes d args spec' args1 Hd Ef Hc1 Ha) as [? ?]. by split. }
    destruct Hdir as (spec'&Hf&Hw&Ha'&Hc'). destruct (directive_spec d params) as [spec params']. cbn [fst snd] in *.
    destruct (IH (ptr_add p (zlen t + zlen (dir_chrs d))) params' args' rest) as (specs&texts&args2&E&HW&Etx&Hl); try done.
    { by rewrite Hit. } { lia. }
    { rewrite <- ptr_add_add. apply cstr_at_drop. apply cstr_at_drop. done. }
    exists (text_spec p t true ++ spec' :: specs), ((if decide (t = []) then [] else [t]) ++ txt :: texts), args2.
    split.
    { rewrite fill_seq_app by apply text_slots. cbn [fill_seq]. rewrite Hf. cbn [mbind option_bind]. rewrite E. done. }
    split; [apply Forall2_app; [by apply (spec_writes_text _ _ _ (dir_chrs d ++ concat ((λ '(t, d), t ++ dir_chrs d) <$> items) ++ tail))|by constructor]|].
    split; [rewrite concat_app, concat_text; cbn [concat]; by rewrite Etx|].
    pose proof (text_spec_length p t true). rewrite length_app, !length_cons. lia.
Qed.

Lemma write_specs specs texts : Forall2 spec_writes specs texts → ∀ fuel, (length specs ≤ fuel)%nat →
  writes (concat texts) (16 * zlen specs + zlen (concat texts))
    (vstr__fmt_write_spec loc vstr__add_fmt_dbl usr_func strerror fuel pos_diff orig_len specs).
Proof.
  induction 1 as [|spec text specs texts [He Hw] HF IH]; intros fuel Hf.
  - destruct fuel; cbn; by apply puts_skip.
  - rewrite length_cons in Hf. destruct fuel as [|fuel]; [lia|]. cbn [vstr__fmt_write_spec concat]. rewrite He.
    eapply writes_eq; [apply writes_and; [exact Hw|apply IH; lia]|done|]. rewrite length_cons, length_app. lia.
Qed.
End writing.
