(* ===== verification/FmtTheorems.v ===== *)
(** * Formatted output: vstr_add_sysfmt adds the text its format stands for. *)
From Stdlib Require Import ZArith Lia ZifyBool Ascii.
From stdpp Require Import base tactics list numbers option gmap.
From S2P Require Import Prelude State Wp Ref Cache Core Base Add Del Iter Spn Parse Inv SpnSpec PosLemmas SpareLemmas SplitLemmas CacheLemmas AddLemmas StringLemmas AddSpec AddOps AddTheorems BaseTheorems DelTheorems DelSpec DelAtomic SubSpec AddVstrSpec ParseSpec Fmt FmtUsr FmtParse Puts FmtSpec FmtRead FmtText Demo.

Section reading.
Context {OT : Others}.

(** An allocation fails only when the memory does. *)
Definition alloc_step (s s' : St) : Prop :=
  malloc_only s s' ∧ (false ∈ h_malloc (s_heap s') → false ∈ h_malloc (s_heap s)).
Lemma alloc_step_refl s : alloc_step s s.
Proof. split; [apply malloc_only_refl|done]. Qed.
Lemma alloc_step_trans s1 s2 s3 : alloc_step s1 s2 → alloc_step s2 s3 → alloc_step s1 s3.
Proof. intros [H1 H2] [H3 H4]. split; [by eapply malloc_only_trans|auto]. Qed.
Lemma alloc_ok_step s : wp alloc_ok s (λ ok s', alloc_step s s' ∧ (ok = false → false ∈ h_malloc (s_heap s))).
Proof.
  destruct s as [[m r n ma] c b]. unfold wp, alloc_ok, malloc, alloc_step, malloc_only, mbind, M_bind, mret, M_ret. cbn.
  destruct ma as [|[] ma]; cbn; split; try done; try (split; [split_and!; try done; lia|]); try (intros H; by right); try done. intros _. by left.
Qed.

Definition same_parse (a b : parse_state) : Prop := ps_set_make 0 a = ps_set_make 0 b.
Lemma vstr__fmt_add_spec_step s st : wp (vstr__fmt_add_spec s) st (λ '(ok, s') st',
  alloc_step st st' ∧ same_parse s' s ∧ (ok = false → false ∈ h_malloc (s_heap st))).
Proof.
  unfold vstr__fmt_add_spec. case_decide; [|wp_steps; split_and!; try done; apply alloc_step_refl].
  wp_step. wp_apply alloc_ok_step. intros ok st' [H1 H2]. wp_steps. split_and!; [done| |done]. destruct ok; [by destruct s|done].
Qed.
Lemma sys_step_same fmt_at c s s' : same_parse s s' → same_parse (sys_step fmt_at c s) (sys_step fmt_at c s').
Proof.
  destruct s as [f off sp mk pa d nm], s' as [f' off' sp' mk' pa' d' nm']. unfold same_parse. cbn. intros [= -> -> -> -> -> ->].
  unfold sys_step. case_decide; [done|]. cbn [ps_fmt ps_params ps_dollars]. case_decide; [done|].
  set (r := vstr__add_fmt_spec _). unfold fmt_sys_escape. cbn [ps_at ps_set_params ps_fmt]. destruct (fmt_int_type _) as [ty l].
  destruct (fmt_conversion _ _) as [spec|]; [|done]. unfold vstr__fmt_mv_spec. cbn [andb]. by case_bool_decide.
Qed.
Lemma fmt_step_sys fmt_at c s st : wp (fmt_step fmt_at 0 c s) st (λ '(ok, s') st',
  alloc_step st st' ∧ (if ok : bool then same_parse s' (sys_step fmt_at c s) else false ∈ h_malloc (s_heap st))).
Proof.
  unfold fmt_step. wp_step. wp_apply vstr__fmt_add_spec_step. intros [[] s1] st1 (HA&HS&HF); cbn [negb]; [|wp_steps; by auto].
  eapply wp_mono with (P := λ '(ok, s') st', st' = st1 ∧ ok = true ∧ s' = sys_step fmt_at c s1).
  2:{ intros [ok s'] st' (->&->&->). split; [done|]. by apply sys_step_same. }
  unfold sys_step. destruct (decide (c = ch "%")) as [->|Hp].
  - rewrite (decide_False (P := ch "%" ≠ ch "%" ∧ _)) by (intros []; done). rewrite (decide_False (P := ch "%" ≠ ch "%")) by (intros X; by apply X).
    case_decide; [by wp_steps|]. rewrite decide_False by (intros []; done). by wp_steps.
  - rewrite decide_True by (split; [done|by left]). rewrite decide_True by done. by wp_steps.
Qed.
Lemma fmt_specs_sys fmt_at fuel : ∀ s st t,
  sys_specs fuel fmt_at (ps_set_make 0 s) = Some t →
  wp (fmt_specs fuel fmt_at 0 s) st (λ '(ok, s') st',
    alloc_step st st' ∧ (if ok : bool then same_parse s' t else false ∈ h_malloc (s_heap st))).
Proof.
  induction fuel as [|fuel IH]; intros s st t Ht.
  - cbn [fmt_specs sys_specs] in *. destruct s as [[|c l] ? ? ? ? ? ?]; [|done]. cbn in *. injection Ht as <-. wp_steps. split; [apply alloc_step_refl|done].
  - cbn [fmt_specs sys_specs] in *. destruct (ps_fmt s) as [|c l] eqn:E.
    { destruct s. cbn in *. subst. injection Ht as <-. wp_steps. split; [apply alloc_step_refl|done]. }
    assert (E' : ps_fmt (ps_set_make 0 s) = c :: l) by by destruct s. rewrite E' in Ht.
    wp_step. wp_apply fmt_step_sys. intros [[] s1] st1 (HA&HS); cbn [negb]; [|wp_steps; by split].
    assert (HS' : ps_set_make 0 s1 = ps_set_make 0 (sys_step fmt_at c (ps_set_make 0 s))).
    { rewrite HS. apply sys_step_same. by destruct s. }
    eapply wp_mono; [eapply IH; by rewrite HS'|].
    intros [ok s2] st2 (HA2&H2). split; [by eapply alloc_step_trans|]. destruct ok; [done|]. by apply HA.
Qed.
End reading.

Section writing.
Context {OT : Others}.
Context (loc : Vstr_locale) (vstr__add_fmt_dbl : Z → fmt_spec → M bool) (usr_func : nat → Z → Vstr_fmt_spec → M bool) (strerror : list Z).

Lemma malloc_only_wf s s' : wf s → malloc_only s s' → wf s'.
Proof.
  intros [H HB HC] (Ec&Eb&Em&Er&En). split; rewrite ?Eb; [|done..]. rewrite Ec. by eapply heap_inv_malloc_only.
Qed.
(** What the memory holds is the same. *)
Definition same_memory (s s' : St) : Prop :=
  h_mem (s_heap s') = h_mem (s_heap s) ∧ st_own s' = st_own s ∧ h_refs (s_heap s') = h_refs (s_heap s) ∧ s_base s' = s_base s.
Lemma same_memory_refl s : same_memory s s.
Proof. done. Qed.
Lemma same_memory_trans s1 s2 s3 : same_memory s1 s2 → same_memory s2 s3 → same_memory s1 s3.
Proof. intros (?&?&?&?) (?&?&?&?). split_and!; congruence. Qed.
Lemma same_memory_content s s' : same_memory s s' → st_content s' = st_content s.
Proof. destruct s as [[] ? ?], s' as [[] ? ?]. intros (?&_&?&?). cbn in *. by subst. Qed.
Lemma malloc_only_memory s s' : malloc_only s s' → same_memory s s'.
Proof. intros (Ec&Eb&Em&Er&_). unfold same_memory, st_own. by rewrite Ec, Eb, Em, Er. Qed.
Lemma malloc_bad_memory v s : same_memory s (on_conf (set_malloc_bad v) s).
Proof. destruct s as [h [] b]. done. Qed.
Lemma same_memory_shown s s' p bs : same_memory s s' → shown s p bs → shown s' p bs.
Proof. intros (Em&Eo&_) [H1 H2]. unfold shown. by rewrite Em, Eo. Qed.
Lemma same_memory_cstr s s' p bs : same_memory s s' → cstr_at s p bs → cstr_at s' p bs.
Proof. intros Hm [H1 H2]. split; [by eapply same_memory_shown|done]. Qed.
Lemma same_memory_room s s' n k : same_memory s s' → room n k s → room n k s'.
Proof. intros (_&Eo&Er&_) [H1 H2]. unfold room, st_own in *. by rewrite Eo, Er. Qed.

Lemma restore_bad_eq orig s :
  on_conf (λ c, set_malloc_bad (malloc_bad c || orig) c) s = on_conf (set_malloc_bad (malloc_bad (s_conf s) || orig)) s.
Proof. done. Qed.

Definition sysfmt_result (s : St) (pos : Z) (text : list Z) (n : Z) (s' : St) : Prop :=
  wf s' ∧
  (n = zlen text ∧ st_content s' = ztake pos (st_content s) ++ (Some <$> text) ++ zdrop pos (st_content s) ∧
     malloc_bad (s_conf s') = malloc_bad (s_conf s) ∨
   n = 0 ∧ st_content s' = st_content s ∧ (malloc_bad (s_conf s') = true ∨ false ∈ h_malloc (s_heap s))).

(** What was written before the failure is deleted again: it ends where a
    node ends, so that this needs no memory. *)
Lemma fmt_failed_spec s0 pos K s orig : wf s0 → 0 ≤ pos ≤ b_len (s_base s0) → b_len (s_base s0) + K ≤ VSTR_MAX_NODE_ALL → room (K + 1) (K + 1) s0 →
  unput s0 pos K s →
  wp ((if decide (b_len (s_base s) - b_len (s_base s0) ≠ 0) then vstr_del (pos + 1) (u64 (b_len (s_base s) - b_len (s_base s0)));; mret tt else mret tt);;
      fmt_restore_bad orig) s (λ _ s', wf s' ∧ st_content s' = st_content s0 ∧ malloc_bad (s_conf s') = true).
Proof.
  intros Hw0 Hpos HK Hroom [Hw Hfr Hbad HU (d&Hc&Hd&HB)].
  pose proof (wf_content_length _ Hw0) as Hz0. pose proof (wf_content_length _ Hw) as Hz.
  rewrite Hc, !length_app, !Nat2Z.inj_add, length_ztake, length_zdrop in Hz. unfold VSTR_MAX_NODE_ALL in HK.
  assert (Hb : b_len (s_base s) - b_len (s_base s0) = zlen d) by lia. rewrite Hb, u64_id by (unfold SIZE_MAX; lia).
  assert (Hfin : ∀ s', wf s' → st_content s' = st_content s0 → malloc_bad (s_conf s') = true →
    wp (fmt_restore_bad orig) s' (λ _ s', wf s' ∧ st_content s' = st_content s0 ∧ malloc_bad (s_conf s') = true)).
  { intros s' Hw' Hc' Hb'. apply wp_modify. destruct s' as [h c b]. cbn in Hb'.
    assert (E : on_conf (λ c, set_malloc_bad (malloc_bad c || orig) c) (mkSt h c b) = on_conf (set_malloc_bad true) (mkSt h c b)).
    { unfold on_conf. cbn [s_heap s_conf s_base]. by rewrite Hb'. }
    rewrite E. split; [by apply wf_malloc_bad|]. split; [done|by destruct c]. }
  wp_step. case_decide as Hd0.
  - wp_step. eapply wp_mono.
    { apply (wp_returns _ _ (λ ok s', del_post s (pos + 1) (zlen d) ok s') (λ ok, ok = true)).
      - apply vstr_del_spec; [done| |].
        + unfold del_range_ok, VSTR_MAX_NODE_BUF, SIZE_MAX. lia.
        + eapply add_uses_room; [exact HU|]. eapply room_le; [exact Hroom|lia|lia].
      - apply vstr_del_true; [done|unfold del_bad; lia|lia|unfold SIZE_MAX; lia|].
        right. replace (pos + 1 - 1 + zlen d) with (pos + zlen d) by lia. apply HB. lia. }
    cbn beta. intros ok s' [HP ->]. unfold del_post in HP. rewrite decide_False in HP by (unfold del_bad; lia). destruct HP as (Hw'&_&Hc'&Hm).
    wp_step. apply Hfin; [done| |by rewrite Hm]. rewrite Hc', Hc. replace (pos + 1 - 1) with pos by lia. apply take_out_middle. lia.
  - wp_step. apply Hfin; [done| |done]. destruct d; [|cbn in Hd0; lia]. by rewrite Hc, app_nil_l, ztake_zdrop.
Qed.

Context (strs : option pointer → list Z).
Lemma vstr_add_sysfmt_spec fc s pos fmt_at items tail args text :
  wf s → 0 ≤ pos ≤ b_len (s_base s) → format_ok (items, tail) = true → zlen (format_chrs (items, tail)) ≤ UINT_MAX →
  3 * zlen items ≤ UINT_MAX → cstr_at s fmt_at (format_chrs (items, tail)) → plain_locale s loc strs → Forall (arg_ok s strs) args →
  format_text strs items tail args = Some text → no_cut items args = true →
  let K := 16 * (2 * zlen items + 1) + zlen text in
  b_len (s_base s) + K ≤ VSTR_MAX_NODE_ALL → room (K + 1) (K + 1) s →
  wp (vstr_add_sysfmt loc vstr__add_fmt_dbl usr_func strerror fc pos fmt_at args) s (λ '(n, _) s', sysfmt_result s pos text n s').
Proof.
  intros Hw Hpos Hok Hlen Hitems Hfmt Hloc Hargs Htext Hcut K HK Hroom. unfold vstr_add_sysfmt, vstr_add_vsysfmt, vstr__add_vfmt.
  wp_step. apply wp_gets. wp_step. apply wp_gets. rewrite decide_False by lia. cbv zeta. wp_step. apply wp_modify.
  set (s1 := on_conf (set_malloc_bad false) s). pose proof (malloc_bad_memory false s) as Hm1. fold s1 in Hm1.
  assert (Hw1 : wf s1) by by apply wf_malloc_bad.
  wp_step. eapply wp_mono; [eapply (mem_cstr_spec s1 pos [] 0 s1 fmt_at _ None)|]; [by apply put_refl|by eapply same_memory_cstr|done|].
  cbn beta iota. intros n s1' [-> ->].
  assert (Hload : load (h_mem (s_heap s1)) fmt_at (zlen (format_chrs (items, tail))) = Some (format_chrs (items, tail))).
  { destruct (same_memory_cstr _ _ _ _ Hm1 Hfmt) as [[Hl _] _]. apply (load_prefix _ _ _ (zlen (format_chrs (items, tail)))) in Hl.
    - by rewrite ztake_app_len in Hl.
    - rewrite length_app. cbn [length]. lia. }
  wp_step. unfold mem_load. wp_step. apply wp_gets. eapply wp_of_option; [exact Hload|]. cbn beta. set (fmt := format_chrs (items, tail)) in *.
  wp_step. eapply wp_mono.
  { eapply (fmt_specs_sys fmt_at (length fmt) _ s1). cbn [ps_set_make]. apply (sys_specs_format fmt_at (fc_names fc) items tail); try done; lia. }
  cbn beta. intros [ok ps] s2 [[HM HF] Hps]. destruct ok; cbn [negb]; cycle 1.
  { wp_step. apply wp_modify. wp_step. rewrite restore_bad_eq. split; [by apply wf_malloc_bad; eapply malloc_only_wf|].
    right. split; [done|]. split; [|by right]. etrans; [apply same_memory_content, malloc_bad_memory|].
    apply same_memory_content. eapply same_memory_trans; [exact Hm1|by apply malloc_only_memory]. }
  assert (Hps' : ps_specs ps = format_specs fmt_at 0 items tail ∧ ps_dollars ps = false).
  { destruct ps. unfold same_parse in Hps. cbn in Hps. injection Hps as -> -> -> -> -> ->. by rewrite ptr_add_0. }
  destruct Hps' as [-> ->]. clear Hps.
  pose proof (same_memory_trans _ _ _ Hm1 (malloc_only_memory _ _ HM)) as Hm2. pose proof Hm2 as (_&_&_&Eb2).
  assert (Hw2 : wf s2) by by eapply malloc_only_wf.
  assert (Hpd : b_len (s_base s) - pos = b_len (s_base s2) - pos) by by rewrite Eb2. rewrite Hpd.
  rewrite <- Eb2 in Hpos, HK.
  assert (Hroom2 : room (K + 1) (K + 1) s2) by by eapply same_memory_room.
  assert (Hloc2 : plain_locale s2 loc strs).
  { destruct Hloc as (H1&H2&H3). split; [done|]. split; [by eapply same_memory_shown|done]. }
  assert (Hargs2 : Forall (arg_ok s2 strs) args).
  { eapply Forall_impl; [exact Hargs|]. intros [| [p|] |]; try done. cbn. apply same_memory_cstr, Hm2. }
  destruct (format_writes s2 pos K Hw2 Hpos HK Hroom2 loc vstr__add_fmt_dbl strerror (b_len (s_base s)) strs Hloc2 items tail fmt_at 0 args text)
    as (specs&texts&rest&Hfill&HWr&Etx&Hns); try done; [by eapply same_memory_cstr|].
  destruct (format_slots items tail fmt_at 0 ltac:(done)) as [Hsl _].
  wp_step. eapply wp_of_option; [by eapply vstr__fmt_fillin_spec_seq|]. cbn beta iota.
  pose proof (write_specs s2 pos K loc vstr__add_fmt_dbl usr_func strerror (b_len (s_base s)) specs texts HWr (length specs) ltac:(done)) as [_ Hput].
  rewrite Etx in Hput. wp_step. eapply wp_mono; [apply (Hput [] 0 s2); [by apply put_refl|unfold K; lia]|]. cbn beta. intros ok s3 Hres.
  wp_step. apply wp_gets. rewrite <- Eb2. destruct ok.
  - wp_step. apply wp_modify. wp_step. destruct Hres as [Hw3 _ Hc3 _ _ _]. rewrite app_nil_l in Hc3.
    split; [by apply wf_malloc_bad|]. left. rewrite (same_memory_content _ _ Hm2) in Hc3. split_and!.
    + pose proof (wf_content_length _ Hw3) as Hz. rewrite Hc3, !length_app, length_fmap, !Nat2Z.inj_add, length_ztake, length_zdrop in Hz.
      rewrite <- (same_memory_content _ _ Hm2) in Hz. pose proof (wf_content_length _ Hw2). unfold VSTR_MAX_NODE_ALL in HK.
      rewrite u64_id; unfold SIZE_MAX, K in *; lia.
    + rewrite <- Hc3. apply same_memory_content, malloc_bad_memory.
    + unfold on_conf. cbn [s_conf]. by destruct (s_conf s3).
  - wp_step. eapply wp_mono; [apply (wp_unbind (B := unit) _ (λ _, fmt_restore_bad (malloc_bad (s_conf s)))); by apply (fmt_failed_spec s2 pos K)|]. cbn beta. intros _ s4' Hs4. wp_step.
    eapply wp_mono; [exact Hs4|]. cbn beta. intros _ s4 (Hw4&Hc4&Hb4). wp_step.
    split; [done|]. right. split; [done|]. split; [|by left]. rewrite Hc4. by apply same_memory_content.
Qed.
End writing.


(** "%+d: %5s|%#x" with -42, "hi" and 255 *)
Definition demo_format : format :=
  ([([], Dir_conv (mkDir [ch "+"] Num_none Num_none FMT_UINT Conv_d));
    (chrs [":"; " "]%char, Dir_conv (mkDir [] (Num_lit 5) Num_none FMT_UINT Conv_s));
    (chrs ["|"]%char, Dir_conv (mkDir [ch "#"] Num_none Num_none FMT_UINT Conv_x))], chrs ["."]%char).
Definition demo_null : list Z := chrs ["("; "n"; "u"; "l"; "l"; ")"]%char.
Definition demo_hi : list Z := chrs ["h"; "i"]%char.
Definition demo_block : positive := h_next (s_heap demo1).
Definition demo_fmt : St := run (local_array (format_chrs demo_format ++ [0] ++ demo_hi ++ [0] ++ demo_null)) demo1.
Definition demo_hi_at : pointer := Ptr demo_block 14.
Definition demo_loc : Vstr_locale := mkLoc [mkLocNum 0 [] (Ptr demo_block 17) 0] (Ptr demo_block 17) 6.
Definition demo_strs (p : option pointer) : list Z := match p with Some _ => demo_hi | None => demo_null end.
Definition demo_args : list va_arg := [V_num 32 (-42); V_ptr (Some demo_hi_at); V_num 32 255].
Definition demo_out : list Z := chrs ["-"; "4"; "2"; ":"; " "; " "; " "; " "; "h"; "i"; "|"; "0"; "x"; "f"; "f"; "."]%char.
Definition no_dbl : Z → fmt_spec → M bool := λ _ _, mret false.
Definition no_usr : nat → Z → Vstr_fmt_spec → M bool := λ _ _ _, mret false.

Example demo_fmt_written :
  (λ '(r, s), (r.1, st_content s)) <$> vstr_add_sysfmt demo_loc no_dbl no_usr [] (mkFC 0 0 no_names) 3 (Ptr demo_block 0) demo_args demo_fmt =
  Some (16, ztake 3 (st_content demo1) ++ (Some <$> demo_out) ++ zdrop 3 (st_content demo1)).
Proof. by vm_compute. Qed.
(** "%10.3s" of "hi" writes three characters, where the C standard says ten. *)
Definition demo_cut : format := ([([], Dir_conv (mkDir [] (Num_lit 10) (Num_lit 3) FMT_UINT Conv_s))], []).
Definition demo_fmt_cut : St := run (local_array (format_chrs demo_cut ++ [0] ++ demo_hi ++ [0] ++ demo_null)) demo1.
Definition demo_cut_at (off : Z) : pointer := Ptr demo_block (zlen (format_chrs demo_cut) + off).
Definition demo_cut_loc : Vstr_locale := mkLoc [mkLocNum 0 [] (demo_cut_at 4) 0] (demo_cut_at 4) 6.
Example fmt_field_cut :
  (λ '(r, s), (r.1, ztake (r.1) (st_content s))) <$>
    vstr_add_sysfmt demo_cut_loc no_dbl no_usr [] (mkFC 0 0 no_names) 0 (Ptr demo_block 0) [V_ptr (Some (demo_cut_at 1))] demo_fmt_cut =
    Some (3, Some <$> chrs [" "; "h"; "i"]%char) ∧
  format_text demo_strs (demo_cut.1) (demo_cut.2) [V_ptr (Some (demo_cut_at 1))] = Some (zrep 8 (ch " ") ++ demo_hi) ∧
  no_cut (demo_cut.1) [V_ptr (Some (demo_cut_at 1))] = false.
Proof. by vm_compute. Qed.
Lemma demo_fmt_wf : wf demo_fmt.
Proof.
  apply (run_wp _ demo1 wf). eapply wp_mono; [apply (local_array_put demo1 0 _ [] 0 demo1)|].
  - apply put_refl. exact demo1_wf.
  - intros p s' [HP _]. apply HP.
Qed.
Lemma demo_shown off bs : load (h_mem (s_heap demo_fmt)) (Ptr demo_block off) (zlen bs) = Some bs → shown demo_fmt (Ptr demo_block off) bs.
Proof. intros H. split; [exact H|]. apply (bool_decide_unpack _). by vm_compute. Qed.
Lemma demo_cstr off bs : load (h_mem (s_heap demo_fmt)) (Ptr demo_block off) (zlen (bs ++ [0])) = Some (bs ++ [0]) →
  bool_decide (Forall (λ c, c ≠ 0) bs) = true → cstr_at demo_fmt (Ptr demo_block off) bs.
Proof. intros Hl Hb. split; [by apply demo_shown|by apply bool_decide_eq_true in Hb]. Qed.
Lemma demo_plain_locale : plain_locale demo_fmt demo_loc demo_strs.
Proof.
  split; [|split; [|done]].
  - intros base [->|[->| ->]]; exists (mkLocNum 0 [] (Ptr demo_block 17) 0); (split; by vm_compute).
  - apply demo_shown. by vm_compute.
Qed.
Lemma demo_args_ok : Forall (arg_ok demo_fmt demo_strs) demo_args.
Proof.
  constructor; [done|]. constructor; [apply demo_cstr; by vm_compute|]. by constructor.
Qed.

