(* ===== verification/Netstr.v ===== *)
(** * Netstrings (src/vstr_add_netstr.c, src/vstr_parse_netstr.c): a number, a
    colon, that many characters and a comma.

    A netstring is begun with the digits of ULONG_MAX, which leave room for the
    number; when its data has been added, the number is written over them, and
    what is left of them is deleted ([vstr_add_netstr_end]) or is zeros
    ([vstr_add_netstr2_end]). *)
From Stdlib Require Import ZArith Lia ZifyBool Ascii.
From stdpp Require Import base tactics list numbers option gmap.
From S2P Require Import Prelude State Wp Ref Cache Core Add Del Base Iter Spn Sub Parse Fmt FmtUsr FmtParse.

(** The number of digits of ULONG_MAX in 64 bits, which configure finds *)
Definition VSTR__ULONG_MAX_LEN : Z := 20.
Definition ULONG_MAX : Z := 2 ^ 64 - 1.
Definition VSTR__ASCII_COLON : Z := 0x3A.
Definition VSTR__ASCII_COMMA : Z := 0x2C.

Section beg.
Context (loc : Vstr_locale) (vstr__add_fmt_dbl : Z → fmt_spec → M bool) (usr_func : nat → Z → Vstr_fmt_spec → M bool)
  (strerror : list Z).

(** The position of the number, 0 if the memory runs out.  The format is a
    string literal. *)
Definition vstr_add_netstr2_beg (fc : fmt_conf) (pos : Z) : M (Z * fmt_conf) :=
  b ← get_base;
  if decide (b_len b < pos) then mret (0, fc)
  else
    let ret := u64 (pos + 1) in
    fmt ← local_array (chrs ["%"; "l"; "u"; "%"; "c"]%char ++ [0]);
    '(tmp, fc) ← vstr_add_sysfmt loc vstr__add_fmt_dbl usr_func strerror fc pos fmt
                   [V_num 64 ULONG_MAX; V_num 32 VSTR__ASCII_COLON];
    if decide (tmp = 0) then mret (0, fc) else mret (ret, fc).
Definition vstr_add_netstr_beg := vstr_add_netstr2_beg.
End beg.

(** The loop that writes the digits backwards into buf: what is in it from
    [count] to VSTR__ULONG_MAX_LEN.  The fuel is the room before. *)
Fixpoint netstr_digits (room : nat) (len : Z) (digits : list Z) : option (list Z) :=
  if decide (len = 0) then Some digits
  else match room with
  | O => None
  | S room => netstr_digits room (len / 10) (0x30 + len mod 10 :: digits)
  end.

(** The comma is added and the digits of the length are written to buf. *)
Definition vstr__netstr_end_start (beg_pos end_pos : Z) : M (option (list Z)) :=
  b ← get_base;
  if negb (bool_decide (beg_pos < end_pos)) then mret None
  else if negb (bool_decide (end_pos ≤ b_len b)) then mret None
  else if negb (bool_decide (VSTR__ULONG_MAX_LEN < vstr_sc_posdiff beg_pos end_pos)) then mret None
  else
    let len := u64 (end_pos - u64 (beg_pos + VSTR__ULONG_MAX_LEN)) in
    ok ← vstr_add_rep_chr end_pos VSTR__ASCII_COMMA 1;
    if negb (ok : bool) then mret None
    else
      digits ← of_option (netstr_digits (Z.to_nat VSTR__ULONG_MAX_LEN) len []);
      mret (Some digits).

Definition vstr_add_netstr2_end (netstr_beg_pos netstr_end_pos : Z) : M bool :=
  r ← vstr__netstr_end_start netstr_beg_pos netstr_end_pos;
  match r with
  | None => mret false
  | Some digits =>
    let count := VSTR__ULONG_MAX_LEN - zlen digits in
    buf ← local_array (zrep count 0x30 ++ digits);
    vstr_sub_buf netstr_beg_pos count buf count;;
    vstr_sub_buf (u64 (netstr_beg_pos + count)) (VSTR__ULONG_MAX_LEN - count) (ptr_add buf count) (VSTR__ULONG_MAX_LEN - count);;
    mret true
  end.

Definition vstr_add_netstr_end (netstr_beg_pos netstr_end_pos : Z) : M bool :=
  r ← vstr__netstr_end_start netstr_beg_pos netstr_end_pos;
  match r with
  | None => mret false
  | Some digits =>
    (* here we delete, so need to keep something *)
    let digits := if decide (VSTR__ULONG_MAX_LEN - zlen digits = VSTR__ULONG_MAX_LEN) then 0x30 :: digits else digits in
    let count := VSTR__ULONG_MAX_LEN - zlen digits in
    ok ← (if decide (count = 0) then mret true else vstr_del netstr_beg_pos count);
    if negb (ok : bool) then vstr_del (u64 (netstr_end_pos + 1)) 1;; mret false
    else
      buf ← local_array digits;
      vstr_sub_buf netstr_beg_pos (VSTR__ULONG_MAX_LEN - count) buf (VSTR__ULONG_MAX_LEN - count);;
      mret true
  end.

(** The length of the netstring at the position, 0 if there is none, and
    *ret_pos and *ret_data_len *)
Section parse.
Context (have_ascii_alpha : bool).
Definition vstr__parse_netstr (pos len : Z) (netstr2 : bool) : M (Z * Z * Z) :=
  let flags := VSTR_FLAG_PARSE_NUM_OVERFLOW in
  let flags := if netstr2 then flags else Z.lor flags VSTR_FLAG_PARSE_NUM_NO_BEG_ZERO in
  '(data_len, num_len, _) ← vstr_parse_ulong have_ascii_alpha pos len (Z.lor 10 flags);
  if decide (num_len = 0) then mret (0, 0, 0)
  else if decide (num_len = len) then mret (0, 0, 0)
  else
    c ← vstr_export_chr (u64 (pos + num_len));
    if decide (c ≠ VSTR__ASCII_COLON) then mret (0, 0, 0)
    else
      let ret_pos := u64 (pos + num_len + 1) in
      let ret_len := u64 (data_len + (num_len + 2)) in
      if decide (len < ret_len) then mret (0, ret_pos, data_len)
      else
        c ← vstr_export_chr (u64 (pos - 1 + ret_len));
        if decide (c ≠ VSTR__ASCII_COMMA) then mret (0, ret_pos, data_len)
        else mret (ret_len, ret_pos, data_len).
Definition vstr_parse_netstr2 (pos len : Z) : M (Z * Z * Z) := vstr__parse_netstr pos len true.
Definition vstr_parse_netstr (pos len : Z) : M (Z * Z * Z) := vstr__parse_netstr pos len false.
End parse.
