(* ===== verification/NetstrSpec.v ===== *)
(** * Netstrings: what is written reads back.

    Netstrings: the theorems. *)
From Stdlib Require Import ZArith Lia ZifyBool Ascii.
From stdpp Require Import base tactics list numbers option gmap.
From S2P Require Import Prelude State Wp Ref Cache Core Add Del Base Iter Sub NoCstr Inv PosLemmas SpareLemmas SplitLemmas CacheLemmas AddLemmas StringLemmas AddSpec AddOps AddTheorems DelSpec DelTheorems IterLemmas InPlace DelAtomic SubSpec Spn SpnSpec SpnTheorems AddVstrSpec CmpSpec SrchSpec Parse ParseSpec ParseIp Demo Fmt FmtUsr FmtParse Puts FmtSpec FmtRead FmtText FmtTheorems Netstr.

(** ** The number *)
Lemma digits_step n : 10 ≤ n → digits 10 n = digits 10 (n / 10) ++ [n mod 10].
Proof.
  intros Hn. assert (Hl : ∀ m, 1 ≤ m → m < 10 ^ Z.of_nat (S (Z.to_nat (Z.log2 m)))).
  { intros m Hm. rewrite Nat2Z.inj_succ, Z2Nat.id by apply Z.log2_nonneg. pose proof (Z.log2_spec m ltac:(lia)) as [_ H].
    eapply Z.lt_le_trans; [exact H|]. apply Z.pow_le_mono_l. lia. }
  assert (Hq : 1 ≤ n / 10) by (apply Z.div_le_lower_bound; lia).
  unfold digits at 1. cbn [digits_fuel]. rewrite decide_False by lia. f_equal.
  apply digits_fuel_enough; [lia| |by apply Hl| |done].
  - split; [lia|]. apply Z.div_lt_upper_bound; [lia|]. specialize (Hl n ltac:(lia)). by rewrite Nat2Z.inj_succ, Z.pow_succ_r in Hl by lia.
  - intros E. pose proof (Z.log2_le_mono 10 n ltac:(lia)) as Hm. change (Z.log2 10) with 3 in Hm. lia.
Qed.
Lemma netstr_digits_spec room : ∀ n acc, 1 ≤ n < 10 ^ Z.of_nat room → netstr_digits room n acc = Some (num_chrs 10 n ++ acc).
Proof.
  induction room as [|room IH]; intros n acc Hn; [cbn in Hn; lia|]. cbn [netstr_digits]. rewrite decide_False by lia.
  rewrite Nat2Z.inj_succ, Z.pow_succ_r in Hn by lia. destruct (decide (n < 10)) as [H|H].
  - rewrite Z.div_small, Z.mod_small by lia. unfold num_chrs, digits. cbn [digits_fuel]. rewrite decide_True by lia. cbn.
    unfold digit_chr. rewrite decide_True by lia. by destruct room.
  - rewrite IH by (split; [apply Z.div_le_lower_bound; lia|apply Z.div_lt_upper_bound; lia]). f_equal.
    unfold num_chrs. rewrite (digits_step n), fmap_app, <- app_assoc by lia. do 2 f_equal. cbn.
    pose proof (Z.mod_pos_bound n 10). unfold digit_chr. by rewrite decide_True by lia.
Qed.
(** The digits of a length, none for 0 *)
Definition len_chrs (n : Z) : list Z := if decide (n = 0) then [] else num_chrs 10 n.
Lemma netstr_digits_len n : 0 ≤ n ≤ SIZE_MAX → netstr_digits (Z.to_nat VSTR__ULONG_MAX_LEN) n [] = Some (len_chrs n).
Proof.
  intros Hn. unfold len_chrs. case_decide as H; [by subst|]. rewrite netstr_digits_spec, app_nil_r; [done|].
  unfold SIZE_MAX in Hn. change (10 ^ _) with 100000000000000000000. lia.
Qed.
Lemma digits_fuel_len room : ∀ n f, 0 ≤ n < 10 ^ Z.of_nat room → room ≠ O → f ≠ O → n < 10 ^ Z.of_nat f → zlen (digits_fuel 10 f n) ≤ Z.of_nat room.
Proof.
  induction room as [|room IH]; intros n [|f] Hn H1 H2 Hf; try done. cbn [digits_fuel]. case_decide as Hlt; [cbn; lia|].
  rewrite Nat2Z.inj_succ, Z.pow_succ_r in Hn, Hf by lia. rewrite length_app, Nat2Z.inj_add. cbn [length].
  assert (Hq : 1 ≤ n / 10) by (apply Z.div_le_lower_bound; lia).
  assert (n / 10 < 10 ^ Z.of_nat room) by (apply Z.div_lt_upper_bound; lia).
  assert (n / 10 < 10 ^ Z.of_nat f) by (apply Z.div_lt_upper_bound; lia).
  assert (room ≠ O) by (intros ->; cbn in *; lia). assert (f ≠ O) by (intros ->; cbn in *; lia).
  specialize (IH (n / 10) f). lia.
Qed.
Lemma num_chrs_len n : 0 ≤ n ≤ SIZE_MAX → 1 ≤ zlen (num_chrs 10 n) ≤ VSTR__ULONG_MAX_LEN.
Proof.
  intros Hn. unfold SIZE_MAX in Hn. unfold num_chrs. rewrite length_fmap. split.
  - destruct (digits_spec 10 ltac:(lia) n ltac:(lia)) as (_&_&d&ds&->&_). cbn. lia.
  - apply (digits_fuel_len 20); [change (10 ^ _) with 100000000000000000000; lia|done|done|].
    rewrite Nat2Z.inj_succ, Z2Nat.id by apply Z.log2_nonneg. destruct (decide (n = 0)) as [->|]; [by vm_compute|].
    pose proof (Z.log2_spec n ltac:(lia)) as [_ H]. eapply Z.lt_le_trans; [exact H|]. apply Z.pow_le_mono_l. lia.
Qed.
Lemma len_chrs_len n : 0 ≤ n ≤ SIZE_MAX → 0 ≤ zlen (len_chrs n) ≤ VSTR__ULONG_MAX_LEN.
Proof. intros Hn. unfold len_chrs. case_decide; [done|]. pose proof (num_chrs_len n Hn). lia. Qed.

(** The number as the two kinds of netstrings write it *)
Definition netstr_num (netstr2 : bool) (n : Z) : list Z :=
  if netstr2 then zrep (VSTR__ULONG_MAX_LEN - zlen (len_chrs n)) 0x30 ++ len_chrs n else num_chrs 10 n.
Lemma netstr_num_len netstr2 n : 0 ≤ n ≤ SIZE_MAX → 1 ≤ zlen (netstr_num netstr2 n) ≤ VSTR__ULONG_MAX_LEN.
Proof.
  intros Hn. unfold netstr_num. destruct netstr2; [|by apply num_chrs_len]. pose proof (len_chrs_len n Hn).
  rewrite length_app, Nat2Z.inj_add, length_zrep. unfold VSTR__ULONG_MAX_LEN in *. lia.
Qed.
(** A netstring up to what follows it *)
Definition netstr (num : list Z) (data : list byte_or_non) : list byte_or_non :=
  (Some <$> num) ++ Some VSTR__ASCII_COLON :: data ++ [Some VSTR__ASCII_COMMA].
(** What a number is read from: no zeros before it, or, in a netstring2, some *)
Definition is_netstr_num (netstr2 : bool) (n : Z) (num : list Z) : Prop :=
  num = num_chrs 10 n ∨ netstr2 = true ∧ ∃ z, 1 ≤ z ∧ num = zrep z 0x30 ++ len_chrs n.
Lemma netstr_num_is netstr2 n : 0 ≤ n ≤ SIZE_MAX → is_netstr_num netstr2 n (netstr_num netstr2 n).
Proof.
  intros Hn. unfold is_netstr_num, netstr_num. destruct netstr2; [|by left]. pose proof (len_chrs_len n Hn) as Hl.
  destruct (decide (zlen (len_chrs n) = VSTR__ULONG_MAX_LEN)) as [E|E].
  - left. rewrite E, Z.sub_diag. unfold len_chrs in *. by case_decide.
  - right. split; [done|]. exists (VSTR__ULONG_MAX_LEN - zlen (len_chrs n)). split; [lia|done].
Qed.

(** ** Reading one *)
Lemma replicate_count (c : Z) (x : byte_or_non) (l : list byte_or_non) n : x ≠ Some c →
  count_while (in_chrs (Some [c])) (replicate n (Some c : byte_or_non) ++ x :: l) = Z.of_nat n.
Proof.
  intros Hx. induction n as [|n IH]; cbn [replicate app]; [by apply count_none|].
  rewrite count_one, decide_True by done. rewrite IH. lia.
Qed.
Lemma num_chrs_0_10 : num_chrs 10 0 = [0x30].
Proof. by apply num_chrs_0. Qed.

Ltac chr_lia := unfold byte_or_non in *; lia.
Section parse.
Context {OT : Others}.
Context (ascii : bool) (s0 : St) (pos len : Z) (netstr2 : bool).
Local Abbreviation whole := (substr pos len (st_content s0)).
Hypothesis Hw0 : wf s0.
Hypothesis Hr : in_range s0 pos len.
Hypothesis Hfit : range_fits pos len.
Local Abbreviation flags := (Z.lor 10 (if netstr2 then VSTR_FLAG_PARSE_NUM_OVERFLOW
  else Z.lor VSTR_FLAG_PARSE_NUM_OVERFLOW VSTR_FLAG_PARSE_NUM_NO_BEG_ZERO)).

Lemma flags_base : Z.land flags VSTR__MASK_PARSE_NUM_BASE = 10.
Proof. by destruct netstr2. Qed.
Lemma colon_ends (rest : list byte_or_non) : ends_number ascii flags 10 (Some VSTR__ASCII_COLON :: rest).
Proof. split; [by destruct ascii, netstr2|]. left. by destruct netstr2. Qed.

(** Zeros before the number: only netstring2 has them. *)
Lemma parse_num_zeros_many s z (x : byte_or_non) l :
  still s0 s → 1 ≤ z → whole = zrep z (Some 0x30 : byte_or_non) ++ x :: l → x ≠ Some 0x30 → netstr2 = true →
  wp (parse_num_zeros pos len flags 10 false false) s (λ r s', still s0 s' ∧ r = mkBeg 10 (pos + z) (len - z) false true 0).
Proof.
  intros Hs Hz E Hx ->. pose proof Hr as (Hp&Hl1&_). unfold range_fits in Hfit. pose proof (substr_length _ _ _ Hw0 Hr) as Hwl.
  assert (Hl : len = z + 1 + zlen l).
  { rewrite <- Hwl, E, length_app, Nat2Z.inj_add, length_zrep. cbn [length]. lia. }
  unfold parse_num_zeros. wp_step. eapply wp_mono.
  { pose proof (spn_spec s0 pos len (Z.lor 10 VSTR_FLAG_PARSE_NUM_OVERFLOW) Hw0 Hr eq_refl s 0 [0x30] Hs ltac:(lia)) as H. rewrite Z.add_0_r, Z.sub_0_r in H. exact H. }
  intros r s1 [Hs1 ->]. rewrite zdrop_0, E by lia. unfold zrep. rewrite replicate_count by done. rewrite Z2Nat.id by lia.
  unfold parse_num_prefix. rewrite decide_False by (intros [_ [|[|]]]; done). rewrite decide_False by (intros [? ?]; done).
  wp_steps. rewrite decide_False by (intros [? ?]; done). rewrite decide_False by lia. rewrite u64_id by lia. wp_steps.
  split; [done|]. by rewrite bool_decide_eq_true_2 by lia.
Qed.

Lemma parse_len n num (rest : list byte_or_non) s :
  still s0 s → 0 ≤ n ≤ SIZE_MAX → is_netstr_num netstr2 n num → whole = (Some <$> num) ++ Some VSTR__ASCII_COLON :: rest →
  wp (vstr_parse_ulong ascii pos len flags) s (λ r s', still s0 s' ∧ r.1 = (n, zlen num)).
Proof.
  intros Hs Hn Hnum E. pose proof Hr as (Hp&Hl1&_). unfold SIZE_MAX in Hn. unfold range_fits, SIZE_MAX in Hfit.
  pose proof (substr_length _ _ _ Hw0 Hr) as Hwl. rewrite E, length_app, length_fmap, Nat2Z.inj_add in Hwl. cbn [length] in Hwl.
  assert (Hsp : flag flags VSTR_FLAG_PARSE_NUM_SPACE = false) by (by destruct netstr2).
  assert (Hloc : flag flags VSTR_FLAG_PARSE_NUM_LOCAL = false) by (by destruct netstr2).
  destruct (decide (n = 0 ∧ num = num_chrs 10 n)) as [[-> ->]|Hn0].
  { (* "0:" *)
    rewrite num_chrs_0_10 in *. cbn in E, Hwl. unfold vstr_parse_ulong, parse_num_ufunc. wp_step.
    eapply (parse_num_beg_eq s0 pos len flags 10 Hw0 Hr Hfit flags_base ltac:(lia) Hsp s [] _ _ _ Hs); [by left|exact E|done|done|].
    change (zlen []) with 0. rewrite Z.add_0_r, Z.sub_0_r. intros s1 Hs1. change (is_minus []) with false. eapply wp_mono.
    { pose proof (parse_num_zeros_ten s0 pos len flags 10 Hw0 Hr Hfit flags_base ltac:(lia) Hsp s1 0 false Hs1 ltac:(lia) (Some VSTR__ASCII_COLON) rest eq_refl) as H.
      rewrite zdrop_0, Z.add_0_r, Z.sub_0_r in H by lia. apply H; done. }
    cbn beta. intros b s2 [Hs2 Hb]. destruct (flag _ VSTR_FLAG_PARSE_NUM_NO_BEG_ZERO).
    - destruct Hb as [Hb1 Hb2]. rewrite Hb1, Hb2. rewrite decide_False, decide_True by done. wp_steps. split; [done|]. cbn. f_equal. chr_lia.
    - subst b. cbn [nb_base nb_neg]. rewrite !decide_False by done. wp_step. eapply wp_mono.
      { apply (parse_num_digits_eq ascii s0 pos len flags 10 64 Hw0 Hr Hsp Hloc s2 (0 + 1) false true [] []
          (Some VSTR__ASCII_COLON :: rest) 0 Hs2); [lia|rewrite E; done|constructor|apply colon_ends|done]. }
      cbn beta. intros r s3 [Hs3 ->]. wp_steps. split; [done|]. cbn. f_equal. chr_lia. }
  destruct Hnum as [->|(H2&z&Hz&->)].
  { assert (H1 : 1 ≤ n) by (destruct (decide (n = 0)); [tauto|lia]). clear Hn0.
    eapply wp_mono; [eapply (parse_num_ufunc_spec ascii s0 pos len flags 10 64 Hw0 Hr Hfit flags_base ltac:(lia) Hsp Hloc ltac:(lia) [] n
      (Some VSTR__ASCII_COLON :: rest) ltac:(by left) E ltac:(by left) (colon_ends rest) ltac:(lia)); done|].
    cbn beta. intros r s1 [Hs1 ->]. split; [done|]. cbn. f_equal. unfold uwrap. rewrite Z.mod_small by lia. done. }
  clear Hn0. unfold vstr_parse_ulong, parse_num_ufunc. wp_step.
  assert (Ez : whole = zrep z (Some 0x30 : byte_or_non) ++ (Some <$> len_chrs n) ++ Some VSTR__ASCII_COLON :: rest).
  { rewrite E, fmap_app, zrep_fmap, <- app_assoc. done. }
  assert (Hx : ∃ x l, (Some <$> len_chrs n) ++ Some VSTR__ASCII_COLON :: rest = x :: l ∧ x ≠ Some 0x30).
  { unfold len_chrs. case_decide; [by eexists _, _|]. destruct (num_chrs_head 10 n ltac:(lia) ltac:(lia)) as (c&cs&->&Hc&_).
    eexists _, _. split; [done|]. congruence. }
  destruct Hx as (x&l&Ex&Hx). rewrite length_app, Nat2Z.inj_add, length_zrep in Hwl.
  assert (Eh : whole = Some 0x30 :: zrep (z - 1) (Some 0x30 : byte_or_non) ++ x :: l).
  { rewrite Ez, Ex. replace z with (1 + (z - 1)) at 1 by lia. by rewrite <- zrep_app by lia. }
  eapply (parse_num_beg_eq s0 pos len flags 10 Hw0 Hr Hfit flags_base ltac:(lia) Hsp s [] _ _ _ Hs); [by left|exact Eh|done|done|].
  change (zlen []) with 0. rewrite Z.add_0_r, Z.sub_0_r. intros s1 Hs1. change (is_minus []) with false. eapply wp_mono.
  { apply (parse_num_zeros_many s1 z x l); try done. by rewrite Ez, Ex. }
  cbn beta. intros b s2 [Hs2 ->]. cbn [nb_base nb_neg]. rewrite !decide_False by done. wp_step.
  eapply wp_mono with (P := λ r s', still s0 s' ∧ r = Some (n, zlen (Some VSTR__ASCII_COLON :: rest), 0)).
  { assert (Hd : zdrop z whole = (Some <$> len_chrs n) ++ Some VSTR__ASCII_COLON :: rest).
    { rewrite Ez. rewrite zdrop_app_r, length_zrep, zdrop_0 by (rewrite ?length_zrep; chr_lia). done. }
    unfold len_chrs in Hd, Hwl |- *. case_decide as H0.
    - subst n. apply (parse_num_digits_eq ascii s0 pos len flags 10 64 Hw0 Hr Hsp Hloc s2 z false true [] []
          (Some VSTR__ASCII_COLON :: rest) 0 Hs2); [lia|exact Hd|constructor|apply colon_ends|done].
    - eapply wp_mono; [apply (parse_num_digits_spec ascii s0 pos len flags 10 64 Hw0 Hr ltac:(lia) Hsp Hloc ltac:(lia) s2 z false true n
          (Some VSTR__ASCII_COLON :: rest) Hs2 ltac:(lia) Hd ltac:(lia) (colon_ends rest) ltac:(lia))|].
      cbn beta. intros r s3 [Hs3 ->]. split; [done|]. unfold uwrap. rewrite Z.mod_small by lia. reflexivity. }
  cbn beta. intros r s3 [Hs3 ->]. wp_steps. split; [done|]. cbn [fst]. f_equal.
  rewrite length_app, Nat2Z.inj_add, length_zrep. cbn [length]. lia.
Qed.

Lemma chr_at s i x : still s0 s → 0 ≤ i < len → whole !! Z.to_nat i = Some x →
  wp (vstr_export_chr (pos + i)) s (λ r s', still s0 s' ∧ r = chr_val x).
Proof.
  intros [Ho Hw] Hi Hx. pose proof Hr as (Hp&Hl1&Hle). destruct (only_pos_same _ _ Ho) as (_&_&_&_&El&_&_&_&Ec).
  eapply wp_mono; [apply vstr_export_chr_spec; [done|lia]|]. intros r s' (Ho'&Hw'&y&Hy&->).
  split; [split; [by eapply only_pos_trans|done]|]. f_equal. rewrite Ec in Hy. unfold substr, ztake, zdrop in Hx.
  rewrite lookup_take_lt, lookup_drop in Hx by lia. replace (Z.to_nat (pos - 1) + Z.to_nat i)%nat with (Z.to_nat (pos + i - 1)) in Hx by lia.
  congruence.
Qed.

(** A netstring, and what follows it *)
Lemma vstr__parse_netstr_spec num (data rest : list byte_or_non) s :
  still s0 s → zlen data ≤ SIZE_MAX → is_netstr_num netstr2 (zlen data) num → whole = netstr num data ++ rest →
  wp (vstr__parse_netstr ascii pos len netstr2) s (λ r s', still s0 s' ∧
    r = (zlen num + zlen data + 2, pos + zlen num + 1, zlen data)).
Proof.
  intros Hs Hmax Hnum E. pose proof Hr as (Hp&Hl1&Hle). pose proof (wf_len_max _ Hw0). unfold range_fits in Hfit.
  pose proof (substr_length _ _ _ Hw0 Hr) as Hwl. unfold netstr in E. rewrite <- app_assoc in E. cbn [app] in E. rewrite <- app_assoc in E. cbn [app] in E.
  assert (Hl : len = zlen num + 1 + zlen data + 1 + zlen rest).
  { rewrite <- Hwl, E, !length_app, length_fmap. cbn [length]. rewrite length_app. cbn [length]. chr_lia. }
  assert (Hn0 : zlen num ≠ 0).
  { destruct Hnum as [->|(_&z&Hz&->)]; [pose proof (num_chrs_len (zlen data) ltac:(lia)); lia|]. rewrite length_app, Nat2Z.inj_add, length_zrep. lia. }
  unfold vstr__parse_netstr. wp_step. eapply wp_mono; [eapply (parse_len (zlen data) num); [done|lia|done|exact E]|].
  intros [[a b] c] s1 [Hs1 Eab]. cbn in Eab. injection Eab as -> ->. rewrite decide_False, decide_False by lia.
  rewrite (u64_id (pos + zlen num)) by lia. wp_step. eapply wp_mono.
  { apply (chr_at s1 (zlen num) (Some VSTR__ASCII_COLON)); [done|lia|]. rewrite E, Nat2Z.id.
    replace (length num) with (length (Some <$> num : list byte_or_non)) by apply length_fmap.
    by rewrite lookup_app_r, Nat.sub_diag by lia. }
  cbn beta. intros r s2 [Hs2 ->]. rewrite decide_False by (intros X; by apply X).
  rewrite (u64_id (zlen data + _)), (u64_id (pos + zlen num + 1)) by lia. cbv zeta. rewrite decide_False by lia.
  rewrite (u64_id (pos - 1 + _)) by lia. replace (pos - 1 + (zlen data + (zlen num + 2))) with (pos + (zlen num + 1 + zlen data)) by lia.
  wp_step. eapply wp_mono.
  { apply (chr_at s2 (zlen num + 1 + zlen data) (Some VSTR__ASCII_COMMA)); [done|lia|]. rewrite E.
    rewrite lookup_app_r by (rewrite length_fmap; lia). rewrite length_fmap.
    replace (Z.to_nat _ - _)%nat with (S (length data)) by lia.
    by apply (list_lookup_middle data rest (Some VSTR__ASCII_COMMA)). }
  cbn beta. intros r s3 [Hs3 ->]. rewrite decide_False by (intros X; by apply X). wp_steps. split; [done|]. f_equal. f_equal. lia.
Qed.
End parse.

(** ** Writing one *)
Lemma take_out_one {A} (a b : list A) x : ztake (zlen a) (a ++ x :: b) ++ zdrop (zlen a + 1) (a ++ x :: b) = a ++ b.
Proof.
  rewrite ztake_app_len, zdrop_app_r by lia. replace (zlen a + 1 - zlen a) with 1 by lia. done.
Qed.

Section finish.
Context {OT : Others}.

Lemma wp_only_buf {A} (m : M A) s (Q : A → St → Prop) : leaves (BP := only_buf_prop) m → only_buf (s_base s) = true →
  wp m s Q → wp m s (λ a s', Q a s' ∧ only_buf (s_base s') = true).
Proof. intros HL Ho Hm. apply wp_run in Hm as (a&s'&E&HQ). apply wp_run. exists a, s'. split; [done|]. split; [done|]. by eapply HL. Qed.

Lemma local_array_spec bs s : wf s → wp (local_array bs) s (λ p s', wf s' ∧ s_base s' = s_base s ∧ s_conf s' = s_conf s ∧
  st_content s' = st_content s ∧ buf_src (s_heap s') (st_own s') p (Some <$> bs)).
Proof.
  intros Hw. pose proof (local_array_put s 0 bs [] 0 s (put_refl s 0 Hw)) as H. apply wp_run in H as (p&s'&E&HP&Hsrc).
  apply wp_run. exists p, s'. split; [done|]. split; [apply HP|]. pose proof (pu_content _ _ _ _ _ HP) as Hc.
  rewrite ztake_0, zdrop_0, !app_nil_l in Hc by done. unfold local_array in E. destruct s as [[] ? ?]. by injection E as <- <-.
Qed.

(** Characters over as many others of a string of BUF nodes *)
Lemma sub_in_place s pos (pre old tail : list byte_or_non) D buf :
  wf s → only_buf (s_base s) = true → st_content s = pre ++ old ++ tail → pos = zlen pre + 1 → zlen old = zlen D →
  buf_src (s_heap s) (st_own s) buf (Some <$> D) →
  wp (vstr_sub_buf pos (zlen D) buf (zlen D)) s (λ ok s', wf s' ∧ only_buf (s_base s') = true ∧
    st_content s' = pre ++ (Some <$> D) ++ tail ∧ s_conf s' = s_conf s ∧
    env_step 0 (s_heap s) (st_own s) (s_heap s') (st_own s')).
Proof.
  intros Hw Ho Hc -> Hl Hsrc. pose proof (wf_content_length _ Hw) as Hz. pose proof (wf_len_max _ Hw).
  rewrite Hc, !length_app, !Nat2Z.inj_add in Hz. unfold vstr_sub_buf. case_decide as H0.
  - destruct D; [|cbn in H0; lia]. destruct old; [|cbn in Hl; lia]. unfold wp, vstr_add_buf. rewrite u64_id by lia.
    rewrite add_inline_nothing by lia. split_and!; try done. apply env_step_perm; [done|done].
  - apply (wp_bind get_base), wp_gets. cbn beta. rewrite decide_True by (split; done).
    eapply wp_mono; [eapply (wp_only_buf _ _ _ (leaves_sub_buf_fast (BP := only_buf_prop) _ _ _) Ho); apply vstr__sub_buf_fast_spec; try done|].
    + unfold in_range. lia.
    + eapply range_type_buf; [by apply only_buf_range|done].
    + cbn beta. intros ok s' [(_&Hw'&Hc'&Ec&He&_) Ho']. split_and!; try done. rewrite Hc', Hc. unfold zwrite. rewrite length_fmap.
      replace (zlen pre + 1 - 1) with (zlen pre) by lia. rewrite ztake_app_len, <- Hl. do 2 f_equal.
      rewrite zdrop_app_r by lia. replace (zlen pre + zlen old - zlen pre) with (zlen old) by lia. apply zdrop_app_len.
Qed.

(** What the comma and the digits leave to do *)
Record started (s : St) (beg end_ : Z) (ds : list Z) (s' : St) : Prop := {
  sr_wf : wf s';
  sr_only : only_buf (s_base s') = true;
  sr_digits : ds = len_chrs (end_ - (beg + VSTR__ULONG_MAX_LEN));
  sr_content : st_content s' = ztake end_ (st_content s) ++ Some VSTR__ASCII_COMMA :: zdrop end_ (st_content s);
  sr_boundary : boundary s' (end_ + 1);
  sr_room : room 2 1 s';
  sr_conf : conf_same (s_conf s) (s_conf s') }.
Definition netstr_range (s : St) (beg end_ : Z) : Prop := 1 ≤ beg ∧ beg + VSTR__ULONG_MAX_LEN ≤ end_ ∧ end_ ≤ b_len (s_base s).

Lemma vstr__netstr_end_start_spec s beg end_ :
  wf s → only_buf (s_base s) = true → netstr_range s beg end_ → room 5 5 s →
  wp (vstr__netstr_end_start beg end_) s (λ r s', match r with
    | None => wf s' ∧ st_content s' = st_content s ∧ malloc_bad (s_conf s') = true
    | Some ds => started s beg end_ ds s' end).
Proof.
  intros Hw Ho (Hb&Hbe&He) Hroom. pose proof (wf_len_max _ Hw). unfold VSTR__ULONG_MAX_LEN in Hbe. unfold vstr__netstr_end_start.
  apply (wp_bind get_base), wp_gets. cbn beta. rewrite (bool_decide_eq_true_2 (beg < end_)), (bool_decide_eq_true_2 (end_ ≤ _)) by lia. cbn [negb].
  assert (Hpd : vstr_sc_posdiff beg end_ = end_ - beg + 1) by (unfold vstr_sc_posdiff; rewrite (u64_id (end_ - beg)), u64_id by lia; lia).
  rewrite Hpd, (bool_decide_eq_true_2 (VSTR__ULONG_MAX_LEN < _)) by (unfold VSTR__ULONG_MAX_LEN; lia). cbn [negb].
  rewrite (u64_id (beg + _)), u64_id by (unfold VSTR__ULONG_MAX_LEN; lia). wp_step.
  assert (Hz : zlen (zrep 1 (Some VSTR__ASCII_COMMA) : list byte_or_non) = 1) by done.
  eapply wp_mono; [eapply (wp_only_buf _ _ _ (leaves_vstr_add_rep_chr (BP := only_buf_prop) _ _ _) Ho)|].
  { apply (wp_add_uses add_rep_chr_op _ s end_ _ 1 Hw Hz). apply vstr_add_rep_chr_full; [done|lia|done|].
    apply (add_room_uses add_rep_chr_op); [done|done|]. eapply room_le; [exact Hroom|unfold node_uses; lia|unfold node_uses; lia]. }
  cbn beta. intros ok s1 [(HP&HU&HB&_) Ho1]. unfold add_post in HP. rewrite decide_False in HP by lia. destruct HP as (Hw1&_&HP).
  destruct ok; cbn [negb]; [|by wp_steps]. wp_step. eapply wp_of_option.
  { apply netstr_digits_len. unfold VSTR__ULONG_MAX_LEN. lia. }
  wp_steps. split; try done.
  - rewrite Hz in HB. by apply HB.
  - eapply add_uses_room; [exact HU|]. eapply room_le; [exact Hroom|unfold node_uses; lia|unfold node_uses; lia].
  - apply HU.
Qed.

(** From the digits to the netstring, for both kinds *)
Section after_start.
Context (s s1 : St) (pre data rest : list byte_or_non) (hdr : list byte_or_non) (beg end_ : Z).
Hypothesis Hc : st_content s = pre ++ hdr ++ Some VSTR__ASCII_COLON :: data ++ rest.
Hypothesis Hh : zlen hdr = VSTR__ULONG_MAX_LEN.
Hypothesis Hbeg : beg = zlen pre + 1.
Hypothesis Hend : end_ = zlen pre + VSTR__ULONG_MAX_LEN + 1 + zlen data.
Hypothesis Hmax : b_len (s_base s) + 2 + VSTR_MAX_NODE_BUF ≤ SIZE_MAX.
Local Abbreviation tail := (Some VSTR__ASCII_COLON :: data ++ Some VSTR__ASCII_COMMA :: rest).

Lemma comma_content : ztake end_ (st_content s) ++ Some VSTR__ASCII_COMMA :: zdrop end_ (st_content s) = pre ++ hdr ++ tail.
Proof.
  assert (E : st_content s = (pre ++ hdr ++ Some VSTR__ASCII_COLON :: data) ++ rest) by by rewrite Hc, <- !app_assoc, <- app_comm_cons.
  assert (Hl : zlen (pre ++ hdr ++ Some VSTR__ASCII_COLON :: data) = end_).
  { rewrite !length_app, !Nat2Z.inj_add. cbn [length]. unfold byte_or_non in *. lia. }
  rewrite E, <- Hl, ztake_app_len, zdrop_app_len, <- !app_assoc, <- app_comm_cons. done.
Qed.
Lemma tail_netstr num : pre ++ (Some <$> num) ++ tail = pre ++ netstr num data ++ rest.
Proof. unfold netstr. by rewrite <- !app_assoc, <- app_comm_cons, <- app_assoc. Qed.
Lemma netstr_end_len : wf s → end_ - (beg + VSTR__ULONG_MAX_LEN) = zlen data ∧ 0 ≤ zlen data ≤ SIZE_MAX.
Proof.
  intros Hw. pose proof (wf_content_length _ Hw) as Hz. pose proof (wf_len_max _ Hw). rewrite Hc, !length_app, !Nat2Z.inj_add in Hz.
  cbn [length] in Hz. rewrite length_app in Hz. unfold byte_or_non in *. lia.
Qed.

(** vstr_add_netstr2_end: zeros, then the digits *)
Lemma netstr2_write ds : wf s1 → only_buf (s_base s1) = true → st_content s1 = pre ++ hdr ++ tail → zlen ds ≤ VSTR__ULONG_MAX_LEN →
  let count := VSTR__ULONG_MAX_LEN - zlen ds in
  wp (buf ← local_array (zrep count 0x30 ++ ds);
      vstr_sub_buf beg count buf count;;
      vstr_sub_buf (u64 (beg + count)) (VSTR__ULONG_MAX_LEN - count) (ptr_add buf count) (VSTR__ULONG_MAX_LEN - count);;
      mret true) s1 (λ ok s', ok = true ∧ wf s' ∧ st_content s' = pre ++ (Some <$> zrep count 0x30 ++ ds) ++ tail).
Proof.
  intros Hw1 Ho1 Hc1 Hds count. pose proof (wf_len_max _ Hw1). pose proof (wf_content_length _ Hw1) as Hz.
  rewrite Hc1, !length_app, !Nat2Z.inj_add in Hz. cbn [length] in Hz. unfold byte_or_non in *.
  assert (Hzc : zlen (zrep count 0x30) = count) by (rewrite length_zrep; chr_lia).
  wp_step. eapply wp_mono; [by apply local_array_spec|]. cbn beta. intros p s2 (Hw2&Eb2&Ec2&Hc2&Hsrc). rewrite Hc1 in Hc2. rewrite <- Eb2 in Ho1.
  assert (Hs1 : buf_src (s_heap s2) (st_own s2) p (Some <$> zrep count 0x30)).
  { destruct Hsrc as (bs&E&Hl&Hn). apply (inj (fmap Some)) in E as <-. exists (zrep count 0x30). split_and!; [done| |done].
    rewrite Hzc. apply (load_prefix _ _ _ count) in Hl; [|rewrite length_app; chr_lia]. by rewrite ztake_app_l, ztake_all in Hl by chr_lia. }
  assert (Hs2 : buf_src (s_heap s2) (st_own s2) (ptr_add p count) (Some <$> ds)).
  { apply (buf_src_drop _ _ _ _ count) in Hsrc; [|rewrite length_fmap, length_app; chr_lia]. rewrite fmap_app in Hsrc.
    by rewrite zdrop_app_r, length_fmap, Hzc, Z.sub_diag, zdrop_0 in Hsrc by (rewrite ?length_fmap; chr_lia). }
  wp_step. eapply wp_mono.
  { rewrite <- Hzc at 1 2. apply (sub_in_place s2 beg pre (ztake count hdr) (zdrop count hdr ++ tail)); [done|done| |done| |done].
    - rewrite Hc2. f_equal. by rewrite (app_assoc (ztake count hdr)), ztake_zdrop.
    - rewrite length_ztake, Hzc. chr_lia. }
  cbn beta. intros ok s3 (Hw3&Ho3&Hc3&_&He3). apply (buf_src_step _ _ _ _ _ _ _ He3) in Hs2.
  replace (VSTR__ULONG_MAX_LEN - count) with (zlen ds) by (unfold count; chr_lia). rewrite u64_id by (unfold VSTR__ULONG_MAX_LEN in *; chr_lia).
  wp_step. eapply wp_mono.
  { apply (sub_in_place s3 (beg + count) (pre ++ (Some <$> zrep count 0x30)) (zdrop count hdr) tail); [done|done| | | |done].
    - by rewrite <- app_assoc.
    - rewrite length_app, length_fmap, Nat2Z.inj_add, Hzc. unfold byte_or_non. chr_lia.
    - rewrite length_zdrop. unfold count in *. chr_lia. }
  cbn beta. intros ok' s4 (Hw4&Ho4&Hc4&_). wp_steps. split_and!; [done|done|]. rewrite Hc4, fmap_app. by rewrite <- !app_assoc.
Qed.

(** vstr_add_netstr_end: what the digits leave is deleted.  When that fails the
    comma is deleted again, which cannot fail. *)
Lemma netstr_write ds0 ds : wf s → started s beg end_ ds0 s1 → 1 ≤ zlen ds ≤ VSTR__ULONG_MAX_LEN →
  let count := VSTR__ULONG_MAX_LEN - zlen ds in
  wp (ok ← (if decide (count = 0) then mret true else vstr_del beg count);
      if negb (ok : bool) then vstr_del (u64 (end_ + 1)) 1;; mret false
      else
        buf ← local_array ds;
        vstr_sub_buf beg (VSTR__ULONG_MAX_LEN - count) buf (VSTR__ULONG_MAX_LEN - count);;
        mret true) s1
    (λ ok s', wf s' ∧ if ok then st_content s' = pre ++ (Some <$> ds) ++ tail
                      else st_content s' = st_content s ∧ malloc_bad (s_conf s') = true).
Proof.
  intros Hw [Hw1 Ho1 _ Hc1' HB Hroom _] Hds count. pose proof Hc1' as Hc1. rewrite comma_content in Hc1. pose proof (wf_len_max _ Hw1).
  pose proof (wf_content_length _ Hw1) as Hz. pose proof (wf_content_length _ Hw) as Hzs. rewrite Hc in Hzs.
  rewrite Hc1, !length_app, !Nat2Z.inj_add in Hz. rewrite !length_app, !Nat2Z.inj_add in Hzs. cbn [length] in Hz, Hzs.
  rewrite !length_app in Hz, Hzs. cbn [length] in Hz. unfold byte_or_non in *.
  assert (Hdr : del_range_ok s1 beg count) by (unfold del_range_ok, VSTR_MAX_NODE_BUF in *; chr_lia).
  wp_step. eapply wp_mono with (P := λ (ok : bool) s2, wf s2 ∧ only_buf (s_base s2) = true ∧
    if ok then st_content s2 = pre ++ zdrop count hdr ++ tail
    else st_content s2 = st_content s1 ∧ malloc_bad (s_conf s2) = true ∧ del_failed s1 s2).
  { case_decide as H0.
    - wp_steps. split_and!; [done|done|]. by rewrite Hc1, H0, zdrop_0.
    - assert (Hbad : ¬ del_bad s1 beg count) by (unfold del_bad; chr_lia).
      pose proof (vstr_del_spec s1 beg count Hw1 Hdr ltac:(eapply room_le; [exact Hroom|chr_lia|chr_lia])) as HD.
      eapply (wp_only_buf _ _ _ (leaves_vstr_del (BP := only_buf_prop) _ _) Ho1) in HD. apply wp_run in HD as (ok&s2&E&HD&Ho2).
      apply wp_run. exists ok, s2. split; [done|]. unfold del_post in HD. rewrite decide_False in HD by done. destruct HD as (Hw2&_&HD).
      split; [done|]. split; [done|]. destruct ok.
      + destruct HD as [HD _]. rewrite HD, Hc1. replace (beg - 1) with (zlen pre) by chr_lia. rewrite ztake_app_len. f_equal.
        rewrite zdrop_app_r, zdrop_app_l by chr_lia. do 2 f_equal. chr_lia.
      + destruct HD as [HD1 HD2]. split_and!; [done|done|].
        eapply vstr_del_fails; [exact Hw1|exact Hbad|chr_lia|chr_lia|eapply room_le; [exact Hroom|chr_lia|chr_lia]|exact E]. }
  cbn beta. intros [] s2 (Hw2&Ho2&H2); cbn [negb].
  - wp_step. eapply wp_mono; [by apply local_array_spec|]. cbn beta. intros p s3 (Hw3&Eb3&_&Hc3&Hsrc). rewrite H2 in Hc3. rewrite <- Eb3 in Ho2.
    replace (VSTR__ULONG_MAX_LEN - count) with (zlen ds) by (unfold count; chr_lia). wp_step. eapply wp_mono.
    { apply (sub_in_place s3 beg pre (zdrop count hdr) tail); try done. rewrite length_zdrop. unfold count in *. chr_lia. }
    cbn beta. intros ok s4 (Hw4&_&Hc4&_). wp_steps. done.
  - destruct H2 as (Hc2&Hm2&HF). pose proof (wf_content_length _ Hw2) as Hz2. rewrite Hc2, (wf_content_length _ Hw1) in Hz2.
    rewrite u64_id by chr_lia. wp_step. eapply wp_mono.
    { apply (wp_returns _ _ (λ ok s', del_post s2 (end_ + 1) 1 ok s') (λ ok, ok = true)).
      - apply vstr_del_spec; [done|unfold del_range_ok, VSTR_MAX_NODE_BUF in *; chr_lia|]. eapply del_failed_room; [exact HF|]. done.
      - apply vstr_del_true; [done|unfold del_bad; chr_lia|chr_lia|chr_lia|]. right. replace (end_ + 1 - 1 + 1) with (end_ + 1) by chr_lia.
        by eapply del_failed_boundary. }
    cbn beta. intros ok s3 [HP ->]. unfold del_post in HP. rewrite decide_False in HP by (unfold del_bad; chr_lia). destruct HP as (Hw3&_&Hc3&Hm3).
    wp_steps. split; [done|]. rewrite Hm3. split; [|done]. rewrite Hc3, Hc2, Hc1'.
    replace (end_ + 1 - 1) with end_ by chr_lia.
    assert (Hl : zlen (ztake end_ (st_content s)) = end_) by (rewrite length_ztake, (wf_content_length _ Hw); chr_lia).
    pose proof (take_out_one (ztake end_ (st_content s)) (zdrop end_ (st_content s)) (Some VSTR__ASCII_COMMA)) as HT. rewrite Hl in HT.
    etrans; [exact HT|]. apply ztake_zdrop.
Qed.
End after_start.

(** ** The netstring is closed, or nothing has changed *)
Definition netstr_end (netstr2 : bool) : Z → Z → M bool := if netstr2 then vstr_add_netstr2_end else vstr_add_netstr_end.
Lemma netstr_end_spec netstr2 s (pre hdr data rest : list byte_or_non) :
  wf s → only_buf (s_base s) = true → st_content s = pre ++ hdr ++ Some VSTR__ASCII_COLON :: data ++ rest →
  zlen hdr = VSTR__ULONG_MAX_LEN → b_len (s_base s) + 2 + VSTR_MAX_NODE_BUF ≤ SIZE_MAX → room 5 5 s →
  wp (netstr_end netstr2 (zlen pre + 1) (zlen pre + VSTR__ULONG_MAX_LEN + 1 + zlen data)) s (λ ok s', wf s' ∧
    if ok then st_content s' = pre ++ netstr (netstr_num netstr2 (zlen data)) data ++ rest
    else st_content s' = st_content s ∧ malloc_bad (s_conf s') = true).
Proof.
  intros Hw Ho Hc Hh Hmax Hroom. set (beg := zlen pre + 1). set (end_ := zlen pre + _ + 1 + zlen data).
  destruct (netstr_end_len s pre data rest hdr beg end_ Hc eq_refl eq_refl Hw) as [Hn Hd].
  pose proof (wf_content_length _ Hw) as Hz. rewrite Hc, !length_app, !Nat2Z.inj_add in Hz. cbn [length] in Hz.
  rewrite length_app, Nat2Z.inj_succ, Nat2Z.inj_add in Hz. unfold byte_or_non in *.
  assert (Hrng : netstr_range s beg end_) by (unfold netstr_range, beg, end_; chr_lia).
  pose proof (len_chrs_len (zlen data) Hd) as Hlc. pose proof (num_chrs_len (zlen data) Hd) as Hln.
  destruct netstr2; cbn [netstr_end netstr_num].
  - unfold vstr_add_netstr2_end. wp_step. eapply wp_mono; [by apply vstr__netstr_end_start_spec|]. cbn beta.
    intros [ds|] s1 H1; [|by wp_steps]. pose proof H1 as [Hw1 Ho1 -> Hc1 _ _ _]. rewrite Hn in *.
    rewrite (comma_content s pre data rest hdr end_ Hc Hh eq_refl) in Hc1.
    cbv zeta. eapply wp_mono; [apply (netstr2_write s1 pre data rest hdr beg); try done; chr_lia|]. cbn beta.
    intros ok s2 (->&Hw2&Hc2). split; [done|]. rewrite Hc2. apply tail_netstr.
  - unfold vstr_add_netstr_end. wp_step. eapply wp_mono; [by apply vstr__netstr_end_start_spec|]. cbn beta.
    intros [ds|] s1 H1; [|by wp_steps]. pose proof H1 as [_ _ Eds _ _ _ _]. rewrite Hn in Eds. cbv zeta.
    set (ds' := if decide _ then 0x30 :: ds else ds).
    assert (Hds : ds' = num_chrs 10 (zlen data)).
    { unfold ds', len_chrs in *. destruct (decide (zlen data = 0)) as [H0|H0].
      - subst ds. rewrite H0, num_chrs_0_10. by rewrite decide_True.
      - subst ds. by rewrite decide_False by chr_lia. }
    assert (HN : ∀ num, pre ++ (Some <$> num) ++ Some VSTR__ASCII_COLON :: data ++ Some VSTR__ASCII_COMMA :: rest = pre ++ netstr num data ++ rest)
      by (intros; apply tail_netstr). rewrite <- HN, <- Hds.
    apply (netstr_write s s1 pre data rest hdr beg end_) with (ds0 := ds); try done. by rewrite Hds.
Qed.
End finish.

(** ** Beginning one *)
Section beg.
Context {OT : Others}.
Context (loc : Vstr_locale) (vstr__add_fmt_dbl : Z → fmt_spec → M bool) (usr_func : nat → Z → Vstr_fmt_spec → M bool)
  (strerror : list Z) (strs : option pointer → list Z).

(** "%lu%c" *)
Definition netstr_items : list (list Z * directive) :=
  [([], Dir_conv (mkDir [] Num_none Num_none FMT_ULONG Conv_u)); ([], Dir_conv (mkDir [] Num_none Num_none FMT_UINT Conv_c))].
Definition netstr_room : list Z := num_chrs 10 ULONG_MAX ++ [VSTR__ASCII_COLON].

Lemma netstr_format : format_chrs (netstr_items, []) = chrs ["%"; "l"; "u"; "%"; "c"]%char.
Proof. by vm_compute. Qed.
Lemma netstr_text : format_text strs netstr_items [] [V_num 64 ULONG_MAX; V_num 32 VSTR__ASCII_COLON] = Some netstr_room.
Proof. by vm_compute. Qed.

Lemma vstr_add_netstr2_beg_spec fc s pos :
  wf s → 0 ≤ pos ≤ b_len (s_base s) → plain_locale s loc strs → b_len (s_base s) + 101 ≤ VSTR_MAX_NODE_ALL → room 102 102 s →
  wp (vstr_add_netstr2_beg loc vstr__add_fmt_dbl usr_func strerror fc pos) s (λ '(r, _) s', wf s' ∧
    (r = pos + 1 ∧ st_content s' = ztake pos (st_content s) ++ (Some <$> netstr_room) ++ zdrop pos (st_content s) ∨
     r = 0 ∧ st_content s' = st_content s)).
Proof.
  intros Hw Hpos (HL1&[HL2 HL3]&HL4) Hmax Hroom. unfold VSTR_MAX_NODE_ALL in Hmax. unfold vstr_add_netstr2_beg.
  apply (wp_bind get_base), wp_gets. cbn beta. rewrite decide_False by lia. cbv zeta. wp_step.
  pose proof (local_array_put s 0 (chrs ["%"; "l"; "u"; "%"; "c"]%char ++ [0]) [] 0 s (put_refl s 0 Hw)) as HA.
  eapply wp_mono; [exact HA|]. clear HA. cbn beta. intros p s1 [HP (bs&E&Hl&Hn)]. apply (inj (fmap Some)) in E as <-.
  pose proof HP as [Hw1 Hf1 Hc1 Hu1 _ _]. rewrite ztake_0, zdrop_0, !app_nil_l in Hc1 by done.
  assert (Hlen : b_len (s_base s1) = b_len (s_base s)) by (by rewrite <- (wf_content_length _ Hw1), <- (wf_content_length _ Hw), Hc1).
  assert (Hfmt : cstr_at s1 p (format_chrs (netstr_items, []))).
  { rewrite netstr_format. split; [by split|]. apply (bool_decide_unpack _). by vm_compute. }
  assert (Hloc1 : plain_locale s1 loc strs).
  { split; [done|]. split; [|done]. destruct (mem_frame_load _ _ _ _ _ Hf1 HL2 HL3) as [? ?]. by split. }
  wp_step. eapply wp_mono.
  { eapply (vstr_add_sysfmt_spec loc vstr__add_fmt_dbl usr_func strerror strs fc s1 pos p netstr_items []);
      [done|lia|by vm_compute|by vm_compute|by vm_compute|exact Hfmt|exact Hloc1| |exact netstr_text|by vm_compute| |].
    - by repeat constructor.
    - rewrite Hlen. change (zlen netstr_room) with 21. change (zlen netstr_items) with 2. unfold VSTR_MAX_NODE_ALL. lia.
    - change (zlen netstr_room) with 21. change (zlen netstr_items) with 2. eapply add_uses_room; [exact Hu1|]. eapply room_le; [exact Hroom|lia|lia]. }
  cbn beta. intros [n fc'] s2 [Hw2 [(->&Hc2&_)|(->&Hc2&_)]]; rewrite Hc1 in Hc2.
  - rewrite decide_False by done. wp_steps. split; [done|]. left. split; [|done]. apply u64_id. unfold SIZE_MAX. lia.
  - rewrite decide_True by done. wp_steps. split; [done|]. by right.
Qed.
End beg.

Lemma netstr_length num data : zlen (netstr num data) = zlen num + zlen data + 2.
Proof. unfold netstr. rewrite length_app, length_fmap. cbn [length]. rewrite length_app. cbn [length]. lia. Qed.
Lemma netstr_reads {OT : Others} ascii netstr2 s (pre data rest : list byte_or_non) num :
  wf s → b_len (s_base s) + 1 ≤ SIZE_MAX → st_content s = pre ++ netstr num data ++ rest → is_netstr_num netstr2 (zlen data) num →
  ∃ s2, vstr__parse_netstr ascii (zlen pre + 1) (b_len (s_base s) - zlen pre) netstr2 s =
          Some ((zlen (netstr num data), zlen pre + 1 + zlen num + 1, zlen data), s2) ∧ only_pos s s2.
Proof.
  intros Hw Hmax Hc Hnum. pose proof (wf_content_length _ Hw) as Hz. pose proof (netstr_length num data) as Hl.
  rewrite Hc, !length_app, !Nat2Z.inj_add in Hz.
  assert (Hs : substr (zlen pre + 1) (b_len (s_base s) - zlen pre) (st_content s) = netstr num data ++ rest).
  { unfold substr. rewrite Hc. replace (zlen pre + 1 - 1) with (zlen pre) by lia. rewrite zdrop_app_len. apply ztake_all. rewrite length_app. lia. }
  pose proof (vstr__parse_netstr_spec ascii s (zlen pre + 1) (b_len (s_base s) - zlen pre) netstr2 Hw) as H.
  unfold in_range, range_fits in H. specialize (H ltac:(lia) ltac:(lia) num data rest s ltac:(split; [apply only_pos_refl|done]) ltac:(lia) Hnum Hs).
  apply wp_run in H as (r&s2&E&[Ho _]&->). exists s2. by rewrite Hl.
Qed.

(** C9: when the room for the number of a netstring is closed, for both kinds
    of netstrings, the string has the number of the characters in its place
    and a comma behind them, and what is parsed from there are those
    characters, whatever follows.  When the memory runs out the string has the
    characters it had. *)
Theorem vstr_netstr_roundtrip {OT : Others} ascii netstr2 s (pre hdr data rest : list byte_or_non) :
  wf s → only_buf (s_base s) = true → st_content s = pre ++ hdr ++ Some VSTR__ASCII_COLON :: data ++ rest →
  zlen hdr = VSTR__ULONG_MAX_LEN → b_len (s_base s) + 2 + VSTR_MAX_NODE_BUF ≤ SIZE_MAX → room 5 5 s →
  let beg := zlen pre + 1 in
  let num := netstr_num netstr2 (zlen data) in
  ∃ ok s1, netstr_end netstr2 beg (beg + VSTR__ULONG_MAX_LEN + zlen data) s = Some (ok, s1) ∧ wf s1 ∧
    if ok then
      st_content s1 = pre ++ netstr num data ++ rest ∧
      ∃ s2, vstr__parse_netstr ascii beg (b_len (s_base s1) - zlen pre) netstr2 s1 =
              Some ((zlen (netstr num data), beg + zlen num + 1, zlen data), s2) ∧ only_pos s1 s2
    else st_content s1 = st_content s ∧ malloc_bad (s_conf s1) = true.
Proof.
  intros Hw Ho Hc Hh Hmax Hroom beg num.
  pose proof (netstr_end_spec netstr2 s pre hdr data rest Hw Ho Hc Hh Hmax Hroom) as H. apply wp_run in H as (ok&s1&E&Hw1&H1).
  exists ok, s1. split; [unfold beg; by replace (zlen pre + 1 + VSTR__ULONG_MAX_LEN + zlen data) with (zlen pre + VSTR__ULONG_MAX_LEN + 1 + zlen data) by lia|].
  split; [done|]. destruct ok; [|done]. split; [done|]. fold num in H1.
  destruct (netstr_end_len s pre data rest hdr beg (beg + VSTR__ULONG_MAX_LEN + zlen data) Hc eq_refl ltac:(unfold beg; lia) Hw) as [_ Hd].
  apply (netstr_reads ascii netstr2 s1 pre data rest num); [done| |done|by apply netstr_num_is].
  pose proof (wf_content_length _ Hw) as Hz. rewrite Hc, !length_app in Hz. cbn [length] in Hz. rewrite length_app in Hz.
  rewrite <- (wf_content_length _ Hw1), H1, !length_app, !Nat2Z.inj_add, netstr_length.
  pose proof (netstr_num_len netstr2 (zlen data) Hd) as Hn. fold num in Hn. unfold VSTR_MAX_NODE_BUF in Hmax. chr_lia.
Qed.
(** "abc" behind room for a number *)
Definition demo_room : list Z := replicate 20 0x39.
Definition demo_netstr : St := demo_text (demo_room ++ [VSTR__ASCII_COLON; 97; 98; 99]).
Lemma vstr_netstr_roundtrip_witness :
  let pre := [] : list byte_or_non in let rest := [] : list byte_or_non in
  let data := [Some 97; Some 98; Some 99] : list byte_or_non in
  ∃ ok s1, netstr_end false (zlen pre + 1) (zlen pre + 1 + VSTR__ULONG_MAX_LEN + zlen data) demo_netstr = Some (ok, s1) ∧ wf s1 ∧
    if ok then
      st_content s1 = pre ++ netstr (netstr_num false (zlen data)) data ++ rest ∧
      ∃ s2, vstr__parse_netstr true (zlen pre + 1) (b_len (s_base s1) - zlen pre) false s1 =
              Some ((zlen (netstr (netstr_num false (zlen data)) data), zlen pre + 1 + zlen (netstr_num false (zlen data)) + 1, zlen data), s2) ∧
            only_pos s1 s2
    else st_content s1 = st_content demo_netstr ∧ malloc_bad (s_conf s1) = true.
Proof.
  intros pre rest data. apply (vstr_netstr_roundtrip true false demo_netstr pre (Some <$> demo_room) data rest).
  - apply demo_text_wf. by vm_compute.
  - by vm_compute.
  - by vm_compute.
  - by vm_compute.
  - by vm_compute.
  - apply room_check_sound. by vm_compute.
Defined.
(** An overflow by the last digit of the number is not seen: this parses as
    one character of data. *)
Example vstr_parse_netstr_overflow :
  ∃ s', vstr_parse_netstr true 1 23 (demo_text ([0x31; 0x38; 0x34; 0x34; 0x36; 0x37; 0x34; 0x34; 0x30; 0x37; 0x33; 0x37; 0x30; 0x39; 0x35; 0x35;
    0x31; 0x36; 0x31; 0x37; 0x3A; 0x78; 0x2C])) = Some ((23, 22, 1), s').
Proof. eexists. by vm_compute. Qed.
