(* ===== verification/FmtTable.v ===== *)
(** * The table of formats of a user: a map from names to formats, and which
    name a text starts with. *)
From Stdlib Require Import ZArith Lia ZifyBool Ascii Sorted.
From stdpp Require Import base tactics list numbers option gmap.
From S2P Require Import Prelude State Wp Ref Cache Core Add Base Iter Spn Parse Fmt FmtUsr FmtRead Demo.

(** ** Lists of formats in the order of the lengths of their names *)
Abbreviation name_sorted := (StronglySorted (λ a b : usr_name_node, name_len a ≤ name_len b)).
Implicit Types (l : list usr_name_node) (t : fmt_names) (name : list Z) (n : usr_name_node).

Lemma insert_perm n l : vstr__fmt_insert n l ≡ₚ n :: l.
Proof. induction l as [|m l IH]; [done|]. cbn. case_decide; [done|]. rewrite IH. constructor. Qed.
Lemma insert_sorted n l : name_sorted l → name_sorted (vstr__fmt_insert n l).
Proof.
  induction 1 as [|m l Hl IH Hm]; cbn; [by repeat constructor|]. case_decide.
  - constructor; [by constructor|]. constructor; [done|]. eapply Forall_impl; [exact Hm|]. cbn. lia.
  - constructor; [done|]. rewrite insert_perm. constructor; [lia|done].
Qed.
Lemma remove_perm name l n : n ∈ l → un_name n = name → NoDup (un_name <$> l) → l ≡ₚ n :: remove_name name l.
Proof.
  intros Hin Hname. induction l as [|m l IH]; [by apply not_elem_of_nil in Hin|]. rewrite fmap_cons, NoDup_cons. intros [Hm Hnd].
  cbn. unfold has_name. case_bool_decide as E; apply elem_of_cons in Hin as [->|Hin]; try done.
  - destruct Hm. rewrite E, <- Hname. by apply list_elem_of_fmap_2.
  - rewrite Permutation_swap. constructor. by apply IH.
Qed.
Lemma remove_subset name l n : n ∈ remove_name name l → n ∈ l.
Proof.
  induction l as [|m l IH]; [done|]. cbn. destruct (has_name name m); [by right|]. rewrite !elem_of_cons. intros [->|]; [by left|auto].
Qed.
Lemma remove_sorted name l : name_sorted l → name_sorted (remove_name name l).
Proof.
  induction 1 as [|m l Hl IH Hm]; [constructor|]. cbn. destruct (has_name name m); [done|]. constructor; [done|].
  rewrite Forall_forall in *. intros x Hx. by apply Hm, remove_subset in Hx || apply Hm, (remove_subset name).
Qed.
Lemma concat_insert_perm (h : list (list usr_name_node)) k l l' n :
  h !! k = Some l → l' ≡ₚ n :: l → concat (<[k := l']> h) ≡ₚ n :: concat h.
Proof.
  revert k. induction h as [|x h IH]; intros [|k]; cbn; try done.
  - intros [= ->] ->. done.
  - intros Hk Hl. rewrite (IH k Hk Hl), Permutation_middle. done.
Qed.

(** The first with a name, of a list in which no name is twice *)
Lemma found_iff name l n : NoDup (un_name <$> l) →
  head (filter (λ n, has_name name n = true) l) = Some n ↔ n ∈ l ∧ un_name n = name.
Proof.
  induction l as [|m l IH]; intros Hnd.
  { cbn. split; [done|]. intros [H _]. by apply not_elem_of_nil in H. }
  rewrite fmap_cons, NoDup_cons in Hnd. destruct Hnd as [Hm Hnd]. rewrite filter_cons, elem_of_cons.
  unfold has_name at 1. case_decide as E.
  - apply bool_decide_eq_true in E. cbn. split; [intros [= ->]; auto|]. intros [[->|Hin] Hn]; [done|].
    destruct Hm. rewrite E, <- Hn. by apply list_elem_of_fmap_2.
  - rewrite IH by done. split; [tauto|]. intros [[->|Hin] Hn]; [|done]. destruct E. by apply bool_decide_eq_true.
Qed.

(** ** The table *)
Definition entries t : list usr_name_node := fmt_usr_names t ++ concat (fmt_usr_name_hash t).
Record table_ok t : Prop := {
  to_hash : length (fmt_usr_name_hash t) = 37%nat;
  to_sorted : name_sorted (fmt_usr_names t);
  to_sorted_hash : Forall name_sorted (fmt_usr_name_hash t);
  to_nodup : NoDup (un_name <$> entries t);
  to_curly : if fmt_usr_curly_braces t
    then fmt_usr_names t = [] ∧ ∀ k l n, fmt_usr_name_hash t !! k = Some l → n ∈ l →
           in_brackets (un_name n) = true ∧ vstr__fmt_beg (second (un_name n)) = k
    else concat (fmt_usr_name_hash t) = [] }.

Lemma fmt_beg_bound c : (vstr__fmt_beg c < 37)%nat.
Proof.
  unfold vstr__fmt_beg. change (ch "0") with 48. change (ch "9") with 57. change (ch "A") with 65. change (ch "Z") with 90.
  change (ch "a") with 97. change (ch "z") with 122. repeat case_decide; lia.
Qed.
Lemma bucket_at t k : table_ok t → (k < 37)%nat → fmt_usr_name_hash t !! k = Some (bucket t k).
Proof.
  intros Ht Hk. unfold bucket. destruct (lookup_lt_is_Some_2 (fmt_usr_name_hash t) k) as [l E]; [by rewrite (to_hash _ Ht)|]. by rewrite E.
Qed.
Lemma bucket_entries t k l n : fmt_usr_name_hash t !! k = Some l → n ∈ l → n ∈ entries t.
Proof. intros Hk Hn. apply elem_of_app. right. apply list_elem_of_In, in_concat. exists l. split; apply list_elem_of_In; [by eapply list_elem_of_lookup_2|done]. Qed.
Lemma bucket_nodup t k l : table_ok t → fmt_usr_name_hash t !! k = Some l → NoDup (un_name <$> l).
Proof.
  intros Ht Hk. pose proof (to_nodup _ Ht) as H. unfold entries in H. rewrite fmap_app in H. apply NoDup_app in H as (_&_&H).
  revert k Hk H. generalize (fmt_usr_name_hash t) as h. induction h as [|x h IH]; intros [|k]; try done; cbn.
  - intros [= ->]. rewrite fmap_app, NoDup_app. tauto.
  - intros Hk. rewrite fmap_app, NoDup_app. intros (_&_&H). by eapply IH.
Qed.

(** vstr__fmt_usr_srch reads a map. *)
Lemma srch_iff t name n : table_ok t → vstr__fmt_usr_srch t name = Some n ↔ n ∈ entries t ∧ un_name n = name.
Proof.
  intros Ht. unfold vstr__fmt_usr_srch, usr_list. pose proof (to_curly _ Ht) as Hc. destruct (fmt_usr_curly_braces t).
  - destruct Hc as [Hnil Hb]. destruct (in_brackets name) eqn:Eb; cbn [mbind option_bind].
    + set (k := vstr__fmt_beg (second name)). pose proof (bucket_at t k Ht (fmt_beg_bound _)) as Hk.
      rewrite (found_iff name (bucket t k) n) by (by eapply bucket_nodup). split; intros [Hin Hn]; (split; [|done]).
      * by eapply bucket_entries.
      * unfold entries in Hin. rewrite Hnil, app_nil_l in Hin. apply list_elem_of_In, in_concat in Hin as (l&Hl&Hin).
        apply list_elem_of_In in Hl, Hin. apply list_elem_of_lookup_1 in Hl as [k' Hk']. destruct (Hb _ _ _ Hk' Hin) as [_ Hk2].
        rewrite Hn in Hk2. fold k in Hk2. subst k'. congruence.
    + split; [done|]. intros [Hin Hn]. unfold entries in Hin. rewrite Hnil, app_nil_l in Hin. apply list_elem_of_In, in_concat in Hin as (l&Hl&Hin).
      apply list_elem_of_In in Hl, Hin. apply list_elem_of_lookup_1 in Hl as [k' Hk']. destruct (Hb _ _ _ Hk' Hin) as [Hbr _]. congruence.
  - cbn [mbind option_bind]. unfold entries. rewrite Hc, app_nil_r. apply found_iff. pose proof (to_nodup _ Ht) as H.
    unfold entries in H. by rewrite Hc, app_nil_r in H.
Qed.

Lemma usr_list_entries t name l n : table_ok t → usr_list t name = Some l → n ∈ l → n ∈ entries t.
Proof.
  intros Ht Hl Hn. unfold usr_list in Hl. destruct (fmt_usr_curly_braces t).
  - destruct (in_brackets name); [|done]. injection Hl as <-. eapply bucket_entries; [|exact Hn]. by apply bucket_at, fmt_beg_bound.
  - injection Hl as <-. apply elem_of_app. by left.
Qed.
Lemma usr_list_sorted t name l : table_ok t → usr_list t name = Some l → name_sorted l.
Proof.
  intros Ht Hl. unfold usr_list in Hl. destruct (fmt_usr_curly_braces t); [|injection Hl as <-; apply Ht].
  destruct (in_brackets name); [|done]. injection Hl as <-. pose proof (to_sorted_hash _ Ht) as H. rewrite Forall_lookup in H.
  eapply H, bucket_at, fmt_beg_bound; done.
Qed.
(** One more in the list of a name, and one less *)
Lemma entries_more t name l l' n : table_ok t → usr_list t name = Some l → l' ≡ₚ n :: l → entries (set_usr_list name l' t) ≡ₚ n :: entries t.
Proof.
  intros Ht Hl Hp. unfold usr_list, set_usr_list, entries in *. destruct t as [c ns h m] eqn:Et. cbn in *. destruct c.
  - destruct (in_brackets name); [|done]. injection Hl as <-. cbn. rewrite (concat_insert_perm h _ (bucket (mkNames true ns h m) (vstr__fmt_beg (second name))) l' n).
    + by rewrite Permutation_middle.
    + by apply (bucket_at _ _ Ht), fmt_beg_bound.
    + done.
  - injection Hl as <-. cbn. by rewrite Hp.
Qed.
Lemma entries_less t name l l' n : table_ok t → usr_list t name = Some l → l ≡ₚ n :: l' → entries t ≡ₚ n :: entries (set_usr_list name l' t).
Proof.
  intros Ht Hl Hp. unfold usr_list, set_usr_list, entries in *. destruct t as [c ns h m] eqn:Et. cbn in *. destruct c.
  - destruct (in_brackets name); [|done]. injection Hl as <-. cbn. set (k := vstr__fmt_beg (second name)) in *.
    pose proof (bucket_at _ k Ht (fmt_beg_bound _)) as Hk. cbn in Hk. rewrite Permutation_middle. apply Permutation_app_head.
    rewrite <- (concat_insert_perm (<[k := l']> h) k l' (bucket (mkNames true ns h m) k) n); [|apply list_lookup_insert_eq; by eapply lookup_lt_Some|done].
    by rewrite list_insert_insert_eq, list_insert_id.
  - injection Hl as <-. cbn. by rewrite Hp.
Qed.
Lemma table_set t name l l' : table_ok t → usr_list t name = Some l → name_sorted l' →
  (∀ n, n ∈ l' → n ∈ l ∨ un_name n = name) → NoDup (un_name <$> entries (set_usr_list name l' t)) →
  table_ok (set_usr_list name l' t).
Proof.
  intros Ht Hl Hs Hin Hnd. pose proof (to_curly _ Ht) as Hc. pose proof (fmt_beg_bound (second name)) as Hb.
  unfold usr_list, set_usr_list in *. destruct t as [c ns h m] eqn:Et. cbn in *. destruct c; destruct Ht as [H1 H2 H3 H4 H5]; cbn in *.
  - destruct (in_brackets name) eqn:Ebr; [|done]. injection Hl as <-. split; cbn; try done.
    + by rewrite length_insert.
    + by apply Forall_insert.
    + destruct Hc as [Hnil Hc]. split; [done|]. intros k l n Hk Hn.
      destruct (decide (k = vstr__fmt_beg (second name))) as [->|Hne].
      * rewrite list_lookup_insert_eq in Hk by lia. injection Hk as <-. destruct (Hin _ Hn) as [Hn'|<-]; [|done].
        unfold bucket in Hn'. cbn in Hn'. destruct (h !! vstr__fmt_beg (second name)) eqn:E; [|by apply not_elem_of_nil in Hn']. by eapply Hc.
      * rewrite list_lookup_insert_ne in Hk by done. by eapply Hc.
  - injection Hl as <-. by split.
Qed.
Lemma table_max t v : table_ok t → table_ok (fn_set_max v t).
Proof. destruct t. by intros []. Qed.
Lemma entries_max t v : entries (fn_set_max v t) = entries t.
Proof. by destruct t. Qed.

(** All names go to the one list. *)
Lemma flatten_perm l : ∀ acc, foldl (λ l n, vstr__fmt_insert n l) acc l ≡ₚ acc ++ l.
Proof.
  induction l as [|n l IH]; intros acc; cbn; [by rewrite app_nil_r|]. rewrite IH, insert_perm. cbn. apply Permutation_middle.
Qed.
Lemma flatten_sorted l : ∀ acc, name_sorted acc → name_sorted (foldl (λ l n, vstr__fmt_insert n l) acc l).
Proof. induction l as [|n l IH]; intros acc H; cbn; [done|]. by apply IH, insert_sorted. Qed.
Lemma concat_none k : concat (replicate k ([] : list usr_name_node)) = [].
Proof. by induction k. Qed.
Lemma table_flatten c ns h m : table_ok (mkNames c ns h m) →
  let t' := vstr__fmt_flatten_hash (mkNames false ns h m) in
  table_ok t' ∧ entries t' ≡ₚ entries (mkNames c ns h m) ∧ fmt_usr_curly_braces t' = false.
Proof.
  intros [H1 H2 H3 H4 _] t'. assert (Ht : table_ok t' ∧ entries t' ≡ₚ entries (mkNames c ns h m)); [|by destruct Ht].
  assert (HP : entries t' ≡ₚ entries (mkNames c ns h m)).
  { unfold t', entries, vstr__fmt_flatten_hash. cbn [fmt_usr_names fmt_usr_name_hash]. rewrite concat_none, app_nil_r. apply flatten_perm. }
  split; [|done]. split; unfold t', vstr__fmt_flatten_hash; cbn [fmt_usr_names fmt_usr_name_hash fmt_usr_curly_braces].
  - apply length_replicate.
  - by apply flatten_sorted.
  - apply Forall_replicate. constructor.
  - change (NoDup (un_name <$> entries t')). by rewrite HP.
  - apply concat_none.
Qed.

Lemma usr_list_some t name : fmt_usr_curly_braces t = false ∨ in_brackets name = true → ∃ l, usr_list t name = Some l.
Proof. unfold usr_list. destruct (fmt_usr_curly_braces t); [intros [H|H]; [done|rewrite H; eauto]|eauto]. Qed.
(** What a table has decides what is found in it. *)
Lemma srch_perm t t' : table_ok t → table_ok t' → entries t' ≡ₚ entries t → ∀ x, vstr__fmt_usr_srch t' x = vstr__fmt_usr_srch t x.
Proof. intros Ht Ht' Hp x. apply option_eq. intros n. rewrite !srch_iff by done. by rewrite Hp. Qed.
Lemma srch_none t name : table_ok t → vstr__fmt_usr_srch t name = None → name ∉ un_name <$> entries t.
Proof.
  intros Ht Hn (n&->&Hin)%list_elem_of_fmap. by rewrite (proj2 (srch_iff t (un_name n) n Ht)) in Hn.
Qed.
Lemma table_put t name n : table_ok t → un_name n = name → vstr__fmt_usr_srch t name = None →
  fmt_usr_curly_braces t = false ∨ in_brackets name = true →
  let t' := set_usr_list name (vstr__fmt_insert n (default [] (usr_list t name))) t in
  table_ok t' ∧ ∀ x, vstr__fmt_usr_srch t' x = if decide (x = name) then Some n else vstr__fmt_usr_srch t x.
Proof.
  intros Ht Hn Hnone Hlist t'. destruct (usr_list_some t name Hlist) as [l El]. unfold t'. rewrite El. cbn [default from_option id].
  pose proof (entries_more t name l (vstr__fmt_insert n l) n Ht El (insert_perm n l)) as HP.
  assert (Ht' : table_ok (set_usr_list name (vstr__fmt_insert n l) t)).
  { eapply table_set; [done|exact El|by eapply insert_sorted, usr_list_sorted| |].
    - intros m. rewrite insert_perm, elem_of_cons. intros [->|]; auto.
    - rewrite HP, fmap_cons. constructor; [|apply Ht]. rewrite Hn. by apply srch_none. }
  split; [done|]. intros x. apply option_eq. intros m. rewrite srch_iff, HP, elem_of_cons by done. case_decide as Hx.
  - split; [|intros [= ->]; split; [by left|congruence]]. intros [[->|Hin] Hm]; [done|]. subst. destruct (srch_none _ _ Ht Hnone).
    rewrite <- Hm. by apply list_elem_of_fmap_2.
  - rewrite srch_iff by done. split; [|tauto]. intros [[->|Hin] Hm]; [congruence|done].
Qed.
Lemma table_drop t name n : table_ok t → vstr__fmt_usr_srch t name = Some n →
  let t' := set_usr_list name (remove_name name (default [] (usr_list t name))) t in
  table_ok t' ∧ ∀ x, vstr__fmt_usr_srch t' x = if decide (x = name) then None else vstr__fmt_usr_srch t x.
Proof.
  intros Ht Hs t'. pose proof Hs as [Hin Hn]%srch_iff; [|done]. unfold vstr__fmt_usr_srch in Hs.
  destruct (usr_list t name) as [l|] eqn:El; [|done]. cbn [mbind option_bind] in Hs. unfold t'. cbn [default from_option id].
  assert (Hnd : NoDup (un_name <$> l)).
  { unfold usr_list in El. destruct (fmt_usr_curly_braces t) eqn:Ec.
    - destruct (in_brackets name); [|done]. injection El as <-. by eapply bucket_nodup, bucket_at, fmt_beg_bound.
    - injection El as <-. pose proof (to_nodup _ Ht) as H. unfold entries in H. rewrite fmap_app in H. apply NoDup_app in H. tauto. }
  apply found_iff in Hs as [Hl _]; [|done]. pose proof (remove_perm name l n Hl Hn Hnd) as Hp.
  pose proof (entries_less t name l _ n Ht El Hp) as HP. pose proof (to_nodup _ Ht) as Hall. rewrite HP, fmap_cons, NoDup_cons in Hall.
  destruct Hall as [Hno Hall].
  assert (Ht' : table_ok (set_usr_list name (remove_name name l) t)).
  { eapply table_set; [done|exact El|by eapply remove_sorted, usr_list_sorted| |done]. intros m Hm. left. by eapply remove_subset. }
  split; [done|]. intros x. apply option_eq. intros m. rewrite srch_iff by done. case_decide as Hx.
  - split; [|done]. intros [Hm Ex]. destruct Hno. assert (un_name n = un_name m) as -> by congruence. by apply list_elem_of_fmap_2.
  - rewrite srch_iff, HP, elem_of_cons by done. split; [tauto|]. intros [[->|Hm] Ex]; [congruence|done].
Qed.

(** ** The operations *)
Lemma no_names_ok : table_ok no_names.
Proof.
  split.
  - done.
  - constructor.
  - by repeat constructor.
  - constructor.
  - split; [done|]. intros k l n Hk Hn. exfalso. assert (Hr : replicate 37 ([] : list usr_name_node) !! k = Some l) by exact Hk.
    apply lookup_replicate in Hr as [-> _]. by apply not_elem_of_nil in Hn.
Qed.

Lemma alloc_all_run k s : ∃ ok s', alloc_all k s = Some (ok, s').
Proof.
  revert s. induction k as [|k IH]; intros s; cbn [alloc_all]; [by eexists _, _|].
  unfold alloc_ok, malloc, mbind, M_bind, mret, M_ret. destruct s as [[me r n ma] c b]. cbn. destruct ma as [|[] ma]; cbn; [apply IH|apply IH|by eexists _, _].
Qed.

Definition fmt_add_result t name n (ok : bool) t' (s' : St) : Prop :=
  table_ok t' ∧ (∀ x, vstr__fmt_usr_srch t' x = if decide (ok = true ∧ x = name) then Some n else vstr__fmt_usr_srch t x) ∧
  if ok then vstr__fmt_usr_srch t name = None
  else is_Some (vstr__fmt_usr_srch t name) ∨ malloc_bad (s_conf s') = true.
Lemma fmt_add_same t t' name n s' : table_ok t' → (∀ x, vstr__fmt_usr_srch t' x = vstr__fmt_usr_srch t x) →
  is_Some (vstr__fmt_usr_srch t name) ∨ malloc_bad (s_conf s') = true → fmt_add_result t name n false t' s'.
Proof. intros Ht' HS Hor. split; [done|]. split; [|done]. intros x. rewrite decide_False by (by intros [[=] _]). apply HS. Qed.

Lemma vstr_fmt_add_run t name func types s : table_ok t →
  ∃ ok t' s', vstr_fmt_add t name func types s = Some ((ok, t'), s') ∧ fmt_add_result t name (mkUsr name types func) ok t' s'.
Proof.
  intros Ht. set (n := mkUsr name types func). unfold vstr_fmt_add. case_decide as Hs.
  { eexists _, _, _. split; [done|]. apply fmt_add_same; auto. }
  assert (Hnone : vstr__fmt_usr_srch t name = None) by (by apply eq_None_not_Some).
  unfold mbind at 1, M_bind at 1. destruct (alloc_all_run 1 s) as (ok&s1&E1).
  assert (E : ∃ ok s1, alloc_ok s = Some (ok, s1)).
  { cbn [alloc_all] in E1. unfold mbind, M_bind in E1. destruct (alloc_ok s) as [[ok1 s2]|]; [by eexists _, _|done]. }
  clear ok s1 E1. destruct E as (ok&s1&E1). rewrite E1. destruct ok; cbn [negb].
  2:{ eexists _, _, _. split; [done|]. apply fmt_add_same; [done|done|]. right. unfold on_conf. cbn. by destruct (s_conf s1). }
  set (t1 := if fmt_usr_curly_braces t && negb (in_brackets name) then _ else t).
  assert (H1 : table_ok t1 ∧ (∀ x, vstr__fmt_usr_srch t1 x = vstr__fmt_usr_srch t x) ∧
               (fmt_usr_curly_braces t1 = false ∨ in_brackets name = true)).
  { unfold t1. destruct (fmt_usr_curly_braces t) eqn:Ec, (in_brackets name) eqn:Ebr; cbn [andb negb]; try (split_and!; auto; fail).
    destruct t as [c ns h m]. cbn in Ec. subst c. destruct (table_flatten _ _ _ _ Ht) as (Ht1&Hp&Hc). split; [exact Ht1|].
    split; [exact (srch_perm _ _ Ht Ht1 Hp)|by left]. }
  clearbody t1. destruct H1 as (Ht1&HS&Hl). unfold mbind at 1, M_bind at 1. destruct (alloc_all_run (length types) s1) as (ok&s2&E2). rewrite E2.
  destruct ok; cbn [negb].
  2:{ eexists _, _, _. split; [done|]. apply fmt_add_same; [done|done|]. right. unfold on_conf. cbn. by destruct (s_conf s2). }
  cbv zeta. set (t2 := if decide _ then fn_set_max _ t1 else t1).
  assert (H2 : table_ok t2 ∧ entries t2 = entries t1 ∧ usr_list t2 name = usr_list t1 name ∧ fmt_usr_curly_braces t2 = fmt_usr_curly_braces t1).
  { unfold t2. case_decide; [|done]. split; [by apply table_max|]. by destruct t1. }
  clearbody t2. destruct H2 as (Ht2&He&Hu&Hc). rewrite <- Hu. rewrite <- Hc in Hl.
  assert (HS2 : ∀ x, vstr__fmt_usr_srch t2 x = vstr__fmt_usr_srch t x) by (intros x; rewrite <- HS; apply srch_perm; [done|done|by rewrite He]).
  destruct (table_put t2 name n Ht2 eq_refl ltac:(by rewrite HS2) Hl) as [Ht3 HS3].
  eexists _, _, _. split; [done|]. split; [exact Ht3|]. split; [|done]. intros x. rewrite HS3, HS2. repeat case_decide; tauto.
Qed.
Lemma vstr_fmt_del_ok t name : table_ok t →
  table_ok (vstr_fmt_del t name) ∧ ∀ x, vstr__fmt_usr_srch (vstr_fmt_del t name) x = if decide (x = name) then None else vstr__fmt_usr_srch t x.
Proof.
  intros Ht. unfold vstr_fmt_del. set (t1 := match vstr__fmt_usr_srch t name with Some _ => _ | None => t end).
  assert (H1 : table_ok t1 ∧ ∀ x, vstr__fmt_usr_srch t1 x = if decide (x = name) then None else vstr__fmt_usr_srch t x).
  { unfold t1. destruct (vstr__fmt_usr_srch t name) as [n|] eqn:E.
    - destruct (table_drop t name n Ht E) as [Ht' HS]. cbv zeta. case_decide; [|done]. split; [by apply table_max|].
      intros x. rewrite <- HS. apply srch_perm; [done|by apply table_max|]. by rewrite entries_max.
    - split; [done|]. intros x. case_decide; congruence. }
  clearbody t1. destruct H1 as [Ht1 HS]. destruct (negb (fmt_usr_curly_braces t1) && bool_decide (fmt_usr_names t1 = [])) eqn:E; [|done].
  apply andb_true_iff in E as [Ec%negb_true_iff En%bool_decide_eq_true]. destruct t1 as [c ns h m]. cbn in Ec, En. subst c ns.
  assert (Ht2 : table_ok (mkNames true [] h m)).
  { destruct Ht1 as [H1 H2 H3 H4 H5]. cbn in *. split; try done. cbn. split; [done|]. intros k l n Hk Hn. exfalso.
    assert (Hc : n ∈ concat h) by (apply list_elem_of_In, in_concat; exists l; split; apply list_elem_of_In; [by eapply list_elem_of_lookup_2|done]).
    rewrite H5 in Hc. by apply not_elem_of_nil in Hc. }
  split; [exact Ht2|]. intros x. rewrite <- HS. exact (srch_perm _ _ Ht1 Ht2 (reflexivity _) x).
Qed.

(** ** Which name a text starts with *)
Definition max_ok t : Prop := fmt_name_max t = 0 ∨ Forall (λ n, name_len n ≤ fmt_name_max t) (entries t).
Definition is_start (name fmt : list Z) : Prop := ∃ rest, fmt = name ++ rest.
Lemma is_start_take name fmt : is_start name fmt ↔ ztake (zlen name) fmt = name.
Proof.
  split; [by intros [rest ->]; apply ztake_app_len|]. intros H. exists (zdrop (zlen name) fmt). rewrite <- H at 1. by rewrite ztake_zdrop.
Qed.
Lemma fmt_add_q_spec name b1 b2 : fmt_add_q name b1 b2 = true → ∃ inner, name = b1 :: inner ++ [b2] ∧ b2 ∉ inner.
Proof.
  unfold fmt_add_q. rewrite !andb_true_iff, !bool_decide_eq_true. intros ((((Hh&Hl)&Hlen)&_)&Hb2).
  destruct name as [|c name]; [done|]. injection Hh as ->. destruct name as [|c inner _] using rev_ind; [cbn in Hlen; lia|].
  exists inner. assert (c = b2) as ->.
  { rewrite app_comm_cons, last_snoc in Hl. by injection Hl. }
  split; [done|]. cbn [length] in Hb2. rewrite length_app in Hb2. cbn [length] in Hb2. unfold ztake, zdrop in Hb2.
  change (Z.to_nat 1) with 1%nat in Hb2. rewrite skipn_cons, drop_0 in Hb2. rewrite take_app_length' in Hb2; [done|lia].
Qed.

Lemma in_brackets_spec name : in_brackets name = true → ∃ c b inner, name = c :: inner ++ [b] ∧ closing c = Some b ∧ c ≠ b ∧ b ∉ inner.
Proof.
  unfold in_brackets. rewrite !orb_true_iff. intros [[[H|H]|H]|H]; apply fmt_add_q_spec in H as (inner&->&Hb); eexists _, _, inner; split_and!; try done.
Qed.
Lemma bracket_len_start name fmt : in_brackets name = true → is_start name fmt → bracket_len fmt = Some (zlen name) ∧ second fmt = second name.
Proof.
  intros (c&b&inner&->&Hc&Hcb&Hb)%in_brackets_spec [rest ->]. unfold bracket_len. cbn [app head mbind option_bind]. rewrite Hc. cbn [mbind option_bind].
  assert (Hn : count_while (λ x, bool_decide (x ≠ b)) (c :: (inner ++ [b]) ++ rest) = 1 + zlen inner).
  { rewrite <- app_assoc. change (c :: inner ++ [b] ++ rest) with ((c :: inner) ++ b :: rest). rewrite count_while_stop; [cbn [length]; lia| |].
    - rewrite Forall_forall. intros x Hx. apply bool_decide_eq_true. intros ->. apply elem_of_cons in Hx as [->|Hx]; done.
    - intros x k [= -> ->]. apply bool_decide_eq_false. tauto. }
  rewrite Hn. split; [|by destruct inner]. rewrite decide_True; cbn [length]; rewrite !length_app; cbn [length]; [f_equal; lia|lia].
Qed.
Lemma match_bracket_some fmt len l n : match_bracket len fmt l = Some n → n ∈ l ∧ name_len n = len ∧ un_name n = ztake len fmt.
Proof.
  induction l as [|m l IH]; [done|]. cbn. case_decide as H; [intros [= ->]; split; [by left|done]|]. case_decide; [done|].
  intros Hm. destruct (IH Hm) as (?&?&?). split; [by right|done].
Qed.
Lemma match_bracket_finds fmt l n : name_sorted l → NoDup (un_name <$> l) → n ∈ l → is_start (un_name n) fmt →
  match_bracket (name_len n) fmt l = Some n.
Proof.
  intros Hs Hnd Hin Hst%is_start_take. induction Hs as [|m l Hs IH Hm]; [by apply not_elem_of_nil in Hin|].
  rewrite fmap_cons, NoDup_cons in Hnd. destruct Hnd as [Hno Hnd]. cbn. apply elem_of_cons in Hin as [->|Hin].
  - rewrite decide_True; [done|]. split; [done|]. by rewrite <- Hst at 1.
  - rewrite decide_False; [|intros [_ E]; destruct Hno; rewrite E; unfold name_len; rewrite Hst; by apply list_elem_of_fmap_2].
    rewrite Forall_forall in Hm. specialize (Hm _ Hin). rewrite decide_False by lia. by apply IH.
Qed.
Lemma match_prefix_max max fmt l (L : usr_name_node → Prop) :
  name_sorted l → (∀ n, n ∈ l → L n → is_start (un_name n) fmt → name_len n ≤ max) →
  match match_prefix max fmt l with
  | Some m => m ∈ l ∧ is_start (un_name m) fmt ∧ ∀ n, n ∈ l → is_start (un_name n) fmt → name_len m ≤ name_len n
  | None => ∀ n, n ∈ l → L n → ¬ is_start (un_name n) fmt
  end.
Proof.
  intros Hs Hmax. induction Hs as [|m l Hs IH Hm]; [by intros n ?%not_elem_of_nil|]. cbn. rewrite Forall_forall in Hm.
  assert (Hmax1 : ∀ n, n ∈ l → L n → is_start (un_name n) fmt → name_len n ≤ max) by (intros n Hn; apply Hmax; by right).
  case_decide as H1.
  { intros n Hin HL Hst. specialize (Hmax n Hin HL Hst). apply elem_of_cons in Hin as [->|Hin]; [lia|]. specialize (Hm _ Hin). lia. }
  case_decide as H2.
  { split; [by left|]. split; [by apply is_start_take|]. intros n [->|Hin]%elem_of_cons _; [done|]. by apply Hm. }
  specialize (IH Hmax1). destruct (match_prefix max fmt l) as [x|].
  - destruct IH as (Hx&Hst&Hmin). split; [by right|]. split; [done|]. intros n [->|Hin]%elem_of_cons Hn; [by apply is_start_take in Hn|auto].
  - intros n [->|Hin]%elem_of_cons HL Hn; [by apply is_start_take in Hn|by eapply IH].
Qed.
Lemma max_fold l : ∀ a, a ≤ foldl Z.max a (name_len <$> l) ∧ Forall (λ n, name_len n ≤ foldl Z.max a (name_len <$> l)) l.
Proof.
  induction l as [|n l IH]; intros a; cbn; [done|]. destruct (IH (Z.max a (name_len n))) as [H1 H2]. split; [lia|]. constructor; [lia|done].
Qed.

(** The names that are looked at: all of them in the lists of the hash, and in
    the one list those not longer than the length that is remembered, where 0
    is a length that is not known. *)
Definition looked_at t (n : usr_name_node) : Prop :=
  fmt_usr_curly_braces t = true ∨ fmt_name_max t = 0 ∨ name_len n ≤ fmt_name_max t.
Definition fmt_match t (fmt : list Z) (r : option usr_name_node) : Prop :=
  match r with
  | Some m => m ∈ entries t ∧ is_start (un_name m) fmt ∧ ∀ n, n ∈ entries t → is_start (un_name n) fmt → name_len m ≤ name_len n
  | None => ∀ n, n ∈ entries t → looked_at t n → ¬ is_start (un_name n) fmt
  end.
Lemma max_ok_looked_at t : max_ok t → ∀ n, n ∈ entries t → looked_at t n.
Proof. intros [H|H] n Hn; [right; by left|]. rewrite Forall_forall in H. right; right. by apply H. Qed.
Lemma vstr__fmt_usr_match_spec t fmt : table_ok t →
  fmt_match t fmt (vstr__fmt_usr_match t fmt).1 ∧ table_ok (vstr__fmt_usr_match t fmt).2 ∧
  entries (vstr__fmt_usr_match t fmt).2 = entries t ∧ (max_ok t → max_ok (vstr__fmt_usr_match t fmt).2).
Proof.
  intros Ht. unfold vstr__fmt_usr_match. pose proof (to_curly _ Ht) as Hc. destruct (fmt_usr_curly_braces t) eqn:Ec; cbn [fst snd].
  - split; [|done]. destruct Hc as [Hnil Hc].
    assert (Hfind : ∀ n, n ∈ entries t → is_start (un_name n) fmt →
      (len ← bracket_len fmt; match_bracket len fmt (bucket t (vstr__fmt_beg (second fmt)))) = Some n).
    { intros n Hin Hst. unfold entries in Hin. rewrite Hnil, app_nil_l in Hin. apply list_elem_of_In, in_concat in Hin as (l&Hl&Hin).
      apply list_elem_of_In in Hl, Hin. apply list_elem_of_lookup_1 in Hl as [k Hk]. destruct (Hc _ _ _ Hk Hin) as [Hbr Hk2].
      destruct (bracket_len_start _ _ Hbr Hst) as [-> ->]. cbn [mbind option_bind]. rewrite Hk2. unfold bucket. rewrite Hk. cbn [default from_option id].
      apply match_bracket_finds; [|by eapply bucket_nodup|done|done]. pose proof (to_sorted_hash _ Ht) as HF. rewrite Forall_lookup in HF. by eapply HF. }
    destruct (len ← bracket_len fmt; _) as [m|] eqn:E; cbn [fmt_match].
    + destruct (bracket_len fmt) as [len|]; [|done]. cbn [mbind option_bind] in E. apply match_bracket_some in E as (Hin&Hlen&Hname).
      split; [eapply bucket_entries; [|exact Hin]; by apply bucket_at, fmt_beg_bound|]. split.
      * apply is_start_take. unfold name_len in Hlen. by rewrite Hlen, Hname.
      * intros n Hn Hst. specialize (Hfind n Hn Hst). injection Hfind as ->. lia.
    + intros n Hn _ Hst. by specialize (Hfind n Hn Hst).
  - set (t1 := if decide (fmt_name_max t = 0) then _ else t).
    assert (H1 : fmt_usr_names t1 = fmt_usr_names t ∧ entries t1 = entries t ∧ table_ok t1 ∧
      (∀ n, n ∈ fmt_usr_names t → looked_at t n → name_len n ≤ fmt_name_max t1) ∧ (max_ok t → max_ok t1)).
    { unfold entries in *. unfold t1, looked_at. rewrite Ec. case_decide as H0.
      - split; [by destruct t|]. split; [by destruct t|]. split; [by apply table_max|].
        pose proof (max_fold (fmt_usr_names t) 0) as [_ HF]. split.
        + intros n Hn _. rewrite Forall_forall in HF. destruct t as [c ns h m]. cbn in *. by apply HF.
        + intros _. right. unfold entries. destruct t as [c ns h m]. cbn in *. by rewrite Hc, app_nil_r.
      - split_and!; try done. intros n _ [?|[?|?]]; done. }
    clearbody t1. destruct H1 as (En&Ee&Ht1&Hm1&Hm2). cbn [fst snd]. rewrite En. assert (Ent : entries t = fmt_usr_names t) by (unfold entries; by rewrite Hc, app_nil_r).
    split; [|done]. unfold fmt_match. rewrite Ent.
    apply (match_prefix_max (Z.min (zlen fmt) (fmt_name_max t1)) fmt (fmt_usr_names t) (looked_at t) (to_sorted _ Ht)).
    intros n Hin Hl [rest Efmt]. specialize (Hm1 _ Hin Hl). rewrite Efmt in *. unfold name_len in *. rewrite length_app. lia.
Qed.

(** ** The theorems *)

(** C37: the table of formats is a map from names to formats: registering a
    format is refused when the name has one, and else adds it and changes
    nothing of the others, unless the memory runs out; deleting a name takes
    its format away and no other; and the table stays well formed, the lists
    in the order of the lengths, no name twice, every name in the list it is
    looked for in. *)
Theorem vstr_fmt_table_correct t name func types s :
  table_ok t →
  (∃ ok t' s', vstr_fmt_add t name func types s = Some ((ok, t'), s') ∧ fmt_add_result t name (mkUsr name types func) ok t' s') ∧
  table_ok (vstr_fmt_del t name) ∧
  ∀ x, vstr__fmt_usr_srch (vstr_fmt_del t name) x = if decide (x = name) then None else vstr__fmt_usr_srch t x.
Proof. intros Ht. split; [by apply vstr_fmt_add_run|by apply vstr_fmt_del_ok]. Qed.

(** "{ip}" is registered, and "{ipv6}" added. *)
Definition demo_name : list Z := chrs ["{"; "i"; "p"; "}"]%char.
Definition demo_name2 : list Z := chrs ["{"; "i"; "p"; "v"; "6"; "}"]%char.
Definition demo_formats : fmt_names :=
  match vstr_fmt_add no_names demo_name 0 [] demo0 with Some ((_, t), _) => t | None => no_names end.
Lemma demo_formats_ok : table_ok demo_formats.
Proof.
  unfold demo_formats. destruct (vstr_fmt_add_run no_names demo_name 0 [] demo0 no_names_ok) as (ok&t&s&->&Ht&_). exact Ht.
Qed.
Lemma vstr_fmt_table_correct_witness :
  (∃ ok t' s', vstr_fmt_add demo_formats demo_name2 1 [] demo0 = Some ((ok, t'), s') ∧
    fmt_add_result demo_formats demo_name2 (mkUsr demo_name2 [] 1) ok t' s') ∧
  table_ok (vstr_fmt_del demo_formats demo_name2) ∧
  ∀ x, vstr__fmt_usr_srch (vstr_fmt_del demo_formats demo_name2) x = if decide (x = demo_name2) then None else vstr__fmt_usr_srch demo_formats x.
Proof. apply (vstr_fmt_table_correct demo_formats demo_name2 1 [] demo0). exact demo_formats_ok. Defined.

(** C38: the format that is found for a text is registered, the text starts
    with its name, and no registered name that the text starts with is shorter.
    When none is found the text starts with none of the names that are looked
    at: all of them while every name is in brackets, and else those not longer
    than the remembered length of the longest name.  That length can be wrong,
    see [fmt_name_max_stale]; where it is right or not known every name is
    looked at, and it stays so.  (ASSERT_RET of the list of a bracket is its
    early return here, as in a release build.) *)
Theorem vstr__fmt_usr_match_correct t fmt : table_ok t →
  fmt_match t fmt (vstr__fmt_usr_match t fmt).1 ∧ table_ok (vstr__fmt_usr_match t fmt).2 ∧
  entries (vstr__fmt_usr_match t fmt).2 = entries t ∧
  (max_ok t → (∀ n, n ∈ entries t → looked_at t n) ∧ max_ok (vstr__fmt_usr_match t fmt).2).
Proof.
  intros Ht. destruct (vstr__fmt_usr_match_spec t fmt Ht) as (H1&H2&H3&H4). split_and!; try done.
  intros Hm. split; [by apply max_ok_looked_at|by apply H4].
Qed.
Lemma vstr__fmt_usr_match_correct_witness :
  let fmt := demo_name ++ chrs ["."]%char in
  fmt_match demo_formats fmt (vstr__fmt_usr_match demo_formats fmt).1 ∧ table_ok (vstr__fmt_usr_match demo_formats fmt).2 ∧
  entries (vstr__fmt_usr_match demo_formats fmt).2 = entries demo_formats ∧
  (max_ok demo_formats → (∀ n, n ∈ entries demo_formats → looked_at demo_formats n) ∧ max_ok (vstr__fmt_usr_match demo_formats fmt).2).
Proof. intros fmt. apply (vstr__fmt_usr_match_correct demo_formats fmt). exact demo_formats_ok. Defined.

(** Where that length is wrong: "{abcdef}" and then "{b}" are registered, in
    two lists, so that the length is that of "{b}"; "c" makes one list of all,
    where the text "{abcdef}" is found no more. *)
Example fmt_name_max_stale :
  let long := chrs ["{"; "a"; "b"; "c"; "d"; "e"; "f"; "}"]%char in
  (λ '((_, t), _), (vstr_fmt_srch t long, (vstr__fmt_usr_match t long).1)) <$>
    ('(_, t) ← vstr_fmt_add no_names long 0 []; '(_, t) ← vstr_fmt_add t (chrs ["{"; "b"; "}"]%char) 0 [];
     vstr_fmt_add t (chrs ["c"]%char) 0 []) demo0 = Some (true, None).
Proof. by vm_compute. Qed.
