(* ===== verification/Mov.v ===== *)
(** * Moving a range of a string into a string (src/vstr_mov.c).

    The nodes of the range are unlinked and linked in again.  A [Vstr_node **]
    is the number of nodes before it.  As in vstr_add_vstr, the two strings may
    be the same one. *)
From Stdlib Require Import ZArith Lia ZifyBool.
From stdpp Require Import base tactics list numbers option gmap.
From S2P Require Import Prelude State Wp Ref Cache Core Add Del Base Iter World AddVstr Fmt Export.

Definition VSTR__STACK_BUF_SZ : Z := 64.

(** Inside of one BUF node, through a local array *)
Definition vstr__mov_single_node (pos from_pos len : Z) : M bool :=
  if decide (VSTR__STACK_BUF_SZ < len) then mret false
  else
    '(i, pos, _) ← vstr_base__pos pos true;
    scan ← node_at i;
    if decide (nd_type scan ≠ NODE_BUF) then mret false
    else
      '(j, from_pos, _) ← vstr_base__pos from_pos true;
      if negb (bool_decide (j = i ∧ len < nd_len scan ∧ from_pos ≤ nd_len scan - len)) then mret false
      else
        let ptr := Ptr (nd_addr scan) 0 in
        tbuf ← local_array (zrep VSTR__STACK_BUF_SZ 0);
        mem_move tbuf (ptr_add ptr (from_pos - 1)) len;;
        (if decide (from_pos < pos)
         then mem_move (ptr_add ptr (from_pos + len - 1)) (ptr_add ptr (from_pos - 1)) (pos + 1 - from_pos)
         else mem_move (ptr_add ptr (pos + len)) (ptr_add ptr pos) (from_pos - (pos + 1)));;
        mem_move (ptr_add ptr pos) tbuf len;;
        mret true.

(** The start of the range, and the number of its first node *)
Definition vstr__mov_setup_beg (pos : Z) : M (option (nat * Z)) :=
  let pos := pos - 1 in
  if decide (pos = 0) then vstr__base_zero_used;; mret (Some (0%nat, 1))
  else
    '(i, pos, num) ← vstr_base__pos pos true;
    scan ← node_at i;
    ok ← (if decide (pos ≠ nd_len scan) then vstr__base_split_node i pos else mret true);
    mret (if (ok : bool) then Some (S i, u32 (num + 1)) else None).
(** The place after a position *)
Definition vstr__mov_setup_end (pos : Z) : M (option (nat * Z)) :=
  if decide (pos = 0) then vstr__base_zero_used;; mret (Some (0%nat, 0))
  else
    '(i, pos, num) ← vstr_base__pos pos true;
    scan ← node_at i;
    ok ← (if decide (pos ≠ nd_len scan) then vstr__base_split_node i pos else mret true);
    mret (if (ok : bool) then Some (S i, num) else None).

Definition vstr__mov_iovec_kill : M () :=
  b ← get_base;
  if negb (cache_available b) then mret tt else upd_base (b_set_iovec_upto_date false).

(** The range, from its first node to the place after it *)
Definition mov_range (from_pos len : Z) : M (option (nat * nat * Z)) :=
  beg ← vstr__mov_setup_beg from_pos;
  match beg with
  | None => mret None
  | Some (beg, beg_num) =>
    end_ ← vstr__mov_setup_end (u64 (from_pos + len - 1));
    mret (match end_ with Some (end_, end_num) => Some (beg, end_, u32 (end_num - beg_num + 1)) | None => None end)
  end.
(** The nodes of the range leave their string. *)
Definition mov_unlink (from_pos len : Z) (beg end_ : nat) (num : Z) : M (list Vstr_node) :=
  b ← get_base;
  let run := take (end_ - beg) (drop beg (b_nodes b)) in
  upd_base (λ b, b_set_nodes (take beg (b_nodes b) ++ drop end_ (b_nodes b)) b);;
  upd_base (λ b, b_set_len (u64 (b_len b - len)) b);;
  upd_base (λ b, b_set_num (u32 (b_num b - num)) b);;
  vstr__cache_del from_pos len;;
  vstr__mov_iovec_kill;;
  b ← get_base;
  when (bool_decide (b_len b = 0))
    (upd_base (λ b, b_set_flag NODE_BUF false (b_set_flag NODE_NON false (b_set_flag NODE_PTR false (b_set_flag NODE_REF false b)))));;
  mret run.
(** They are linked in; [used] tells the kinds of nodes of their string. *)
Definition mov_link (pos len : Z) (con : nat) (num : Z) (run : list Vstr_node) (used : Vstr_base) : M () :=
  upd_base (λ b, b_set_nodes (take con (b_nodes b) ++ run ++ drop con (b_nodes b)) b);;
  upd_base (λ b, b_set_len (u64 (b_len b + len)) b);;
  upd_base (λ b, b_set_num (u32 (b_num b + num)) b);;
  upd_base (λ b, foldr (λ t b, b_set_flag t (node_used t b || node_used t used) b) b [NODE_BUF; NODE_NON; NODE_PTR; NODE_REF]);;
  vstr__cache_add pos len;;
  vstr__mov_iovec_kill.

Section mov.
Context (vstr__convert_buf_ref : nat → Z → Z → W bool).
Context (vstr__add_all_ref : nat → Z → nat → Z → Z → W bool).

Definition vstr__mov_slow (base : nat) (pos : Z) (from : nat) (from_pos len : Z) : W bool :=
  ok ← vstr_add_vstr vstr__convert_buf_ref vstr__add_all_ref base pos from from_pos len VSTR_TYPE_ADD_DEF;
  if negb ok then mret false
  else
    ok ← on_string from (vstr_del from_pos len);
    if negb ok then on_string base (vstr_del (u64 (pos + 1)) len);; mret false
    else mret true.

(** The places, in the order of the positions *)
Definition mov_places (base : nat) (pos : Z) (from : nat) (from_pos len : Z) : W (option (nat * nat * Z * nat)) :=
  if decide (from_pos < pos) then
    r ← on_string from (mov_range from_pos len);
    match r with
    | None => mret None
    | Some (beg, end_, num) =>
      con ← on_string base (vstr__mov_setup_end pos);
      mret (match con with Some (con, _) => Some (beg, end_, num, con) | None => None end)
    end
  else
    con ← on_string base (vstr__mov_setup_end pos);
    match con with
    | None => mret None
    | Some (con, _) =>
      r ← on_string from (mov_range from_pos len);
      mret (match r with Some (beg, end_, num) => Some (beg, end_, num, con) | None => None end)
    end.

Definition vstr_mov (base : nat) (pos : Z) (from : nat) (from_pos len : Z) : W bool :=
  if decide (len = 0) then mret true
  else
    c ← on_string base get_conf; fc ← on_string from get_conf; fb ← on_string from get_base;
    if decide (buf_sz c ≠ buf_sz fc ∧ node_buf_used fb = true) then vstr__mov_slow base pos from from_pos len
    else if decide (base = from ∧ u64 (from_pos - 1) ≤ pos ∧ pos < u64 (from_pos + len)) then mret true
    else
      single ← (if decide (base = from) then on_string base (vstr__mov_single_node pos from_pos len) else mret false);
      if (single : bool) then mret true
      else
        r ← mov_places base pos from from_pos len;
        match r with
        | None => mret false
        | Some (beg, end_, num, con) =>
          used ← on_string from get_base;
          run ← on_string from (mov_unlink from_pos len beg end_ num);
          (* a place after the range has fewer nodes before it now *)
          let con := if decide (base = from ∧ (end_ ≤ con)%nat) then (con - (end_ - beg))%nat else con in
          on_string base (mov_link pos len con num run used);;
          mret true
        end.
End mov.
