(* ===== verification/MovTheorems.v ===== *)
(** * Moving a range from a string to another one: the nodes go from one list to
    the other.  Moving within a string: what the code does on concrete
    strings. *)
From Stdlib Require Import ZArith Lia ZifyBool.
From stdpp Require Import base tactics list numbers option gmap.
From S2P Require Import Prelude State Wp Ref Cache Core Base Add Inv PosLemmas SpareLemmas SplitLemmas CacheLemmas AddLemmas StringLemmas AddSpec DelSpec Iter IterLemmas Del Frame World WorldInv AddVstr AddVstrSpec Life Export Demo WorldDemo Mov.

Section others.
Context {OT : Others}.

(** ** Places between nodes *)

(** The first [i] nodes end at position [pos]. *)
Definition place_at (b : Vstr_base) (i : nat) (pos : Z) : Prop :=
  (i ≤ length (b_nodes b))%nat ∧ sum_len (take i (b_nodes b)) = pos + b_used b.
(** The node that is remembered does not begin after position [q], and its
    number is right. *)
Definition remembers_upto (q : Z) (b : Vstr_base) : Prop :=
  pos_num_ok b ∧ ∀ data, cache_get_pos b = Some data → cp_node data ≠ None → cp_pos data ≤ q.

Lemma remembers_mono q q' b : remembers_upto q b → q ≤ q' → remembers_upto q' b.
Proof. intros [H1 H2] Hq. split; [done|]. intros data Hd Hn. specialize (H2 data Hd Hn). lia. Qed.

(** What is remembered after a position was looked up: what was before, or the
    node that was found *)
Lemma of_option_some {A} (o : option A) s a s' : of_option o s = Some (a, s') → o = Some a ∧ s' = s.
Proof. unfold of_option. destruct o; [|done]. by intros [= <- <-]. Qed.
Lemma cache_pos_memory b p : cache_get_pos (b_set_cache (c_set_pos (Some p) (b_cache b)) b) = cache_get_pos b ∨
  cache_get_pos (b_set_cache (c_set_pos (Some p) (b_cache b)) b) = Some p.
Proof. destruct b as [? ? ? ? ? [] ? ? ? ? ? ? []]; [by right|by left]. Qed.
Lemma pos_memory s pos : wf s → 1 ≤ pos ≤ b_len (s_base s) →
  wp (vstr_base__pos pos true) s (λ '(k, off, num) s',
    (at_pos (b_nodes (s_base s)) (pos + b_used (s_base s)) k off ∧ pos_cached s s' ∧ wf s') ∧
    (remembers_upto pos (s_base s) → num = Z.of_nat k + 1 ∧ remembers_upto pos (s_base s'))).
Proof.
  intros Hw Hpos. pose proof (vstr_base__pos_full s pos true Hw Hpos) as HF.
  apply wp_run in HF as ([[k off] num]&s1&Hrun&HF&_&HN).
  apply wp_run. exists (k, off, num), s1. split; [done|]. split; [done|]. intros [Hn Hq].
  destruct (HN Hn) as [Enum Hn1]. split; [done|]. split; [done|].
  destruct HF as ((nd&Hk&Hoff&Hsum)&_&_).
  enough (E : cache_get_pos (s_base s1) = cache_get_pos (s_base s) ∨
    (∃ a, cache_get_pos (s_base s1) = Some (mkPos (pos - off + 1) num (Some a)))).
  { intros data. destruct E as [-> | (a&->)]; [apply Hq|]. intros [= <-] _. cbn. lia. }
  clear -Hrun. unfold vstr_base__pos, mbind, M_bind, get_base, gets, mret, M_ret in Hrun.
  repeat (case_match; simplify_eq; try by left).
  all: repeat match goal with H : of_option _ _ = Some _ |- _ => apply of_option_some in H as [H ->] end.
  all: match goal with H : when true _ _ = Some _ |- _ => rename H into Hc end.
  all: unfold when, vstr_cache__pos, node_at, of_option, upd_cache, upd_base, modify, mbind, M_bind, get_base, gets, mret, M_ret in Hc.
  all: repeat (case_match; simplify_eq; try by left).
  all: cbn [s_base on_base]; match goal with |- context [c_set_pos (Some ?p) (b_cache ?b)] => destruct (cache_pos_memory b p) as [-> | ->] end;
    [by left|right; by eexists].
Qed.
Lemma wp_eq_prog {A} (m m' : M A) s Q : m s = m' s → wp m' s Q → wp m s Q.
Proof. unfold wp. by intros ->. Qed.
Lemma room_weaken n k n' k' s : room n k s → n' ≤ n → k' ≤ k → room n' k' s.
Proof. intros [H1 H2] Hn Hk. split; [lia|]. intros r ref Hr. specialize (H2 r ref Hr). lia. Qed.
Lemma pos_data_ok_prefix l1 R R' used data :
  pos_data_ok (l1 ++ R) used data → lens_pos (l1 ++ R) → cp_pos data + used ≤ sum_len l1 → pos_data_ok (l1 ++ R') used data.
Proof.
  unfold pos_data_ok. destruct (cp_node data) as [a|]; [|done].
  intros (i&nd&Hi&Ha&Hs&H0) Hp Hle. exists i, nd. assert (Hlt : (i < length l1)%nat).
  { destruct (decide (i < length l1)%nat); [done|]. rewrite take_app_ge, sum_len_app in Hs by lia.
    apply Forall_app in Hp as [_ Hp2]. pose proof (sum_len_nonneg _ (lens_pos_take R (i - length l1) Hp2)). lia. }
  rewrite lookup_app_l in Hi by done. rewrite lookup_app_l by done. rewrite take_app_le in * by lia. done.
Qed.

Lemma remembers_0 s : wf s → remembers_upto 0 (s_base s) → ∀ data, cache_get_pos (s_base s) = Some data → cp_node data = None.
Proof.
  intros Hw [_ Hq] data Hd. destruct (cp_node data) eqn:E; [|done]. exfalso.
  specialize (Hq data Hd ltac:(by rewrite E)). pose proof (ci_pos _ (wf_cache _ Hw) _ Hd) as Hok.
  pose proof (pos_data_ge _ _ _ (wf_lens _ Hw) Hok ltac:(by rewrite E)) as Hge.
  assert (1 ≤ cp_pos data); [|lia]. apply Hge. intros nd Hnd. apply (wf_used_first s nd Hw). by rewrite <- head_lookup.
Qed.

(** Splitting a node keeps the places up to it and what is remembered there. *)
Lemma split_places s k nd off pos s' :
  wf s → wf s' → b_nodes (s_base s) !! k = Some nd → 0 < off < nd_len nd → sum_len (take k (b_nodes (s_base s))) + off = pos + b_used (s_base s) →
  split_post s k nd off s' → split_at s k nd off s' →
  (∀ j q, place_at (s_base s) j q → q ≤ pos → place_at (s_base s') j q) ∧
  (remembers_upto pos (s_base s) → remembers_upto pos (s_base s')).
Proof.
  intros Hw Hw' Hk Hoff Hpos SP [A1 A2 A3]. pose proof (wf_lens _ Hw) as HL. pose proof (sum_len_take_S _ _ _ Hk) as HS.
  assert (Hlt : ∀ j, sum_len (take j (b_nodes (s_base s))) ≤ pos + b_used (s_base s) → (j ≤ k)%nat).
  { intros j Hj. destruct (decide (j ≤ k)%nat); [done|].
    pose proof (sum_len_take_mono (S k) j _ HL ltac:(lia)). lia. }
  assert (Htk : ∀ j, (j ≤ k)%nat → take j (b_nodes (s_base s')) = take j (b_nodes (s_base s))).
  { intros j Hj. rewrite <- (Nat.min_l j k Hj), <- !take_take. by rewrite A2. }
  split.
  - intros j q [Hj Hs] Hq. specialize (Hlt j ltac:(lia)). split; [|by rewrite Htk, A3].
    apply lookup_lt_Some in A1. lia.
  - destruct (sp_base _ _ _ _ _ SP) as (beg&body&EB&_).
    assert (EC : cache_get_pos (s_base s') = cache_get_pos (s_base s)) by (rewrite EB; by destruct (s_base s)).
    intros [Hn Hq]. split; [|by rewrite EC]. intros data i nd' Hd Hi Hcn. rewrite EC in Hd.
    pose proof (ci_pos _ (wf_cache _ Hw) _ Hd) as Hok. unfold pos_data_ok in Hok. rewrite Hcn in Hok.
    destruct Hok as (j&x&Hj&Ha&Hs&_). specialize (Hq data Hd ltac:(by rewrite Hcn)).
    assert (Hjk : (j ≤ k)%nat) by (apply Hlt; lia). assert (i = j) as ->.
    { assert (∃ y, b_nodes (s_base s') !! j = Some y ∧ nd_addr y = nd_addr x) as (y&Hy&Ey).
      { destruct (decide (j = k)) as [->|]; [rewrite Hk in Hj; injection Hj as <-; by eexists|].
        exists x. split; [|done]. rewrite <- (lookup_take_lt (b_nodes (s_base s')) k j), A2, lookup_take_lt by lia. done. }
      eapply NoDup_lookup; [exact (heap_inv_addrs _ _ _ (wf_heap _ Hw'))|rewrite list_lookup_fmap, Hi; done|].
      rewrite list_lookup_fmap, Hy. cbn. by rewrite Ey, Ha. }
    apply (Hn data j x Hd Hj). by rewrite Hcn, Ha.
Qed.

Lemma setup_end_spec s pos :
  wf s → 0 ≤ pos ≤ b_len (s_base s) → room 1 1 s →
  wp (vstr__mov_setup_end pos) s (λ r s', keeps 1 1 s s' ∧
    match r with
    | Some (i, num) => place_at (s_base s') i pos ∧
      (1 ≤ pos → ∀ j q, place_at (s_base s) j q → q ≤ pos → place_at (s_base s') j q) ∧
      (remembers_upto pos (s_base s) → num = Z.of_nat i ∧ remembers_upto pos (s_base s'))
    | None => malloc_bad (s_conf s') = true
    end).
Proof.
  intros Hw Hpos Hroom. unfold vstr__mov_setup_end. case_decide as Hz.
  - subst pos. wp_step. wp_apply vstr__base_zero_used_spec; [apply Hw|apply Hw|]. intros _ s' HZ. wp_steps.
    destruct (zero_post_keeps _ _ Hw HZ) as [K Hu]. split; [eapply keeps_weaken; [exact K|lia..]|].
    split; [split; [lia|by rewrite Hu]|]. split; [lia|]. intros HR. split; [done|].
    pose proof (remembers_0 s Hw HR) as HN.
    assert (EC : cache_get_pos (s_base s') = cache_get_pos (s_base s)) by (rewrite (zp_base _ _ HZ); by destruct (s_base s)).
    split.
    + intros data i nd Hd _ Hcn. rewrite EC in Hd. by rewrite (HN data Hd) in Hcn.
    + intros data Hd Hcn. rewrite EC in Hd. by rewrite (HN data Hd) in Hcn.
  - wp_step. wp_apply pos_memory; [done|lia|]. intros [[k off] num] s1 [(Hat&Hpc&Hw1) HM].
    pose proof (pos_cached_keeps _ _ Hpc Hw Hw1) as K1. pose proof (pos_cached_same _ _ Hpc) as (Eh&Ec&En&Eu&El&_).
    destruct Hat as (nd&Hk&Hoff&Hsum). rewrite <- En in Hk, Hsum. rewrite <- Eu in Hsum.
    wp_step. unfold node_at. wp_steps. eapply wp_of_option; [exact Hk|]. cbn beta.
    assert (HP : ∀ j q, place_at (s_base s) j q → place_at (s_base s1) j q) by (unfold place_at; by rewrite En, Eu).
    pose proof (sum_len_take_S _ _ _ Hk) as HS.
    assert (HkL : (S k ≤ length (b_nodes (s_base s1)))%nat) by (apply lookup_lt_Some in Hk; lia).
    case_decide as Hd.
    + wp_step. wp_apply vstr__base_split_node_spec; [apply Hw1|apply (bi_num _ (wf_base _ Hw1))|exact Hk|lia|by apply (keeps_room 0 0 _ _ _ _ K1)|].
      intros ok s2 H2. wp_steps. destruct ok.
      * assert (H0 : k = 0%nat → b_used (s_base s1) < off) by (intros ->; rewrite take_0 in Hsum; cbn [sum_len] in Hsum; lia).
        destruct (split_post_keeps s1 k nd off s2 Hw1 Hk ltac:(lia) H0 H2) as [K2 SA].
        destruct (split_places s1 k nd off pos s2 Hw1 (kp_wf _ _ _ _ K2) Hk ltac:(lia) ltac:(lia) H2 SA) as [P1 P2].
        destruct SA as [A1 A2 A3]. split; [by eapply (keeps_trans 0 0 1 1)|]. split_and!.
        -- split; [apply lookup_lt_Some in A1; lia|]. rewrite (sum_len_take_S _ _ _ A1), A2, A3. cbn. lia.
        -- intros _ j q Hj. apply P1. by apply HP.
        -- intros HR. destruct (HM HR) as [-> HR1]. split; [lia|by apply P2].
      * destruct H2 as [Hs Hm]. split; [|done]. eapply (keeps_trans 0 0 1 1); [exact K1|].
        eapply keeps_weaken; [by eapply spare_step_keeps|lia|lia].
    + wp_steps. split; [by eapply keeps_weaken|]. split_and!.
      * split; [done|lia].
      * intros _ j q Hj _. by apply HP.
      * intros HR. destruct (HM HR) as [-> HR1]. split; [lia|done].
Qed.

Lemma setup_beg_end pos s : 1 ≤ pos →
  vstr__mov_setup_beg pos s = (r ← vstr__mov_setup_end (pos - 1); mret ((λ '(i, num), (i, u32 (num + 1))) <$> r)) s.
Proof.
  intros Hpos. unfold vstr__mov_setup_beg, vstr__mov_setup_end. cbv zeta. unfold mbind, M_bind, mret, M_ret.
  case_decide; [by repeat case_match|]. repeat (case_match; simplify_eq; try done).
Qed.

Lemma mov_range_spec s from_pos len :
  wf s → in_range s from_pos len → 0 < len → remembers_upto (from_pos - 1) (s_base s) → room 2 2 s →
  wp (mov_range from_pos len) s (λ r s', keeps 2 2 s s' ∧
    match r with
    | Some (i, j, num) => place_at (s_base s') i (from_pos - 1) ∧ place_at (s_base s') j (from_pos + len - 1) ∧
        num = Z.of_nat j - Z.of_nat i
    | None => malloc_bad (s_conf s') = true
    end).
Proof.
  intros Hw (Hf1&Hf2&Hf3) Hl HR Hroom. unfold mov_range. wp_step. eapply wp_eq_prog; [by apply setup_beg_end|].
  pose proof (wf_num_le _ Hw) as _. wp_step.
  wp_apply setup_end_spec; [done|lia|by eapply (room_weaken 2 2)|]. intros r s1 [K1 H1]. wp_step.
  destruct r as [[i num]|]; cbn [fmap option_fmap option_map]; [|wp_steps; split; [by eapply keeps_weaken|done]].
  destruct H1 as (P1&_&HM). destruct (HM HR) as [-> HR1]. pose proof (kp_wf _ _ _ _ K1) as Hw1.
  assert (Hz1 : zlen (b_nodes (s_base s1)) < UINT_MAX).
  { destruct (keeps_room 1 1 1 1 _ _ K1 Hroom) as [A _]. unfold own in A. rewrite length_app, length_fmap in A. pose proof o_num_nonneg. lia. }
  pose proof (wf_len_nonneg _ Hw) as Hn. pose proof (bi_size _ (wf_base _ Hw)) as Hsz. pose proof (bi_len _ (wf_base _ Hw)) as Hbl.
  pose proof (wf_used_nonneg _ Hw) as Hu.
  rewrite (u64_id (_ + _ - 1)) by lia. wp_step.
  wp_apply setup_end_spec; [done|rewrite (kp_len _ _ _ _ K1); lia|by apply (keeps_room 1 1 _ _ _ _ K1)|]. intros r2 s2 [K2 H2]. wp_step.
  split; [by apply (keeps_trans 1 1 1 1 _ _ _ K1)|]. destruct r2 as [[j num2]|]; [|done].
  destruct H2 as (P2&PP&HM2). destruct (HM2 ltac:(eapply remembers_mono; [exact HR1|lia])) as [-> _].
  specialize (PP ltac:(lia) i _ P1 ltac:(lia)). split; [done|]. split; [done|].
  pose proof (proj1 P1) as Hi. unfold UINT_MAX in *. rewrite (u32_id (Z.of_nat i + 1)) by lia. destruct P2 as [Hj HsJ], PP as [Hi2 HsI].
  pose proof (wf_num_le _ (kp_wf _ _ _ _ K2)) as (_&Hzj&Hzj2).
  assert (Hij : (i ≤ j)%nat).
  { destruct (decide (i ≤ j)%nat); [done|]. pose proof (sum_len_take_mono j i _ (wf_lens _ (kp_wf _ _ _ _ K2)) ltac:(lia)). lia. }
  replace (Z.of_nat j - (Z.of_nat i + 1) + 1) with (Z.of_nat j - Z.of_nat i) by lia. unfold UINT_MAX in Hzj2. apply u32_id. lia.
Qed.
(** ** Unlinking and linking *)

(** A change of the data is told to the caches; the remembered position is
    valid for the new nodes when it is kept. *)
Lemma cache_told s pos len type :
  type = CACHE_ADD ∨ type = CACHE_DEL → base_inv (s_base s) → vec_ok (s_base s) →
  (cache_available (s_base s) = true → is_Some (c_pos (b_cache (s_base s)))) →
  (∀ data, cache_get_pos (s_base s) = Some data → cp_pos data ≤ pos → (type = CACHE_DEL → cp_pos data < pos) →
    pos_data_ok (b_nodes (s_base s)) (b_used (s_base s)) data) →
  wp (vstr__cache_run pos len type) s (λ _ s', s_heap s' = s_heap s ∧ s_conf s' = s_conf s ∧
    b_nodes (s_base s') = b_nodes (s_base s) ∧ b_used (s_base s') = b_used (s_base s) ∧ b_len (s_base s') = b_len (s_base s) ∧
    base_inv (s_base s') ∧ cache_inv (s_base s')).
Proof.
  intros Hty HB HV HA HP. wp_apply vstr__cache_run_spec; [by destruct Hty as [-> | ->]..|]. intros _ s' (cs&ci&->).
  assert (Hnf : type ≠ CACHE_FREE) by by destruct Hty as [-> | ->].
  destruct s as [h c [ns bl bn used iu ca ic f1 f2 f3 f4 gc [p v cs0]]]. cbn in *.
  split_and!; try done; [destruct HB; by split|]. split; cbn; [| |done].
  2:{ destruct ca; [|done]. intros Hav. destruct (HA Hav) as [q ->]. cbn. unfold vstr__cache_pos_cb. rewrite decide_False by done.
      repeat case_match; by eexists. }
  intros data. unfold cache_get_pos in *. cbn in *. destruct ca; [|done]. cbn.
  destruct p as [p|]; [|done]. cbn. unfold vstr__cache_pos_cb. cbn. rewrite decide_False by done. destruct (cp_node p) as [a|] eqn:Ea.
  - repeat case_decide; intros [= <-]; try done; try (by unfold pos_data_ok); try (by destruct Hty as [-> | ->]; intuition congruence).
    + apply HP; [done|lia|]. intros E. by destruct Hty as [-> | ->]; intuition congruence.
    + apply HP; [done|lia|lia].
  - intros [= <-]. unfold pos_data_ok. by rewrite Ea.
Qed.
Lemma iovec_kill_spec s : base_inv (s_base s) → cache_inv (s_base s) →
  wp vstr__mov_iovec_kill s (λ _ s', s_heap s' = s_heap s ∧ s_conf s' = s_conf s ∧
    b_nodes (s_base s') = b_nodes (s_base s) ∧ b_used (s_base s') = b_used (s_base s) ∧ b_len (s_base s') = b_len (s_base s) ∧
    base_inv (s_base s') ∧ cache_inv (s_base s')).
Proof.
  intros HB HC. unfold vstr__mov_iovec_kill. wp_steps. destruct s as [h c [ns bl bn used iu ca ic f1 f2 f3 f4 gc ch]]. cbn.
  destruct ca; wp_steps; [|done]. split_and!; try done; [by destruct HB|]. destruct HC as [? ? HV].
  split; [done|done|]. by apply (vec_ok_upto false) in HV.
Qed.

Lemma place_split b i pos : place_at b i pos →
  sum_len (take i (b_nodes b)) = pos + b_used b ∧ length (take i (b_nodes b)) = i.
Proof. intros [Hi Hs]. split; [done|]. rewrite length_take. lia. Qed.

Definition same_but_base (s s' : St) : Prop :=
  s_heap s' = s_heap s ∧ s_conf s' = s_conf s ∧ b_used (s_base s') = b_used (s_base s) ∧
  base_inv (s_base s') ∧ cache_inv (s_base s').

Lemma mov_unlink_spec s from_pos len i j :
  wf s → place_at (s_base s) i (from_pos - 1) → place_at (s_base s) j (from_pos + len - 1) → 1 ≤ from_pos → 0 < len →
  wp (mov_unlink from_pos len i j (Z.of_nat j - Z.of_nat i)) s (λ run s', same_but_base s s' ∧
    ∃ l1 l3, b_nodes (s_base s) = l1 ++ run ++ l3 ∧ b_nodes (s_base s') = l1 ++ l3 ∧
      sum_len l1 = from_pos - 1 + b_used (s_base s) ∧ sum_len run = len).
Proof.
  intros Hw PI PJ Hf Hl. pose proof (wf_lens _ Hw) as HL.
  destruct PI as [Hi Hsi], PJ as [Hj Hsj].
  assert (Hij : (i < j)%nat).
  { destruct (decide (i < j)%nat); [done|]. pose proof (sum_len_take_mono j i _ HL ltac:(lia)). lia. }
  pose proof (wf_num_le _ Hw) as (Hnum&Hz1&Hz2). pose proof (wf_base _ Hw) as HB. pose proof (wf_cache _ Hw) as HC.
  set (ns := b_nodes (s_base s)) in *. set (l1 := take i ns) in *. set (run := take (j - i) (drop i ns)). set (l3 := drop j ns).
  assert (Es : ns = l1 ++ run ++ l3).
  { unfold l1, run, l3. rewrite <- (take_drop i ns) at 1. f_equal. rewrite <- (take_drop (j - i) (drop i ns)) at 1.
    rewrite drop_drop. do 2 f_equal. lia. }
  assert (Hrun : sum_len run = len).
  { rewrite <- (Nat.add_sub_assoc j i i) in Hsj || idtac. replace j with (i + (j - i))%nat in Hsj by lia.
    rewrite take_plus_drop, sum_len_app in Hsj. fold l1 run in Hsj. lia. }
  assert (Hlr : zlen run = Z.of_nat j - Z.of_nat i) by (unfold run; rewrite length_take, length_drop; lia).
  assert (HLs : lens_pos l1 ∧ lens_pos l3 ∧ lens_pos (l1 ++ l3)).
  { rewrite Es in HL. unfold lens_pos in *. rewrite !Forall_app in *. tauto. }
  destruct HLs as (HL1&HL3&HL13). pose proof (wf_used_nonneg _ Hw) as Hu. pose proof (bi_size _ HB) as Hsz. fold ns in Hsz.
  pose proof (sum_len_nonneg _ HL3) as Hs3.
  unfold mov_unlink. wp_steps. fold ns run. fold l1 l3.
  assert (Hbl : b_len (s_base s) = sum_len l1 + len + sum_len l3 - b_used (s_base s)).
  { rewrite (bi_len _ HB). fold ns. rewrite Es, !sum_len_app. lia. }
  assert (Hzn : zlen ns = zlen l1 + zlen run + zlen l3) by (rewrite Es; zl).
  assert (Hsn : sum_len ns = sum_len l1 + len + sum_len l3) by (rewrite Es, !sum_len_app; lia).
  set (s1 := on_base (λ b, b_set_num _ b) _).
  assert (F : s_heap s1 = s_heap s ∧ s_conf s1 = s_conf s ∧ b_nodes (s_base s1) = l1 ++ l3 ∧ b_used (s_base s1) = b_used (s_base s) ∧
    b_len (s_base s1) = b_len (s_base s) - len ∧ b_num (s_base s1) = b_num (s_base s) - zlen run ∧
    cache_get_pos (s_base s1) = cache_get_pos (s_base s) ∧ cache_available (s_base s1) = cache_available (s_base s) ∧
    b_cache (s_base s1) = b_cache (s_base s) ∧ (∀ t, node_used t (s_base s1) = node_used t (s_base s)) ∧ (vec_ok (s_base s) → vec_ok (s_base s1))).
  { assert (E1 : u64 (b_len (s_base s) - len) = b_len (s_base s) - len) by (apply u64_id; lia).
    assert (E2 : u32 (b_num (s_base s) - (Z.of_nat j - Z.of_nat i)) = b_num (s_base s) - zlen run) by (rewrite Hlr; apply u32_id; fold ns in Hnum; unfold UINT_MAX in Hz2; lia).
    unfold s1, l1, l3, ns. clear -E1 E2. destruct s as [h c []]. cbn in *. rewrite E1, E2. split_and!; try done; try by intros []. }
  clearbody s1. destruct F as (F1&F2&F3&F4&F5&F6&F7&F8&F9&F10&F11).
  assert (HB1 : base_inv (s_base s1)).
  { split; rewrite ?F3, ?F4, ?F5, ?F6, ?sum_len_app, ?length_app.
    - destruct (bi_used _ HB) as [|(bg&Hbg&Hb1&Hb2)]; [by left|]. destruct l1 as [|x l]; [cbn in Hsi; lia|right].
      fold ns in Hbg. rewrite Es in Hbg. by exists bg.
    - lia.
    - lia.
    - fold ns in Hnum. lia.
    - intros nd Hnd. rewrite F10. apply (bi_flags _ HB). fold ns. rewrite Es, !elem_of_app. rewrite elem_of_app in Hnd. tauto. }
  wp_apply (cache_told s1 from_pos len CACHE_DEL); [by right|done|apply F11, HC|rewrite F8, F9; apply HC| |].
  { intros data Hd _ Hlt. rewrite F7 in Hd. specialize (Hlt eq_refl). rewrite F3, F4.
    pose proof (ci_pos _ HC _ Hd) as Hok. fold ns in Hok, HL. rewrite Es in Hok, HL.
    eapply pos_data_ok_prefix; [exact Hok|done|lia]. }
  intros _ s2 (G1&G2&G3&G4&G5&HB2&HC2). wp_step. wp_apply iovec_kill_spec; [done|done|].
  intros _ s3 (I1&I2&I3&I4&I5&HB3&HC3).
  assert (EN : b_nodes (s_base s3) = l1 ++ l3) by congruence.
  assert (EU : b_used (s_base s3) = b_used (s_base s)) by congruence.
  assert (EL : b_len (s_base s3) = b_len (s_base s) - len) by congruence.
  wp_steps. apply wp_when.
  - intros Hz. apply bool_decide_eq_true in Hz. wp_steps.
    assert (Hnil : l1 ++ l3 = []).
    { rewrite EL in Hz. destruct (bi_used _ HB3) as [E0|(bg&Hbg&_&Hb)].
      - destruct (l1 ++ l3) as [|x l] eqn:E13; [done|]. pose proof HL13 as HP. apply Forall_cons in HP as [? HP].
        pose proof (sum_len_nonneg _ HP). assert (sum_len (l1 ++ l3) = nd_len x + sum_len l) by (rewrite E13; done).
        rewrite sum_len_app in *. lia.
      - rewrite EN in Hbg. destruct (l1 ++ l3) as [|x l] eqn:E13; [done|]. injection Hbg as ->. pose proof HL13 as HP.
        apply Forall_cons in HP as [? HP]. pose proof (sum_len_nonneg _ HP).
        assert (sum_len (l1 ++ l3) = nd_len bg + sum_len l) by (rewrite E13; done). rewrite sum_len_app in *. lia. }
    assert (SB : same_but_base s (on_base (λ b, b_set_flag NODE_BUF false (b_set_flag NODE_NON false (b_set_flag NODE_PTR false (b_set_flag NODE_REF false b)))) s3)).
    { destruct s3 as [h c []]. unfold same_but_base, on_base in *. cbn in *. split_and!; try congruence.
      - destruct HB3. split; try done. cbn. rewrite EN, Hnil. intros nd Hnd. by apply elem_of_nil in Hnd.
      - by destruct HC3. }
    split; [done|]. exists l1, l3. split_and!; [done| |done|done]. rewrite <- EN. by destruct s3 as [? ? []].
  - intros _. wp_steps. split; [unfold same_but_base; split_and!; congruence|]. by exists l1, l3.
Qed.

Lemma flags_foldr (f : node_type → bool) b :
  let b' := foldr (λ t b, b_set_flag t (node_used t b || f t) b) b [NODE_BUF; NODE_NON; NODE_PTR; NODE_REF] in
  (∀ t, node_used t b' = node_used t b || f t) ∧ b_nodes b' = b_nodes b ∧ b_used b' = b_used b ∧ b_len b' = b_len b ∧ b_num b' = b_num b ∧
  b_cache b' = b_cache b ∧ cache_available b' = cache_available b ∧ cache_get_pos b' = cache_get_pos b ∧ (vec_ok b → vec_ok b').
Proof. destruct b. cbn. split_and!; try done. by intros []. Qed.

Lemma mov_link_spec s pos con run used :
  base_inv (s_base s) → cache_inv (s_base s) → lens_pos (b_nodes (s_base s)) → lens_pos run → place_at (s_base s) con pos → 0 ≤ pos →
  sum_len (b_nodes (s_base s)) + sum_len run ≤ SIZE_MAX → zlen (b_nodes (s_base s)) + zlen run ≤ UINT_MAX →
  (∀ nd, nd ∈ run → node_used (nd_type nd) used = true) →
  wp (mov_link pos (sum_len run) con (zlen run) run used) s (λ _ s', same_but_base s s' ∧
    b_nodes (s_base s') = take con (b_nodes (s_base s)) ++ run ++ drop con (b_nodes (s_base s))).
Proof.
  intros HB HC HL HR [Hcon Hs] Hp Hsz Hzn Hfl.
  set (ns := b_nodes (s_base s)) in *. set (l1 := take con ns) in *. set (l3 := drop con ns).
  assert (Es : ns = l1 ++ l3) by (symmetry; apply take_drop).
  pose proof (sum_len_nonneg _ HR) as Hr0. pose proof (sum_len_nonneg _ HL) as Hs0.
  assert (Hu : 0 ≤ b_used (s_base s)) by (destruct (bi_used _ HB) as [->|(?&_&_&?)]; lia).
  assert (Hsn : sum_len ns = sum_len l1 + sum_len l3) by (rewrite Es at 1; apply sum_len_app).
  assert (Hln : zlen ns = zlen l1 + zlen l3) by (rewrite Es at 1; zl).
  pose proof (bi_len _ HB) as Hbl. fold ns in Hbl. pose proof (bi_num _ HB) as Hbn. fold ns in Hbn.
  assert (Hge : 0 ≤ b_len (s_base s)) by (pose proof (used_le_sum _ HB HL) as Hus; fold ns in Hus; lia).
  unfold mov_link. wp_steps.
  set (s1 := on_base (λ b, foldr _ b _) _).
  assert (F : s_heap s1 = s_heap s ∧ s_conf s1 = s_conf s ∧ b_nodes (s_base s1) = l1 ++ run ++ l3 ∧ b_used (s_base s1) = b_used (s_base s) ∧
    b_len (s_base s1) = b_len (s_base s) + sum_len run ∧ b_num (s_base s1) = b_num (s_base s) + zlen run ∧
    cache_get_pos (s_base s1) = cache_get_pos (s_base s) ∧ cache_available (s_base s1) = cache_available (s_base s) ∧
    b_cache (s_base s1) = b_cache (s_base s) ∧ (∀ t, node_used t (s_base s1) = node_used t (s_base s) || node_used t used) ∧
    (vec_ok (s_base s) → vec_ok (s_base s1))).
  { assert (E1 : u64 (b_len (s_base s) + sum_len run) = b_len (s_base s) + sum_len run) by (apply u64_id; lia).
    assert (E2 : u32 (b_num (s_base s) + zlen run) = b_num (s_base s) + zlen run) by (apply u32_id; unfold UINT_MAX in Hzn; lia).
    unfold s1, l1, l3, ns. clear -E1 E2. destruct s as [h c []]. cbn in *. rewrite E1, E2. split_and!; try done; try by intros []. }
  clearbody s1. destruct F as (F1&F2&F3&F4&F5&F6&F7&F8&F9&F10&F11).
  assert (HB1 : base_inv (s_base s1)).
  { split; rewrite ?F3, ?F4, ?F5, ?F6, ?sum_len_app, ?length_app.
    - destruct (bi_used _ HB) as [|(bg&Hbg&Hb1&Hb2)]; [by left|]. destruct l1 as [|x l]; [cbn in Hs; lia|right].
      fold ns in Hbg. rewrite Es in Hbg. by exists bg.
    - lia.
    - lia.
    - lia.
    - intros nd Hnd. rewrite F10. rewrite !elem_of_app in Hnd. apply orb_true_iff. destruct Hnd as [?|[?|?]]; [left|right; auto|left];
        apply (bi_flags _ HB); fold ns; rewrite Es, elem_of_app; tauto. }
  wp_apply (cache_told s1 pos (sum_len run) CACHE_ADD); [by left|done|apply F11, HC|rewrite F8, F9; apply HC| |].
  { intros data Hd Hle _. rewrite F7 in Hd. rewrite F3, F4. pose proof (ci_pos _ HC _ Hd) as Hok. fold ns in Hok, HL.
    rewrite Es in Hok, HL. eapply pos_data_ok_prefix; [exact Hok|done|lia]. }
  intros _ s2 (G1&G2&G3&G4&G5&HB2&HC2). wp_apply iovec_kill_spec; [done|done|].
  intros _ s3 (I1&I2&I3&I4&I5&HB3&HC3). split; [unfold same_but_base; split_and!; congruence|]. congruence.
Qed.
(** A place is determined by its position. *)
Lemma sum_len_take_inj l i j : lens_pos l → (i ≤ length l)%nat → (j ≤ length l)%nat → sum_len (take i l) = sum_len (take j l) → i = j.
Proof.
  intros HL Hi Hj E. destruct (lt_eq_lt_dec i j) as [[H|H]|H]; [|done|].
  - destruct (lookup_lt_is_Some_2 l i ltac:(lia)) as [nd Hnd]. pose proof (sum_len_take_lt i j _ nd HL Hnd ltac:(lia)). pose proof (Forall_lookup_1 _ _ _ _ HL Hnd). cbn beta in *. lia.
  - destruct (lookup_lt_is_Some_2 l j ltac:(lia)) as [nd Hnd]. pose proof (sum_len_take_lt j i _ nd HL Hnd ltac:(lia)). pose proof (Forall_lookup_1 _ _ _ _ HL Hnd). cbn beta in *. lia.
Qed.
End others.

Section worlds.
Context {OT : Others}.

(** ** Two strings *)
Lemma keeps_step_room w k s s' w' n m a b :
  world_inv w → st_of w k = Some s → string_step w k s' w' → keeps (OT := world_others w k) m n s s' →
  world_room (n + a) (m + b) w → world_room a b w'.
Proof.
  intros Hw Hs HS [_ _ _ _ [_ R] O]. eapply string_step_room; [done|done|done| |done]. exact O.
Qed.
(** The buffers of another string keep their size. *)
Lemma string_step_bsz w k s s' w' j t t' :
  st_of w k = Some s → string_step w k s' w' → buf_sz (s_conf s') = buf_sz (s_conf s) → j ≠ k →
  st_of w j = Some t → st_of w' j = Some t' → buf_sz (s_conf t') = buf_sz (s_conf t).
Proof.
  intros Hs HS Hz Hne Ht Ht'. rewrite (st_put _ _ _ _ HS) in Ht'. pose proof Hs as (c&Hb&Hc&Hh)%st_of_Some.
  pose proof Ht as (d&Hb2&Hc2&Hh2)%st_of_Some. apply st_of_Some in Ht' as (e&Hb3&Hc3&_). rewrite (put_st_eq w k c s Hb) in Hb3, Hc3. cbn in *.
  rewrite lookup_insert_ne, Hb2 in Hb3 by done. injection Hb3 as <- _. rewrite lookup_insert in Hc3. case_decide as E.
  - subst. injection Hc3 as <-. congruence.
  - congruence.
Qed.

(** Nodes from one string to another *)
Definition moved_world (w : World) (base from : nat) (cb cf : nat) (bb bf : Vstr_base) : World :=
  mkWorld (w_heap w) (w_confs w) (<[base := (cb, bb)]> (<[from := (cf, bf)]> (w_bases w))) (w_lives w).

Section moved.
Context (w : World) (base from : nat) (cb cf : nat) (bb bf bb' bf' : Vstr_base) (l1 run l3 m1 m2 : list Vstr_node).
Context (Hw : world_inv w) (Hne : base ≠ from).
Context (Hbb : w_bases w !! base = Some (cb, bb)) (Hbf : w_bases w !! from = Some (cf, bf)).
Context (Nf : b_nodes bf = l1 ++ run ++ l3) (Nb : b_nodes bb = m1 ++ m2).
Context (Nf' : b_nodes bf' = l1 ++ l3) (Nb' : b_nodes bb' = m1 ++ run ++ m2).
Abbreviation w' := (moved_world w base from cb cf bb' bf').

Lemma moved_nodes : all_nodes (w_bases w') ≡ₚ all_nodes (w_bases w).
Proof.
  cbn. set (R := delete from (delete base (w_bases w))).
  rewrite (all_nodes_delete _ base cb bb') by apply lookup_insert_eq. rewrite delete_insert_eq, delete_insert_ne by done.
  rewrite (all_nodes_delete _ from cf bf') by apply lookup_insert_eq. rewrite delete_insert_eq. fold R.
  rewrite (all_nodes_delete (w_bases w) base cb bb Hbb), (all_nodes_delete (delete base _) from cf bf) by by rewrite lookup_delete_ne.
  fold R. rewrite Nf, Nb, Nf', Nb', <- !app_assoc. f_equiv. rewrite (app_assoc m2 l1 (l3 ++ all_nodes R)), (app_assoc m2 l1 (run ++ _)).
  apply Permutation_app_swap_app.
Qed.

Lemma moved_inv :
  base_inv bb' → cache_inv bb' → base_inv bf' → cache_inv bf' →
  (∀ c d, w_confs w !! cb = Some c → w_confs w !! cf = Some d → buf_sz c = buf_sz d) → world_inv w'.
Proof.
  intros HB1 HC1 HB2 HC2 Hz. destruct (wi_base _ Hw base cb bb Hbb) as (conf&Ec&Hok&_&_).
  destruct (wi_base _ Hw from cf bf Hbf) as (conf2&Ec2&Hok2&_&_). specialize (Hz conf conf2 Ec Ec2).
  rewrite Nb, Forall_app in Hok. rewrite Nf, !Forall_app in Hok2. split.
  - apply Hw.
  - intros k c b. cbn. rewrite lookup_insert. case_decide as E1.
    { intros [= <- <-]. exists conf. split; [done|]. split; [|done]. rewrite Nb', !Forall_app, Hz. rewrite Hz in Hok. tauto. }
    rewrite lookup_insert. case_decide as E2; [|by apply Hw].
    intros [= <- <-]. exists conf2. split; [done|]. split; [|done]. rewrite Nf', Forall_app. tauto.
  - eapply shared_inv_perm; [|symmetry; apply moved_nodes|apply (wi_shared _ Hw)].
    unfold owned. cbn [w_confs moved_world]. f_equiv. apply fmap_Permutation. symmetry. apply moved_nodes.
Qed.
End moved.

Lemma put_base_only w k c s s' : w_bases w !! k = Some (c, s_base s) → w_confs w !! c = Some (s_conf s) → s_heap s = w_heap w →
  s_heap s' = s_heap s → s_conf s' = s_conf s →
  put_st k s' w = mkWorld (w_heap w) (w_confs w) (<[k := (c, s_base s')]> (w_bases w)) (w_lives w).
Proof.
  intros Hb Hc Hh Eh Ec. rewrite (put_st_eq w k c s Hb). rewrite Eh, Ec, Hh. f_equal. by apply insert_id.
Qed.

(** The characters after the nodes of a range were taken out or put in *)
Lemma content_cut h bsz b b' l1 run l3 p n :
  Forall (node_ok h bsz) (b_nodes b) → b_nodes b = l1 ++ run ++ l3 → b_nodes b' = l1 ++ l3 → b_used b' = b_used b →
  sum_len l1 = p + b_used b → sum_len run = n → 0 ≤ p → 0 ≤ b_used b → 0 ≤ n →
  content h b' = ztake p (content h b) ++ zdrop (p + n) (content h b) ∧ chain_bytes h run = ztake n (zdrop p (content h b)).
Proof.
  intros Hok N N' Hu Hs1 Hs2 Hp Hu0 Hn. unfold content. rewrite N, N', Hu. rewrite N, !Forall_app in Hok. destruct Hok as (H1&H2&H3).
  pose proof (chain_bytes_length _ _ _ H1) as Z1. pose proof (chain_bytes_length _ _ _ H2) as Z2. rewrite !chain_bytes_app.
  set (A := chain_bytes h l1) in *. set (B := chain_bytes h run) in *. set (C := chain_bytes h l3).
  rewrite !(zdrop_app_l (b_used b)) by lia. set (A' := zdrop (b_used b) A).
  assert (ZA : zlen A' = p) by (unfold A'; rewrite length_zdrop; lia).
  rewrite ztake_app_l, ztake_all by lia. rewrite !zdrop_app_r by lia. split.
  - f_equal. rewrite ZA. replace (p + n - p - zlen B) with 0 by lia. by rewrite zdrop_0.
  - rewrite ZA, Z.sub_diag, zdrop_0 by lia. rewrite ztake_app_l by lia. rewrite ztake_all by lia. done.
Qed.
Lemma content_put h bsz b b' m1 m2 run p :
  Forall (node_ok h bsz) (b_nodes b) → b_nodes b = m1 ++ m2 → b_nodes b' = m1 ++ run ++ m2 → b_used b' = b_used b →
  sum_len m1 = p + b_used b → 0 ≤ p → 0 ≤ b_used b →
  content h b' = ztake p (content h b) ++ chain_bytes h run ++ zdrop p (content h b).
Proof.
  intros Hok N N' Hu Hs1 Hp Hu0. unfold content. rewrite N, N', Hu. rewrite N, !Forall_app in Hok. destruct Hok as (H1&_).
  pose proof (chain_bytes_length _ _ _ H1) as Z1. rewrite !chain_bytes_app. set (A := chain_bytes h m1) in *.
  rewrite !(zdrop_app_l (b_used b)) by lia. set (A' := zdrop (b_used b) A).
  assert (ZA : zlen A' = p) by (unfold A'; rewrite length_zdrop; lia).
  rewrite ztake_app_l, ztake_all by lia. rewrite zdrop_app_r by lia. rewrite ZA, Z.sub_diag, zdrop_0 by lia. done.
Qed.

(** The sizes of two strings together *)
Lemma two_strings_bound w base from s t : world_inv w → base ≠ from → st_of w base = Some s → st_of w from = Some t →
  zlen (b_nodes (s_base s)) + zlen (b_nodes (s_base t)) ≤ UINT_MAX ∧
  sum_len (b_nodes (s_base s)) + sum_len (b_nodes (s_base t)) ≤ SIZE_MAX.
Proof.
  intros Hw Hne Hs Ht. pose proof Hs as (c&Hb&_)%st_of_Some. pose proof Ht as (d&Hb2&_)%st_of_Some.
  assert (Hn : zlen (b_nodes (s_base s)) + zlen (b_nodes (s_base t)) ≤ UINT_MAX).
  { pose proof (si_total _ _ _ (wi_shared _ Hw)) as HT. pose proof o_num_nonneg. unfold owned in HT.
    rewrite length_app, length_fmap, (all_nodes_delete _ _ _ _ Hb), length_app,
      (all_nodes_delete (delete base _) from d (s_base t)), length_app in HT by by rewrite lookup_delete_ne. lia. }
  split; [done|]. destruct (wi_base _ Hw base c _ Hb) as (?&_&H1&_). destruct (wi_base _ Hw from d _ Hb2) as (?&_&H2&_).
  apply sum_len_bound in H1, H2. unfold UINT_MAX, SIZE_MAX, VSTR_MAX_NODE_ALL in *. lia.
Qed.

(** Relinking: what the code does once it has the places *)
Lemma mov_relink_spec w base from s t pos from_pos len beg end_ con :
  world_inv w → base ≠ from → st_of w base = Some s → st_of w from = Some t → buf_sz (s_conf s) = buf_sz (s_conf t) →
  0 ≤ pos → 1 ≤ from_pos → 0 < len → place_at (s_base s) con pos →
  place_at (s_base t) beg (from_pos - 1) → place_at (s_base t) end_ (from_pos + len - 1) →
  wwp (used ← on_string from get_base;
       run ← on_string from (mov_unlink from_pos len beg end_ (Z.of_nat end_ - Z.of_nat beg));
       on_string base (mov_link pos len con (Z.of_nat end_ - Z.of_nat beg) run used)) w (λ _ w', world_inv w' ∧
    strings w' = <[base := ztake pos (st_content s) ++ substr from_pos len (st_content t) ++ zdrop pos (st_content s)]>
      (<[from := ztake (from_pos - 1) (st_content t) ++ zdrop (from_pos - 1 + len) (st_content t)]> (strings w))).
Proof.
  intros Hw Hne Hs Ht Hz Hpos Hf Hl PC PB PE.
  pose proof (from_wf w from t Hw Ht) as Hwt. pose proof (from_wf w base s Hw Hs) as Hws.
  pose proof (two_strings_bound w base from s t Hw Hne Hs Ht) as [Hbn Hbs].
  pose proof Hs as (cb&Hbb&Hcb&Hhb)%st_of_Some. pose proof Ht as (cf&Hbf&Hcf&Hhf)%st_of_Some.
  wwp_step. eapply wwp_reads; [exact Ht|]. wp_steps. split; [done|].
  wwp_step. eapply wwp_on_string; [exact Ht|].
  eapply wp_mono; [by apply (mov_unlink_spec (OT := world_others w from))|]. intros run t' ((Eh&Ec&Eu&HB2&HC2)&l1&l3&N&N'&S1&S2).
  rewrite (put_base_only w from cf t t' Hbf Hcf Hhf Eh Ec). set (w1 := mkWorld _ _ _ _).
  assert (Hs1 : st_of w1 base = Some s).
  { apply st_of_Some. exists cb. cbn. by rewrite lookup_insert_ne by done. }
  assert (En : Z.of_nat end_ - Z.of_nat beg = zlen run ∧ lens_pos run ∧ ∀ nd, nd ∈ run → node_used (nd_type nd) (s_base t) = true).
  { pose proof (wf_lens (OT := world_others w from) _ Hwt) as HL. rewrite N in HL. apply Forall_app in HL as [_ [HL _]%Forall_app]. split; [|split; [done|]].
    - pose proof (bi_num _ HB2) as _. destruct PB as [Hi Hsi], PE as [Hj Hsj]. rewrite N in *.
      pose proof (wf_lens (OT := world_others w from) _ Hwt) as HL2. rewrite N in HL2.
      assert (beg = length l1).
      { apply (sum_len_take_inj (l1 ++ run ++ l3)); [done|done|rewrite length_app; lia|]. rewrite take_app_length. lia. }
      assert (end_ = length (l1 ++ run)).
      { apply (sum_len_take_inj (l1 ++ run ++ l3)); [done|done|rewrite !length_app; lia|].
        rewrite (app_assoc l1), take_app_length, sum_len_app. rewrite <- (app_assoc l1). lia. }
      subst beg end_. rewrite length_app. lia.
    - intros nd Hnd. apply (bi_flags _ (wf_base (OT := world_others w from) _ Hwt)). rewrite N, !elem_of_app. tauto. }
  destruct En as (->&HLr&Hfl). subst len.
  eapply wwp_on_string; [exact Hs1|]. eapply wp_mono.
  { apply (mov_link_spec s pos con run (s_base t)); try done; try apply Hws; [by eapply (wf_lens (OT := world_others w base))|..];
      rewrite N in Hbn, Hbs; rewrite ?sum_len_app, ?length_app in *.
    - pose proof (wf_lens (OT := world_others w from) _ Hwt) as HL. rewrite N in HL. apply Forall_app in HL as [HL1 [_ HL3]%Forall_app].
      pose proof (sum_len_nonneg _ HL1). pose proof (sum_len_nonneg _ HL3). lia.
    - lia. }
  intros _ s' ((Eh'&Ec'&Eu'&HB1&HC1)&Nb').
  assert (Ew : put_st base s' w1 = moved_world w base from cb cf (s_base s') (s_base t')).
  { rewrite (put_base_only w1 base cb s s'); [done| |done..|]; cbn; [by rewrite lookup_insert_ne by done|done]. }
  rewrite Ew.
  assert (Hi : world_inv (moved_world w base from cb cf (s_base s') (s_base t'))).
  { eapply (moved_inv w base from cb cf (s_base s) (s_base t)); [done|done|done|done|exact N|symmetry; apply (take_drop con)|exact N'|exact Nb'|done|done|done|done|].
    intros c d Hc Hd. congruence. }
  split; [done|]. unfold strings. cbn [w_bases w_heap moved_world]. rewrite !fmap_insert. cbn [snd].
  destruct (content_cut (w_heap w) (buf_sz (s_conf t)) (s_base t) (s_base t') l1 run l3 (from_pos - 1) (sum_len run)) as [-> HR];
    try done; try lia.
  { rewrite <- Hhf. apply (wf_heap (OT := world_others w from) _ Hwt). }
  { by eapply (wf_used_nonneg (OT := world_others w from)). }
  rewrite (content_put (w_heap w) (buf_sz (s_conf s)) (s_base s) (s_base s') (take con (b_nodes (s_base s))) (drop con (b_nodes (s_base s))) run pos);
    try done; [|rewrite <- Hhb; apply (wf_heap (OT := world_others w base) _ Hws)|by rewrite take_drop|apply PC|by eapply (wf_used_nonneg (OT := world_others w base))].
  unfold st_content, substr. by rewrite HR, Hhb, Hhf.
Qed.
(** ** Finding the places, in either order *)

(** Both strings after the places were made, or after this failed *)
Record places_made (w : World) (base from : nat) (s t : St) (n : Z) (s' t' : St) (w' : World) : Prop := {
  pm_inv : world_inv w';
  pm_base : st_of w' base = Some s';
  pm_from : st_of w' from = Some t';
  pm_base_content : st_content s' = st_content s ∧ b_len (s_base s') = b_len (s_base s);
  pm_from_content : st_content t' = st_content t ∧ b_len (s_base t') = b_len (s_base t);
  pm_bsz : buf_sz (s_conf s') = buf_sz (s_conf s) ∧ buf_sz (s_conf t') = buf_sz (s_conf t);
  pm_strings : strings w' = strings w;
  pm_room : ∀ a b, world_room (n + a) (n + b) w → world_room a b w' }.

(** One step of finding them changes the nodes of its string only. *)
Lemma wwp_place {A} k j (m : M A) w s t n (Q : A → St → Prop) :
  world_inv w → st_of w k = Some s → st_of w j = Some t → j ≠ k →
  (wf (OT := world_others w k) s → wp m s (λ a s', keeps (OT := world_others w k) n n s s' ∧ Q a s')) →
  wwp (on_string k m) w (λ a w', ∃ s' t', Q a s' ∧ s_base t' = s_base t ∧ places_made w k j s t n s' t' w').
Proof.
  intros Hw Hs Ht Hne Hm. eapply wwp_mono.
  { apply (wwp_string k m w s (λ a s', keeps (OT := world_others w k) n n s s' ∧ Q a s')); [done|done|]. intros Hws.
    eapply wp_mono; [by apply Hm|]. intros a s' [K HQ]. split; [by eapply (kp_wf (OT := world_others w k))|].
    split; [apply (kp_conf (OT := world_others w k) _ _ _ _ K)|done]. }
  intros a w' (s'&HS&K&HQ). destruct (st_others _ _ _ _ HS j t Hne Ht) as (t'&Ht'&Eb&Ec). exists s', t'.
  split; [done|]. split; [done|].
  assert (Hz : buf_sz (s_conf s') = buf_sz (s_conf s)) by apply (kp_conf (OT := world_others w k) _ _ _ _ K).
  split.
  - by eapply st_world.
  - by eapply st_self.
  - done.
  - split; [apply (kp_content (OT := world_others w k) _ _ _ _ K)|apply (kp_len (OT := world_others w k) _ _ _ _ K)].
  - by rewrite Eb.
  - split; [done|]. by eapply (string_step_bsz w k s s' w' j t t').
  - eapply quiet_strings; [done|exact Hs|exact HS|apply (kp_content (OT := world_others w k) _ _ _ _ K)].
  - intros a0 b0. exact (keeps_step_room w k s s' w' n n a0 b0 Hw Hs HS K).
Qed.
Lemma places_trans w k j s t n s1 t1 w1 m s2 t2 w2 : places_made w k j s t n s1 t1 w1 → places_made w1 k j s1 t1 m s2 t2 w2 →
  places_made w k j s t (n + m) s2 t2 w2.
Proof.
  intros [? ? ? [C1 L1] [C2 L2] [Z1 Z2] S R] [? ? ? [C3 L3] [C4 L4] [Z3 Z4] S' R']. split; try done; try (split; congruence).
  - congruence.
  - intros a b. rewrite <- !Z.add_assoc. intros H. by apply R', R.
Qed.
Lemma places_sym w k j s t n s' t' w' : places_made w k j s t n s' t' w' → places_made w j k t s n t' s' w'.
Proof. intros [? ? ? ? ? [? ?] ? ?]. by split. Qed.

(** What vstr_mov has found *)
Definition places_found (pos from_pos len : Z) (r : option (nat * nat * Z * nat)) (s' t' : St) : Prop :=
  match r with
  | Some (beg, end_, num, con) => place_at (s_base s') con pos ∧ place_at (s_base t') beg (from_pos - 1) ∧
      place_at (s_base t') end_ (from_pos + len - 1) ∧ num = Z.of_nat end_ - Z.of_nat beg
  | None => malloc_bad (s_conf s') = true ∨ malloc_bad (s_conf t') = true
  end.

Lemma mov_places_spec w base from s t pos from_pos len :
  world_inv w → base ≠ from → st_of w base = Some s → st_of w from = Some t → 0 ≤ pos ≤ b_len (s_base s) → in_range t from_pos len →
  remembers_upto (from_pos - 1) (s_base t) → world_room 3 3 w →
  wwp (mov_places base pos from from_pos len) w (λ r w', ∃ s' t', places_found pos from_pos len r s' t' ∧
    places_made w base from s t 3 s' t' w').
Proof.
  intros Hw Hne Hs Ht Hpos Hr HR Hroom. pose proof Hr as (Hr1&Hr2&Hr3). unfold mov_places. case_decide as Hd; wwp_step.
  - eapply wwp_mono.
    { eapply (wwp_place from base _ w t s 2); [done..|]. intros Hwt. eapply (mov_range_spec (OT := world_others w from)); [done|done|lia|done|].
      eapply (room_weaken (OT := world_others w from)); [by apply (world_string_room 3 3)|lia|lia]. }
    cbn beta. intros r w1 (t1&s1&HP&Eb&HM). apply places_sym in HM. pose proof HM as [Hw1 Hs1 Ht1 [_ _] _ _ _ HRm].
    destruct r as [[[beg end_] num]|].
    2:{ wwp_step. exists s1, t1. split; [by right|]. destruct HM. split; try done. intros a b [A1 A2]. apply pm_room0. split; [lia|].
        intros r ref Hrr. specialize (A2 r ref Hrr). lia. }
    wwp_step. eapply wwp_mono.
    { eapply (wwp_place base from _ w1 s1 t1 1); [done..|]. intros Hws. apply (setup_end_spec (OT := world_others w1 base)); [done|by rewrite Eb|].
      apply (world_string_room 1 1); [done|done|]. by apply (HRm 1 1). }
    cbn beta. intros r w2 (s2&t2&HC&Eb2&HM2). pose proof (places_trans _ _ _ _ _ _ _ _ _ _ _ _ _ HM HM2) as HM3.
    destruct r as [[con num2]|]; wwp_step; exists s2, t2; (split; [|exact HM3]); [|by left].
    destruct HP as (?&?&?), HC as (?&_). cbn. by rewrite Eb2.
  - eapply wwp_mono.
    { eapply (wwp_place base from _ w s t 1); [done..|]. intros Hws. apply (setup_end_spec (OT := world_others w base)); [done|done|].
      eapply (room_weaken (OT := world_others w base)); [by apply (world_string_room 3 3)|lia|lia]. }
    cbn beta. intros r w1 (s1&t1&HC&Eb&HM). pose proof HM as [Hw1 Hs1 Ht1 _ _ _ _ HRm].
    destruct r as [[con num2]|].
    2:{ wwp_step. exists s1, t1. split; [by left|]. destruct HM. split; try done. intros a b [A1 A2]. apply pm_room0. split; [lia|].
        intros r ref Hrr. specialize (A2 r ref Hrr). lia. }
    wwp_step. eapply wwp_mono.
    { eapply (wwp_place from base _ w1 t1 s1 2); [done..|]. intros Hwt. apply (mov_range_spec (OT := world_others w1 from)); [done|by unfold in_range; rewrite Eb|lia|by rewrite Eb|].
      apply (world_string_room 2 2); [done|done|]. by apply (HRm 2 2). }
    cbn beta. intros r w2 (t2&s2&HP&Eb2&HM2). apply places_sym in HM2. pose proof (places_trans _ _ _ _ _ _ _ _ _ _ _ _ _ HM HM2) as HM3.
    destruct r as [[[beg end_] num]|]; wwp_step; exists s2, t2; (split; [|exact HM3]); [|by right].
    destruct HP as (?&?&?), HC as (?&_). cbn. by rewrite Eb2.
Qed.

Definition mov_result (w : World) (base from : nat) (C D : list byte_or_non) (pos from_pos len : Z) (ok : bool) (w' : World) : Prop :=
  world_inv w' ∧
  if ok then strings w' = <[base := ztake pos C ++ substr from_pos len D ++ zdrop pos C]>
                            (<[from := ztake (from_pos - 1) D ++ zdrop (from_pos - 1 + len) D]> (strings w))
  else strings w' = strings w ∧ ∃ s' t', st_of w' base = Some s' ∧ st_of w' from = Some t' ∧
    (malloc_bad (s_conf s') = true ∨ malloc_bad (s_conf t') = true).

(** C21: vstr_mov, for two strings whose buffers have the same size, takes a
    range out of one and puts it at a position of the other: the nodes go from
    one list to the other, both keep the characters around, whatever the
    kinds of nodes, and every other string is as it was.  It fails only when
    there is no memory to split the nodes at the ends of the range and at the
    position, and then all strings are as they were and a configuration is
    marked.  A node of the string read from that its position cache remembers
    has to have its own number and to begin before the range: the code takes
    the difference of such numbers for the number of nodes that it moves, and
    the number is wrong when the split is of a node before, see
    [vstr_mov_nums_remembered]. *)
Theorem vstr_mov_correct conv all_ref w base from s t pos from_pos len :
  world_inv w → base ≠ from → st_of w base = Some s → st_of w from = Some t → buf_sz (s_conf s) = buf_sz (s_conf t) →
  0 ≤ pos ≤ b_len (s_base s) → in_range t from_pos len → remembers_upto (from_pos - 1) (s_base t) → world_room 3 3 w →
  ∃ ok w', vstr_mov conv all_ref base pos from from_pos len w = Some (ok, w') ∧
    mov_result w base from (st_content s) (st_content t) pos from_pos len ok w'.
Proof.
  intros Hw Hne Hs Ht Hz Hpos Hr HR Hroom. pose proof Hr as (Hr1&Hr2&Hr3). apply wwp_run. unfold vstr_mov. rewrite decide_False by lia.
  wwp_step. eapply wwp_reads; [exact Hs|]. wp_steps. split; [done|].
  wwp_step. eapply wwp_reads; [exact Ht|]. wp_steps. split; [done|].
  wwp_step. eapply wwp_reads; [exact Ht|]. wp_steps. split; [done|].
  rewrite decide_False by tauto. rewrite decide_False by tauto. rewrite decide_False by done. wwp_steps.
  eapply wwp_mono; [by apply (mov_places_spec w base from s t)|].
  intros r w1 (s1&t1&HF&[Hw1 Hs1 Ht1 [Cs _] [Ct _] [Z1 Z2] S1 _]). destruct r as [[[[beg end_] num] con]|]; [|wwp_step].
  2:{ split; [done|]. split; [done|]. by exists s1, t1. }
  destruct HF as (P1&P2&P3&->).
  pose proof (mov_relink_spec w1 base from s1 t1 pos from_pos len beg end_ con Hw1 Hne Hs1 Ht1 ltac:(congruence) ltac:(lia) ltac:(lia) ltac:(lia) P1 P2 P3) as HL.
  rewrite (decide_False (P := base = from ∧ _)) by tauto. revert HL. rewrite Cs, Ct, S1. unfold wwp, mbind, W_bind.
  destruct (on_string from get_base w1) as [[used w2]|]; [|done]. destruct (on_string from (mov_unlink _ _ _ _ _) w2) as [[run w3]|]; [|done].
  destruct (on_string base _ w3) as [[[] w4]|]; [|done]. intros [HI HS]. by split.
Qed.
End worlds.

Lemma demo_remembers : remembers_upto 1 (s_base (demo_string 0 demo_w3)).
Proof.
  assert (H : cache_get_pos (s_base (demo_string 0 demo_w3)) = Some (mkPos 0 0 None)) by by vm_compute.
  split; [intros data i nd|intros data]; rewrite H; by intros [= <-].
Qed.
(** Positions 2 to 4 of string 0 into string 1, which is empty *)
Lemma vstr_mov_correct_witness :
  let s := demo_string 1 demo_w3 in let t := demo_string 0 demo_w3 in
  ∃ ok w', vstr_mov no_conv no_all_ref 1 0 0 2 3 demo_w3 = Some (ok, w') ∧
    mov_result demo_w3 1 0 (st_content s) (st_content t) 0 2 3 ok w'.
Proof.
  apply (vstr_mov_correct no_conv no_all_ref demo_w3 1 0 (demo_string 1 demo_w3) (demo_string 0 demo_w3) 0 2 3 demo_w3_inv).
  - discriminate.
  - exact demo_string_1.
  - exact demo_string_0.
  - by vm_compute.
  - by vm_compute.
  - by vm_compute.
  - exact demo_remembers.
  - apply world_room_check_sound. by vm_compute.
Defined.

(** ** Concrete strings *)
Definition one_string (l : list Z) : World :=
  mkWorld (s_heap (demo_text l)) {[ 0%nat := s_conf (demo_text l) ]} {[ 0%nat := (0%nat, s_base (demo_text l)) ]} ∅.
(** The bytes of string 0 after the moves of a list *)
Definition moves (l : list (Z * Z * Z)) : W () :=
  foldr (λ '(pos, from_pos, len) k, vstr_mov no_conv no_all_ref 0 pos 0 from_pos len;; k) (mret tt) l.
Definition after_move (l : list Z) (pos from_pos len : Z) : option (list byte_or_non) :=
  '(_, w) ← moves [(pos, from_pos, len)] (one_string l); st_content <$> st_of w 0.
Definition letters (n : nat) : list Z := Z.of_nat <$> seq 97 n.

(** Up and down, over the nodes of four bytes each *)
Example vstr_mov_up : after_move (letters 10) 8 2 4 = Some (Some <$> [97; 102; 103; 104; 98; 99; 100; 101; 105; 106]).
Proof. by vm_compute. Qed.
Example vstr_mov_down : after_move (letters 10) 0 6 3 = Some (Some <$> [102; 103; 104; 97; 98; 99; 100; 101; 105; 106]).
Proof. by vm_compute. Qed.
(** Inside of one node down: right.  Up: "abcd" with "a" moved behind "c" is
    "aaba", and moved behind "d" writes behind the buffer. *)
Example vstr_mov_node_down : after_move (letters 4) 1 3 1 = Some (Some <$> [97; 99; 98; 100]).
Proof. by vm_compute. Qed.
Example vstr_mov_node_up : after_move (letters 4) 3 1 1 = Some (Some <$> [97; 97; 98; 97]).
Proof. by vm_compute. Qed.
Example vstr_mov_node_up_out : after_move (letters 4) 4 1 1 = None.
Proof. by vm_compute. Qed.

(** A C string of a position, a move within the string, and the C string of
    another position after it, with the character now there *)
#[local] Instance zeros : Junk := λ _ _, 0.
Definition export_move_export (l : list Z) (p1 p pos from_pos len : Z) : option (option (list Z) * option byte_or_non) :=
  '(q, w) ← (on_string 0 (vstr_export_cstr_ptr p1 1);; vstr_mov no_conv no_all_ref 0 pos 0 from_pos len;;
    on_string 0 (vstr_export_cstr_ptr p 1)) (one_string l);
  s ← st_of w 0; mret (q ← q; load (h_mem (w_heap w)) q 1, st_content s !! Z.to_nat (p - 1)).
(** Inside of one node the cache is not told: 'a' is exported where 'b' is. *)
Example vstr_mov_node_stale_cache : export_move_export (letters 10) 1 1 0 2 1 = Some (Some [97], Some (Some 98)).
Proof. by vm_compute. Qed.
(** Up, the cache is told of the place before the range was taken out: 'h' was
    exported from position 8, and is exported from 5, where 'b' is. *)
Example vstr_mov_up_stale_cache : export_move_export (letters 10) 8 5 6 1 3 = Some (Some [104], Some (Some 98)).
Proof. by vm_compute. Qed.

(** The numbers of nodes of two strings after a move of (2, 5) from one of
    ten bytes in three nodes, with [b_num]; [peek]: position 6 was looked up
    before, so that the cache remembers the second node as number 2, and
    vstr__base_split_node does not correct this when it splits the first. *)
Definition two_strings : World := wrun (on_string 0 (vstr_add_rep_chr 0 97 10)) demo_w2.
Definition nodes_after_move (peek : bool) : option (option (nat * Z) * option (nat * Z)) :=
  '(_, w) ← (on_string 0 (if peek then vstr_export_chr 6 else mret 0);; vstr_mov no_conv no_all_ref 1 0 0 2 5) two_strings;
  let show k := (λ s, (length (b_nodes (s_base s)), b_num (s_base s))) <$> st_of w k in mret (show 0%nat, show 1%nat).
Example vstr_mov_nums : nodes_after_move false = Some (Some (3%nat, 3), Some (2%nat, 2)).
Proof. by vm_compute. Qed.
Example vstr_mov_nums_remembered : nodes_after_move true = Some (Some (3%nat, 4), Some (2%nat, 1)).
Proof. by vm_compute. Qed.
